(* ===== verification/_CoqProject ===== *)
-Q . S2P
Prelude.v
CStr.v
FileIO.v
Db.v
DbLayout.v
DbPrim.v
DbChain.v
DbOps.v
DbSpec.v
DbIter.v
DbOpen.v
DbClient.v
DbLocks.v
DbTheorems.v
ReadN.v
PrintQueue.v
PrintSpool.v
PrintNet.v
PrintDaemon.v
PrintAccept.v
PrintFiles.v
PrintIpp.v
PrintWire.v
PrintThread.v
PrintTurn.v
PrintClient.v
PrintTheorems.v
Inotify.v
InotifyCache.v
InotifyInv.v
InotifySim.v
InotifyTheorems.v
Semaph.v
SemaphInv.v
SemaphTheorems.v
FdPass.v
CallArgs.v
Calld.v
CalldFiles.v
CalldReq.v
CalldLive.v
Dial.v
DialChat.v
CalldTheorems.v
ShmXfr.v
ShmXfrInv.v
ShmXfrTheorems.v
SvmsgFile.v
SvmsgInv.v
SvmsgTheorems.v
LineRead.v
GetNum.v
InetSockets.v
SeqNum.v
SeqNumSpec.v
SeqNumTheorems.v
OpenServer.v
OpenLoop.v
OpenTheorems.v
CallSession.v
JobQueue.v
Bpf.v
SeccompFilters.v
SeccompNotify.v
SeccompBlob.v
SeccompTheorems.v
Getopt.v
NsCapable.v
AclUpdate.v
AclParse.v
UsernsExec.v
PidFile.v
Setenv.v
TellWait.v
Tty.v
Ftw.v
ErrRoutines.v
Execlp.v
ProdCond.v
FooHash.v
