(* ===== verification/Prelude.v ===== *)
(** * Verification of programs of the repository Linux-Programming-Exercise

    The repository collects the programs of two books on Unix programming ([src/apue2e]
    and [src/tlpi-dist]) with some exercises.  Most are demonstrations of a system call;
    those with logic of their own are modelled here:

    - the database library [src/apue2e/db/db.c], with the locking wrappers of
      [lib/lockreg.c], and its test program [db/t4.c];
    - the print spooler [src/apue2e/ipp]: the daemon [printd.c], the command [print.c],
      their utilities [util.c], with [lib/readn.c], [lib/writen.c], [sockets/clconn.c];
    - the directory tree monitor [src/tlpi-dist/inotify/inotify_dtree.c];
    - the semaphore routines [src/apue2e/lib/semaph.c];
    - the connection server [src/apue2e/calld] with its dialing child, its
      client [src/apue2e/call] with the session it leads, and what they talk through: [lib/sendfd.c],
      [lib/senderr.c], [lib/recvfd.c], [lib/bufargs.c];
    - the open servers [src/apue2e/opend] and [opend.fe] with their client function
      [open/open.c], which use the same routines;
    - the transfer through shared memory [src/tlpi-dist/svshm/svshm_xfr_writer.c] and
      [svshm_xfr_reader.c] over the binary semaphores of [svsem/binary_sems.c];
    - the file service over message queues [src/tlpi-dist/svmsg/svmsg_file_server.c] and
      [svmsg_file_client.c];
    - reading of lines and blocks ([src/tlpi-dist/sockets/read_line.c], [read_line_buf.c],
      [rdwrn.c]), numeric arguments ([lib/get_num.c]), creation of sockets ([inet_sockets.c]) and
      the sequence number services that use them ([is_seqnum_sv.c], [is_seqnum_v2_sv.c],
      [is_seqnum_cl.c], and over FIFOs [pipes/fifo_seqnum_server.c] and [fifo_seqnum_client.c]);
    - the job queue of [src/apue2e/threads/rwlock.c];
    - the seccomp filters of [src/tlpi-dist/seccomp], the supervisors [seccomp_unotify_mkdir.c] and
      [seccomp_unotify_openat.c], and the programs [dump_seccomp_filter.c] and [seccomp_launch.c];
    - user namespaces: [src/tlpi-dist/namespaces/ns_capable.c] and [userns_child_exec.c] with [userns_functions.c] and
      [cap/cap_functions.c]; access control lists: [acl/acl_update.c] with [users_groups/ugid_functions.c];
    - smaller routines with logic of their own: PID files ([filelock/create_pid_file.c], [src/apue2e/daemons/single.c]), the environment
      ([proc/setenv.c]), [TELL_WAIT] and its companions ([src/apue2e/lib/tellwait.c]), terminal modes ([lib/ttymodes.c], [tty/tty_functions.c]), the walk
      through a hierarchy ([file/ftw4.c]), [execlp] ([procexec/execlp.c]), producers and a consumer ([threads/prod_condvar.c]), reference-counted
      objects ([src/apue2e/threads/mutex1.c] to [mutex3.c]), error and log routines ([lib/error.c], [lib/errorlog.c], [lib/error_functions.c]).

    ** How the programs are modelled

    A C function becomes a function of the same name in the monad [M] of this file: it
    takes the state of the process and returns a value, or the process ends through one
    of the fatal error routines ([fatal]).  An access outside an object ends in
    [Undefined]; that a run returns says there is none.  Bytes and machine integers are
    integers [Z], with the width written out where it matters; byte strings are [list Z].
    A loop that is not structural takes fuel, and running out of it is the outcome
    [Loops], so that a theorem that says the code returns says that the fuel was enough; where the fuel is
    not the size of some data of the model (the number of lines or bytes of a file) it is a
    parameter, and the theorem says how much is needed.

    What the operating system does is modelled as its documentation says ([FileIO],
    the kernel part of [Semaph], the tree of [InotifySim], the queues of [SvmsgFile], the machine of [Bpf]) or is a parameter with
    hypotheses about documented behaviour (the classes [Kernel] of [FileIO], [Source] and
    [Sink] of [ReadN], [Libc] of [PrintDaemon], [Network] of [PrintThread], [InotifyEnv]
    of [Inotify], [CallEnv] of [Calld], [DialEnv] of [Dial], [SockKernel] of [InetSockets], [OpenEnv] and
    [AcceptKernel] of [OpenServer], [Terminal] of [CallSession], the classes of [NsCapable], [AclUpdate] and [UsernsExec], [EnvLib] of [Setenv],
    [TtyDev] of [Tty], [FtwKernel] of [Ftw], [ExecEnv] of [Execlp], [FooEnv] of [FooHash], [ErrEnv] of [ErrRoutines]).  Where it is a list of what the calls are going to
    find (bytes in pieces, interruptions, failures), a theorem for all such lists covers every behaviour.

    ** Files

    - [Prelude]: the monad, triples, tactics, lists.  [CStr]: strings of the C library
      and number conversion.  [FileIO]: files, descriptors, record locks.
      [ReadN]: [readn] and [writen] over any descriptor.
    - Database.  [Db] translates [db.c] function by function.  [DbLayout] describes the
      two files as a structure of records, [DbPrim] the reading and writing of its parts,
      [DbChain] the hash chains, the free list and the invariant, [DbOps] searching,
      deleting and storing, [DbSpec] the operations against a finite map, [DbIter]
      sequential reading, [DbOpen] opening and closing, [DbLocks] the locks,
      [DbClient] an interface [KVStore] with the library as an instance and [t4] as its
      client.  [DbTheorems]: C1 to C6.
    - Print spooler.  [PrintQueue] has the job list with its pointers, [PrintSpool]
      interleavings of the threads on it, [PrintNet] sockets, timed reads and message
      layouts, [PrintDaemon] the daemon's functions, [PrintAccept] [client_thread],
      [PrintFiles] job number and workers, [PrintIpp] and [PrintWire] the printer's
      protocol, [PrintThread] and [PrintTurn] [printer_thread], [PrintClient] the print
      command and the whole way of a file.  [PrintTheorems]: C7 to C11.
    - Directory tree monitor.  [Inotify] translates [inotify_dtree.c], [InotifyCache]
      describes the cache, [InotifyInv] its invariant, [InotifySim] the simulation with a
      directory tree.  [InotifyTheorems]: C12, C13.
    - Semaphores.  [Semaph] has the kernel's sets with undo records and the routines as
      programs of system calls, [SemaphInv] the invariant of their interleavings.
      [SemaphTheorems]: C14.
    - Connection server.  [FdPass] passes descriptors and messages, [CallArgs] builds
      and reads requests, [Calld] is the server, [CalldFiles] its configuration
      files, [CalldReq] the search for a free line against a reference, [CalldLive]
      failing children, [Dial] the dialing child, [DialChat] its dialogue
      against a reference, [CallSession] the session of [call].  [CalldTheorems]: C15 to C17.
    - Shared memory.  [ShmXfr] has writer and reader as step functions, [ShmXfrInv] the invariant
      of their interleavings, a measure and the absence of deadlock.  [ShmXfrTheorems]: C18, C19.
    - Message queues.  [SvmsgFile] has the file server, its children and its clients as step functions, [SvmsgInv] the
      invariant of their interleavings.  [SvmsgTheorems], with a measure and the absence of deadlock: C20, C21.
    - Sequence numbers.  [LineRead] has the reading and writing routines, [GetNum] the arguments, [InetSockets] the creation
      of sockets, [SeqNum] the servers and clients, [SeqNumSpec] the interface [SeqService] with the servers as
      instances.  [SeqNumTheorems]: C22, C23, C27.
    - Open servers.  [OpenServer] translates them, [OpenLoop] has the loop as it is meant and
      that both versions implement it.  [OpenTheorems]: C24, C25.
    - Job queue.  [JobQueue]: C26.
    - Seccomp.  [Bpf] is the kernel's filter machine, [SeccompFilters] has the filters and what each decides, [SeccompNotify] the
      supervisors and what they can rely on, [SeccompBlob] filters in files: C30.  [SeccompTheorems]: C28, C29.
    - User namespaces.  [Getopt] is [getopt] of the C library.  [NsCapable] has the program over a tree of namespaces, and its verdict: C31.
      [UsernsExec] has the options, the map files, the steps of parent and child: C33.
    - Access control lists.  [AclUpdate] has the program and the changes against a map of entries, [AclParse] the
      specifications and the whole: C32.
    - Smaller routines, each with its theorem in its file: [PidFile] C34, [Setenv] C35, [TellWait] C36, [Tty] C37, [Ftw] C38, [Execlp] C39, [ProdCond] C40;
      [FooHash] and [ErrRoutines] without one in the list.

    ** What the theorems show

    - Database: a handle behaves as a finite map under every sequence of calls (C1), storing on every branch (C2), both where the C library gives a meaning
      to the [sprintf] of [idxbuf] into itself by which records are removed ([k_self_copy] of [Kernel]; a call that needs it is undefined otherwise), iteration is complete (C3), closing and
      opening loses nothing (C4), files are written only under the right lock (C5),
      a failing open leaves no descriptor (C6).
      Further theorems: fetching and deleting, bad arguments, an input that the code does not reject but should, keys with the separator, the test program.
    - Print spooler: jobs are printed in order and none is lost under every interleaving
      (C7), accepting a job, and what becomes of its connection when other workers are listed (C8), restarts (C9), the turn of the printer thread when the
      printer's answer comes in one read (C10), the command and the daemon together (C11).
      Further theorems: job numbers, the protocol's headers, requests refused, printers out of reach, the printer's answers, the job number's file, the configuration file, timed reads, a job number reused
      after a crash, a lost worker, a response header that is cut so that the printer thread hangs.
    - Directory tree monitor: the cache's invariant (C12), the cache follows the tree
      through every change (C13); rebuilding; the limits of its consistency check.
    - Semaphores: mutual exclusion and the meaning of the counter when processes
      interleave and die at any moment (C14), removal of unused sets only; two races.
    - Connection server: descriptors and messages arrive whole however the stream cuts them, but for one cut that ends the receiver (C15), requests get the line that a
      reference search finds, or give up as it does (C16), failures reach the
      client (C17); options arrive as typed, the dialogue follows its script, a session takes and puts files as they are and
      copies what is typed and answered.
    - Shared memory: under every interleaving the output is the input, and the two programs
      exclude each other and clean up (C18); they terminate and never deadlock (C19).
    - Message queues: what clients of the file server report is true under every interleaving (C20), and all of them are
      served if nothing fails (C21); what happens when something does.
    - Sequence numbers: the buffered line reader equals the simple one, and what interruptions make it lose (C22), what the servers
      give out never overlaps, up to the first client that stays silent, for which they wait for ever (C23), exactly which numerals are accepted (C27); a session of client and server; sockets created and left
      open; what [writen] writes [readn] reads.
    - Open servers: [csopen] works like [open] as far as the buffers of the servers go (C24), the loops with [poll] and [select] do the same but for
      what clients send just before they hang up (C25).
    - Job queue: it is a list, as long as the tail stays (C26), and what happens when it does not.
    - Seccomp: what the filters decide about every system call (C28; further theorems for the other filters), what a hostile target can make its
      supervisor do: nothing that was not in its memory while it was blocked (C29), filters saved and loaded by a launcher on which they act too (C30); a session.
    - User namespaces: the verdict on capabilities is right by the rules of the manual (C31); a command in a new namespace starts after its maps are
      written, or after the parent is gone (C33).
    - Access control lists: reading a specification back and updating is inserting and deleting in a map (C32).
    - Smaller routines: one instance of a daemon runs while its PID file stays (C34), the environment is a map, also when memory runs short (C35), no signal of [TELL_PARENT] and [TELL_CHILD]
      is lost by the first wait (C36), what terminal modes are asked for and what is put back on any driver (C37), the walk with one buffer of bytes visits the tree, up to the first path name
      that does not fit (C38), [execlp] tries the right files in order (C39), the consumer gets every unit and never hangs, for counts whose sum is an [int] (C40).  Lemmas: the unlinking of
      reference-counted objects, which the code never enters in their table; the lines of the error routines.

    ** What is not modelled

    The [main] functions of the daemons, which detach from the terminal, open sockets and
    start the threads or loops modelled here; output to terminals and logs where it decides nothing; pseudo terminals; the
    remaining programs of the books and the exercises, which show one system
    call each.  Signals are taken between the turns of a loop ([Calld]) or are inputs of
    the model.  Overflow of file offsets and job numbers beyond their width is excluded by
    hypotheses where it would matter.  [Inotify] ends in [Undefined] when a name fills its array in the cache, before later reads of it run past its end. *)
From stdpp Require Export base numbers list gmap strings.
From Stdlib Require Export ZArith Lia.

Open Scope Z_scope.

#[global] Arguments Z.eqb : simpl never.
#[global] Arguments Z.ltb : simpl never.
#[global] Arguments Z.leb : simpl never.
#[global] Arguments Z.gtb : simpl never.
#[global] Arguments Z.geb : simpl never.

(** ** Processes: state, return values, fatal exits

    A C function that works on a process state [S] either returns or ends the
    process through one of the fatal error routines of [src/apue2e/lib/error.c]. *)

Inductive fatal :=
  | Err_dump (msg : string)   (* message, core dump, exit *)
  | Err_quit (msg : string)   (* message, exit(1) *)
  | Err_sys (msg : string)    (* message with errno text, exit(1) *)
  | Exits (status : Z)        (* exit(status) *)
  | Undefined (what : string) (* an access outside an object: no meaning in C *)
  | Loops.                    (* the fuel of a loop is used up *)

Inductive outcome (S A : Type) :=
  | Ret (a : A) (s : S)
  | Exit (e : fatal) (s : S).
Arguments Ret {S A} a s.
Arguments Exit {S A} e s.

Definition M (S A : Type) : Type := S -> outcome S A.

#[export] Instance M_ret {S} : MRet (M S) := fun A a s => Ret a s.
#[export] Instance M_bind {S} : MBind (M S) := fun A B k m s =>
  match m s with
  | Ret a s' => k a s'
  | Exit e s' => Exit e s'
  end.

Definition die {S A} (e : fatal) : M S A := fun s => Exit e s.
Definition get {S} : M S S := fun s => Ret s s.
Definition modify {S} (f : S -> S) : M S unit := fun s => Ret tt (f s).
Definition when {S} (b : bool) (m : M S unit) : M S unit := if b then m else mret tt.

(** Code that works on a part of the state. *)
Definition zoom {S T A} (g : S -> T) (p : T -> S -> S) (m : M T A) : M S A := fun s =>
  match m (g s) with
  | Ret a t => Ret a (p t s)
  | Exit e t => Exit e (p t s)
  end.

(** Running a bind: the lemmas symbolic execution is made of. *)
Lemma bind_ret {S A B} (m : M S A) (k : A -> M S B) s a s' :
  m s = Ret a s' -> (m ≫= k) s = k a s'.
Proof. intros H. unfold mbind, M_bind. by rewrite H. Qed.

Lemma bind_exit {S A B} (m : M S A) (k : A -> M S B) s e s' :
  m s = Exit e s' -> (m ≫= k) s = Exit e s'.
Proof. intros H. unfold mbind, M_bind. by rewrite H. Qed.

Lemma bind_mret {S A B} (a : A) (k : A -> M S B) s :
  (mret a ≫= k) s = k a s.
Proof. done. Qed.

(** Partial-correctness triples over the returning runs, used where a property
    must hold on every path and the values computed do not matter. *)
Definition triple {S A} (P : S -> Prop) (m : M S A) (Q : A -> S -> Prop) : Prop :=
  forall s, P s -> match m s with Ret a s' => Q a s' | Exit _ _ => True end.

Section Triples.
Context {S : Type}.
Implicit Types P R : S -> Prop.

Lemma triple_ret {A} (a : A) (Q : A -> S -> Prop) : triple (Q a) (mret a) Q.
Proof. by intros s Hs. Qed.

Lemma triple_die {A} P e (Q : A -> S -> Prop) : triple P (die e) Q.
Proof. by intros s Hs. Qed.

Lemma triple_bind {A B} P (m : M S A) (k : A -> M S B) (R : A -> S -> Prop) Q :
  triple P m R -> (forall a, triple (R a) (k a) Q) -> triple P (m ≫= k) Q.
Proof.
  intros Hm Hk s Hs. unfold mbind, M_bind. specialize (Hm s Hs).
  destruct (m s) as [a s'|]; [|done]. by apply Hk.
Qed.

Lemma triple_conseq {A} P P' (m : M S A) (Q Q' : A -> S -> Prop) :
  triple P' m Q' -> (forall s, P s -> P' s) -> (forall a s, Q' a s -> Q a s) -> triple P m Q.
Proof.
  intros Hm HP HQ s Hs. specialize (Hm s (HP s Hs)).
  destruct (m s); [by apply HQ | done].
Qed.

Lemma triple_get P : triple P get (fun a s => a = s /\ P s).
Proof. by intros s Hs. Qed.

Lemma triple_modify (f : S -> S) (Q : unit -> S -> Prop) :
  triple (fun s => Q tt (f s)) (modify f) Q.
Proof. by intros s Hs. Qed.

Lemma triple_if {A} P (b : bool) (m1 m2 : M S A) Q :
  triple (fun s => b = true /\ P s) m1 Q ->
  triple (fun s => b = false /\ P s) m2 Q ->
  triple P (if b then m1 else m2) Q.
Proof. intros H1 H2 s Hs. destruct b; [by apply H1 | by apply H2]. Qed.

Lemma triple_run {A} P (m : M S A) Q s a s' :
  triple P m Q -> P s -> m s = Ret a s' -> Q a s'.
Proof. intros Hm Hs E. specialize (Hm s Hs). by rewrite E in Hm. Qed.
End Triples.

(** ** Tactics *)

(** [run H] executes the leading command of a bind with the equation [H]. *)
Ltac run H := rewrite (bind_ret _ _ _ _ _ H); cbn beta.
Ltac runs H := rewrite H; cbn beta.

(** Decide a boolean test of the source from the arithmetic facts at hand. *)
Ltac barith := first
  [ lia | apply Z.ltb_lt; lia | apply Z.ltb_ge; lia | apply Z.leb_le; lia | apply Z.leb_gt; lia
  | apply Z.eqb_eq; lia | apply Z.eqb_neq; lia
  | rewrite ?andb_true_iff, ?orb_true_iff, ?andb_false_iff, ?orb_false_iff, ?negb_true_iff, ?negb_false_iff; lia ].
Ltac btrue b := replace b with true by (symmetry; barith).
Ltac bfalse b := replace b with false by (symmetry; barith).

(** Turn the boolean comparisons of the hypotheses and the goal into facts. *)
Ltac bsimp := repeat match goal with
  | H : _ && _ = true |- _ => apply andb_true_iff in H as [??]
  | H : _ || _ = false |- _ => apply orb_false_iff in H as [??]
  | H : negb _ = true |- _ => apply negb_true_iff in H
  | H : negb _ = false |- _ => apply negb_false_iff in H
  | H : (_ =? _)%Z = true |- _ => apply Z.eqb_eq in H
  | H : (_ =? _)%Z = false |- _ => apply Z.eqb_neq in H
  | H : (_ <? _)%Z = true |- _ => apply Z.ltb_lt in H
  | H : (_ <? _)%Z = false |- _ => apply Z.ltb_ge in H
  | H : (_ <=? _)%Z = true |- _ => apply Z.leb_le in H
  | H : (_ <=? _)%Z = false |- _ => apply Z.leb_gt in H
  end.

(** ** Lists *)

Section Lists.
Context {A : Type}.
Implicit Types l : list A.

Lemma take_drop_app l1 l2 l3 :
  take (length l2) (drop (length l1) (l1 ++ l2 ++ l3)) = l2.
Proof. by rewrite drop_app_length, take_app_length. Qed.

Lemma drop_app_le_length n l1 l2 : (n <= length l1)%nat -> drop n (l1 ++ l2) = drop n l1 ++ l2.
Proof. intros. by rewrite drop_app_le. Qed.

Lemma insert_app_mid l1 l2 (x y : A) :
  <[length l1 := y]> (l1 ++ x :: l2) = l1 ++ y :: l2.
Proof. rewrite insert_app_r_alt, Nat.sub_diag by lia. done. Qed.

Lemma lookup_split l i x :
  l !! i = Some x -> exists l1 l2, l = l1 ++ x :: l2 /\ length l1 = i.
Proof.
  intros H. exists (take i l), (drop (S i) l). split.
  - symmetry. by apply take_drop_middle.
  - rewrite length_take. apply lookup_lt_Some in H. lia.
Qed.

Lemma insert_split l i x y :
  l !! i = Some x ->
  exists l1 l2, l = l1 ++ x :: l2 /\ <[i := y]> l = l1 ++ y :: l2 /\ length l1 = i.
Proof.
  intros (l1 & l2 & -> & <-)%lookup_split. exists l1, l2.
  by rewrite insert_app_mid.
Qed.
End Lists.

(** In a list with distinct keys a key has one value. *)
Lemma nodup_fst_inj {A B} (l : list (A * B)) k a b :
  NoDup (map fst l) -> (k, a) ∈ l -> (k, b) ∈ l -> a = b.
Proof.
  induction l as [|[k' c] l IH]; simpl; intros ND Ha Hb; [by apply not_elem_of_nil in Ha|].
  apply NoDup_cons in ND as [Hn ND].
  assert (Hno : forall d, (k', d) ∉ l) by (intros d Hd; apply Hn, list_elem_of_fmap; by exists (k', d)).
  apply elem_of_cons in Ha as [Ha|Ha]; apply elem_of_cons in Hb as [Hb|Hb]; simplify_eq; try done.
  - by apply Hno in Hb.
  - by apply Hno in Ha.
  - by apply IH.
Qed.

Lemma nodup_map_filter {A B} (f : A -> B) (P : A -> Prop) `{forall x, Decision (P x)} (l : list A) :
  NoDup (map f l) -> NoDup (map f (filter P l)).
Proof. intros ND. eapply sublist_NoDup; [exact ND|]. apply fmap_sublist, sublist_filter. Qed.

Lemma concat_lookup_split {A B} (f : A -> list B) (l1 l2 : list A) x :
  concat (map f (l1 ++ x :: l2)) = concat (map f l1) ++ f x ++ concat (map f l2).
Proof. by rewrite map_app, concat_app. Qed.

(** Character constants and literals of the source: bytes as integers 0..255. *)
Fixpoint bytes (s : string) : list Z :=
  match s with
  | EmptyString => []
  | String a s' => Z.of_N (Ascii.N_of_ascii a) :: bytes s'
  end.
