(* ===== verification/CStr.v ===== *)
(** C strings, number conversion and formatting.

    Bytes are integers 0..255; a [char] used in arithmetic is their signed
    reading.  A buffer is a list of bytes; the string in it ends before the first
    null.  The conversions are those the sources call: [strlen], [strchr],
    [strcmp], [atol], [atoi] and the [%d], [%ld], [%*d] directives of [sprintf]. *)
From S2P Require Import Prelude.

Definition NUL : Z := 0.
Definition NEWLINE : Z := 10.
Definition SPACE : Z := 32.
Definition COMMA : Z := 44.

Definition LONG_MAX : Z := 2 ^ 63 - 1.
Definition LONG_MIN : Z := - 2 ^ 63.

(** Conversion to a two's complement integer of [w] bits. *)
Definition swrap (w z : Z) : Z :=
  let m := z mod 2 ^ w in if m <? 2 ^ (w - 1) then m else m - 2 ^ w.
Definition uwrap (w z : Z) : Z := z mod 2 ^ w.

(** A byte read through a (signed) [char]. *)
Definition schar (b : Z) : Z := swrap 8 b.

(** The C string at the start of a buffer. *)
Fixpoint cstr (b : list Z) : list Z :=
  match b with
  | [] => []
  | c :: b' => if c =? 0 then [] else c :: cstr b'
  end.

(** Overwrite the front of a buffer. *)
Definition poke (bs b : list Z) : list Z := bs ++ drop (length bs) b.

Definition strlen (b : list Z) : Z := Z.of_nat (length (cstr b)).

Fixpoint strchr_from (i : nat) (b : list Z) (c : Z) : option nat :=
  match b with
  | [] => None
  | x :: b' => if x =? c then Some i else if x =? 0 then None else strchr_from (S i) b' c
  end.

(** [strchr (b + off, c)] as an index into [b]; [c] is not the null byte. *)
Definition strchr (b : list Z) (off : nat) (c : Z) : option nat :=
  strchr_from off (drop off b) c.

(** [strcmp(a, b) == 0]. *)
Definition streq (a b : list Z) : bool := bool_decide (cstr a = cstr b).

Definition isspace (c : Z) : bool := (c =? 32) || ((9 <=? c) && (c <=? 13)).
Definition isdigit (c : Z) : bool := (48 <=? c) && (c <=? 57).

Fixpoint skip_space (s : list Z) : list Z :=
  match s with
  | c :: s' => if isspace c then skip_space s' else s
  | [] => []
  end.

Fixpoint digits_value (acc : Z) (s : list Z) : Z :=
  match s with
  | c :: s' => if isdigit c then digits_value (acc * 10 + (c - 48)) s' else acc
  | [] => acc
  end.

(** [strtol(s, NULL, 10)]: leading white space, a sign, digits; out of range
    values saturate. *)
Definition strtol10 (s : list Z) : Z :=
  let v := match skip_space s with
           | 45 :: s' => - digits_value 0 s'
           | 43 :: s' => digits_value 0 s'
           | s' => digits_value 0 s'
           end in
  Z.max LONG_MIN (Z.min LONG_MAX v).

Definition atol (s : list Z) : Z := strtol10 s.
Definition atoi (s : list Z) : Z := swrap 32 (strtol10 s).

(** Decimal digits of a non-negative integer, most significant first. *)
Fixpoint digs (fuel : nat) (n : Z) : list Z :=
  match fuel with
  | O => []
  | S f => (if n <? 10 then [] else digs f (n / 10)) ++ [48 + n mod 10]
  end.
Definition udec (n : Z) : list Z := digs (S (Z.to_nat (Z.log2 n))) n.

(** ["%d"], ["%ld"], ["%lld"]. *)
Definition dec (n : Z) : list Z := if n <? 0 then 45 :: udec (- n) else udec n.

(** ["%*d"] with field width [w]: right justified, blanks on the left. *)
Definition fmt_w (w : nat) (n : Z) : list Z :=
  replicate (w - length (dec n)) SPACE ++ dec n.

(** ** Strings *)

Definition nonul (s : list Z) : Prop := Forall (fun c => c <> 0) s.

(** [%ns]: after white space, up to [n] characters that are not white space. *)
Fixpoint span_word (n : nat) (s : list Z) : list Z * list Z :=
  match n, s with
  | S k, b :: s' => if isspace b then ([], s) else let '(l, r) := span_word k s' in (b :: l, r)
  | _, _ => ([], s)
  end.

(** [fgets(line, n + 1, fp)]: the line and the rest of the file. *)
Fixpoint fgets (n : nat) (c : list Z) : list Z * list Z :=
  match n, c with
  | O, _ => ([], c)
  | _, [] => ([], [])
  | S k, b :: c' =>
      if b =? NEWLINE then ([b], c') else let '(l, r) := fgets k c' in (b :: l, r)
  end.

(** The string before the first [c], and the one after it. *)
Fixpoint split_at (c : Z) (s : list Z) : option (list Z * list Z) :=
  match s with
  | [] => None
  | x :: s' => if x =? c then Some ([], s') else match split_at c s' with Some (a, b) => Some (x :: a, b) | None => None end
  end.

Lemma cstr_app s b : nonul s -> cstr (s ++ 0 :: b) = s.
Proof.
  induction 1 as [|c s Hc _ IH]; [done|]. simpl.
  destruct (Z.eqb_spec c 0); [done|]. by rewrite IH.
Qed.

Lemma cstr_nonul b : nonul (cstr b).
Proof.
  induction b as [|c b IH]; simpl; [constructor|].
  destruct (Z.eqb_spec c 0); [constructor|]. by constructor.
Qed.

Lemma cstr_id s : nonul s -> cstr s = s.
Proof.
  induction 1 as [|c s Hc _ IH]; [done|]. simpl.
  destruct (Z.eqb_spec c 0); [done|]. by rewrite IH.
Qed.

Lemma nonul_app s1 s2 : nonul (s1 ++ s2) <-> nonul s1 /\ nonul s2.
Proof. apply Forall_app. Qed.

Lemma strchr_from_skip s c i b :
  nonul s -> c ∉ s -> strchr_from i (s ++ b) c = strchr_from (i + length s) b c.
Proof.
  intros Hs. revert i. induction Hs as [|x s Hx _ IH]; intros i Hc; simpl.
  { by rewrite Nat.add_0_r. }
  apply not_elem_of_cons in Hc as [Hne Hc].
  destruct (Z.eqb_spec x c); [congruence|].
  destruct (Z.eqb_spec x 0); [done|].
  rewrite IH by done. f_equal. lia.
Qed.

Lemma strchr_found s c b pre :
  nonul s -> c ∉ s ->
  strchr (pre ++ s ++ c :: b) (length pre) c = Some (length pre + length s)%nat.
Proof.
  intros Hs Hc. unfold strchr. rewrite drop_app_length.
  rewrite strchr_from_skip by done. simpl. by rewrite Z.eqb_refl.
Qed.

Lemma strchr_none s c b pre :
  nonul s -> c ∉ s -> c <> 0 -> strchr (pre ++ s ++ 0 :: b) (length pre) c = None.
Proof.
  intros Hs Hc H0. unfold strchr. rewrite drop_app_length.
  rewrite strchr_from_skip by done. simpl. by destruct (Z.eqb_spec 0 c); [congruence|].
Qed.

(** ** Decimal conversion *)

Lemma digs_isdigit f n : 0 <= n -> Forall (fun c => isdigit c = true) (digs f n).
Proof.
  revert n. induction f as [|f IH]; intros n Hn; simpl; [constructor|].
  apply Forall_app. split.
  - destruct (Z.ltb_spec n 10); [constructor|].
    apply IH. apply Z.div_pos; lia.
  - constructor; [|constructor]. pose proof (Z.mod_pos_bound n 10).
    unfold isdigit. rewrite andb_true_iff. lia.
Qed.

Lemma udec_isdigit n : 0 <= n -> Forall (fun c => isdigit c = true) (udec n).
Proof. apply digs_isdigit. Qed.

Lemma digits_value_stop s acc c b :
  Forall (fun c => isdigit c = true) s -> isdigit c = false ->
  digits_value acc (s ++ c :: b) = digits_value acc s.
Proof.
  intros Hs Hc. revert acc. induction Hs as [|x s Hx _ IH]; intros acc; simpl.
  - by rewrite Hc.
  - rewrite Hx. apply IH.
Qed.

Lemma digits_value_app s1 s2 acc :
  Forall (fun c => isdigit c = true) s1 ->
  digits_value acc (s1 ++ s2) = digits_value (digits_value acc s1) s2.
Proof.
  intros Hs. revert acc. induction Hs as [|x s Hx _ IH]; intros acc; simpl; [done|].
  rewrite Hx. apply IH.
Qed.

Lemma digs_value f n : 0 <= n -> n < 2 ^ Z.of_nat f -> digits_value 0 (digs f n) = n.
Proof.
  revert n. induction f as [|f IH]; intros n Hn Hf; simpl.
  { simpl in Hf. lia. }
  assert (Hd : isdigit (48 + n mod 10) = true).
  { pose proof (Z.mod_pos_bound n 10). unfold isdigit. rewrite andb_true_iff. lia. }
  destruct (Z.ltb_spec n 10); simpl.
  - rewrite Hd, Z.mod_small by lia. lia.
  - rewrite digits_value_app by (apply digs_isdigit, Z.div_pos; lia). simpl.
    rewrite Hd, IH.
    + pose proof (Z.div_mod n 10). lia.
    + apply Z.div_pos; lia.
    + rewrite Nat2Z.inj_succ, Z.pow_succ_r in Hf by lia.
      apply Z.div_lt_upper_bound; lia.
Qed.

Lemma udec_value n : 0 <= n -> digits_value 0 (udec n) = n.
Proof.
  intros Hn. apply digs_value; [done|].
  rewrite Nat2Z.inj_succ, Z2Nat.id by apply Z.log2_nonneg.
  destruct (Z.eq_dec n 0) as [->|]; [by vm_compute|].
  apply Z.log2_spec. lia.
Qed.

Lemma digs_length f n k :
  0 <= n -> n < 10 ^ Z.of_nat k -> (0 < k)%nat -> (length (digs f n) <= k)%nat.
Proof.
  revert n k. induction f as [|f IH]; intros n k Hn Hk Hk0; simpl; [lia|].
  rewrite length_app. simpl. destruct (Z.ltb_spec n 10); simpl; [lia|].
  destruct k as [|k]; [lia|]. rewrite Nat2Z.inj_succ, Z.pow_succ_r in Hk by lia.
  destruct (decide (k = 0%nat)) as [->|]; [simpl in Hk; lia|].
  specialize (IH (n / 10) k). assert (length (digs f (n / 10)) <= k)%nat; [|lia].
  apply IH; [apply Z.div_pos; lia | apply Z.div_lt_upper_bound; lia | lia].
Qed.

Lemma udec_length_pos n : (0 < length (udec n))%nat.
Proof. unfold udec. simpl. rewrite length_app. simpl. lia. Qed.

Lemma dec_nonneg n : 0 <= n -> dec n = udec n.
Proof. intros. unfold dec. by destruct (Z.ltb_spec n 0); [lia|]. Qed.

Lemma dec_length_le n k : 0 <= n < 10 ^ Z.of_nat k -> (0 < k)%nat -> (length (dec n) <= k)%nat.
Proof. intros [? ?] ?. rewrite dec_nonneg by done. by apply digs_length. Qed.

Lemma dec_length_pos n : 0 <= n -> (0 < length (dec n))%nat.
Proof. intros. rewrite dec_nonneg by done. apply udec_length_pos. Qed.

Lemma dec_isdigit n : 0 <= n -> Forall (fun c => isdigit c = true) (dec n).
Proof. intros. rewrite dec_nonneg by done. by apply udec_isdigit. Qed.

Lemma isdigit_range c : isdigit c = true -> 48 <= c <= 57.
Proof. unfold isdigit. rewrite andb_true_iff. lia. Qed.

Lemma dec_nonul n : 0 <= n -> nonul (dec n).
Proof.
  intros Hn. eapply Forall_impl; [by apply dec_isdigit|].
  intros c ?%isdigit_range. lia.
Qed.

Lemma dec_not_in n c : 0 <= n -> isdigit c = false -> c ∉ dec n.
Proof.
  intros Hn Hc Hin. pose proof (dec_isdigit n Hn) as Hd.
  rewrite Forall_forall in Hd. apply Hd in Hin. congruence.
Qed.

Lemma fmt_w_length w n : 0 <= n -> (length (dec n) <= w)%nat -> length (fmt_w w n) = w.
Proof. intros. unfold fmt_w. rewrite length_app, length_replicate. lia. Qed.

Lemma fmt_w_nonul w n : 0 <= n -> nonul (fmt_w w n).
Proof.
  intros. apply nonul_app. split; [|by apply dec_nonul].
  apply Forall_replicate. done.
Qed.

Lemma skip_space_pad k s : skip_space (replicate k SPACE ++ s) = skip_space s.
Proof. by induction k. Qed.

Lemma skip_space_digit s :
  match s with c :: _ => isdigit c = true | [] => True end -> skip_space s = s.
Proof.
  destruct s as [|c s]; [done|]. intros ?%isdigit_range. simpl. unfold isspace.
  destruct (Z.eqb_spec c 32); [lia|]. destruct (Z.leb_spec 9 c), (Z.leb_spec c 13); simpl; lia || done.
Qed.

Lemma strtol10_digits k s b :
  Forall (fun c => isdigit c = true) s -> s <> [] ->
  match b with c :: _ => isdigit c = false | [] => True end ->
  strtol10 (replicate k SPACE ++ s ++ b) =
  Z.max LONG_MIN (Z.min LONG_MAX (digits_value 0 s)).
Proof.
  intros Hs Hne Hb. unfold strtol10. rewrite skip_space_pad.
  destruct s as [|c s]; [done|]. pose proof (Forall_inv Hs) as Hc.
  rewrite skip_space_digit by done.
  assert (Hv : digits_value 0 ((c :: s) ++ b) = digits_value 0 (c :: s)).
  { destruct b as [|x b]; [by rewrite app_nil_r | by apply digits_value_stop]. }
  apply isdigit_range in Hc. simpl app in *.
  assert (c <> 45 /\ c <> 43) as [H1 H2] by lia.
  revert Hv H1 H2. generalize (digits_value 0 (c :: s)) as v. clear.
  destruct c as [|p|p]; try (intros v ->; done).
  do 6 (try destruct p as [p|p|]); intros v Hv ??; try (by rewrite Hv); lia.
Qed.

(** The conversions are inverse to the formats the sources print with. *)
Lemma atol_dec k n b :
  0 <= n <= LONG_MAX ->
  match b with c :: _ => isdigit c = false | [] => True end ->
  atol (replicate k SPACE ++ dec n ++ b) = n.
Proof.
  intros [H1 H2] Hb. unfold atol. rewrite strtol10_digits; [|by apply dec_isdigit| |done].
  - rewrite dec_nonneg, udec_value by done. unfold LONG_MIN, LONG_MAX in *. lia.
  - intros E. pose proof (dec_length_pos n H1). rewrite E in *. simpl in *. lia.
Qed.

Lemma atol_fmt_w w n : 0 <= n <= LONG_MAX -> atol (fmt_w w n) = n.
Proof.
  intros H. unfold fmt_w. rewrite <- (app_nil_r (dec n)). by apply atol_dec.
Qed.

Lemma swrap_small w n : 0 < w -> 0 <= n < 2 ^ (w - 1) -> swrap w n = n.
Proof.
  intros Hw Hn. unfold swrap.
  assert (2 ^ w = 2 * 2 ^ (w - 1)) as E.
  { rewrite <- Z.pow_succ_r by lia. f_equal. lia. }
  rewrite E, Z.mod_small by lia. destruct (Z.ltb_spec n (2 ^ (w - 1))); lia.
Qed.

Lemma atoi_fmt_w w n : 0 <= n < 2 ^ 31 -> atoi (fmt_w w n) = n.
Proof.
  intros H. unfold atoi. change strtol10 with atol.
  rewrite atol_fmt_w by (unfold LONG_MAX; lia). apply swrap_small; lia.
Qed.

Lemma fgets_line n l r :
  Forall (fun b => b <> NEWLINE) l -> (length l < n)%nat -> fgets n (l ++ NEWLINE :: r) = (l ++ [NEWLINE], r).
Proof.
  revert n. induction l as [|b l IH]; intros n F Hn; destruct n as [|n]; simpl in *; try lia; [done|].
  apply Forall_cons in F as [Hb F]. destruct (Z.eqb_spec b NEWLINE); [done|].
  rewrite IH by (done || lia). done.
Qed.

Lemma split_at_found c a b : c ∉ a -> split_at c (a ++ c :: b) = Some (a, b).
Proof.
  induction a as [|x a IH]; intros Ha; cbn; [by rewrite Z.eqb_refl|].
  apply not_elem_of_cons in Ha as [? Ha]. destruct (Z.eqb_spec x c); [congruence|]. by rewrite IH.
Qed.
Lemma split_at_none c a : c ∉ a -> split_at c a = None.
Proof.
  induction a as [|x a IH]; intros Ha; cbn; [done|].
  apply not_elem_of_cons in Ha as [? Ha]. destruct (Z.eqb_spec x c); [congruence|]. by rewrite IH.
Qed.
