(* ===== verification/FileIO.v ===== *)
(** The file system calls the programs use, as POSIX documents them: open files
    with an offset, [lseek], [read], [write], [open], [close], and byte-range
    record locks ([fcntl]) with the wrappers of [src/apue2e/lib/lockreg.c] and
    [src/apue2e/include/apue.h].  What the kernel decides is the class [Kernel]. *)
From S2P Require Import Prelude.

(** ** File contents *)

Definition read_at (c : list Z) (o n : nat) : list Z := take n (drop o c).

(** A write past the end leaves a gap of zero bytes. *)
Definition write_at (c : list Z) (o : nat) (bs : list Z) : list Z :=
  take o c ++ replicate (o - length c) 0 ++ bs ++ drop (o + length bs) c.

(** ** Record locks *)

Inductive lock_type := F_RDLCK | F_WRLCK | F_UNLCK.
Inductive whence := SEEK_SET | SEEK_CUR | SEEK_END.
Inductive lock_cmd := F_SETLK | F_SETLKW.

#[export] Instance lock_type_eq_dec : EqDecision lock_type.
Proof. solve_decision. Defined.
#[export] Instance whence_eq_dec : EqDecision whence.
Proof. solve_decision. Defined.

(** What the process did to its files that matters to other processes: lock
    requests that were granted and writes, newest first. *)
Inductive event :=
  | EvLock (fd : Z) (t : lock_type) (start len : Z)   (* len 0: to end of file *)
  | EvWrite (fd : Z) (start len : Z).

(** Whether a granted request covers byte [o] of [fd]. *)
Definition covers (fd o : Z) (e : event) : bool :=
  match e with
  | EvLock fd' _ start len =>
      (fd =? fd') && (start <=? o) && ((len =? 0) || (o <? start + len))
  | EvWrite _ _ _ => false
  end.

(** The lock this process holds on byte [o] of [fd]: the newest request that
    covers the byte decides. *)
Fixpoint held_at (evs : list event) (fd o : Z) : option lock_type :=
  match evs with
  | [] => None
  | EvLock fd' t start len :: evs' =>
      if covers fd o (EvLock fd' t start len)
      then match t with F_UNLCK => None | _ => Some t end
      else held_at evs' fd o
  | EvWrite _ _ _ :: evs' => held_at evs' fd o
  end.

(** ** The kernel and the world *)

Class Kernel := {
  (* is this request granted (for F_SETLKW: after waiting)? *)
  k_lock : list event -> lock_cmd -> event -> bool;
  (* largest file size *)
  k_fsize : Z;
  (* does the caller have permission to open the path with these flags? *)
  k_may_open : list Z -> Z -> bool;
  (* does malloc/calloc of this many bytes succeed? *)
  k_malloc : Z -> bool;
  (* contents of freshly malloc'ed memory *)
  k_junk : nat -> Z;
  (* does sprintf of this C library leave a string in place that is also its destination?  ISO C gives such a call no meaning *)
  k_self_copy : bool
}.

Record ofile := OFile {
  of_path : list Z;
  of_pos : Z;
  of_rd : bool;
  of_wr : bool
}.

Record world := World {
  files : gmap (list Z) (list Z);   (* path -> contents *)
  fds : gmap Z ofile;               (* open descriptors *)
  events : list event
}.

Definition set_files (f : gmap (list Z) (list Z)) (w : world) : world :=
  World f (fds w) (events w).
Definition set_fds (f : gmap Z ofile) (w : world) : world :=
  World (files w) f (events w).
Definition log_event (e : event) (w : world) : world :=
  World (files w) (fds w) (e :: events w).
Definition set_pos (fd : Z) (f : ofile) (p : Z) (w : world) : world :=
  set_fds (<[fd := OFile (of_path f) p (of_rd f) (of_wr f)]> (fds w)) w.

Definition O_RDONLY : Z := 0.
Definition O_WRONLY : Z := 1.
Definition O_RDWR : Z := 2.
Definition O_ACCMODE : Z := 3.
Definition O_CREAT : Z := 64.
Definition O_EXCL : Z := 128.
Definition O_TRUNC : Z := 512.
Definition has_flag (flags f : Z) : bool := negb (Z.land flags f =? 0).

(** The lowest descriptor not in use. *)
Fixpoint lowest_from (fuel : nat) (fd : Z) (m : gmap Z ofile) : Z :=
  match fuel with
  | O => fd
  | S k => match m !! fd with None => fd | Some _ => lowest_from k (fd + 1) m end
  end.
Definition lowest_fd (m : gmap Z ofile) : Z := lowest_from (size m) 0 m.

Section Syscalls.
Context `{K : Kernel}.

Definition sys_open (path : list Z) (flags : Z) (w : world) : Z * world :=
  let fd := lowest_fd (fds w) in
  let acc := Z.land flags O_ACCMODE in
  let f := OFile path 0 (negb (acc =? O_WRONLY)) (negb (acc =? O_RDONLY)) in
  if negb (k_may_open path flags) then (-1, w) else
  match files w !! path with
  | Some c =>
      if has_flag flags O_CREAT && has_flag flags O_EXCL then (-1, w) else
      let c' := if has_flag flags O_TRUNC then [] else c in
      (fd, World (<[path := c']> (files w)) (<[fd := f]> (fds w)) (events w))
  | None =>
      if has_flag flags O_CREAT
      then (fd, World (<[path := []]> (files w)) (<[fd := f]> (fds w)) (events w))
      else (-1, w)
  end.

(** Closing any descriptor of a file drops the process's locks on the file;
    a lock is recorded by descriptor, so those of this descriptor go. *)
Definition sys_close (fd : Z) (w : world) : Z * world :=
  match fds w !! fd with
  | None => (-1, w)
  | Some _ => (0, log_event (EvLock fd F_UNLCK 0 0) (set_fds (delete fd (fds w)) w))
  end.

Definition file_of (fd : Z) (w : world) : option (ofile * list Z) :=
  match fds w !! fd with
  | None => None
  | Some f => match files w !! of_path f with None => None | Some c => Some (f, c) end
  end.

Definition sys_lseek (fd off : Z) (wh : whence) (w : world) : Z * world :=
  match file_of fd w with
  | None => (-1, w)
  | Some (f, c) =>
      let p := match wh with
               | SEEK_SET => off
               | SEEK_CUR => of_pos f + off
               | SEEK_END => Z.of_nat (length c) + off
               end in
      if p <? 0 then (-1, w) else (p, set_pos fd f p w)
  end.

Definition sys_read (fd n : Z) (w : world) : (Z * list Z) * world :=
  match file_of fd w with
  | None => ((-1, []), w)
  | Some (f, c) =>
      if negb (of_rd f) then ((-1, []), w) else
      let bs := read_at c (Z.to_nat (of_pos f)) (Z.to_nat n) in
      let r := Z.of_nat (length bs) in
      ((r, bs), set_pos fd f (of_pos f + r) w)
  end.

Definition sys_write (fd : Z) (bs : list Z) (w : world) : Z * world :=
  match file_of fd w with
  | None => (-1, w)
  | Some (f, c) =>
      if negb (of_wr f) then (-1, w) else
      let room := k_fsize - of_pos f in
      if room <=? 0 then (-1, w) else
      let bs' := if Z.of_nat (length bs) <=? room then bs else take (Z.to_nat room) bs in
      let r := Z.of_nat (length bs') in
      (r, set_pos fd f (of_pos f + r)
            (log_event (EvWrite fd (of_pos f) r)
              (set_files (<[of_path f := write_at c (Z.to_nat (of_pos f)) bs']> (files w)) w)))
  end.

Definition sys_fsize (fd : Z) (w : world) : Z :=
  match file_of fd w with None => -1 | Some (_, c) => Z.of_nat (length c) end.

(** [lock_reg]: the region starts [off] bytes from [wh]; [len] 0 is to the end
    of the file, however far it grows. *)
Definition lock_reg (fd : Z) (cmd : lock_cmd) (t : lock_type) (off : Z) (wh : whence)
    (len : Z) (w : world) : Z * world :=
  match file_of fd w with
  | None => (-1, w)
  | Some (f, c) =>
      let start := match wh with
                   | SEEK_SET => off
                   | SEEK_CUR => of_pos f + off
                   | SEEK_END => Z.of_nat (length c) + off
                   end in
      if k_lock (events w) cmd (EvLock fd t start len)
      then (0, log_event (EvLock fd t start len) w) else (-1, w)
  end.

Definition read_lock fd off wh len := lock_reg fd F_SETLK F_RDLCK off wh len.
Definition readw_lock fd off wh len := lock_reg fd F_SETLKW F_RDLCK off wh len.
Definition write_lock fd off wh len := lock_reg fd F_SETLK F_WRLCK off wh len.
Definition writew_lock fd off wh len := lock_reg fd F_SETLKW F_WRLCK off wh len.
Definition un_lock fd off wh len := lock_reg fd F_SETLK F_UNLCK off wh len.
End Syscalls.

(** ** Lemmas *)

Lemma lowest_from_spec fuel fd m :
  fd <= lowest_from fuel fd m <= fd + Z.of_nat fuel /\
  (forall x, fd <= x < lowest_from fuel fd m -> is_Some (m !! x)) /\
  (lowest_from fuel fd m < fd + Z.of_nat fuel -> m !! lowest_from fuel fd m = None).
Proof.
  revert fd. induction fuel as [|k IH]; intros fd; simpl; [split_and!; intros; lia|].
  destruct (m !! fd) eqn:E; [|split_and!; intros; (lia || done)].
  destruct (IH (fd + 1)) as (H1 & H2 & H3). split_and!; [lia|lia| |].
  - intros x Hx. destruct (decide (x = fd)) as [->|]; [eauto|]. apply H2. lia.
  - intros ?. apply H3. lia.
Qed.

Lemma seqZ_dom_size (m : gmap Z ofile) n :
  (forall x, 0 <= x < n -> is_Some (m !! x)) -> 0 <= n -> n <= Z.of_nat (size m).
Proof.
  intros H Hn. assert (Hs : list_to_set (seqZ 0 n) ⊆ dom m).
  { intros x Hx%elem_of_list_to_set%elem_of_seqZ. apply elem_of_dom, H. lia. }
  apply subseteq_size in Hs. rewrite size_dom, size_list_to_set in Hs by apply NoDup_seqZ.
  rewrite length_seqZ in Hs. lia.
Qed.

Lemma lowest_fd_free (m : gmap Z ofile) : m !! lowest_fd m = None /\ 0 <= lowest_fd m.
Proof.
  unfold lowest_fd. destruct (lowest_from_spec (size m) 0 m) as (H1 & H2 & H3).
  split; [|lia]. destruct (decide (lowest_from (size m) 0 m < Z.of_nat (size m))) as [Hl|Hl].
  - apply H3. lia.
  - set (n := lowest_from (size m) 0 m) in *. destruct (m !! n) eqn:E; [|done].
    assert (n + 1 <= Z.of_nat (size m)); [|lia].
    apply seqZ_dom_size; [|lia]. intros x Hx. destruct (decide (x = n)) as [->|]; [eauto|].
    apply H2. lia.
Qed.


Lemma read_at_app (a b c : list Z) : read_at (a ++ b ++ c) (length a) (length b) = b.
Proof. apply take_drop_app. Qed.

Lemma write_at_app (a b b' c : list Z) :
  length b' = length b -> write_at (a ++ b ++ c) (length a) b' = a ++ b' ++ c.
Proof.
  intros Hl. unfold write_at. rewrite take_app_length.
  rewrite (app_assoc a b c), Hl, <- length_app, drop_app_length.
  replace (length a - length ((a ++ b) ++ c))%nat with 0%nat; [done|].
  rewrite !length_app. lia.
Qed.

Lemma write_at_end (c b : list Z) : write_at c (length c) b = c ++ b.
Proof.
  unfold write_at. rewrite take_ge, Nat.sub_diag, drop_ge by lia. simpl.
  by rewrite app_nil_r.
Qed.

(** What the rest of a process sees of a world: everything but file offsets. *)
Definition strip (f : ofile) : list Z * bool * bool := (of_path f, of_rd f, of_wr f).
Definition view (w : world) : gmap (list Z) (list Z) * gmap Z (list Z * bool * bool) * list event :=
  (files w, strip <$> fds w, events w).

Definition pos_of (w : world) (fd : Z) : option Z := of_pos <$> fds w !! fd.

(** [fd] is open for reading and writing on the file [p] with contents [c]. *)
Definition has_file (w : world) (fd : Z) (p c : list Z) : Prop :=
  (strip <$> fds w) !! fd = Some (p, true, true) /\ files w !! p = Some c.

Lemma has_file_view w w' fd p c : view w' = view w -> has_file w fd p c -> has_file w' fd p c.
Proof. unfold view, has_file. intros [= H1 H2 H3]. by rewrite H1, H2. Qed.

Lemma has_file_inv w fd p c :
  has_file w fd p c ->
  exists q, fds w !! fd = Some (OFile p q true true) /\ files w !! p = Some c.
Proof.
  intros [H1 H2]. rewrite lookup_fmap in H1.
  destruct (fds w !! fd) as [[p' q r x]|]; [|done]. simpl in H1. unfold strip in H1.
  simpl in H1. simplify_eq. eauto.
Qed.

Lemma view_set_pos w fd f q : fds w !! fd = Some f -> view (set_pos fd f q w) = view w.
Proof.
  intros H. unfold view, set_pos, set_fds. simpl. do 2 f_equal.
  rewrite fmap_insert. apply insert_id. rewrite lookup_fmap, H. done.
Qed.

Lemma pos_set_pos w fd f q : pos_of (set_pos fd f q w) fd = Some q.
Proof. unfold pos_of, set_pos, set_fds. simpl. by rewrite lookup_insert_eq. Qed.

Lemma pos_set_pos_ne w fd fd' f q : fd <> fd' -> pos_of (set_pos fd f q w) fd' = pos_of w fd'.
Proof. intros. unfold pos_of, set_pos, set_fds. simpl. by rewrite lookup_insert_ne. Qed.

Definition whence_off (wh : whence) (pos size off : Z) : Z :=
  match wh with SEEK_SET => off | SEEK_CUR => pos + off | SEEK_END => size + off end.

Section Lemmas.
Context `{K : Kernel}.

Lemma file_of_has w fd p c :
  has_file w fd p c -> exists q, file_of fd w = Some (OFile p q true true, c) /\
    fds w !! fd = Some (OFile p q true true).
Proof.
  intros (q & H1 & H2)%has_file_inv. exists q. split; [|done].
  unfold file_of. rewrite H1. simpl. by rewrite H2.
Qed.

Lemma lseek_ok w fd p c off wh q :
  has_file w fd p c -> (wh = SEEK_CUR -> pos_of w fd = Some q) ->
  0 <= whence_off wh q (Z.of_nat (length c)) off ->
  exists w', sys_lseek fd off wh w = (whence_off wh q (Z.of_nat (length c)) off, w') /\
    view w' = view w /\ pos_of w' fd = Some (whence_off wh q (Z.of_nat (length c)) off) /\
    forall fd', fd' <> fd -> pos_of w' fd' = pos_of w fd'.
Proof.
  intros (q' & Hf & Hfd)%file_of_has Hq Hp. unfold sys_lseek. rewrite Hf. simpl of_pos.
  assert (E : match wh with SEEK_SET => off | SEEK_CUR => q' + off
              | SEEK_END => Z.of_nat (length c) + off end
              = whence_off wh q (Z.of_nat (length c)) off).
  { destruct wh; simpl; try done. specialize (Hq eq_refl). unfold pos_of in Hq.
    rewrite Hfd in Hq. simpl in Hq. by simplify_eq. }
  rewrite E. destruct (Z.ltb_spec (whence_off wh q (Z.of_nat (length c)) off) 0); [lia|].
  eexists. split; [done|]. split; [by apply view_set_pos|]. split; [apply pos_set_pos|].
  intros fd' Hne. by apply pos_set_pos_ne.
Qed.

Lemma read_ok w fd p a b c n q :
  has_file w fd p (a ++ b ++ c) -> pos_of w fd = Some q ->
  q = Z.of_nat (length a) -> n = Z.of_nat (length b) ->
  exists w', sys_read fd n w = ((n, b), w') /\ view w' = view w /\ pos_of w' fd = Some (q + n) /\
    forall fd', fd' <> fd -> pos_of w' fd' = pos_of w fd'.
Proof.
  intros (q' & Hf & Hfd)%file_of_has Hq -> ->. unfold pos_of in Hq. rewrite Hfd in Hq.
  simpl in Hq. injection Hq as ->. unfold sys_read. rewrite Hf. simpl of_rd. simpl negb. cbn iota.
  simpl of_pos. rewrite !Nat2Z.id, read_at_app. eexists. split; [done|].
  split; [by apply view_set_pos|]. split; [apply pos_set_pos|].
  intros fd' Hne. by apply pos_set_pos_ne.
Qed.

Lemma read_eof w fd p c n q :
  has_file w fd p c -> pos_of w fd = Some q -> q = Z.of_nat (length c) ->
  exists w', sys_read fd n w = ((0, []), w') /\ view w' = view w /\ pos_of w' fd = Some q.
Proof.
  intros (q' & Hf & Hfd)%file_of_has Hq ->. unfold pos_of in Hq. rewrite Hfd in Hq.
  simpl in Hq. injection Hq as ->. unfold sys_read. rewrite Hf. simpl of_rd. simpl negb. cbn iota.
  simpl of_pos. rewrite Nat2Z.id. unfold read_at. rewrite drop_ge by lia.
  rewrite take_nil. simpl. eexists. split; [done|].
  split; [by apply view_set_pos|]. rewrite Z.add_0_r. apply pos_set_pos.
Qed.

Definition wrote (w w' : world) (fd : Z) (p : list Z) (q n : Z) (c' : list Z) : Prop :=
  view w' = (<[p := c']> (files w), strip <$> fds w, EvWrite fd q n :: events w).

Lemma write_ok w fd p c bs q :
  has_file w fd p c -> pos_of w fd = Some q -> 0 <= q ->
  q + Z.of_nat (length bs) <= k_fsize -> q < k_fsize ->
  exists w', sys_write fd bs w = (Z.of_nat (length bs), w') /\
    wrote w w' fd p q (Z.of_nat (length bs)) (write_at c (Z.to_nat q) bs) /\
    (forall fd', fd' <> fd -> pos_of w' fd' = pos_of w fd').
Proof.
  intros (q' & Hf & Hfd)%file_of_has Hq Hq0 Hsz Hsz'. unfold pos_of in Hq. rewrite Hfd in Hq.
  simpl in Hq. injection Hq as ->. unfold sys_write. rewrite Hf. simpl of_wr. simpl negb. cbn iota.
  simpl of_pos. simpl of_path. destruct (Z.leb_spec (k_fsize - q) 0); [lia|].
  destruct (Z.leb_spec (Z.of_nat (length bs)) (k_fsize - q)); [|lia].
  eexists. split; [done|]. split.
  - unfold wrote. erewrite view_set_pos; [done|]. done.
  - intros fd' Hne. rewrite pos_set_pos_ne by done. done.
Qed.

Lemma has_file_wrote w w' fd p q n c c' :
  wrote w w' fd p q n c' -> has_file w fd p c -> has_file w' fd p c'.
Proof.
  unfold wrote, view, has_file. intros [= H1 H2 H3] [H4 H5].
  rewrite H1, H2. split; [done|]. apply lookup_insert_eq.
Qed.

Lemma has_file_wrote_ne w w' fd p q n c' fd2 p2 c2 :
  wrote w w' fd p q n c' -> p <> p2 -> has_file w fd2 p2 c2 -> has_file w' fd2 p2 c2.
Proof.
  unfold wrote, view, has_file. intros [= H1 H2 H3] Hne [H4 H5].
  rewrite H1, H2. split; [done|]. by rewrite lookup_insert_ne.
Qed.

Lemma lock_ok w fd p c cmd t off len :
  has_file w fd p c -> k_lock (events w) cmd (EvLock fd t off len) = true ->
  lock_reg fd cmd t off SEEK_SET len w = (0, log_event (EvLock fd t off len) w).
Proof.
  intros (q & Hf & _)%file_of_has Hk. unfold lock_reg. rewrite Hf. simpl. by rewrite Hk.
Qed.
End Lemmas.

Lemma has_file_log w fd p c e : has_file w fd p c -> has_file (log_event e w) fd p c.
Proof. done. Qed.

(** A kernel that grants everything, and an empty file system. *)
#[export] Instance plain_kernel : Kernel :=
  {| k_lock := fun _ _ _ => true; k_fsize := 1000000000; k_may_open := fun _ _ => true;
     k_malloc := fun _ => true; k_junk := fun _ => 0; k_self_copy := true |}.

Definition fs0 : world := World ∅ ∅ [].
