(* ===== verification/Db.v ===== *)
(** The database library of [src/apue2e/db/db.c]: an index file of hash chains
    and a free list, a data file, and record locks.  Every function of the file is
    a definition here, in the order of the source; the state is the [DB] structure
    of the open handle together with the files and locks of [FileIO].

    A [char *] argument is the buffer it points to; only its C string is used.
    The handle argument [h] of the C functions is the [st_db] of the state. *)
From S2P Require Import Prelude CStr FileIO.

(** ** Constants *)
Definition IDXLEN_SZ : Z := 4.
Definition SEP : Z := 58.
Definition PTR_SZ : Z := 6.
Definition PTR_MAX : Z := 999999.
Definition NHASH_DEF : Z := 137.
Definition FREE_OFF : Z := 0.
Definition HASH_OFF : Z := PTR_SZ.

Definition DB_INSERT : Z := 1.
Definition DB_REPLACE : Z := 2.
Definition DB_STORE : Z := 3.
Definition IDXLEN_MIN : Z := 6.
Definition IDXLEN_MAX : Z := 1024.
Definition DATLEN_MIN : Z := 2.
Definition DATLEN_MAX : Z := 1024.

Definition EINVAL : Z := 22.
Definition ENOENT : Z := 2.

(** ** The handle *)
Record DB := MkDB {
  idxfd : Z;
  datfd : Z;
  idxbuf : list Z;
  datbuf : list Z;
  name : list Z;
  idxoff : Z;
  idxlen : Z;
  datoff : Z;
  datlen : Z;
  ptrval : Z;
  ptroff : Z;
  chainoff : Z;
  hashoff : Z;
  nhash : Z;
  cnt_delok : Z;
  cnt_delerr : Z;
  cnt_fetchok : Z;
  cnt_fetcherr : Z;
  cnt_nextrec : Z;
  cnt_stor1 : Z;
  cnt_stor2 : Z;
  cnt_stor3 : Z;
  cnt_stor4 : Z;
  cnt_storerr : Z
}.

Definition set_idxfd (x : Z) (d : DB) : DB :=
    MkDB x (datfd d) (idxbuf d) (datbuf d) (name d) (idxoff d) (idxlen d) (datoff d) (datlen d)
    (ptrval d) (ptroff d) (chainoff d) (hashoff d) (nhash d) (cnt_delok d) (cnt_delerr d)
    (cnt_fetchok d) (cnt_fetcherr d) (cnt_nextrec d) (cnt_stor1 d) (cnt_stor2 d) (cnt_stor3 d)
    (cnt_stor4 d) (cnt_storerr d).
Definition set_datfd (x : Z) (d : DB) : DB :=
    MkDB (idxfd d) x (idxbuf d) (datbuf d) (name d) (idxoff d) (idxlen d) (datoff d) (datlen d)
    (ptrval d) (ptroff d) (chainoff d) (hashoff d) (nhash d) (cnt_delok d) (cnt_delerr d)
    (cnt_fetchok d) (cnt_fetcherr d) (cnt_nextrec d) (cnt_stor1 d) (cnt_stor2 d) (cnt_stor3 d)
    (cnt_stor4 d) (cnt_storerr d).
Definition set_idxbuf (x : list Z) (d : DB) : DB :=
    MkDB (idxfd d) (datfd d) x (datbuf d) (name d) (idxoff d) (idxlen d) (datoff d) (datlen d)
    (ptrval d) (ptroff d) (chainoff d) (hashoff d) (nhash d) (cnt_delok d) (cnt_delerr d)
    (cnt_fetchok d) (cnt_fetcherr d) (cnt_nextrec d) (cnt_stor1 d) (cnt_stor2 d) (cnt_stor3 d)
    (cnt_stor4 d) (cnt_storerr d).
Definition set_datbuf (x : list Z) (d : DB) : DB :=
    MkDB (idxfd d) (datfd d) (idxbuf d) x (name d) (idxoff d) (idxlen d) (datoff d) (datlen d)
    (ptrval d) (ptroff d) (chainoff d) (hashoff d) (nhash d) (cnt_delok d) (cnt_delerr d)
    (cnt_fetchok d) (cnt_fetcherr d) (cnt_nextrec d) (cnt_stor1 d) (cnt_stor2 d) (cnt_stor3 d)
    (cnt_stor4 d) (cnt_storerr d).
Definition set_name (x : list Z) (d : DB) : DB :=
    MkDB (idxfd d) (datfd d) (idxbuf d) (datbuf d) x (idxoff d) (idxlen d) (datoff d) (datlen d)
    (ptrval d) (ptroff d) (chainoff d) (hashoff d) (nhash d) (cnt_delok d) (cnt_delerr d)
    (cnt_fetchok d) (cnt_fetcherr d) (cnt_nextrec d) (cnt_stor1 d) (cnt_stor2 d) (cnt_stor3 d)
    (cnt_stor4 d) (cnt_storerr d).
Definition set_idxoff (x : Z) (d : DB) : DB :=
    MkDB (idxfd d) (datfd d) (idxbuf d) (datbuf d) (name d) x (idxlen d) (datoff d) (datlen d)
    (ptrval d) (ptroff d) (chainoff d) (hashoff d) (nhash d) (cnt_delok d) (cnt_delerr d)
    (cnt_fetchok d) (cnt_fetcherr d) (cnt_nextrec d) (cnt_stor1 d) (cnt_stor2 d) (cnt_stor3 d)
    (cnt_stor4 d) (cnt_storerr d).
Definition set_idxlen (x : Z) (d : DB) : DB :=
    MkDB (idxfd d) (datfd d) (idxbuf d) (datbuf d) (name d) (idxoff d) x (datoff d) (datlen d)
    (ptrval d) (ptroff d) (chainoff d) (hashoff d) (nhash d) (cnt_delok d) (cnt_delerr d)
    (cnt_fetchok d) (cnt_fetcherr d) (cnt_nextrec d) (cnt_stor1 d) (cnt_stor2 d) (cnt_stor3 d)
    (cnt_stor4 d) (cnt_storerr d).
Definition set_datoff (x : Z) (d : DB) : DB :=
    MkDB (idxfd d) (datfd d) (idxbuf d) (datbuf d) (name d) (idxoff d) (idxlen d) x (datlen d)
    (ptrval d) (ptroff d) (chainoff d) (hashoff d) (nhash d) (cnt_delok d) (cnt_delerr d)
    (cnt_fetchok d) (cnt_fetcherr d) (cnt_nextrec d) (cnt_stor1 d) (cnt_stor2 d) (cnt_stor3 d)
    (cnt_stor4 d) (cnt_storerr d).
Definition set_datlen (x : Z) (d : DB) : DB :=
    MkDB (idxfd d) (datfd d) (idxbuf d) (datbuf d) (name d) (idxoff d) (idxlen d) (datoff d) x
    (ptrval d) (ptroff d) (chainoff d) (hashoff d) (nhash d) (cnt_delok d) (cnt_delerr d)
    (cnt_fetchok d) (cnt_fetcherr d) (cnt_nextrec d) (cnt_stor1 d) (cnt_stor2 d) (cnt_stor3 d)
    (cnt_stor4 d) (cnt_storerr d).
Definition set_ptrval (x : Z) (d : DB) : DB :=
    MkDB (idxfd d) (datfd d) (idxbuf d) (datbuf d) (name d) (idxoff d) (idxlen d) (datoff d)
    (datlen d) x (ptroff d) (chainoff d) (hashoff d) (nhash d) (cnt_delok d) (cnt_delerr d)
    (cnt_fetchok d) (cnt_fetcherr d) (cnt_nextrec d) (cnt_stor1 d) (cnt_stor2 d) (cnt_stor3 d)
    (cnt_stor4 d) (cnt_storerr d).
Definition set_ptroff (x : Z) (d : DB) : DB :=
    MkDB (idxfd d) (datfd d) (idxbuf d) (datbuf d) (name d) (idxoff d) (idxlen d) (datoff d)
    (datlen d) (ptrval d) x (chainoff d) (hashoff d) (nhash d) (cnt_delok d) (cnt_delerr d)
    (cnt_fetchok d) (cnt_fetcherr d) (cnt_nextrec d) (cnt_stor1 d) (cnt_stor2 d) (cnt_stor3 d)
    (cnt_stor4 d) (cnt_storerr d).
Definition set_chainoff (x : Z) (d : DB) : DB :=
    MkDB (idxfd d) (datfd d) (idxbuf d) (datbuf d) (name d) (idxoff d) (idxlen d) (datoff d)
    (datlen d) (ptrval d) (ptroff d) x (hashoff d) (nhash d) (cnt_delok d) (cnt_delerr d)
    (cnt_fetchok d) (cnt_fetcherr d) (cnt_nextrec d) (cnt_stor1 d) (cnt_stor2 d) (cnt_stor3 d)
    (cnt_stor4 d) (cnt_storerr d).
Definition set_hashoff (x : Z) (d : DB) : DB :=
    MkDB (idxfd d) (datfd d) (idxbuf d) (datbuf d) (name d) (idxoff d) (idxlen d) (datoff d)
    (datlen d) (ptrval d) (ptroff d) (chainoff d) x (nhash d) (cnt_delok d) (cnt_delerr d)
    (cnt_fetchok d) (cnt_fetcherr d) (cnt_nextrec d) (cnt_stor1 d) (cnt_stor2 d) (cnt_stor3 d)
    (cnt_stor4 d) (cnt_storerr d).
Definition set_nhash (x : Z) (d : DB) : DB :=
    MkDB (idxfd d) (datfd d) (idxbuf d) (datbuf d) (name d) (idxoff d) (idxlen d) (datoff d)
    (datlen d) (ptrval d) (ptroff d) (chainoff d) (hashoff d) x (cnt_delok d) (cnt_delerr d)
    (cnt_fetchok d) (cnt_fetcherr d) (cnt_nextrec d) (cnt_stor1 d) (cnt_stor2 d) (cnt_stor3 d)
    (cnt_stor4 d) (cnt_storerr d).
Definition set_cnt_delok (x : Z) (d : DB) : DB :=
    MkDB (idxfd d) (datfd d) (idxbuf d) (datbuf d) (name d) (idxoff d) (idxlen d) (datoff d)
    (datlen d) (ptrval d) (ptroff d) (chainoff d) (hashoff d) (nhash d) x (cnt_delerr d)
    (cnt_fetchok d) (cnt_fetcherr d) (cnt_nextrec d) (cnt_stor1 d) (cnt_stor2 d) (cnt_stor3 d)
    (cnt_stor4 d) (cnt_storerr d).
Definition set_cnt_delerr (x : Z) (d : DB) : DB :=
    MkDB (idxfd d) (datfd d) (idxbuf d) (datbuf d) (name d) (idxoff d) (idxlen d) (datoff d)
    (datlen d) (ptrval d) (ptroff d) (chainoff d) (hashoff d) (nhash d) (cnt_delok d) x
    (cnt_fetchok d) (cnt_fetcherr d) (cnt_nextrec d) (cnt_stor1 d) (cnt_stor2 d) (cnt_stor3 d)
    (cnt_stor4 d) (cnt_storerr d).
Definition set_cnt_fetchok (x : Z) (d : DB) : DB :=
    MkDB (idxfd d) (datfd d) (idxbuf d) (datbuf d) (name d) (idxoff d) (idxlen d) (datoff d)
    (datlen d) (ptrval d) (ptroff d) (chainoff d) (hashoff d) (nhash d) (cnt_delok d)
    (cnt_delerr d) x (cnt_fetcherr d) (cnt_nextrec d) (cnt_stor1 d) (cnt_stor2 d) (cnt_stor3 d)
    (cnt_stor4 d) (cnt_storerr d).
Definition set_cnt_fetcherr (x : Z) (d : DB) : DB :=
    MkDB (idxfd d) (datfd d) (idxbuf d) (datbuf d) (name d) (idxoff d) (idxlen d) (datoff d)
    (datlen d) (ptrval d) (ptroff d) (chainoff d) (hashoff d) (nhash d) (cnt_delok d)
    (cnt_delerr d) (cnt_fetchok d) x (cnt_nextrec d) (cnt_stor1 d) (cnt_stor2 d) (cnt_stor3 d)
    (cnt_stor4 d) (cnt_storerr d).
Definition set_cnt_nextrec (x : Z) (d : DB) : DB :=
    MkDB (idxfd d) (datfd d) (idxbuf d) (datbuf d) (name d) (idxoff d) (idxlen d) (datoff d)
    (datlen d) (ptrval d) (ptroff d) (chainoff d) (hashoff d) (nhash d) (cnt_delok d)
    (cnt_delerr d) (cnt_fetchok d) (cnt_fetcherr d) x (cnt_stor1 d) (cnt_stor2 d) (cnt_stor3 d)
    (cnt_stor4 d) (cnt_storerr d).
Definition set_cnt_stor1 (x : Z) (d : DB) : DB :=
    MkDB (idxfd d) (datfd d) (idxbuf d) (datbuf d) (name d) (idxoff d) (idxlen d) (datoff d)
    (datlen d) (ptrval d) (ptroff d) (chainoff d) (hashoff d) (nhash d) (cnt_delok d)
    (cnt_delerr d) (cnt_fetchok d) (cnt_fetcherr d) (cnt_nextrec d) x (cnt_stor2 d) (cnt_stor3
    d) (cnt_stor4 d) (cnt_storerr d).
Definition set_cnt_stor2 (x : Z) (d : DB) : DB :=
    MkDB (idxfd d) (datfd d) (idxbuf d) (datbuf d) (name d) (idxoff d) (idxlen d) (datoff d)
    (datlen d) (ptrval d) (ptroff d) (chainoff d) (hashoff d) (nhash d) (cnt_delok d)
    (cnt_delerr d) (cnt_fetchok d) (cnt_fetcherr d) (cnt_nextrec d) (cnt_stor1 d) x (cnt_stor3
    d) (cnt_stor4 d) (cnt_storerr d).
Definition set_cnt_stor3 (x : Z) (d : DB) : DB :=
    MkDB (idxfd d) (datfd d) (idxbuf d) (datbuf d) (name d) (idxoff d) (idxlen d) (datoff d)
    (datlen d) (ptrval d) (ptroff d) (chainoff d) (hashoff d) (nhash d) (cnt_delok d)
    (cnt_delerr d) (cnt_fetchok d) (cnt_fetcherr d) (cnt_nextrec d) (cnt_stor1 d) (cnt_stor2 d)
    x (cnt_stor4 d) (cnt_storerr d).
Definition set_cnt_stor4 (x : Z) (d : DB) : DB :=
    MkDB (idxfd d) (datfd d) (idxbuf d) (datbuf d) (name d) (idxoff d) (idxlen d) (datoff d)
    (datlen d) (ptrval d) (ptroff d) (chainoff d) (hashoff d) (nhash d) (cnt_delok d)
    (cnt_delerr d) (cnt_fetchok d) (cnt_fetcherr d) (cnt_nextrec d) (cnt_stor1 d) (cnt_stor2 d)
    (cnt_stor3 d) x (cnt_storerr d).
Definition set_cnt_storerr (x : Z) (d : DB) : DB :=
    MkDB (idxfd d) (datfd d) (idxbuf d) (datbuf d) (name d) (idxoff d) (idxlen d) (datoff d)
    (datlen d) (ptrval d) (ptroff d) (chainoff d) (hashoff d) (nhash d) (cnt_delok d)
    (cnt_delerr d) (cnt_fetchok d) (cnt_fetcherr d) (cnt_nextrec d) (cnt_stor1 d) (cnt_stor2 d)
    (cnt_stor3 d) (cnt_stor4 d) x.

(** A process with an open database. *)
Record dbst := DbSt { st_w : world; st_db : DB; st_errno : Z }.

Definition upd (f : DB -> DB) : M dbst unit :=
  modify (fun s => DbSt (st_w s) (f (st_db s)) (st_errno s)).
Definition field {A} (p : DB -> A) : M dbst A := fun s => Ret (p (st_db s)) s.
Definition set_errno (e : Z) : M dbst unit :=
  modify (fun s => DbSt (st_w s) (st_db s) e).
Definition sys {A} (f : world -> A * world) : M dbst A := fun s =>
  let '(a, w') := f (st_w s) in Ret a (DbSt w' (st_db s) (st_errno s)).

Definition dump_if {S} (b : bool) (msg : string) : M S unit :=
  if b then die (Err_dump msg) else mret tt.

Section Db.
Context `{K : Kernel}.

(** ** Pointers, index records and data records *)

(** [hval += c * i] in [unsigned long]; the product is an [int]. *)
Fixpoint hash_loop (i hval : Z) (key : list Z) : Z :=
  match key with
  | [] => hval
  | c :: key' => hash_loop (i + 1) (uwrap 64 (hval + schar c * i)) key'
  end.
Definition _db_hash (db : DB) (key : list Z) : Z :=
  hash_loop 1 0 (cstr key) mod nhash db.

Definition _db_readptr (offset : Z) : M dbst Z :=
  fd ← field idxfd;
  r ← sys (sys_lseek fd offset SEEK_SET);
  dump_if (r =? -1) "_db_readptr: lseek error to ptr field" ;;
  rd ← sys (sys_read fd PTR_SZ);
  dump_if (negb (rd.1 =? PTR_SZ)) "_db_readptr: read error of ptr field" ;;
  mret (atol rd.2).

Definition _db_writeptr (offset ptrval : Z) : M dbst unit :=
  (if (ptrval <? 0) || (PTR_MAX <? ptrval)
   then die (Err_quit "_db_writeptr: invalid ptr") else mret tt) ;;
  fd ← field idxfd;
  r ← sys (sys_lseek fd offset SEEK_SET);
  dump_if (r =? -1) "_db_writeptr: lseek error to ptr field" ;;
  n ← sys (sys_write fd (fmt_w (Z.to_nat PTR_SZ) ptrval));
  dump_if (negb (n =? PTR_SZ)) "_db_writeptr: write error of ptr field".

(** The second half of [_db_readidx]: find the separators in [idxbuf], replace
    them by nulls, and get the data offset and length. *)
Definition _db_splitidx : M dbst unit :=
  buf ← field idxbuf;
  p1 ← (match strchr buf 0 SEP with
        | None => die (Err_dump "_db_readidx: missing first separator")
        | Some p => mret p
        end : M dbst nat);
  let buf := <[p1 := 0]> buf in
  upd (set_idxbuf buf) ;;
  let ptr1 := S p1 in
  p2 ← (match strchr buf ptr1 SEP with
        | None => die (Err_dump "_db_readidx: missing second separator")
        | Some p => mret p
        end : M dbst nat);
  let buf := <[p2 := 0]> buf in
  upd (set_idxbuf buf) ;;
  let ptr2 := S p2 in
  dump_if (match strchr buf ptr2 SEP with Some _ => true | None => false end)
    "_db_readidx: too many separators" ;;
  let o := atol (drop ptr1 buf) in
  upd (set_datoff o) ;;
  dump_if (o <? 0) "_db_readidx: starting offset < 0" ;;
  let l := uwrap 64 (atol (drop ptr2 buf)) in
  upd (set_datlen l) ;;
  dump_if ((l <=? 0) || (DATLEN_MAX <? l)) "_db_readidx: invalid length".

(** Returns the chain pointer of the record, or -1 at end of file for
    [db_nextrec]. *)
Definition _db_readidx (offset : Z) : M dbst Z :=
  fd ← field idxfd;
  off ← sys (sys_lseek fd offset (if offset =? 0 then SEEK_CUR else SEEK_SET));
  upd (set_idxoff off) ;;
  dump_if (off =? -1) "_db_readidx: lseek error" ;;
  rd ← sys (sys_read fd (PTR_SZ + IDXLEN_SZ));
  if negb (rd.1 =? PTR_SZ + IDXLEN_SZ) then
    if (rd.1 =? 0) && (offset =? 0) then mret (-1)
    else die (Err_dump "_db_readidx: readv error of index record")
  else
  let asciiptr := take (Z.to_nat PTR_SZ) rd.2 in
  let asciilen := drop (Z.to_nat PTR_SZ) rd.2 in
  upd (set_ptrval (atol asciiptr)) ;;
  let len := uwrap 64 (atoi asciilen) in
  upd (set_idxlen len) ;;
  dump_if ((len <? IDXLEN_MIN) || (IDXLEN_MAX <? len)) "_db_readidx: invalid length" ;;
  rd ← sys (sys_read fd len);
  buf ← field idxbuf;
  let buf := poke rd.2 buf in
  upd (set_idxbuf buf) ;;
  dump_if (negb (rd.1 =? len)) "_db_readidx: read error of index record" ;;
  dump_if (negb (default 0 (buf !! Z.to_nat (len - 1)) =? NEWLINE))
    "_db_readidx: missing newline" ;;
  upd (set_idxbuf (<[Z.to_nat (len - 1) := 0]> buf)) ;;
  _db_splitidx ;;
  field ptrval.

Definition _db_readdat : M dbst (list Z) :=
  fd ← field datfd;
  off ← field datoff;
  len ← field datlen;
  r ← sys (sys_lseek fd off SEEK_SET);
  dump_if (r =? -1) "_db_readdat: lseek error" ;;
  rd ← sys (sys_read fd len);
  buf ← field datbuf;
  let buf := poke rd.2 buf in
  upd (set_datbuf buf) ;;
  dump_if (negb (rd.1 =? len)) "_db_readdat: read error" ;;
  dump_if (negb (default 0 (buf !! Z.to_nat (len - 1)) =? NEWLINE))
    "_db_readdat: missing newline" ;;
  let buf := <[Z.to_nat (len - 1) := 0]> buf in
  upd (set_datbuf buf) ;;
  mret (cstr buf).

Definition _db_writedat (data : list Z) (offset : Z) (wh : whence) : M dbst unit :=
  fd ← field datfd;
  (if decide (wh = SEEK_END) then
     r ← sys (writew_lock fd 0 SEEK_SET 0);
     dump_if (r <? 0) "_db_writedat: writew_lock error"
   else mret tt) ;;
  off ← sys (sys_lseek fd offset wh);
  upd (set_datoff off) ;;
  dump_if (off =? -1) "_db_writedat: lseek error" ;;
  let len := strlen data + 1 in
  upd (set_datlen len) ;;
  n ← sys (sys_write fd (cstr data ++ [NEWLINE]));
  dump_if (negb (n =? len)) "_db_writedat: writev error of data record" ;;
  (if decide (wh = SEEK_END) then
     r ← sys (un_lock fd 0 SEEK_SET 0);
     dump_if (r <? 0) "_db_writedat: un_lock error"
   else mret tt).

(** The text of an index record after its pointer and length fields:
    [sprintf(idxbuf, "%s%c%lld%c%d\n", key, SEP, datoff, SEP, datlen)]. *)
Definition idx_text (key : list Z) (off len : Z) : list Z :=
  cstr key ++ [SEP] ++ dec off ++ [SEP] ++ dec len ++ [NEWLINE].

(** The [key] of [_db_writeidx]: a string of the caller, or [idxbuf], into which the text is formatted. *)
Inductive keyarg := KeyPtr (s : list Z) | IdxBuf.
Definition sprintf_key (k : keyarg) : M dbst (list Z) :=
  match k with
  | KeyPtr s => mret s
  | IdxBuf => if k_self_copy then field idxbuf else die (Undefined "sprintf of idxbuf into itself")
  end.

Definition _db_writeidx (k : keyarg) (offset : Z) (wh : whence) (ptr : Z) : M dbst unit :=
  upd (set_ptrval ptr) ;;
  (if (ptr <? 0) || (PTR_MAX <? ptr)
   then die (Err_quit "_db_writeidx: invalid ptr") else mret tt) ;;
  off ← field datoff;
  dlen ← field datlen;
  buf ← field idxbuf;
  key ← sprintf_key k;
  let text := idx_text key off dlen in
  (if Z.of_nat (length text) + 1 <=? IDXLEN_MAX + 2 then mret tt
   else die (Undefined "sprintf past the end of idxbuf")) ;;
  upd (set_idxbuf (poke (text ++ [0]) buf)) ;;
  let len := Z.of_nat (length text) in
  dump_if ((len <? IDXLEN_MIN) || (IDXLEN_MAX <? len)) "_db_writeidx: invalid length" ;;
  let asciiptrlen := fmt_w (Z.to_nat PTR_SZ) ptr ++ fmt_w (Z.to_nat IDXLEN_SZ) len in
  fd ← field idxfd;
  nh ← field nhash;
  (if decide (wh = SEEK_END) then
     r ← sys (writew_lock fd ((nh + 1) * PTR_SZ + 1) SEEK_SET 0);
     dump_if (r <? 0) "_db_writeidx: writew_lock error"
   else mret tt) ;;
  o ← sys (sys_lseek fd offset wh);
  upd (set_idxoff o) ;;
  dump_if (o =? -1) "_db_writeidx: lseek error" ;;
  n ← sys (sys_write fd (asciiptrlen ++ text));
  dump_if (negb (n =? PTR_SZ + IDXLEN_SZ + len)) "_db_writeidx: writev error of index record" ;;
  (if decide (wh = SEEK_END) then
     r ← sys (un_lock fd ((nh + 1) * PTR_SZ + 1) SEEK_SET 0);
     dump_if (r <? 0) "_db_writeidx: un_lock error"
   else mret tt).

(** ** Searching the chains *)

(** Bytes of the index file: more than any chain has records. *)
Definition chain_fuel (s : dbst) : nat := S (Z.to_nat (sys_fsize (idxfd (st_db s)) (st_w s))).

(** The loop of [_db_find_and_lock]; 0 is the end of the chain. *)
Fixpoint find_loop (fuel : nat) (key : list Z) (offset : Z) : M dbst Z :=
  if offset =? 0 then mret 0 else
  match fuel with
  | O => die Loops
  | S f =>
      nextoffset ← _db_readidx offset;
      buf ← field idxbuf;
      if streq buf key then mret offset
      else upd (set_ptroff offset) ;; find_loop f key nextoffset
  end.

Definition _db_find_and_lock (key : list Z) (writelock : bool) : M dbst Z :=
  db ← field id;
  upd (set_chainoff (_db_hash db key * PTR_SZ + hashoff db)) ;;
  chain ← field chainoff;
  upd (set_ptroff chain) ;;
  (if writelock then
     r ← sys (writew_lock (idxfd db) chain SEEK_SET 1);
     dump_if (r <? 0) "_db_find_and_lock: writew_lock error"
   else
     r ← sys (readw_lock (idxfd db) chain SEEK_SET 1);
     dump_if (r <? 0) "_db_find_and_lock: readw_lock error") ;;
  offset ← _db_readptr chain;
  s ← get;
  offset ← find_loop (chain_fuel s) key offset;
  mret (if offset =? 0 then -1 else 0).

(** The loop of [_db_findfree]: the offset found (0 for none) and the offset of
    the chain pointer to it. *)
Fixpoint findfree_loop (fuel : nat) (keylen dlen saveoffset offset : Z) : M dbst (Z * Z) :=
  if offset =? 0 then mret (0, saveoffset) else
  match fuel with
  | O => die Loops
  | S f =>
      nextoffset ← _db_readidx offset;
      buf ← field idxbuf;
      dl ← field datlen;
      if (strlen buf =? keylen) && (dl =? dlen) then mret (offset, saveoffset)
      else findfree_loop f keylen dlen offset nextoffset
  end.

Definition _db_findfree (keylen dlen : Z) : M dbst Z :=
  fd ← field idxfd;
  r ← sys (writew_lock fd FREE_OFF SEEK_SET 1);
  dump_if (r <? 0) "_db_findfree: writew_lock error" ;;
  offset ← _db_readptr FREE_OFF;
  s ← get;
  res ← findfree_loop (chain_fuel s) keylen dlen FREE_OFF offset;
  rc ← (if (res.1 =? 0) then mret (-1)
        else ptr ← field ptrval; _db_writeptr res.2 ptr ;; mret 0 : M dbst Z);
  r ← sys (un_lock fd FREE_OFF SEEK_SET 1);
  dump_if (r <? 0) "_db_findfree: un_lock error" ;;
  mret rc.

(** ** Operations *)

Definition unlock_chain (who : string) : M dbst unit :=
  fd ← field idxfd;
  chain ← field chainoff;
  r ← sys (un_lock fd chain SEEK_SET 1);
  dump_if (r <? 0) who.

Definition db_fetch (key : list Z) : M dbst (option (list Z)) :=
  rc ← _db_find_and_lock key false;
  ptr ← (if rc <? 0 then
           upd (fun d => set_cnt_fetcherr (uwrap 64 (cnt_fetcherr d + 1)) d) ;; mret None
         else
           p ← _db_readdat;
           upd (fun d => set_cnt_fetchok (uwrap 64 (cnt_fetchok d + 1)) d) ;;
           mret (Some p) : M dbst (option (list Z)));
  unlock_chain "db_fetch: un_lock error" ;;
  mret ptr.

Definition _db_dodelete : M dbst unit :=
  db ← field id;
  upd (set_datbuf (poke (replicate (Z.to_nat (datlen db - 1)) SPACE ++ [0]) (datbuf db))) ;;
  upd (set_idxbuf (poke (replicate (length (cstr (idxbuf db))) SPACE) (idxbuf db))) ;;
  r ← sys (writew_lock (idxfd db) FREE_OFF SEEK_SET 1);
  dump_if (r <? 0) "_db_dodelete: writew_lock error" ;;
  buf ← field datbuf;
  off ← field datoff;
  _db_writedat buf off SEEK_SET ;;
  freeptr ← _db_readptr FREE_OFF;
  saveptr ← field ptrval;
  off ← field idxoff;
  _db_writeidx IdxBuf off SEEK_SET freeptr ;;
  off ← field idxoff;
  _db_writeptr FREE_OFF off ;;
  po ← field ptroff;
  _db_writeptr po saveptr ;;
  r ← sys (un_lock (idxfd db) FREE_OFF SEEK_SET 1);
  dump_if (r <? 0) "_db_dodelete: un_lock error".

Definition db_delete (key : list Z) : M dbst Z :=
  rc ← _db_find_and_lock key true;
  rc ← (if rc =? 0 then
          _db_dodelete ;;
          upd (fun d => set_cnt_delok (uwrap 64 (cnt_delok d + 1)) d) ;; mret 0
        else
          upd (fun d => set_cnt_delerr (uwrap 64 (cnt_delerr d + 1)) d) ;;
          mret (-1) : M dbst Z);
  unlock_chain "db_delete: un_lock error" ;;
  mret rc.

(** [db_store] appending new records to the ends of the two files and putting
    the index record in front of the chain. *)
Definition append_record (key data : list Z) (chain ptr : Z) : M dbst unit :=
  _db_writedat data 0 SEEK_END ;;
  _db_writeidx (KeyPtr key) 0 SEEK_END ptr ;;
  off ← field idxoff;
  _db_writeptr chain off.

(** [db_store] reusing the empty record that [_db_findfree] took off the free
    list. *)
Definition reuse_record (key data : list Z) (chain ptr : Z) : M dbst unit :=
  doff ← field datoff;
  _db_writedat data doff SEEK_SET ;;
  off ← field idxoff;
  _db_writeidx (KeyPtr key) off SEEK_SET ptr ;;
  off ← field idxoff;
  _db_writeptr chain off.

(** The branch of [db_store] for a key that is not in the database. *)
Definition store_new (key data : list Z) (keylen dlen flag : Z) : M dbst Z :=
  if flag =? DB_REPLACE then
    upd (fun d => set_cnt_storerr (uwrap 64 (cnt_storerr d + 1)) d) ;;
    set_errno ENOENT ;; mret (-1)
  else
    chain ← field chainoff;
    ptr ← _db_readptr chain;
    rc ← _db_findfree keylen dlen;
    (if rc <? 0 then
       append_record key data chain ptr ;;
       upd (fun d => set_cnt_stor1 (uwrap 64 (cnt_stor1 d + 1)) d)
     else
       reuse_record key data chain ptr ;;
       upd (fun d => set_cnt_stor2 (uwrap 64 (cnt_stor2 d + 1)) d)) ;;
    mret 0.

(** The branch of [db_store] for a key that is in the database. *)
Definition store_found (key data : list Z) (dlen flag : Z) : M dbst Z :=
  if flag =? DB_INSERT then
    upd (fun d => set_cnt_storerr (uwrap 64 (cnt_storerr d + 1)) d) ;; mret 1
  else
    dl ← field datlen;
    (if negb (dlen =? dl) then
       _db_dodelete ;;
       chain ← field chainoff;
       ptr ← _db_readptr chain;
       append_record key data chain ptr ;;
       upd (fun d => set_cnt_stor3 (uwrap 64 (cnt_stor3 d + 1)) d)
     else
       doff ← field datoff;
       _db_writedat data doff SEEK_SET ;;
       upd (fun d => set_cnt_stor4 (uwrap 64 (cnt_stor4 d + 1)) d)) ;;
    mret 0.

Definition db_store (key data : list Z) (flag : Z) : M dbst Z :=
  if negb (flag =? DB_INSERT) && negb (flag =? DB_REPLACE) && negb (flag =? DB_STORE)
  then set_errno EINVAL ;; mret (-1)
  else
  let keylen := strlen key in
  let dlen := strlen data + 1 in
  dump_if ((dlen <? DATLEN_MIN) || (DATLEN_MAX <? dlen)) "db_store: invalid data length" ;;
  rc ← _db_find_and_lock key true;
  rc ← (if rc <? 0 then store_new key data keylen dlen flag
        else store_found key data dlen flag);
  unlock_chain "db_store: un_lock error" ;;
  mret rc.

Definition db_rewind : M dbst unit :=
  nh ← field nhash;
  fd ← field idxfd;
  let offset := (nh + 1) * PTR_SZ in
  r ← sys (sys_lseek fd (offset + 1) SEEK_SET);
  upd (set_idxoff r) ;;
  dump_if (r =? -1) "db_rewind: lseek error".

(** The [do ... while] of [db_nextrec]: the next record whose key is not all
    blanks, [false] at the end of the index file. *)
Fixpoint nextrec_loop (fuel : nat) : M dbst bool :=
  match fuel with
  | O => die Loops
  | S f =>
      r ← _db_readidx 0;
      if r <? 0 then mret false else
      buf ← field idxbuf;
      if forallb (fun c => c =? SPACE) (cstr buf) then nextrec_loop f else mret true
  end.

(** The key, copied when [key] is not NULL, and the data. *)
Definition db_nextrec : M dbst (option (list Z * list Z)) :=
  fd ← field idxfd;
  r ← sys (readw_lock fd FREE_OFF SEEK_SET 1);
  dump_if (r <? 0) "db_nextrec: readw_lock error" ;;
  s ← get;
  more ← nextrec_loop (chain_fuel s);
  res ← (if more : bool then
           buf ← field idxbuf;
           d ← _db_readdat;
           upd (fun d => set_cnt_nextrec (uwrap 64 (cnt_nextrec d + 1)) d) ;;
           mret (Some (cstr buf, d))
         else mret None : M dbst (option (list Z * list Z)));
  r ← sys (un_lock fd FREE_OFF SEEK_SET 1);
  dump_if (r <? 0) "db_nextrec: un_lock error" ;;
  mret res.

(** ** Opening and closing *)

Definition sizeof_DB : Z := 184.

Definition malloc_bytes (n : Z) : list Z := map k_junk (seq 0 (Z.to_nat n)).

Definition _db_alloc (namelen : Z) : M world DB :=
  dump_if (negb (k_malloc sizeof_DB)) "_db_alloc: calloc error for DB" ;;
  dump_if (negb (k_malloc (namelen + 5))) "_db_alloc: malloc error for name" ;;
  dump_if (negb (k_malloc (IDXLEN_MAX + 2))) "_db_alloc: malloc error for index buffer" ;;
  dump_if (negb (k_malloc (DATLEN_MAX + 2))) "_db_alloc: malloc error for data buffer" ;;
  mret (MkDB (-1) (-1) (malloc_bytes (IDXLEN_MAX + 2)) (malloc_bytes (DATLEN_MAX + 2))
          (malloc_bytes (namelen + 5)) 0 0 0 0 0 0 0 0 0 0 0 0 0 0 0 0 0 0 0).

(** Closes the descriptors that are open; the buffers and the structure go. *)
Definition _db_free (db : DB) : M world unit :=
  modify (fun w => if 0 <=? idxfd db then (sys_close (idxfd db) w).2 else w) ;;
  modify (fun w => if 0 <=? datfd db then (sys_close (datfd db) w).2 else w).

Definition db_close (db : DB) : M world unit := _db_free db.

(** The empty index file: the free list pointer and [NHASH_DEF] chain pointers,
    all 0, and a newline. *)
Definition hash_init : list Z :=
  concat (replicate (Z.to_nat (NHASH_DEF + 1)) (fmt_w (Z.to_nat PTR_SZ) 0)) ++ [NEWLINE].

Definition init_index : M dbst unit :=
  fd ← field idxfd;
  r ← sys (writew_lock fd 0 SEEK_SET 0);
  dump_if (r <? 0) "db_open: writew_lock error" ;;
  size ← sys (fun w => (sys_fsize fd w, w));
  (if size <? 0 then die (Err_sys "db_open: fstat error") else mret tt) ;;
  (if size =? 0 then
     n ← sys (sys_write fd hash_init);
     dump_if (negb (n =? Z.of_nat (length hash_init))) "db_open: index file init write error"
   else mret tt) ;;
  r ← sys (un_lock fd 0 SEEK_SET 0);
  dump_if (r <? 0) "db_open: un_lock error".

Definition run_db {A} (db : DB) (m : M dbst A) : M world (A * DB) := fun w =>
  match m (DbSt w db 0) with
  | Ret a s => Ret (a, st_db s) (st_w s)
  | Exit e s => Exit e (st_w s)
  end.

Definition wsys {A} (f : world -> A * world) : M world A := fun w =>
  let '(a, w') := f w in Ret a w'.

Definition db_open (pathname : list Z) (oflag : Z) : M world (option DB) :=
  let path := cstr pathname in
  let len := Z.of_nat (length path) in
  db ← _db_alloc len;
  let db := set_nhash NHASH_DEF db in
  let db := set_hashoff HASH_OFF db in
  let db := set_name (path ++ bytes ".idx" ++ [0]) db in
  fd1 ← wsys (sys_open (cstr (name db)) oflag);
  let db := set_idxfd fd1 db in
  let db := set_name (path ++ bytes ".dat" ++ [0]) db in
  fd2 ← wsys (sys_open (cstr (name db)) oflag);
  let db := set_datfd fd2 db in
  if (fd1 <? 0) || (fd2 <? 0) then _db_free db ;; mret None
  else
    r ← run_db db ((if Z.land oflag (Z.lor O_CREAT O_TRUNC) =? Z.lor O_CREAT O_TRUNC
                    then init_index else mret tt) ;; db_rewind);
    mret (Some r.2).
End Db.

(** The program of [src/apue2e/db/t4.c]. *)
Definition t4_stores `{Kernel} : M dbst unit :=
  r ← db_store (bytes "Alpha") (bytes "data1") DB_INSERT;
  (if negb (r =? 0) then die (Err_quit "db_store error for alpha") else mret tt) ;;
  r ← db_store (bytes "beta") (bytes "Data for beta") DB_INSERT;
  (if negb (r =? 0) then die (Err_quit "db_store error for beta") else mret tt) ;;
  r ← db_store (bytes "gamma") (bytes "record3") DB_INSERT;
  if negb (r =? 0) then die (Err_quit "db_store error for gamma") else mret tt.

Definition t4_main `{Kernel} : M world Z :=
  r ← db_open (bytes "db4") (Z.lor O_RDWR (Z.lor O_CREAT O_TRUNC));
  match r with
  | None => die (Err_sys "db_open error")
  | Some db => x ← run_db db t4_stores; db_close x.2 ;; mret 0
  end.
