(* ===== verification/DbLayout.v ===== *)
(** The files of a database as the bytes of a structure: the free list pointer,
    the hash table and the index records in file order, each with its data record.
    The read and write functions of [Db] act on this structure; the lemmas here are
    the only ones that look at bytes. *)
From S2P Require Import Prelude CStr FileIO Db.

(** ** The structure *)

Record slot := Slot {
  s_ptr : Z;          (* chain pointer *)
  s_key : list Z;
  s_doff : Z;         (* offset of the data record *)
  s_data : list Z     (* the data, without its newline *)
}.

Record image := Image {
  i_free : Z;
  i_hash : list Z;
  i_slots : list slot
}.

Definition s_dlen (sl : slot) : Z := Z.of_nat (length (s_data sl)) + 1.
Definition slot_text (sl : slot) : list Z :=
  s_key sl ++ [SEP] ++ dec (s_doff sl) ++ [SEP] ++ dec (s_dlen sl) ++ [NEWLINE].
Definition text_len (sl : slot) : Z := Z.of_nat (length (slot_text sl)).
Definition slot_bytes (sl : slot) : list Z :=
  fmt_w 6 (s_ptr sl) ++ fmt_w 4 (text_len sl) ++ slot_text sl.
Definition data_bytes (sl : slot) : list Z := s_data sl ++ [NEWLINE].

Definition idx_head (im : image) : list Z :=
  fmt_w 6 (i_free im) ++ concat (map (fmt_w 6) (i_hash im)) ++ [NEWLINE].
Definition idx_image (im : image) : list Z :=
  idx_head im ++ concat (map slot_bytes (i_slots im)).
Definition dat_image (im : image) : list Z := concat (map data_bytes (i_slots im)).

Definition HEAD : Z := (NHASH_DEF + 1) * PTR_SZ + 1.
Definition slot_off (im : image) (i : nat) : Z :=
  HEAD + Z.of_nat (length (concat (map slot_bytes (take i (i_slots im))))).
Definition dat_off (im : image) (i : nat) : Z :=
  Z.of_nat (length (concat (map data_bytes (take i (i_slots im))))).

Definition ptr_ok (p : Z) : Prop := 0 <= p <= PTR_MAX.
Definition key_ok (k : list Z) : Prop := nonul k /\ SEP ∉ k.

Record slot_ok (sl : slot) : Prop := {
  ok_ptr : ptr_ok (s_ptr sl);
  ok_key : key_ok (s_key sl);
  ok_data : nonul (s_data sl);
  ok_dlen : DATLEN_MIN <= s_dlen sl <= DATLEN_MAX;
  ok_len : IDXLEN_MIN <= text_len sl <= IDXLEN_MAX;
  ok_doff : 0 <= s_doff sl <= LONG_MAX
}.

Record wf_image (im : image) : Prop := {
  wf_nhash : length (i_hash im) = Z.to_nat NHASH_DEF;
  wf_free : ptr_ok (i_free im);
  wf_hash : Forall ptr_ok (i_hash im);
  wf_slots : Forall slot_ok (i_slots im);
  wf_doff : forall i sl, i_slots im !! i = Some sl -> s_doff sl = dat_off im i
}.

(** ** Places that hold a chain pointer *)

Inductive loc := LFree | LHash (h : nat) | LSlot (i : nat).

Definition loc_off (im : image) (l : loc) : Z :=
  match l with
  | LFree => FREE_OFF
  | LHash h => Z.of_nat h * PTR_SZ + HASH_OFF
  | LSlot i => slot_off im i
  end.
Definition loc_get (im : image) (l : loc) : option Z :=
  match l with
  | LFree => Some (i_free im)
  | LHash h => i_hash im !! h
  | LSlot i => s_ptr <$> i_slots im !! i
  end.
Definition set_ptr (p : Z) (sl : slot) : slot := Slot p (s_key sl) (s_doff sl) (s_data sl).
Definition loc_set (im : image) (l : loc) (p : Z) : image :=
  match l with
  | LFree => Image p (i_hash im) (i_slots im)
  | LHash h => Image (i_free im) (<[h := p]> (i_hash im)) (i_slots im)
  | LSlot i => Image (i_free im) (i_hash im) (alter (set_ptr p) i (i_slots im))
  end.

Definition upd_slot (im : image) (i : nat) (sl : slot) : image :=
  Image (i_free im) (i_hash im) (<[i := sl]> (i_slots im)).
Definition app_slot (im : image) (sl : slot) : image :=
  Image (i_free im) (i_hash im) (i_slots im ++ [sl]).

(** ** Lengths and offsets *)

Lemma fmt6_length p : ptr_ok p -> length (fmt_w 6 p) = 6%nat.
Proof.
  intros [? ?]. apply fmt_w_length; [done|]. apply dec_length_le; [|lia].
  unfold PTR_MAX in *. split; [done|]. vm_compute (10 ^ _). lia.
Qed.

Lemma fmt4_length n : 0 <= n <= IDXLEN_MAX -> length (fmt_w 4 n) = 4%nat.
Proof.
  intros [? ?]. apply fmt_w_length; [done|]. apply dec_length_le; [|lia].
  unfold IDXLEN_MAX in *. split; [done|]. vm_compute (10 ^ _). lia.
Qed.

Lemma slot_bytes_length sl : slot_ok sl -> Z.of_nat (length (slot_bytes sl)) = 10 + text_len sl.
Proof.
  intros [Hp _ _ _ [Hl Hl'] _]. unfold slot_bytes.
  rewrite !length_app, fmt6_length by done. rewrite fmt4_length by (unfold IDXLEN_MIN in *; lia).
  unfold text_len. lia.
Qed.

Lemma data_bytes_length sl : Z.of_nat (length (data_bytes sl)) = s_dlen sl.
Proof. unfold data_bytes, s_dlen. rewrite length_app. simpl. lia. Qed.

Lemma hash_bytes_length l : Forall ptr_ok l -> length (concat (map (fmt_w 6) l)) = (6 * length l)%nat.
Proof.
  induction 1 as [|p l Hp _ IH]; [done|]. simpl. rewrite length_app, fmt6_length, IH by done. lia.
Qed.

Lemma idx_head_length im : wf_image im -> Z.of_nat (length (idx_head im)) = HEAD.
Proof.
  intros W. unfold idx_head. rewrite !length_app, fmt6_length by apply W.
  rewrite hash_bytes_length by apply W. rewrite (wf_nhash im W). done.
Qed.

Lemma slot_off_pos im i : HEAD <= slot_off im i.
Proof. unfold slot_off. lia. Qed.

Lemma dat_off_pos im i : 0 <= dat_off im i.
Proof. unfold dat_off. lia. Qed.

(** Bytes of the index file up to and including slot [i]. *)
Lemma slot_off_S im i sl :
  i_slots im !! i = Some sl -> slot_ok sl -> slot_off im (S i) = slot_off im i + 10 + text_len sl.
Proof.
  intros Hi Hok. unfold slot_off. rewrite (take_S_r _ _ _ Hi), map_app, concat_app, length_app. simpl.
  rewrite app_nil_r. pose proof (slot_bytes_length sl Hok). lia.
Qed.

Lemma slot_off_end im :
  wf_image im -> slot_off im (length (i_slots im)) = Z.of_nat (length (idx_image im)).
Proof.
  intros W. unfold slot_off, idx_image. rewrite firstn_all, length_app, Nat2Z.inj_add.
  by rewrite idx_head_length.
Qed.

Lemma slot_off_le im i j : (i <= j)%nat -> slot_off im i <= slot_off im j.
Proof.
  intros H. unfold slot_off. replace (take j (i_slots im)) with (take i (i_slots im) ++ take (j - i) (drop i (i_slots im))).
  - rewrite map_app, concat_app, length_app. lia.
  - rewrite take_take_drop. f_equal. lia.
Qed.

Lemma slot_off_lt im i j sl :
  wf_image im -> i_slots im !! i = Some sl -> (i < j)%nat -> slot_off im i < slot_off im j.
Proof.
  intros W Hi Hj. assert (Hok : slot_ok sl).
  { eapply Forall_lookup_1; [apply W | done]. }
  pose proof (slot_off_S im i sl Hi Hok). pose proof (slot_off_le im (S i) j ltac:(lia)).
  pose proof (ok_len sl Hok). unfold IDXLEN_MIN in *. lia.
Qed.

Lemma slot_off_inj im i j :
  wf_image im -> (i < length (i_slots im))%nat -> (j < length (i_slots im))%nat ->
  slot_off im i = slot_off im j -> i = j.
Proof.
  intros W Hi Hj E. apply lookup_lt_is_Some in Hi as [si Hi], Hj as [sj Hj].
  destruct (lt_eq_lt_dec i j) as [[L|?]|L]; [|done|].
  - pose proof (slot_off_lt im i j si W Hi L). lia.
  - pose proof (slot_off_lt im j i sj W Hj L). lia.
Qed.

(** ** Updates that keep every record where it is *)

Definition same_shape (im im' : image) : Prop :=
  map (fun sl => length (slot_bytes sl)) (i_slots im) =
    map (fun sl => length (slot_bytes sl)) (i_slots im') /\
  map (fun sl => length (data_bytes sl)) (i_slots im) =
    map (fun sl => length (data_bytes sl)) (i_slots im').

#[export] Instance same_shape_equiv : Equivalence same_shape.
Proof.
  split.
  - done.
  - intros x y [? ?]. done.
  - intros x y z [? ?] [? ?]. split; congruence.
Qed.

Lemma length_concat_map {A B} (f : A -> list B) l :
  length (concat (map f l)) = sum_list (map (fun x => length (f x)) l).
Proof. induction l as [|x l IH]; [done|]. simpl. by rewrite length_app, IH. Qed.

Lemma slot_off_shape im im' i : same_shape im im' -> slot_off im i = slot_off im' i.
Proof.
  intros [H _]. unfold slot_off. rewrite !length_concat_map. do 3 f_equal.
  by rewrite <- !firstn_map, H.
Qed.

Lemma dat_off_shape im im' i : same_shape im im' -> dat_off im i = dat_off im' i.
Proof.
  intros [_ H]. unfold dat_off. rewrite !length_concat_map. do 2 f_equal.
  by rewrite <- !firstn_map, H.
Qed.

Lemma same_shape_length im im' : same_shape im im' -> length (i_slots im) = length (i_slots im').
Proof. intros [H _]. apply (f_equal length) in H. by rewrite !length_map in H. Qed.

#[export] Instance slot_off_proper : Proper (same_shape ==> eq ==> eq) slot_off.
Proof. intros im im' H i ? <-. by apply slot_off_shape. Qed.

#[export] Instance dat_off_proper : Proper (same_shape ==> eq ==> eq) dat_off.
Proof. intros im im' H i ? <-. by apply dat_off_shape. Qed.

#[export] Instance loc_off_proper : Proper (same_shape ==> eq ==> eq) loc_off.
Proof. intros im im' H l ? <-. destruct l; simpl; [done|done|]. by rewrite H. Qed.

Lemma slot_of im i sl : wf_image im -> i_slots im !! i = Some sl -> slot_ok sl.
Proof. intros W Hi. eapply Forall_lookup_1; [apply W | done]. Qed.

Lemma set_ptr_bytes_length p sl :
  ptr_ok p -> slot_ok sl -> length (slot_bytes (set_ptr p sl)) = length (slot_bytes sl).
Proof.
  intros Hp Hok. unfold slot_bytes, set_ptr, text_len, slot_text. simpl.
  rewrite !length_app, !fmt6_length by (done || apply Hok). done.
Qed.

Lemma set_ptr_ok p sl : ptr_ok p -> slot_ok sl -> slot_ok (set_ptr p sl).
Proof. intros Hp [? ? ? ? ? ?]. by constructor. Qed.

(** Replacing a record by one of the same sizes at the same data offset. *)
Record fits (sl sl' : slot) : Prop := {
  fit_klen : length (s_key sl') = length (s_key sl);
  fit_doff : s_doff sl' = s_doff sl;
  fit_dlen : length (s_data sl') = length (s_data sl)
}.

Lemma fits_dlen sl sl' : fits sl sl' -> s_dlen sl' = s_dlen sl.
Proof. intros [_ _ H]. unfold s_dlen. lia. Qed.

Lemma fits_text_len sl sl' : fits sl sl' -> text_len sl' = text_len sl.
Proof.
  intros F. pose proof (fits_dlen _ _ F) as Hd. destruct F as [H1 H2 _].
  unfold text_len, slot_text. rewrite Hd, H2, !length_app, H1. done.
Qed.

Lemma same_shape_upd im i sl sl' :
  wf_image im -> i_slots im !! i = Some sl -> slot_ok sl' -> fits sl sl' ->
  same_shape im (upd_slot im i sl').
Proof.
  intros W Hi Hok F. pose proof (slot_of im i sl W Hi) as Hsl.
  destruct (insert_split _ _ _ sl' Hi) as (l1 & l2 & E1 & E2 & _).
  unfold same_shape, upd_slot. simpl. rewrite E2, E1, !map_app. simpl. split; do 2 f_equal.
  - apply Nat2Z.inj. rewrite !slot_bytes_length by done. by rewrite (fits_text_len _ _ F).
  - apply Nat2Z.inj. rewrite !data_bytes_length. by rewrite (fits_dlen _ _ F).
Qed.

Lemma wf_upd_slot im i sl sl' :
  wf_image im -> i_slots im !! i = Some sl -> slot_ok sl' -> fits sl sl' ->
  wf_image (upd_slot im i sl').
Proof.
  intros W Hi Hok F. pose proof (same_shape_upd im i sl sl' W Hi Hok F) as Hs.
  destruct W as [W1 W2 W3 W4 W5]. constructor; simpl; try done.
  - by apply Forall_insert.
  - intros j x Hj. rewrite <- (dat_off_shape _ _ _ Hs).
    destruct (decide (i = j)) as [<-|Hne].
    + rewrite list_lookup_insert_eq in Hj by (by eapply lookup_lt_Some). simplify_eq.
      rewrite (fit_doff _ _ F). by apply W5.
    + rewrite list_lookup_insert_ne in Hj by done. by apply W5.
Qed.

Lemma loc_set_slot im i sl p :
  i_slots im !! i = Some sl -> loc_set im (LSlot i) p = upd_slot im i (set_ptr p sl).
Proof.
  intros Hi. unfold loc_set, upd_slot. f_equal. apply list_eq. intros j.
  destruct (decide (i = j)) as [<-|Hne].
  - rewrite list_lookup_alter_eq, Hi, list_lookup_insert_eq; [done|by eapply lookup_lt_Some].
  - by rewrite list_lookup_alter_ne, list_lookup_insert_ne.
Qed.

Lemma fits_set_ptr p sl : fits sl (set_ptr p sl).
Proof. done. Qed.

Lemma loc_set_ok im l p q :
  wf_image im -> loc_get im l = Some q -> ptr_ok p ->
  wf_image (loc_set im l p) /\ same_shape im (loc_set im l p).
Proof.
  intros W Hl Hp. destruct l as [|h|i].
  - split; [|done]. by destruct W.
  - split; [|done]. destruct W as [W1 W2 W3 W4 W5]. constructor; simpl; try done.
    + by rewrite length_insert.
    + by apply Forall_insert.
  - simpl in Hl. destruct (i_slots im !! i) as [sl|] eqn:Hi; [|done].
    rewrite (loc_set_slot _ _ _ _ Hi). pose proof (slot_of im i sl W Hi) as Hsl.
    split; [eapply wf_upd_slot | eapply same_shape_upd]; eauto using set_ptr_ok, fits_set_ptr.
Qed.

Lemma wf_app_slot im sl :
  wf_image im -> slot_ok sl -> s_doff sl = Z.of_nat (length (dat_image im)) ->
  wf_image (app_slot im sl).
Proof.
  intros [W1 W2 W3 W4 W5] Hok Hd. constructor; simpl; try done.
  - apply Forall_app. split; [done|]. by constructor.
  - intros i x Hi. unfold dat_off. simpl. apply lookup_app_Some in Hi as [Hi|[Hge Hi]].
    + rewrite take_app_le by (apply lookup_lt_Some in Hi; lia). by apply W5.
    + destruct (i - length (i_slots im))%nat eqn:E; [|done]. simpl in Hi. simplify_eq.
      replace i with (length (i_slots im)) by lia. rewrite take_app_length. done.
Qed.

Lemma slot_off_app im sl i :
  (i <= length (i_slots im))%nat -> slot_off (app_slot im sl) i = slot_off im i.
Proof. intros. unfold slot_off. simpl. by rewrite take_app_le. Qed.

(** ** Where the bytes are *)

Lemma idx_slot_split im i sl :
  wf_image im -> i_slots im !! i = Some sl ->
  exists a b, idx_image im = a ++ slot_bytes sl ++ b /\
    Z.of_nat (length a) = slot_off im i /\
    forall sl', idx_image (upd_slot im i sl') = a ++ slot_bytes sl' ++ b.
Proof.
  intros W Hi. destruct (lookup_split _ _ _ Hi) as (l1 & l2 & E & Hl).
  exists (idx_head im ++ concat (map slot_bytes l1)), (concat (map slot_bytes l2)).
  split; [|split].
  - unfold idx_image. by rewrite E, concat_lookup_split, app_assoc.
  - unfold slot_off. rewrite E, <- Hl, take_app_length, length_app, Nat2Z.inj_add.
    by rewrite idx_head_length.
  - intros sl'. unfold idx_image, upd_slot. simpl. rewrite E, <- Hl, insert_app_mid.
    by rewrite concat_lookup_split, app_assoc.
Qed.

Lemma dat_split im i sl :
  wf_image im -> i_slots im !! i = Some sl ->
  exists a b, dat_image im = a ++ data_bytes sl ++ b /\
    Z.of_nat (length a) = s_doff sl /\
    forall sl', dat_image (upd_slot im i sl') = a ++ data_bytes sl' ++ b.
Proof.
  intros W Hi. destruct (lookup_split _ _ _ Hi) as (l1 & l2 & E & Hl).
  exists (concat (map data_bytes l1)), (concat (map data_bytes l2)).
  split; [|split].
  - unfold dat_image. by rewrite E, concat_lookup_split.
  - rewrite (wf_doff im W i sl Hi). unfold dat_off. by rewrite E, <- Hl, take_app_length.
  - intros sl'. unfold dat_image, upd_slot. simpl. rewrite E, <- Hl, insert_app_mid.
    by rewrite concat_lookup_split.
Qed.

Lemma idx_loc_split im l p :
  wf_image im -> loc_get im l = Some p ->
  exists a b, idx_image im = a ++ fmt_w 6 p ++ b /\
    Z.of_nat (length a) = loc_off im l /\
    forall p', idx_image (loc_set im l p') = a ++ fmt_w 6 p' ++ b.
Proof.
  intros W Hl. destruct l as [|h|i]; simpl in Hl.
  - simplify_eq. eexists [], _. split; [|split]; [|done|].
    + unfold idx_image, idx_head. rewrite <- app_assoc. done.
    + intros p'. unfold idx_image, idx_head. simpl. by rewrite <- app_assoc.
  - destruct (lookup_split _ _ _ Hl) as (l1 & l2 & E & Hh).
    eexists (fmt_w 6 (i_free im) ++ concat (map (fmt_w 6) l1)), _. split; [|split].
    + unfold idx_image, idx_head. rewrite E, concat_lookup_split, <- !app_assoc. done.
    + rewrite length_app, fmt6_length by apply W. pose proof (wf_hash im W) as F.
      rewrite E in F. apply Forall_app in F as [F _].
      rewrite hash_bytes_length by done. unfold loc_off, HASH_OFF, PTR_SZ. lia.
    + intros p'. unfold idx_image, idx_head, loc_set. simpl.
      rewrite E, <- Hh, insert_app_mid, concat_lookup_split, <- !app_assoc. done.
  - destruct (i_slots im !! i) as [sl|] eqn:Hi; [|done]. simpl in Hl. simplify_eq.
    destruct (idx_slot_split im i sl W Hi) as (a & b & E1 & E2 & E3).
    eexists a, _. split; [|split; [done|]].
    + rewrite E1. unfold slot_bytes. rewrite <- app_assoc. done.
    + intros p'. rewrite (loc_set_slot _ _ _ _ Hi), E3. unfold slot_bytes.
      rewrite <- app_assoc. done.
Qed.

Lemma idx_app im sl : idx_image (app_slot im sl) = idx_image im ++ slot_bytes sl.
Proof.
  unfold idx_image, app_slot, idx_head. simpl.
  by rewrite map_app, concat_app, !app_assoc; simpl; rewrite app_nil_r.
Qed.

Lemma dat_app im sl : dat_image (app_slot im sl) = dat_image im ++ data_bytes sl.
Proof. unfold dat_image, app_slot. simpl. rewrite map_app, concat_app. simpl. by rewrite app_nil_r. Qed.
