(* ===== verification/DbPrim.v ===== *)
(** What the read and write functions of [Db] do to the structure of the files
    ([DbLayout]): each runs to completion and acts on one pointer, one index
    record or one data record. *)
From S2P Require Import Prelude CStr FileIO Db DbLayout.

(** ** Symbolic execution of handle code *)
Section Exec.
Context {A B : Type}.
Implicit Types (w : world) (d : DB).

Lemma run_field (p : DB -> A) (k : A -> M dbst B) w d e :
  (field p ≫= k) (DbSt w d e) = k (p d) (DbSt w d e).
Proof. done. Qed.

Lemma run_upd f (k : unit -> M dbst B) w d e :
  (upd f ≫= k) (DbSt w d e) = k tt (DbSt w (f d) e).
Proof. done. Qed.

Lemma run_get (k : dbst -> M dbst B) s : (get ≫= k) s = k s s.
Proof. done. Qed.

Lemma run_sys (f : world -> A * world) (k : A -> M dbst B) w d e a w' :
  f w = (a, w') -> (sys f ≫= k) (DbSt w d e) = k a (DbSt w' d e).
Proof. intros E. unfold mbind, M_bind, sys. simpl. by rewrite E. Qed.

Lemma run_dump_ok b msg (k : unit -> M dbst B) s :
  b = false -> (dump_if b msg ≫= k) s = k tt s.
Proof. by intros ->. Qed.

Lemma run_ret (a : A) (k : A -> M dbst B) s : (mret a ≫= k) s = k a s.
Proof. done. Qed.
End Exec.

Lemma dump_ok {S} b msg (s : S) : b = false -> dump_if b msg s = Ret tt s.
Proof. by intros ->. Qed.

Ltac step := first
  [ rewrite run_field | rewrite run_upd | rewrite run_get | rewrite run_ret
  | rewrite run_dump_ok by (rewrite ?negb_false_iff, ?orb_false_iff; first [done | lia]) ]; cbv beta.
Ltac steps := repeat step.
Ltac sysstep H := rewrite (run_sys _ _ _ _ _ _ _ H); cbv beta.

(** Every lock request is granted (no deadlock, no lack of locks), and file
    sizes fit the type [off_t]. *)
Class Granting (K : Kernel) : Prop := {
  grant : forall evs cmd e, k_lock evs cmd e = true;
  fsize_fits : k_fsize <= LONG_MAX
}.

Section Prim.
Context `{K : Kernel} (G : Granting K) (pi pd : list Z).

(** The index file holds the structure; the data file holds its data records and
    [x], a data record that no index record describes yet. *)
Record layout (im : image) (x : list Z) (w : world) (d : DB) : Prop := {
  lay_wf : wf_image im;
  lay_nhash : nhash d = NHASH_DEF;
  lay_hashoff : hashoff d = HASH_OFF;
  lay_idx : has_file w (idxfd d) pi (idx_image im);
  lay_dat : has_file w (datfd d) pd (dat_image im ++ x);
  lay_path : pi <> pd;
  lay_isz : Z.of_nat (length (idx_image im)) <= k_fsize;
  lay_dsz : Z.of_nat (length (dat_image im ++ x)) <= k_fsize
}.

(** Handle fields the layout depends on. *)
Definition same_handle (d d' : DB) : Prop :=
  idxfd d' = idxfd d /\ datfd d' = datfd d /\ nhash d' = nhash d /\ hashoff d' = hashoff d.

Lemma layout_view im x w w' d d' :
  view w' = view w -> same_handle d d' -> layout im x w d -> layout im x w' d'.
Proof.
  intros V (E1 & E2 & E3 & E4) [? ? ? ? ? ? ? ?].
  constructor; rewrite ?E1, ?E2, ?E3, ?E4; eauto using has_file_view.
Qed.

Lemma layout_log im x w d e : layout im x w d -> layout im x (log_event e w) d.
Proof. intros [? ? ? ? ? ? ? ?]. by constructor. Qed.

Lemma layout_fds im x w d : layout im x w d -> idxfd d <> datfd d.
Proof. intros L E. destruct L as [_ _ _ [H1 _] [H2 _] Hp _ _]. rewrite E in H1. congruence. Qed.

(** ** Chain pointers *)

Lemma readptr_ok im x w d e l p :
  layout im x w d -> loc_get im l = Some p -> ptr_ok p ->
  exists w', _db_readptr (loc_off im l) (DbSt w d e) = Ret p (DbSt w' d e) /\ view w' = view w.
Proof.
  intros L Hl Hp. destruct (idx_loc_split im l p (lay_wf _ _ _ _ L) Hl) as (a & b & E & Ha & _).
  unfold _db_readptr. step.
  destruct (lseek_ok w (idxfd d) pi _ (loc_off im l) SEEK_SET 0 (lay_idx _ _ _ _ L))
    as (w1 & E1 & V1 & P1 & _); [done|simpl; lia|]. simpl in E1, P1.
  sysstep E1. step.
  pose proof (has_file_view _ _ _ _ _ V1 (lay_idx _ _ _ _ L)) as HF. rewrite E in HF.
  destruct (read_ok w1 (idxfd d) pi a (fmt_w 6 p) b PTR_SZ _ HF P1) as (w2 & E2 & V2 & _);
    [done|by rewrite fmt6_length|].
  sysstep E2. step. exists w2. split; [|congruence].
  unfold mret, M_ret. simpl. rewrite atol_fmt_w; [done|].
  unfold ptr_ok, PTR_MAX, LONG_MAX in *. lia.
Qed.

Lemma writeptr_ok im x w d e l p q :
  layout im x w d -> loc_get im l = Some q -> ptr_ok p ->
  exists w', _db_writeptr (loc_off im l) p (DbSt w d e) = Ret tt (DbSt w' d e) /\
    layout (loc_set im l p) x w' d /\ 
    events w' = EvWrite (idxfd d) (loc_off im l) PTR_SZ :: events w.
Proof.
  intros L Hl Hp. pose proof (lay_wf _ _ _ _ L) as W.
  destruct (idx_loc_split im l q W Hl) as (a & b & E & Ha & Eset).
  assert (Hq : ptr_ok q).
  { destruct l as [|h|i]; simpl in Hl.
    - simplify_eq. apply W.
    - eapply Forall_lookup_1; [apply W | done].
    - destruct (i_slots im !! i) eqn:Hi; [|done]. simpl in Hl. simplify_eq. by apply (slot_of im i). }
  destruct (loc_set_ok im l p q W Hl Hp) as [W' _].
  unfold _db_writeptr. pose proof Hp as [Hp1 Hp2]. bfalse ((p <? 0) || (PTR_MAX <? p)).
  steps.
  destruct (lseek_ok w (idxfd d) pi _ (loc_off im l) SEEK_SET 0 (lay_idx _ _ _ _ L))
    as (w1 & E1 & V1 & P1 & _); [done|simpl; lia|]. simpl in E1, P1.
  sysstep E1. step.
  pose proof (has_file_view _ _ _ _ _ V1 (lay_idx _ _ _ _ L)) as HF.
  assert (Hsz : loc_off im l + 6 <= k_fsize).
  { pose proof (lay_isz _ _ _ _ L) as H. rewrite E, !length_app, fmt6_length in H by done. lia. }
  destruct (write_ok w1 (idxfd d) pi _ (fmt_w 6 p) _ HF P1) as (w2 & E2 & WR & _);
    rewrite ?fmt6_length by done; try lia.
  change (Z.to_nat PTR_SZ) with 6%nat. sysstep E2.
  rewrite dump_ok by (rewrite fmt6_length by done; done).
  exists w2. split; [done|].
  assert (EW : write_at (idx_image im) (Z.to_nat (loc_off im l)) (fmt_w 6 p) = idx_image (loc_set im l p)).
  { rewrite E, <- Ha, Nat2Z.id, Eset. apply write_at_app. by rewrite !fmt6_length. }
  rewrite EW, fmt6_length in WR by done.
  pose proof (has_file_wrote _ _ _ _ _ _ _ _ WR HF) as HF'.
  assert (ED : dat_image (loc_set im l p) = dat_image im).
  { destruct l as [|h|i]; [done|done|]. simpl in Hl.
    destruct (i_slots im !! i) as [sl|] eqn:Hi; [|done]. rewrite (loc_set_slot _ _ _ _ Hi).
    destruct (dat_split im i sl W Hi) as (y & z & F1 & _ & F3). by rewrite F3, F1. }
  split.
  - constructor; try done; try apply L.
    + rewrite ED. eapply has_file_wrote_ne; [apply WR|by apply L|].
      eapply has_file_view; [apply V1|apply L].
    + rewrite Eset. pose proof (lay_isz _ _ _ _ L) as H.
      rewrite E in H. rewrite !length_app in *. rewrite !fmt6_length in * by done. lia.
    + rewrite ED. apply L.
  - unfold wrote, view in WR, V1. injection WR as _ _ ->. injection V1 as _ _ ->. done.
Qed.

(** ** Index records *)

Lemma splitidx_ok key off len rest w d e :
  key_ok key -> 0 <= off <= LONG_MAX -> DATLEN_MIN <= len <= DATLEN_MAX ->
  idxbuf d = key ++ SEP :: dec off ++ SEP :: dec len ++ 0 :: rest ->
  _db_splitidx (DbSt w d e) = Ret tt (DbSt w
    (set_datlen len (set_datoff off (set_idxbuf (key ++ 0 :: dec off ++ 0 :: dec len ++ 0 :: rest) d))) e).
Proof.
  intros [Hk Hs] Ho Hl Hb. unfold DATLEN_MIN, DATLEN_MAX in Hl. unfold _db_splitidx. step. rewrite Hb.
  assert (E1 : strchr (key ++ SEP :: dec off ++ SEP :: dec len ++ 0 :: rest) 0 SEP = Some (length key)).
  { exact (strchr_found key SEP _ [] Hk Hs). }
  rewrite E1. step. rewrite insert_app_mid. step.
  assert (Hsep : isdigit SEP = false) by done.
  assert (E2 : strchr (key ++ 0 :: dec off ++ SEP :: dec len ++ 0 :: rest) (S (length key)) SEP
               = Some (S (length key) + length (dec off))%nat).
  { pose proof (strchr_found (dec off) SEP (dec len ++ 0 :: rest) (key ++ [0])) as H.
    rewrite length_app, <- app_assoc in H. simpl in H. rewrite Nat.add_1_r in H.
    apply H; [apply dec_nonul; lia | apply dec_not_in; [lia|done]]. }
  rewrite E2. step.
  assert (E3 : <[(S (length key) + length (dec off))%nat := 0]>
                 (key ++ 0 :: dec off ++ SEP :: dec len ++ 0 :: rest)
               = key ++ 0 :: dec off ++ 0 :: dec len ++ 0 :: rest).
  { pose proof (insert_app_mid (key ++ 0 :: dec off) (dec len ++ 0 :: rest) SEP 0) as H.
    rewrite <- app_assoc in H. simpl in H. rewrite length_app in H. simpl in H.
    rewrite Nat.add_succ_r in H. etrans; [exact H|]. by rewrite <- app_assoc. }
  rewrite E3. step.
  set (B := key ++ 0 :: dec off ++ 0 :: dec len ++ 0 :: rest).
  assert (E4 : strchr B (S (S (length key) + length (dec off))) SEP = None).
  { pose proof (strchr_none (dec len) SEP rest (key ++ 0 :: dec off ++ [0])) as H.
    unfold B. replace (length (key ++ 0 :: dec off ++ [0])) with (S (S (length key) + length (dec off))) in H
      by (rewrite length_app; simpl; rewrite length_app; simpl; lia).
    rewrite <- app_assoc in H. simpl in H. rewrite <- app_assoc in H. simpl in H. apply H; [|apply dec_not_in; [lia|done]|done].
    apply dec_nonul. lia. }
  rewrite E4. step.
  assert (E5 : atol (drop (S (length key)) B) = off).
  { unfold B. change (key ++ 0 :: ?x) with (key ++ [0] ++ x). rewrite (app_assoc key).
    replace (S (length key)) with (length (key ++ [0])) by (rewrite length_app; simpl; lia).
    rewrite drop_app_length. by apply (atol_dec 0). }
  assert (E6 : atol (drop (S (S (length key) + length (dec off))) B) = len).
  { unfold B. change (0 :: dec len ++ ?x) with ([0] ++ dec len ++ x).
    change (0 :: dec off ++ ?x) with (([0] ++ dec off) ++ x).
    rewrite !app_assoc, <- (app_assoc _ (dec len)).
    replace (S (S (length key) + length (dec off))) with (length (((key ++ [0]) ++ dec off) ++ [0]))
      by (rewrite !length_app; simpl; lia).
    rewrite drop_app_length. apply (atol_dec 0); [unfold LONG_MAX; lia | done]. }
  rewrite E5, E6. assert (E7 : uwrap 64 len = len) by (apply Z.mod_small; lia).
  rewrite E7. steps. apply dump_ok.
  rewrite orb_false_iff. unfold DATLEN_MAX. lia.
Qed.

(** The handle after record [i] was read into it. *)
Definition read_rec (o : Z) (sl : slot) (buf : list Z) (d : DB) : DB :=
  set_datlen (s_dlen sl) (set_datoff (s_doff sl) (set_idxbuf buf
    (set_idxlen (text_len sl) (set_ptrval (s_ptr sl) (set_idxoff o d))))).

(** [_db_readidx] seeks the record, or stays where it is. *)
Lemma seek_rec_ok im x w d i off :
  layout im x w d -> off = slot_off im i \/ (off = 0 /\ pos_of w (idxfd d) = Some (slot_off im i)) ->
  exists w1, sys_lseek (idxfd d) off (if off =? 0 then SEEK_CUR else SEEK_SET) w = (slot_off im i, w1) /\ view w1 = view w /\
    pos_of w1 (idxfd d) = Some (slot_off im i).
Proof.
  intros L Hoff. pose proof (slot_off_pos im i) as Hpos. change HEAD with 829 in Hpos. set (wh := if off =? 0 then SEEK_CUR else SEEK_SET).
  destruct (lseek_ok w (idxfd d) pi _ off wh (slot_off im i) (lay_idx _ _ _ _ L)) as (w1 & E1 & V1 & P1 & _).
  - unfold wh. destruct Hoff as [->|[-> ?]]; [|done]. bfalse (slot_off im i =? 0). done.
  - unfold wh. destruct Hoff as [->|[-> ?]]; [bfalse (slot_off im i =? 0)|]; simpl; lia.
  - exists w1. unfold wh in *. destruct Hoff as [->|[-> ?]].
    + replace (slot_off im i =? 0) with false in * by (symmetry; apply Z.eqb_neq; lia). done.
    + rewrite Z.eqb_refl in *. simpl in *. rewrite Z.add_0_r in *. done.
Qed.

(** The text of an index record in the buffer, up to its newline. *)
Lemma text_in_buffer sl buf : let pre := s_key sl ++ [SEP] ++ dec (s_doff sl) ++ [SEP] ++ dec (s_dlen sl) in
  poke (slot_text sl) buf = pre ++ NEWLINE :: drop (length (slot_text sl)) buf /\ Z.to_nat (text_len sl - 1) = length pre.
Proof.
  intros pre. assert (ET : slot_text sl = pre ++ [NEWLINE]) by (unfold slot_text, pre; by rewrite <- !app_assoc). split.
  - unfold poke. rewrite ET at 1. by rewrite <- app_assoc.
  - unfold text_len. rewrite ET, length_app. simpl. lia.
Qed.

Lemma readidx_ok im x w d e i sl off :
  layout im x w d -> i_slots im !! i = Some sl ->
  off = slot_off im i \/ (off = 0 /\ pos_of w (idxfd d) = Some (slot_off im i)) ->
  exists w' rest,
    _db_readidx off (DbSt w d e) = Ret (s_ptr sl)
      (DbSt w' (read_rec (slot_off im i) sl (s_key sl ++ 0 :: rest) d) e) /\
    view w' = view w /\ pos_of w' (idxfd d) = Some (slot_off im (S i)).
Proof.
  intros L Hi Hoff. pose proof (lay_wf _ _ _ _ L) as W. pose proof (slot_of im i sl W Hi) as Hok.
  pose proof (slot_off_pos im i) as Hpos. change HEAD with 829 in Hpos.
  destruct (idx_slot_split im i sl W Hi) as (a & b & E & Ha & _).
  pose proof (ok_len sl Hok) as Hlen. unfold IDXLEN_MIN, IDXLEN_MAX in Hlen.
  pose proof (ok_ptr sl Hok) as Hptr.
  assert (H6 : length (fmt_w 6 (s_ptr sl)) = 6%nat) by by apply fmt6_length.
  assert (H4 : length (fmt_w 4 (text_len sl)) = 4%nat) by (apply fmt4_length; unfold IDXLEN_MAX; lia).
  unfold _db_readidx. step.
  destruct (seek_rec_ok im x w d i off L Hoff) as (w1 & E1 & V1 & P1).
  sysstep E1. steps.
  pose proof (has_file_view _ _ _ _ _ V1 (lay_idx _ _ _ _ L)) as HF.
  set (hd := fmt_w 6 (s_ptr sl) ++ fmt_w 4 (text_len sl)).
  assert (Hhd : Z.of_nat (length hd) = 10) by (unfold hd; rewrite length_app; lia).
  assert (EF : idx_image im = a ++ hd ++ slot_text sl ++ b).
  { rewrite E. unfold slot_bytes, hd. by rewrite <- !app_assoc. }
  rewrite EF in HF.
  destruct (read_ok w1 (idxfd d) pi a hd (slot_text sl ++ b) (PTR_SZ + IDXLEN_SZ) _ HF P1)
    as (w2 & E2 & V2 & P2 & _); [done|done|].
  sysstep E2. cbn [fst snd]. rewrite Z.eqb_refl. cbn [negb]. change (Z.to_nat PTR_SZ) with 6%nat. cbv zeta.
  replace (take 6 hd) with (fmt_w 6 (s_ptr sl)) by (unfold hd; by rewrite take_app_length').
  replace (drop 6 hd) with (fmt_w 4 (text_len sl)) by (unfold hd; by rewrite drop_app_length').
  rewrite atol_fmt_w by (unfold ptr_ok, PTR_MAX, LONG_MAX in *; lia).
  rewrite atoi_fmt_w by lia.
  assert (EU : uwrap 64 (text_len sl) = text_len sl) by (apply Z.mod_small; lia).
  rewrite EU. steps. rewrite run_dump_ok by (rewrite orb_false_iff; unfold IDXLEN_MIN, IDXLEN_MAX; lia).
  cbv beta.
  pose proof (has_file_view _ _ _ _ _ V2 HF) as HF2. rewrite (app_assoc a hd) in HF2.
  destruct (read_ok w2 (idxfd d) pi (a ++ hd) (slot_text sl) b (text_len sl) _ HF2 P2)
    as (w3 & E3 & V3 & P3 & _); [rewrite length_app; unfold PTR_SZ, IDXLEN_SZ; lia|done|].
  cbn [idxfd set_idxlen set_ptrval set_idxoff].
  sysstep E3. cbn [fst snd]. step. cbn [idxbuf set_idxlen set_ptrval set_idxoff].
  cbv zeta. steps.
  destruct (text_in_buffer sl (idxbuf d)) as [EB EN]. set (pre := s_key sl ++ _) in *.
  rewrite EB, EN, list_lookup_middle by done. cbn [default]. steps.
  rewrite insert_app_mid. unfold mbind, M_bind.
  erewrite splitidx_ok; [|by apply Hok|by apply Hok|by apply Hok|].
  2:{ cbn [idxbuf set_idxbuf]. unfold pre. rewrite <- !app_assoc. simpl. done. }
  exists w3. eexists. split; [|split].
  - cbn. unfold read_rec. reflexivity.
  - congruence.
  - rewrite P3. f_equal. rewrite (slot_off_S im i sl Hi Hok). unfold PTR_SZ, IDXLEN_SZ. lia.
Qed.

(** At the end of the index file a sequential read reports end of file. *)
Lemma readidx_eof im x w d e :
  layout im x w d -> pos_of w (idxfd d) = Some (slot_off im (length (i_slots im))) ->
  exists w', _db_readidx 0 (DbSt w d e) =
      Ret (-1) (DbSt w' (set_idxoff (slot_off im (length (i_slots im))) d) e) /\
    view w' = view w /\ pos_of w' (idxfd d) = pos_of w (idxfd d).
Proof.
  intros L Hpos. pose proof (slot_off_pos im (length (i_slots im))) as Hp. change HEAD with 829 in Hp.
  pose proof (slot_off_end im (lay_wf _ _ _ _ L)) as Hend. set (q := slot_off im _) in *.
  unfold _db_readidx. step.
  destruct (lseek_ok w (idxfd d) pi _ 0 SEEK_CUR q (lay_idx _ _ _ _ L)) as (w1 & E1 & V1 & P1 & _);
    [done|simpl; lia|]. simpl in E1, P1. rewrite Z.add_0_r in *.
  sysstep E1. steps.
  pose proof (has_file_view _ _ _ _ _ V1 (lay_idx _ _ _ _ L)) as HF.
  destruct (read_eof w1 (idxfd d) pi _ (PTR_SZ + IDXLEN_SZ) q HF P1 Hend) as (w2 & E2 & V2 & P2).
  sysstep E2. exists w2. split; [done|]. split; congruence.
Qed.

(** ** Data records *)

Definition set_data (v : list Z) (sl : slot) : slot := Slot (s_ptr sl) (s_key sl) (s_doff sl) v.

Lemma readdat_ok im x w d e i sl :
  layout im x w d -> i_slots im !! i = Some sl -> datoff d = s_doff sl -> datlen d = s_dlen sl ->
  exists w' buf, _db_readdat (DbSt w d e) = Ret (s_data sl) (DbSt w' (set_datbuf buf d) e) /\
    view w' = view w /\ pos_of w' (idxfd d) = pos_of w (idxfd d).
Proof.
  intros L Hi Ho Hl. pose proof (lay_wf _ _ _ _ L) as W. pose proof (slot_of im i sl W Hi) as Hok.
  destruct (dat_split im i sl W Hi) as (a & b & E & Ha & _).
  pose proof (layout_fds _ _ _ _ L) as Hfd.
  unfold _db_readdat. steps. rewrite Ho, Hl.
  destruct (lseek_ok w (datfd d) pd _ (s_doff sl) SEEK_SET 0 (lay_dat _ _ _ _ L))
    as (w1 & E1 & V1 & P1 & N1); [done|simpl; lia|]. simpl in E1, P1.
  sysstep E1. step.
  pose proof (has_file_view _ _ _ _ _ V1 (lay_dat _ _ _ _ L)) as HF.
  rewrite E, <- !app_assoc in HF.
  destruct (read_ok w1 (datfd d) pd a (data_bytes sl) (b ++ x) (s_dlen sl) _ HF P1)
    as (w2 & E2 & V2 & P2 & N2); [done|by rewrite data_bytes_length|].
  sysstep E2. cbn [fst snd]. steps. cbv zeta. steps.
  assert (EB : poke (data_bytes sl) (datbuf d) = s_data sl ++ NEWLINE :: drop (length (data_bytes sl)) (datbuf d)).
  { unfold poke, data_bytes at 1. by rewrite <- app_assoc. }
  assert (EN : Z.to_nat (s_dlen sl - 1) = length (s_data sl)) by (unfold s_dlen; lia).
  rewrite EB, EN, list_lookup_middle by done. cbn [default]. steps. rewrite insert_app_mid.
  do 2 eexists. split; [unfold mret, M_ret; rewrite cstr_app by apply Hok; reflexivity|].
  split; [congruence|]. by rewrite N2, N1.
Qed.

Lemma set_data_fits v sl : length v = length (s_data sl) -> fits sl (set_data v sl).
Proof. done. Qed.

Lemma set_data_bytes v sl : length v = length (s_data sl) -> slot_bytes (set_data v sl) = slot_bytes sl.
Proof.
  intros H. unfold slot_bytes, text_len, slot_text, s_dlen, set_data. simpl. by rewrite H.
Qed.

Lemma set_data_ok v sl : nonul v -> length v = length (s_data sl) -> slot_ok sl -> slot_ok (set_data v sl).
Proof.
  intros Hv Hl [O1 O2 O3 O4 O5 O6]. pose proof (set_data_fits v sl Hl) as F.
  constructor; try done.
  - by rewrite (fits_dlen _ _ F).
  - by rewrite (fits_text_len _ _ F).
Qed.

Lemma idx_set_data im i sl v :
  wf_image im -> i_slots im !! i = Some sl -> length v = length (s_data sl) ->
  idx_image (upd_slot im i (set_data v sl)) = idx_image im.
Proof.
  intros W Hi Hl. destruct (idx_slot_split im i sl W Hi) as (a & b & E & _ & E').
  by rewrite E', set_data_bytes, E.
Qed.

Lemma writedat_over_ok im w d e i sl data :
  layout im [] w d -> i_slots im !! i = Some sl -> length (cstr data) = length (s_data sl) ->
  exists w', _db_writedat data (s_doff sl) SEEK_SET (DbSt w d e) =
      Ret tt (DbSt w' (set_datlen (s_dlen sl) (set_datoff (s_doff sl) d)) e) /\
    layout (upd_slot im i (set_data (cstr data) sl)) [] w' d /\
    events w' = EvWrite (datfd d) (s_doff sl) (s_dlen sl) :: events w.
Proof.
  intros L Hi Hl. pose proof (lay_wf _ _ _ _ L) as W. pose proof (slot_of im i sl W Hi) as Hok.
  destruct (dat_split im i sl W Hi) as (a & b & E & Ha & Eset).
  pose proof (lay_dat _ _ _ _ L) as HF0. rewrite app_nil_r in HF0.
  pose proof (lay_dsz _ _ _ _ L) as Hsz. rewrite app_nil_r in Hsz.
  assert (Hlen : length (cstr data ++ [NEWLINE]) = length (data_bytes sl)).
  { unfold data_bytes. rewrite !length_app. lia. }
  assert (Hstr : strlen data + 1 = s_dlen sl) by (unfold strlen, s_dlen; lia).
  pose proof (ok_dlen sl Hok) as Hd. unfold DATLEN_MIN in Hd.
  unfold _db_writedat. step. rewrite !decide_False by done. step.
  destruct (lseek_ok w (datfd d) pd _ (s_doff sl) SEEK_SET 0 HF0)
    as (w1 & E1 & V1 & P1 & _); [done|simpl; lia|]. simpl in E1, P1.
  sysstep E1. steps. cbv zeta. steps.
  pose proof (has_file_view _ _ _ _ _ V1 HF0) as HF.
  assert (Hsz' : s_doff sl + s_dlen sl <= k_fsize).
  { rewrite E, !length_app in Hsz. pose proof (data_bytes_length sl). lia. }
  destruct (write_ok w1 (datfd d) pd _ (cstr data ++ [NEWLINE]) _ HF P1) as (w2 & E2 & WR & _);
    rewrite ?Hlen, ?data_bytes_length; try lia.
  cbn [datfd set_datlen set_datoff]. sysstep E2.
  rewrite Hlen, data_bytes_length in WR |- *. rewrite Hstr. steps.
  exists w2. split; [done|].
  assert (EW : write_at (dat_image im) (Z.to_nat (s_doff sl)) (cstr data ++ [NEWLINE]) =
               dat_image (upd_slot im i (set_data (cstr data) sl))).
  { rewrite Eset, E, <- Ha, Nat2Z.id. by apply write_at_app. }
  rewrite EW in WR. split.
  - constructor; rewrite ?app_nil_r; try (by apply L).
    + eapply wf_upd_slot; eauto using set_data_fits, set_data_ok, cstr_nonul.
    + rewrite idx_set_data by done. eapply has_file_wrote_ne; [apply WR|symmetry; apply L|].
      eapply has_file_view; [apply V1|apply L].
    + eapply has_file_wrote; [apply WR|done].
    + rewrite idx_set_data by done. apply L.
    + rewrite Eset. unfold data_bytes at 1. simpl.
      rewrite E, !length_app in Hsz. rewrite !length_app in *. lia.
  - unfold wrote, view in WR, V1. injection WR as _ _ ->. by injection V1 as _ _ ->.
Qed.

Lemma writedat_app_ok im w d e data :
  layout im [] w d ->
  Z.of_nat (length (dat_image im)) + strlen data + 1 <= k_fsize ->
  let o := Z.of_nat (length (dat_image im)) in
  exists w', _db_writedat data 0 SEEK_END (DbSt w d e) =
      Ret tt (DbSt w' (set_datlen (strlen data + 1) (set_datoff o d)) e) /\
    layout im (cstr data ++ [NEWLINE]) w' d /\
    events w' = EvLock (datfd d) F_UNLCK 0 0 :: EvWrite (datfd d) o (strlen data + 1)
                :: EvLock (datfd d) F_WRLCK 0 0 :: events w.
Proof.
  intros L Hsz o.
  pose proof (lay_dat _ _ _ _ L) as HF0. rewrite app_nil_r in HF0.
  assert (Hlen : Z.of_nat (length (cstr data ++ [NEWLINE])) = strlen data + 1).
  { rewrite length_app. unfold strlen. simpl. lia. }
  unfold _db_writedat. step. rewrite !decide_True by done.
  unfold mbind at 1, M_bind at 1. sysstep (lock_ok w (datfd d) pd _ F_SETLKW F_WRLCK 0 0 HF0 (grant _ _ _)).
  rewrite dump_ok by done.
  destruct (lseek_ok (log_event (EvLock (datfd d) F_WRLCK 0 0) w) (datfd d) pd _ 0 SEEK_END 0 HF0)
    as (w1 & E1 & V1 & P1 & _); [done|simpl; lia|]. simpl in E1, P1. rewrite Z.add_0_r in E1, P1.
  fold o in E1, P1. sysstep E1. steps. cbv beta zeta.
  steps. pose proof (has_file_view _ _ _ _ _ V1 HF0) as HF.
  destruct (write_ok w1 (datfd d) pd _ (cstr data ++ [NEWLINE]) _ HF P1) as (w2 & E2 & WR & _);
    rewrite ?Hlen; try (unfold strlen in *; lia).
  cbn [datfd set_datlen set_datoff]. sysstep E2. rewrite Hlen in WR |- *. steps.
  assert (EW : write_at (dat_image im) (Z.to_nat o) (cstr data ++ [NEWLINE]) = dat_image im ++ cstr data ++ [NEWLINE]).
  { unfold o. rewrite Nat2Z.id. apply write_at_end. }
  rewrite EW in WR. pose proof (has_file_wrote _ _ _ _ _ _ _ _ WR HF) as HF2.
  sysstep (lock_ok w2 (datfd d) pd _ F_SETLK F_UNLCK 0 0 HF2 (grant _ _ _)).
  rewrite dump_ok by done. eexists. split; [done|]. split.
  - apply layout_log. constructor; try (by apply L); try done.
    + eapply has_file_wrote_ne; [apply WR|symmetry; apply L|].
      eapply has_file_view; [apply V1|apply L].
    + rewrite length_app, Nat2Z.inj_add, Hlen. lia.
  - unfold wrote, view in WR, V1. injection WR as _ _ WR. injection V1 as _ _ V1.
    simpl. rewrite WR, V1. done.
Qed.

(** ** Writing index records *)

Lemma fits_slot_ok p k sl :
  ptr_ok p -> key_ok k -> length k = length (s_key sl) -> slot_ok sl ->
  slot_ok (Slot p k (s_doff sl) (s_data sl)) /\ fits sl (Slot p k (s_doff sl) (s_data sl)).
Proof.
  intros Hp Hk Hl Hok. assert (F : fits sl (Slot p k (s_doff sl) (s_data sl))) by done.
  split; [|done]. destruct Hok as [O1 O2 O3 O4 O5 O6]. constructor; try done.
  by rewrite (fits_text_len _ _ F).
Qed.

Lemma dat_set_key im i sl p k :
  wf_image im -> i_slots im !! i = Some sl ->
  dat_image (upd_slot im i (Slot p k (s_doff sl) (s_data sl))) = dat_image im.
Proof.
  intros W Hi. destruct (dat_split im i sl W Hi) as (a & b & E & _ & E').
  by rewrite E', E.
Qed.

(** The bytes [_db_writeidx] hands to [writev], and its checks, for a good slot. *)
Lemma writeidx_slot sl key :
  slot_ok sl -> cstr key = s_key sl ->
  idx_text key (s_doff sl) (s_dlen sl) = slot_text sl /\
  (Z.of_nat (length (slot_text sl)) + 1 <=? IDXLEN_MAX + 2) = true /\
  ((Z.of_nat (length (slot_text sl)) <? IDXLEN_MIN) ||
   (IDXLEN_MAX <? Z.of_nat (length (slot_text sl)))) = false.
Proof.
  intros Hok Hk. pose proof (ok_len sl Hok) as Hl. unfold text_len in Hl.
  split; [|split].
  - unfold idx_text. by rewrite Hk.
  - apply Z.leb_le. lia.
  - rewrite orb_false_iff. lia.
Qed.

(** Where the C library gives it a meaning, formatting [idxbuf] into itself uses the text that is there; ISO C does not. *)
Lemma writeidx_self w d e off wh p : k_self_copy = true -> _db_writeidx IdxBuf off wh p (DbSt w d e) = _db_writeidx (KeyPtr (idxbuf d)) off wh p (DbSt w d e).
Proof. intros Hs. unfold _db_writeidx. steps. destruct (_ || _); [done|]. steps. cbn [sprintf_key]. rewrite Hs. by steps. Qed.
Lemma writeidx_overlap w d e off wh p : k_self_copy = false -> ptr_ok p ->
  _db_writeidx IdxBuf off wh p (DbSt w d e) = Exit (Undefined "sprintf of idxbuf into itself") (DbSt w (set_ptrval p d) e).
Proof.
  intros Hs [H1 H2]. unfold _db_writeidx. steps. bfalse ((p <? 0) || (PTR_MAX <? p)). steps. cbn [sprintf_key]. by rewrite Hs.
Qed.

Lemma writeidx_over_ok im x w d e i sl key p :
  layout im x w d -> i_slots im !! i = Some sl ->
  key_ok (cstr key) -> length (cstr key) = length (s_key sl) -> ptr_ok p ->
  datoff d = s_doff sl -> datlen d = s_dlen sl ->
  let sl' := Slot p (cstr key) (s_doff sl) (s_data sl) in
  exists w' buf, _db_writeidx (KeyPtr key) (slot_off im i) SEEK_SET p (DbSt w d e) =
      Ret tt (DbSt w' (set_idxoff (slot_off im i) (set_idxbuf buf (set_ptrval p d))) e) /\
    layout (upd_slot im i sl') x w' d /\
    events w' = EvWrite (idxfd d) (slot_off im i) (10 + text_len sl) :: events w.
Proof.
  intros L Hi Hk Hkl Hp Ho Hdl sl'. pose proof (lay_wf _ _ _ _ L) as W.
  pose proof (slot_of im i sl W Hi) as Hok.
  destruct (fits_slot_ok p (cstr key) sl Hp Hk Hkl Hok) as [Hok' F]. fold sl' in Hok', F.
  destruct (idx_slot_split im i sl W Hi) as (a & b & E & Ha & Eset).
  destruct (writeidx_slot sl' key Hok' eq_refl) as (T1 & T2 & T3).
  pose proof Hp as [Hp1 Hp2]. pose proof (slot_off_pos im i) as Hpos. change HEAD with 829 in Hpos.
  assert (Hbl : length (slot_bytes sl') = length (slot_bytes sl)).
  { apply Nat2Z.inj. rewrite !slot_bytes_length by done. by rewrite (fits_text_len _ _ F). }
  unfold _db_writeidx. step. bfalse ((p <? 0) || (PTR_MAX <? p)). steps. cbn [sprintf_key]. steps.
  cbn [datoff datlen idxbuf set_ptrval]. rewrite Ho, Hdl. cbv zeta.
  change (s_doff sl) with (s_doff sl'). rewrite <- (fits_dlen _ _ F), T1, T2. steps.
  steps. rewrite !decide_False by done. step.
  cbn [idxfd set_idxbuf set_ptrval].
  destruct (lseek_ok w (idxfd d) pi _ (slot_off im i) SEEK_SET 0 (lay_idx _ _ _ _ L))
    as (w1 & E1 & V1 & P1 & _); [done|simpl; lia|]. simpl in E1, P1.
  sysstep E1. steps.
  pose proof (has_file_view _ _ _ _ _ V1 (lay_idx _ _ _ _ L)) as HF.
  change (Z.to_nat PTR_SZ) with 6%nat. change (Z.to_nat IDXLEN_SZ) with 4%nat.
  replace ((fmt_w 6 p ++ fmt_w 4 (Z.of_nat (length (slot_text sl')))) ++ slot_text sl')
    with (slot_bytes sl') by (unfold slot_bytes; by rewrite <- app_assoc).
  assert (Hsz : slot_off im i + Z.of_nat (length (slot_bytes sl')) <= k_fsize).
  { pose proof (lay_isz _ _ _ _ L) as H. rewrite E, !length_app in H. lia. }
  pose proof (slot_bytes_length sl' Hok') as Hbz. pose proof (ok_len sl' Hok') as Hl.
  unfold IDXLEN_MIN in Hl.
  destruct (write_ok w1 (idxfd d) pi _ (slot_bytes sl') _ HF P1) as (w2 & E2 & WR & _); try lia.
  sysstep E2. rewrite Hbz in WR |- *. fold (text_len sl').
  rewrite run_dump_ok by (rewrite negb_false_iff; apply Z.eqb_eq; unfold PTR_SZ, IDXLEN_SZ; lia).
  cbv beta. do 2 eexists. split; [reflexivity|].
  assert (EW : write_at (idx_image im) (Z.to_nat (slot_off im i)) (slot_bytes sl') = idx_image (upd_slot im i sl')).
  { rewrite Eset, E, <- Ha, Nat2Z.id. by apply write_at_app. }
  rewrite EW in WR. split.
  - constructor; try (by apply L).
    + by eapply wf_upd_slot.
    + by eapply has_file_wrote.
    + unfold sl'. rewrite dat_set_key by done. eapply has_file_wrote_ne; [apply WR|apply L|].
      eapply has_file_view; [apply V1|apply L].
    + rewrite Eset. pose proof (lay_isz _ _ _ _ L) as H. rewrite E in H.
      rewrite !length_app in *. lia.
    + unfold sl'. rewrite dat_set_key by done. apply L.
  - unfold wrote, view in WR, V1. injection WR as _ _ ->. injection V1 as _ _ ->.
    by rewrite (fits_text_len _ _ F).
Qed.

Lemma writeidx_app_ok im w d e sl key :
  layout im (data_bytes sl) w d -> slot_ok sl -> cstr key = s_key sl ->
  s_doff sl = Z.of_nat (length (dat_image im)) ->
  datoff d = s_doff sl -> datlen d = s_dlen sl ->
  Z.of_nat (length (idx_image im)) + 10 + text_len sl <= k_fsize ->
  let o := slot_off im (length (i_slots im)) in
  exists w' buf, _db_writeidx (KeyPtr key) 0 SEEK_END (s_ptr sl) (DbSt w d e) =
      Ret tt (DbSt w' (set_idxoff o (set_idxbuf buf (set_ptrval (s_ptr sl) d))) e) /\
    layout (app_slot im sl) [] w' d /\
    events w' = EvLock (idxfd d) F_UNLCK HEAD 0 :: EvWrite (idxfd d) o (10 + text_len sl)
                :: EvLock (idxfd d) F_WRLCK HEAD 0 :: events w.
Proof.
  intros L Hok Hk Hdo Ho Hdl Hsz o. pose proof (lay_wf _ _ _ _ L) as W.
  destruct (writeidx_slot sl key Hok Hk) as (T1 & T2 & T3).
  pose proof (ok_ptr sl Hok) as [Hp1 Hp2]. pose proof (slot_off_pos im (length (i_slots im))) as Hpos.
  change HEAD with 829 in Hpos. pose proof (slot_off_end im W) as Hend. fold o in Hend, Hpos.
  unfold _db_writeidx. step. bfalse ((s_ptr sl <? 0) || (PTR_MAX <? s_ptr sl)). steps. cbn [sprintf_key]. steps.
  cbn [datoff datlen idxbuf set_ptrval]. rewrite Ho, Hdl. cbv zeta. rewrite T1, T2. steps.
  steps. rewrite !decide_True by done.
  cbn [idxfd nhash set_idxbuf set_ptrval]. rewrite (lay_nhash _ _ _ _ L). fold HEAD.
  pose proof (lay_idx _ _ _ _ L) as HF0.
  unfold mbind at 1, M_bind at 1.
  sysstep (lock_ok w (idxfd d) pi _ F_SETLKW F_WRLCK HEAD 0 HF0 (grant _ _ _)).
  rewrite dump_ok by done.
  destruct (lseek_ok (log_event (EvLock (idxfd d) F_WRLCK HEAD 0) w) (idxfd d) pi _ 0 SEEK_END 0 HF0)
    as (w1 & E1 & V1 & P1 & _); [done|simpl; lia|]. simpl in E1, P1. rewrite Z.add_0_r, <- Hend in E1, P1.
  sysstep E1. steps.
  pose proof (has_file_view _ _ _ _ _ V1 HF0) as HF.
  change (Z.to_nat PTR_SZ) with 6%nat. change (Z.to_nat IDXLEN_SZ) with 4%nat.
  replace ((fmt_w 6 (s_ptr sl) ++ fmt_w 4 (Z.of_nat (length (slot_text sl)))) ++ slot_text sl)
    with (slot_bytes sl) by (unfold slot_bytes; by rewrite <- app_assoc).
  pose proof (slot_bytes_length sl Hok) as Hbz. pose proof (ok_len sl Hok) as Hl.
  unfold IDXLEN_MIN in Hl.
  destruct (write_ok w1 (idxfd d) pi _ (slot_bytes sl) _ HF P1) as (w2 & E2 & WR & _); try lia.
  sysstep E2. rewrite Hbz in WR |- *. fold (text_len sl).
  rewrite run_dump_ok by (rewrite negb_false_iff; apply Z.eqb_eq; unfold PTR_SZ, IDXLEN_SZ; lia).
  cbv beta.
  assert (EW : write_at (idx_image im) (Z.to_nat o) (slot_bytes sl) = idx_image (app_slot im sl)).
  { rewrite idx_app, Hend, Nat2Z.id. apply write_at_end. }
  rewrite EW in WR. pose proof (has_file_wrote _ _ _ _ _ _ _ _ WR HF) as HF2.
  sysstep (lock_ok w2 (idxfd d) pi _ F_SETLK F_UNLCK HEAD 0 HF2 (grant _ _ _)).
  rewrite dump_ok by done. do 2 eexists. split; [reflexivity|]. split.
  - apply layout_log. constructor; try (by apply L).
    + by apply wf_app_slot.
    + done.
    + rewrite dat_app, app_nil_r. eapply has_file_wrote_ne; [apply WR|apply L|].
      eapply has_file_view; [apply V1|apply L].
    + rewrite idx_app, length_app. lia.
    + rewrite dat_app, app_nil_r. apply L.
  - unfold wrote, view in WR, V1. injection WR as _ _ WR. injection V1 as _ _ V1.
    simpl. rewrite WR, V1. done.
Qed.
End Prim.
