(* ===== verification/DbChain.v ===== *)
(** The hash chains and the free list as linked lists of index records, the
    invariant of a database, and what unlinking, relinking, appending and
    rewriting a record do to it. *)
From S2P Require Import Prelude CStr FileIO Db DbLayout DbPrim.

(** ** Linked lists of records *)

(** The records [l], by position in the file, are linked from pointer [p]. *)
Fixpoint linked (im : image) (p : Z) (l : list nat) : Prop :=
  match l with
  | [] => p = 0
  | i :: l' => p = slot_off im i /\ exists sl, i_slots im !! i = Some sl /\ linked im (s_ptr sl) l'
  end.

Definition lists (im : image) (r : loc) (l : list nat) : Prop :=
  exists p, loc_get im r = Some p /\ linked im p l.

(** The place that points to the record after the records [pre] of a list. *)
Definition pred (r : loc) (pre : list nat) : loc :=
  match last pre with None => r | Some j => LSlot j end.

Definition is_root (r : loc) : Prop := match r with LSlot _ => False | _ => True end.

Lemma linked_ext im im' p l :
  (forall i, i ∈ l -> slot_off im' i = slot_off im i) ->
  (forall i, i ∈ l -> s_ptr <$> i_slots im' !! i = s_ptr <$> i_slots im !! i) ->
  linked im p l -> linked im' p l.
Proof.
  revert p. induction l as [|i l IH]; intros p Ho Hp; [done|].
  simpl. intros [-> (sl & Hi & Hl)]. split; [symmetry; apply Ho; left|].
  specialize (Hp i (list_elem_of_here _ _)) as Hpi. rewrite Hi in Hpi.
  destruct (i_slots im' !! i) as [sl'|]; [|done]. exists sl'. split; [done|].
  simpl in Hpi. injection Hpi as ->. apply IH; [| |done]; intros j Hj; [apply Ho | apply Hp]; by right.
Qed.

Lemma linked_lookup im p l i : linked im p l -> i ∈ l -> exists sl, i_slots im !! i = Some sl.
Proof.
  revert p. induction l as [|j l IH]; intros p; [by intros _ ?%not_elem_of_nil|].
  simpl. intros [_ (sl & Hj & Hl)] [->|Hi]%elem_of_cons; eauto.
Qed.

Lemma linked_ptr_ok im p l i :
  wf_image im -> ptr_ok p -> linked im p l -> i ∈ l -> ptr_ok (slot_off im i).
Proof.
  intros W. revert p. induction l as [|j l IH]; intros p Hp; [by intros _ ?%not_elem_of_nil|].
  simpl. intros [-> (sl & Hj & Hl)] [->|Hi]%elem_of_cons; [done|].
  apply (IH (s_ptr sl)); [|done|done]. by apply (slot_of im j).
Qed.

Lemma linked_app im p pre l :
  linked im p (pre ++ l) ->
  exists q, linked im q l /\ (pre = [] -> q = p) /\
    (forall j, last pre = Some j -> s_ptr <$> i_slots im !! j = Some q).
Proof.
  revert p. induction pre as [|i pre IH]; intros p Hl.
  { exists p. split_and!; done. }
  simpl in Hl. destruct Hl as [_ (sl & Hi & Hl)]. destruct (IH _ Hl) as (q & Hq & H1 & H2).
  exists q. split_and!; [done|done|]. intros j Hj. destruct pre as [|i' pre].
  - simpl in Hj. simplify_eq. rewrite H1 by done. by rewrite Hi.
  - rewrite last_cons_cons in Hj. by apply H2.
Qed.

Lemma pred_get im r pre l p :
  loc_get im r = Some p -> linked im p (pre ++ l) ->
  exists q, loc_get im (pred r pre) = Some q /\ linked im q l.
Proof.
  intros Hr Hl. destruct (linked_app _ _ _ _ Hl) as (q & Hq & H1 & H2). exists q.
  split; [|done]. unfold pred. destruct (last pre) as [j|] eqn:E; [by apply H2|].
  apply last_None in E. by rewrite H1.
Qed.

Lemma pred_in r pre i : pred r pre = LSlot i -> is_root r -> i ∈ pre.
Proof.
  unfold pred. destruct (last pre) as [j|] eqn:E; intros ? Hr; [|by subst].
  simplify_eq. by apply last_Some_elem_of.
Qed.

(** Replacing pointers one by one: pointers of records not in [l] do not matter. *)
Lemma lists_frame im im' r l :
  same_shape im im' -> loc_get im' r = loc_get im r ->
  (forall i, i ∈ l -> s_ptr <$> i_slots im' !! i = s_ptr <$> i_slots im !! i) ->
  lists im r l -> lists im' r l.
Proof.
  intros Hs Hr Hp (p & Hp1 & Hl). exists p. split; [congruence|].
  eapply linked_ext; [|apply Hp|done]. intros i _. by rewrite <- Hs.
Qed.

Lemma loc_set_get_ne im l l' p : l <> l' -> loc_get (loc_set im l p) l' = loc_get im l'.
Proof.
  intros Hne. destruct l as [|h|i], l' as [|h'|i']; simpl; try done.
  - rewrite list_lookup_insert_ne; [done|congruence].
  - rewrite list_lookup_alter_ne; [done|congruence].
Qed.

Lemma loc_set_get_eq im l p q : loc_get im l = Some q -> loc_get (loc_set im l p) l = Some p.
Proof.
  destruct l as [|h|i]; simpl; intros H; [done| |].
  - apply list_lookup_insert_eq. by eapply lookup_lt_Some.
  - rewrite list_lookup_alter_eq. by destruct (i_slots im !! i).
Qed.

Lemma loc_set_lists im l p q r c :
  wf_image im -> ptr_ok p -> loc_get im l = Some q -> l <> r ->
  (forall i, i ∈ c -> l <> LSlot i) -> lists im r c -> lists (loc_set im l p) r c.
Proof.
  intros W Hp Hq Hr Hc Hl. destruct (loc_set_ok im l p q W Hq Hp) as [_ Hs].
  eapply lists_frame; [done| | |done].
  - by apply loc_set_get_ne.
  - intros i Hi. change (loc_get (loc_set im l p) (LSlot i) = loc_get im (LSlot i)).
    apply loc_set_get_ne. by apply Hc.
Qed.

Lemma linked_unlink im im' p pre i post sl :
  (forall j, slot_off im' j = slot_off im j) ->
  i_slots im !! i = Some sl -> NoDup (pre ++ i :: post) -> pre <> [] ->
  (forall j, last pre = Some j -> s_ptr <$> i_slots im' !! j = Some (s_ptr sl)) ->
  (forall j, last pre <> Some j -> s_ptr <$> i_slots im' !! j = s_ptr <$> i_slots im !! j) ->
  linked im p (pre ++ i :: post) -> linked im' p (pre ++ post).
Proof.
  intros Ho Hi. revert p. induction pre as [|j pre IH]; intros p ND Hne HL HN Hl; [done|].
  simpl in *. destruct Hl as [-> (sj & Hj & Hl)]. split; [by rewrite Ho|].
  apply NoDup_cons in ND as [Hj' ND]. destruct pre as [|j' pre].
  - specialize (HL j eq_refl). destruct (i_slots im' !! j) as [sj'|]; [|done]. exists sj'.
    split; [done|]. simpl in HL. injection HL as ->. simpl in Hl. destruct Hl as [_ (sl' & Hi' & Hl)].
    rewrite Hi in Hi'. simplify_eq. eapply linked_ext; [|  |done]; [intros; apply Ho|].
    intros k Hk. apply HN. simpl. intros [= ->]. apply Hj'. simpl. by right.
  - assert (Hjn : last (j :: j' :: pre) <> Some j).
    { rewrite last_cons_cons. intros E. apply Hj'. apply elem_of_app. left.
      by apply last_Some_elem_of. }
    specialize (HN j Hjn) as E. rewrite Hj in E.
    destruct (i_slots im' !! j) as [sj'|] eqn:Ej; [|done]. simpl in E. injection E as E.
    exists sj'. split; [done|]. rewrite E. apply IH; done.
Qed.

(** The list without record [i], after the pointer to it is replaced. *)
Lemma lists_unlink im r pre i post sl :
  wf_image im -> is_root r -> i_slots im !! i = Some sl -> NoDup (pre ++ i :: post) ->
  lists im r (pre ++ i :: post) -> lists (loc_set im (pred r pre) (s_ptr sl)) r (pre ++ post).
Proof.
  intros W Hr Hi ND (p & Hp & Hl). pose proof (ok_ptr sl (slot_of im i sl W Hi)) as Hpk.
  destruct (pred_get im r pre (i :: post) p Hp Hl) as (q & Hq & Hq').
  destruct (loc_set_ok im _ (s_ptr sl) q W Hq Hpk) as [_ Hs].
  destruct (decide (pre = [])) as [->|Hne].
  - exists (s_ptr sl). split; [by eapply loc_set_get_eq|]. simpl in *.
    destruct Hl as [_ (sl' & Hi' & Hl)]. rewrite Hi in Hi'. simplify_eq.
    eapply linked_ext; [| |done]; [intros; by rewrite <- Hs|]. intros j _.
    change (loc_get (loc_set im r (s_ptr sl')) (LSlot j) = loc_get im (LSlot j)).
    apply loc_set_get_ne. intros ->. done.
  - assert (exists j, last pre = Some j) as [j Hj].
    { destruct (last pre) eqn:E; [eauto|]. by apply last_None in E. }
    assert (Ep : pred r pre = LSlot j) by (unfold pred; by rewrite Hj).
    rewrite Ep in *. exists p. split; [rewrite loc_set_get_ne; [done|intros <-; done]|].
    eapply (linked_unlink im); try done.
    + intros k. by rewrite <- Hs.
    + intros k Hk. rewrite Hj in Hk. injection Hk as <-. apply (loc_set_get_eq im (LSlot j) _ q Hq).
    + intros k Hk. apply (loc_set_get_ne im (LSlot j) (LSlot k)). congruence.
Qed.

(** Record [i], which points to the first record of a list, put in front. *)
Lemma lists_push im r l i sl p :
  wf_image im -> is_root r -> loc_get im r = Some p -> linked im p l ->
  i_slots im !! i = Some sl -> s_ptr sl = p -> ptr_ok (slot_off im i) ->
  lists (loc_set im r (slot_off im i)) r (i :: l).
Proof.
  intros W Hr Hp Hl Hi Hsp Ho. destruct (loc_set_ok im r _ p W Hp Ho) as [_ Hs].
  exists (slot_off im i). split; [by eapply loc_set_get_eq|]. simpl. split; [by rewrite <- Hs|].
  exists sl. split; [by destruct r|]. rewrite Hsp.
  eapply linked_ext; [| |done]; [intros; by rewrite <- Hs|]. intros j _. by destruct r.
Qed.

Lemma lists_upd im i sl sl' r l :
  wf_image im -> i_slots im !! i = Some sl -> slot_ok sl' -> fits sl sl' ->
  is_root r -> s_ptr sl' = s_ptr sl \/ i ∉ l -> lists im r l -> lists (upd_slot im i sl') r l.
Proof.
  intros W Hi Hok F Hr Hor. apply lists_frame; [by eapply same_shape_upd|by destruct r|].
  intros j Hj. simpl. destruct (decide (i = j)) as [<-|Hne].
  - destruct Hor as [Hor|]; [|done].
    rewrite list_lookup_insert_eq, Hi by (by eapply lookup_lt_Some). simpl. by rewrite Hor.
  - by rewrite list_lookup_insert_ne.
Qed.

Lemma lists_app im sl r l :
  is_root r -> (forall i, i ∈ l -> (i < length (i_slots im))%nat) ->
  lists im r l -> lists (app_slot im sl) r l.
Proof.
  intros Hr Hb (p & Hp & Hl). exists p. split; [by destruct r|].
  eapply linked_ext; [| |done]; intros i Hi; specialize (Hb i Hi).
  - apply slot_off_app. lia.
  - simpl. by rewrite lookup_app_l.
Qed.

(** ** The invariant *)

Definition khash (k : list Z) : Z := hash_loop 1 0 k mod NHASH_DEF.

Definition blank_key (k : list Z) : Prop := k = replicate (length k) SPACE.

(** [fl] is the free list, [chains] the hash chains; the records [lim] are in
    neither: they are being moved from one to the other. *)
Record inv (im : image) (fl lim : list nat) (chains : list (list nat)) : Prop := {
  inv_wf : wf_image im;
  inv_nch : length chains = Z.to_nat NHASH_DEF;
  inv_free : lists im LFree fl;
  inv_chain : forall h c, chains !! h = Some c -> lists im (LHash h) c;
  inv_part : fl ++ lim ++ concat chains ≡ₚ seq 0 (length (i_slots im));
  inv_hash : forall h c i sl, chains !! h = Some c -> i ∈ c -> i_slots im !! i = Some sl ->
    khash (s_key sl) = Z.of_nat h;
  inv_uniq : forall h c i j si sj, chains !! h = Some c -> i ∈ c -> j ∈ c ->
    i_slots im !! i = Some si -> i_slots im !! j = Some sj -> s_key si = s_key sj -> i = j;
  inv_blank : forall i sl, i ∈ fl -> i_slots im !! i = Some sl -> blank_key (s_key sl)
}.

(** The database holds the finite map [m] of keys to data. *)
Definition holds (im : image) (chains : list (list nat)) (m : gmap (list Z) (list Z)) : Prop :=
  forall k v, m !! k = Some v <->
    exists h c i sl, chains !! h = Some c /\ i ∈ c /\ i_slots im !! i = Some sl /\
      s_key sl = k /\ s_data sl = v.

Lemma concat_chain (chains : list (list nat)) h c :
  chains !! h = Some c ->
  exists rest, concat chains ≡ₚ c ++ rest /\
    (forall c', concat (<[h := c']> chains) ≡ₚ c' ++ rest) /\
    (forall h' c' x, h' <> h -> chains !! h' = Some c' -> x ∈ c' -> x ∈ rest).
Proof.
  intros Hh. destruct (lookup_split _ _ _ Hh) as (l1 & l2 & E & Hl).
  exists (concat l1 ++ concat l2). split_and!.
  - rewrite E, concat_app. simpl. by rewrite Permutation_app_swap_app.
  - intros c'. rewrite E, <- Hl, insert_app_mid, concat_app. simpl. by rewrite Permutation_app_swap_app.
  - intros h' c' x Hne Hh' Hx. rewrite <- concat_app.
    apply list_elem_of_In, in_concat. exists c'. split; [|by apply list_elem_of_In].
    apply list_elem_of_In, list_elem_of_lookup. rewrite E in Hh'.
    destruct (decide (h' < h)%nat).
    + exists h'. rewrite lookup_app_l in Hh' |- * by lia. done.
    + rewrite lookup_app_r in Hh' by lia. destruct (h' - length l1)%nat as [|k] eqn:Ek; [lia|].
      simpl in Hh'. exists (length l1 + k)%nat. rewrite lookup_app_r by lia. rewrite <- Hh'. f_equal. lia.
Qed.

Lemma elem_concat (chains : list (list nat)) h c i :
  chains !! h = Some c -> i ∈ c -> i ∈ concat chains.
Proof.
  intros Hh Hi. destruct (concat_chain _ _ _ Hh) as (rest & -> & _).
  apply elem_of_app. by left.
Qed.

Section Facts.
Context {im : image} {fl lim : list nat} {chains : list (list nat)} (I : inv im fl lim chains).

Lemma inv_nodup : NoDup (fl ++ lim ++ concat chains).
Proof. rewrite (inv_part _ _ _ _ I). apply NoDup_ListNoDup, seq_NoDup. Qed.

Lemma inv_bound i : i ∈ fl ++ lim ++ concat chains -> (i < length (i_slots im))%nat.
Proof. rewrite (inv_part _ _ _ _ I), elem_of_seq. lia. Qed.

Lemma free_not_chain i h c : i ∈ fl -> chains !! h = Some c -> i ∉ c.
Proof.
  intros Hf Hh Hc. pose proof inv_nodup as (_ & H & _)%NoDup_app.
  apply (H i Hf). apply elem_of_app. right. by eapply elem_concat.
Qed.

Lemma lim_not_free i : i ∈ lim -> i ∉ fl.
Proof.
  intros Hl Hf. pose proof inv_nodup as (_ & H & _)%NoDup_app.
  apply (H i Hf). apply elem_of_app. by left.
Qed.

Lemma lim_not_chain i h c : i ∈ lim -> chains !! h = Some c -> i ∉ c.
Proof.
  intros Hl Hh Hc. pose proof inv_nodup as (_ & _ & (_ & H & _)%NoDup_app)%NoDup_app.
  apply (H i Hl). by eapply elem_concat.
Qed.

Lemma chain_nodup h c : chains !! h = Some c -> NoDup c.
Proof.
  intros Hh. pose proof inv_nodup as (_ & _ & (_ & _ & H)%NoDup_app)%NoDup_app.
  destruct (concat_chain _ _ _ Hh) as (rest & E & _). rewrite E in H.
  by apply NoDup_app in H as [? _].
Qed.

Lemma free_nodup : NoDup fl.
Proof. by pose proof inv_nodup as [? _]%NoDup_app. Qed.

Lemma chain_disjoint h h' c c' i :
  chains !! h = Some c -> chains !! h' = Some c' -> h <> h' -> i ∈ c -> i ∉ c'.
Proof.
  intros Hh Hh' Hne Hi Hi'. pose proof inv_nodup as (_ & _ & (_ & _ & H)%NoDup_app)%NoDup_app.
  destruct (concat_chain _ _ _ Hh) as (rest & E & _ & Hr). rewrite E in H.
  apply NoDup_app in H as (_ & H & _). apply (H i Hi). eapply Hr; [|done|done]. done.
Qed.

Lemma free_slot i : i ∈ fl -> exists sl, i_slots im !! i = Some sl.
Proof. intros Hi. destruct (inv_free _ _ _ _ I) as (p & _ & Hl). by eapply linked_lookup. Qed.

Lemma chain_slot h c i : chains !! h = Some c -> i ∈ c -> exists sl, i_slots im !! i = Some sl.
Proof. intros Hh Hi. destruct (inv_chain _ _ _ _ I h c Hh) as (p & _ & Hl). by eapply linked_lookup. Qed.

Lemma root_ptr_ok r p : loc_get im r = Some p -> ptr_ok p.
Proof.
  pose proof (inv_wf _ _ _ _ I) as W. destruct r as [|h|i]; simpl; intros H.
  - simplify_eq. apply W.
  - eapply Forall_lookup_1; [apply W | done].
  - destruct (i_slots im !! i) eqn:Hi; [|done]. simpl in H. simplify_eq. by apply (slot_of im i).
Qed.

Lemma free_ptr_ok i : i ∈ fl -> ptr_ok (slot_off im i).
Proof.
  intros Hi. destruct (inv_free _ _ _ _ I) as (p & Hp & Hl).
  eapply linked_ptr_ok; [apply I|by eapply root_ptr_ok|done|done].
Qed.

Lemma chain_ptr_ok h c i : chains !! h = Some c -> i ∈ c -> ptr_ok (slot_off im i).
Proof.
  intros Hh Hi. destruct (inv_chain _ _ _ _ I h c Hh) as (p & Hp & Hl).
  eapply linked_ptr_ok; [apply I|by eapply root_ptr_ok|done|done].
Qed.
End Facts.

(** ** Moving records *)

(** Keys and data of the records, by position. *)
Definition kd (sl : slot) : list Z * list Z := (s_key sl, s_data sl).
Definition same_kd (im im' : image) (i : nat) : Prop :=
  kd <$> i_slots im' !! i = kd <$> i_slots im !! i.

Lemma same_kd_inv im im' i sl' :
  same_kd im im' i -> i_slots im' !! i = Some sl' ->
  exists sl, i_slots im !! i = Some sl /\ s_key sl' = s_key sl /\ s_data sl' = s_data sl.
Proof.
  unfold same_kd. intros E Hi. rewrite Hi in E. destruct (i_slots im !! i) as [sl|]; [|done].
  simpl in E. injection E as E1 E2. eauto.
Qed.

Lemma loc_set_kd im l p i : same_kd im (loc_set im l p) i.
Proof.
  unfold same_kd. destruct l as [|h|j]; [done|done|]. simpl.
  destruct (decide (j = i)) as [->|Hne].
  - rewrite list_lookup_alter_eq. by destruct (i_slots im !! i).
  - by rewrite list_lookup_alter_ne.
Qed.

Lemma loc_set_slots_length im l p : length (i_slots (loc_set im l p)) = length (i_slots im).
Proof. destruct l; simpl; [done|done|]. apply length_alter. Qed.

(** The facts of the invariant that are about keys only. *)
Lemma inv_keys im im' fl lim chains fl' chains' :
  inv im fl lim chains ->
  (forall h c', chains' !! h = Some c' -> exists c, chains !! h = Some c /\ forall i, i ∈ c' -> i ∈ c) ->
  (forall i, i ∈ fl' -> i ∈ fl) -> (forall i, i ∈ fl' ++ concat chains' -> same_kd im im' i) ->
  (forall h c i sl, chains' !! h = Some c -> i ∈ c -> i_slots im' !! i = Some sl ->
     khash (s_key sl) = Z.of_nat h) /\
  (forall h c i j si sj, chains' !! h = Some c -> i ∈ c -> j ∈ c ->
     i_slots im' !! i = Some si -> i_slots im' !! j = Some sj -> s_key si = s_key sj -> i = j) /\
  (forall i sl, i ∈ fl' -> i_slots im' !! i = Some sl -> blank_key (s_key sl)).
Proof.
  intros I Hc Hf Hk. assert (Hk1 : forall h c i, chains' !! h = Some c -> i ∈ c -> same_kd im im' i).
  { intros h c i Hh Hi. apply Hk, elem_of_app. right. by eapply elem_concat. }
  split_and!.
  - intros h c' i sl Hh Hi Hs. destruct (Hc _ _ Hh) as (c & Hh' & Hin).
    destruct (same_kd_inv _ _ _ _ (Hk1 _ _ _ Hh Hi) Hs) as (sl0 & Hs0 & -> & _).
    eapply (inv_hash _ _ _ _ I); eauto.
  - intros h c' i j si sj Hh Hi Hj Hsi Hsj E. destruct (Hc _ _ Hh) as (c & Hh' & Hin).
    destruct (same_kd_inv _ _ _ _ (Hk1 _ _ _ Hh Hi) Hsi) as (si0 & Hi0 & Ei & _).
    destruct (same_kd_inv _ _ _ _ (Hk1 _ _ _ Hh Hj) Hsj) as (sj0 & Hj0 & Ej & _).
    eapply (inv_uniq _ _ _ _ I); [done|by apply Hin|by apply Hin|done|done|congruence].
  - intros i sl Hi Hs. assert (same_kd im im' i) as E by (apply Hk, elem_of_app; by left).
    destruct (same_kd_inv _ _ _ _ E Hs) as (sl0 & Hs0 & -> & _).
    eapply (inv_blank _ _ _ _ I); eauto.
Qed.

Lemma insert_chain_lookup (chains : list (list nat)) h c c' h' x :
  chains !! h = Some c -> <[h := c']> chains !! h' = Some x ->
  (h' = h /\ x = c') \/ (h' <> h /\ chains !! h' = Some x).
Proof.
  intros Hh. destruct (decide (h = h')) as [<-|Hne].
  - rewrite list_lookup_insert_eq by (by eapply lookup_lt_Some). intros. simplify_eq. by left.
  - rewrite list_lookup_insert_ne by done. right. done.
Qed.

Lemma inv_unlink_chain im fl chains h pre i post sl :
  inv im fl [] chains -> chains !! h = Some (pre ++ i :: post) -> i_slots im !! i = Some sl ->
  inv (loc_set im (pred (LHash h) pre) (s_ptr sl)) fl [i] (<[h := pre ++ post]> chains).
Proof.
  intros I Hh Hi. pose proof (inv_wf _ _ _ _ I) as W. set (l := pred (LHash h) pre).
  pose proof (chain_nodup I _ _ Hh) as ND.
  assert (Hl : exists q, loc_get im l = Some q).
  { destruct (inv_chain _ _ _ _ I _ _ Hh) as (p & Hp & Hl).
    destruct (pred_get _ _ _ _ _ Hp Hl) as (q & Hq & _). eauto. }
  destruct Hl as [q Hq]. pose proof (ok_ptr sl (slot_of im i sl W Hi)) as Hpk.
  assert (Hin : forall j, l = LSlot j -> j ∈ pre ++ i :: post).
  { intros j Hj. apply elem_of_app. left. eapply pred_in; [apply Hj|done]. }
  destruct (loc_set_ok im l (s_ptr sl) q W Hq Hpk) as [W' Hs].
  assert (Hnf : forall j, j ∈ fl -> l <> LSlot j).
  { intros j Hj E. by eapply (free_not_chain I); [| |apply Hin]. }
  destruct (concat_chain _ _ _ Hh) as (rest & E1 & E2 & _).
  destruct (inv_keys im (loc_set im l (s_ptr sl)) fl [] chains fl (<[h := pre ++ post]> chains) I)
    as (K1 & K2 & K3).
  { intros h' c' [[-> ->]|[Hne Hc]]%(insert_chain_lookup _ _ _ _ _ _ Hh); [|eauto].
    exists (pre ++ i :: post). split; [done|]. intros j. rewrite !elem_of_app, elem_of_cons. tauto. }
  { done. } { intros j _. apply loc_set_kd. }
  constructor; try done.
  - by rewrite length_insert, (inv_nch _ _ _ _ I).
  - eapply loc_set_lists; eauto using inv_free. unfold l, pred. by destruct (last pre).
  - intros h' c' [[-> ->]|[Hne Hc]]%(insert_chain_lookup _ _ _ _ _ _ Hh).
    + eapply lists_unlink; eauto using inv_chain. done.
    + eapply loc_set_lists; eauto using inv_chain.
      * unfold l, pred. destruct (last pre); [done|congruence].
      * intros j Hj E. eapply (chain_disjoint I h h'); eauto.
  - rewrite loc_set_slots_length, <- (inv_part _ _ _ _ I), E1, E2. simpl.
    solve_Permutation.
Qed.

Lemma inv_unlink_free im fl chains pre i post sl :
  inv im fl [] chains -> fl = pre ++ i :: post -> i_slots im !! i = Some sl ->
  inv (loc_set im (pred LFree pre) (s_ptr sl)) (pre ++ post) [i] chains.
Proof.
  intros I Hf Hi. pose proof (inv_wf _ _ _ _ I) as W. set (l := pred LFree pre).
  pose proof (free_nodup I) as ND. rewrite Hf in ND.
  destruct (inv_free _ _ _ _ I) as (p & Hp & Hl). rewrite Hf in Hl.
  destruct (pred_get _ _ _ _ _ Hp Hl) as (q & Hq & _).
  pose proof (ok_ptr sl (slot_of im i sl W Hi)) as Hpk.
  assert (Hin : forall j, l = LSlot j -> j ∈ fl).
  { intros j Hj. rewrite Hf. apply elem_of_app. left. eapply pred_in; [apply Hj|done]. }
  destruct (loc_set_ok im l (s_ptr sl) q W Hq Hpk) as [W' Hs].
  destruct (inv_keys im (loc_set im l (s_ptr sl)) fl [] chains (pre ++ post) chains I)
    as (K1 & K2 & K3).
  { eauto. } { rewrite Hf. intros j. rewrite !elem_of_app, elem_of_cons. tauto. }
  { intros j _. apply loc_set_kd. }
  constructor; try done.
  - apply I.
  - eapply lists_unlink; [done|done|done|done|]. rewrite <- Hf. apply I.
  - intros h c Hh. eapply loc_set_lists; eauto using inv_chain.
    + unfold l, pred. by destruct (last pre).
    + intros j Hj E. by eapply (free_not_chain I); [apply Hin| |].
  - rewrite loc_set_slots_length, <- (inv_part _ _ _ _ I), Hf. simpl.
    solve_Permutation.
Qed.

Lemma inv_push_free im fl chains i sl :
  inv im fl [i] chains -> i_slots im !! i = Some sl -> s_ptr sl = i_free im ->
  ptr_ok (slot_off im i) -> blank_key (s_key sl) ->
  inv (loc_set im LFree (slot_off im i)) (i :: fl) [] chains.
Proof.
  intros I Hi Hp Ho Hb. pose proof (inv_wf _ _ _ _ I) as W.
  destruct (loc_set_ok im LFree (slot_off im i) _ W eq_refl Ho) as [W' Hs].
  destruct (inv_free _ _ _ _ I) as (p & Hp' & Hl). simpl in Hp'. simplify_eq.
  constructor; try done; try (by apply I).
  - by eapply lists_push.
  - intros h c Hh. eapply loc_set_lists; eauto using inv_chain.
  - simpl. rewrite <- (inv_part _ _ _ _ I). simpl. solve_Permutation.
  - intros j sj Hj Hsj. apply elem_of_cons in Hj as [->|Hj].
    + simpl in Hsj. by simplify_eq.
    + by eapply (inv_blank _ _ _ _ I).
Qed.

Lemma inv_push_chain im fl chains i sl h c :
  inv im fl [i] chains -> i_slots im !! i = Some sl -> chains !! h = Some c ->
  i_hash im !! h = Some (s_ptr sl) -> ptr_ok (slot_off im i) ->
  khash (s_key sl) = Z.of_nat h ->
  (forall j sj, j ∈ c -> i_slots im !! j = Some sj -> s_key sj <> s_key sl) ->
  inv (loc_set im (LHash h) (slot_off im i)) fl [] (<[h := i :: c]> chains).
Proof.
  intros I Hi Hh Hp Ho Hk Hfresh. pose proof (inv_wf _ _ _ _ I) as W.
  destruct (loc_set_ok im (LHash h) (slot_off im i) _ W Hp Ho) as [W' Hs].
  destruct (concat_chain _ _ _ Hh) as (rest & E1 & E2 & _).
  constructor; try done; try (by apply I).
  - by rewrite length_insert, (inv_nch _ _ _ _ I).
  - eapply loc_set_lists; eauto using inv_free.
  - intros h' c' [[-> ->]|[Hne Hc]]%(insert_chain_lookup _ _ _ _ _ _ Hh).
    + destruct (inv_chain _ _ _ _ I _ _ Hh) as (p & Hp' & Hl). simpl in Hp'. simplify_eq.
      by eapply lists_push.
    + eapply loc_set_lists; eauto using inv_chain. congruence.
  - simpl. rewrite <- (inv_part _ _ _ _ I), E1, E2. solve_Permutation.
  - intros h' c' j sj [[-> ->]|[Hne Hc]]%(insert_chain_lookup _ _ _ _ _ _ Hh) Hj Hsj.
    + simpl in Hsj. apply elem_of_cons in Hj as [->|Hj]; [by simplify_eq|].
      by eapply (inv_hash _ _ _ _ I).
    + by eapply (inv_hash _ _ _ _ I).
  - intros h' c' j k sj sk [[-> ->]|[Hne Hc]]%(insert_chain_lookup _ _ _ _ _ _ Hh) Hj Hk' Hsj Hsk E.
    + simpl in Hsj, Hsk. apply elem_of_cons in Hj as [->|Hj]; apply elem_of_cons in Hk' as [->|Hk'];
        simplify_eq; [done| | |by eapply (inv_uniq _ _ _ _ I)].
      * by destruct (Hfresh k sk Hk' Hsk).
      * by destruct (Hfresh j sj Hj Hsj).
    + by eapply (inv_uniq _ _ _ _ I).
Qed.

(** Rewriting a record that is being moved, or the data of any record. *)
Lemma inv_upd im fl lim chains i sl sl' :
  inv im fl lim chains -> i_slots im !! i = Some sl -> slot_ok sl' -> fits sl sl' ->
  i ∈ lim \/ (s_ptr sl' = s_ptr sl /\ s_key sl' = s_key sl) ->
  inv (upd_slot im i sl') fl lim chains.
Proof.
  intros I Hi Hok F Hor. pose proof (inv_wf _ _ _ _ I) as W.
  assert (HK : forall j sj, i_slots (upd_slot im i sl') !! j = Some sj -> j ∈ fl ++ concat chains ->
            exists sj0, i_slots im !! j = Some sj0 /\ s_key sj = s_key sj0).
  { intros j sj Hj Hin. simpl in Hj. destruct (decide (i = j)) as [<-|Hne].
    - rewrite list_lookup_insert_eq in Hj by (by eapply lookup_lt_Some). simplify_eq.
      destruct Hor as [Hl|[_ Hk]]; [|eauto]. pose proof (inv_nodup I) as (_ & H1 & (_ & H2 & _)%NoDup_app)%NoDup_app.
      apply elem_of_app in Hin as [Hin|Hin]; exfalso.
      + apply (H1 i Hin), elem_of_app. by left.
      + by apply (H2 i Hl).
    - rewrite list_lookup_insert_ne in Hj by done. eauto. }
  assert (HC : forall h c j, chains !! h = Some c -> j ∈ c -> j ∈ fl ++ concat chains).
  { intros h c j Hh Hj. apply elem_of_app. right. by eapply elem_concat. }
  constructor; try (by apply I).
  - by eapply wf_upd_slot.
  - eapply lists_upd; eauto using inv_free; [done|]. destruct Hor as [Hl|[? _]]; [|by left].
    right. by eapply (lim_not_free I).
  - intros h c Hh. eapply lists_upd; eauto using inv_chain; [done|]. destruct Hor as [Hl|[? _]]; [|by left].
    right. by eapply (lim_not_chain I).
  - simpl. rewrite length_insert. apply I.
  - intros h c j sj Hh Hj Hsj. destruct (HK _ _ Hsj) as (s0 & Hs0 & ->); [by eapply HC|].
    by eapply (inv_hash _ _ _ _ I).
  - intros h c j k sj sk Hh Hj Hk Hsj Hsk E.
    destruct (HK _ _ Hsj) as (s0 & Hs0 & E0); [by eapply HC|].
    destruct (HK _ _ Hsk) as (s1 & Hs1 & E1); [by eapply HC|].
    eapply (inv_uniq _ _ _ _ I); eauto. congruence.
  - intros j sj Hj Hsj. destruct (HK _ _ Hsj) as (s0 & Hs0 & ->); [apply elem_of_app; by left|].
    by eapply (inv_blank _ _ _ _ I).
Qed.

Lemma inv_app im fl chains sl :
  inv im fl [] chains -> wf_image (app_slot im sl) ->
  inv (app_slot im sl) fl [length (i_slots im)] chains.
Proof.
  intros I W. assert (HB : forall i, i ∈ fl ++ concat chains -> (i < length (i_slots im))%nat).
  { intros i Hi. apply (inv_bound I). done. }
  assert (HC : forall h c j, chains !! h = Some c -> j ∈ c -> j ∈ fl ++ concat chains).
  { intros h c j Hh Hj. apply elem_of_app. right. by eapply elem_concat. }
  assert (HL : forall j sj, j ∈ fl ++ concat chains -> i_slots (app_slot im sl) !! j = Some sj -> i_slots im !! j = Some sj).
  { intros j sj Hj. simpl. rewrite lookup_app_l; [done|by apply HB]. }
  constructor; try (by apply I).
  - done.
  - apply lists_app; [done| |apply I]. intros i Hi. apply HB, elem_of_app. by left.
  - intros h c Hh. apply lists_app; [done| |by apply I]. intros i Hi. by eapply HB, HC.
  - simpl. rewrite length_app, seq_app. simpl. rewrite <- (inv_part _ _ _ _ I). simpl.
    solve_Permutation.
  - intros h c j sj Hh Hj Hsj. eapply (inv_hash _ _ _ _ I); eauto.
  - intros h c j k sj sk Hh Hj Hk Hsj Hsk E. eapply (inv_uniq _ _ _ _ I); eauto.
  - intros j sj Hj Hsj. eapply (inv_blank _ _ _ _ I); [done|]. apply HL; [|done].
    apply elem_of_app. by left.
Qed.

(** ** The map a database holds *)

Lemma holds_same im im' chains m :
  (forall i, i ∈ concat chains -> same_kd im im' i) -> holds im chains m -> holds im' chains m.
Proof.
  intros Hk Hm k v. rewrite (Hm k v). split.
  - intros (h & c & i & sl & Hh & Hi & Hs & <- & <-).
    assert (E : same_kd im im' i) by (apply Hk; by eapply elem_concat). unfold same_kd in E.
    rewrite Hs in E. destruct (i_slots im' !! i) as [sl'|] eqn:Hs'; [|done].
    simpl in E. unfold kd in E. injection E as E1 E2. exists h, c, i, sl'. done.
  - intros (h & c & i & sl & Hh & Hi & Hs & <- & <-).
    assert (E : same_kd im im' i) by (apply Hk; by eapply elem_concat).
    destruct (same_kd_inv _ _ _ _ E Hs) as (sl0 & Hs0 & -> & ->). exists h, c, i, sl0. done.
Qed.

(** In a database a live key is found in its own chain, once. *)
Lemma holds_in_chain im fl lim chains m k h c :
  inv im fl lim chains -> holds im chains m -> khash k = Z.of_nat h -> chains !! h = Some c ->
  forall v, m !! k = Some v <-> exists i sl, i ∈ c /\ i_slots im !! i = Some sl /\ s_key sl = k /\ s_data sl = v.
Proof.
  intros I Hm Hk Hh v. rewrite (Hm k v). split.
  - intros (h' & c' & i & sl & Hh' & Hi & Hs & <- & <-).
    pose proof (inv_hash _ _ _ _ I _ _ _ _ Hh' Hi Hs) as E. assert (h' = h) as -> by lia.
    simplify_eq. eauto 10.
  - intros (i & sl & ? & ? & ? & ?). exists h, c, i, sl. done.
Qed.

Lemma holds_absent im fl lim chains m k h c :
  inv im fl lim chains -> holds im chains m -> khash k = Z.of_nat h -> chains !! h = Some c ->
  (forall i sl, i ∈ c -> i_slots im !! i = Some sl -> s_key sl <> k) -> m !! k = None.
Proof.
  intros I Hm Hk Hh Hno. destruct (m !! k) as [v|] eqn:E; [|done].
  apply (holds_in_chain _ _ _ _ _ _ _ _ I Hm Hk Hh) in E as (i & sl & Hi & Hs & <- & _).
  by destruct (Hno i sl Hi Hs).
Qed.

Lemma holds_present im fl lim chains m k h c i sl :
  inv im fl lim chains -> holds im chains m -> khash k = Z.of_nat h -> chains !! h = Some c ->
  i ∈ c -> i_slots im !! i = Some sl -> s_key sl = k -> m !! k = Some (s_data sl).
Proof.
  intros I Hm Hk Hh Hi Hs <-. apply (holds_in_chain _ _ _ _ _ _ _ _ I Hm Hk Hh). by exists i, sl.
Qed.

Lemma holds_unlink im im' fl chains m h pre i post sl :
  inv im fl [] chains -> holds im chains m -> chains !! h = Some (pre ++ i :: post) ->
  i_slots im !! i = Some sl -> (forall j, same_kd im im' j) ->
  holds im' (<[h := pre ++ post]> chains) (delete (s_key sl) m).
Proof.
  intros I Hm Hh Hi Hk. pose proof (chain_nodup I _ _ Hh) as ND.
  assert (Hin : i ∈ pre ++ i :: post) by (apply elem_of_app; right; left).
  apply holds_same with (im := im); [done|]. intros k v.
  rewrite lookup_delete_Some, (Hm k v). split.
  - intros [Hne (h' & c' & j & sj & Hh' & Hj & Hs & <- & <-)].
    assert (j <> i) as Hji by congruence.
    destruct (decide (h' = h)) as [->|Hneh].
    + simplify_eq. exists h, (pre ++ post), j, sj. split_and!; try done.
      * apply list_lookup_insert_eq. by eapply lookup_lt_Some.
      * rewrite elem_of_app, elem_of_cons in Hj. rewrite elem_of_app. destruct Hj as [?|[?|?]]; [by left|done|by right].
    + exists h', c', j, sj. rewrite list_lookup_insert_ne by done. done.
  - intros (h' & c' & j & sj & Hh' & Hj & Hs & <- & <-).
    apply (insert_chain_lookup _ _ _ _ _ _ Hh) in Hh' as [[-> ->]|[Hne Hc]].
    + assert (Hj' : j ∈ pre ++ i :: post).
      { rewrite elem_of_app, elem_of_cons. rewrite elem_of_app in Hj. tauto. }
      split; [|eauto 10]. intros E. assert (i = j) as ->.
      { eapply (inv_uniq _ _ _ _ I); [apply Hh|done|done|done|done|done]. }
      apply NoDup_app in ND as (_ & H1 & [H2 _]%NoDup_cons).
      apply elem_of_app in Hj as [Hj|Hj]; [|done]. apply (H1 j Hj). left.
    + split; [|eauto 10]. intros E.
      pose proof (inv_hash _ _ _ _ I _ _ _ _ Hc Hj Hs) as E1.
      pose proof (inv_hash _ _ _ _ I _ _ _ _ Hh Hin Hi) as E2. rewrite E in E2. lia.
Qed.

Lemma holds_push im im' fl lim chains m h c i sl :
  inv im fl lim chains -> holds im chains m -> chains !! h = Some c ->
  i_slots im !! i = Some sl -> khash (s_key sl) = Z.of_nat h ->
  m !! s_key sl = None -> (forall j, same_kd im im' j) ->
  holds im' (<[h := i :: c]> chains) (<[s_key sl := s_data sl]> m).
Proof.
  intros I Hm Hh Hi Hkh Hnone Hk. apply holds_same with (im := im); [done|]. intros k v.
  rewrite lookup_insert_Some, (Hm k v). split.
  - intros [[<- <-]|[Hne (h' & c' & j & sj & Hh' & Hj & Hs & <- & <-)]].
    + exists h, (i :: c), i, sl. split_and!; try done; [|left].
      apply list_lookup_insert_eq. by eapply lookup_lt_Some.
    + destruct (decide (h' = h)) as [->|Hneh].
      * simplify_eq. exists h, (i :: c), j, sj. split_and!; try done; [|by right].
        apply list_lookup_insert_eq. by eapply lookup_lt_Some.
      * exists h', c', j, sj. rewrite list_lookup_insert_ne by done. done.
  - intros (h' & c' & j & sj & Hh' & Hj & Hs & <- & <-).
    assert (Hlive : forall h0 c0, chains !! h0 = Some c0 -> j ∈ c0 -> s_key sl <> s_key sj).
    { intros h0 c0 Hh0 Hj0 E. assert (m !! s_key sj = Some (s_data sj)) as Hx.
      { apply (Hm _ _). exists h0, c0, j, sj. done. }
      rewrite E in Hnone. congruence. }
    apply (insert_chain_lookup _ _ _ _ _ _ Hh) in Hh' as [[-> ->]|[Hne Hc]].
    + apply elem_of_cons in Hj as [->|Hj]; [simplify_eq; by left|]. right.
      split; [by eapply Hlive|]. exists h, c, j, sj. done.
    + right. split; [by eapply Hlive|]. exists h', c', j, sj. done.
Qed.

Lemma holds_set_data im fl lim chains m h c i sl v :
  inv im fl lim chains -> holds im chains m -> chains !! h = Some c -> i ∈ c ->
  i_slots im !! i = Some sl ->
  holds (upd_slot im i (set_data v sl)) chains (<[s_key sl := v]> m).
Proof.
  intros I Hm Hh Hic Hi k x. rewrite lookup_insert_Some, (Hm k x).
  assert (Hup : forall j sj, i_slots (upd_slot im i (set_data v sl)) !! j = Some sj <->
            (j = i /\ sj = set_data v sl) \/ (j <> i /\ i_slots im !! j = Some sj)).
  { intros j sj. simpl. destruct (decide (i = j)) as [<-|Hne].
    - rewrite list_lookup_insert_eq by (by eapply lookup_lt_Some). naive_solver.
    - rewrite list_lookup_insert_ne by done. naive_solver. }
  split.
  - intros [[<- <-]|[Hne (h' & c' & j & sj & Hh' & Hj & Hs & <- & <-)]].
    + exists h, c, i, (set_data v sl). rewrite Hup. naive_solver.
    + exists h', c', j, sj. rewrite Hup. split_and!; try done. right. split; [congruence|done].
  - intros (h' & c' & j & sj & Hh' & Hj & Hs & <- & <-).
    apply Hup in Hs as [[-> ->]|[Hne Hs]]; [by left|]. right. split; [|eauto 10].
    intros E. apply Hne. assert (h' = h) as ->.
    { pose proof (inv_hash _ _ _ _ I _ _ _ _ Hh' Hj Hs) as E1.
      pose proof (inv_hash _ _ _ _ I _ _ _ _ Hh Hic Hi) as E2. rewrite E in E2. lia. }
    simplify_eq. eapply (inv_uniq _ _ _ _ I); eauto.
Qed.
