(* ===== verification/DbOps.v ===== *)
(** The operations of the database library on a database that satisfies the
    invariant: searching, deleting, storing, and sequential reading, with the
    number of iterations of every loop bounded. *)
From S2P Require Import Prelude CStr FileIO Db DbLayout DbPrim DbChain.

(** ** What an operation leaves alone in the handle *)

Definition stats (d : DB) : list Z :=
  [cnt_delok d; cnt_delerr d; cnt_fetchok d; cnt_fetcherr d; cnt_nextrec d;
   cnt_stor1 d; cnt_stor2 d; cnt_stor3 d; cnt_stor4 d; cnt_storerr d].

Definition frame (d d' : DB) : Prop :=
  same_handle d d' /\ chainoff d' = chainoff d /\ stats d' = stats d.

Lemma frame_refl d : frame d d.
Proof. done. Qed.

Lemma frame_trans d d' d'' : frame d d' -> frame d' d'' -> frame d d''.
Proof.
  intros ((? & ? & ? & ?) & ? & ?) ((? & ? & ? & ?) & ? & ?).
  split; [|split; congruence]. split_and!; congruence.
Qed.

Lemma frame_handle d d' : frame d d' -> same_handle d d'.
Proof. by intros [? _]. Qed.

(** The handle describes record [i]. *)
Record at_rec (im : image) (i : nat) (sl : slot) (d : DB) : Prop := {
  at_idxoff : idxoff d = slot_off im i;
  at_datoff : datoff d = s_doff sl;
  at_datlen : datlen d = s_dlen sl;
  at_ptrval : ptrval d = s_ptr sl;
  at_buf : exists rest, idxbuf d = s_key sl ++ 0 :: rest
}.

Lemma read_rec_at im i sl rest d :
  at_rec im i sl (read_rec (slot_off im i) sl (s_key sl ++ 0 :: rest) d) /\
  frame d (read_rec (slot_off im i) sl (s_key sl ++ 0 :: rest) d).
Proof. split; [constructor; eauto|done]. Qed.

Lemma split_first {A} (P : A -> Prop) `{forall x, Decision (P x)} (l : list A) :
  (exists mid x post, l = mid ++ x :: post /\ P x /\ forall y, y ∈ mid -> ~ P y) \/
  (forall y, y ∈ l -> ~ P y).
Proof.
  induction l as [|x l IH]; [right; by intros y ?%not_elem_of_nil|].
  destruct (decide (P x)) as [Hx|Hx].
  - left. exists [], x, l. split_and!; [done|done|]. by intros y ?%not_elem_of_nil.
  - destruct IH as [(mid & y & post & -> & Hy & Hm)|Hn].
    + left. exists (x :: mid), y, post. split_and!; [done|done|]. intros z [->|Hz]%elem_of_cons; auto.
    + right. intros z [->|Hz]%elem_of_cons; auto.
Qed.

Lemma length_concat_ge {A B} (f : A -> list B) l :
  Forall (fun x => f x <> []) l -> (length l <= length (concat (map f l)))%nat.
Proof.
  induction 1 as [|x l Hx _ IH]; [done|]. simpl. rewrite length_app.
  destruct (f x); [done|]. simpl. lia.
Qed.

Section Ops.
Context `{K : Kernel} (G : Granting K) (pi pd : list Z).
Abbreviation layout := (layout pi pd).

Lemma layout_frame im x w w' d d' :
  view w' = view w -> frame d d' -> layout im x w d -> layout im x w' d'.
Proof. intros V F. apply layout_view; [done|]. by apply frame_handle. Qed.

(** ** The loops over a list of records *)

(** A list of distinct records has fewer records than the index file has bytes. *)
Lemma fuel_enough im x w d e l :
  layout im x w d -> NoDup l -> (forall i, i ∈ l -> (i < length (i_slots im))%nat) ->
  (length l < chain_fuel (DbSt w d e))%nat.
Proof.
  intros L ND Hb. unfold chain_fuel, sys_fsize. simpl.
  destruct (file_of_has _ _ _ _ (lay_idx _ _ _ _ _ _ L)) as (q & -> & _).
  rewrite Nat2Z.id. assert (length l <= length (i_slots im))%nat.
  { rewrite <- (length_seq (length (i_slots im)) 0). apply NoDup_incl_length.
    - by apply NoDup_ListNoDup.
    - intros i Hi%list_elem_of_In. apply in_seq. specialize (Hb i Hi). lia. }
  assert (length (i_slots im) <= length (idx_image im))%nat; [|lia].
  unfold idx_image. rewrite length_app.
  assert (length (i_slots im) <= length (concat (map slot_bytes (i_slots im))))%nat; [|lia].
  apply length_concat_ge. eapply Forall_impl; [apply (wf_slots im); apply L|].
  intros sl Hok E. pose proof (slot_bytes_length sl Hok) as Hsb. rewrite E in Hsb. simpl in Hsb.
  pose proof (ok_len sl Hok). unfold IDXLEN_MIN in *. lia.
Qed.

Lemma find_loop_hit im x w d e key fuel p mid i post sl :
  layout im x w d -> linked im p (mid ++ i :: post) -> (length mid < fuel)%nat ->
  (forall j sj, j ∈ mid -> i_slots im !! j = Some sj -> s_key sj <> cstr key) ->
  i_slots im !! i = Some sl -> s_key sl = cstr key ->
  exists w' d', find_loop fuel key p (DbSt w d e) = Ret (slot_off im i) (DbSt w' d' e) /\
    view w' = view w /\ frame d d' /\ at_rec im i sl d' /\
    ptroff d' = match last mid with None => ptroff d | Some j => slot_off im j end.
Proof.
  revert w d p fuel. induction mid as [|j mid IH]; intros w d p fuel L Hl Hf Hno Hi Hk;
    (destruct fuel as [|fuel]; [simpl in Hf; lia|]); simpl in Hl; destruct Hl as [-> (sj & Hj & Hl)].
  - rewrite Hi in Hj. injection Hj as <-. pose proof (slot_off_pos im i) as Hp. change HEAD with 829 in Hp.
    simpl. bfalse (slot_off im i =? 0).
    destruct (readidx_ok pi pd im x w d e i sl (slot_off im i) L Hi (or_introl eq_refl))
      as (w' & rest & E & V & _).
    run E. step. cbn [idxbuf read_rec set_datlen set_datoff set_idxbuf].
    unfold streq. rewrite cstr_app by (apply (slot_of im i sl); [apply L|done]).
    rewrite (bool_decide_true (s_key sl = cstr key)) by done.
    destruct (read_rec_at im i sl rest d) as [A F]. exists w'. eexists. split_and!; [done|done|done|done|done].
  - pose proof (slot_off_pos im j) as Hp. change HEAD with 829 in Hp.
    simpl. bfalse (slot_off im j =? 0).
    destruct (readidx_ok pi pd im x w d e j sj (slot_off im j) L Hj (or_introl eq_refl))
      as (w' & rest & E & V & _).
    run E. step. cbn [idxbuf read_rec set_datlen set_datoff set_idxbuf].
    unfold streq. rewrite cstr_app, bool_decide_false; [|apply (Hno j sj); [left|done]|
      apply (slot_of im j sj); [apply L|done]].
    destruct (read_rec_at im j sj rest d) as [A F]. set (d1 := read_rec _ _ _ _) in *.
    step. set (d2 := set_ptroff _ d1).
    assert (F2 : frame d d2) by (eapply frame_trans; [apply F|done]).
    destruct (IH w' d2 (s_ptr sj) fuel) as (w'' & d'' & E2 & V2 & F3 & A2 & P2);
      [by eapply layout_frame|done|simpl in Hf; lia| |done|done|].
    { intros k sk Hk'. apply Hno. by right. }
    exists w'', d''. rewrite E2. split_and!; [done|congruence|by eapply frame_trans|done|].
    rewrite P2. destruct mid as [|j' mid]; [done|]. rewrite last_cons_cons.
    destruct (last (j' :: mid)) eqn:EE; [done|]. by apply last_None in EE.
Qed.

Lemma find_loop_miss im x w d e key fuel p l :
  layout im x w d -> linked im p l -> (length l <= fuel)%nat ->
  (forall j sj, j ∈ l -> i_slots im !! j = Some sj -> s_key sj <> cstr key) ->
  exists w' d', find_loop fuel key p (DbSt w d e) = Ret 0 (DbSt w' d' e) /\
    view w' = view w /\ frame d d'.
Proof.
  revert w d p fuel. induction l as [|j l IH]; intros w d p fuel L Hl Hf Hno.
  - simpl in Hl. subst p. exists w, d. by destruct fuel.
  - destruct fuel as [|fuel]; [simpl in Hf; lia|]. simpl in Hl. destruct Hl as [-> (sj & Hj & Hl)].
    pose proof (slot_off_pos im j) as Hp. change HEAD with 829 in Hp.
    simpl. bfalse (slot_off im j =? 0).
    destruct (readidx_ok pi pd im x w d e j sj (slot_off im j) L Hj (or_introl eq_refl))
      as (w' & rest & E & V & _).
    run E. step. cbn [idxbuf read_rec set_datlen set_datoff set_idxbuf].
    unfold streq. rewrite cstr_app, bool_decide_false; [|apply (Hno j sj); [left|done]|
      apply (slot_of im j sj); [apply L|done]].
    destruct (read_rec_at im j sj rest d) as [A F]. set (d1 := read_rec _ _ _ _) in *.
    step. set (d2 := set_ptroff _ d1).
    assert (F2 : frame d d2) by (eapply frame_trans; [apply F|done]).
    destruct (IH w' d2 (s_ptr sj) fuel) as (w'' & d'' & E2 & V2 & F3);
      [by eapply layout_frame|done|simpl in Hf; lia| |].
    { intros k sk Hk'. apply Hno. by right. }
    exists w'', d''. rewrite E2. split_and!; [done|congruence|by eapply frame_trans].
Qed.

(** A free record of the right sizes. *)
Definition right_size (keylen dlen : Z) (sl : slot) : Prop :=
  Z.of_nat (length (s_key sl)) = keylen /\ s_dlen sl = dlen.

Lemma findfree_loop_hit im x w d e keylen dlen fuel p save mid i post sl :
  layout im x w d -> linked im p (mid ++ i :: post) -> (length mid < fuel)%nat ->
  (forall j sj, j ∈ mid -> i_slots im !! j = Some sj -> ~ right_size keylen dlen sj) ->
  i_slots im !! i = Some sl -> right_size keylen dlen sl ->
  exists w' d', findfree_loop fuel keylen dlen save p (DbSt w d e) =
      Ret (slot_off im i, match last mid with None => save | Some j => slot_off im j end) (DbSt w' d' e) /\
    view w' = view w /\ frame d d' /\ at_rec im i sl d'.
Proof.
  revert w d p save fuel. induction mid as [|j mid IH]; intros w d p save fuel L Hl Hf Hno Hi Hk;
    (destruct fuel as [|fuel]; [simpl in Hf; lia|]); simpl in Hl; destruct Hl as [-> (sj & Hj & Hl)].
  - rewrite Hi in Hj. injection Hj as <-. pose proof (slot_off_pos im i) as Hp. change HEAD with 829 in Hp.
    simpl. bfalse (slot_off im i =? 0).
    destruct (readidx_ok pi pd im x w d e i sl (slot_off im i) L Hi (or_introl eq_refl))
      as (w' & rest & E & V & _).
    run E. steps. cbn [idxbuf datlen read_rec set_datlen set_datoff set_idxbuf].
    unfold strlen. rewrite cstr_app by (apply (slot_of im i sl); [apply L|done]).
    destruct Hk as [-> ->]. rewrite !Z.eqb_refl. simpl.
    destruct (read_rec_at im i sl rest d) as [A F]. exists w'. eexists. split_and!; [done|done|done|done].
  - pose proof (slot_off_pos im j) as Hp. change HEAD with 829 in Hp.
    simpl. bfalse (slot_off im j =? 0).
    destruct (readidx_ok pi pd im x w d e j sj (slot_off im j) L Hj (or_introl eq_refl))
      as (w' & rest & E & V & _).
    run E. steps. cbn [idxbuf datlen read_rec set_datlen set_datoff set_idxbuf].
    unfold strlen. rewrite cstr_app by (apply (slot_of im j sj); [apply L|done]).
    specialize (Hno j sj (list_elem_of_here _ _) Hj) as Hnj. unfold right_size in Hnj.
    replace ((Z.of_nat (length (s_key sj)) =? keylen) && (s_dlen sj =? dlen)) with false
      by (symmetry; apply andb_false_iff; rewrite !Z.eqb_neq; lia).
    destruct (read_rec_at im j sj rest d) as [A F].
    destruct (IH w' _ (s_ptr sj) (slot_off im j) fuel (layout_frame _ _ _ _ _ _ V F L))
      as (w'' & d'' & E2 & V2 & F3 & A2); [done|simpl in Hf; lia| |done|done|].
    { intros k sk Hk'. apply Hno. by right. }
    exists w'', d''. rewrite E2. split_and!; [|congruence|by eapply frame_trans|done].
    destruct mid as [|j' mid]; [done|]. rewrite last_cons_cons.
    destruct (last (j' :: mid)) eqn:EE; [done|]. by apply last_None in EE.
Qed.

Lemma findfree_loop_miss im x w d e keylen dlen fuel p save l :
  layout im x w d -> linked im p l -> (length l <= fuel)%nat ->
  (forall j sj, j ∈ l -> i_slots im !! j = Some sj -> ~ right_size keylen dlen sj) ->
  exists w' d' save', findfree_loop fuel keylen dlen save p (DbSt w d e) = Ret (0, save') (DbSt w' d' e) /\
    view w' = view w /\ frame d d'.
Proof.
  revert w d p save fuel. induction l as [|j l IH]; intros w d p save fuel L Hl Hf Hno.
  - simpl in Hl. subst p. exists w, d, save. by destruct fuel.
  - destruct fuel as [|fuel]; [simpl in Hf; lia|]. simpl in Hl. destruct Hl as [-> (sj & Hj & Hl)].
    pose proof (slot_off_pos im j) as Hp. change HEAD with 829 in Hp.
    simpl. bfalse (slot_off im j =? 0).
    destruct (readidx_ok pi pd im x w d e j sj (slot_off im j) L Hj (or_introl eq_refl))
      as (w' & rest & E & V & _).
    run E. steps. cbn [idxbuf datlen read_rec set_datlen set_datoff set_idxbuf].
    unfold strlen. rewrite cstr_app by (apply (slot_of im j sj); [apply L|done]).
    specialize (Hno j sj (list_elem_of_here _ _) Hj) as Hnj. unfold right_size in Hnj.
    replace ((Z.of_nat (length (s_key sj)) =? keylen) && (s_dlen sj =? dlen)) with false
      by (symmetry; apply andb_false_iff; rewrite !Z.eqb_neq; lia).
    destruct (read_rec_at im j sj rest d) as [A F].
    destruct (IH w' _ (s_ptr sj) (slot_off im j) fuel (layout_frame _ _ _ _ _ _ V F L))
      as (w'' & d'' & save' & E2 & V2 & F3); [done|simpl in Hf; lia| |].
    { intros k sk Hk'. apply Hno. by right. }
    exists w'', d'', save'. rewrite E2. split_and!; [done|congruence|by eapply frame_trans].
Qed.

(** ** Finding a record *)

Definition bucket (key : list Z) : nat := Z.to_nat (khash (cstr key)).
Definition chain_lock (wl : bool) : lock_type := if wl then F_WRLCK else F_RDLCK.

Lemma bucket_khash key : Z.of_nat (bucket key) = khash (cstr key).
Proof.
  unfold bucket, khash. rewrite Z2Nat.id; [done|]. apply Z.mod_pos_bound. done.
Qed.

Lemma chain_exists im fl lim chains key :
  inv im fl lim chains -> exists c, chains !! bucket key = Some c.
Proof.
  intros I. apply lookup_lt_is_Some. rewrite (inv_nch _ _ _ _ I).
  apply Nat2Z.inj_lt. rewrite bucket_khash, Z2Nat.id by done.
  apply Z.mod_pos_bound. done.
Qed.

(** The lock of a chain is granted. *)
Lemma lock_chain_ok im w d e o (wl : bool) :
  layout im [] w d ->
  (if wl then
     r ← sys (writew_lock (idxfd d) o SEEK_SET 1);
     dump_if (r <? 0) "_db_find_and_lock: writew_lock error"
   else
     r ← sys (readw_lock (idxfd d) o SEEK_SET 1);
     dump_if (r <? 0) "_db_find_and_lock: readw_lock error") (DbSt w d e) =
  Ret tt (DbSt (log_event (EvLock (idxfd d) (chain_lock wl) o 1) w) d e).
Proof.
  intros L. pose proof (fun t => lock_ok w (idxfd d) pi _ F_SETLKW t o 1 (lay_idx _ _ _ _ _ _ L) (grant _ _ _)) as HL.
  destruct wl; [sysstep (HL F_WRLCK)|sysstep (HL F_RDLCK)]; by rewrite dump_ok.
Qed.

Lemma find_and_lock_ok im fl chains w d e key wl :
  layout im [] w d -> inv im fl [] chains ->
  let h := bucket key in
  exists c w' d' r, chains !! h = Some c /\
    _db_find_and_lock key wl (DbSt w d e) = Ret r (DbSt w' d' e) /\
    view w' = view (log_event (EvLock (idxfd d) (chain_lock wl) (loc_off im (LHash h)) 1) w) /\
    same_handle d d' /\ stats d' = stats d /\ chainoff d' = loc_off im (LHash h) /\
    ((r = 0 /\ exists mid i post sl, c = mid ++ i :: post /\ i_slots im !! i = Some sl /\
        s_key sl = cstr key /\ at_rec im i sl d' /\ ptroff d' = loc_off im (pred (LHash h) mid))
     \/ (r = -1 /\ forall i sl, i ∈ c -> i_slots im !! i = Some sl -> s_key sl <> cstr key)).
Proof.
  intros L I h. destruct (chain_exists _ _ _ _ key I) as [c Hc]. fold h in Hc.
  destruct (inv_chain _ _ _ _ I h c Hc) as (p & Hp & Hl).
  pose proof (root_ptr_ok I _ _ Hp) as Hpk.
  unfold _db_find_and_lock. step. cbn [id].
  assert (Eoff : _db_hash d key * PTR_SZ + hashoff d = loc_off im (LHash h)).
  { unfold _db_hash. rewrite (lay_nhash _ _ _ _ _ _ L), (lay_hashoff _ _ _ _ _ _ L). simpl.
    unfold h. by rewrite bucket_khash. }
  rewrite Eoff. set (o := loc_off im (LHash h)). steps. cbn [chainoff set_chainoff].
  set (d1 := set_ptroff o (set_chainoff o d)).
  set (w1 := log_event (EvLock (idxfd d) (chain_lock wl) o 1) w).
  assert (L0 : layout im [] w d1) by (by eapply layout_view; [| |apply L]).
  pose proof (lock_chain_ok im w d1 e o wl L0) as EL. change (idxfd d1) with (idxfd d) in EL. fold w1 in EL.
  run EL.
  assert (L1 : layout im [] w1 d1) by (by apply layout_log).
  destruct (readptr_ok pi pd im [] w1 d1 e (LHash h) p L1 Hp Hpk) as (w2 & E2 & V2).
  fold o in E2. run E2. step.
  assert (L2 : layout im [] w2 d1) by (by eapply layout_view; [apply V2| |apply L1]).
  assert (ND : NoDup c) by (by eapply (chain_nodup I)).
  assert (HB : forall i, i ∈ c -> (i < length (i_slots im))%nat).
  { intros i Hi. apply (inv_bound I). apply elem_of_app. right. by eapply elem_concat. }
  pose proof (fuel_enough im [] w2 d1 e c L2 ND HB) as Hfuel.
  destruct (split_first (fun i => s_key <$> i_slots im !! i = Some (cstr key)) c)
    as [(mid & i & post & -> & Hi & Hmid)|Hno].
  - destruct (i_slots im !! i) as [sl|] eqn:Hs; [|done]. simpl in Hi. injection Hi as Hk.
    destruct (find_loop_hit im [] w2 d1 e key (chain_fuel (DbSt w2 d1 e)) p mid i post sl)
      as (w3 & d3 & E3 & V3 & F3 & A3 & P3); try done.
    { rewrite length_app in Hfuel. simpl in Hfuel. lia. }
    { intros j sj Hj Hsj E. apply (Hmid j Hj). by rewrite Hsj, <- E. }
    run E3. pose proof (slot_off_pos im i) as Hpos. change HEAD with 829 in Hpos.
    bfalse (slot_off im i =? 0). exists (mid ++ i :: post), w3, d3, 0.
    destruct F3 as ((F31 & F32 & F33 & F34) & F35 & F36).
    split_and!; try done; [congruence|]. left. split; [done|]. exists mid, i, post, sl.
    split_and!; try done. rewrite P3. unfold pred. by destruct (last mid).
  - destruct (find_loop_miss im [] w2 d1 e key (chain_fuel (DbSt w2 d1 e)) p c)
      as (w3 & d3 & E3 & V3 & F3); [done|done|lia| |].
    { intros j sj Hj Hsj E. apply (Hno j Hj). by rewrite Hsj, <- E. }
    run E3. exists c, w3, d3, (-1).
    destruct F3 as ((F31 & F32 & F33 & F34) & F35 & F36).
    split_and!; try done; [congruence|]. right. split; [done|].
    intros i sl Hi Hs E. apply (Hno i Hi). by rewrite Hs, <- E.
Qed.

Lemma unlock_chain_ok im x w d e who :
  layout im x w d ->
  unlock_chain who (DbSt w d e) = Ret tt (DbSt (log_event (EvLock (idxfd d) F_UNLCK (chainoff d) 1) w) d e).
Proof.
  intros L. unfold unlock_chain. steps.
  sysstep (lock_ok w (idxfd d) pi _ F_SETLK F_UNLCK (chainoff d) 1 (lay_idx _ _ _ _ _ _ L) (grant _ _ _)).
  by rewrite dump_ok.
Qed.

(** ** Deleting a record *)

Lemma cstr_blanks n b : cstr (replicate n SPACE ++ 0 :: b) = replicate n SPACE.
Proof. apply cstr_app. by apply Forall_replicate. Qed.

Lemma blanks_key_ok n : key_ok (replicate n SPACE).
Proof.
  split; [by apply Forall_replicate|]. intros [E _]%elem_of_replicate. by vm_compute in E.
Qed.

Lemma loc_set_comm im i sl' a l b :
  l <> LFree -> l <> LSlot i ->
  loc_set (loc_set (upd_slot im i sl') LFree a) l b = loc_set (upd_slot (loc_set im l b) i sl') LFree a.
Proof.
  intros H1 H2. destruct l as [|h|j]; [done|done|]. unfold loc_set, upd_slot. simpl. f_equal.
  apply list_eq. intros k. destruct (decide (j = k)) as [->|Hk].
  - rewrite list_lookup_alter_eq, list_lookup_insert_ne by congruence.
    rewrite list_lookup_insert_ne by congruence. by rewrite list_lookup_alter_eq.
  - rewrite list_lookup_alter_ne by done. destruct (decide (i = k)) as [->|Hik].
    + rewrite !list_lookup_insert, length_alter. case_decide; [done|]. by rewrite list_lookup_alter_ne.
    + rewrite !list_lookup_insert_ne by done. by rewrite list_lookup_alter_ne.
Qed.

(** Record [sl] when deleted: blanks, and a pointer to the record that was first on the
    free list. *)
Definition emptied (im : image) (sl : slot) : slot :=
  Slot (i_free im) (replicate (length (s_key sl)) SPACE) (s_doff sl) (replicate (length (s_data sl)) SPACE).
Lemma emptied_ok im sl : wf_image im -> slot_ok sl -> slot_ok (emptied im sl) /\ fits sl (emptied im sl).
Proof.
  intros W Hok. set (bd := replicate (length (s_data sl)) SPACE).
  destruct (fits_slot_ok (i_free im) (replicate (length (s_key sl)) SPACE) (set_data bd sl)) as [O F];
    [apply W|apply blanks_key_ok|apply length_replicate| |].
  - apply set_data_ok; [by apply Forall_replicate|apply length_replicate|done].
  - split; [done|]. split; [apply length_replicate|done|apply length_replicate].
Qed.

(** The images: unlinking record [i], emptying it and putting it on the free list. *)
Definition removed (im : image) (i : nat) (sl : slot) (l : loc) : image :=
  loc_set (loc_set (upd_slot im i (emptied im sl)) LFree (slot_off im i)) l (s_ptr sl).
Lemma inv_removed im fl chains h mid i post sl :
  inv im fl [] chains -> chains !! h = Some (mid ++ i :: post) -> i_slots im !! i = Some sl ->
  let l := pred (LHash h) mid in
  inv (removed im i sl l) (i :: fl) [] (<[h := mid ++ post]> chains) /\ same_shape im (removed im i sl l) /\ l <> LSlot i /\ l <> LFree /\
  forall m, holds im chains m -> holds (removed im i sl l) (<[h := mid ++ post]> chains) (delete (s_key sl) m).
Proof.
  intros I Hh Hi l. pose proof (inv_wf _ _ _ _ I) as W. pose proof (slot_of im i sl W Hi) as Hok.
  pose proof (chain_nodup I _ _ Hh) as ND. destruct (emptied_ok im sl W Hok) as [Ok2 F2].
  assert (Hli : l <> LSlot i).
  { intros E. apply pred_in in E; [|done]. apply NoDup_app in ND as (_ & H1 & _). apply (H1 i E). left. }
  assert (HlF : l <> LFree) by (unfold l, pred; by destruct (last mid)).
  destruct (inv_chain _ _ _ _ I _ _ Hh) as (p & Hp & Hl).
  destruct (pred_get _ _ _ _ _ Hp Hl) as (q & Hq & _). fold l in Hq.
  assert (Ho : ptr_ok (slot_off im i)) by (eapply (chain_ptr_ok I); [done|]; apply elem_of_app; right; left).
  pose proof (inv_unlink_chain im fl chains h mid i post sl I Hh Hi) as J1. fold l in J1.
  set (j1 := loc_set im l (s_ptr sl)) in *.
  assert (Ej : i_slots j1 !! i = Some sl).
  { unfold j1. destruct l as [|h'|j]; [done|done|]. simpl. rewrite list_lookup_alter_ne by congruence. done. }
  assert (J2 : inv (upd_slot j1 i (emptied im sl)) fl [i] (<[h := mid ++ post]> chains)) by (eapply inv_upd; eauto; left; left).
  assert (Sj : same_shape im (upd_slot j1 i (emptied im sl))).
  { etrans; [apply (loc_set_ok im l (s_ptr sl) q W Hq (ok_ptr sl Hok))|]. eapply same_shape_upd; [apply J1| | |]; done. }
  assert (Ef : removed im i sl l = loc_set (upd_slot j1 i (emptied im sl)) LFree (slot_off im i)) by (by apply loc_set_comm).
  rewrite Ef. split_and!; [|etrans; [apply Sj|done]|done|done|].
  - rewrite (slot_off_shape _ _ i Sj). eapply (inv_push_free _ _ _ i (emptied im sl)); [done| | | |].
    + simpl. apply list_lookup_insert_eq. by eapply lookup_lt_Some.
    + simpl. unfold j1. by destruct l.
    + by rewrite <- (slot_off_shape _ _ i Sj).
    + simpl. unfold blank_key. by rewrite length_replicate.
  - intros m Hm. eapply holds_same; [|eapply (holds_unlink im j1); eauto; intros; apply loc_set_kd].
    intros j Hj. unfold same_kd. simpl. rewrite list_lookup_insert_ne; [done|].
    intros <-. pose proof (inv_nodup J1) as (_ & _ & (_ & H & _)%NoDup_app)%NoDup_app. apply (H i); [left|done].
Qed.

(** The beginning of [_db_dodelete] after the buffers are blank: the data record is overwritten. *)
Lemma blank_data_ok im w d e i sl :
  layout im [] w d -> i_slots im !! i = Some sl -> idxoff d = slot_off im i -> datoff d = s_doff sl -> ptrval d = s_ptr sl ->
  cstr (datbuf d) = replicate (length (s_data sl)) SPACE ->
  exists w', (forall k : Z -> Z -> Z -> M dbst unit, (buf ← field datbuf; off ← field datoff; _db_writedat buf off SEEK_SET ;; freeptr ← _db_readptr FREE_OFF;
      saveptr ← field ptrval; off ← field idxoff; k freeptr saveptr off) (DbSt w d e) =
    k (i_free im) (s_ptr sl) (slot_off im i) (DbSt w' (set_datlen (s_dlen sl) (set_datoff (s_doff sl) d)) e)) /\
    layout (upd_slot im i (set_data (replicate (length (s_data sl)) SPACE) sl)) [] w' (set_datlen (s_dlen sl) (set_datoff (s_doff sl) d)).
Proof.
  intros L Hi A1 A2 A4 Ebd. pose proof (lay_wf _ _ _ _ _ _ L) as W. set (bd := replicate (length (s_data sl)) SPACE) in *.
  assert (Hbd : length (cstr (datbuf d)) = length (s_data sl)) by (rewrite Ebd; apply length_replicate).
  destruct (writedat_over_ok pi pd im w d e i sl (datbuf d) L Hi Hbd) as (w2 & E2 & L2 & _).
  rewrite Ebd in L2. set (im1 := upd_slot im i (set_data bd sl)) in *. set (d2 := set_datlen (s_dlen sl) (set_datoff (s_doff sl) d)) in *.
  assert (L2' : layout im1 [] w2 d2) by (by eapply layout_view; [| |apply L2]).
  destruct (readptr_ok pi pd im1 [] w2 d2 e LFree (i_free im) L2' eq_refl (wf_free im W)) as (w3 & E3 & V3).
  change (loc_off im1 LFree) with FREE_OFF in E3. exists w3. split; [|by eapply layout_view; [apply V3| |apply L2']].
  intros k. steps. rewrite A2. run E2. run E3. steps. change (ptrval d2) with (ptrval d). change (idxoff d2) with (idxoff d). by rewrite A4, A1.
Qed.

(** The middle of [_db_dodelete]: with blanks in the buffers, both records are
    overwritten. *)
Lemma blank_records_ok im w d e i sl : k_self_copy = true ->
  layout im [] w d -> i_slots im !! i = Some sl -> idxoff d = slot_off im i -> datoff d = s_doff sl -> ptrval d = s_ptr sl ->
  cstr (datbuf d) = replicate (length (s_data sl)) SPACE -> cstr (idxbuf d) = replicate (length (s_key sl)) SPACE ->
  exists w' d', (forall k : Z -> M dbst unit, (buf ← field datbuf; off ← field datoff; _db_writedat buf off SEEK_SET ;; freeptr ← _db_readptr FREE_OFF;
      saveptr ← field ptrval; off ← field idxoff; _db_writeidx IdxBuf off SEEK_SET freeptr ;; k saveptr) (DbSt w d e) =
    k (s_ptr sl) (DbSt w' d' e)) /\ layout (upd_slot im i (emptied im sl)) [] w' d' /\ frame d d' /\ idxoff d' = slot_off im i /\ ptroff d' = ptroff d.
Proof.
  intros Hself L Hi A1 A2 A4 Ebd Ebk. pose proof (lay_wf _ _ _ _ _ _ L) as W. pose proof (slot_of im i sl W Hi) as Hok.
  set (bk := replicate (length (s_key sl)) SPACE) in *. set (bd := replicate (length (s_data sl)) SPACE) in *.
  set (sl1 := set_data bd sl). set (im1 := upd_slot im i sl1). set (d2 := set_datlen (s_dlen sl) (set_datoff (s_doff sl) d)).
  assert (Hi1 : i_slots im1 !! i = Some sl1) by (apply list_lookup_insert_eq; by eapply lookup_lt_Some).
  destruct (blank_data_ok im w d e i sl L Hi A1 A2 A4 Ebd) as (w3 & E3 & L3). fold bd sl1 im1 d2 in E3, L3.
  assert (Sh1 : same_shape im im1).
  { eapply same_shape_upd; eauto. apply set_data_ok; [by apply Forall_replicate|apply length_replicate|done].
    apply set_data_fits, length_replicate. }
  destruct (writeidx_over_ok pi pd im1 [] w3 d2 e i sl1 (idxbuf d) (i_free im) L3 Hi1) as (w4 & buf & E4 & L4 & _).
  { rewrite Ebk. apply blanks_key_ok. }
  { rewrite Ebk. apply length_replicate. }
  { apply W. } { done. }
  { unfold d2. cbn [datlen set_datlen]. unfold s_dlen, sl1. simpl. unfold bd. by rewrite length_replicate. }
  rewrite Ebk in L4. change (s_doff sl1) with (s_doff sl) in L4. change (s_data sl1) with bd in L4.
  assert (Eim2 : upd_slot im1 i (emptied im sl) = upd_slot im i (emptied im sl)).
  { unfold im1, upd_slot. simpl. by rewrite list_insert_insert_eq. }
  change (Slot (i_free im) bk (s_doff sl) bd) with (emptied im sl) in L4. rewrite Eim2 in L4.
  eexists w4, _. split.
  { intros k. rewrite (E3 (fun freeptr saveptr off => _db_writeidx IdxBuf off SEEK_SET freeptr ;; k saveptr)).
    assert (E4' : _db_writeidx IdxBuf (slot_off im i) SEEK_SET (i_free im) (DbSt w3 d2 e) = Ret tt (DbSt w4 (set_idxoff (slot_off im1 i) (set_idxbuf buf (set_ptrval (i_free im) d2))) e)).
    { rewrite writeidx_self by done. change (idxbuf d2) with (idxbuf d). rewrite (slot_off_shape _ _ i Sh1). exact E4. }
    run E4'. done. }
  rewrite <- (slot_off_shape _ _ i Sh1). split_and!; try done. by eapply layout_view; [| |apply L4].
Qed.

(** Up to the blanks in the buffers and the lock of the free list. *)
Lemma dodelete_start im w d e i sl :
  layout im [] w d -> i_slots im !! i = Some sl -> at_rec im i sl d ->
  exists w1 d1, _db_dodelete (DbSt w d e) = (buf ← field datbuf; off ← field datoff; _db_writedat buf off SEEK_SET ;; freeptr ← _db_readptr FREE_OFF;
      saveptr ← field ptrval; off ← field idxoff; _db_writeidx IdxBuf off SEEK_SET freeptr ;;
      off ← field idxoff; _db_writeptr FREE_OFF off ;; po ← field ptroff; _db_writeptr po saveptr ;;
      r ← sys (un_lock (idxfd d) FREE_OFF SEEK_SET 1); dump_if (r <? 0) "_db_dodelete: un_lock error") (DbSt w1 d1 e) /\
    layout im [] w1 d1 /\ idxoff d1 = slot_off im i /\ datoff d1 = s_doff sl /\ ptrval d1 = s_ptr sl /\ frame d d1 /\ ptroff d1 = ptroff d /\
    cstr (datbuf d1) = replicate (length (s_data sl)) SPACE /\ cstr (idxbuf d1) = replicate (length (s_key sl)) SPACE.
Proof.
  intros L Hi A. pose proof (slot_of im i sl (lay_wf _ _ _ _ _ _ L) Hi) as Hok.
  destruct A as [A1 A2 A3 A4 [rest A5]].
  unfold _db_dodelete. step. cbn [id]. steps. rewrite A3, A5. rewrite cstr_app by apply Hok. cbn [idxfd].
  set (d1 := set_idxbuf _ (set_datbuf _ d)).
  sysstep (lock_ok w (idxfd d) pi _ F_SETLKW F_WRLCK FREE_OFF 1 (lay_idx _ _ _ _ _ _ L) (grant _ _ _)).
  set (w1 := log_event _ w). rewrite run_dump_ok by done. exists w1, d1.
  assert (L1 : layout im [] w1 d1) by (apply layout_log; by eapply layout_view; [| |apply L]).
  split_and!; try done.
  - unfold d1. cbn [datbuf set_idxbuf set_datbuf]. unfold poke. rewrite <- app_assoc.
    replace (Z.to_nat (s_dlen sl - 1)) with (length (s_data sl)) by (unfold s_dlen; lia). apply cstr_blanks.
  - unfold d1. cbn [idxbuf set_idxbuf set_datbuf]. unfold poke. rewrite length_replicate, drop_app_length. apply cstr_blanks.
Qed.

(** Where formatting [idxbuf] into itself has no meaning, neither has the deletion. *)
Lemma dodelete_overlap im w d e i sl : k_self_copy = false ->
  layout im [] w d -> i_slots im !! i = Some sl -> at_rec im i sl d ->
  exists s', _db_dodelete (DbSt w d e) = Exit (Undefined "sprintf of idxbuf into itself") s'.
Proof.
  intros Hself L Hi A. destruct (dodelete_start im w d e i sl L Hi A) as (w1 & d1 & -> & L1 & B1 & B2 & B3 & _ & _ & Ebd & _).
  destruct (blank_data_ok im w1 d1 e i sl L1 Hi B1 B2 B3 Ebd) as (w2 & E & _).
  eexists. etrans; [apply (E (fun freeptr saveptr off => _db_writeidx IdxBuf off SEEK_SET freeptr ;; _))|].
  apply bind_exit. apply writeidx_overlap; [done|]. apply (wf_free im), (lay_wf _ _ _ _ _ _ L).
Qed.

Lemma dodelete_ok im fl chains w d e h mid i post sl : k_self_copy = true ->
  layout im [] w d -> inv im fl [] chains -> chains !! h = Some (mid ++ i :: post) ->
  i_slots im !! i = Some sl -> at_rec im i sl d ->
  ptroff d = loc_off im (pred (LHash h) mid) ->
  exists w' d' im', _db_dodelete (DbSt w d e) = Ret tt (DbSt w' d' e) /\
    layout im' [] w' d' /\ inv im' (i :: fl) [] (<[h := mid ++ post]> chains) /\ frame d d' /\
    same_shape im im' /\
    forall m, holds im chains m -> holds im' (<[h := mid ++ post]> chains) (delete (s_key sl) m).
Proof.
  intros Hself L I Hh Hi A Hpo. pose proof (inv_wf _ _ _ _ I) as W. pose proof (slot_of im i sl W Hi) as Hok.
  destruct (inv_removed im fl chains h mid i post sl I Hh Hi) as (J & Sh & Hli & HlF & Hm). set (l := pred (LHash h) mid) in *.
  destruct (dodelete_start im w d e i sl L Hi A) as (w1 & d1 & -> & L1 & B1 & B2 & B3 & F1 & P1 & Ebd & Ebk).
  destruct (blank_records_ok im w1 d1 e i sl) as (w4 & d4 & E4 & L4 & F4 & O4 & P4); [done..|].
  pose proof (frame_trans _ _ _ F1 F4) as F04.
  rewrite E4. clear E4. set (im2 := upd_slot im i (emptied im sl)) in *. step. rewrite O4.
  assert (Ho : ptr_ok (slot_off im i)) by (eapply (chain_ptr_ok I); [done|]; apply elem_of_app; right; left).
  destruct (writeptr_ok pi pd im2 [] w4 d4 e LFree (slot_off im i) (i_free im) L4 eq_refl Ho) as (w5 & E5 & L5 & _).
  change (loc_off im2 LFree) with FREE_OFF in E5. run E5. steps.
  set (im3 := loc_set im2 LFree (slot_off im i)) in *. rewrite P4, P1, Hpo.
  destruct (inv_chain _ _ _ _ I _ _ Hh) as (p & Hp & Hl). destruct (pred_get _ _ _ _ _ Hp Hl) as (q & Hq & _). fold l in Hq.
  assert (Hq3 : loc_get im3 l = Some q).
  { unfold im3. rewrite loc_set_get_ne by done. unfold im2. destruct l as [|h'|j]; [done|done|].
    simpl. rewrite list_lookup_insert_ne by congruence. done. }
  assert (Sh3 : same_shape im im3).
  { etrans; [by eapply (same_shape_upd im i sl (emptied im sl)); [| |apply (emptied_ok im sl W Hok)..]|]. done. }
  rewrite (loc_off_proper im im3 Sh3 l l eq_refl).
  destruct (writeptr_ok pi pd im3 [] w5 d4 e l (s_ptr sl) q L5 Hq3 (ok_ptr sl Hok)) as (w6 & E6 & L6 & _).
  run E6. assert (Efd : idxfd d = idxfd d4) by (symmetry; apply F04). rewrite Efd.
  sysstep (lock_ok w6 (idxfd d4) pi _ F_SETLK F_UNLCK FREE_OFF 1 (lay_idx _ _ _ _ _ _ L6) (grant _ _ _)).
  rewrite dump_ok by done. eexists _, d4, (removed im i sl l). split; [done|]. split_and!; try done. by apply layout_log.
Qed.

(** ** Taking a record off the free list *)

(** The end of [_db_findfree]. *)
Lemma unlock_free_ok im w d fd e (r : Z) :
  layout im [] w d -> idxfd d = fd ->
  exists w', (rc ← sys (un_lock fd FREE_OFF SEEK_SET 1); dump_if (rc <? 0) "_db_findfree: un_lock error" ;; mret r) (DbSt w d e) =
    Ret r (DbSt w' d e) /\ layout im [] w' d.
Proof.
  intros L <-. sysstep (lock_ok w (idxfd d) pi _ F_SETLK F_UNLCK FREE_OFF 1 (lay_idx _ _ _ _ _ _ L) (grant _ _ _)).
  rewrite run_dump_ok by done. eexists. split; [done|]. by apply layout_log.
Qed.

#[local] Instance sized_dec im keylen dlen i : Decision (exists sl, i_slots im !! i = Some sl /\ right_size keylen dlen sl).
Proof.
  destruct (i_slots im !! i) as [sl|]; [|right; naive_solver].
  destruct (decide (Z.of_nat (length (s_key sl)) = keylen /\ s_dlen sl = dlen)); [left; eauto|right; naive_solver].
Defined.

(** Unlinking the record found. *)
Lemma take_free_ok im w d e mid i post p sl :
  layout im [] w d -> at_rec im i sl d -> i_slots im !! i = Some sl -> loc_get im LFree = Some p -> linked im p (mid ++ i :: post) ->
  exists w', (ptr ← field ptrval; _db_writeptr (match last mid with Some j => slot_off im j | None => FREE_OFF end) ptr ;; mret 0) (DbSt w d e) =
    Ret 0 (DbSt w' d e) /\ layout (loc_set im (pred LFree mid) (s_ptr sl)) [] w' d.
Proof.
  intros L A Hs Hp Hl. destruct (pred_get _ _ _ _ _ Hp Hl) as (q & Hq & _).
  pose proof (ok_ptr sl (slot_of im i sl (lay_wf _ _ _ _ _ _ L) Hs)) as Hpo.
  destruct (writeptr_ok pi pd im [] w d e _ (s_ptr sl) q L Hq Hpo) as (w4 & E4 & L4 & _).
  replace (match last mid with Some j => slot_off im j | None => FREE_OFF end) with (loc_off im (pred LFree mid)) by (unfold pred; by destruct (last mid)).
  exists w4. split; [|done]. step. rewrite (at_ptrval _ _ _ _ A). by run E4.
Qed.

Lemma findfree_ok im fl chains w d e keylen dlen :
  layout im [] w d -> inv im fl [] chains ->
  exists w' d' r, _db_findfree keylen dlen (DbSt w d e) = Ret r (DbSt w' d' e) /\ frame d d' /\
    ((r = 0 /\ exists mid i post sl, fl = mid ++ i :: post /\ i_slots im !! i = Some sl /\
        right_size keylen dlen sl /\ layout (loc_set im (pred LFree mid) (s_ptr sl)) [] w' d' /\
        at_rec im i sl d')
     \/ (r = -1 /\ layout im [] w' d')).
Proof.
  intros L I. pose proof (inv_wf _ _ _ _ I) as W.
  destruct (inv_free _ _ _ _ I) as (p & Hp & Hl). pose proof (root_ptr_ok I _ _ Hp) as Hpk.
  unfold _db_findfree. step.
  sysstep (lock_ok w (idxfd d) pi _ F_SETLKW F_WRLCK FREE_OFF 1 (lay_idx _ _ _ _ _ _ L) (grant _ _ _)).
  set (w1 := log_event _ w). step.
  assert (L1 : layout im [] w1 d) by by apply layout_log.
  destruct (readptr_ok pi pd im [] w1 d e LFree p L1 Hp Hpk) as (w2 & E2 & V2).
  change (loc_off im LFree) with FREE_OFF in E2. run E2. step.
  assert (L2 : layout im [] w2 d) by (by eapply layout_view; [apply V2| |apply L1]).
  pose proof (free_nodup I) as ND.
  assert (HB : forall i, i ∈ fl -> (i < length (i_slots im))%nat).
  { intros i Hi. apply (inv_bound I). apply elem_of_app. by left. }
  pose proof (fuel_enough im [] w2 d e fl L2 ND HB) as Hfuel.
  destruct (split_first (fun i => exists sl, i_slots im !! i = Some sl /\ right_size keylen dlen sl) fl)
    as [(mid & i & post & -> & (sl & Hs & Hsz) & Hmid)|Hno].
  - destruct (findfree_loop_hit im [] w2 d e keylen dlen (chain_fuel (DbSt w2 d e)) p FREE_OFF mid i post sl)
      as (w3 & d3 & E3 & V3 & F3 & A3); try done.
    { rewrite length_app in Hfuel. simpl in Hfuel. lia. }
    { intros j sj Hj Hsj E. apply (Hmid j Hj). eauto. }
    run E3. cbn [fst snd]. pose proof (slot_off_pos im i) as Hpos. change HEAD with 829 in Hpos.
    bfalse (slot_off im i =? 0).
    assert (L3 : layout im [] w3 d3) by (by eapply layout_frame; [apply V3|apply F3|apply L2]).
    destruct (take_free_ok im w3 d3 e mid i post p sl L3 A3 Hs Hp Hl) as (w4 & E4 & L4). run E4.
    destruct (unlock_free_ok _ w4 d3 (idxfd d) e 0 L4) as (w5 & E5 & L5); [apply F3|].
    exists w5, d3, 0. split; [exact E5|]. split; [done|left; eauto 15].
  - destruct (findfree_loop_miss im [] w2 d e keylen dlen (chain_fuel (DbSt w2 d e)) p FREE_OFF fl)
      as (w3 & d3 & save & E3 & V3 & F3); [done|done|lia| |].
    { intros j sj Hj Hsj E. apply (Hno j Hj). eauto. }
    run E3. cbn [fst snd]. rewrite Z.eqb_refl. step.
    assert (L3 : layout im [] w3 d3) by (by eapply layout_frame; [apply V3|apply F3|apply L2]).
    destruct (unlock_free_ok _ w3 d3 (idxfd d) e (-1) L3) as (w5 & E5 & L5); [apply F3|].
    exists w5, d3, (-1). split; [exact E5|]. split; [done|by right].
Qed.

(** ** Putting a record in front of its chain *)

(** Limits within which a key and data can be stored. *)
Definition valid_key (k : list Z) : Prop := key_ok k /\ 1 <= Z.of_nat (length k) <= 998.
Definition valid_data (v : list Z) : Prop := nonul v /\ 1 <= Z.of_nat (length v) <= 1023.

Lemma new_slot_ok p k o v :
  ptr_ok p -> valid_key k -> 0 <= o <= LONG_MAX -> valid_data v -> slot_ok (Slot p k o v).
Proof.
  intros Hp [Hk Hkl] Ho [Hv Hvl]. assert (Hd : DATLEN_MIN <= s_dlen (Slot p k o v) <= DATLEN_MAX).
  { unfold s_dlen, DATLEN_MIN, DATLEN_MAX. simpl. lia. }
  constructor; try done. unfold text_len, slot_text. simpl s_key. simpl s_doff.
  rewrite !length_app. simpl.
  unfold DATLEN_MIN, DATLEN_MAX in Hd. set (n := s_dlen _) in *.
  assert (length (dec o) <= 19)%nat.
  { apply dec_length_le; [|lia]. assert (LONG_MAX < 10 ^ Z.of_nat 19) by done. lia. }
  assert (length (dec n) <= 4)%nat.
  { apply dec_length_le; [|lia]. assert (1024 < 10 ^ Z.of_nat 4) by done. lia. }
  pose proof (dec_length_pos o ltac:(lia)). pose proof (dec_length_pos n ltac:(lia)).
  unfold IDXLEN_MIN, IDXLEN_MAX. lia.
Qed.

(** The common last step: record [i] of image [im], prepared to be the new head. *)
Lemma chain_push_ok im fl chains w d e h c i sl m :
  layout im [] w d -> inv im fl [i] chains -> i_slots im !! i = Some sl ->
  chains !! h = Some c -> i_hash im !! h = Some (s_ptr sl) -> ptr_ok (slot_off im i) ->
  khash (s_key sl) = Z.of_nat h -> m !! s_key sl = None -> holds im chains m ->
  exists w' im', _db_writeptr (loc_off im (LHash h)) (slot_off im i) (DbSt w d e) = Ret tt (DbSt w' d e) /\
    layout im' [] w' d /\ inv im' fl [] (<[h := i :: c]> chains) /\
    holds im' (<[h := i :: c]> chains) (<[s_key sl := s_data sl]> m) /\ same_shape im im'.
Proof.
  intros L I Hi Hc Hh Ho Hk Hm Hold.
  destruct (writeptr_ok pi pd im [] w d e (LHash h) (slot_off im i) (s_ptr sl) L Hh Ho) as (w' & E & L' & _).
  exists w', (loc_set im (LHash h) (slot_off im i)). split_and!; [done|done| | |].
  - eapply inv_push_chain; eauto. intros j sj Hj Hsj E'.
    pose proof (holds_present _ _ _ _ _ _ _ _ _ _ I Hold Hk Hc Hj Hsj E') as H. congruence.
  - eapply holds_push; eauto. intros. apply loc_set_kd.
  - eapply loc_set_ok; [apply I|done|done].
Qed.

Definition sizes_ok (im : image) : Prop :=
  Z.of_nat (length (idx_image im)) <= PTR_MAX /\
  Z.of_nat (length (idx_image im)) + 1034 <= k_fsize /\
  Z.of_nat (length (dat_image im)) + 1024 <= k_fsize.

Lemma append_ok im fl chains w d e key data c p m :
  layout im [] w d -> inv im fl [] chains -> holds im chains m ->
  let h := bucket key in
  chains !! h = Some c -> i_hash im !! h = Some p -> m !! cstr key = None ->
  valid_key (cstr key) -> valid_data (cstr data) -> sizes_ok im ->
  exists w' d' im' chains',
    append_record key data (loc_off im (LHash h)) p (DbSt w d e) = Ret tt (DbSt w' d' e) /\
    frame d d' /\ layout im' [] w' d' /\ inv im' fl [] chains' /\
    holds im' chains' (<[cstr key := cstr data]> m) /\
    Z.of_nat (length (idx_image im')) <= Z.of_nat (length (idx_image im)) + 1034 /\
    Z.of_nat (length (dat_image im')) <= Z.of_nat (length (dat_image im)) + 1024.
Proof.
  intros L I Hold h Hc Hh Hm Hvk Hvd (Hz1 & Hz2 & Hz3).
  pose proof (inv_wf _ _ _ _ I) as W. pose proof (root_ptr_ok I (LHash h) p Hh) as Hp.
  set (o := Z.of_nat (length (dat_image im))). set (sl := Slot p (cstr key) o (cstr data)).
  pose proof fsize_fits as Hfs.
  assert (Hsl : slot_ok sl) by (apply new_slot_ok; try done; lia).
  pose proof Hvd as [Hv Hvl].
  assert (Hsd : s_dlen sl = strlen data + 1) by done.
  unfold append_record.
  destruct (writedat_app_ok G pi pd im w d e data L) as (w1 & E1 & L1 & _); [unfold strlen; lia|].
  run E1. fold o in E1 |- *. set (d1 := set_datlen _ _).
  assert (L1' : layout im (data_bytes sl) w1 d1) by (by eapply layout_view; [| |apply L1]).
  pose proof (ok_len sl Hsl) as [_ Htl]. unfold IDXLEN_MAX in Htl.
  destruct (writeidx_app_ok G pi pd im w1 d1 e sl key L1' Hsl) as (w2 & buf & E2 & L2 & _);
    try done; [lia|].
  change (s_ptr sl) with p in E2. run E2. step. set (d2 := set_idxoff _ _).
  change (idxoff d2) with (slot_off im (length (i_slots im))).
  pose proof (slot_off_end im W) as Hend. pose proof (slot_off_pos im (length (i_slots im))) as Hpos.
  pose proof (inv_app im fl chains sl I (lay_wf _ _ _ _ _ _ L2)) as I2.
  set (im1 := app_slot im sl) in *. set (n := length (i_slots im)) in *.
  assert (Hoff : slot_off im1 n = slot_off im n) by (apply slot_off_app; lia).
  rewrite <- Hoff.
  assert (Hn : i_slots im1 !! n = Some sl) by (unfold im1, n; simpl; by rewrite list_lookup_middle).
  assert (L2' : layout im1 [] w2 d2) by (by eapply layout_view; [| |apply L2]).
  assert (Hold1 : holds im1 chains m).
  { eapply holds_same; [|done]. intros i Hi. unfold same_kd, im1. simpl. rewrite lookup_app_l; [done|].
    apply (inv_bound I). apply elem_of_app. by right. }
  destruct (chain_push_ok im1 fl chains w2 d2 e h c n sl m L2' I2 Hn Hc Hh)
    as (w3 & im' & E3 & L3 & I3 & Hold3 & Sh); try done.
  { rewrite Hoff, Hend. unfold ptr_ok. lia. }
  { unfold h. by rewrite bucket_khash. }
  change (loc_off im1 (LHash h)) with (loc_off im (LHash h)) in E3. rewrite E3.
  exists w3, d2, im', (<[h := n :: c]> chains). split_and!; try done.
  - rewrite <- !slot_off_end by (apply L3 || done).
    rewrite <- (slot_off_shape _ _ _ Sh), <- (same_shape_length _ _ Sh). unfold im1 at 2. simpl.
    rewrite length_app. simpl. fold n. rewrite Nat.add_1_r, (slot_off_S im1 n sl Hn Hsl), Hoff. lia.
  - assert (Ed : length (dat_image im') = length (dat_image im1)).
    { unfold dat_image. rewrite !length_concat_map. f_equal. symmetry. apply Sh. }
    rewrite Ed. unfold im1. rewrite dat_app, length_app, Nat2Z.inj_add, data_bytes_length, Hsd.
    unfold strlen. lia.
Qed.

Lemma reuse_ok im fl chains w d e key data c p m i sl :
  layout im [] w d -> inv im fl [i] chains -> holds im chains m ->
  let h := bucket key in
  chains !! h = Some c -> i_hash im !! h = Some p -> m !! cstr key = None ->
  i_slots im !! i = Some sl -> right_size (strlen key) (strlen data + 1) sl ->
  idxoff d = slot_off im i -> datoff d = s_doff sl -> ptr_ok (slot_off im i) ->
  valid_key (cstr key) -> 
  exists w' d' im' chains',
    reuse_record key data (loc_off im (LHash h)) p (DbSt w d e) = Ret tt (DbSt w' d' e) /\
    frame d d' /\ layout im' [] w' d' /\ inv im' fl [] chains' /\
    holds im' chains' (<[cstr key := cstr data]> m) /\ same_shape im im'.
Proof.
  intros L I Hold h Hc Hh Hm Hi [Hs1 Hs2] Ho1 Ho2 Hpo [Hk _].
  pose proof (inv_wf _ _ _ _ I) as W. pose proof (root_ptr_ok I (LHash h) p Hh) as Hp.
  pose proof (slot_of im i sl W Hi) as Hok.
  assert (Hl1 : length (cstr key) = length (s_key sl)) by (unfold strlen in *; lia).
  assert (Hl2 : length (cstr data) = length (s_data sl)) by (unfold strlen, s_dlen in *; lia).
  unfold reuse_record. step. rewrite Ho2.
  destruct (writedat_over_ok pi pd im w d e i sl data L Hi Hl2) as (w1 & E1 & L1 & _).
  run E1. step. set (d1 := set_datlen _ _) in *. change (idxoff d1) with (idxoff d). rewrite Ho1.
  set (sl1 := set_data (cstr data) sl) in *. set (im1 := upd_slot im i sl1) in *.
  assert (Hi1 : i_slots im1 !! i = Some sl1).
  { apply list_lookup_insert_eq. by eapply lookup_lt_Some. }
  assert (Ok1 : slot_ok sl1 /\ fits sl sl1).
  { split; [apply set_data_ok; [apply cstr_nonul|done|done]|by apply set_data_fits]. }
  destruct Ok1 as [Ok1 F1].
  assert (Sh1 : same_shape im im1) by (by eapply same_shape_upd).
  assert (L1' : layout im1 [] w1 d1) by (by eapply layout_view; [| |apply L1]).
  rewrite (slot_off_shape _ _ i Sh1).
  destruct (writeidx_over_ok pi pd im1 [] w1 d1 e i sl1 key p L1' Hi1) as (w2 & buf & E2 & L2 & _);
    try done.
  run E2. step. set (d2 := set_idxoff _ _).
  change (s_doff sl1) with (s_doff sl) in L2. change (s_data sl1) with (cstr data) in L2.
  set (sl2 := Slot p (cstr key) (s_doff sl) (cstr data)) in *.
  assert (Eim2 : upd_slot im1 i sl2 = upd_slot im i sl2).
  { unfold im1, upd_slot. simpl. by rewrite list_insert_insert_eq. }
  rewrite Eim2 in L2. set (im2 := upd_slot im i sl2) in *.
  change (idxoff d2) with (slot_off im1 i). rewrite <- (slot_off_shape _ _ i Sh1).
  destruct (fits_slot_ok p (cstr key) sl1 Hp Hk Hl1 Ok1) as [Ok2 _]. change (Slot p _ _ _) with sl2 in Ok2.
  assert (F2 : fits sl sl2) by done.
  assert (Sh2 : same_shape im im2) by (by eapply same_shape_upd).
  assert (I2 : inv im2 fl [i] chains) by (eapply inv_upd; eauto; left; left).
  assert (Hi2 : i_slots im2 !! i = Some sl2).
  { apply list_lookup_insert_eq. by eapply lookup_lt_Some. }
  assert (L2' : layout im2 [] w2 d2) by (by eapply layout_view; [| |apply L2]).
  assert (Hold2 : holds im2 chains m).
  { eapply holds_same; [|done]. intros j Hj. unfold same_kd, im2. simpl.
    rewrite list_lookup_insert_ne; [done|]. intros <-.
    pose proof (inv_nodup I) as (_ & _ & (_ & H & _)%NoDup_app)%NoDup_app. apply (H i); [left|done]. }
  rewrite (slot_off_shape _ _ i Sh2).
  destruct (chain_push_ok im2 fl chains w2 d2 e h c i sl2 m L2' I2 Hi2 Hc Hh)
    as (w3 & im' & E3 & L3 & I3 & Hold3 & Sh3); try done.
  { by rewrite <- (slot_off_shape _ _ i Sh2). }
  { unfold h. by rewrite bucket_khash. }
  change (loc_off im2 (LHash h)) with (loc_off im (LHash h)) in E3. rewrite E3.
  exists w3, d2, im', (<[h := i :: c]> chains). split_and!; try done.
  etrans; [apply Sh2|done].
Qed.
End Ops.
