(* ===== verification/DbSpec.v ===== *)
(** What the database library promises: a handle is a finite map from keys to
    data.  Each public operation of [src/apue2e/db/db.c] is shown to return and to
    act on the files as the corresponding operation acts on the map. *)
From S2P Require Import Prelude CStr FileIO Db DbLayout DbPrim DbChain DbOps.

(** ** The specification *)

Abbreviation kvmap := (gmap (list Z) (list Z)).

Definition delete_spec (m : kvmap) (k : list Z) : Z * kvmap :=
  match m !! k with Some _ => (0, delete k m) | None => (-1, m) end.

(** Return value, new map, and whether [errno] is set to [ENOENT]. *)
Definition store_spec (m : kvmap) (k v : list Z) (flag : Z) : Z * kvmap :=
  match m !! k with
  | None => if flag =? DB_REPLACE then (-1, m) else (0, <[k := v]> m)
  | Some _ => if flag =? DB_INSERT then (1, m) else (0, <[k := v]> m)
  end.

(** Whether a call removes an index record, for which [_db_dodelete] formats [idxbuf] into itself: a deletion of a key that is
    there, and a replacement by data of another length. *)
Definition delete_removes (m : kvmap) (k : list Z) : bool := match m !! k with Some _ => true | None => false end.
Definition store_removes (m : kvmap) (k v : list Z) (flag : Z) : bool :=
  match m !! k with
  | Some old => negb (flag =? DB_INSERT) && negb (Z.of_nat (length v) =? Z.of_nat (length old))
  | None => false
  end.

Definition flag_ok (flag : Z) : Prop :=
  flag = DB_INSERT \/ flag = DB_REPLACE \/ flag = DB_STORE.

(** Length of the file at a path. *)
Definition flen (w : world) (p : list Z) : Z :=
  match files w !! p with Some c => Z.of_nat (length c) | None => 0 end.

Section Spec.
Context `{K : Kernel} (G : Granting K) (pi pd : list Z).
Abbreviation layout := (layout pi pd).

(** The open handle [d] represents the map [m]. *)
Definition db_rep (w : world) (d : DB) (m : kvmap) : Prop :=
  exists im fl chains, layout im [] w d /\ inv im fl [] chains /\ holds im chains m.

(** Room for one more record in both files. *)
Definition room (w : world) : Prop :=
  flen w pi <= PTR_MAX /\ flen w pi + 1034 <= k_fsize /\ flen w pd + 1024 <= k_fsize.

Definition grown (w w' : world) : Prop :=
  flen w' pi <= flen w pi + 1034 /\ flen w' pd <= flen w pd + 1024.

Definition unchanged (w w' : world) : Prop := flen w' pi = flen w pi /\ flen w' pd = flen w pd.

Lemma unchanged_grown w w' : unchanged w w' -> grown w w'.
Proof. intros [H1 H2]. split; lia. Qed.

Lemma layout_flen im w d :
  layout im [] w d ->
  flen w pi = Z.of_nat (length (idx_image im)) /\ flen w pd = Z.of_nat (length (dat_image im)).
Proof.
  intros L. pose proof (lay_idx _ _ _ _ _ _ L) as [_ H1]. pose proof (lay_dat _ _ _ _ _ _ L) as [_ H2].
  rewrite app_nil_r in H2. unfold flen. by rewrite H1, H2.
Qed.

Lemma room_sizes im w d : layout im [] w d -> room w -> sizes_ok im.
Proof. intros [E1 E2]%layout_flen (H1 & H2 & H3). rewrite E1, E2 in *. done. Qed.

Lemma same_shape_flen im im' w w' d d' :
  layout im [] w d -> layout im' [] w' d' -> same_shape im im' -> unchanged w w'.
Proof.
  intros L L' Sh. destruct (layout_flen _ _ _ L) as [E1 E2]. destruct (layout_flen _ _ _ L') as [E3 E4].
  unfold unchanged. rewrite E1, E2, E3, E4. split.
  - rewrite <- !slot_off_end by (apply L || apply L').
    by rewrite <- (slot_off_shape _ _ _ Sh), (same_shape_length _ _ Sh).
  - unfold dat_image. rewrite !length_concat_map. do 2 f_equal. symmetry. apply Sh.
Qed.

(** A state whose files are as before but for locks and offsets. *)
Lemma rep_view im fl chains w w' d d' m :
  layout im [] w d -> inv im fl [] chains -> holds im chains m ->
  view w' = view w -> same_handle d d' -> db_rep w' d' m.
Proof. intros L I H V F. exists im, fl, chains. split_and!; [by eapply layout_view|done|done]. Qed.

(** ** Fetch *)

Lemma fetch_ok w d e m key :
  db_rep w d m ->
  exists w' d', db_fetch key (DbSt w d e) = Ret (m !! cstr key) (DbSt w' d' e) /\
    db_rep w' d' m /\ files w' = files w.
Proof.
  intros (im & fl & chains & L & I & Hm). unfold db_fetch.
  destruct (find_and_lock_ok G pi pd im fl chains w d e key false L I)
    as (c & w1 & d1 & r & Hc & E1 & V1 & F1 & S1 & C1 & Hr). run E1.
  assert (L1 : layout im [] w1 d1) by (eapply layout_view; [apply V1|done|by apply layout_log]).
  pose proof (eq_sym (bucket_khash key)) as Hkh.
  assert (Hf1 : files w1 = files w) by (unfold view in V1; by injection V1).
  destruct Hr as [[-> (mid & i & post & sl & -> & Hi & Hk & A & P)]|[-> Hno]].
  - assert (Hin : i ∈ mid ++ i :: post) by (apply elem_of_app; right; left).
    rewrite (holds_present _ _ _ _ _ _ _ _ _ _ I Hm Hkh Hc Hin Hi Hk).
    destruct (readdat_ok pi pd im [] w1 d1 e i sl L1 Hi (at_datoff _ _ _ _ A) (at_datlen _ _ _ _ A))
      as (w2 & buf & E2 & V2 & _).
    change (0 <? 0) with false. cbv iota.
    set (d3 := set_cnt_fetchok (uwrap 64 (cnt_fetchok (set_datbuf buf d1) + 1)) (set_datbuf buf d1)).
    assert (ER : (p ← _db_readdat;
         upd (fun d => set_cnt_fetchok (uwrap 64 (cnt_fetchok d + 1)) d) ;; mret (Some p)) (DbSt w1 d1 e)
         = Ret (Some (s_data sl)) (DbSt w2 d3 e)) by (by run E2).
    run ER. assert (L3 : layout im [] w2 d3) by (by eapply layout_view; [apply V2| |apply L1]).
    run (unlock_chain_ok G pi pd im [] w2 d3 e "db_fetch: un_lock error" L3).
    eexists _, _. split; [done|]. split.
    + exists im, fl, chains. split_and!; [by apply layout_log|done|done].
    + simpl. unfold view in V2. injection V2 as V2 _ _. congruence.
  - rewrite (holds_absent _ _ _ _ _ _ _ _ I Hm Hkh Hc Hno).
    change (-1 <? 0) with true. cbv iota.
    unfold mbind at 1, M_bind at 1. step. unfold mret, M_ret.
    set (d3 := set_cnt_fetcherr _ d1).
    assert (L3 : layout im [] w1 d3) by (by eapply layout_view; [| |apply L1]).
    run (unlock_chain_ok G pi pd im [] w1 d3 e "db_fetch: un_lock error" L3).
    eexists _, _. split; [done|]. split; [|done].
    exists im, fl, chains. split_and!; [by apply layout_log|done|done].
Qed.

(** ** Delete *)

Lemma delete_ok w d e m key :
  db_rep w d m -> k_self_copy = true \/ delete_removes m (cstr key) = false ->
  exists w' d', db_delete key (DbSt w d e) = Ret (delete_spec m (cstr key)).1 (DbSt w' d' e) /\
    db_rep w' d' (delete_spec m (cstr key)).2 /\ unchanged w w'.
Proof.
  intros (im & fl & chains & L & I & Hm) Hself. unfold db_delete. unfold delete_removes in Hself.
  destruct (find_and_lock_ok G pi pd im fl chains w d e key true L I)
    as (c & w1 & d1 & r & Hc & E1 & V1 & F1 & S1 & C1 & Hr). run E1.
  assert (L1 : layout im [] w1 d1) by (eapply layout_view; [apply V1|done|by apply layout_log]).
  pose proof (eq_sym (bucket_khash key)) as Hkh. unfold delete_spec.
  destruct Hr as [[-> (mid & i & post & sl & -> & Hi & Hk & A & P)]|[-> Hno]].
  - assert (Hin : i ∈ mid ++ i :: post) by (apply elem_of_app; right; left).
    rewrite (holds_present _ _ _ _ _ _ _ _ _ _ I Hm Hkh Hc Hin Hi Hk) in Hself |- *. destruct Hself as [Hself|[=]].
    destruct (dodelete_ok G pi pd im fl chains w1 d1 e _ mid i post sl Hself L1 I Hc Hi A P)
      as (w2 & d2 & im' & E2 & L2 & I2 & F2 & Sh & Hh2).
    rewrite Z.eqb_refl. cbn [fst snd].
    set (d3 := set_cnt_delok (uwrap 64 (cnt_delok d2 + 1)) d2).
    assert (ER : (_db_dodelete ;; upd (fun d => set_cnt_delok (uwrap 64 (cnt_delok d + 1)) d) ;; mret 0)
                   (DbSt w1 d1 e) = Ret 0 (DbSt w2 d3 e)) by (by run E2).
    run ER. assert (L3 : layout im' [] w2 d3) by (by eapply layout_view; [| |apply L2]).
    run (unlock_chain_ok G pi pd im' [] w2 d3 e "db_delete: un_lock error" L3).
    eexists _, _. split; [done|]. split.
    + exists im', (i :: fl). eexists. split_and!; [by apply layout_log|done|]. rewrite <- Hk. by apply Hh2.
    + eapply same_shape_flen; [apply L|apply (layout_log pi pd _ _ _ _ _ L3)|done].
  - rewrite (holds_absent _ _ _ _ _ _ _ _ I Hm Hkh Hc Hno).
    change (-1 =? 0) with false. cbv iota. cbn [fst snd].
    unfold mbind at 1, M_bind at 1. step. unfold mret, M_ret.
    set (d3 := set_cnt_delerr _ d1).
    assert (L3 : layout im [] w1 d3) by (by eapply layout_view; [| |apply L1]).
    run (unlock_chain_ok G pi pd im [] w1 d3 e "db_delete: un_lock error" L3).
    eexists _, _. split; [done|]. split.
    + exists im, fl, chains. split_and!; [by apply layout_log|done|done].
    + eapply same_shape_flen; [apply L|apply (layout_log pi pd _ _ _ _ _ L3)|done].
Qed.

Lemma delete_overlap w d e m key :
  db_rep w d m -> k_self_copy = false -> delete_removes m (cstr key) = true ->
  exists s', db_delete key (DbSt w d e) = Exit (Undefined "sprintf of idxbuf into itself") s'.
Proof.
  intros (im & fl & chains & L & I & Hm) Hself Hrm. unfold db_delete. unfold delete_removes in Hrm.
  destruct (find_and_lock_ok G pi pd im fl chains w d e key true L I)
    as (c & w1 & d1 & r & Hc & E1 & V1 & F1 & S1 & C1 & Hr). run E1.
  assert (L1 : layout im [] w1 d1) by (eapply layout_view; [apply V1|done|by apply layout_log]).
  pose proof (eq_sym (bucket_khash key)) as Hkh.
  destruct Hr as [[-> (mid & i & post & sl & -> & Hi & Hk & A & P)]|[-> Hno]].
  - destruct (dodelete_overlap G pi pd im w1 d1 e i sl Hself L1 Hi A) as (s' & E2). exists s'.
    rewrite Z.eqb_refl. by do 2 apply bind_exit.
  - by rewrite (holds_absent _ _ _ _ _ _ _ _ I Hm Hkh Hc Hno) in Hrm.
Qed.

(** ** Store *)

Section StoreNew.
Context {im : image} {fl : list nat} {chains : list (list nat)} {m : kvmap}.
Context (I : inv im fl [] chains) (Hm : holds im chains m).

(** A key that is not in the database, with [DB_INSERT] or [DB_STORE]. *)
Lemma store_new_ok w d e key data c flag :
  layout im [] w d -> chains !! bucket key = Some c -> chainoff d = loc_off im (LHash (bucket key)) ->
  m !! cstr key = None -> flag <> DB_REPLACE ->
  valid_key (cstr key) -> valid_data (cstr data) -> sizes_ok im ->
  exists w' d', store_new key data (strlen key) (strlen data + 1) flag (DbSt w d e) = Ret 0 (DbSt w' d' e) /\
    same_handle d d' /\ chainoff d' = chainoff d /\
    db_rep w' d' (<[cstr key := cstr data]> m) /\ grown w w'.
Proof.
  intros L Hc Hch Hnone Hflag Hvk Hvd Hsz. unfold store_new.
  bfalse (flag =? DB_REPLACE). step. rewrite Hch. set (h := bucket key) in *.
  destruct (inv_chain _ _ _ _ I h c Hc) as (p & Hp & Hl).
  pose proof (root_ptr_ok I _ _ Hp) as Hpk.
  destruct (readptr_ok pi pd im [] w d e (LHash h) p L Hp Hpk) as (w1 & E1 & V1). run E1.
  assert (L1 : layout im [] w1 d) by (by eapply layout_view; [apply V1| |apply L]).
  destruct (findfree_ok G pi pd im fl chains w1 d e (strlen key) (strlen data + 1) L1 I)
    as (w2 & d2 & r & E2 & F2 & Hr). run E2.
  destruct Hr as [[-> (mid & i & post & sl & Hfl & Hi & Hrs & L2 & A2)]|[-> L2]].
  - change (0 <? 0) with false. cbv iota.
    pose proof (inv_unlink_free im fl chains mid i post sl I Hfl Hi) as I2.
    set (l := pred LFree mid) in *. set (im2 := loc_set im l (s_ptr sl)) in *.
    assert (Hin : i ∈ fl) by (rewrite Hfl; apply elem_of_app; right; left).
    assert (Hli : l <> LSlot i).
    { intros E. apply pred_in in E; [|done]. pose proof (free_nodup I) as ND. rewrite Hfl in ND.
      apply NoDup_app in ND as (_ & H1 & _). apply (H1 i E). left. }
    assert (Hi2 : i_slots im2 !! i = Some sl).
    { unfold im2. destruct l as [|h'|j]; [done|done|]. simpl. rewrite list_lookup_alter_ne by congruence. done. }
    destruct (inv_free _ _ _ _ I) as (p0 & Hp0 & Hl0). rewrite Hfl in Hl0.
    destruct (pred_get _ _ _ _ _ Hp0 Hl0) as (q & Hq & _).
    destruct (loc_set_ok im l (s_ptr sl) q (inv_wf _ _ _ _ I) Hq) as [_ Sh].
    { apply (slot_of im i sl); [apply I|done]. }
    assert (Hold2 : holds im2 chains m) by (eapply holds_same; [|done]; intros; apply loc_set_kd).
    assert (Hh2 : i_hash im2 !! h = Some p).
    { unfold im2, l, pred. destruct (last mid); done. }
    destruct (reuse_ok pi pd im2 (mid ++ post) chains w2 d2 e key data c p m i sl)
      as (w3 & d3 & im3 & chains3 & E3 & F3 & L3 & I3 & Hold3 & Sh3); try done.
    { rewrite (at_idxoff _ _ _ _ A2). by apply slot_off_shape. }
    { apply A2. }
    { pose proof (slot_off_shape im im2 i Sh) as Eo. rewrite <- Eo. by apply (free_ptr_ok I). }
    fold h in E3. change (loc_off im2 (LHash h)) with (loc_off im (LHash h)) in E3.
    unfold mbind at 1, M_bind at 1. run E3. eexists _, _. split; [done|].
    pose proof (frame_trans _ _ _ F2 F3) as ((? & ? & ? & ?) & ? & _).
    split; [done|]. split; [by etrans; [|apply Hch]|]. split.
    + exists im3. eexists _, _. split_and!; [by eapply layout_view; [| |apply L3]|done|done].
    + apply unchanged_grown. eapply same_shape_flen; [apply L|apply L3|]. by etrans.
  - change (-1 <? 0) with true. cbv iota.
    destruct (append_ok G pi pd im fl chains w2 d2 e key data c p m)
      as (w3 & d3 & im3 & chains3 & E3 & F3 & L3 & I3 & Hold3 & G1 & G2); try done.
    fold h in E3. unfold mbind at 1, M_bind at 1. run E3. eexists _, _. split; [done|].
    pose proof (frame_trans _ _ _ F2 F3) as ((? & ? & ? & ?) & ? & _).
    split; [done|]. split; [by etrans; [|apply Hch]|]. split.
    + exists im3. eexists _, _. split_and!; [by eapply layout_view; [| |apply L3]|done|done].
    + destruct (layout_flen _ _ _ L) as [Ea Eb]. destruct (layout_flen _ _ _ L3) as [Ec Ed].
      unfold grown. cbn [st_w]. rewrite Ea, Eb, Ec, Ed. done.
Qed.

(** A key that is in the database, with [DB_REPLACE] or [DB_STORE]. *)
Lemma store_found_ok w d e key data mid i post sl flag :
  layout im [] w d -> chains !! bucket key = Some (mid ++ i :: post) ->
  chainoff d = loc_off im (LHash (bucket key)) ->
  i_slots im !! i = Some sl -> s_key sl = cstr key -> at_rec im i sl d ->
  ptroff d = loc_off im (pred (LHash (bucket key)) mid) -> flag <> DB_INSERT ->
  valid_key (cstr key) -> valid_data (cstr data) -> sizes_ok im ->
  k_self_copy = true \/ length (cstr data) = length (s_data sl) ->
  exists w' d', store_found key data (strlen data + 1) flag (DbSt w d e) = Ret 0 (DbSt w' d' e) /\
    same_handle d d' /\ chainoff d' = chainoff d /\
    db_rep w' d' (<[cstr key := cstr data]> m) /\ grown w w'.
Proof.
  intros L Hc Hch Hi Hk A Hpo Hflag Hvk Hvd Hsz Hself. unfold store_found. bfalse (flag =? DB_INSERT). step.
  set (h := bucket key) in *. rewrite (at_datlen _ _ _ _ A).
  destruct (Z.eqb_spec (strlen data + 1) (s_dlen sl)) as [Heq|Hne]; simpl negb; cbv iota.
  - assert (Hl : length (cstr data) = length (s_data sl)) by (unfold strlen, s_dlen in *; lia).
    unfold mbind at 1, M_bind at 1. step. rewrite (at_datoff _ _ _ _ A).
    destruct (writedat_over_ok pi pd im w d e i sl data L Hi Hl) as (w1 & E1 & L1 & _). run E1.
    eexists _, _. split; [done|]. split; [done|]. split; [done|].
    assert (Hin : i ∈ mid ++ i :: post) by (apply elem_of_app; right; left).
    pose proof (slot_of im i sl (inv_wf _ _ _ _ I) Hi) as Hok.
    split.
    + exists (upd_slot im i (set_data (cstr data) sl)), fl, chains.
      split_and!; [by eapply layout_view; [| |apply L1]| |].
      * eapply inv_upd; [done|done| |by apply set_data_fits|by right].
        apply set_data_ok; [apply cstr_nonul|done|done].
      * rewrite <- Hk. eapply holds_set_data; eauto.
    + apply unchanged_grown. eapply same_shape_flen; [apply L|apply L1|].
      eapply same_shape_upd; [apply I|done| |by apply set_data_fits].
      apply set_data_ok; [apply cstr_nonul|done|done].
  - destruct Hself as [Hself|Hl]; [|unfold strlen, s_dlen in Hne; lia].
    destruct (dodelete_ok G pi pd im fl chains w d e _ mid i post sl Hself L I Hc Hi A Hpo)
      as (w2 & d2 & im2 & E2 & L2 & I2 & F2 & Sh & Hh2).
    specialize (Hh2 m Hm). unfold mbind at 1, M_bind at 1. run E2. step.
    set (chains2 := <[h := mid ++ post]> chains) in *.
    assert (Hc2 : chains2 !! h = Some (mid ++ post)).
    { apply list_lookup_insert_eq. by eapply lookup_lt_Some. }
    destruct (inv_chain _ _ _ _ I2 h _ Hc2) as (p & Hp & Hl).
    pose proof (root_ptr_ok I2 _ _ Hp) as Hpk.
    destruct F2 as (F21 & F22 & F23). rewrite F22, Hch.
    change (loc_off im (LHash h)) with (loc_off im2 (LHash h)).
    destruct (readptr_ok pi pd im2 [] w2 d2 e (LHash h) p L2 Hp Hpk) as (w3 & E3 & V3). run E3.
    assert (L3 : layout im2 [] w3 d2) by (by eapply layout_view; [apply V3| |apply L2]).
    pose proof (same_shape_flen _ _ _ _ _ _ L L3 Sh) as [U1 U2].
    destruct (layout_flen _ _ _ L) as [Ea Eb]. destruct (layout_flen _ _ _ L3) as [Ec Ed].
    destruct (append_ok G pi pd im2 (i :: fl) chains2 w3 d2 e key data (mid ++ post) p (delete (s_key sl) m))
      as (w4 & d4 & im4 & chains4 & E4 & F4 & L4 & I4 & Hold4 & G1 & G2); try done.
    { rewrite Hk. apply lookup_delete_eq. }
    { unfold sizes_ok in *. rewrite <- Ec, <- Ed, U1, U2, Ea, Eb. done. }
    fold h in E4. run E4. eexists _, _. split; [done|].
    destruct F4 as ((? & ? & ? & ?) & ? & _). destruct F21 as (? & ? & ? & ?).
    split; [split_and!; cbn; congruence|]. split; [by etrans; [|apply Hch]; cbn; congruence|]. split.
    + exists im4. eexists _, _. split_and!; [by eapply layout_view; [| |apply L4]|done|].
      rewrite Hk, insert_delete_eq in Hold4. done.
    + destruct (layout_flen _ _ _ L4) as [Ee Ef]. unfold grown.
      cbn [st_w]. rewrite Ee, Ef. lia.
Qed.
End StoreNew.

Lemma store_ok w d e m key data flag :
  db_rep w d m -> flag_ok flag -> valid_key (cstr key) -> valid_data (cstr data) -> room w ->
  k_self_copy = true \/ store_removes m (cstr key) (cstr data) flag = false ->
  exists w' d' e', db_store key data flag (DbSt w d e) =
      Ret (store_spec m (cstr key) (cstr data) flag).1 (DbSt w' d' e') /\
    db_rep w' d' (store_spec m (cstr key) (cstr data) flag).2 /\ grown w w' /\
    e' = if ((store_spec m (cstr key) (cstr data) flag).1 =? -1) then ENOENT else e.
Proof.
  intros (im & fl & chains & L & I & Hm) Hflag Hvk Hvd Hroom Hself. unfold db_store. unfold store_removes in Hself.
  pose proof (room_sizes _ _ _ L Hroom) as Hsz.
  replace (negb (flag =? DB_INSERT) && negb (flag =? DB_REPLACE) && negb (flag =? DB_STORE)) with false
    by (by destruct Hflag as [->|[->| ->]]).
  cbv zeta. destruct Hvd as [Hv Hvl] eqn:EHvd. clear EHvd.
  rewrite run_dump_ok by (rewrite orb_false_iff; unfold DATLEN_MIN, DATLEN_MAX, strlen; lia). cbv beta.
  destruct (find_and_lock_ok G pi pd im fl chains w d e key true L I)
    as (c & w1 & d1 & r & Hc & E1 & V1 & F1 & S1 & C1 & Hr). run E1.
  assert (L1 : layout im [] w1 d1) by (eapply layout_view; [apply V1|done|by apply layout_log]).
  assert (Hfl : forall p, flen w1 p = flen w p).
  { intros p. unfold flen. unfold view in V1. injection V1 as -> _ _. done. }
  pose proof (eq_sym (bucket_khash key)) as Hkh. unfold store_spec.
  assert (Hfin : forall (rc : Z) w2 d2 e2 m', db_rep w2 d2 m' -> grown w1 w2 ->
    exists w3, (unlock_chain "db_store: un_lock error" ;; mret rc : M dbst Z) (DbSt w2 d2 e2) = Ret rc (DbSt w3 d2 e2) /\
      db_rep w3 d2 m' /\ grown w w3).
  { intros rc w2 d2 e2 m' (im2 & fl2 & ch2 & La & Ib & Hc') Gr.
    run (unlock_chain_ok G pi pd im2 [] w2 d2 e2 "db_store: un_lock error" La). eexists. split; [done|].
    split; [exists im2, fl2, ch2; split_and!; [by apply layout_log|done|done]|].
    destruct Gr as [Ga Gb]. unfold grown. rewrite !Hfl in *. done. }
  assert (Gr0 : grown w1 w1) by (unfold grown; lia).
  destruct Hr as [[-> (mid & i & post & sl & -> & Hi & Hk & A & P)]|[-> Hno]].
  - assert (Hin : i ∈ mid ++ i :: post) by (apply elem_of_app; right; left).
    rewrite (holds_present _ _ _ _ _ _ _ _ _ _ I Hm Hkh Hc Hin Hi Hk) in Hself |- *.
    change (0 <? 0) with false. cbv iota.
    destruct (Z.eqb_spec flag DB_INSERT) as [->|Hni]; cbn [fst snd].
    + set (d2 := set_cnt_storerr (uwrap 64 (cnt_storerr d1 + 1)) d1).
      destruct (Hfin 1 w1 d2 e m) as (w3 & E3 & R3 & G3); [|done|].
      { exists im, fl, chains. split_and!; [by eapply layout_view; [| |apply L1]|done|done]. }
      exists w3, d2, e. split_and!; try done.
    + destruct (store_found_ok I Hm w1 d1 e key data mid i post sl flag)
        as (w2 & d2 & E2 & _ & _ & R2 & G2); try done.
      { destruct Hself as [?|Hs]; [by left|right]. cbn [negb andb] in Hs. apply negb_false_iff, Z.eqb_eq in Hs. lia. }
      run E2. destruct (Hfin 0 w2 d2 e _ R2 G2) as (w3 & E3 & R3 & G3).
      exists w3, d2, e. split_and!; done.
  - rewrite (holds_absent _ _ _ _ _ _ _ _ I Hm Hkh Hc Hno).
    change (-1 <? 0) with true. cbv iota.
    destruct (Z.eqb_spec flag DB_REPLACE) as [->|Hni]; cbn [fst snd].
    + set (d2 := set_cnt_storerr (uwrap 64 (cnt_storerr d1 + 1)) d1).
      destruct (Hfin (-1) w1 d2 ENOENT m) as (w3 & E3 & R3 & G3); [|done|].
      { exists im, fl, chains. split_and!; [by eapply layout_view; [| |apply L1]|done|done]. }
      exists w3, d2, ENOENT. split_and!; try done.
    + destruct (store_new_ok I Hm w1 d1 e key data c flag)
        as (w2 & d2 & E2 & _ & _ & R2 & G2); try done.
      { eapply holds_absent; eauto. }
      run E2. destruct (Hfin 0 w2 d2 e _ R2 G2) as (w3 & E3 & R3 & G3).
      exists w3, d2, e. split_and!; done.
Qed.

Lemma store_overlap w d e m key data flag :
  db_rep w d m -> flag_ok flag -> valid_data (cstr data) ->
  k_self_copy = false -> store_removes m (cstr key) (cstr data) flag = true ->
  exists s', db_store key data flag (DbSt w d e) = Exit (Undefined "sprintf of idxbuf into itself") s'.
Proof.
  intros (im & fl & chains & L & I & Hm) Hflag [Hv Hvl] Hself Hrm. unfold db_store. unfold store_removes in Hrm.
  replace (negb (flag =? DB_INSERT) && negb (flag =? DB_REPLACE) && negb (flag =? DB_STORE)) with false
    by (by destruct Hflag as [->|[->| ->]]).
  cbv zeta. rewrite run_dump_ok by (rewrite orb_false_iff; unfold DATLEN_MIN, DATLEN_MAX, strlen; lia). cbv beta.
  destruct (find_and_lock_ok G pi pd im fl chains w d e key true L I)
    as (c & w1 & d1 & r & Hc & E1 & V1 & F1 & S1 & C1 & Hr). run E1.
  assert (L1 : layout im [] w1 d1) by (eapply layout_view; [apply V1|done|by apply layout_log]).
  pose proof (eq_sym (bucket_khash key)) as Hkh.
  destruct Hr as [[-> (mid & i & post & sl & -> & Hi & Hk & A & P)]|[-> Hno]].
  - assert (Hin : i ∈ mid ++ i :: post) by (apply elem_of_app; right; left).
    rewrite (holds_present _ _ _ _ _ _ _ _ _ _ I Hm Hkh Hc Hin Hi Hk) in Hrm. apply andb_true_iff in Hrm as [Hni Hne].
    destruct (dodelete_overlap G pi pd im w1 d1 e i sl Hself L1 Hi A) as (s' & E2). exists s'.
    change (0 <? 0) with false. cbv iota. apply bind_exit. unfold store_found. apply negb_true_iff in Hni. rewrite Hni. step.
    rewrite (at_datlen _ _ _ _ A). bsimp. rewrite (proj2 (Z.eqb_neq _ _)) by (unfold strlen, s_dlen; lia). cbn [negb]. by do 2 apply bind_exit.
  - by rewrite (holds_absent _ _ _ _ _ _ _ _ I Hm Hkh Hc Hno) in Hrm.
Qed.
End Spec.
