(* ===== verification/DbIter.v ===== *)
(** Sequential access: [db_rewind] and [db_nextrec] of [src/apue2e/db/db.c] visit
    every record of the map whose key is not all blanks, once each. *)
From S2P Require Import Prelude CStr FileIO Db DbLayout DbPrim DbChain DbOps DbSpec.

Definition blankb (k : list Z) : bool := forallb (fun c => c =? SPACE) k.

Lemma blankb_replicate n : blankb (replicate n SPACE) = true.
Proof. by induction n. Qed.

(** Call [db_nextrec] until it returns NULL. *)
Fixpoint drain `{Kernel} (fuel : nat) : M dbst (list (list Z * list Z)) :=
  match fuel with
  | O => die Loops
  | S f =>
      r ← db_nextrec;
      match r with
      | None => mret []
      | Some kv => l ← drain f; mret (kv :: l)
      end
  end.

(** The records [db_nextrec] returns from a suffix of the index file. *)
Fixpoint visible (l : list slot) : list (list Z * list Z) :=
  match l with
  | [] => []
  | sl :: l' => if blankb (s_key sl) then visible l' else kd sl :: visible l'
  end.

Lemma elem_visible l kv :
  kv ∈ visible l <-> exists sl, sl ∈ l /\ blankb (s_key sl) = false /\ kd sl = kv.
Proof.
  induction l as [|sl l IH]; simpl; [split; [by intros ?%not_elem_of_nil|by intros (? & ?%not_elem_of_nil & _)]|].
  destruct (blankb (s_key sl)) eqn:E; rewrite ?elem_of_cons, IH; split.
  - intros (x & ? & ?). exists x. rewrite elem_of_cons. tauto.
  - intros (x & [->|?]%elem_of_cons & ? & ?); [congruence|eauto].
  - intros [->|(x & ? & ?)]; [exists sl|exists x]; rewrite elem_of_cons; tauto.
  - intros (x & [->|?]%elem_of_cons & ? & ?); eauto.
Qed.

Section Iter.
Context `{K : Kernel} (G : Granting K) (pi pd : list Z).
Abbreviation layout := (layout pi pd).

(** The next sequential read of the index file is of record [n]. *)
Definition at_pos (im : image) (n : nat) (w : world) (d : DB) : Prop :=
  (n <= length (i_slots im))%nat /\ pos_of w (idxfd d) = Some (slot_off im n).

Lemma nextrec_loop_ok im fuel w d e n :
  layout im [] w d -> at_pos im n w d -> (length (i_slots im) - n < fuel)%nat ->
  exists w' d' b, nextrec_loop fuel (DbSt w d e) = Ret b (DbSt w' d' e) /\ view w' = view w /\
    same_handle d d' /\
    if b : bool
    then exists j sl, (n <= j)%nat /\ i_slots im !! j = Some sl /\ at_pos im (S j) w' d' /\
           at_rec im j sl d' /\ visible (drop n (i_slots im)) = kd sl :: visible (drop (S j) (i_slots im))
    else visible (drop n (i_slots im)) = [] /\ at_pos im (length (i_slots im)) w' d'.
Proof.
  revert w d n. induction fuel as [|fuel IH]; intros w d n L [Hn Hp] Hf; [lia|]. simpl.
  destruct (decide (n = length (i_slots im))) as [->|Hne].
  - destruct (readidx_eof pi pd im [] w d e L Hp) as (w1 & E1 & V1 & P1). run E1.
    exists w1, (set_idxoff (slot_off im (length (i_slots im))) d), false.
    rewrite drop_all. split_and!; try done. split; [done|]. by rewrite <- Hp.
  - destruct (lookup_lt_is_Some_2 (i_slots im) n) as [sl Hi]; [lia|].
    destruct (readidx_ok pi pd im [] w d e n sl 0 L Hi) as (w1 & rest & E1 & V1 & P1); [by right|]. run E1.
    pose proof (slot_of im n sl (lay_wf _ _ _ _ _ _ L) Hi) as Hok.
    pose proof (ok_ptr sl Hok) as [Hpt _]. bfalse (s_ptr sl <? 0). step.
    set (d1 := read_rec _ _ _ _). change (idxbuf d1) with (s_key sl ++ 0 :: rest).
    rewrite cstr_app by apply Hok. fold (blankb (s_key sl)).
    rewrite (drop_S _ _ _ Hi). simpl. pose proof (lookup_lt_Some _ _ _ Hi).
    assert (L1 : layout im [] w1 d1) by (by eapply layout_view; [apply V1| |apply L]).
    destruct (blankb (s_key sl)) eqn:Eb.
    + destruct (IH w1 d1 (S n) L1) as (w2 & d2 & b & E2 & V2 & F2 & Hb); [split; [lia|done]|lia|].
      rewrite E2. exists w2, d2, b. split_and!; [done|congruence| |].
      { destruct F2 as (? & ? & ? & ?). split_and!; cbn in *; congruence. }
      destruct b; [|done]. destruct Hb as (j & sl' & ? & Hb). exists j, sl'. split; [lia|done].
    + exists w1, d1, true. split_and!; try done. exists n, sl. split_and!; try done; try lia.
      by apply read_rec_at.
Qed.

Lemma nextrec_ok im w d e n :
  layout im [] w d -> at_pos im n w d ->
  exists w' d' n', db_nextrec (DbSt w d e) = Ret (head (visible (drop n (i_slots im)))) (DbSt w' d' e) /\
    layout im [] w' d' /\ at_pos im n' w' d' /\ files w' = files w /\
    visible (drop n' (i_slots im)) = tail (visible (drop n (i_slots im))).
Proof.
  intros L Hp. unfold db_nextrec. step.
  sysstep (lock_ok w (idxfd d) pi _ F_SETLKW F_RDLCK FREE_OFF 1 (lay_idx _ _ _ _ _ _ L) (grant _ _ _)).
  set (w1 := log_event _ w). steps.
  assert (L1 : layout im [] w1 d) by (by apply layout_log).
  destruct (nextrec_loop_ok im (chain_fuel (DbSt w1 d e)) w1 d e n L1) as (w2 & d2 & b & E2 & V2 & F2 & Hb);
    [done| |].
  { pose proof (fuel_enough pi pd im [] w1 d e (seq 0 (length (i_slots im))) L1 (NoDup_seq _ _)) as Hfu.
    rewrite length_seq in Hfu. enough (length (i_slots im) < chain_fuel (DbSt w1 d e))%nat by lia.
    apply Hfu. intros i Hi%elem_of_seq. lia. }
  run E2. assert (L2 : layout im [] w2 d2) by (by eapply layout_view; [apply V2| |apply L1]).
  assert (Hf2 : files w2 = files w) by (unfold view in V2; by injection V2).
  assert (E0 : idxfd d = idxfd d2) by (symmetry; apply F2).
  destruct b.
  - destruct Hb as (j & sl & Hnj & Hj & Hp2 & A & ->).
    destruct (readdat_ok pi pd im [] w2 d2 e j sl L2 Hj (at_datoff _ _ _ _ A) (at_datlen _ _ _ _ A))
      as (w3 & buf & E3 & V3 & P3).
    set (d3 := set_cnt_nextrec (uwrap 64 (cnt_nextrec (set_datbuf buf d2) + 1)) (set_datbuf buf d2)).
    assert (ER : (buf ← field idxbuf; dt ← _db_readdat;
         upd (fun d => set_cnt_nextrec (uwrap 64 (cnt_nextrec d + 1)) d) ;; mret (Some (cstr buf, dt)))
           (DbSt w2 d2 e) = Ret (Some (kd sl)) (DbSt w3 d3 e)).
    { step. run E3. unfold kd. destruct (at_buf _ _ _ _ A) as [rest ->].
      rewrite cstr_app; [done|]. by apply (slot_of im j sl (lay_wf _ _ _ _ _ _ L) Hj). }
    run ER. assert (L3 : layout im [] w3 d3) by (by eapply layout_view; [apply V3| |apply L2]).
    rewrite E0. change (idxfd d2) with (idxfd d3).
    sysstep (lock_ok w3 (idxfd d3) pi _ F_SETLK F_UNLCK FREE_OFF 1 (lay_idx _ _ _ _ _ _ L3) (grant _ _ _)).
    eexists _, d3, (S j). split; [done|]. split_and!; [by apply layout_log| | |done].
    + destruct Hp2 as [? Hp2]. split; [done|]. by rewrite <- Hp2.
    + unfold view in V3. injection V3 as V3 _ _. simpl. congruence.
  - destruct Hb as [-> Hp2]. rewrite run_ret. cbv beta.
    rewrite E0.
    sysstep (lock_ok w2 (idxfd d2) pi _ F_SETLK F_UNLCK FREE_OFF 1 (lay_idx _ _ _ _ _ _ L2) (grant _ _ _)).
    eexists _, d2, (length (i_slots im)). split; [done|]. rewrite drop_all.
    split_and!; [by apply layout_log|done|done|done].
Qed.

Lemma rewind_ok im w d e :
  layout im [] w d ->
  exists w' d', db_rewind (DbSt w d e) = Ret tt (DbSt w' d' e) /\
    layout im [] w' d' /\ at_pos im 0 w' d' /\ view w' = view w /\ same_handle d d'.
Proof.
  intros L. unfold db_rewind. steps. rewrite (lay_nhash _ _ _ _ _ _ L). cbv zeta.
  destruct (lseek_ok w (idxfd d) pi _ ((NHASH_DEF + 1) * PTR_SZ + 1) SEEK_SET 0 (lay_idx _ _ _ _ _ _ L))
    as (w1 & E1 & V1 & P1 & _); [done|done|]. simpl in P1. sysstep E1. step.
  eexists w1, _. split; [done|]. split_and!; [|split|done|done]; [|lia|done].
  by eapply layout_view; [apply V1| |apply L].
Qed.

Lemma drain_ok im fuel w d e n :
  layout im [] w d -> at_pos im n w d -> (length (visible (drop n (i_slots im))) < fuel)%nat ->
  exists w' d', drain fuel (DbSt w d e) = Ret (visible (drop n (i_slots im))) (DbSt w' d' e) /\
    layout im [] w' d' /\ files w' = files w.
Proof.
  revert w d n. induction fuel as [|fuel IH]; intros w d n L Hp Hf; [lia|]. simpl.
  destruct (nextrec_ok im w d e n L Hp) as (w1 & d1 & n1 & E1 & L1 & P1 & V1 & Hv). run E1.
  destruct (visible (drop n (i_slots im))) as [|kv l]; simpl in *; [by eauto|].
  destruct (IH w1 d1 n1 L1 P1) as (w2 & d2 & E2 & L2 & F2); [rewrite Hv; lia|].
  run E2. rewrite Hv. exists w2, d2. split_and!; [done|done|congruence].
Qed.

(** ** The visible records are those of the map *)

Lemma slot_member im fl chains i sl :
  inv im fl [] chains -> i_slots im !! i = Some sl ->
  i ∈ fl \/ exists h c, chains !! h = Some c /\ i ∈ c.
Proof.
  intros I Hi. assert (Hin : i ∈ fl ++ [] ++ concat chains).
  { rewrite (inv_part _ _ _ _ I). apply elem_of_seq. apply lookup_lt_Some in Hi. lia. }
  apply elem_of_app in Hin as [?|Hin]; [by left|right].
  apply list_elem_of_In, in_concat in Hin as (c & Hc & Hi').
  apply list_elem_of_In, list_elem_of_lookup in Hc as [h Hh]. exists h, c.
  split; [done|]. by apply list_elem_of_In.
Qed.

Lemma visible_member im fl chains i sl :
  inv im fl [] chains -> i_slots im !! i = Some sl -> blankb (s_key sl) = false ->
  exists h c, chains !! h = Some c /\ i ∈ c.
Proof.
  intros I Hi Hb. destruct (slot_member _ _ _ _ _ I Hi) as [Hf|?]; [|done].
  pose proof (inv_blank _ _ _ _ I i sl Hf Hi) as Hk. unfold blank_key in Hk.
  rewrite Hk, blankb_replicate in Hb. done.
Qed.

(** No two visible records have the same key. *)
Lemma visible_keys im fl chains i j si sj :
  inv im fl [] chains -> i_slots im !! i = Some si -> i_slots im !! j = Some sj ->
  blankb (s_key si) = false -> s_key si = s_key sj -> i = j.
Proof.
  intros I Hi Hj Hb Hk.
  destruct (visible_member _ _ _ _ _ I Hi Hb) as (h & c & Hh & Hic).
  destruct (visible_member _ _ _ _ _ I Hj) as (h' & c' & Hh' & Hjc); [congruence|].
  pose proof (inv_hash _ _ _ _ I _ _ _ _ Hh Hic Hi). pose proof (inv_hash _ _ _ _ I _ _ _ _ Hh' Hjc Hj).
  assert (h = h') as <- by (apply Nat2Z.inj; congruence). simplify_eq.
  by eapply (inv_uniq _ _ _ _ I).
Qed.

Lemma visible_nodup l :
  (forall i j (si sj : slot), l !! i = Some si -> l !! j = Some sj ->
     blankb (s_key si) = false -> s_key si = s_key sj -> i = j) -> NoDup (visible l).
Proof.
  induction l as [|sl l IH]; intros H; simpl; [constructor|].
  assert (IH' : NoDup (visible l)).
  { apply IH. intros i j si sj Hi Hj ? ?. enough (S i = S j) by lia. by apply (H (S i) (S j) si sj). }
  destruct (blankb (s_key sl)) eqn:Eb; [done|]. constructor; [|done].
  rewrite elem_visible. intros (x & Hx & _ & Ekd). unfold kd in Ekd. injection Ekd as Ek _.
  apply list_elem_of_lookup in Hx as [j Hj]. specialize (H 0%nat (S j) sl x eq_refl Hj Eb (eq_sym Ek)). done.
Qed.

Definition visible_map (m : kvmap) : kvmap := filter (fun kv => blankb kv.1 = false) m.

Lemma visible_holds im fl chains m :
  inv im fl [] chains -> holds im chains m -> visible (i_slots im) ≡ₚ map_to_list (visible_map m).
Proof.
  intros I Hm. apply NoDup_Permutation; [|apply NoDup_map_to_list|].
  { apply visible_nodup. intros. by eapply visible_keys. }
  intros [k v]. unfold visible_map. rewrite elem_visible, elem_of_map_to_list, map_lookup_filter_Some.
  simpl. split.
  - intros (sl & [i Hi]%list_elem_of_lookup & Hb & [= <- <-]). split; [|done].
    destruct (visible_member _ _ _ _ _ I Hi Hb) as (h & c & Hh & Hic). apply Hm. eauto 10.
  - intros [(h & c & i & sl & Hh & Hic & Hi & <- & <-)%Hm Hb]. exists sl.
    split_and!; [by eapply list_elem_of_lookup_2|done|done].
Qed.

Lemma rewind_drain_ok w d e m fuel :
  db_rep pi pd w d m -> (size m < fuel)%nat ->
  exists w' d' l, (db_rewind ;; drain fuel) (DbSt w d e) = Ret l (DbSt w' d' e) /\
    l ≡ₚ map_to_list (visible_map m) /\ db_rep pi pd w' d' m /\ files w' = files w.
Proof.
  intros (im & fl & chains & L & I & Hm) Hf.
  pose proof (visible_holds _ _ _ _ I Hm) as Hv.
  destruct (rewind_ok im w d e L) as (w1 & d1 & E1 & L1 & P1 & V1 & _). run E1.
  destruct (drain_ok im fuel w1 d1 e 0 L1 P1) as (w2 & d2 & E2 & L2 & F2).
  { rewrite drop_0, Hv, length_map_to_list. eapply Nat.le_lt_trans; [|done].
    apply map_subseteq_size, map_filter_subseteq. }
  rewrite E2, drop_0. eexists w2, d2, _. split_and!; [done|done| |].
  - exists im, fl, chains. by split_and!.
  - unfold view in V1. injection V1 as V1 _ _. congruence.
Qed.
End Iter.
