(* ===== verification/DbOpen.v ===== *)
(** Opening and closing a database: [db_open] and [db_close] of
    [src/apue2e/db/db.c]. *)
From S2P Require Import Prelude CStr FileIO Db DbLayout DbPrim DbChain DbOps DbSpec DbIter.

(** ** The calls *)

Section Open.
Context `{K : Kernel}.

Lemma open_cases p fl w :
  sys_open p fl w = (-1, w) \/
  exists f c, sys_open p fl w = (lowest_fd (fds w),
      World (<[p := c]> (files w)) (<[lowest_fd (fds w) := f]> (fds w)) (events w)) /\
    of_path f = p /\ of_pos f = 0.
Proof.
  unfold sys_open. destruct (k_may_open p fl); simpl; [|by left].
  destruct (files w !! p); repeat case_match; first [by left|right; do 2 eexists; split; [done|done]].
Qed.

Lemma close_opened w fs f evs :
  (sys_close (lowest_fd (fds w)) (World fs (<[lowest_fd (fds w) := f]> (fds w)) evs)).2 =
  World fs (fds w) (EvLock (lowest_fd (fds w)) F_UNLCK 0 0 :: evs).
Proof.
  destruct (lowest_fd_free (fds w)) as [H _]. unfold sys_close. simpl. rewrite lookup_insert_eq. simpl.
  unfold log_event, set_fds. simpl. by rewrite delete_insert_id.
Qed.

Definition idx_path (pathname : list Z) : list Z := cstr pathname ++ bytes ".idx".
Definition dat_path (pathname : list Z) : list Z := cstr pathname ++ bytes ".dat".

Lemma paths_ne p : idx_path p <> dat_path p.
Proof. unfold idx_path, dat_path. intros E%app_inv_head. done. Qed.

(** The handle [db_open] makes when both files are open. *)
Definition fresh_handle (pathname : list Z) (fd1 fd2 : Z) : DB :=
  MkDB fd1 fd2 (malloc_bytes (IDXLEN_MAX + 2)) (malloc_bytes (DATLEN_MAX + 2))
    (cstr pathname ++ bytes ".dat" ++ [0]) 0 0 0 0 0 0 0 HASH_OFF NHASH_DEF 0 0 0 0 0 0 0 0 0 0.

Definition mallocs (len : Z) : bool :=
  k_malloc sizeof_DB && k_malloc (len + 5) && k_malloc (IDXLEN_MAX + 2) && k_malloc (DATLEN_MAX + 2).

Definition open_body (oflag : Z) : M dbst unit :=
  (if Z.land oflag (Z.lor O_CREAT O_TRUNC) =? Z.lor O_CREAT O_TRUNC
   then init_index else mret tt) ;; db_rewind.

Lemma name_path p ext : nonul ext -> cstr (cstr p ++ ext ++ [0]) = cstr p ++ ext.
Proof.
  intros He. rewrite app_assoc. rewrite cstr_app; [done|].
  apply Forall_app. split; [apply cstr_nonul|done].
Qed.

Lemma wsys_run {A} (f : world -> A * world) w a w' : f w = (a, w') -> wsys f w = Ret a w'.
Proof. unfold wsys. by intros ->. Qed.

Lemma alloc_run len w :
  mallocs len = true ->
  _db_alloc len w = Ret (MkDB (-1) (-1) (malloc_bytes (IDXLEN_MAX + 2)) (malloc_bytes (DATLEN_MAX + 2))
    (malloc_bytes (len + 5)) 0 0 0 0 0 0 0 0 0 0 0 0 0 0 0 0 0 0 0) w.
Proof.
  unfold mallocs. intros [[[M1 M2]%andb_prop M3]%andb_prop M4]%andb_prop.
  unfold _db_alloc. rewrite M1, M2, M3, M4. done.
Qed.

Lemma open_run pathname oflag w fd1 w1 fd2 w2 :
  mallocs (Z.of_nat (length (cstr pathname))) = true ->
  sys_open (idx_path pathname) oflag w = (fd1, w1) ->
  sys_open (dat_path pathname) oflag w1 = (fd2, w2) ->
  db_open pathname oflag w =
    let db := fresh_handle pathname fd1 fd2 in
    if (fd1 <? 0) || (fd2 <? 0) then (_db_free db ;; mret None) w2
    else (r ← run_db db (open_body oflag); mret (Some r.2)) w2.
Proof.
  intros Hm E1 E2. unfold db_open. run (alloc_run _ w Hm). cbn [name set_name].
  rewrite !name_path by (repeat constructor; done). fold (idx_path pathname) (dat_path pathname).
  run (wsys_run _ _ _ _ E1). run (wsys_run _ _ _ _ E2). by case_match.
Qed.

(** When [db_open] fails it leaves no descriptor open. *)
Lemma open_fail_fds pathname oflag w w' :
  mallocs (Z.of_nat (length (cstr pathname))) = true ->
  db_open pathname oflag w = Ret None w' -> fds w' = fds w.
Proof.
  intros Hm. destruct (lowest_fd_free (fds w)) as [Hn Hp].
  destruct (open_cases (idx_path pathname) oflag w) as [E1|(f1 & c1 & E1 & _)].
  all: match type of E1 with _ = (_, ?w1) =>
         destruct (open_cases (dat_path pathname) oflag w1) as [E2|(f2 & c2 & E2 & _)] end.
  all: rewrite (open_run _ _ _ _ _ _ _ Hm E1 E2); cbv zeta.
  all: unfold _db_free, mbind, M_bind, modify, mret, M_ret; cbn [fresh_handle idxfd datfd fds].
  - change (-1 <? 0) with true. simpl. intros H. by injection H as <-.
  - change (-1 <? 0) with true. simpl. bfalse (0 <=? -1). btrue (0 <=? lowest_fd (fds w)).
    rewrite close_opened. intros H. by injection H as <-.
  - bfalse (lowest_fd (fds w) <? 0). change (-1 <? 0) with true. simpl.
    btrue (0 <=? lowest_fd (fds w)). bfalse (0 <=? -1). rewrite close_opened. intros H. by injection H as <-.
  - destruct (lowest_fd_free (<[lowest_fd (fds w):=f1]> (fds w))) as [_ Hp2].
    bfalse (lowest_fd (fds w) <? 0). bfalse (lowest_fd (<[lowest_fd (fds w):=f1]> (fds w)) <? 0). simpl.
    case_match; done.
Qed.
End Open.

(** ** Creating a database *)

(** Permissions, memory and room enough to create or open the database. *)
Record can_open `{Kernel} (pathname : list Z) (oflag : Z) : Prop := {
  co_mem : mallocs (Z.of_nat (length (cstr pathname))) = true;
  co_idx : k_may_open (idx_path pathname) oflag = true;
  co_dat : k_may_open (dat_path pathname) oflag = true;
  co_size : HEAD < k_fsize
}.

Definition empty_image : image := Image 0 (replicate (Z.to_nat NHASH_DEF) 0) [].

Lemma empty_wf : wf_image empty_image.
Proof.
  constructor; try done. by apply Forall_replicate.
Qed.

Lemma empty_inv : inv empty_image [] [] (replicate (Z.to_nat NHASH_DEF) []).
Proof.
  assert (Hc : forall h (c : list nat), replicate (Z.to_nat NHASH_DEF) [] !! h = Some c -> c = []).
  { intros h c [? _]%lookup_replicate. done. }
  assert (Hh : forall h (c : list nat), replicate (Z.to_nat NHASH_DEF) [] !! h = Some c ->
                (h < Z.to_nat NHASH_DEF)%nat) by (by intros h c [_ ?]%lookup_replicate).
  constructor; try done.
  - apply empty_wf.
  - exists 0. done.
  - intros h c H. rewrite (Hc h c H). exists 0. split; [|done].
    change (i_hash empty_image !! h = Some 0). unfold empty_image. apply lookup_replicate.
    split; [done|]. by eapply Hh.
Qed.

Lemma empty_holds : holds empty_image (replicate (Z.to_nat NHASH_DEF) []) ∅.
Proof.
  intros k v. rewrite lookup_empty. split; [done|].
  intros (h & c & i & sl & _ & _ & Hi & _). done.
Qed.

Lemma hash_init_image : hash_init = idx_image empty_image.
Proof. vm_compute. reflexivity. Qed.

Lemma has_opened `{Kernel} w p fl c :
  fds w !! p = Some fl -> of_rd fl = true -> of_wr fl = true -> files w !! of_path fl = Some c ->
  has_file w p (of_path fl) c.
Proof. intros H1 H2 H3 H4. split; [|done]. rewrite lookup_fmap, H1. simpl. unfold strip. by rewrite H2, H3. Qed.

Section Create.
Context `{K : Kernel} (G : Granting K).

Lemma init_index_ok pi pd w d e :
  has_file w (idxfd d) pi [] -> has_file w (datfd d) pd [] -> pi <> pd -> pos_of w (idxfd d) = Some 0 ->
  nhash d = NHASH_DEF -> hashoff d = HASH_OFF -> HEAD < k_fsize ->
  exists w', init_index (DbSt w d e) = Ret tt (DbSt w' d e) /\ layout pi pd empty_image [] w' d.
Proof.
  intros H1 H2 Hne Hpos Hn Hh Hsz. unfold init_index. step.
  sysstep (lock_ok w (idxfd d) pi _ F_SETLKW F_WRLCK 0 0 H1 (grant _ _ _)). set (w1 := log_event _ w). steps.
  assert (H11 : has_file w1 (idxfd d) pi []) by (by apply has_file_log).
  destruct (file_of_has _ _ _ _ H11) as (q & Hfo & _).
  assert (Es : sys_fsize (idxfd d) w1 = 0) by (unfold sys_fsize; by rewrite Hfo).
  assert (Es' : (fun w => (sys_fsize (idxfd d) w, w)) w1 = (0, w1)) by (by rewrite Es).
  sysstep Es'. change (0 <? 0) with false. cbv iota. rewrite run_ret. change (0 =? 0) with true. cbv iota.
  assert (HL : Z.of_nat (length hash_init) = HEAD) by (vm_compute; done).
  destruct (write_ok w1 (idxfd d) pi [] hash_init 0 H11 Hpos) as (w2 & E2 & W2 & _); [done|lia|unfold HEAD in *; lia|].
  assert (ER : (n ← sys (sys_write (idxfd d) hash_init);
      dump_if (negb (n =? Z.of_nat (length hash_init))) "db_open: index file init write error") (DbSt w1 d e)
      = Ret tt (DbSt w2 d e)).
  { sysstep E2. apply dump_ok. by rewrite Z.eqb_refl. }
  run ER. pose proof (has_file_wrote _ _ _ _ _ _ _ _ W2 H11) as H12.
  pose proof (has_file_wrote_ne _ _ _ _ _ _ _ _ _ _ W2 Hne (has_file_log _ _ _ _ _ H2)) as H22.
  rewrite (write_at_end [] hash_init : write_at [] (Z.to_nat 0) hash_init = _) in H12.
  sysstep (lock_ok w2 (idxfd d) pi _ F_SETLK F_UNLCK 0 0 H12 (grant _ _ _)).
  eexists. split; [done|]. rewrite hash_init_image in *.
  change HEAD with 829 in *.
  constructor; try done; [apply empty_wf|lia|change (0 <= k_fsize); lia].
Qed.

(** An [open] for reading and writing that succeeds. *)
Lemma open_rdwr_ok p oflag w :
  k_may_open p oflag = true -> Z.land oflag O_ACCMODE = O_RDWR -> has_flag oflag O_EXCL = false ->
  (has_flag oflag O_CREAT = true \/ is_Some (files w !! p)) ->
  exists c w', sys_open p oflag w = (lowest_fd (fds w), w') /\
    c = (if has_flag oflag O_TRUNC then [] else default [] (files w !! p)) /\
    has_file w' (lowest_fd (fds w)) p c /\ pos_of w' (lowest_fd (fds w)) = Some 0 /\
    events w' = events w /\
    (forall fd q c', q <> p -> has_file w fd q c' -> has_file w' fd q c' /\ pos_of w' fd = pos_of w fd) /\
    (forall q, q <> p -> files w' !! q = files w !! q).
Proof.
  intros Hm Ha He Hc. unfold sys_open. rewrite Hm, Ha, He, andb_false_r. simpl negb. cbv iota.
  set (fd := lowest_fd (fds w)). destruct (lowest_fd_free (fds w)) as [Hn _]. fold fd in Hn.
  assert (Hfr : forall x c', forall fd' q c2, q <> p -> has_file w fd' q c2 ->
     let w' := World (<[p := c']> (files w)) (<[fd := x]> (fds w)) (events w) in
     has_file w' fd' q c2 /\ pos_of w' fd' = pos_of w fd').
  { intros x c' fd' q c2 Hq [H1 H2]. assert (fd' <> fd).
    { intros ->. rewrite lookup_fmap, Hn in H1. done. }
    unfold has_file, pos_of. simpl. rewrite fmap_insert, !lookup_insert_ne by done. done. }
  destruct (files w !! p) as [c|] eqn:Ep.
  2: destruct Hc as [Hc|[? Hc]]; [rewrite Hc|done].
  all: eexists _, _; split; [done|]; split; [reflexivity|].
  all: split; [unfold has_file; simpl; rewrite fmap_insert, !lookup_insert_eq; split; [done|by case_match]|].
  all: split; [unfold pos_of; simpl; by rewrite lookup_insert_eq|split; [done|]].
  all: split; [intros; by apply Hfr|intros; simpl; by rewrite lookup_insert_ne].
Qed.

Lemma open_both pathname oflag w :
  can_open pathname oflag -> Z.land oflag O_ACCMODE = O_RDWR -> has_flag oflag O_EXCL = false ->
  (has_flag oflag O_CREAT = true \/ is_Some (files w !! idx_path pathname)) ->
  (has_flag oflag O_CREAT = true \/ is_Some (files w !! dat_path pathname)) ->
  exists fd1 fd2 w1 w2 c1 c2,
    sys_open (idx_path pathname) oflag w = (fd1, w1) /\
    sys_open (dat_path pathname) oflag w1 = (fd2, w2) /\
    c1 = (if has_flag oflag O_TRUNC then [] else default [] (files w !! idx_path pathname)) /\
    c2 = (if has_flag oflag O_TRUNC then [] else default [] (files w !! dat_path pathname)) /\
    has_file w2 fd1 (idx_path pathname) c1 /\ has_file w2 fd2 (dat_path pathname) c2 /\
    pos_of w2 fd1 = Some 0 /\ 0 <= fd1 /\ 0 <= fd2 /\
    (has_flag oflag O_TRUNC = false ->
     is_Some (files w !! idx_path pathname) /\ is_Some (files w !! dat_path pathname) -> files w2 = files w).
Proof.
  intros [Hm Hi Hd Hs] Ha He Hc1 Hc2. pose proof (paths_ne pathname) as Hne.
  destruct (open_rdwr_ok (idx_path pathname) oflag w) as (c1 & w1 & E1 & Ec1 & F1 & P1 & _ & _ & Ho1); try done.
  rewrite <- (Ho1 (dat_path pathname)) in Hc2 by done.
  destruct (open_rdwr_ok (dat_path pathname) oflag w1) as (c2 & w2 & E2 & Ec2 & F2 & _ & _ & Hk2 & Ho2); try done.
  destruct (Hk2 _ _ _ Hne F1) as [F12 P12].
  exists (lowest_fd (fds w)), (lowest_fd (fds w1)), w1, w2, c1, c2.
  rewrite Ho1 in Ec2 by done. split_and!; try done; try apply lowest_fd_free; [congruence|].
  intros Ht [[x Hx] [y Hy]]. rewrite Ht, Hx in Ec1. rewrite Ht, Hy in Ec2. simpl in *. subst.
  apply map_eq. intros q. destruct (decide (q = dat_path pathname)) as [->|Hq2].
  { rewrite Hy. apply F2. }
  rewrite Ho2 by done. destruct (decide (q = idx_path pathname)) as [->|Hq1].
  - rewrite Hx. apply F1.
  - by apply Ho1.
Qed.

(** [db_open(path, O_RDWR | O_CREAT | O_TRUNC, mode)]: an empty database. *)
Definition create_flags : Z := Z.lor O_RDWR (Z.lor O_CREAT O_TRUNC).

Lemma open_create_ok pathname w :
  can_open pathname create_flags ->
  exists d w', db_open pathname create_flags w = Ret (Some d) w' /\
    db_rep (idx_path pathname) (dat_path pathname) w' d ∅ /\
    flen w' (idx_path pathname) = HEAD /\ flen w' (dat_path pathname) = 0.
Proof.
  intros C. destruct (open_both pathname create_flags w C) as (fd1 & fd2 & w1 & w2 & c1 & c2 & E1 & E2 & Hc1 & Hc2
    & F1 & F2 & P1 & Hf1 & Hf2 & _); [done|done|by left|by left|].
  destruct C as [Hm Hi Hd Hs]. change (has_flag create_flags O_TRUNC) with true in *. simpl in Hc1, Hc2. subst.
  rewrite (open_run _ _ _ _ _ _ _ Hm E1 E2). cbv zeta. bfalse (fd1 <? 0). bfalse (fd2 <? 0). simpl.
  destruct (init_index_ok _ _ w2 (fresh_handle pathname fd1 fd2) 0 F1 F2 (paths_ne _)) as (w3 & E3 & L3); try done.
  destruct (rewind_ok _ _ _ _ _ 0 L3) as (w4 & d4 & E4 & L4 & _).
  assert (ER : run_db (fresh_handle pathname fd1 fd2) (open_body create_flags) w2 = Ret (tt, d4) w4).
  { unfold run_db, open_body. change (_ =? _) with true. cbv iota. run E3. by rewrite E4. }
  run ER. exists d4, w4. split; [done|]. split.
  - exists empty_image, [], (replicate (Z.to_nat NHASH_DEF) []).
    split_and!; [done|apply empty_inv|apply empty_holds].
  - destruct (layout_flen _ _ _ _ _ L4) as [-> ->]. rewrite <- hash_init_image. vm_compute. done.
Qed.

(** [db_open(path, O_RDWR, mode)] of an existing database. *)
Lemma open_existing_ok pathname w im fl chains m :
  can_open pathname O_RDWR -> wf_image im -> inv im fl [] chains -> holds im chains m ->
  files w !! idx_path pathname = Some (idx_image im) -> files w !! dat_path pathname = Some (dat_image im) ->
  Z.of_nat (length (idx_image im)) <= k_fsize -> Z.of_nat (length (dat_image im)) <= k_fsize ->
  exists d w', db_open pathname O_RDWR w = Ret (Some d) w' /\
    db_rep (idx_path pathname) (dat_path pathname) w' d m /\ files w' = files w.
Proof.
  intros C Wf I Hm Hx Hy Hz1 Hz2.
  destruct (open_both pathname O_RDWR w C) as (fd1 & fd2 & w1 & w2 & c1 & c2 & E1 & E2 & Hc1 & Hc2
    & F1 & F2 & P1 & Hf1 & Hf2 & Hfs); [done|done|by right|by right|].
  destruct C as [Hmem Hi Hd Hs]. change (has_flag O_RDWR O_TRUNC) with false in *.
  rewrite Hx, Hy in *. simpl in Hc1, Hc2. subst.
  rewrite (open_run _ _ _ _ _ _ _ Hmem E1 E2). cbv zeta. bfalse (fd1 <? 0). bfalse (fd2 <? 0). simpl.
  set (d := fresh_handle pathname fd1 fd2).
  assert (L : layout (idx_path pathname) (dat_path pathname) im [] w2 d).
  { constructor; rewrite ?app_nil_r; try done. apply paths_ne. }
  destruct (rewind_ok _ _ _ _ _ 0 L) as (w4 & d4 & E4 & L4 & _ & V4 & _).
  assert (ER : run_db d (open_body O_RDWR) w2 = Ret (tt, d4) w4).
  { unfold run_db, open_body. change (_ =? _) with false. cbv iota. rewrite run_ret. by rewrite E4. }
  run ER. exists d4, w4. split; [done|]. split; [exists im, fl, chains; by split_and!|].
  unfold view in V4. injection V4 as -> _ _. by apply Hfs.
Qed.

Lemma close_files d w : exists w', db_close d w = Ret tt w' /\ files w' = files w.
Proof.
  unfold db_close, _db_free, mbind, M_bind, modify. eexists. split; [done|].
  unfold sys_close. repeat case_match; done.
Qed.

(** Closing a database and opening it again gives the same map. *)
Lemma reopen_ok pathname w d m :
  can_open pathname O_RDWR -> db_rep (idx_path pathname) (dat_path pathname) w d m ->
  exists d' w1 w2, db_close d w = Ret tt w1 /\ db_open pathname O_RDWR w1 = Ret (Some d') w2 /\
    db_rep (idx_path pathname) (dat_path pathname) w2 d' m /\ files w2 = files w.
Proof.
  intros C (im & fl & chains & L & I & Hm). destruct (close_files d w) as (w1 & E1 & F1).
  pose proof (lay_idx _ _ _ _ _ _ L) as [_ H1]. pose proof (lay_dat _ _ _ _ _ _ L) as [_ H2].
  pose proof (lay_isz _ _ _ _ _ _ L). pose proof (lay_dsz _ _ _ _ _ _ L). rewrite app_nil_r in *.
  destruct (open_existing_ok pathname w1 im fl chains m) as (d' & w2 & E2 & R2 & F2); try done.
  - apply I.
  - by rewrite F1.
  - by rewrite F1.
  - exists d', w1, w2. split_and!; try done. congruence.
Qed.
End Create.
