(* ===== verification/DbClient.v ===== *)
(** The database as its clients see it: an interface [KVStore], the library of
    [src/apue2e/db/db.c] as an instance of it, and what a client that only knows
    the interface can rely on (any sequence of calls, the program
    [src/apue2e/db/t4.c]). *)
From S2P Require Import Prelude CStr FileIO Db DbLayout DbPrim DbChain DbOps DbSpec DbIter DbOpen.

(** ** The interface *)

(** [kv_rep n s m]: the open database of the process [s] holds the map [m] and has
    room for [n] more stores.  [kv_removal]: whether calls that remove a record have a meaning. *)
Class KVStore (S : Type) := {
  kv_fetch : list Z -> M S (option (list Z));
  kv_store : list Z -> list Z -> Z -> M S Z;
  kv_delete : list Z -> M S Z;
  kv_rep : nat -> S -> kvmap -> Prop;
  kv_removal : bool;
  kv_fetch_ok : forall n s m key, kv_rep n s m ->
    exists s', kv_fetch key s = Ret (m !! cstr key) s' /\ kv_rep n s' m;
  kv_store_ok : forall n s m key data flag, kv_rep (Datatypes.S n) s m ->
    flag_ok flag -> valid_key (cstr key) -> valid_data (cstr data) ->
    kv_removal = true \/ store_removes m (cstr key) (cstr data) flag = false ->
    exists s', kv_store key data flag s = Ret (store_spec m (cstr key) (cstr data) flag).1 s' /\
      kv_rep n s' (store_spec m (cstr key) (cstr data) flag).2;
  kv_delete_ok : forall n s m key, kv_rep n s m -> kv_removal = true \/ delete_removes m (cstr key) = false ->
    exists s', kv_delete key s = Ret (delete_spec m (cstr key)).1 s' /\
      kv_rep n s' (delete_spec m (cstr key)).2;
  kv_store_undefined : forall n s m key data flag, kv_rep n s m -> flag_ok flag -> valid_data (cstr data) ->
    kv_removal = false -> store_removes m (cstr key) (cstr data) flag = true ->
    exists s', kv_store key data flag s = Exit (Undefined "sprintf of idxbuf into itself") s';
  kv_delete_undefined : forall n s m key, kv_rep n s m -> kv_removal = false -> delete_removes m (cstr key) = true ->
    exists s', kv_delete key s = Exit (Undefined "sprintf of idxbuf into itself") s'
}.

(** ** Clients *)

Inductive call :=
  | CFetch (key : list Z)
  | CStore (key data : list Z) (flag : Z)
  | CDelete (key : list Z).
Inductive answer := ABytes (r : option (list Z)) | AInt (r : Z).

Definition valid_call (c : call) : Prop :=
  match c with
  | CStore key data flag => flag_ok flag /\ valid_key (cstr key) /\ valid_data (cstr data)
  | _ => True
  end.

Fixpoint stores (cs : list call) : nat :=
  match cs with
  | [] => 0
  | CStore _ _ _ :: cs' => S (stores cs')
  | _ :: cs' => stores cs'
  end.

(** What the calls do to the map. *)
Definition call_spec (c : call) (m : kvmap) : answer * kvmap :=
  match c with
  | CFetch key => (ABytes (m !! cstr key), m)
  | CStore key data flag =>
      let r := store_spec m (cstr key) (cstr data) flag in (AInt r.1, r.2)
  | CDelete key => let r := delete_spec m (cstr key) in (AInt r.1, r.2)
  end.
Fixpoint calls_spec (cs : list call) (m : kvmap) : list answer * kvmap :=
  match cs with
  | [] => ([], m)
  | c :: cs' => let r := call_spec c m in
                let rs := calls_spec cs' r.2 in (r.1 :: rs.1, rs.2)
  end.

(** Whether a call of the sequence removes a record. *)
Definition call_removes (c : call) (m : kvmap) : bool :=
  match c with
  | CFetch _ => false
  | CStore key data flag => store_removes m (cstr key) (cstr data) flag
  | CDelete key => delete_removes m (cstr key)
  end.
Fixpoint removes (cs : list call) (m : kvmap) : bool :=
  match cs with
  | [] => false
  | c :: cs' => call_removes c m || removes cs' (call_spec c m).2
  end.

Section Client.
Context {S : Type} `{KV : KVStore S}.

Definition do_call (c : call) : M S answer :=
  match c with
  | CFetch key => r ← kv_fetch key; mret (ABytes r)
  | CStore key data flag => r ← kv_store key data flag; mret (AInt r)
  | CDelete key => r ← kv_delete key; mret (AInt r)
  end.
Fixpoint do_calls (cs : list call) : M S (list answer) :=
  match cs with
  | [] => mret []
  | c :: cs' => r ← do_call c; rs ← do_calls cs'; mret (r :: rs)
  end.

Lemma do_call_ok c n s m cs :
  kv_rep n s m -> valid_call c -> (stores (c :: cs) <= n)%nat -> kv_removal = true \/ call_removes c m = false ->
  exists s1 n1, do_call c s = Ret (call_spec c m).1 s1 /\ kv_rep n1 s1 (call_spec c m).2 /\
    (stores cs <= n1)%nat /\ (n1 - stores cs = n - stores (c :: cs))%nat.
Proof.
  intros R Hv Hn Hr. destruct c as [key|key data flag|key]; simpl in *.
  - destruct (kv_fetch_ok n s m key R) as (s1 & E1 & R1). exists s1, n. by run E1.
  - destruct n as [|n]; [lia|]. destruct Hv as (? & ? & ?).
    destruct (kv_store_ok n s m key data flag R) as (s1 & E1 & R1); try done.
    exists s1, n. run E1. split_and!; try done. lia.
  - destruct (kv_delete_ok n s m key R Hr) as (s1 & E1 & R1). exists s1, n. by run E1.
Qed.

Lemma do_calls_ok cs n s m :
  kv_rep n s m -> Forall valid_call cs -> (stores cs <= n)%nat ->
  if kv_removal || negb (removes cs m)
  then exists s', do_calls cs s = Ret (calls_spec cs m).1 s' /\ kv_rep (n - stores cs) s' (calls_spec cs m).2
  else exists s', do_calls cs s = Exit (Undefined "sprintf of idxbuf into itself") s'.
Proof.
  revert n s m. induction cs as [|c cs IH]; intros n s m R V Hn.
  { cbn [removes negb]. rewrite orb_true_r. exists s. by rewrite Nat.sub_0_r. }
  apply Forall_cons in V as [Hv V]. cbn [removes do_calls calls_spec].
  destruct (decide (kv_removal = true \/ call_removes c m = false)) as [Hr|Hr].
  - destruct (do_call_ok c n s m cs R Hv Hn Hr) as (s1 & n1 & E1 & R1 & Hn1 & En). run E1.
    specialize (IH n1 s1 _ R1 V Hn1).
    replace (kv_removal || negb (call_removes c m || removes cs (call_spec c m).2)) with (kv_removal || negb (removes cs (call_spec c m).2))
      by (destruct Hr as [-> | ->]; by rewrite ?orb_true_l, ?orb_false_l).
    destruct (kv_removal || negb (removes cs (call_spec c m).2)).
    + destruct IH as (s2 & E2 & R2). run E2. exists s2. split; [done|]. by rewrite En in R2.
    + destruct IH as (s2 & E2). exists s2. by apply bind_exit.
  - destruct kv_removal eqn:Ek; [by destruct Hr; left|]. destruct (call_removes c m) eqn:Ec; [|by destruct Hr; right]. cbn [orb negb].
    destruct c as [key|key data flag|key]; cbn [call_removes valid_call] in Ec, Hv; [done| |].
    + destruct (kv_store_undefined n s m key data flag R (proj1 Hv) (proj2 (proj2 Hv)) Ek Ec) as (s' & E). exists s'. by do 2 apply bind_exit.
    + destruct (kv_delete_undefined n s m key R Ek Ec) as (s' & E). exists s'. by do 2 apply bind_exit.
Qed.

(** Inserting a key that is not there. *)
Lemma insert_new n s m key data :
  kv_rep (Datatypes.S n) s m -> valid_key (cstr key) -> valid_data (cstr data) -> m !! cstr key = None ->
  exists s', kv_store key data DB_INSERT s = Ret 0 s' /\ kv_rep n s' (<[cstr key := cstr data]> m).
Proof.
  intros R Hk Hd Hn. destruct (kv_store_ok n s m key data DB_INSERT R) as (s' & E & R'); [by left|done|done| |].
  { right. unfold store_removes. by rewrite Hn. }
  unfold store_spec in E, R'. rewrite Hn in E, R'. by exists s'.
Qed.
End Client.

(** ** The library is an instance *)

Section Instance_.
Context `{K : Kernel} (G : Granting K) (pi pd : list Z).

Definition roomy (n : nat) (w : world) : Prop :=
  flen w pi + 1034 * Z.of_nat n <= PTR_MAX + 1034 /\
  flen w pi + 1034 * Z.of_nat n <= k_fsize /\ flen w pd + 1024 * Z.of_nat n <= k_fsize.

Definition db_kv_rep (n : nat) (s : dbst) (m : kvmap) : Prop :=
  db_rep pi pd (st_w s) (st_db s) m /\ (n = 0%nat \/ roomy n (st_w s)).

Lemma roomy_unchanged n w w' : unchanged pi pd w w' -> n = 0%nat \/ roomy n w -> n = 0%nat \/ roomy n w'.
Proof. intros [H1 H2] [?|R]; [by left|right]. unfold roomy in *. by rewrite H1, H2. Qed.

Lemma roomy_grown n w w' : grown pi pd w w' -> roomy (S n) w -> roomy n w'.
Proof. intros [H1 H2] (R1 & R2 & R3). unfold roomy. lia. Qed.

Lemma roomy_room n w : roomy (S n) w -> room pi pd w.
Proof. intros (R1 & R2 & R3). unfold room. lia. Qed.

#[global, refine] Instance db_kv : KVStore dbst := {
  kv_fetch := db_fetch;
  kv_store := db_store;
  kv_delete := db_delete;
  kv_rep := db_kv_rep;
  kv_removal := k_self_copy
}.
Proof.
  - intros n [w d e] m key [R Hr].
    destruct (fetch_ok G pi pd w d e m key R) as (w' & d' & E & R' & F). eexists. split; [done|].
    split; [done|]. eapply roomy_unchanged; [|done]. unfold unchanged, flen. simpl. by rewrite F.
  - intros n [w d e] m key data flag [R [?|Hr]] Hf Hk Hd Hself; [done|].
    destruct (store_ok G pi pd w d e m key data flag R Hf Hk Hd (roomy_room _ _ Hr) Hself)
      as (w' & d' & e' & E & R' & Gr & _). eexists. split; [done|].
    split; [done|]. right. by eapply roomy_grown.
  - intros n [w d e] m key [R Hr] Hself.
    destruct (delete_ok G pi pd w d e m key R Hself) as (w' & d' & E & R' & U). eexists. split; [done|].
    split; [done|]. by eapply roomy_unchanged.
  - intros n [w d e] m key data flag [R _]. by eapply store_overlap.
  - intros n [w d e] m key [R _]. by eapply delete_overlap.
Defined.
End Instance_.
