(* ===== verification/DbLocks.v ===== *)
(** Record locking in [src/apue2e/db/db.c]: which locks each operation takes and
    releases, and under which lock every write of the index and data files is
    made.  These are properties of every returning run, whatever the files hold
    and whatever the kernel answers, so they are proved with triples. *)
From S2P Require Import Prelude CStr FileIO Db DbLayout DbPrim.

(** ** Lock states *)

Abbreviation lockmap := (Z -> Z -> option lock_type).

Definition no_locks : lockmap := fun _ _ => None.
Definition lock_on (fd0 start len : Z) (t : lock_type) (f : lockmap) : lockmap := fun fd o =>
  if covers fd o (EvLock fd0 t start len)
  then match t with F_UNLCK => None | _ => Some t end else f fd o.

(** The locks of the process are exactly [f]. *)
Definition locks_are (f : lockmap) (w : world) : Prop := forall fd o, held_at (events w) fd o = f fd o.

(** Since the log was [base], every write was made while byte [chain] of the index
    file was write-locked, and every write of the free list pointer while byte
    [FREE_OFF] was write-locked too. *)
Fixpoint disciplined (ifd chain : Z) (base new : list event) : Prop :=
  match new with
  | [] => True
  | EvWrite fd start len :: new' =>
      held_at (new' ++ base) ifd chain = Some F_WRLCK /\
      (fd = ifd -> start = FREE_OFF -> len = PTR_SZ ->
       held_at (new' ++ base) ifd FREE_OFF = Some F_WRLCK) /\
      disciplined ifd chain base new'
  | EvLock _ _ _ _ :: new' => disciplined ifd chain base new'
  end.

Section Locks.
Context `{K : Kernel}.
(* the descriptors, the chain, and the log at the start *)
Context (ifd dfd chain : Z) (base : list event).

Record LS (f : lockmap) (s : dbst) : Prop := {
  ls_idxfd : idxfd (st_db s) = ifd;
  ls_datfd : datfd (st_db s) = dfd;
  ls_chain : chainoff (st_db s) = chain;
  ls_nhash : nhash (st_db s) = NHASH_DEF;
  ls_hashoff : hashoff (st_db s) = HASH_OFF;
  ls_locks : locks_are f (st_w s);
  ls_log : exists new, events (st_w s) = new ++ base /\ disciplined ifd chain base new
}.

(** [m] leaves the locks as they are. *)
Definition keeps {A} (f : lockmap) (m : M dbst A) : Prop := triple (LS f) m (fun _ => LS f).

Lemma keeps_bind {A B} f (m : M dbst A) (k : A -> M dbst B) :
  keeps f m -> (forall a, keeps f (k a)) -> keeps f (m ≫= k).
Proof. apply triple_bind. Qed.

Lemma keeps_ret {A} f (a : A) : keeps f (mret a).
Proof. by intros s Hs. Qed.

Lemma keeps_die {A} f e : keeps f (die e : M dbst A).
Proof. by intros s Hs. Qed.

Lemma keeps_dump f b msg : keeps f (dump_if b msg).
Proof. destruct b; by intros s Hs. Qed.

Lemma keeps_get f : keeps f get.
Proof. by intros s Hs. Qed.

Lemma keeps_field {A} f (p : DB -> A) : keeps f (field p).
Proof. by intros s Hs. Qed.

Lemma keeps_errno f e : keeps f (set_errno e).
Proof. intros s []. by constructor. Qed.

Lemma keeps_upd f g :
  (forall d, idxfd (g d) = idxfd d /\ datfd (g d) = datfd d /\ chainoff (g d) = chainoff d /\
             nhash (g d) = nhash d /\ hashoff (g d) = hashoff d) -> keeps f (upd g).
Proof.
  intros Hg s [H1 H2 H3 H4 H5 H6 H7]. destruct (Hg (st_db s)) as (E1 & E2 & E3 & E4 & E5).
  constructor; simpl; congruence || done.
Qed.

Lemma keeps_sys {A} f (g : world -> A * world) :
  (forall w, events (g w).2 = events w) -> keeps f (sys g).
Proof.
  intros Hg s [H1 H2 H3 H4 Hh H5 H6]. specialize (Hg (st_w s)). unfold sys.
  destruct (g (st_w s)) as [a w']. simpl in Hg.
  constructor; simpl; try done; unfold locks_are; rewrite Hg; done.
Qed.

Lemma lseek_events fd off wh w : events (sys_lseek fd off wh w).2 = events w.
Proof. unfold sys_lseek. repeat case_match; done. Qed.

Lemma read_events fd n w : events (sys_read fd n w).2 = events w.
Proof. unfold sys_read. repeat case_match; done. Qed.

Lemma keeps_if {A} f (b : bool) (m1 m2 : M dbst A) :
  keeps f m1 -> keeps f m2 -> keeps f (if b then m1 else m2).
Proof. by destruct b. Qed.

End Locks.

Create HintDb locks.
#[export] Hint Resolve keeps_ret keeps_die keeps_dump keeps_get keeps_field keeps_errno : locks.
#[export] Hint Resolve lseek_events read_events : locks.

(** Walk through a function body. *)
Ltac keeps := repeat first
  [ solve [auto with locks]
  | apply keeps_bind; [|intros ?]
  | apply keeps_if
  | apply keeps_sys; by auto with locks
  | apply keeps_upd; by intros []
  | progress cbv zeta
  | case_match ].

Section Functions.
Context `{K : Kernel} (ifd dfd chain : Z) (base : list event).
Abbreviation keeps := (keeps ifd dfd chain base).

Lemma readptr_keeps f o : keeps f (_db_readptr o).
Proof. unfold _db_readptr. keeps. Qed.

Lemma splitidx_keeps f : keeps f _db_splitidx.
Proof. unfold _db_splitidx. keeps. Qed.

Lemma readidx_keeps f o : keeps f (_db_readidx o).
Proof. unfold _db_readidx. keeps. Qed.

Lemma readdat_keeps f : keeps f _db_readdat.
Proof. unfold _db_readdat. keeps. Qed.

#[local] Hint Resolve readptr_keeps readidx_keeps readdat_keeps : locks.

Lemma find_loop_keeps f fuel key o : keeps f (find_loop fuel key o).
Proof. revert o. induction fuel; intros o; simpl; keeps. Qed.

Lemma findfree_loop_keeps f fuel kl dl so o : keeps f (findfree_loop fuel kl dl so o).
Proof. revert so o. induction fuel; intros so o; simpl; keeps. Qed.

Lemma nextrec_loop_keeps f fuel : keeps f (nextrec_loop fuel).
Proof. induction fuel; simpl; keeps. Qed.

(** ** Taking and releasing locks *)

Abbreviation LS := (LS ifd dfd chain base).

Lemma LS_ext f g s : (forall fd o, f fd o = g fd o) -> LS f s -> LS g s.
Proof. intros E []. constructor; try done. intros fd o. by rewrite <- E. Qed.

Lemma LS_log f s e t start len fd :
  LS f s -> e = EvLock fd t start len ->
  LS (lock_on fd start len t f) (DbSt (log_event e (st_w s)) (st_db s) (st_errno s)).
Proof.
  intros [H1 H2 H3 H4 Hh H5 (new & E & D)] ->. constructor; try done.
  - intros fd' o. simpl. unfold lock_on, covers. by rewrite H5.
  - exists (EvLock fd t start len :: new). simpl. by rewrite E.
Qed.

Lemma lock_triple f fd cmd t start len msg :
  triple (LS f) (r ← sys (lock_reg fd cmd t start SEEK_SET len); dump_if (r <? 0) msg)
    (fun _ => LS (lock_on fd start len t f)).
Proof.
  intros s Hs. unfold mbind, M_bind, sys, lock_reg.
  destruct (file_of fd (st_w s)) as [[g c]|]; [|done]. destruct (k_lock _ _ _); [|done].
  simpl. by eapply LS_log.
Qed.

(** ** Writing *)

Lemma write_triple f fd bs len msg (P : dbst -> Prop) :
  f ifd chain = Some F_WRLCK ->
  (forall s q, P s -> pos_of (st_w s) fd = Some q -> fd = ifd -> q = FREE_OFF -> len = PTR_SZ ->
     f ifd FREE_OFF = Some F_WRLCK) ->
  triple (fun s => LS f s /\ P s)
    (n ← sys (sys_write fd bs); dump_if (negb (n =? len)) msg) (fun _ => LS f).
Proof.
  intros Hc Hf [w d e] [Hs HP]. specialize (Hf (DbSt w d e)). unfold mbind, M_bind, sys, sys_write, file_of.
  unfold pos_of in Hf. simpl in *. destruct (fds w !! fd) as [g|]; [|by destruct (-1 =? len)].
  destruct (files w !! of_path g) as [c|]; [|by destruct (-1 =? len)].
  destruct (negb (of_wr g)); [by destruct (-1 =? len)|]. destruct (_ <=? 0); [by destruct (-1 =? len)|].
  set (bs' := if _ <=? _ then bs else _). destruct (Z.eqb_spec (Z.of_nat (length bs')) len) as [El|]; [|done].
  simpl. destruct Hs as [H1 H2 H3 H4 Hh H5 (new & E & D)]. simpl in *. constructor; try done. simpl.
  exists (EvWrite fd (of_pos g) (Z.of_nat (length bs')) :: new). rewrite E. split; [done|]. simpl.
  unfold locks_are in H5. rewrite <- E. rewrite !H5. split_and!; [done| |done].
  intros Ef Eq Epz. apply (Hf (of_pos g)); congruence || done.
Qed.

Lemma triple_assoc {A B C} (P : dbst -> Prop) (m : M dbst A) (k : A -> M dbst B) (j : B -> M dbst C) Q :
  triple P ((m ≫= k) ≫= j) Q -> triple P (m ≫= fun a => k a ≫= j) Q.
Proof.
  intros H s Hs. specialize (H s Hs). unfold mbind, M_bind in *. by destruct (m s).
Qed.

(** A fact that a command establishes and the state invariant. *)
Lemma seek_triple f fd off msg :
  triple (LS f) (r ← sys (sys_lseek fd off SEEK_SET); dump_if (r =? -1) msg)
    (fun _ s => LS f s /\ pos_of (st_w s) fd = Some off).
Proof.
  intros [w d e] Hs. pose proof (lseek_events fd off SEEK_SET w) as Ev. revert Ev.
  unfold mbind, M_bind, sys, sys_lseek, file_of. simpl.
  destruct (fds w !! fd) as [g|]; [|done]. destruct (files w !! of_path g) as [c|]; [|done].
  destruct (Z.ltb_spec off 0); [done|]. simpl. intros Ev.
  bfalse (off =? -1). simpl. split; [|apply pos_set_pos].
  destruct Hs. by constructor.
Qed.

Lemma writeptr_keeps f off v :
  f ifd chain = Some F_WRLCK -> (off = FREE_OFF -> f ifd FREE_OFF = Some F_WRLCK) ->
  keeps f (_db_writeptr off v).
Proof.
  intros Hc H0. unfold _db_writeptr. apply keeps_bind; [keeps|intros _].
  apply keeps_bind; [keeps|intros fd]. apply triple_assoc. eapply triple_bind; [apply seek_triple|].
  intros ?. apply write_triple; [done|]. intros s q Hq Hq' _ -> _. apply H0. congruence.
Qed.

Lemma write_keeps f fd bs len msg :
  f ifd chain = Some F_WRLCK -> fd <> ifd \/ len <> PTR_SZ ->
  keeps f (n ← sys (sys_write fd bs); dump_if (negb (n =? len)) msg).
Proof.
  intros Hc Hl. eapply triple_conseq; [apply (write_triple f fd bs len msg (fun _ => True))| |]; try done.
  intros s q _ _ ? ? ?. by destruct Hl.
Qed.

(** ** The functions that lock *)

Section Fields.
Context {A : Type} (f : lockmap) (Q : A -> dbst -> Prop).

Lemma field_triple {B} (p : DB -> B) (x : B) (k : B -> M dbst A) :
  (forall s, LS f s -> p (st_db s) = x) -> triple (LS f) (k x) Q -> triple (LS f) (field p ≫= k) Q.
Proof.
  intros Hp Hk s Hs. specialize (Hk s Hs). unfold mbind, M_bind, field. by rewrite (Hp s Hs).
Qed.

Lemma id_triple (k : DB -> M dbst A) :
  (forall db, idxfd db = ifd -> triple (LS f) (k db) Q) -> triple (LS f) (field id ≫= k) Q.
Proof. intros Hk s Hs. by apply (Hk (st_db s) (ls_idxfd _ _ _ _ _ _ Hs) s). Qed.

Lemma locked_triple fd cmd t start len msg (k : M dbst A) :
  triple (LS (lock_on fd start len t f)) k Q ->
  triple (LS f) (r ← sys (lock_reg fd cmd t start SEEK_SET len); dump_if (r <? 0) msg ;; k) Q.
Proof.
  intros H. apply triple_assoc. eapply triple_bind; [apply lock_triple|]. by intros ?.
Qed.

Lemma keeps_then {B} (m : M dbst B) (k : B -> M dbst A) :
  keeps f m -> (forall b, triple (LS f) (k b) Q) -> triple (LS f) (m ≫= k) Q.
Proof. intros Hm Hk. by eapply triple_bind. Qed.
End Fields.

(** Unlocking what was locked gives the locks of before. *)
Lemma relock f fd t start len s :
  (forall o, covers fd o (EvLock fd F_UNLCK start len) = true -> f fd o = None) ->
  LS (lock_on fd start len F_UNLCK (lock_on fd start len t f)) s -> LS f s.
Proof.
  intros Hf. apply LS_ext. intros fd' o. unfold lock_on.
  destruct (covers fd' o (EvLock fd F_UNLCK start len)) eqn:E.
  - assert (fd' = fd) as -> by (simpl in E; bsimp; done). symmetry. by apply Hf.
  - by replace (covers fd' o (EvLock fd t start len)) with false.
Qed.

Lemma unlock_triple f fd cmd t start len msg :
  (forall o, covers fd o (EvLock fd F_UNLCK start len) = true -> f fd o = None) ->
  triple (LS (lock_on fd start len t f))
    (r ← sys (lock_reg fd cmd F_UNLCK start SEEK_SET len); dump_if (r <? 0) msg) (fun _ => LS f).
Proof. intros Hf. eapply triple_conseq; [apply lock_triple|done|]. intros ? s. by apply relock. Qed.

(** The locks of an operation that has write-locked its chain. *)
Definition chain_locks (t : lock_type) : lockmap := lock_on ifd chain 1 t no_locks.
Context (Hchain : HASH_OFF <= chain < HEAD) (Hfds : dfd <> ifd).

Lemma chain_locked t : t <> F_UNLCK -> chain_locks t ifd chain = Some t.
Proof.
  intros Ht. unfold chain_locks, lock_on, covers. rewrite Z.eqb_refl. btrue (chain <=? chain).
  btrue (chain <? chain + 1). by destruct t.
Qed.

Lemma chain_locks_ne t fd o : fd <> ifd \/ o <> chain -> chain_locks t fd o = None.
Proof.
  intros Hne. unfold chain_locks, lock_on, covers, no_locks.
  destruct (Z.eqb_spec fd ifd), (Z.leb_spec chain o), (Z.ltb_spec o (chain + 1)); simpl; try done.
  exfalso. lia.
Qed.

Section Writers.
Context (f : lockmap) (Hc : f ifd chain = Some F_WRLCK).

Lemma writedat_keeps data off wh : (forall o, f dfd o = None) -> keeps f (_db_writedat data off wh).
Proof.
  intros Hd. unfold _db_writedat. apply field_triple with dfd; [by intros ? []|].
  assert (Hw : forall g bs len msg, g ifd chain = Some F_WRLCK ->
    keeps g (n ← sys (sys_write dfd bs); dump_if (negb (n =? len)) msg)) by (intros; apply write_keeps; eauto).
  destruct (decide (wh = SEEK_END)).
  - eapply triple_bind; [apply lock_triple|intros ?]. set (g := lock_on _ _ _ _ _).
    assert (Hg : g ifd chain = Some F_WRLCK).
    { unfold g, lock_on. simpl. bfalse (ifd =? dfd). done. }
    do 4 (apply keeps_then; [keeps|intros ?]). apply triple_assoc. apply keeps_then; [by apply Hw|intros ?].
    by apply unlock_triple.
  - apply keeps_bind; [keeps|intros ?]. do 4 (apply keeps_then; [keeps|intros ?]).
    apply triple_assoc. apply keeps_then; [by apply Hw|intros ?]. apply keeps_ret.
Qed.

Lemma writeidx_keeps key off wh p :
  (forall o, HEAD <= o -> f ifd o = None) -> keeps f (_db_writeidx key off wh p).
Proof.
  intros Hd. unfold _db_writeidx.
  do 5 (apply keeps_then; [keeps|intros ?]). apply keeps_then; [unfold sprintf_key; destruct key; [keeps|destruct k_self_copy; keeps]|intros ?]. do 3 (apply keeps_then; [keeps|intros ?]). cbv zeta.
  apply field_triple with ifd; [by intros ? []|]. apply field_triple with NHASH_DEF; [by intros ? []|].
  change ((NHASH_DEF + 1) * PTR_SZ + 1) with HEAD.
  destruct (decide (wh = SEEK_END)).
  - eapply triple_bind; [apply lock_triple|intros ?]. set (g := lock_on _ _ _ _ _).
    assert (Hg : g ifd chain = Some F_WRLCK).
    { unfold g, lock_on. simpl. bfalse (HEAD <=? chain). by rewrite andb_false_r. }
    do 3 (apply keeps_then; [keeps|intros ?]). apply triple_assoc.
    apply keeps_then; [apply write_keeps; [done|unfold PTR_SZ, IDXLEN_SZ; lia]|intros ?].
    apply unlock_triple. intros o Ho. apply Hd. simpl in Ho. bsimp. done.
  - apply keeps_bind; [keeps|intros ?]. do 3 (apply keeps_then; [keeps|intros ?]).
    apply triple_assoc. apply keeps_then; [apply write_keeps; [done|unfold PTR_SZ, IDXLEN_SZ; lia]|intros ?].
    apply keeps_ret.
Qed.
End Writers.

(** With the chain write-locked, and then also the free list. *)
Abbreviation cw := (chain_locks F_WRLCK).
Definition free_locks : lockmap := lock_on ifd FREE_OFF 1 F_WRLCK cw.

Lemma free_off_not_chain : FREE_OFF <> chain.
Proof. unfold HASH_OFF, PTR_SZ, FREE_OFF in *. lia. Qed.

Lemma cw_free o : covers ifd o (EvLock ifd F_UNLCK FREE_OFF 1) = true -> cw ifd o = None.
Proof.
  intros Ho. apply chain_locks_ne. right. simpl in Ho. bsimp. pose proof free_off_not_chain.
  unfold FREE_OFF in *. lia.
Qed.

Lemma free_locks_chain : free_locks ifd chain = Some F_WRLCK.
Proof.
  unfold free_locks, lock_on. destruct (covers ifd chain _) eqn:E; [done|]. by apply chain_locked.
Qed.

Lemma free_locks_free : free_locks ifd FREE_OFF = Some F_WRLCK.
Proof. unfold free_locks, lock_on. simpl. rewrite Z.eqb_refl. done. Qed.

Lemma free_locks_ne fd o : fd <> ifd \/ HEAD <= o -> free_locks fd o = None.
Proof.
  intros Hne. unfold free_locks, lock_on. change HEAD with 829 in *. destruct (covers fd o _) eqn:E.
  - exfalso. simpl in E. unfold FREE_OFF in E. bsimp. lia.
  - apply chain_locks_ne. lia.
Qed.

Lemma cw_writers :
  cw ifd chain = Some F_WRLCK /\ (forall o, cw dfd o = None) /\ (forall o, HEAD <= o -> cw ifd o = None).
Proof.
  split_and!; [by apply chain_locked|intros; apply chain_locks_ne; by left|].
  intros; apply chain_locks_ne. right. lia.
Qed.

#[local] Hint Resolve find_loop_keeps findfree_loop_keeps nextrec_loop_keeps : locks.

Lemma findfree_keeps kl dl : keeps cw (_db_findfree kl dl).
Proof.
  unfold _db_findfree. apply field_triple with ifd; [by intros ? []|]. apply locked_triple. fold free_locks.
  do 3 (apply keeps_then; [keeps|intros ?]).
  apply keeps_then.
  { apply keeps_if; [keeps|]. apply keeps_bind; [keeps|intros ?]. apply keeps_bind; [|intros ?; keeps].
    apply writeptr_keeps; intros; [apply free_locks_chain|apply free_locks_free]. }
  intros rc. apply triple_assoc. eapply triple_bind; [apply unlock_triple, cw_free|]. intros ?. apply keeps_ret.
Qed.

Lemma dodelete_keeps : keeps cw _db_dodelete.
Proof.
  assert (Hwp : forall o v, keeps free_locks (_db_writeptr o v)).
  { intros. apply writeptr_keeps; intros; [apply free_locks_chain|apply free_locks_free]. }
  assert (Hwd : forall a b c, keeps free_locks (_db_writedat a b c)).
  { intros. apply writedat_keeps; [apply free_locks_chain|]. intros; apply free_locks_ne. by left. }
  assert (Hwi : forall a b c e, keeps free_locks (_db_writeidx a b c e)).
  { intros. apply writeidx_keeps; [apply free_locks_chain|]. intros; apply free_locks_ne. by right. }
  unfold _db_dodelete. apply id_triple. intros db ->.
  do 2 (apply keeps_then; [keeps|intros ?]). apply locked_triple. fold free_locks.
  do 11 (apply keeps_then; [solve [auto with locks|keeps]|intros ?]). apply unlock_triple, cw_free.
Qed.

Lemma append_keeps key data c p : c <> FREE_OFF -> keeps cw (append_record key data c p).
Proof.
  intros Hne. destruct cw_writers as (H1 & H2 & H3). unfold append_record.
  apply keeps_bind; [by apply writedat_keeps|intros ?]. apply keeps_bind; [by apply writeidx_keeps|intros ?].
  apply keeps_bind; [keeps|intros ?]. by apply writeptr_keeps.
Qed.

Lemma reuse_keeps key data c p : c <> FREE_OFF -> keeps cw (reuse_record key data c p).
Proof.
  intros Hne. destruct cw_writers as (H1 & H2 & H3). unfold reuse_record.
  apply keeps_bind; [keeps|intros ?]. apply keeps_bind; [by apply writedat_keeps|intros ?].
  apply keeps_bind; [keeps|intros ?]. apply keeps_bind; [by apply writeidx_keeps|intros ?].
  apply keeps_bind; [keeps|intros ?]. by apply writeptr_keeps.
Qed.

#[local] Hint Resolve findfree_keeps dodelete_keeps append_keeps reuse_keeps : locks.

Lemma store_new_keeps key data kl dl flag : keeps cw (store_new key data kl dl flag).
Proof.
  pose proof (not_eq_sym free_off_not_chain). unfold store_new. apply keeps_if; [keeps|].
  apply field_triple with chain; [by intros ? []|]. keeps.
Qed.

Lemma store_found_keeps key data dl flag : keeps cw (store_found key data dl flag).
Proof.
  pose proof (not_eq_sym free_off_not_chain). destruct cw_writers as (H1 & H2 & H3).
  unfold store_found. apply keeps_if; [keeps|]. apply keeps_bind; [keeps|intros ?].
  apply keeps_bind; [|intros ?; keeps]. apply keeps_if.
  - apply keeps_bind; [keeps|intros ?]. apply field_triple with chain; [by intros ? []|]. keeps.
  - apply keeps_bind; [keeps|intros ?]. apply keeps_bind; [by apply writedat_keeps|intros ?]. keeps.
Qed.

Lemma unlock_chain_triple t who :
  triple (LS (chain_locks t)) (unlock_chain who) (fun _ => LS no_locks).
Proof.
  unfold unlock_chain. apply field_triple with ifd; [by intros ? []|].
  apply field_triple with chain; [by intros ? []|]. by apply unlock_triple.
Qed.
End Functions.

(** ** The operations *)

(** An open handle of a process that holds no lock. *)
Record idle (s : dbst) : Prop := {
  idle_nhash : nhash (st_db s) = NHASH_DEF;
  idle_hashoff : hashoff (st_db s) = HASH_OFF;
  idle_fds : datfd (st_db s) <> idxfd (st_db s);
  idle_locks : locks_are no_locks (st_w s)
}.

Definition chain_of (key : list Z) : Z := hash_loop 1 0 (cstr key) mod NHASH_DEF * PTR_SZ + HASH_OFF.

Lemma chain_of_range key : HASH_OFF <= chain_of key < HEAD.
Proof.
  unfold chain_of, HASH_OFF, HEAD, PTR_SZ, NHASH_DEF.
  pose proof (Z.mod_pos_bound (hash_loop 1 0 (cstr key)) 137). lia.
Qed.

Section Operations.
Context `{K : Kernel}.

(** What holds of a returning run of an operation on [key] from the state [s]. *)
Definition locked_run {A} (key : list Z) (m : M dbst A) : Prop :=
  forall s r s', idle s -> m s = Ret r s' ->
    idle s' /\ idxfd (st_db s') = idxfd (st_db s) /\
    exists new, events (st_w s') = new ++ events (st_w s) /\
      disciplined (idxfd (st_db s)) (chain_of key) (events (st_w s)) new.

Abbreviation LSof key s := (LS (idxfd (st_db s)) (datfd (st_db s)) (chain_of key) (events (st_w s))).

Lemma LS_done {key s s'} : idle s -> LSof key s no_locks s' ->
    idle s' /\ idxfd (st_db s') = idxfd (st_db s) /\
    exists new, events (st_w s') = new ++ events (st_w s) /\
      disciplined (idxfd (st_db s)) (chain_of key) (events (st_w s)) new.
Proof. intros [? ? ? ?] []. split_and!; [constructor; congruence|done|done]. Qed.

Lemma find_and_lock_triple key wl s :
  idle s ->
  match _db_find_and_lock key wl s with
  | Ret _ s' => LSof key s (chain_locks (idxfd (st_db s)) (chain_of key) (if wl then F_WRLCK else F_RDLCK)) s'
  | Exit _ _ => True
  end.
Proof.
  intros [H1 H2 H3 H4]. destruct s as [w d e]. simpl in *. unfold _db_find_and_lock.
  do 4 step. cbn [id chainoff set_chainoff set_ptroff idxfd]. unfold _db_hash. rewrite H1, H2. fold (chain_of key).
  set (d1 := set_ptroff _ _).
  assert (L0 : LSof key (DbSt w d e) no_locks (DbSt w d1 e)).
  { constructor; try done. by exists []. }
  set (f := chain_locks _ _ _).
  lazymatch goal with |- match ?m _ with _ => _ end =>
    assert (T : triple (LSof key (DbSt w d e) no_locks) m (fun _ => LSof key (DbSt w d e) f))
  end; [|exact (T _ L0)].
  eapply triple_bind with (R := fun _ => LSof key (DbSt w d e) f).
  { destruct wl; apply lock_triple. }
  intros ?. apply keeps_bind; [apply readptr_keeps|intros ?]. apply keeps_bind; [apply keeps_get|intros ?].
  apply keeps_bind; [apply find_loop_keeps|intros ?]. apply keeps_ret.
Qed.

(** Search and lock the chain, do [body], unlock. *)
Lemma op_locked {A : Type} key (wl : bool) (body : Z -> M dbst A) who :
  (forall s (rc : Z), idle s -> keeps (idxfd (st_db s)) (datfd (st_db s)) (chain_of key) (events (st_w s))
     (chain_locks (idxfd (st_db s)) (chain_of key) (if wl then F_WRLCK else F_RDLCK)) (body rc)) ->
  locked_run key (rc ← _db_find_and_lock key wl; a ← body rc; unlock_chain who ;; mret a).
Proof.
  intros Hb s r s' Hs E. apply (LS_done Hs).
  pose proof (find_and_lock_triple key wl s Hs) as T1. specialize (Hb s).
  unfold mbind at 1, M_bind at 1 in E. destruct (_db_find_and_lock key wl s) as [rc s1|]; [|done].
  eapply (triple_run _ _ (fun _ => LSof key s no_locks) s1 r s'); [|exact T1|exact E].
  eapply triple_bind; [by apply Hb|]. intros a. eapply triple_bind; [apply unlock_chain_triple|].
  intros ?. apply keeps_ret.
Qed.

Lemma fetch_locked key : locked_run key (db_fetch key).
Proof.
  apply (op_locked key false). intros s rc _. apply keeps_if; [keeps|].
  apply keeps_bind; [apply readdat_keeps|intros ?]. keeps.
Qed.

Lemma delete_locked key : locked_run key (db_delete key).
Proof.
  apply (op_locked key true). intros s rc [? ? ? ?]. apply keeps_if; [|keeps].
  apply keeps_bind; [apply dodelete_keeps; [apply chain_of_range|done]|intros ?]. keeps.
Qed.

Lemma store_locked key data flag : locked_run key (db_store key data flag).
Proof.
  unfold db_store. destruct (negb _ && _ && _).
  { intros s r s' Hs [= <- <-]. split; [by destruct Hs|]. split; [done|]. by exists []. }
  cbv zeta. destruct (_ || _).
  { by intros s r s' Hs E. }
  unfold dump_if. intros s r s' Hs E. rewrite run_ret in E. revert s r s' Hs E.
  apply (op_locked key true). intros s rc [? ? ? ?]. pose proof (chain_of_range key).
  apply keeps_if; [by apply store_new_keeps|by apply store_found_keeps].
Qed.

Lemma nextrec_locked s r s' : idle s -> db_nextrec s = Ret r s' -> idle s'.
Proof.
  intros Hs E. set (c := chainoff (st_db s)).
  assert (L0 : LS (idxfd (st_db s)) (datfd (st_db s)) c (events (st_w s)) no_locks s).
  { destruct Hs. constructor; try done. by exists []. }
  enough (T : keeps (idxfd (st_db s)) (datfd (st_db s)) c (events (st_w s)) no_locks db_nextrec).
  { pose proof (triple_run _ _ _ _ _ _ T L0 E) as [? ? ? ? ? ? ?]. destruct Hs. constructor; congruence. }
  unfold db_nextrec. apply field_triple with (idxfd (st_db s)); [by intros ? []|]. apply locked_triple.
  apply keeps_then; [keeps|intros ?]. apply keeps_then; [apply nextrec_loop_keeps|intros more].
  apply keeps_then.
  { apply keeps_if; [|keeps]. apply keeps_bind; [keeps|intros ?].
    apply keeps_bind; [apply readdat_keeps|intros ?]. keeps. }
  intros ?. apply triple_assoc. eapply triple_bind; [by apply unlock_triple|]. intros ?. apply keeps_ret.
Qed.
End Operations.
