(* ===== verification/DbTheorems.v ===== *)
(** The theorems about the database library of [src/apue2e/db/db.c]. *)
From S2P Require Import Prelude CStr FileIO Db DbLayout DbPrim DbChain DbOps DbSpec DbIter DbOpen.
From S2P Require Import DbClient DbLocks.

(** ** A concrete kernel and database for the witnesses *)

#[export] Instance plain_granting : Granting plain_kernel.
Proof. split; [done|]. vm_compute. done. Qed.

Definition demo : list Z := bytes "demo".

Lemma demo_create : can_open demo create_flags.
Proof. by split. Qed.
Lemma demo_rdwr : can_open demo O_RDWR.
Proof. by split. Qed.

(** A new database. *)
Lemma demo_open :
  exists d w, db_open demo create_flags fs0 = Ret (Some d) w /\
    db_rep (idx_path demo) (dat_path demo) w d ∅ /\
    flen w (idx_path demo) = HEAD /\ flen w (dat_path demo) = 0.
Proof. apply open_create_ok; [apply plain_granting|apply demo_create]. Qed.

Lemma small_room w :
  flen w (idx_path demo) = HEAD -> flen w (dat_path demo) = 0 -> room (idx_path demo) (dat_path demo) w.
Proof. intros E1 E2. unfold room. rewrite E1, E2. vm_compute. done. Qed.

Ltac valid := repeat split; first
  [ by repeat constructor | by vm_compute | apply (bool_decide_unpack _); vm_compute; exact I ].

(** ** The operations *)

Section Theorems.
Context `{K : Kernel} (G : Granting K).

(** C1: whatever sequence of fetch, store and delete calls a client makes on a newly
    created database, each call returns, and returns what the same call on a finite
    map (initially empty) would; the files then hold that map.  The only limits are
    valid keys, data and flags, as many stores as six-digit file offsets and the
    largest file allow, and the meaning of [sprintf]: a call that removes a record formats [idxbuf] into itself, for which ISO C has none;
    if the C library gives it one (the text stays in place) all sequences are covered, and if not, those in which no record is removed are, and
    every other one ends in undefined behaviour. *)
Theorem db_calls_refine_map pathname w (cs : list call) :
  can_open pathname create_flags -> Forall valid_call cs ->
  HEAD + 1034 * Z.of_nat (stores cs) <= PTR_MAX + 1034 ->
  HEAD + 1034 * Z.of_nat (stores cs) <= k_fsize ->
  exists d w1, db_open pathname create_flags w = Ret (Some d) w1 /\
    forall e, if k_self_copy || negb (removes cs ∅) then
      exists s', do_calls (KV := db_kv G (idx_path pathname) (dat_path pathname)) cs (DbSt w1 d e)
        = Ret (calls_spec cs ∅).1 s' /\
      db_rep (idx_path pathname) (dat_path pathname) (st_w s') (st_db s') (calls_spec cs ∅).2
    else exists s', do_calls (KV := db_kv G (idx_path pathname) (dat_path pathname)) cs (DbSt w1 d e)
        = Exit (Undefined "sprintf of idxbuf into itself") s'.
Proof.
  intros C V H1 H2. destruct (open_create_ok G pathname w C) as (d & w1 & E & R & F1 & F2).
  exists d, w1. split; [done|]. intros e.
  pose proof (do_calls_ok (KV := db_kv G (idx_path pathname) (dat_path pathname)) cs (stores cs) (DbSt w1 d e) ∅) as H.
  change (@kv_removal _ (db_kv G (idx_path pathname) (dat_path pathname))) with k_self_copy in H.
  assert (R0 : db_kv_rep (idx_path pathname) (dat_path pathname) (stores cs) (DbSt w1 d e) ∅).
  { split; [done|]. destruct (stores cs); [by left|right]. unfold roomy. simpl st_w. rewrite F1, F2.
    change HEAD with 829 in *. lia. }
  specialize (H R0 V ltac:(done)). destruct (k_self_copy || negb (removes cs ∅)); [|done]. destruct H as (s' & E' & [R' _]). by eauto.
Qed.

(** [db_fetch] returns the data stored under the key, NULL for a key that is
    absent, and changes neither file. *)
Theorem db_fetch_correct pi pd w d e m key :
  db_rep pi pd w d m ->
  exists w' d', db_fetch key (DbSt w d e) = Ret (m !! cstr key) (DbSt w' d' e) /\
    db_rep pi pd w' d' m /\ files w' = files w.
Proof. apply fetch_ok, G. Qed.

(** C2: [db_store]: DB_INSERT of a present key returns 1 and changes nothing,
    DB_REPLACE of an absent key returns -1 with [errno] ENOENT and changes nothing;
    every other store returns 0 and makes the key map to the data, whether the
    record is appended, takes an empty record of the right size, overwrites the
    data in place or moves.  A move removes the old record, for which the code formats [idxbuf] into itself: it is as said where the C library
    leaves the text in place, and undefined behaviour, as ISO C has it, where not. *)
Theorem db_store_correct pi pd w d e m key data flag :
  db_rep pi pd w d m -> flag_ok flag -> valid_key (cstr key) -> valid_data (cstr data) -> room pi pd w ->
  if k_self_copy || negb (store_removes m (cstr key) (cstr data) flag) then
    exists w' d' e', db_store key data flag (DbSt w d e) =
        Ret (store_spec m (cstr key) (cstr data) flag).1 (DbSt w' d' e') /\
      db_rep pi pd w' d' (store_spec m (cstr key) (cstr data) flag).2 /\ grown pi pd w w' /\
      e' = if ((store_spec m (cstr key) (cstr data) flag).1 =? -1) then ENOENT else e
  else exists s', db_store key data flag (DbSt w d e) = Exit (Undefined "sprintf of idxbuf into itself") s'.
Proof.
  intros R Hf Hk Hd Hr. destruct k_self_copy eqn:Es; cbn [orb]; [apply (store_ok G); auto|].
  destruct (store_removes m (cstr key) (cstr data) flag) eqn:Em; cbn [negb]; [by apply (store_overlap G pi pd w d e m)|]. apply (store_ok G); auto.
Qed.

(** [db_delete] returns 0 and removes the key when it is present, -1 when it is
    not; it never makes a file longer or shorter. *)
Theorem db_delete_correct pi pd w d e m key :
  db_rep pi pd w d m -> k_self_copy = true \/ delete_removes m (cstr key) = false ->
  exists w' d', db_delete key (DbSt w d e) = Ret (delete_spec m (cstr key)).1 (DbSt w' d' e) /\
    db_rep pi pd w' d' (delete_spec m (cstr key)).2 /\ unchanged pi pd w w'.
Proof. apply delete_ok, G. Qed.

(** C3: [db_rewind] and then [db_nextrec] until NULL gives every record whose key is
    not all blanks exactly once, in some order, and ends. *)
Theorem db_nextrec_complete pi pd w d e m fuel :
  db_rep pi pd w d m -> (size m < fuel)%nat ->
  exists w' d' l, (db_rewind ;; drain fuel) (DbSt w d e) = Ret l (DbSt w' d' e) /\
    l ≡ₚ map_to_list (visible_map m) /\ db_rep pi pd w' d' m /\ files w' = files w.
Proof. apply rewind_drain_ok, G. Qed.

(** C4: a database that is closed and opened again holds the same map, and its files
    are byte for byte the same. *)
Theorem db_reopen_same pathname w d m :
  can_open pathname O_RDWR -> db_rep (idx_path pathname) (dat_path pathname) w d m ->
  exists d' w1 w2, db_close d w = Ret tt w1 /\ db_open pathname O_RDWR w1 = Ret (Some d') w2 /\
    db_rep (idx_path pathname) (dat_path pathname) w2 d' m /\ files w2 = files w.
Proof. apply reopen_ok. Qed.
End Theorems.

(** C5: lock discipline, for every content of the files and every behaviour of the
    kernel: an operation on a key that returns has released every lock it took;
    every write it made to either file was made while it held the write lock of the
    key's hash chain, and every write of the free list pointer while it also held the
    write lock of the free list. *)
Theorem db_lock_discipline `{K : Kernel} (s s' : dbst) (key data : list Z) (flag : Z) :
  idle s ->
  (exists r, db_fetch key s = Ret r s') \/ (exists r, db_delete key s = Ret r s') \/
  (exists r, db_store key data flag s = Ret r s') ->
  idle s' /\ idxfd (st_db s') = idxfd (st_db s) /\
  exists new, events (st_w s') = new ++ events (st_w s) /\
    disciplined (idxfd (st_db s)) (chain_of key) (events (st_w s)) new.
Proof.
  intros Hs [[r E]|[[r E]|[r E]]];
    [eapply fetch_locked|eapply delete_locked|eapply store_locked]; eauto.
Qed.

(** C6: when [db_open] fails it has closed what it had opened. *)
Theorem db_open_failure_closes `{K : Kernel} pathname oflag w w' :
  mallocs (Z.of_nat (length (cstr pathname))) = true ->
  db_open pathname oflag w = Ret None w' -> fds w' = fds w.
Proof. apply open_fail_fds. Qed.

(** [db_store] checks its arguments first: a flag that is none of the three
    returns -1 with [errno] EINVAL; data that is empty or longer than 1023 bytes
    ends the process.  Neither touches the files or the locks. *)
Theorem db_store_checks_arguments `{K : Kernel} w d e key data flag :
  (~ flag_ok flag -> db_store key data flag (DbSt w d e) = Ret (-1) (DbSt w d EINVAL)) /\
  (flag_ok flag -> strlen data < 1 \/ 1023 < strlen data ->
   db_store key data flag (DbSt w d e) = Exit (Err_dump "db_store: invalid data length") (DbSt w d e)).
Proof.
  unfold db_store. split; intros Hf.
  - assert (H : negb (flag =? DB_INSERT) && negb (flag =? DB_REPLACE) && negb (flag =? DB_STORE) = true).
    { unfold flag_ok in Hf. rewrite !andb_true_iff, !negb_true_iff, !Z.eqb_neq. tauto. }
    by rewrite H.
  - intros Hl. assert (H : negb (flag =? DB_INSERT) && negb (flag =? DB_REPLACE) && negb (flag =? DB_STORE) = false).
    { by destruct Hf as [->|[->| ->]]. }
    rewrite H. cbv zeta. unfold dump_if, DATLEN_MIN, DATLEN_MAX.
    replace ((strlen data + 1 <? 2) || (1024 <? strlen data + 1)) with true; [done|].
    symmetry. apply orb_true_iff. lia.
Qed.

(** The program t4 creates the database "db4" with its three records and exits
    with status 0. *)
Theorem t4_main_correct `{K : Kernel} (G : Granting K) w :
  can_open (bytes "db4") create_flags -> 10000 <= k_fsize ->
  exists w', t4_main w = Ret 0 w' /\
    exists d wd, db_rep (idx_path (bytes "db4")) (dat_path (bytes "db4")) wd d
        (<[bytes "gamma" := bytes "record3"]> (<[bytes "beta" := bytes "Data for beta"]>
          {[bytes "Alpha" := bytes "data1"]})) /\ files w' = files wd.
Proof.
  intros C Hz. destruct (open_create_ok G _ w C) as (d & w1 & E & R & F1 & F2). unfold t4_main. run E.
  set (pi := idx_path _) in *. set (pd := dat_path _) in *.
  assert (R0 : db_kv_rep pi pd 3 (DbSt w1 d 0) ∅).
  { split; [done|right]. unfold roomy. simpl. rewrite F1, F2. change HEAD with 829. unfold PTR_MAX. lia. }
  assert (Ht : exists s', t4_stores (DbSt w1 d 0) = Ret tt s' /\
    db_kv_rep pi pd 0 s' (<[bytes "gamma" := bytes "record3"]> (<[bytes "beta" := bytes "Data for beta"]>
          (<[bytes "Alpha" := bytes "data1"]> ∅)))).
  { unfold t4_stores. pose proof (@insert_new _ (db_kv G pi pd)) as Hs.
    destruct (Hs 2%nat _ _ (bytes "Alpha") (bytes "data1") R0) as (s1 & E1 & R1); [valid|valid|done|].
    simpl in E1. run E1. change (negb (0 =? 0)) with false. cbv iota. rewrite run_ret.
    destruct (Hs 1%nat _ _ (bytes "beta") (bytes "Data for beta") R1) as (s2 & E2 & R2); [valid|valid|done|].
    simpl in E2. run E2. change (negb (0 =? 0)) with false. cbv iota. rewrite run_ret.
    destruct (Hs 0%nat _ _ (bytes "gamma") (bytes "record3") R2) as (s3 & E3 & R3); [valid|valid|done|].
    simpl in E3. run E3. exists s3. done. }
  destruct Ht as ([w2 d2 e2] & Et & [Rt _]).
  assert (Er : run_db d t4_stores w1 = Ret (tt, d2) w2) by (unfold run_db; by rewrite Et).
  run Er. destruct (close_files d2 w2) as (w3 & Ec & Fc). run Ec. exists w3. split; [done|]. exists d2, w2.
  by rewrite insert_empty in Rt.
Qed.

(** A finding.  [_db_writeidx] formats the index record into [idxbuf] before it
    checks the length: storing a key that is too long writes past the end of the
    buffer instead of ending in the diagnosed error. *)
Theorem long_key_overflows_idxbuf :
  match db_open demo create_flags fs0 with
  | Ret (Some d) w =>
      match db_store (replicate 1100 97) (bytes "x") DB_INSERT (DbSt w d 0) with
      | Exit e _ => e = Undefined "sprintf past the end of idxbuf"
      | Ret _ _ => False
      end
  | _ => False
  end.
Proof. vm_compute. reflexivity. Qed.

(** A finding.  [_db_dodelete] hands [idxbuf] to [_db_writeidx], which formats it into [idxbuf]: under ISO C the deletion of
    every key that is there is undefined. *)
Theorem delete_formats_in_place `{K : Kernel} (G : Granting K) pi pd w d e m key :
  db_rep pi pd w d m -> k_self_copy = false -> delete_removes m (cstr key) = true ->
  exists s', db_delete key (DbSt w d e) = Exit (Undefined "sprintf of idxbuf into itself") s'.
Proof. intros R Hs Hd. by eapply (delete_overlap G). Qed.

(** A finding.  [db_store] accepts a key that contains the separator ':'; the
    index record it writes cannot be parsed, and the next search of that chain ends
    the process. *)
Theorem separator_in_key_corrupts_chain :
  match db_open demo create_flags fs0 with
  | Ret (Some d) w =>
      match (r ← db_store (bytes "a:b") (bytes "x") DB_INSERT; q ← db_fetch (bytes "a:b"); mret (r, q))
              (DbSt w d 0) with
      | Exit e _ => e = Err_dump "_db_readidx: too many separators"
      | Ret _ _ => False
      end
  | _ => False
  end.
Proof. vm_compute. reflexivity. Qed.

(** ** Witnesses *)

Definition demo_calls : list call :=
  [CStore (bytes "k1") (bytes "v1") DB_INSERT; CStore (bytes "k1") (bytes "longer") DB_REPLACE;
   CDelete (bytes "k1"); CStore (bytes "k2") (bytes "v2") DB_STORE; CFetch (bytes "k2"); CFetch (bytes "k1")].

Lemma db_calls_refine_map_witness :
  exists d w1, db_open demo create_flags fs0 = Ret (Some d) w1 /\
    forall e, exists s', do_calls (KV := db_kv plain_granting (idx_path demo) (dat_path demo)) demo_calls
        (DbSt w1 d e) = Ret [AInt 0; AInt 0; AInt 0; AInt 0; ABytes (Some (bytes "v2")); ABytes None] s' /\
      db_rep (idx_path demo) (dat_path demo) (st_w s') (st_db s') {[bytes "k2" := bytes "v2"]}.
Proof.
  change {[bytes "k2" := bytes "v2"]} with (calls_spec demo_calls ∅).2.
  destruct (db_calls_refine_map plain_granting demo fs0 demo_calls) as (d & w1 & E & H).
  - apply demo_create.
  - repeat constructor; valid.
  - vm_compute. done.
  - vm_compute. done.
  - exists d, w1. split; [exact E|]. intros e. exact (H e).
Defined.

Lemma db_fetch_correct_witness :
  exists d w, db_open demo create_flags fs0 = Ret (Some d) w /\
  exists w' d', db_fetch (bytes "k") (DbSt w d 0) = Ret None (DbSt w' d' 0) /\
    db_rep (idx_path demo) (dat_path demo) w' d' ∅ /\ files w' = files w.
Proof.
  destruct demo_open as (d & w & E & R & _). exists d, w. split; [done|].
  apply (db_fetch_correct plain_granting _ _ w d 0 ∅ (bytes "k") R).
Defined.

Lemma db_store_correct_witness :
  exists d w, db_open demo create_flags fs0 = Ret (Some d) w /\
  exists w' d' e', db_store (bytes "k") (bytes "v") DB_INSERT (DbSt w d 0) = Ret 0 (DbSt w' d' e') /\
    db_rep (idx_path demo) (dat_path demo) w' d' (<[bytes "k" := bytes "v"]> ∅) /\
    grown (idx_path demo) (dat_path demo) w w' /\ e' = 0.
Proof.
  destruct demo_open as (d & w & E & R & F1 & F2). exists d, w. split; [done|].
  apply (db_store_correct plain_granting _ _ w d 0 ∅ (bytes "k") (bytes "v") DB_INSERT R);
    [by left|valid|valid|by apply small_room].
Defined.

Lemma db_delete_correct_witness :
  exists d w, db_open demo create_flags fs0 = Ret (Some d) w /\
  exists w' d', db_delete (bytes "k") (DbSt w d 0) = Ret (-1) (DbSt w' d' 0) /\
    db_rep (idx_path demo) (dat_path demo) w' d' ∅ /\ unchanged (idx_path demo) (dat_path demo) w w'.
Proof.
  destruct demo_open as (d & w & E & R & _). exists d, w. split; [done|].
  apply (db_delete_correct plain_granting _ _ w d 0 ∅ (bytes "k") R). by left.
Defined.

Lemma db_nextrec_complete_witness :
  exists d w, db_open demo create_flags fs0 = Ret (Some d) w /\
  exists w' d' l, (db_rewind ;; drain 3) (DbSt w d 0) = Ret l (DbSt w' d' 0) /\
    l ≡ₚ map_to_list (visible_map ∅) /\ db_rep (idx_path demo) (dat_path demo) w' d' ∅ /\ files w' = files w.
Proof.
  destruct demo_open as (d & w & E & R & _). exists d, w. split; [done|].
  apply (db_nextrec_complete plain_granting _ _ w d 0 ∅ 3 R). rewrite map_size_empty. lia.
Defined.

Lemma db_reopen_same_witness :
  exists d w d' w1 w2, db_open demo create_flags fs0 = Ret (Some d) w /\
    db_close d w = Ret tt w1 /\ db_open demo O_RDWR w1 = Ret (Some d') w2 /\ files w2 = files w.
Proof.
  destruct demo_open as (d & w & E & R & _).
  destruct (db_reopen_same demo w d ∅ demo_rdwr R) as (d' & w1 & w2 & H1 & H2 & _ & H3).
  exists d, w, d', w1, w2. done.
Defined.

Definition demo_state : dbst :=
  match db_open demo create_flags fs0 with
  | Ret (Some d) w => DbSt w d 0
  | _ => DbSt fs0 (fresh_handle demo 0 0) 0
  end.

Lemma db_lock_discipline_witness :
  exists s', db_store (bytes "k") (bytes "v") DB_INSERT demo_state = Ret 0 s' /\ idle s'.
Proof.
  assert (Hs : idle demo_state).
  { constructor; [vm_compute; reflexivity|vm_compute; reflexivity|vm_compute; done|].
    intros fd o. unfold no_locks. replace (events (st_w demo_state)) with
      [EvLock 0 F_UNLCK 0 0; EvWrite 0 0 829; EvLock 0 F_WRLCK 0 0] by (vm_compute; reflexivity).
    unfold held_at. simpl. by destruct (_ && _). }
  destruct (db_store (bytes "k") (bytes "v") DB_INSERT demo_state) as [r s'|] eqn:E.
  - exists s'. split; [|by eapply (db_lock_discipline demo_state s'); eauto].
    f_equal. assert (E' : match db_store (bytes "k") (bytes "v") DB_INSERT demo_state with Ret r _ => r | _ => 7 end = 0)
      by (vm_compute; reflexivity). by rewrite E in E'.
  - exfalso. assert (E' : match db_store (bytes "k") (bytes "v") DB_INSERT demo_state with Ret r _ => true | _ => false end = true)
      by (vm_compute; reflexivity). by rewrite E in E'.
Defined.

Lemma db_open_failure_closes_witness :
  exists w', db_open demo O_RDWR fs0 = Ret None w' /\ fds w' = ∅.
Proof.
  eexists. split; [vm_compute; reflexivity|].
  apply (db_open_failure_closes demo O_RDWR fs0); vm_compute; reflexivity.
Defined.

Lemma db_store_checks_arguments_witness :
  let d := fresh_handle demo 3 4 in
  db_store (bytes "k") (bytes "v") 9 (DbSt fs0 d 0) = Ret (-1) (DbSt fs0 d EINVAL) /\
  db_store (bytes "k") [] DB_STORE (DbSt fs0 d 0) = Exit (Err_dump "db_store: invalid data length") (DbSt fs0 d 0).
Proof.
  intros d. split.
  - apply (db_store_checks_arguments fs0 d 0 (bytes "k") (bytes "v") 9).
    unfold flag_ok, DB_INSERT, DB_REPLACE, DB_STORE. lia.
  - apply (db_store_checks_arguments fs0 d 0 (bytes "k") [] DB_STORE).
    + by right; right.
    + left. vm_compute. done.
Defined.

Lemma t4_main_correct_witness :
  exists w', t4_main fs0 = Ret 0 w'.
Proof.
  destruct (t4_main_correct plain_granting fs0) as (w' & E & _); [by split|vm_compute; done|]. by exists w'.
Defined.
