(* ===== verification/ReadN.v ===== *)
(** Reading and writing exactly [n] bytes: [readn] and [writen] of
    [src/apue2e/lib/readn.c] and [src/apue2e/lib/writen.c] (and [treadn] of
    [src/apue2e/ipp/util.c], the same loop over a timed read).  The loops are
    generic in the single read or write call they repeat. *)
From S2P Require Import Prelude.

Section Loops.
Context {S : Type}.

(** [rd n]: one call [read(fd, ptr, n)]: the value returned and the bytes put at
    [ptr]. *)
Fixpoint readn_loop (rd : Z -> M S (Z * list Z)) (fuel : nat) (n nleft : Z) (got : list Z)
    : M S (Z * list Z) :=
  if nleft <=? 0 then mret (n - nleft, got) else
  match fuel with
  | O => die Loops
  | Datatypes.S f =>
      r ← rd nleft;
      if r.1 <? 0 then
        if nleft =? n then mret (-1, got) else mret (n - nleft, got)
      else if r.1 =? 0 then mret (n - nleft, got)
      else readn_loop rd f n (nleft - r.1) (got ++ r.2)
  end.
Definition readn (rd : Z -> M S (Z * list Z)) (n : Z) : M S (Z * list Z) :=
  readn_loop rd (Z.to_nat n) n n [].

(** [wr bs]: one call [write(fd, ptr, nleft)] with the bytes at [ptr]. *)
Fixpoint writen_loop (wr : list Z -> M S Z) (fuel : nat) (n : Z) (bs : list Z) : M S Z :=
  let nleft := Z.of_nat (length bs) in
  if nleft <=? 0 then mret (n - nleft) else
  match fuel with
  | O => die Loops
  | Datatypes.S f =>
      w ← wr bs;
      if w <? 0 then
        if nleft =? n then mret (-1) else mret (n - nleft)
      else if w =? 0 then mret (n - nleft)
      else writen_loop wr f n (drop (Z.to_nat w) bs)
  end.
Definition writen (wr : list Z -> M S Z) (bs : list Z) : M S Z :=
  writen_loop wr (length bs) (Z.of_nat (length bs)) bs.

(** ** What the loops rely on *)

(** A descriptor to read from: it returns, with an error, end of file, or at most as
    many bytes as were asked for; while bytes are waiting it delivers some of
    them, in order. *)
Class Source (rd : Z -> M S (Z * list Z)) (ok : S -> Prop) (waiting : S -> list Z) : Prop := {
  source_returns : forall n s, ok s -> 0 < n -> exists r bs s', rd n s = Ret (r, bs) s' /\ ok s' /\
    ((r = -1 /\ bs = []) \/ (r = Z.of_nat (length bs) /\ r <= n));
  source_delivers : forall n s, ok s -> 0 < n -> waiting s <> [] -> exists bs s',
    rd n s = Ret (Z.of_nat (length bs), bs) s' /\ bs <> [] /\ Z.of_nat (length bs) <= n /\
    waiting s = bs ++ waiting s' /\ ok s'
}.

(** A descriptor to write to: it returns, with an error or with the number of bytes
    it took, the first ones. *)
Class Sink (wr : list Z -> M S Z) (ok : S -> Prop) (taken : S -> list Z) : Prop := {
  sink_takes : forall bs s, ok s -> bs <> [] -> exists w s', wr bs s = Ret w s' /\ ok s' /\
    ((w = -1 /\ taken s' = taken s) \/
     (0 <= w <= Z.of_nat (length bs) /\ taken s' = taken s ++ take (Z.to_nat w) bs))
}.

(** ** Theorems *)

Lemma readn_loop_returns rd ok waiting `{!Source rd ok waiting} fuel n nleft got s :
  ok s -> 0 <= nleft <= n -> nleft <= Z.of_nat fuel -> Z.of_nat (length got) = n - nleft ->
  exists r bs s', readn_loop rd fuel n nleft got s = Ret (r, bs) s' /\ ok s' /\
    ((r = -1 /\ bs = [] /\ 0 < n) \/ (r = Z.of_nat (length bs) /\ r <= n)).
Proof.
  revert nleft got s. induction fuel as [|f IH]; intros nleft got s Hs Hn Hf Hg; simpl;
    (destruct (Z.leb_spec nleft 0); [eexists _, _, _; split; [done|]; split; [done|]; right; lia|]); [lia|].
  destruct (source_returns (rd := rd) nleft s Hs) as (r & bs & s1 & E & Hs1 & Hr); [lia|]. run E. cbn [fst snd].
  destruct (Z.ltb_spec r 0).
  - destruct (Z.eqb_spec nleft n); eexists _, _, _; (split; [done|]); split; [done| |done|right; lia].
    left. split_and!; [done| |lia]. destruct got; [done|]. simpl in Hg. lia.
  - destruct (Z.eqb_spec r 0); [eexists _, _, _; split; [done|]; split; [done|]; right; lia|].
    destruct Hr as [[? _]|[-> Hr]]; [lia|]. apply IH; [done|lia|lia|]. rewrite length_app. lia.
Qed.

Lemma readn_returns rd ok waiting `{!Source rd ok waiting} n s :
  ok s -> 0 <= n ->
  exists r bs s', readn rd n s = Ret (r, bs) s' /\ ok s' /\
    ((r = -1 /\ bs = [] /\ 0 < n) \/ (r = Z.of_nat (length bs) /\ r <= n)).
Proof. intros Hs Hn. unfold readn. eapply readn_loop_returns; [done|done|lia|lia|simpl; lia]. Qed.

Lemma readn_loop_delivers rd ok waiting `{!Source rd ok waiting} fuel n nleft got s :
  ok s -> 0 <= nleft <= n -> nleft <= Z.of_nat fuel -> nleft <= Z.of_nat (length (waiting s)) ->
  exists s', readn_loop rd fuel n nleft got s = Ret (n, got ++ take (Z.to_nat nleft) (waiting s)) s' /\
    ok s' /\ waiting s' = drop (Z.to_nat nleft) (waiting s).
Proof.
  revert nleft got s. induction fuel as [|f IH]; intros nleft got s Hs Hn Hf Hw; simpl;
    (destruct (Z.leb_spec nleft 0);
     [replace nleft with 0 by lia; exists s; by rewrite Z.sub_0_r, app_nil_r|]); [lia|].
  destruct (source_delivers (rd := rd) nleft s Hs) as (bs & s1 & E & Hb & Hl & Ew & Hs1);
    [lia|intros E0; rewrite E0 in Hw; simpl in Hw; lia|]. run E. cbn [fst snd].
  assert (Hp : (0 < length bs)%nat) by (destruct bs; [done|simpl; lia]).
  bfalse (Z.of_nat (length bs) <? 0). bfalse (Z.of_nat (length bs) =? 0).
  destruct (IH (nleft - Z.of_nat (length bs)) (got ++ bs) s1) as (s2 & E2 & Hs2 & W2);
    [done|lia|lia|rewrite Ew, length_app in Hw; lia|].
  exists s2. rewrite E2, W2, Ew. split_and!; [|done|].
  - rewrite <- app_assoc, take_app_ge by lia. by rewrite Z2Nat.inj_sub, Nat2Z.id by lia.
  - rewrite drop_app_ge by lia. by rewrite Z2Nat.inj_sub, Nat2Z.id by lia.
Qed.

Lemma readn_delivers rd ok waiting `{!Source rd ok waiting} n s :
  ok s -> 0 <= n <= Z.of_nat (length (waiting s)) ->
  exists s', readn rd n s = Ret (n, take (Z.to_nat n) (waiting s)) s' /\ ok s' /\
    waiting s' = drop (Z.to_nat n) (waiting s).
Proof. intros Hs Hn. unfold readn. apply (readn_loop_delivers rd ok waiting); (done || lia). Qed.

Lemma writen_loop_ok wr ok taken `{!Sink wr ok taken} fuel n bs s :
  ok s -> Z.of_nat (length bs) <= n -> (length bs <= fuel)%nat ->
  exists r s', writen_loop wr fuel n bs s = Ret r s' /\ ok s' /\
    ((r = -1 /\ Z.of_nat (length bs) = n /\ taken s' = taken s) \/
     (n - Z.of_nat (length bs) <= r <= n /\
      taken s' = taken s ++ take (Z.to_nat (r - (n - Z.of_nat (length bs)))) bs)).
Proof.
  revert bs s. induction fuel as [|f IH]; intros bs s Hs Hn Hf; simpl.
  all: destruct (Z.leb_spec (Z.of_nat (length bs)) 0);
    [destruct bs; [|simpl in *; lia]; eexists _, s; split; [done|]; split; [done|]; right;
     split; [simpl; lia|]; by rewrite take_nil, app_nil_r|].
  { lia. }
  destruct (sink_takes (wr := wr) bs s Hs) as (w & s1 & E & Hs1 & Hw); [by destruct bs|]. run E.
  set (q := n - Z.of_nat (length bs)).
  assert (H0 : forall t, taken s1 = taken s -> t = q -> taken s1 = taken s ++ take (Z.to_nat (t - q)) bs).
  { intros t Ht ->. by rewrite Z.sub_diag, app_nil_r. }
  destruct Hw as [[-> Ht]|[Hw Ht]].
  - change (-1 <? 0) with true. cbv iota.
    destruct (Z.eqb_spec (Z.of_nat (length bs)) n); eexists _, s1; split; try done; split; try done.
    + by left.
    + right. split; [lia|]. by apply H0.
  - bfalse (w <? 0). destruct (Z.eqb_spec w 0) as [->|Hw0].
    { eexists _, s1. split; [done|]. split; [done|]. right. split; [lia|].
      apply H0; [by rewrite app_nil_r in Ht|done]. }
    destruct (IH (drop (Z.to_nat w) bs) s1) as (r & s2 & E2 & Hs2 & Hr); [done|rewrite length_drop; lia..|].
    rewrite length_drop in Hr. rewrite E2. eexists _, s2. split; [done|]. split; [done|].
    destruct Hr as [(_ & Hp & _)|[Hr Ht2]]; [lia|right]. split; [lia|].
    rewrite Ht2, Ht, <- app_assoc. f_equal.
    rewrite take_take_drop. f_equal. lia.
Qed.

(** [writen] returns; it returns -1 only when nothing was taken, otherwise the number
    of leading bytes that were. *)
Lemma writen_ok wr ok taken `{!Sink wr ok taken} bs s :
  ok s ->
  exists r s', writen wr bs s = Ret r s' /\ ok s' /\
    ((r = -1 /\ taken s' = taken s) \/
     (0 <= r <= Z.of_nat (length bs) /\ taken s' = taken s ++ take (Z.to_nat r) bs)).
Proof.
  intros Hs. unfold writen.
  destruct (writen_loop_ok wr ok taken (length bs) (Z.of_nat (length bs)) bs s) as (r & s' & E & Hs' & Hr);
    [done|lia|lia|].
  rewrite Z.sub_diag in Hr. exists r, s'. split; [done|]. split; [done|].
  destruct Hr as [(? & _ & ?)|[? Ht]]; [by left|right]. rewrite Z.sub_0_r in Ht. done.
Qed.

(** One call that takes everything ends the loop. *)
Lemma writen_once wr bs s s' : bs <> [] -> wr bs s = Ret (Z.of_nat (length bs)) s' -> writen wr bs s = Ret (Z.of_nat (length bs)) s'.
Proof.
  intros Hb Hw. unfold writen. assert (Hn : exists k, length bs = Datatypes.S k) by (destruct bs; [done|by eexists]). destruct Hn as [k Hk].
  rewrite Hk at 1. cbn [writen_loop]. bfalse (Z.of_nat (length bs) <=? 0). rewrite (bind_ret _ _ _ _ _ Hw).
  bfalse (Z.of_nat (length bs) <? 0). bfalse (Z.of_nat (length bs) =? 0). cbn iota. rewrite drop_ge by lia.
  destruct k; cbn [writen_loop length]; change (Z.of_nat 0 <=? 0) with true; cbn iota; by rewrite Z.sub_0_r.
Qed.
End Loops.
