(* ===== verification/PrintQueue.v ===== *)
(** The queue of print jobs of [src/apue2e/ipp/printd.c]: a doubly linked list in
    the heap with its head and tail, the job counter and the mutex [joblock], and
    [get_newjobno], [add_job], [replace_job], [remove_job]. *)
From S2P Require Import Prelude CStr FileIO.

(** ** Data *)

Record printreq := PrintReq {
  req_size : Z;
  flags : Z;
  usernm : list Z;
  jobnm : list Z
}.

Record job := Job {
  job_next : option positive;
  job_prev : option positive;
  jobid : Z;
  req : printreq
}.

(** The globals: [joblock] is true while a thread holds the mutex, [jobwait] counts
    the signals of the condition variable. *)
Record jobs := Jobs {
  jheap : gmap positive job;
  jobhead : option positive;
  jobtail : option positive;
  nextjob : Z;
  joblock : bool;
  jobwait : Z
}.

Definition set_jheap h (s : jobs) := Jobs h (jobhead s) (jobtail s) (nextjob s) (joblock s) (jobwait s).
Definition set_jobhead p (s : jobs) := Jobs (jheap s) p (jobtail s) (nextjob s) (joblock s) (jobwait s).
Definition set_jobtail p (s : jobs) := Jobs (jheap s) (jobhead s) p (nextjob s) (joblock s) (jobwait s).
Definition set_nextjob n (s : jobs) := Jobs (jheap s) (jobhead s) (jobtail s) n (joblock s) (jobwait s).
Definition set_joblock b (s : jobs) := Jobs (jheap s) (jobhead s) (jobtail s) (nextjob s) b (jobwait s).
Definition set_jobwait n (s : jobs) := Jobs (jheap s) (jobhead s) (jobtail s) (nextjob s) (joblock s) n.

Definition with_next n (j : job) := Job n (job_prev j) (jobid j) (req j).
Definition with_prev p (j : job) := Job (job_next j) p (jobid j) (req j).

(** ** Operations *)

Definition jget {A} (f : jobs -> A) : M jobs A := fun s => Ret (f s) s.

(** Locking a mutex this thread already holds, or unlocking one it does not hold,
    does not return. *)
Definition lock_jobs : M jobs unit :=
  b ← jget joblock;
  if b : bool then die Loops else modify (set_joblock true).
Definition unlock_jobs : M jobs unit :=
  b ← jget joblock;
  if b : bool then modify (set_joblock false) else die (Undefined "unlock of an unlocked mutex").

(** [p->f] *)
Definition deref (p : option positive) : M jobs job :=
  h ← jget jheap;
  match p ≫= fun l => h !! l with
  | Some j => mret j
  | None => die (Undefined "no such job")
  end.
Definition store_job (p : option positive) (f : job -> job) : M jobs unit :=
  j ← deref p;
  match p with
  | Some l => modify (fun s => set_jheap (<[l := f j]> (jheap s)) s)
  | None => mret tt
  end.

Definition sizeof_job : Z := 360.

Definition get_newjobno : M jobs Z :=
  lock_jobs ;;
  n ← jget nextjob;
  modify (set_nextjob (swrap 64 (n + 1))) ;;
  n' ← jget nextjob;
  (if n' <=? 0 then modify (set_nextjob 1) else mret tt) ;;
  unlock_jobs ;;
  mret n.

Definition add_job `{Kernel} (reqp : printreq) (id : Z) : M jobs unit :=
  (if k_malloc sizeof_job then mret tt else die (Err_sys "malloc failed")) ;;
  h ← jget jheap;
  let jp := fresh (dom h) in
  (* the fields that are assigned before the lock; prev is still undefined *)
  modify (set_jheap (<[jp := Job None None id reqp]> h)) ;;
  lock_jobs ;;
  tl ← jget jobtail;
  store_job (Some jp) (with_prev tl) ;;
  (match tl with
   | None => modify (set_jobhead (Some jp))
   | Some _ => store_job tl (with_next (Some jp))
   end) ;;
  modify (set_jobtail (Some jp)) ;;
  unlock_jobs ;;
  modify (fun s => set_jobwait (jobwait s + 1) s).

Definition replace_job (jp : option positive) : M jobs unit :=
  lock_jobs ;;
  store_job jp (with_prev None) ;;
  hd ← jget jobhead;
  store_job jp (with_next hd) ;;
  (match hd with
   | None => modify (set_jobtail jp)
   | Some _ => store_job hd (with_prev jp)
   end) ;;
  modify (set_jobhead jp) ;;
  unlock_jobs.

(** The caller holds [joblock]. *)
Definition remove_job (target : option positive) : M jobs unit :=
  t ← deref target;
  (match job_next t with
   | Some _ => store_job (job_next t) (with_prev (job_prev t))
   | None => modify (set_jobtail (job_prev t))
   end) ;;
  t ← deref target;
  match job_prev t with
  | Some _ => store_job (job_prev t) (with_next (job_next t))
  | None => modify (set_jobhead (job_next t))
  end.

(** The printer thread's first steps: with the lock, take the first job off a queue
    that is not empty ([None]: wait for the condition). *)
Definition pick_job : M jobs (option positive) :=
  lock_jobs ;;
  hd ← jget jobhead;
  match hd with
  | None => unlock_jobs ;; mret None
  | Some _ => remove_job hd ;; unlock_jobs ;; mret hd
  end.

(** ** The list in the heap *)

(** Every job of [l] is in the heap and its pointers are its neighbours in [l]. *)
Definition linked_in (h : gmap positive job) (l : list positive) : Prop :=
  forall a x b, l = a ++ x :: b ->
    exists j, h !! x = Some j /\ job_prev j = last a /\ job_next j = head b.

Record queue (s : jobs) (l : list positive) : Prop := {
  q_head : jobhead s = head l;
  q_tail : jobtail s = last l;
  q_nodup : NoDup l;
  q_link : linked_in (jheap s) l
}.

(** What a job is apart from its links. *)
Definition load (j : job) : Z * printreq := (jobid j, req j).
Definition loads (h : gmap positive job) (l : list positive) : list (Z * printreq) :=
  omap (fun x => load <$> h !! x) l.
#[global] Arguments loads : simpl never.

(** ** Lists *)

Lemma app_split {A} (a b a' : list A) y b' :
  a ++ b = a' ++ y :: b' ->
  (exists c, a = a' ++ y :: c /\ b' = c ++ b) \/ (exists c, b = c ++ y :: b' /\ a' = a ++ c).
Proof.
  intros E. apply app_eq_app in E as [c [[-> E2]|[-> E2]]].
  - destruct c as [|z c]; simpl in E2.
    + right. exists []. rewrite !app_nil_r. done.
    + left. exists c. injection E2 as -> ->. done.
  - right. exists c. done.
Qed.

Lemma nodup_split {A} (a b a' b' : list A) x :
  NoDup (a ++ x :: b) -> a ++ x :: b = a' ++ x :: b' -> a = a' /\ b = b'.
Proof.
  intros ND E. pose proof ND as (_ & N1 & (N2 & _)%NoDup_cons)%NoDup_app.
  apply app_split in E as [(c & -> & ->)|(c & E & ->)].
  - exfalso. apply (N1 x); [apply elem_of_app; right; left|left].
  - destruct c as [|z c]; simpl in E; injection E as E.
    + rewrite app_nil_r. by subst.
    + exfalso. apply N2. subst. apply elem_of_app. right. left.
Qed.

Lemma last_cons_app {A} (a : list A) x b : last (a ++ x :: b) = last (x :: b).
Proof. rewrite last_app. by destruct (last (x :: b)) eqn:E; [|apply last_None in E]. Qed.

Lemma head_app {A} (a b : list A) : head (a ++ b) = match head a with Some x => Some x | None => head b end.
Proof. by destruct a. Qed.

(** ** Facts about a queue *)

Lemma queue_node s a x b :
  queue s (a ++ x :: b) ->
  exists j, jheap s !! x = Some j /\ job_prev j = last a /\ job_next j = head b.
Proof. intros Q. by apply (q_link _ _ Q). Qed.

Lemma queue_in_heap s l x : queue s l -> x ∈ l -> is_Some (jheap s !! x).
Proof.
  intros Q (a & b & ->)%list_elem_of_split. destruct (queue_node _ _ _ _ Q) as (j & -> & _). eauto.
Qed.

Lemma loads_app h a b : loads h (a ++ b) = loads h a ++ loads h b.
Proof. apply omap_app. Qed.

Lemma loads_cons h x l : loads h (x :: l) = option_list (load <$> h !! x) ++ loads h l.
Proof. unfold loads. simpl. by destruct (h !! x). Qed.

Lemma loads_ext h h' l :
  (forall x, x ∈ l -> load <$> h' !! x = load <$> h !! x) -> loads h' l = loads h l.
Proof.
  induction l as [|x l IH]; intros H; [done|]. rewrite !loads_cons.
  rewrite (H x) by left. rewrite IH; [done|]. intros y Hy. apply H. by right.
Qed.

(** Changing links only. *)
Lemma insert_load (h : gmap positive job) x j j' y :
  h !! x = Some j -> load j' = load j -> load <$> (<[x := j']> h) !! y = load <$> h !! y.
Proof.
  intros Hx Hl. destruct (decide (x = y)) as [->|Hne].
  - rewrite lookup_insert_eq, Hx. simpl. by rewrite Hl.
  - by rewrite lookup_insert_ne.
Qed.

(** ** Running the operations *)

Lemma run_jget {A B} (f : jobs -> A) (k : A -> M jobs B) s : (jget f ≫= k) s = k (f s) s.
Proof. done. Qed.

Lemma lock_ok_jobs s : joblock s = false -> lock_jobs s = Ret tt (set_joblock true s).
Proof. intros H. unfold lock_jobs. rewrite run_jget, H. done. Qed.

Lemma unlock_ok_jobs s : joblock s = true -> unlock_jobs s = Ret tt (set_joblock false s).
Proof. intros H. unfold unlock_jobs. rewrite run_jget, H. done. Qed.

Lemma deref_ok s x j : jheap s !! x = Some j -> deref (Some x) s = Ret j s.
Proof. intros H. unfold deref. rewrite run_jget. simpl. by rewrite H. Qed.

Lemma store_ok_job s x j f :
  jheap s !! x = Some j -> store_job (Some x) f s = Ret tt (set_jheap (<[x := f j]> (jheap s)) s).
Proof. intros H. unfold store_job. by run (deref_ok _ _ _ H). Qed.

(** [get_newjobno] hands out the counter, which then is positive. *)
Lemma get_newjobno_ok s :
  joblock s = false -> 1 <= nextjob s <= LONG_MAX ->
  get_newjobno s = Ret (nextjob s)
    (set_nextjob (if nextjob s =? LONG_MAX then 1 else nextjob s + 1) s).
Proof.
  intros Hl Hn. unfold get_newjobno. run (lock_ok_jobs s Hl). rewrite !run_jget. cbn [nextjob set_joblock].
  unfold mbind at 1, M_bind at 1, modify at 1. rewrite run_jget. cbn [nextjob set_nextjob].
  destruct (Z.eqb_spec (nextjob s) LONG_MAX) as [E|E].
  - rewrite E. change (swrap 64 (LONG_MAX + 1) <=? 0) with true. cbv iota.
    unfold mbind, M_bind, modify, mret, M_ret. simpl. destruct s. simpl in *. by subst.
  - assert (Es : swrap 64 (nextjob s + 1) = nextjob s + 1).
    { apply swrap_small; [done|]. unfold LONG_MAX in *. lia. }
    rewrite Es. bfalse (nextjob s + 1 <=? 0).
    unfold mbind, M_bind, modify, mret, M_ret. simpl. destruct s. simpl in *. by subst.
Qed.

(** Linking a new last job. *)
Lemma linked_snoc (h : gmap positive job) l x j :
  linked_in h l -> x ∉ l -> NoDup l ->
  let h1 := <[x := Job None (last l) (jobid j) (req j)]> h in
  linked_in (match last l with
             | Some y => match h !! y with Some jy => <[y := with_next (Some x) jy]> h1 | None => h1 end
             | None => h1 end) (l ++ [x]).
Proof.
  intros H Hx ND h1 a y b E.
  destruct (last l) as [z|] eqn:El.
  - apply last_Some in El as [l0 ->]. destruct (H l0 z [] eq_refl) as (jz & Hz & Pz & Nz). rewrite Hz.
    assert (Hxz : x <> z) by (intros ->; apply Hx, elem_of_app; right; left).
    apply app_split in E as [(c & E & ->)|(c & E & ->)].
    + assert (Hyx : x <> y) by (intros ->; rewrite E in Hx; apply Hx, elem_of_app; right; left).
      destruct (H a y c E) as (j0 & H0 & P0 & N0).
      destruct (decide (z = y)) as [->|Hzy].
      * rewrite lookup_insert_eq. destruct (nodup_split _ _ _ _ _ ND E) as [-> <-].
        rewrite Hz in H0. simplify_eq. eexists. split; [done|]. by split.
      * rewrite lookup_insert_ne by done. unfold h1. rewrite lookup_insert_ne by done.
        exists j0. split_and!; try done. rewrite N0. destruct c; [|done].
        apply app_inj_tail in E as [_ ->]. done.
    + destruct c as [|? [|? ?]]; simpl in E; simplify_eq. rewrite app_nil_r.
      rewrite lookup_insert_ne by done. unfold h1. rewrite lookup_insert_eq. eexists. split; [done|]. simpl.
      by rewrite last_snoc.
  - apply last_None in El as ->. destruct a as [|? [|? ?]]; simplify_eq/=.
    unfold h1. rewrite lookup_insert_eq. by eexists.
Qed.

(** Linking a new first job. *)
Lemma linked_cons (h : gmap positive job) l x j :
  linked_in h l -> x ∉ l -> NoDup l ->
  let h1 := <[x := Job (head l) None (jobid j) (req j)]> h in
  linked_in (match l with
             | y :: _ => match h !! y with Some jy => <[y := with_prev (Some x) jy]> h1 | None => h1 end
             | [] => h1 end) (x :: l).
Proof.
  intros H Hx ND h1 a y b E. destruct a as [|x' a]; simpl in E; injection E as E1 E2; subst.
  - destruct b as [|z b]; [unfold h1; rewrite lookup_insert_eq; by eexists|].
    destruct (H [] z b eq_refl) as (jz & -> & _).
    rewrite lookup_insert_ne by (intros ->; apply Hx; left). unfold h1. rewrite lookup_insert_eq. by eexists.
  - destruct (H a y b eq_refl) as (j0 & H0 & P0 & N0).
    assert (Hyx : x' <> y) by (intros ->; apply Hx, elem_of_app; right; left).
    destruct a as [|z a]; simpl in *.
    + rewrite H0, lookup_insert_eq. by eexists.
    + destruct (H [] z (a ++ y :: b) eq_refl) as (jz & -> & _).
      rewrite lookup_insert_ne by (intros ->; apply NoDup_cons in ND as [ND _]; apply ND, elem_of_app; right; left).
      unfold h1. rewrite lookup_insert_ne by done. exists j0. split_and!; done.
Qed.

(** Taking a job out: its neighbours point to each other. *)
Definition unlink_next (h : gmap positive job) (p : option positive) (b : list positive) : gmap positive job :=
  match b with
  | y :: _ => match h !! y with Some jy => <[y := with_prev p jy]> h | None => h end
  | [] => h
  end.
Definition unlink_prev (h : gmap positive job) (n p : option positive) : gmap positive job :=
  match p with
  | Some y => match h !! y with Some jy => <[y := with_next n jy]> h | None => h end
  | None => h
  end.

Lemma unlink_next_lookup h p b y j :
  h !! y = Some j ->
  unlink_next h p b !! y = Some (if decide (head b = Some y) then with_prev p j else j).
Proof.
  intros Hy. destruct b as [|z b]; simpl; [done|]. destruct (decide (Some z = Some y)) as [E|E].
  - injection E as ->. rewrite Hy. by rewrite lookup_insert_eq.
  - destruct (h !! z); [|done]. rewrite lookup_insert_ne; [done|congruence].
Qed.

Lemma unlink_prev_lookup h n p y j :
  h !! y = Some j ->
  unlink_prev h n p !! y = Some (if decide (p = Some y) then with_next n j else j).
Proof.
  intros Hy. destruct p as [z|]; simpl; [|done]. destruct (decide (Some z = Some y)) as [E|E].
  - injection E as ->. rewrite Hy. by rewrite lookup_insert_eq.
  - destruct (h !! z); [|done]. rewrite lookup_insert_ne; [done|congruence].
Qed.

Lemma last_in {A} (l : list A) x : last l = Some x -> x ∈ l.
Proof. intros [l' ->]%last_Some. apply elem_of_app. right. left. Qed.

Lemma head_in {A} (l : list A) x : head l = Some x -> x ∈ l.
Proof. destruct l; [done|]. intros [= ->]. left. Qed.

Lemma linked_unlink_job (h : gmap positive job) a x b :
  linked_in h (a ++ x :: b) -> NoDup (a ++ x :: b) ->
  linked_in (unlink_prev (unlink_next h (last a) b) (head b) (last a)) (a ++ b).
Proof.
  intros H ND a' y b' E. pose proof ND as (NDa & Hab & NDb)%NoDup_app.
  apply app_split in E as [(c & -> & ->)|(c & -> & ->)].
  - destruct (H a' y (c ++ x :: b)) as (j & Hj & P & N); [by rewrite <- app_assoc|].
    assert (Hyb : y ∉ x :: b) by (apply Hab, elem_of_app; right; left).
    pose proof (unlink_next_lookup h (last (a' ++ y :: c)) b y j Hj) as E1.
    rewrite decide_False in E1 by (intros ?%head_in; apply Hyb; by right).
    rewrite (unlink_prev_lookup _ _ _ _ _ E1). eexists. split; [done|].
    rewrite last_cons_app. destruct c as [|z c].
    + rewrite decide_True by done. done.
    + change (last (y :: z :: c)) with (last (z :: c)).
      rewrite decide_False; [done|]. intros E%last_in. apply NoDup_app in NDa as (_ & _ & [NDa _]%NoDup_cons).
      by apply NDa.
  - destruct (H (a ++ x :: c) y b') as (j & Hj & P & N); [by rewrite <- app_assoc|].
    assert (Hya : y ∉ a).
    { intros Hy. apply (Hab y Hy). right. apply elem_of_app. right. left. }
    pose proof (unlink_next_lookup h (last a) (c ++ y :: b') y j Hj) as E1.
    rewrite (unlink_prev_lookup _ _ _ _ _ E1). rewrite decide_False by (by intros ?%last_in).
    eexists. split; [done|]. rewrite last_app. rewrite last_cons_app in P. destruct c as [|z c]; simpl.
    + rewrite decide_True by done. done.
    + rewrite decide_False.
      { change (last (x :: z :: c)) with (last (z :: c)) in P.
        destruct (last (z :: c)) eqn:El; [done|by apply last_None in El]. }
      intros [= ->]. apply NoDup_cons in NDb as [_ [NDb _]%NoDup_cons]. apply NDb, elem_of_app. right. left.
Qed.

Section Ops.
Context `{K : Kernel} (Hmem : k_malloc sizeof_job = true).

Lemma add_job_ok s l r id :
  queue s l -> joblock s = false ->
  exists s' x, add_job r id s = Ret tt s' /\ queue s' (l ++ [x]) /\ (x ∉ dom (jheap s)) /\
    loads (jheap s') (l ++ [x]) = loads (jheap s) l ++ [(id, r)] /\
    (forall y, y ∉ l -> y <> x -> jheap s' !! y = jheap s !! y) /\
    joblock s' = false /\ nextjob s' = nextjob s /\ jobwait s' = jobwait s + 1.
Proof.
  intros Q Hl. unfold add_job. rewrite Hmem. rewrite bind_mret, run_jget. cbv zeta.
  set (x := fresh (dom (jheap s))).
  assert (Hx : x ∉ dom (jheap s)) by apply is_fresh.
  assert (Hxl : x ∉ l).
  { intros Hin. apply Hx, elem_of_dom. by eapply queue_in_heap. }
  set (h0 := <[x := Job None None id r]> (jheap s)).
  unfold mbind at 1, M_bind at 1, modify at 1. run (lock_ok_jobs (set_jheap h0 s) Hl).
  rewrite run_jget. cbn [jobtail set_joblock set_jheap]. rewrite (q_tail _ _ Q).
  set (s1 := set_joblock true (set_jheap h0 s)).
  assert (Hj : jheap s1 !! x = Some (Job None None id r)) by apply lookup_insert_eq.
  run (store_ok_job s1 x _ (with_prev (last l)) Hj).
  set (h1 := <[x := with_prev (last l) (Job None None id r)]> (jheap s1)).
  assert (E1 : h1 = <[x := Job None (last l) id r]> (jheap s)).
  { unfold h1, s1, h0. simpl. by rewrite insert_insert_eq. }
  pose proof (linked_snoc (jheap s) l x (Job None None id r) (q_link _ _ Q) Hxl (q_nodup _ _ Q)) as HL.
  cbv zeta in HL. simpl in HL. rewrite <- E1 in HL.
  assert (ND : NoDup (l ++ [x])).
  { apply NoDup_app. split_and!; [apply Q| |apply NoDup_singleton]. intros y Hy ->%list_elem_of_singleton. done. }
  assert (Hother : forall y, y ∉ l -> y <> x -> h1 !! y = jheap s !! y).
  { intros y _ Hy. rewrite E1. by rewrite lookup_insert_ne. }
  assert (Hld : loads h1 (l ++ [x]) = loads (jheap s) l ++ [(id, r)]).
  { rewrite loads_app, loads_cons. rewrite E1 at 2. rewrite lookup_insert_eq. simpl. f_equal.
    apply loads_ext. intros y Hy. rewrite E1, lookup_insert_ne; [done|]. by intros ->. }
  destruct (last l) as [y|] eqn:El.
  - assert (Hyl : y ∈ l) by (apply last_Some in El as [l0 ->]; apply elem_of_app; right; left).
    destruct (queue_in_heap _ _ _ Q Hyl) as [jy Hy]. rewrite Hy in HL.
    assert (Hyx : x <> y) by congruence.
    assert (Hy1 : h1 !! y = Some jy) by (rewrite E1, lookup_insert_ne; done).
    run (store_ok_job (set_jheap h1 s1) y jy (with_next (Some x)) Hy1).
    unfold mbind, M_bind, modify, unlock_jobs, jget. simpl. eexists _, x. split; [done|].
    split_and!; try done.
    + constructor; simpl; try done; [rewrite (q_head _ _ Q); by destruct l|by rewrite last_snoc].
    + simpl. rewrite <- Hld. apply loads_ext. intros z Hz. by eapply insert_load.
    + intros z Hz1 Hz2. simpl. rewrite lookup_insert_ne by congruence. by apply Hother.
  - unfold mbind, M_bind, modify, unlock_jobs, jget. simpl. eexists _, x. split; [done|].
    apply last_None in El as ->. split_and!; try done.
Qed.
End Ops.

Lemma replace_job_ok s l x j :
  queue s l -> joblock s = false -> x ∉ l -> jheap s !! x = Some j ->
  exists s', replace_job (Some x) s = Ret tt s' /\ queue s' (x :: l) /\
    loads (jheap s') (x :: l) = load j :: loads (jheap s) l /\
    (forall y, load <$> jheap s' !! y = load <$> jheap s !! y) /\
    joblock s' = false /\ nextjob s' = nextjob s.
Proof.
  intros Q Hl Hx Hj. unfold replace_job. run (lock_ok_jobs s Hl). set (s1 := set_joblock true s).
  run (store_ok_job s1 x j (with_prev None) Hj). rewrite run_jget. cbn [jobhead set_jheap].
  change (jobhead s1) with (jobhead s). rewrite (q_head _ _ Q). set (s2 := set_jheap _ s1).
  assert (Hj2 : jheap s2 !! x = Some (with_prev None j)) by apply lookup_insert_eq.
  run (store_ok_job s2 x _ (with_next (head l)) Hj2). set (h3 := <[x := _]> (jheap s2)).
  assert (E3 : h3 = <[x := Job (head l) None (jobid j) (req j)]> (jheap s)).
  { unfold h3, s2, s1. simpl. by rewrite insert_insert_eq. }
  pose proof (linked_cons (jheap s) l x j (q_link _ _ Q) Hx (q_nodup _ _ Q)) as HL. cbv zeta in HL.
  rewrite <- E3 in HL.
  assert (Hld3 : forall y, load <$> h3 !! y = load <$> jheap s !! y).
  { intros y. rewrite E3. by eapply insert_load. }
  assert (ND : NoDup (x :: l)) by (apply NoDup_cons; split; [done|apply Q]).
  assert (Hfin : forall h', (forall y, load <$> h' !! y = load <$> jheap s !! y) ->
    loads h' (x :: l) = load j :: loads (jheap s) l).
  { intros h' Hh. rewrite loads_cons, Hh, Hj. simpl. f_equal. by apply loads_ext. }
  destruct l as [|y l]; simpl head.
  - unfold mbind, M_bind, modify, unlock_jobs, jget. simpl. eexists. split; [done|].
    split_and!; try done. by apply Hfin.
  - destruct (queue_in_heap _ _ y Q) as [jy Hy]; [left|]. rewrite Hy in HL.
    assert (Hxy : x <> y) by (intros ->; apply Hx; left).
    assert (Hy3 : h3 !! y = Some jy) by (rewrite E3, lookup_insert_ne; done).
    assert (Hld4 : forall z, load <$> (<[y := with_prev (Some x) jy]> h3) !! z = load <$> jheap s !! z).
    { intros z. rewrite <- Hld3. by eapply insert_load. }
    run (store_ok_job (set_jheap h3 s2) y jy (with_prev (Some x)) Hy3).
    unfold mbind, M_bind, modify, unlock_jobs, jget. simpl. eexists. split; [done|].
    split_and!; try done; [|by apply Hfin]. constructor; simpl; try done. apply (q_tail _ _ Q).
Qed.

Lemma remove_job_ok s a x b :
  queue s (a ++ x :: b) ->
  exists s', remove_job (Some x) s = Ret tt s' /\ queue s' (a ++ b) /\
    (forall y, load <$> jheap s' !! y = load <$> jheap s !! y) /\
    joblock s' = joblock s /\ nextjob s' = nextjob s.
Proof.
  intros Q. destruct (queue_node _ _ _ _ Q) as (j & Hj & P & N). pose proof (q_nodup _ _ Q) as ND.
  pose proof (linked_unlink_job _ _ _ _ (q_link _ _ Q) ND) as HL.
  assert (ND' : NoDup (a ++ b)).
  { rewrite Permutation_middle in ND || rewrite <- Permutation_middle in ND. by apply NoDup_cons in ND as [_ ND]. }
  unfold remove_job. run (deref_ok s x j Hj). rewrite N, P.
  set (h1 := unlink_next (jheap s) (last a) b) in *.
  assert (Hld1 : forall y, load <$> h1 !! y = load <$> jheap s !! y).
  { intros y. unfold h1. destruct b as [|z b]; simpl; [done|]. destruct (jheap s !! z) eqn:Ez; [|done].
    by eapply insert_load. }
  set (s1 := Jobs h1 (jobhead s) (if b is [] then last a else jobtail s) (nextjob s) (joblock s) (jobwait s)).
  assert (E1 : (match head b with
     | Some _ => store_job (head b) (with_prev (last a)) | None => modify (set_jobtail (last a)) end) s = Ret tt s1).
  { destruct b as [|y b]; simpl; [by destruct s|].
    destruct (queue_in_heap _ _ y Q) as [jy Hy]; [apply elem_of_app; right; right; left|].
    rewrite (store_ok_job s y jy _ Hy). unfold s1, h1. simpl. by rewrite Hy. }
  run E1. assert (Hj1 : jheap s1 !! x = Some j).
  { unfold s1, h1. simpl. rewrite (unlink_next_lookup _ _ _ _ _ Hj). rewrite decide_False; [done|].
    intros Hh%head_in. apply NoDup_app in ND as (_ & _ & [ND _]%NoDup_cons). done. }
  run (deref_ok s1 x j Hj1). rewrite N, P. set (h2 := unlink_prev h1 (head b) (last a)) in *.
  assert (Hld2 : forall y, load <$> h2 !! y = load <$> jheap s !! y).
  { intros y. rewrite <- Hld1. unfold h2, unlink_prev. destruct (last a) as [z|]; [|done].
    destruct (h1 !! z) eqn:Ez; [|done]. by eapply insert_load. }
  exists (Jobs h2 (if a is [] then head b else jobhead s) (jobtail s1) (nextjob s) (joblock s) (jobwait s)).
  split; [|split_and!; try done].
  - destruct (last a) as [z|] eqn:El.
    + assert (Hz : z ∈ a) by (by apply last_in). destruct (queue_in_heap _ _ z Q) as [jz Hjz]; [apply elem_of_app; by left|].
      assert (Hz1 : exists jz', h1 !! z = Some jz') by (unfold h1; rewrite (unlink_next_lookup _ _ _ _ _ Hjz); eauto).
      destruct Hz1 as [jz' Hz1]. rewrite (store_ok_job s1 z jz' _ Hz1). unfold h2. simpl. rewrite Hz1.
      destruct a; [by apply not_elem_of_nil in Hz|]. done.
    + apply last_None in El as ->. done.
  - constructor; simpl; try done.
    + rewrite (q_head _ _ Q). by destruct a.
    + rewrite last_app. destruct b as [|y b]; [done|]. rewrite (q_tail _ _ Q), last_cons_app.
      change (last (x :: y :: b)) with (last (y :: b)). by destruct (last (y :: b)) eqn:E; [|apply last_None in E].
Qed.
