(* ===== verification/PrintSpool.v ===== *)
(** The life of print jobs in the daemon of [src/apue2e/ipp/printd.c]: client
    threads number and queue jobs, the printer thread takes them, finishes them or
    puts them back.  Threads interleave between critical sections, so the daemon is
    a step relation whose steps are the critical sections of the source. *)
From S2P Require Import Prelude CStr FileIO PrintQueue.

(** [hand] is the job the printer thread is printing; [numbered] are the numbers
    clients were given, [accepted] the jobs queued and [finished] the jobs freed, all
    in order (the last three are not state of the program). *)
Record spool := Spool {
  sp_jobs : jobs;
  hand : option positive;
  numbered : list Z;
  accepted : list (Z * printreq);
  finished : list (Z * printreq)
}.

Definition free_job (x : positive) (s : jobs) : jobs := set_jheap (delete x (jheap s)) s.

Section Spool.
Context `{K : Kernel}.

Inductive step : spool -> spool -> Prop :=
  | step_number s h nu ac fi id s' :
      (* client_thread: jobid = get_newjobno() *)
      get_newjobno s = Ret id s' ->
      step (Spool s h nu ac fi) (Spool s' h (nu ++ [id]) ac fi)
  | step_add s h nu ac fi r id s' :
      (* client_thread, build_qonstart: add_job(&req, jobid) *)
      add_job r id s = Ret tt s' ->
      step (Spool s h nu ac fi) (Spool s' h nu (ac ++ [(id, r)]) fi)
  | step_pick s nu ac fi x s' :
      (* printer_thread: remove_job(jp = jobhead) *)
      pick_job s = Ret (Some x) s' ->
      step (Spool s None nu ac fi) (Spool s' (Some x) nu ac fi)
  | step_defer s nu ac fi x s' :
      (* printer_thread: replace_job(jp) *)
      replace_job (Some x) s = Ret tt s' ->
      step (Spool s (Some x) nu ac fi) (Spool s' None nu ac fi)
  | step_free s nu ac fi x j :
      (* printer_thread: free(jp), printed or canceled *)
      jheap s !! x = Some j ->
      step (Spool s (Some x) nu ac fi) (Spool (free_job x s) None nu ac (fi ++ [load j])).

Inductive reachable (s0 : spool) : spool -> Prop :=
  | reach_start : reachable s0 s0
  | reach_step s s' : reachable s0 s -> step s s' -> reachable s0 s'.

(** The daemon starts with an empty queue and the next number [n] ([init_request]). *)
Definition start (n : Z) : spool := Spool (Jobs ∅ None None n false 0) None [] [] [].

(** ** The invariant *)

Definition in_hand (s : spool) : list (Z * printreq) :=
  match hand s with Some x => loads (jheap (sp_jobs s)) [x] | None => [] end.

Record spool_ok (s : spool) (l : list positive) : Prop := {
  so_queue : queue (sp_jobs s) l;
  so_lock : joblock (sp_jobs s) = false;
  so_next : 1 <= nextjob (sp_jobs s) <= LONG_MAX;
  so_hand : forall x, hand s = Some x -> (x ∉ l) /\ is_Some (jheap (sp_jobs s) !! x);
  so_jobs : finished s ++ in_hand s ++ loads (jheap (sp_jobs s)) l = accepted s
}.

Lemma start_ok n : 1 <= n <= LONG_MAX -> spool_ok (start n) [].
Proof.
  intros Hn. constructor; try done. constructor; try done; [constructor|]. intros [|? ?] x b E; done.
Qed.

(** An empty queue is left alone; otherwise the first job is taken. *)
Lemma pick_job_ok s l :
  queue s l -> joblock s = false ->
  exists s', pick_job s = Ret (head l) s' /\ queue s' (tail l) /\ joblock s' = false /\
    nextjob s' = nextjob s /\ forall y, load <$> jheap s' !! y = load <$> jheap s !! y.
Proof.
  intros Q Hl. unfold pick_job. run (lock_ok_jobs s Hl). rewrite run_jget. cbn [jobhead set_joblock].
  rewrite (q_head _ _ Q). destruct l as [|x l]; simpl.
  - run (unlock_ok_jobs (set_joblock true s) eq_refl). eexists. split; [done|]. split_and!; try done.
    by destruct Q.
  - destruct (remove_job_ok (set_joblock true s) [] x l) as (s1 & E1 & Q1 & H1 & L1 & N1).
    { destruct Q. by constructor. }
    run E1. run (unlock_ok_jobs s1 L1). eexists. split; [done|]. split_and!; try done. by destruct Q1.
Qed.

Lemma loads_singleton h x : loads h [x] = option_list (load <$> h !! x).
Proof. rewrite loads_cons. by rewrite app_nil_r. Qed.

Lemma in_hand_ext h h' x :
  load <$> h' !! x = load <$> h !! x -> loads h' [x] = loads h [x].
Proof. intros E. by rewrite !loads_singleton, E. Qed.

Lemma loads_is_Some (h h' : gmap positive job) x :
  load <$> h' !! x = load <$> h !! x -> is_Some (h !! x) -> is_Some (h' !! x).
Proof. intros E [j Hj]. rewrite Hj in E. destruct (h' !! x); [eauto|done]. Qed.

Lemma free_queue s l x : queue s l -> x ∉ l -> queue (free_job x s) l.
Proof.
  intros [H1 H2 H3 H4] Hx. constructor; try done. intros a y b E. destruct (H4 a y b E) as (j & Hj & P & N).
  exists j. split; [|done]. simpl. rewrite lookup_delete_ne; [done|]. intros ->. apply Hx. rewrite E.
  apply elem_of_app. right. left.
Qed.

Lemma step_ok s s' l : k_malloc sizeof_job = true -> spool_ok s l -> step s s' -> exists l', spool_ok s' l'.
Proof.
  intros Hmem [Q L N H J] St. destruct St as [s h nu ac fi id s' E|s h nu ac fi r id s' E|s nu ac fi x s' E
    |s nu ac fi x s' E|s nu ac fi x j Hj]; simpl in *; unfold in_hand in J; simpl in J.
  - rewrite (get_newjobno_ok s L N) in E. injection E as <- <-. exists l. constructor; try done.
    + by destruct Q.
    + simpl. destruct (Z.eqb_spec (nextjob s) LONG_MAX); unfold LONG_MAX in *; lia.
  - destruct (add_job_ok Hmem s l r id Q L) as (s2 & x & E2 & Q2 & Hx & Hld & Hot & L2 & N2 & _).
    rewrite E in E2. injection E2 as <-. exists (l ++ [x]).
    assert (Hh : forall y, h = Some y -> (y ∉ l) /\ y <> x /\ jheap s' !! y = jheap s !! y).
    { intros y Hy. destruct (H y Hy) as [H1 H2]. assert (y <> x).
      { intros ->. by apply Hx, elem_of_dom. } split_and!; try done. by apply Hot. }
    constructor; simpl; try done; [lia| |].
    + intros y Hy. destruct (Hh y Hy) as (H1 & H2 & H3). rewrite H3. split; [|by apply H].
      intros [?|?%list_elem_of_singleton]%elem_of_app; done.
    + unfold in_hand. simpl. rewrite Hld, <- J, !app_assoc. do 2 f_equal.
      destruct h as [y|]; [|done]. f_equal. apply in_hand_ext. by rewrite (proj2 (proj2 (Hh y eq_refl))).
  - destruct (pick_job_ok s l Q L) as (s2 & E2 & Q2 & L2 & N2 & Hld). rewrite E in E2. injection E2 as Ex <-.
    destruct l as [|x' l]; [done|]. injection Ex as ->. simpl in *.
    destruct (queue_in_heap _ _ x' Q) as [j Hj]; [left|].
    exists l. constructor; simpl; try done; [lia| |].
    + intros y [= <-]. split; [|eapply loads_is_Some; [apply Hld|eauto]].
      pose proof (q_nodup _ _ Q) as [? _]%NoDup_cons. done.
    + rewrite <- J. unfold in_hand. simpl. f_equal. rewrite (in_hand_ext _ _ _ (Hld x')).
      rewrite (loads_cons _ x' l), loads_singleton. f_equal. apply loads_ext. intros; apply Hld.
  - destruct (H x eq_refl) as [Hx [j Hj]].
    destruct (replace_job_ok s l x j Q L Hx Hj) as (s2 & E2 & Q2 & Hld & Hl2 & L2 & N2).
    rewrite E in E2. injection E2 as <-. exists (x :: l). constructor; simpl; try done; [lia|].
    unfold in_hand. simpl. rewrite Hld, <- J, loads_singleton, Hj. done.
  - destruct (H x eq_refl) as [Hx _]. exists l. constructor; simpl; try done; [by apply free_queue|].
    unfold in_hand. simpl. rewrite <- J, loads_singleton, Hj, <- app_assoc. simpl. do 2 f_equal.
    apply loads_ext. intros y Hy. rewrite lookup_delete_ne; [done|]. by intros ->.
Qed.

Lemma reachable_ok n s :
  k_malloc sizeof_job = true -> 1 <= n <= LONG_MAX -> reachable (start n) s -> exists l, spool_ok s l.
Proof.
  intros Hm Hn. induction 1 as [|s s' _ [l IH] St].
  - exists []. by apply start_ok.
  - by eapply step_ok.
Qed.

(** Job numbers: only [get_newjobno] changes the counter. *)
Lemma step_next s s' l :
  k_malloc sizeof_job = true -> spool_ok s l -> step s s' ->
  (numbered s' = numbered s /\ nextjob (sp_jobs s') = nextjob (sp_jobs s)) \/
  (numbered s' = numbered s ++ [nextjob (sp_jobs s)] /\
   nextjob (sp_jobs s') = if nextjob (sp_jobs s) =? LONG_MAX then 1 else nextjob (sp_jobs s) + 1).
Proof.
  intros Hmem [Q L N H J] St. destruct St as [s h nu ac fi id s' E|s h nu ac fi r id s' E|s nu ac fi x s' E
    |s nu ac fi x s' E|s nu ac fi x j Hj]; simpl in *; [right|left; split; [done|]..].
  - rewrite (get_newjobno_ok s L N) in E. by injection E as <- <-.
  - destruct (add_job_ok Hmem s l r id Q L) as (s2 & x & E2 & _ & _ & _ & _ & _ & N2 & _).
    rewrite E in E2. by injection E2 as <-.
  - destruct (pick_job_ok s l Q L) as (s2 & E2 & _ & _ & N2 & _). rewrite E in E2. by injection E2 as _ <-.
  - destruct (H x eq_refl) as [Hx [j Hj]].
    destruct (replace_job_ok s l x j Q L Hx Hj) as (s2 & E2 & _ & _ & _ & _ & N2).
    rewrite E in E2. by injection E2 as <-.
  - done.
Qed.

Lemma numbers_ok n s :
  k_malloc sizeof_job = true -> 1 <= n <= LONG_MAX -> reachable (start n) s ->
  n + Z.of_nat (length (numbered s)) <= LONG_MAX ->
  numbered s = seqZ n (Z.of_nat (length (numbered s))) /\
  nextjob (sp_jobs s) = n + Z.of_nat (length (numbered s)).
Proof.
  intros Hm Hn R. induction R as [|s s' R IH St]; intros Hle; [simpl; split; [done|lia]|].
  destruct (reachable_ok _ _ Hm Hn R) as [l Ok].
  destruct (step_next s s' l Hm Ok St) as [[E1 E2]|[E1 E2]]; rewrite ?E1, ?E2 in *; [by apply IH|].
  rewrite length_app in *. simpl in *. destruct IH as [IH1 IH2]; [lia|]. rewrite IH2.
  bfalse (n + Z.of_nat (length (numbered s)) =? LONG_MAX). split; [|lia].
  by rewrite Nat.add_1_r, seqZ_S, <- IH1.
Qed.
End Spool.
