(* ===== verification/PrintNet.v ===== *)
(** The print spooler's communication: sockets as the programs see them, the timed
    reads of [src/apue2e/ipp/util.c], the request and response structures of
    [src/apue2e/ipp/print.h] as bytes (a 64-bit little-endian machine), and the
    configuration file. *)
From S2P Require Import Prelude CStr FileIO ReadN PrintQueue.

(** ** Integers in memory and on the wire *)

Fixpoint le_bytes (n : nat) (x : Z) : list Z :=
  match n with
  | O => []
  | S k => x mod 256 :: le_bytes k (x / 256)
  end.
Fixpoint le_val (bs : list Z) : Z :=
  match bs with
  | [] => 0
  | b :: bs' => b + 256 * le_val bs'
  end.

Definition bswap (n : nat) (x : Z) : Z := le_val (rev (le_bytes n x)).
(** [htonl] takes and gives a [uint32_t], [htons] a [uint16_t]; their inverses do the
    same. *)
Definition htonl (x : Z) : Z := bswap 4 x.
Definition ntohl (x : Z) : Z := bswap 4 x.
Definition htons (x : Z) : Z := bswap 2 x.
Definition ntohs (x : Z) : Z := bswap 2 x.

Lemma le_bytes_length n x : length (le_bytes n x) = n.
Proof. revert x. induction n as [|n IH]; intros x; simpl; [done|]. by rewrite IH. Qed.

Lemma le_val_bytes n x : le_val (le_bytes n x) = x mod 256 ^ Z.of_nat n.
Proof.
  revert x. induction n as [|n IH]; intros x; simpl le_val; [by rewrite Z.mod_1_r|].
  rewrite IH, Nat2Z.inj_succ, Z.pow_succ_r by lia.
  rewrite Z.rem_mul_r by (try apply Z.pow_pos_nonneg; lia). done.
Qed.

Lemma le_bytes_val bs :
  Forall (fun b => 0 <= b < 256) bs -> le_bytes (length bs) (le_val bs) = bs.
Proof.
  induction 1 as [|b bs Hb _ IH]; simpl; [done|]. rewrite (Z.mul_comm 256).
  rewrite Z.mod_add, Z.mod_small by lia. f_equal.
  by rewrite Z.div_add, Z.div_small, Z.add_0_l by lia.
Qed.

Lemma le_bytes_range n x : Forall (fun b => 0 <= b < 256) (le_bytes n x).
Proof.
  revert x. induction n as [|n IH]; intros x; simpl; constructor; [|done].
  apply Z.mod_pos_bound. lia.
Qed.

Lemma bswap_bswap n x : bswap n (bswap n x) = x mod 256 ^ Z.of_nat n.
Proof.
  unfold bswap. pose proof (le_bytes_range n x) as F. apply Forall_rev in F.
  pose proof (le_bytes_val _ F) as E. rewrite length_rev, le_bytes_length in E.
  by rewrite E, rev_involutive, le_val_bytes.
Qed.

Lemma bswap_range n x : 0 <= bswap n x < 256 ^ Z.of_nat n.
Proof.
  unfold bswap. pose proof (le_bytes_range n x) as F. apply Forall_rev in F.
  pose proof (le_bytes_val _ F) as E. rewrite length_rev, le_bytes_length in E.
  pose proof (le_val_bytes n (le_val (rev (le_bytes n x)))) as H. rewrite E in H. rewrite H.
  apply Z.mod_pos_bound. apply Z.pow_pos_nonneg; lia.
Qed.

(** ** Structures *)

Definition USERNM_MAX : Z := 64.
Definition JOBNM_MAX : Z := 256.
Definition MSGLEN_MAX : Z := 512.
Definition PR_TEXT : Z := 1.
Definition IOBUFSZ : Z := 8192.
Definition FILENMSZ : Z := 64.

Definition sizeof_printreq : Z := 336.
Definition sizeof_printresp : Z := 528.

Definition enc_req (r : printreq) : list Z :=
  le_bytes 8 (req_size r) ++ le_bytes 8 (flags r) ++ usernm r ++ jobnm r.
Definition dec_req (bs : list Z) : printreq :=
  PrintReq (swrap 64 (le_val (take 8 bs))) (swrap 64 (le_val (take 8 (drop 8 bs))))
    (take 64 (drop 16 bs)) (take 256 (drop 80 bs)).

Record printresp := PrintResp { retcode : Z; resp_jobid : Z; msg : list Z }.
Definition enc_resp (r : printresp) : list Z :=
  le_bytes 8 (retcode r) ++ le_bytes 8 (resp_jobid r) ++ msg r.
Definition dec_resp (bs : list Z) : printresp :=
  PrintResp (swrap 64 (le_val (take 8 bs))) (swrap 64 (le_val (take 8 (drop 8 bs)))) (drop 16 bs).

(** Field sizes and ranges. *)
Record req_ok (r : printreq) : Prop := {
  rq_size : - 2 ^ 63 <= req_size r < 2 ^ 63;
  rq_flags : - 2 ^ 63 <= flags r < 2 ^ 63;
  rq_usernm : Z.of_nat (length (usernm r)) = USERNM_MAX;
  rq_jobnm : Z.of_nat (length (jobnm r)) = JOBNM_MAX
}.

Lemma swrap_mod w x : 0 < w -> - 2 ^ (w - 1) <= x < 2 ^ (w - 1) -> swrap w (x mod 2 ^ w) = x.
Proof.
  intros Hw Hx. unfold swrap. assert (E : 2 ^ w = 2 * 2 ^ (w - 1)).
  { rewrite <- Z.pow_succ_r by lia. f_equal. lia. }
  set (h := 2 ^ (w - 1)) in *. assert (Hh : 0 < h) by (unfold h; apply Z.pow_pos_nonneg; lia).
  rewrite Z.mod_mod by lia. cbv zeta. destruct (Z_lt_le_dec x 0) as [Hn|Hn].
  - replace (x mod 2 ^ w) with (x + 2 ^ w); [bfalse (x + 2 ^ w <? h); lia|].
    apply Z.mod_unique with (-1); lia.
  - rewrite Z.mod_small by lia. btrue (x <? h). done.
Qed.

Lemma enc_req_length r : req_ok r -> Z.of_nat (length (enc_req r)) = sizeof_printreq.
Proof.
  intros [_ _ H1 H2]. unfold enc_req. rewrite !length_app, !le_bytes_length.
  unfold USERNM_MAX, JOBNM_MAX, sizeof_printreq in *. lia.
Qed.

Lemma long_round x : - 2 ^ 63 <= x < 2 ^ 63 -> swrap 64 (le_val (le_bytes 8 x)) = x.
Proof. intros Hx. rewrite le_val_bytes. change (256 ^ Z.of_nat 8) with (2 ^ 64). by apply swrap_mod. Qed.

Lemma field_at (a b c : list Z) n m : length a = n -> length b = m -> take m (drop n (a ++ b ++ c)) = b.
Proof. intros <- <-. apply take_drop_app. Qed.

Lemma dec_enc_req r : req_ok r -> dec_req (enc_req r) = r.
Proof.
  intros [H1 H2 H3 H4]. unfold dec_req, enc_req, USERNM_MAX, JOBNM_MAX in *.
  pose proof (le_bytes_length 8 (req_size r)) as L1. pose proof (le_bytes_length 8 (flags r)) as L2.
  set (a := le_bytes 8 (req_size r)) in *. set (b := le_bytes 8 (flags r)) in *.
  rewrite (take_app_length' a (b ++ usernm r ++ jobnm r) 8) by done.
  rewrite (field_at a b (usernm r ++ jobnm r) 8 8) by done.
  replace (a ++ b ++ usernm r ++ jobnm r) with ((a ++ b) ++ usernm r ++ jobnm r) by (by rewrite app_assoc).
  rewrite (field_at (a ++ b) (usernm r) (jobnm r) 16 64) by (rewrite ?length_app; lia).
  replace ((a ++ b) ++ usernm r ++ jobnm r) with (((a ++ b) ++ usernm r) ++ jobnm r ++ [])
    by (by rewrite app_nil_r, <- app_assoc).
  rewrite (field_at ((a ++ b) ++ usernm r) (jobnm r) [] 80 256) by (rewrite ?length_app; lia).
  unfold a, b. rewrite !long_round by done. by destruct r.
Qed.

(** ** Sockets *)

(** What the peer and the network will do, in order: the outcome of waiting for input
    and of the read that follows.  A peer with nothing more to say lets the wait
    time out. *)
Inductive sock_ev :=
  | SelErr (e : Z)         (* select fails *)
  | SelTimeout
  | ReadErr (e : Z)        (* readable, but read fails *)
  | Data (bs : list Z).    (* bytes; none: end of file *)

(** [s_room]: how many more bytes the connection takes; negative once this process has
    closed it. *)
Record sock := Sock { s_in : list sock_ev; s_out : list Z; s_room : Z }.

(** A process with files and sockets; [n_log] are the formats of the messages it
    logged, newest first. *)
Record net := Net {
  n_w : world;
  n_socks : gmap Z sock;
  n_errno : Z;
  n_log : list string
}.

Definition set_n_w w (s : net) := Net w (n_socks s) (n_errno s) (n_log s).
Definition set_n_socks k (s : net) := Net (n_w s) k (n_errno s) (n_log s).
Definition set_n_errno e (s : net) := Net (n_w s) (n_socks s) e (n_log s).
Definition set_n_log l (s : net) := Net (n_w s) (n_socks s) (n_errno s) l.

Definition ETIME : Z := 62.
Definition EIO : Z := 5.
Definition EBADF : Z := 9.
Definition EPIPE : Z := 32.
Definition FD_SETSIZE : Z := 1024.

Definition nget {A} (f : net -> A) : M net A := fun s => Ret (f s) s.
Definition log_msg (m : string) : M net unit := modify (fun s => set_n_log (m :: n_log s) s).
Definition fsys {A} (f : world -> A * world) : M net A := fun s =>
  let '(a, w') := f (n_w s) in Ret a (set_n_w w' s).

Definition open_sock (socks : gmap Z sock) (fd : Z) : option sock :=
  match socks !! fd with
  | Some k => if s_room k <? 0 then None else Some k
  | None => None
  end.

Lemma open_sock_ok socks fd k : socks !! fd = Some k -> 0 <= s_room k -> open_sock socks fd = Some k.
Proof. intros H Hr. unfold open_sock. rewrite H. by bfalse (s_room k <? 0). Qed.

(** [read] of a socket, after the wait. *)
Definition sock_read (fd n : Z) (evs : list sock_ev) (k : sock) : M net (Z * list Z) := fun s =>
  let put evs' := set_n_socks (<[fd := Sock evs' (s_out k) (s_room k)]> (n_socks s)) in
  match evs with
  | Data bs :: evs' =>
      if Z.of_nat (length bs) <=? n
      then Ret (Z.of_nat (length bs), bs) (put evs' s)
      else Ret (n, take (Z.to_nat n) bs) (put (Data (drop (Z.to_nat n) bs) :: evs') s)
  | ReadErr e :: evs' => Ret (-1, []) (set_n_errno e (put evs' s))
  | _ => Ret (-1, []) s
  end.

Definition tread (fd n timout : Z) : M net (Z * list Z) :=
  if (fd <? 0) || (FD_SETSIZE <=? fd) then die (Undefined "FD_SET of a descriptor out of range") else
  socks ← nget n_socks;
  match open_sock socks fd with
  | None => modify (set_n_errno EBADF) ;; mret (-1, [])
  | Some k =>
      match s_in k with
      | [] => modify (set_n_errno ETIME) ;; mret (-1, [])
      | SelTimeout :: evs =>
          modify (set_n_socks (<[fd := Sock evs (s_out k) (s_room k)]> socks)) ;;
          modify (set_n_errno ETIME) ;; mret (-1, [])
      | SelErr e :: evs =>
          modify (set_n_socks (<[fd := Sock evs (s_out k) (s_room k)]> socks)) ;;
          modify (set_n_errno e) ;; mret (-1, [])
      | evs => sock_read fd n evs k
      end
  end.

Definition treadn (fd nbytes timout : Z) : M net (Z * list Z) :=
  readn (fun nleft => tread fd nleft timout) nbytes.

(** One [write] to a socket. *)
Definition sock_write (fd : Z) (bs : list Z) : M net Z :=
  socks ← nget n_socks;
  match open_sock socks fd with
  | None => modify (set_n_errno EBADF) ;; mret (-1)
  | Some k =>
      let n := Z.of_nat (length bs) in
      let w := if n <=? s_room k then n else s_room k in
      if (n =? 0) || (0 <? w)
      then modify (set_n_socks (<[fd := Sock (s_in k) (s_out k ++ take (Z.to_nat w) bs) (s_room k - w)]> socks)) ;;
           mret w
      else modify (set_n_errno EPIPE) ;; mret (-1)
  end.

(** The closed connection keeps what was sent on it. *)
Definition closed_sock (k : sock) : sock := Sock [] (s_out k) (-1).
Definition sock_close (fd : Z) : M net unit :=
  modify (fun s => set_n_socks (alter closed_sock fd (n_socks s)) s).

(** ** The socket as a source of bytes *)

(** The bytes that will be delivered before anything else happens. *)
Fixpoint ready (evs : list sock_ev) : list Z :=
  match evs with
  | Data (b :: bs) :: evs' => (b :: bs) ++ ready evs'
  | _ => []
  end.
Definition waiting_on (fd : Z) (s : net) : list Z :=
  match n_socks s !! fd with Some k => ready (s_in k) | None => [] end.
Definition sent_on (fd : Z) (s : net) : list Z :=
  match n_socks s !! fd with Some k => s_out k | None => [] end.

(** The descriptor is a connected socket; the files are [w]. *)
Record sock_ok (fd : Z) (w : world) (s : net) : Prop := {
  ok_range : 0 <= fd < FD_SETSIZE;
  ok_conn : exists k, n_socks s !! fd = Some k /\ 0 <= s_room k;
  ok_world : n_w s = w
}.

Lemma ready_app_data bs evs : bs <> [] -> ready (Data bs :: evs) = bs ++ ready evs.
Proof. by destruct bs. Qed.

Lemma ready_drop bs n evs :
  (n < length bs)%nat -> ready (Data bs :: evs) = take n bs ++ ready (Data (drop n bs) :: evs).
Proof.
  intros Hn. rewrite !ready_app_data.
  - by rewrite app_assoc, take_drop.
  - intros E%(f_equal length). rewrite length_drop in E. simpl in E. lia.
  - by destruct bs; [simpl in Hn; lia|].
Qed.

#[export] Instance tread_source fd timout w :
  Source (fun n => tread fd n timout) (sock_ok fd w) (waiting_on fd).
Proof.
  assert (Hin : forall (k : sock) evs socks e lg, 0 <= s_room k -> 0 <= fd < FD_SETSIZE ->
    sock_ok fd w (Net w (<[fd := Sock evs (s_out k) (s_room k)]> socks) e lg)).
  { intros k evs socks e lg Hk Hr. constructor; [done| |done]. simpl. rewrite lookup_insert_eq. by eexists. }
  split.
  - intros n s [Hfd (k & Hk & Hrm) <-] Hn. unfold tread.
    replace ((fd <? 0) || (FD_SETSIZE <=? fd)) with false by (symmetry; apply orb_false_iff; lia).
    unfold mbind, M_bind, nget. rewrite (open_sock_ok _ _ _ Hk Hrm).
    destruct (s_in k) as [|[e| |e|bs] evs].
    + eexists _, _, _. split; [done|]. split; [constructor; eauto|auto].
    + eexists _, _, _. split; [done|]. split; [by apply Hin|auto].
    + eexists _, _, _. split; [done|]. split; [by apply Hin|auto].
    + eexists _, _, _. split; [done|]. split; [by apply Hin|auto].
    + unfold sock_read. destruct (Z.leb_spec (Z.of_nat (length bs)) n); eexists _, _, _; (split; [done|]);
        (split; [by apply Hin|right]); rewrite ?length_take; lia.
  - intros n s [Hfd (k & Hk & Hrm) <-] Hn Hw. unfold tread, waiting_on in *.
    replace ((fd <? 0) || (FD_SETSIZE <=? fd)) with false by (symmetry; apply orb_false_iff; lia).
    unfold mbind, M_bind, nget. rewrite (open_sock_ok _ _ _ Hk Hrm). rewrite Hk in *.
    destruct (s_in k) as [|[e| |e|bs] evs] eqn:Ei; try done.
    assert (Hb : bs <> []) by (by destruct bs). unfold sock_read.
    destruct (Z.leb_spec (Z.of_nat (length bs)) n).
    + exists bs. eexists. split; [done|]. split_and!; try done; [|by apply Hin].
      cbn [n_socks set_n_socks]. rewrite lookup_insert_eq. cbn [s_in]. by rewrite ready_app_data.
    + exists (take (Z.to_nat n) bs). eexists. split; [do 2 f_equal; rewrite length_take; lia|].
      split_and!; [|rewrite length_take; lia| |by apply Hin].
      * intros E%(f_equal length). rewrite length_take in E. simpl in E. lia.
      * cbn [n_socks set_n_socks]. rewrite lookup_insert_eq. apply ready_drop. lia.
Qed.

#[export] Instance sock_sink fd w : Sink (sock_write fd) (sock_ok fd w) (sent_on fd).
Proof.
  split. intros bs s [Hfd (k & Hk & Hr) <-] Hb. unfold sock_write, sent_on.
  unfold mbind, M_bind, nget. rewrite (open_sock_ok _ _ _ Hk Hr). rewrite Hk. set (n := Z.of_nat (length bs)).
  set (w := if n <=? s_room k then n else s_room k).
  assert (Hw : 0 <= w <= n /\ w <= s_room k) by (unfold w; destruct (Z.leb_spec n (s_room k)); lia).
  destruct (_ || _).
  - eexists w, _. split; [done|]. split.
    + constructor; [done| |done]. simpl. rewrite lookup_insert_eq. eexists. split; [done|]. simpl. lia.
    + right. simpl. rewrite lookup_insert_eq. simpl. split; [lia|done].
  - eexists (-1), _. split; [done|]. split; [constructor; eauto|]. left. simpl. by rewrite Hk.
Qed.

(** ** The configuration file *)

Definition MAXCFGLINE : nat := 512.
Definition MAXKWLEN : nat := 16.

(** [sscanf(line, "%15s %511s", keybuf, valbuf)] when it converts both. *)
Definition scan_line (line : list Z) : option (list Z * list Z) :=
  let '(key, rest) := span_word (MAXKWLEN - 1) (skip_space (cstr line)) in
  match key with
  | [] => None
  | _ => let '(val, _) := span_word (MAXCFGLINE - 1) (skip_space rest) in
         match val with [] => None | _ => Some (key, val) end
  end.

Fixpoint scan_lines (fuel : nat) (keyword c : list Z) : option (list Z) :=
  match fuel, c with
  | S f, _ :: _ =>
      let '(line, rest) := fgets (MAXCFGLINE - 1) c in
      match scan_line line with
      | Some (key, val) => if decide (key = keyword) then Some val else scan_lines f keyword rest
      | None => scan_lines f keyword rest
      end
  | _, _ => None
  end.

Definition CONFIG_FILE : list Z := bytes "/etc/printer.conf".

(** Every call of [fgets] takes at least one byte: the length is fuel enough. *)
Definition scan_configfile (keyword : list Z) : M net (option (list Z)) :=
  w ← nget n_w;
  match files w !! CONFIG_FILE with
  | None => die (Err_sys "can't open %s")
  | Some c => mret (scan_lines (S (length c)) keyword c)
  end.
Definition get_printserver : M net (option (list Z)) := scan_configfile (bytes "printserver").

Definition word (s : list Z) : Prop := s <> [] /\ Forall (fun b => isspace b = false /\ b <> 0) s.

Definition cfg_line (kv : list Z * list Z) : list Z := kv.1 ++ [SPACE] ++ kv.2 ++ [NEWLINE].
Definition cfg_text (kvs : list (list Z * list Z)) : list Z := concat (map cfg_line kvs).
Definition cfg_ok (kv : list Z * list Z) : Prop :=
  word kv.1 /\ word kv.2 /\ (length kv.1 < MAXKWLEN)%nat /\ (length (cfg_line kv) < MAXCFGLINE)%nat.

Fixpoint assoc (k : list Z) (kvs : list (list Z * list Z)) : option (list Z) :=
  match kvs with
  | [] => None
  | kv :: kvs' => if decide (kv.1 = k) then Some kv.2 else assoc k kvs'
  end.

Lemma span_word_word n w c r :
  Forall (fun b => isspace b = false /\ b <> 0) w -> (length w <= n)%nat -> isspace c = true ->
  span_word n (w ++ c :: r) = (w, c :: r).
Proof.
  intros F. revert n. induction F as [|b w [Hb _] _ IH]; intros n Hn Hc; destruct n as [|n]; simpl in *; try lia;
    rewrite ?Hc, ?Hb; [done|done|]. by rewrite IH by (done || lia).
Qed.

Lemma skip_space_word w r : word w -> skip_space (w ++ r) = w ++ r.
Proof. intros [Hne F]. destruct F as [|b w [Hb _] _]; [done|]. simpl. by rewrite Hb. Qed.

Lemma word_no_newline w : word w -> Forall (fun b => b <> NEWLINE) w.
Proof. intros [_ F]. eapply Forall_impl; [done|]. intros b [Hb _] ->. done. Qed.

Lemma word_nonul w : word w -> nonul w.
Proof. intros [_ F]. eapply Forall_impl; [done|]. by intros b [_ ?]. Qed.

Lemma scan_cfg_line kv : cfg_ok kv -> scan_line (cfg_line kv) = Some kv.
Proof.
  intros (Hk & Hv & Hl & Hl'). unfold scan_line.
  assert (E : cstr (cfg_line kv) = cfg_line kv).
  { apply cstr_id. unfold cfg_line. repeat (apply Forall_app; split); try by apply word_nonul.
    - by repeat constructor.
    - by repeat constructor. }
  rewrite E. unfold cfg_line in *. rewrite skip_space_word by done. unfold MAXKWLEN, MAXCFGLINE in *.
  rewrite !length_app in Hl'. simpl in Hl'.
  change (16 - 1)%nat with 15%nat. change (512 - 1)%nat with 511%nat.
  change ([SPACE] ++ kv.2 ++ [NEWLINE]) with (SPACE :: kv.2 ++ [NEWLINE]).
  rewrite (span_word_word 15 kv.1 SPACE (kv.2 ++ [NEWLINE])) by (done || apply Hk || lia).
  destruct Hk as [Hk _], kv as [k v]; cbn [fst snd] in *. destruct k as [|b k]; [done|].
  change (skip_space (SPACE :: v ++ [NEWLINE])) with (skip_space (v ++ [NEWLINE])).
  rewrite skip_space_word by done.
  rewrite (span_word_word 511 v NEWLINE []) by (done || apply Hv || lia).
  destruct Hv as [Hv _]. by destruct v.
Qed.

Lemma scan_lines_ok fuel kw kvs :
  Forall cfg_ok kvs -> (length kvs < fuel)%nat -> scan_lines fuel kw (cfg_text kvs) = assoc kw kvs.
Proof.
  intros F. revert fuel. induction F as [|kv kvs Hkv _ IH]; intros fuel Hf; destruct fuel as [|fuel]; try (simpl in Hf; lia).
  { done. }
  assert (E : cfg_text (kv :: kvs) = (kv.1 ++ [SPACE] ++ kv.2) ++ NEWLINE :: cfg_text kvs).
  { unfold cfg_text, cfg_line. do 4 (simpl; rewrite <- ?app_assoc). done. }
  assert (Hl : fgets (MAXCFGLINE - 1) (cfg_text (kv :: kvs)) = (cfg_line kv, cfg_text kvs)).
  { rewrite E, fgets_line.
    - unfold cfg_line. do 4 (simpl; rewrite <- ?app_assoc). done.
    - destruct Hkv as (H1 & H2 & _). repeat (apply Forall_app; split); try by apply word_no_newline.
      by repeat constructor.
    - destruct Hkv as (_ & _ & _ & H). unfold cfg_line, MAXCFGLINE in *. rewrite !length_app in *. simpl in *. lia. }
  assert (Hne : exists b c, cfg_text (kv :: kvs) = b :: c).
  { rewrite E. destruct (kv.1 ++ [SPACE] ++ kv.2); simpl; eauto. }
  destruct Hne as (b & c & Hne). cbn [assoc]. rewrite <- (IH fuel) by (simpl in Hf; lia).
  cbn [scan_lines]. rewrite Hne at 1. rewrite Hl, scan_cfg_line by done. by destruct kv.
Qed.

Lemma cfg_text_length kvs : Forall cfg_ok kvs -> (length kvs <= length (cfg_text kvs))%nat.
Proof.
  induction 1 as [|kv kvs _ _ IH]; [done|]. unfold cfg_text in *. simpl. rewrite length_app.
  unfold cfg_line at 1. rewrite !length_app. simpl. lia.
Qed.
