(* ===== verification/PrintDaemon.v ===== *)
(** The print spooling daemon of [src/apue2e/ipp/printd.c]: the list of worker
    threads, the job number file, the recovery of the queue at start-up, the thread
    that serves a client and the signal thread.  The printer's side is [PrintIpp]. *)
From S2P Require Import Prelude CStr FileIO ReadN PrintQueue PrintNet.

(** What the daemon uses of the C library and the directory calls. *)
Class Libc := {
  strerror : Z -> list Z;                                 (* text of an error number *)
  fs_errno : world -> Z;                                  (* errno after a failing file call *)
  dir_entries : world -> list Z -> option (list (list Z)) (* opendir and readdir *)
}.

(** ** State *)

Record worker_thread := Worker {
  w_next : option positive;
  w_prev : option positive;
  tid : Z;
  sockfd : Z
}.

(** The list of workers, its mutex, and the threads that were cancelled. *)
Record wlist := WList {
  wheap : gmap positive worker_thread;
  workers : option positive;
  workerlock : bool;
  cancelled : list Z
}.

Record printd := Printd {
  pd_net : net;
  pd_jobs : jobs;
  pd_workers : wlist;
  jobfd : Z;
  configlock : bool;
  reread : bool;
  printer : option (list Z * option (list Z));  (* address, canonical name *)
  printer_name : option (list Z)
}.

Definition set_net n (s : printd) := Printd n (pd_jobs s) (pd_workers s) (jobfd s) (configlock s) (reread s) (printer s) (printer_name s).
Definition set_jobs j (s : printd) := Printd (pd_net s) j (pd_workers s) (jobfd s) (configlock s) (reread s) (printer s) (printer_name s).
Definition set_workers w (s : printd) := Printd (pd_net s) (pd_jobs s) w (jobfd s) (configlock s) (reread s) (printer s) (printer_name s).
Definition set_jobfd f (s : printd) := Printd (pd_net s) (pd_jobs s) (pd_workers s) f (configlock s) (reread s) (printer s) (printer_name s).
Definition set_configlock b (s : printd) := Printd (pd_net s) (pd_jobs s) (pd_workers s) (jobfd s) b (reread s) (printer s) (printer_name s).
Definition set_reread b (s : printd) := Printd (pd_net s) (pd_jobs s) (pd_workers s) (jobfd s) (configlock s) b (printer s) (printer_name s).
Definition set_printer p n (s : printd) := Printd (pd_net s) (pd_jobs s) (pd_workers s) (jobfd s) (configlock s) (reread s) p n.

Definition pget {A} (f : printd -> A) : M printd A := fun s => Ret (f s) s.
Definition on_net {A} (m : M net A) : M printd A := zoom pd_net set_net m.
Definition on_jobs {A} (m : M jobs A) : M printd A := zoom pd_jobs set_jobs m.
Definition on_workers {A} (m : M wlist A) : M printd A := zoom pd_workers set_workers m.
Definition log (m : string) : M printd unit := on_net (log_msg m).

(** ** Worker threads *)

Definition wget {A} (f : wlist -> A) : M wlist A := fun s => Ret (f s) s.
Definition set_wheap h (s : wlist) := WList h (workers s) (workerlock s) (cancelled s).
Definition set_whead p (s : wlist) := WList (wheap s) p (workerlock s) (cancelled s).
Definition set_wlock b (s : wlist) := WList (wheap s) (workers s) b (cancelled s).
Definition set_cancelled l (s : wlist) := WList (wheap s) (workers s) (workerlock s) l.

Definition lock_workers : M wlist unit :=
  b ← wget workerlock; if b : bool then die Loops else modify (set_wlock true).
Definition unlock_workers : M wlist unit := modify (set_wlock false).

Definition wderef (p : option positive) : M wlist worker_thread :=
  h ← wget wheap;
  match p ≫= fun l => h !! l with
  | Some j => mret j
  | None => die (Undefined "no such worker")
  end.
Definition wstore (p : option positive) (f : worker_thread -> worker_thread) : M wlist unit :=
  j ← wderef p;
  match p with
  | Some l => modify (fun s => set_wheap (<[l := f j]> (wheap s)) s)
  | None => mret tt
  end.
Definition with_wnext n (w : worker_thread) := Worker n (w_prev w) (tid w) (sockfd w).
Definition with_wprev p (w : worker_thread) := Worker (w_next w) p (tid w) (sockfd w).

Definition sizeof_worker : Z := 32.

(** [false]: no memory, the thread exits. *)
Definition add_worker `{Kernel} (t fd : Z) : M wlist bool :=
  if negb (k_malloc sizeof_worker) then mret false else
  h ← wget wheap;
  let wtp := fresh (dom h) in
  modify (set_wheap (<[wtp := Worker None None t fd]> h)) ;;
  lock_workers ;;
  hd ← wget workers;
  wstore (Some wtp) (with_wprev None) ;;
  wstore (Some wtp) (with_wnext hd) ;;
  (match hd with
   | None => modify (set_whead (Some wtp))
   | Some _ => wstore hd (with_wprev (Some wtp))
   end) ;;
  unlock_workers ;;
  mret true.

(** The loops over the list; a list has no more nodes than the heap. *)
Fixpoint kill_loop (fuel : nat) (p : option positive) : M wlist unit :=
  match p, fuel with
  | None, _ => mret tt
  | Some _, O => die Loops
  | Some _, S f =>
      w ← wderef p;
      modify (fun s => set_cancelled (cancelled s ++ [tid w]) s) ;;
      kill_loop f (w_next w)
  end.
Definition kill_workers : M wlist unit :=
  lock_workers ;;
  hd ← wget workers;
  h ← wget wheap;
  kill_loop (S (size h)) hd ;;
  unlock_workers.

Fixpoint find_worker (fuel : nat) (t : Z) (p : option positive) : M wlist (option positive) :=
  match p, fuel with
  | None, _ => mret None
  | Some _, O => die Loops
  | Some _, S f =>
      w ← wderef p;
      if tid w =? t then mret p else find_worker f t (w_next w)
  end.
(** [client_cleanup] up to the unlock: the node that was taken out. *)
Definition unlink_worker (t : Z) : M wlist (option positive) :=
  lock_workers ;;
  hd ← wget workers;
  h ← wget wheap;
  p ← find_worker (S (size h)) t hd;
  (match p with
   | None => mret tt
   | Some _ =>
       w ← wderef p;
       (match w_next w with
        | Some _ => wstore (w_next w) (with_wprev (w_prev w))
        | None => mret tt
        end) ;;
       w ← wderef p;
       match w_prev w with
       | Some _ => wstore (w_prev w) (with_wnext (w_next w))
       | None => modify (set_whead (w_next w))
       end
   end) ;;
  unlock_workers ;;
  mret p.
Definition client_cleanup (t : Z) : M printd unit :=
  p ← on_workers (unlink_worker t);
  match p with
  | None => mret tt
  | Some l =>
      w ← on_workers (wderef p);
      on_net (sock_close (sockfd w)) ;;
      on_workers (modify (fun s => set_wheap (delete l (wheap s)) s))
  end.

(** ** Files of the daemon *)

Definition SPOOLDIR : list Z := bytes "/var/spool/printer".
Definition spool_path (dir : string) (name : list Z) : list Z :=
  SPOOLDIR ++ bytes "/" ++ bytes dir ++ bytes "/" ++ name.
Definition JOBFILE : list Z := SPOOLDIR ++ bytes "/" ++ bytes "jobno".
Definition data_path (id : Z) : list Z := spool_path "data" (dec id).
Definition req_path (id : Z) : list Z := spool_path "reqs" (dec id).

Definition unlink (path : list Z) : M net unit :=
  modify (fun s => set_n_w (set_files (delete path (files (n_w s))) (n_w s)) s).

Definition junk `{Kernel} (n : Z) : list Z := map k_junk (seq 0 (Z.to_nat n)).

Section Daemon.
Context `{K : Kernel} `{L : Libc}.

Definition creat (path : list Z) : M net Z :=
  fsys (sys_open path (Z.lor O_WRONLY (Z.lor O_CREAT O_TRUNC))).
Definition close (fd : Z) : M net unit := fsys (sys_close fd) ;; mret tt.

Definition init_request : M printd unit :=
  let name := JOBFILE ++ [0] ++ junk (FILENMSZ - Z.of_nat (length JOBFILE) - 1) in
  fd ← on_net (fsys (sys_open JOBFILE (Z.lor O_CREAT O_RDWR)));
  modify (set_jobfd fd) ;;
  r ← on_net (fsys (write_lock fd 0 SEEK_SET 0));
  (if r <? 0 then die (Err_quit "daemon already running") else mret tt) ;;
  rd ← on_net (fsys (sys_read fd FILENMSZ));
  (if rd.1 <? 0 then die (Err_sys "can't read job file") else mret tt) ;;
  on_jobs (modify (set_nextjob (if rd.1 =? 0 then 1 else atol (poke rd.2 name)))).

Definition update_jobno : M printd unit :=
  fd ← pget jobfd;
  n ← pget (fun s => nextjob (pd_jobs s));
  on_net (fsys (sys_lseek fd 0 SEEK_SET)) ;;
  r ← on_net (fsys (sys_write fd (dec n)));
  if r <? 0 then die (Err_sys "can't update job file") else mret tt.

(** One entry of the request directory.  The names are formatted into arrays of
    [FILENMSZ] bytes. *)
Definition requeue (name : list Z) : M printd unit :=
  if bool_decide (name = bytes ".") || bool_decide (name = bytes "..") then mret tt else
  let fname := spool_path "reqs" name in
  (if FILENMSZ <=? Z.of_nat (length fname) then die (Undefined "sprintf past the end of fname") else mret tt) ;;
  fd ← on_net (fsys (sys_open fname O_RDONLY));
  if fd <? 0 then mret tt else
  rd ← on_net (fsys (sys_read fd sizeof_printreq));
  if negb (rd.1 =? sizeof_printreq) then
    on_net (close fd) ;;
    log "build_qonstart: can't read %s: %s" ;;
    on_net (unlink fname) ;;
    on_net (unlink (spool_path "data" name))
  else
    log "adding job %ld to queue" ;;
    on_jobs (add_job (dec_req rd.2) (atol name)).
Fixpoint requeue_all (names : list (list Z)) : M printd unit :=
  match names with
  | [] => mret tt
  | n :: names' => requeue n ;; requeue_all names'
  end.
Definition build_qonstart : M printd unit :=
  w ← pget (fun s => n_w (pd_net s));
  match dir_entries w (SPOOLDIR ++ bytes "/" ++ bytes "reqs") with
  | None => mret tt
  | Some names => requeue_all names
  end.

(** ** Serving a client *)

(** [strncpy(dst, s, n)]: at most [n] bytes, padded with nulls. *)
Definition strncpy (n : Z) (s : list Z) : list Z :=
  let t := take (Z.to_nat n) (cstr s) in t ++ replicate (Z.to_nat n - length t) 0.

Definition respond (fd : Z) (r : printresp) : M printd unit :=
  on_net (writen (sock_write fd) (enc_resp r)) ;; mret tt.
(** An error response: [retcode] is set with [htonl], and [strerror] gets it so. *)
Definition refuse (fd code id : Z) : M printd unit :=
  let rc := htonl code in
  respond fd (PrintResp rc id (strncpy MSGLEN_MAX (strerror rc))).

Definition fs_error : M printd Z := pget (fun s => fs_errno (n_w (pd_net s))).

(** [strncmp(buf, "%!PS", 4) == 0] on the [nr] bytes read into [buf]. *)
Definition is_ps (bs : list Z) : bool := bool_decide (take 4 (poke bs (junk IOBUFSZ)) = bytes "%!PS").

(** Bytes and events the socket still has: an upper bound of the reads. *)
Definition in_size (fd : Z) (s : printd) : nat :=
  match n_socks (pd_net s) !! fd with
  | Some k => sum_list (map (fun e => S (match e with Data bs => length bs | _ => 0 end)) (s_in k))
  | None => 0
  end.

(** The loop that stores the file; the new flags, or [None] when the thread exits. *)
Fixpoint copy_loop (fuel : nat) (sock fd id : Z) (first : bool) (fl : Z) : M printd (option Z) :=
  match fuel with
  | O => die Loops
  | S f =>
      r ← on_net (tread sock IOBUFSZ 20);
      if r.1 <=? 0 then mret (Some fl) else
      let fl := if first && negb (is_ps r.2) then Z.lor fl PR_TEXT else fl in
      nw ← on_net (fsys (sys_write fd r.2));
      if negb (nw =? r.1) then
        e ← fs_error;
        log "client_thread: can't write %s: %s" ;;
        on_net (close fd) ;;
        (* res.jobid is not set here *)
        refuse sock (if nw <? 0 then e else EIO) (swrap 64 (le_val (take 8 (drop 8 (junk 16))))) ;;
        on_net (unlink (data_path id)) ;;
        mret None
      else copy_loop f sock fd id false fl
  end.

(** The control file and the response; [n] is what [treadn] returned. *)
Definition finish_request (sock n id : Z) (r : printreq) : M printd Z :=
  fd ← on_net (creat (req_path id));
  if fd <? 0 then
    e ← fs_error;
    log "client_thread: can't create %s: %s" ;;
    refuse sock (if n <? 0 then e else EIO) 0 ;;
    on_net (unlink (data_path id)) ;;
    mret 1
  else
  nw ← on_net (fsys (sys_write fd (enc_req r)));
  if negb (nw =? sizeof_printreq) then
    e ← fs_error;
    log "client_thread: can't write %s: %s" ;;
    on_net (close fd) ;;
    refuse sock (if nw <? 0 then e else EIO) 0 ;;
    on_net (unlink (req_path id)) ;;
    on_net (unlink (data_path id)) ;;
    mret 1
  else
  on_net (close fd) ;;
  (let text := bytes "request ID " ++ dec id ++ [0] in
   respond sock (PrintResp 0 (htonl id) (poke text (junk MSGLEN_MAX)))) ;;
  log "adding job %ld to queue" ;;
  on_jobs (add_job r id) ;;
  mret 0.

(** [client_thread] after [add_worker]: the value of [pthread_exit] or [return]. *)
Definition client_body (sock : Z) : M printd Z :=
  h ← on_net (treadn sock sizeof_printreq 10);
  if negb (h.1 =? sizeof_printreq) then
    e ← pget (fun s => n_errno (pd_net s));
    refuse sock (if h.1 <? 0 then e else EIO) 0 ;;
    mret 1
  else
  let r := dec_req h.2 in
  let r := PrintReq (ntohl (req_size r)) (ntohl (flags r)) (usernm r) (jobnm r) in
  id ← on_jobs get_newjobno;
  fd ← on_net (creat (data_path id));
  if fd <? 0 then
    e ← fs_error;
    log "client_thread: can't create %s: %s" ;;
    refuse sock (if h.1 <? 0 then e else EIO) 0 ;;
    mret 1
  else
  s ← get;
  fl ← copy_loop (S (in_size sock s)) sock fd id true (flags r);
  match fl with
  | None => mret 1
  | Some fl =>
      on_net (close fd) ;;
      finish_request sock h.1 id (PrintReq (req_size r) fl (usernm r) (jobnm r))
  end.

(** The cleanup handler runs however the thread ends. *)
Definition client_thread (self sock : Z) : M printd Z :=
  ok ← on_workers (add_worker self sock);
  r ← (if ok : bool then client_body sock else log "add_worker: can't malloc" ;; mret 1 : M printd Z);
  client_cleanup self ;;
  mret r.

(** ** Signals *)

Definition SIGHUP : Z := 1.
Definition SIGTERM : Z := 15.

(** One turn of [signal_thread]'s loop with the result of [sigwait]; [true]: the
    process ends with status 0. *)
Definition signal_turn (err signo : Z) : M printd bool :=
  (if negb (err =? 0) then die (Err_quit "sigwait failed: %s") else mret tt) ;;
  if signo =? SIGHUP then
    b ← pget configlock;
    (if b : bool then die Loops else mret tt) ;;
    modify (set_configlock true) ;;
    modify (set_reread true) ;;
    modify (set_configlock false) ;;
    mret false
  else if signo =? SIGTERM then
    on_workers kill_workers ;;
    log "terminate with signal %s" ;;
    mret true
  else
    on_workers kill_workers ;;
    die (Err_quit "unexpected signal %d").
End Daemon.
