(* ===== verification/PrintAccept.v ===== *)
(** Accepting a print job: [client_thread] of [src/apue2e/ipp/printd.c] turns a
    request on a socket into a data file, a control file, a response and a queued job,
    and [build_qonstart] gets the job back from the control file. *)
From S2P Require Import Prelude CStr FileIO ReadN PrintQueue PrintNet PrintDaemon.

(** ** Running parts of the state *)

Lemma run_net {A B} (m : M net A) (k : A -> M printd B) s a t :
  m (pd_net s) = Ret a t -> (on_net m ≫= k) s = k a (set_net t s).
Proof. intros E. unfold on_net, mbind, M_bind, zoom. by rewrite E. Qed.

Lemma run_jobs {A B} (m : M jobs A) (k : A -> M printd B) s a t :
  m (pd_jobs s) = Ret a t -> (on_jobs m ≫= k) s = k a (set_jobs t s).
Proof. intros E. unfold on_jobs, mbind, M_bind, zoom. by rewrite E. Qed.

Lemma run_workers {A B} (m : M wlist A) (k : A -> M printd B) s a t :
  m (pd_workers s) = Ret a t -> (on_workers m ≫= k) s = k a (set_workers t s).
Proof. intros E. unfold on_workers, mbind, M_bind, zoom. by rewrite E. Qed.

Lemma run_fsys {A} (f : world -> A * world) s a w' :
  f (n_w s) = (a, w') -> fsys f s = Ret a (set_n_w w' s).
Proof. intros E. unfold fsys. by rewrite E. Qed.

Lemma run_pget {A B} (f : printd -> A) (k : A -> M printd B) s : (pget f ≫= k) s = k (f s) s.
Proof. done. Qed.

Ltac proj := cbv beta iota delta [set_net set_jobs set_workers set_n_w set_n_socks n_w pd_net n_socks n_errno n_log pd_jobs
  pd_workers jobfd configlock reread printer printer_name fst snd].
Ltac znet H := erewrite run_net; [|exact H]; proj; cbv beta.
Ltac zjobs H := erewrite run_jobs; [|exact H]; proj; cbv beta.
Ltac zwork H := erewrite run_workers; [|exact H]; proj; cbv beta.
Ltac zfs H := erewrite run_net; [|apply run_fsys; exact H]; proj; cbv beta.

Lemma readn_once {S} (rd : Z -> M S (Z * list Z)) n bs s s' :
  0 < n -> rd n s = Ret (n, bs) s' -> readn rd n s = Ret (n, bs) s'.
Proof.
  intros Hn E. unfold readn. destruct (Z.to_nat n) eqn:En; [lia|]. simpl. bfalse (n <=? 0). run E. cbn [fst snd].
  bfalse (n <? 0). bfalse (n =? 0). rewrite Z.sub_diag. destruct n0; simpl; by rewrite Z.sub_0_r.
Qed.

(** ** Files *)

Section Files.
Context `{K : Kernel}.

Definition wr_flags : Z := Z.lor O_WRONLY (Z.lor O_CREAT O_TRUNC).

Lemma open_creat p w :
  k_may_open p wr_flags = true ->
  sys_open p wr_flags w = (lowest_fd (fds w),
    World (<[p := []]> (files w)) (<[lowest_fd (fds w) := OFile p 0 false true]> (fds w)) (events w)).
Proof. intros Hm. unfold sys_open. rewrite Hm. by destruct (files w !! p). Qed.

Lemma write_append p fd c bs w :
  fds w !! fd = Some (OFile p (Z.of_nat (length c)) false true) -> files w !! p = Some c ->
  bs <> [] -> Z.of_nat (length c + length bs) <= k_fsize ->
  exists w', sys_write fd bs w = (Z.of_nat (length bs), w') /\
    files w' = <[p := c ++ bs]> (files w) /\
    fds w' = <[fd := OFile p (Z.of_nat (length (c ++ bs))) false true]> (fds w).
Proof.
  intros Hfd Hp Hne Hsz. assert (0 < length bs)%nat by (destruct bs; [done|simpl; lia]).
  unfold sys_write, file_of. rewrite Hfd. simpl. rewrite Hp. simpl.
  bfalse (k_fsize - Z.of_nat (length c) <=? 0).
  btrue (Z.of_nat (length bs) <=? k_fsize - Z.of_nat (length c)).
  eexists. split; [done|]. unfold set_pos, set_fds. simpl.
  rewrite Nat2Z.id, write_at_end, length_app, Nat2Z.inj_add. done.
Qed.
End Files.

Section Accept.
Context `{K : Kernel} `{L : Libc}.

Definition text_flag (first : bool) (chunks : list (list Z)) (fl : Z) : Z :=
  match chunks with
  | ch :: _ => if first && negb (is_ps ch) then Z.lor fl PR_TEXT else fl
  | [] => fl
  end.

Lemma tread_data fd n t w socks e lg bs evs out room :
  0 <= fd < FD_SETSIZE -> socks !! fd = Some (Sock (Data bs :: evs) out room) -> 0 <= room -> Z.of_nat (length bs) <= n ->
  tread fd n t (Net w socks e lg) =
    Ret (Z.of_nat (length bs), bs) (Net w (<[fd := Sock evs out room]> socks) e lg).
Proof.
  intros Hfd Hs Hrm Hn. unfold tread.
  replace ((fd <? 0) || (FD_SETSIZE <=? fd)) with false by (symmetry; apply orb_false_iff; lia).
  unfold mbind, M_bind, nget. cbn [n_socks]. rewrite (open_sock_ok _ _ _ Hs Hrm). cbn [s_in]. unfold sock_read.
  btrue (Z.of_nat (length bs) <=? n). done.
Qed.

(** What ends the loop: end of file, a timeout or an error. *)
Definition stops (ev : sock_ev) : Prop := match ev with Data bs => bs = [] | _ => True end.

Lemma tread_stop fd n t w socks e lg ev evs out room :
  0 <= fd < FD_SETSIZE -> socks !! fd = Some (Sock (ev :: evs) out room) -> 0 <= room -> 0 <= n -> stops ev ->
  exists r e', r <= 0 /\ tread fd n t (Net w socks e lg) = Ret (r, []) (Net w (<[fd := Sock evs out room]> socks) e' lg).
Proof.
  intros Hfd Hs Hrm Hn Hev. unfold tread.
  replace ((fd <? 0) || (FD_SETSIZE <=? fd)) with false by (symmetry; apply orb_false_iff; lia).
  unfold mbind, M_bind, nget. cbn [n_socks]. rewrite (open_sock_ok _ _ _ Hs Hrm). cbn [s_in].
  destruct ev as [er| |er|bs]; simpl in Hev; subst; unfold sock_read; [| | |rewrite (proj2 (Z.leb_le _ _)) by done];
    eexists _, _; (split; [|reflexivity]); done.
Qed.

(** Chunks that the loop can read with one call each. *)
Definition chunk_ok (ch : list Z) : Prop := ch <> [] /\ Z.of_nat (length ch) <= IOBUFSZ.

Lemma copy_loop_ok chunks fuel sock fd id first fl w socks e lg j wl jf cl rr pr pn p c ev tl out room :
  0 <= sock < FD_SETSIZE -> 0 <= room -> Forall chunk_ok chunks -> (length chunks < fuel)%nat -> stops ev ->
  socks !! sock = Some (Sock (map Data chunks ++ ev :: tl) out room) ->
  fds w !! fd = Some (OFile p (Z.of_nat (length c)) false true) -> files w !! p = Some c ->
  Z.of_nat (length c + length (concat chunks)) <= k_fsize ->
  exists w' e', copy_loop fuel sock fd id first fl (Printd (Net w socks e lg) j wl jf cl rr pr pn) =
      Ret (Some (text_flag first chunks fl))
        (Printd (Net w' (<[sock := Sock tl out room]> socks) e' lg) j wl jf cl rr pr pn) /\
    files w' = <[p := c ++ concat chunks]> (files w) /\
    fds w' = <[fd := OFile p (Z.of_nat (length (c ++ concat chunks))) false true]> (fds w).
Proof.
  intros Hr Hrm F. revert fuel first fl w socks c. induction F as [|ch chunks [Hne Hlen] F IH];
    intros fuel first fl w socks c Hf Hev Hs Hfd Hp Hsz; destruct fuel as [|fuel]; simpl in Hf; try lia; simpl copy_loop.
  - destruct (tread_stop sock IOBUFSZ 20 w socks e lg ev tl out room Hr Hs Hrm ltac:(done) Hev) as (r & e' & Hr0 & E).
    znet E. cbn [fst]. btrue (r <=? 0).
    exists w, e'. rewrite app_nil_r. split; [done|]. by rewrite !insert_id.
  - znet (tread_data sock IOBUFSZ 20 w socks e lg ch (map Data chunks ++ ev :: tl) out room Hr Hs Hrm Hlen).
    cbn [fst snd]. assert (0 < length ch)%nat by (destruct ch; [done|simpl; lia]).
    bfalse (Z.of_nat (length ch) <=? 0). cbv zeta.
    simpl concat in *. rewrite length_app in Hsz.
    destruct (write_append p fd c ch w Hfd Hp Hne) as (w1 & E1 & F1 & D1); [lia|].
    zfs E1. rewrite Z.eqb_refl. cbn [negb].
    destruct (IH fuel false (if first && negb (is_ps ch) then Z.lor fl PR_TEXT else fl) w1
      (<[sock:=Sock (map Data chunks ++ ev :: tl) out room]> socks) (c ++ ch)) as (w2 & e2 & E2 & F2 & D2); try done.
    + lia.
    + by rewrite lookup_insert_eq.
    + by rewrite D1, lookup_insert_eq.
    + by rewrite F1, lookup_insert_eq.
    + rewrite length_app. lia.
    + exists w2, e2. rewrite E2. split_and!.
      * rewrite insert_insert_eq. by destruct chunks.
      * by rewrite F2, F1, insert_insert_eq, app_assoc.
      * by rewrite D2, D1, insert_insert_eq, app_assoc.
Qed.

(** Reading [n] bytes of a stream that arrives in chunks takes whole chunks and the
    first part of one. *)
Lemma readn_chunks fd t fuel n nleft got cs evs w socks e lg out room :
  0 <= fd < FD_SETSIZE -> 0 <= room -> Forall chunk_ok cs -> 0 <= nleft <= Z.of_nat (length (concat cs)) ->
  nleft <= Z.of_nat fuel -> socks !! fd = Some (Sock (map Data cs ++ evs) out room) ->
  exists cs', readn_loop (fun k => tread fd k t) fuel n nleft got (Net w socks e lg) =
      Ret (n, got ++ take (Z.to_nat nleft) (concat cs)) (Net w (<[fd := Sock (map Data cs' ++ evs) out room]> socks) e lg) /\
    Forall chunk_ok cs' /\ concat cs' = drop (Z.to_nat nleft) (concat cs).
Proof.
  intros Hfd Hrm. revert nleft got cs socks. induction fuel as [|f IH]; intros nleft got cs socks F Hn Hf Hs; simpl readn_loop.
  all: destruct (Z.leb_spec nleft 0); [exists cs; replace nleft with 0 by lia; rewrite Z.sub_0_r, app_nil_r, insert_id; done|].
  { lia. }
  destruct F as [|ch cs [Hne Hlen] F]; [simpl in Hn; lia|]. simpl concat in *. rewrite length_app in Hn.
  assert (0 < length ch)%nat by (destruct ch; [done|simpl; lia]).
  destruct (Z.leb_spec (Z.of_nat (length ch)) nleft) as [Hle|Hgt].
  - run (tread_data fd nleft t w socks e lg ch (map Data cs ++ evs) out room Hfd Hs Hrm Hle). cbn [fst snd].
    bfalse (Z.of_nat (length ch) <? 0). bfalse (Z.of_nat (length ch) =? 0).
    destruct (IH (nleft - Z.of_nat (length ch)) (got ++ ch) cs (<[fd := Sock (map Data cs ++ evs) out room]> socks) F)
      as (cs' & E & F' & C'); [lia|lia|apply lookup_insert_eq|].
    exists cs'. rewrite E, insert_insert_eq, C'. split_and!; [|done|].
    + rewrite <- app_assoc, take_app_ge by lia. by rewrite Z2Nat.inj_sub, Nat2Z.id by lia.
    + rewrite drop_app_ge by lia. by rewrite Z2Nat.inj_sub, Nat2Z.id by lia.
  - assert (E : tread fd nleft t (Net w socks e lg) = Ret (nleft, take (Z.to_nat nleft) ch)
      (Net w (<[fd := Sock (map Data (drop (Z.to_nat nleft) ch :: cs) ++ evs) out room]> socks) e lg)).
    { unfold tread. replace ((fd <? 0) || (FD_SETSIZE <=? fd)) with false by (symmetry; apply orb_false_iff; lia).
      unfold mbind, M_bind, nget. cbn [n_socks]. rewrite (open_sock_ok _ _ _ Hs Hrm). cbn [s_in map app]. unfold sock_read.
      by bfalse (Z.of_nat (length ch) <=? nleft). }
    run E. cbn [fst snd]. bfalse (nleft <? 0). bfalse (nleft =? 0). rewrite Z.sub_diag.
    exists (drop (Z.to_nat nleft) ch :: cs). split_and!.
    + rewrite take_app_le by lia. destruct f; simpl; by rewrite Z.sub_0_r.
    + constructor; [|done]. split; rewrite ?length_drop; [|lia]. intros Ed%(f_equal length). rewrite length_drop in Ed. simpl in Ed. lia.
    + simpl. by rewrite drop_app_le by lia.
Qed.

Lemma treadn_chunks fd t n cs evs w socks e lg out room :
  0 <= fd < FD_SETSIZE -> 0 <= room -> Forall chunk_ok cs -> 0 <= n <= Z.of_nat (length (concat cs)) ->
  socks !! fd = Some (Sock (map Data cs ++ evs) out room) ->
  exists cs', treadn fd n t (Net w socks e lg) =
      Ret (n, take (Z.to_nat n) (concat cs)) (Net w (<[fd := Sock (map Data cs' ++ evs) out room]> socks) e lg) /\
    Forall chunk_ok cs' /\ concat cs' = drop (Z.to_nat n) (concat cs).
Proof. intros H1 H2 H3 H4 H5. unfold treadn, readn. apply (readn_chunks fd t (Z.to_nat n) n n []); (done || lia). Qed.

Lemma in_size_ge sock w socks e lg j wl jf cl rr pr pn evs out room :
  socks !! sock = Some (Sock evs out room) ->
  (length evs <= in_size sock (Printd (Net w socks e lg) j wl jf cl rr pr pn))%nat.
Proof.
  intros Hs. unfold in_size. simpl. rewrite Hs. simpl. clear Hs. induction evs as [|ev evs IH]; simpl; lia.
Qed.

Lemma close_run fd f s :
  fds (n_w s) !! fd = Some f ->
  exists w', close fd s = Ret tt (set_n_w w' s) /\ files w' = files (n_w s) /\ fds w' = delete fd (fds (n_w s)).
Proof.
  intros H. unfold close, mbind, M_bind, fsys, sys_close. rewrite H. eexists. split; [done|]. by simpl.
Qed.

Lemma respond_ok sock r w socks e lg j wl jf cl rr pr pn evs out room :
  socks !! sock = Some (Sock evs out room) -> length (enc_resp r) = Z.to_nat sizeof_printresp ->
  sizeof_printresp <= room ->
  respond sock r (Printd (Net w socks e lg) j wl jf cl rr pr pn) =
    Ret tt (Printd (Net w (<[sock := Sock evs (out ++ enc_resp r) (room - sizeof_printresp)]> socks) e lg)
              j wl jf cl rr pr pn).
Proof.
  intros Hs Hl Hroom. unfold respond. set (bs := enc_resp r) in *.
  assert (Hlz : Z.of_nat (length bs) = sizeof_printresp) by (rewrite Hl; done).
  assert (E : sock_write sock bs (Net w socks e lg) = Ret (Z.of_nat (length bs))
    (Net w (<[sock := Sock evs (out ++ bs) (room - sizeof_printresp)]> socks) e lg)).
  { unfold sock_write, mbind, M_bind, nget. cbn [n_socks].
    rewrite (open_sock_ok _ _ _ Hs) by (unfold sizeof_printresp in *; simpl; lia). cbv zeta. cbn [s_room s_in s_out].
    rewrite Hlz.
    btrue (sizeof_printresp <=? room). change ((_ =? 0) || (0 <? sizeof_printresp)) with true. cbv iota.
    rewrite take_ge by (rewrite Hl; done). done. }
  apply writen_once in E; [|intros ->; done]. znet E. done.
Qed.

Lemma paths_differ id : data_path id <> req_path id.
Proof. unfold data_path, req_path, spool_path. intros E%app_inv_head. done. Qed.

(** What the daemon makes of a request and the chunks of the file. *)
Definition accepted_req (r : printreq) (chunks : list (list Z)) : printreq :=
  PrintReq (ntohl (req_size r)) (text_flag true chunks (ntohl (flags r))) (usernm r) (jobnm r).
Definition ok_response (id : Z) : printresp :=
  PrintResp 0 (htonl id) (poke (bytes "request ID " ++ dec id ++ [0]) (junk MSGLEN_MAX)).

Lemma enc_resp_length id :
  0 <= id <= LONG_MAX -> length (enc_resp (ok_response id)) = Z.to_nat sizeof_printresp.
Proof.
  intros Hid. unfold enc_resp, ok_response, poke. cbn [retcode resp_jobid msg].
  rewrite !length_app, !le_bytes_length, length_drop. unfold junk. rewrite length_map, length_seq.
  assert (length (dec id) <= 19)%nat.
  { apply dec_length_le; [|lia]. unfold LONG_MAX in *. change (10 ^ Z.of_nat 19) with 10000000000000000000. lia. }
  simpl length. unfold MSGLEN_MAX, sizeof_printresp. lia.
Qed.

Section Finish.
Context (sock : Z) (w : world) (socks : gmap Z PrintNet.sock) (j : jobs) (l : list positive).
Context (Hmem : k_malloc sizeof_job = true) (Hnext : 1 <= nextjob j <= LONG_MAX).
Context (Hmay2 : k_may_open (req_path (nextjob j)) wr_flags = true) (Hsz2 : sizeof_printreq <= k_fsize).

Abbreviation id := (nextjob j).

Lemma finish_request_ok n r jj e lg wl jf cl rr pr pn tl out room :
  queue jj l -> joblock jj = false -> loads (jheap jj) l = loads (jheap j) l ->
  socks !! sock = Some (Sock tl out room) -> sizeof_printresp <= room ->
  Z.of_nat (length (enc_req r)) = sizeof_printreq ->
  exists w' j' x, finish_request sock n id r (Printd (Net w socks e lg) jj wl jf cl rr pr pn) =
    Ret 0 (Printd (Net w' (<[sock := Sock tl (out ++ enc_resp (ok_response id)) (room - sizeof_printresp)]> socks)
             e ("adding job %ld to queue" :: lg)) j' wl jf cl rr pr pn) /\
    files w' = <[req_path id := enc_req r]> (files w) /\
    queue j' (l ++ [x]) /\ loads (jheap j') (l ++ [x]) = loads (jheap j) l ++ [(id, r)] /\
    joblock j' = false /\ nextjob j' = nextjob jj.
Proof.
  intros Hqq Hll Hld Hs Hroom Hr. unfold finish_request. unfold creat. fold wr_flags.
  zfs (open_creat (req_path id) w Hmay2). destruct (lowest_fd_free (fds w)) as [_ Hfd].
  set (fd := lowest_fd (fds w)) in *. bfalse (fd <? 0).
  set (w1 := World _ _ _).
  destruct (write_append (req_path id) fd [] (enc_req r) w1) as (w2 & E2 & F2 & D2).
  - apply lookup_insert_eq.
  - apply lookup_insert_eq.
  - intros Ee. rewrite Ee in Hr. done.
  - change (length [] + length (enc_req r))%nat with (length (enc_req r)). lia.
  - zfs E2. rewrite Hr, Z.eqb_refl. cbn [negb].
    destruct (close_run fd (OFile (req_path id) (Z.of_nat (length ([] ++ enc_req r))) false true) (Net w2 socks e lg))
      as (w3 & E3 & F3 & D3); [simpl; rewrite D2; apply lookup_insert_eq|].
    znet E3. unfold mbind at 1, M_bind at 1. fold (ok_response id).
    rewrite (respond_ok sock (ok_response id) w3 socks e lg jj wl jf cl rr pr pn tl out room Hs); [|apply enc_resp_length; lia|done].
    unfold log. erewrite run_net; [|reflexivity]. proj. cbv beta.
    destruct (add_job_ok Hmem jj l r id Hqq Hll) as (j2 & x & E4 & Q4 & _ & L4 & _ & Lk4 & N4 & _).
    zjobs E4. exists w3, j2, x. split; [done|]. split; [|by rewrite <- Hld].
    simpl in F3. rewrite F3, F2. simpl. by rewrite insert_insert_eq.
Qed.
End Finish.

Lemma client_body_ok sock w socks j l cs data ev r e lg wl jf cl rr pr pn tl out room :
  0 <= sock < FD_SETSIZE -> k_malloc sizeof_job = true -> queue j l -> joblock j = false ->
  1 <= nextjob j <= LONG_MAX ->
  k_may_open (data_path (nextjob j)) wr_flags = true -> k_may_open (req_path (nextjob j)) wr_flags = true ->
  Forall chunk_ok cs -> concat cs = enc_req r ++ data -> Z.of_nat (length data) <= k_fsize -> sizeof_printreq <= k_fsize ->
  req_ok r -> stops ev -> socks !! sock = Some (Sock (map Data cs ++ ev :: tl) out room) ->
  sizeof_printresp <= room ->
  exists w' e' j' x chunks, client_body sock (Printd (Net w socks e lg) j wl jf cl rr pr pn) =
    Ret 0 (Printd (Net w' (<[sock := Sock tl (out ++ enc_resp (ok_response (nextjob j))) (room - sizeof_printresp)]> socks)
             e' ("adding job %ld to queue" :: lg)) j' wl jf cl rr pr pn) /\
    files w' = <[req_path (nextjob j) := enc_req (accepted_req r chunks)]>
                 (<[data_path (nextjob j) := data]> (files w)) /\ concat chunks = data /\
    queue j' (l ++ [x]) /\
    loads (jheap j') (l ++ [x]) = loads (jheap j) l ++ [(nextjob j, accepted_req r chunks)] /\
    joblock j' = false /\ nextjob j' = if nextjob j =? LONG_MAX then 1 else nextjob j + 1.
Proof.
  intros Hsock Hmem Hq Hlock Hnext Hm1 Hm2 Hch Hcat Hsz Hsz2 Hr Hev Hs Hroom. unfold client_body.
  pose proof (enc_req_length r Hr) as Hel.
  destruct (treadn_chunks sock 10 sizeof_printreq cs (ev :: tl) w socks e lg out room) as (chunks & E1 & Hch1 & Hc1); try done.
  { unfold sizeof_printresp in *. lia. }
  { rewrite Hcat, length_app. unfold sizeof_printreq in *. lia. }
  rewrite Hcat in E1, Hc1. rewrite <- Hel, Nat2Z.id, take_app_length in E1. rewrite <- Hel, Nat2Z.id, drop_app_length in Hc1.
  rewrite Hel in E1. rewrite <- Hc1 in *.
  znet E1. rewrite Z.eqb_refl. cbn [negb]. cbv zeta. rewrite dec_enc_req by done.
  cbn [req_size flags usernm jobnm]. zjobs (get_newjobno_ok j Hlock Hnext).
  set (j1 := set_nextjob _ j). unfold creat. fold wr_flags.
  zfs (open_creat (data_path (nextjob j)) w Hm1). destruct (lowest_fd_free (fds w)) as [_ Hfd].
  set (fd := lowest_fd (fds w)) in *. bfalse (fd <? 0). set (w1 := World _ _ _).
  set (socks1 := <[sock := _]> socks). unfold mbind at 1, M_bind at 1, get at 1.
  assert (Hs1 : socks1 !! sock = Some (Sock (map Data chunks ++ ev :: tl) out room)) by apply lookup_insert_eq.
  destruct (copy_loop_ok chunks (S (in_size sock (Printd (Net w1 socks1 e lg) j1 wl jf cl rr pr pn)))
    sock fd (nextjob j) true (ntohl (flags r)) w1 socks1 e lg j1 wl jf cl rr pr pn (data_path (nextjob j)) [] ev tl out room)
    as (w2 & e2 & E2 & F2 & D2); try done.
  { unfold sizeof_printresp in *. lia. }
  { pose proof (in_size_ge sock w1 socks1 e lg j1 wl jf cl rr pr pn _ out room Hs1) as Hge.
    rewrite length_app, length_map in Hge. lia. }
  { apply lookup_insert_eq. }
  { apply lookup_insert_eq. }
  run E2. destruct (close_run fd (OFile (data_path (nextjob j)) (Z.of_nat (length ([] ++ concat chunks))) false true)
    (Net w2 (<[sock:=Sock tl out room]> socks1) e2 lg)) as (w3 & E3 & F3 & D3).
  { simpl. rewrite D2. apply lookup_insert_eq. }
  znet E3. fold (accepted_req r chunks).
  destruct (finish_request_ok sock w3 (<[sock:=Sock tl out room]> socks1) j l Hmem Hnext Hm2 Hsz2
    sizeof_printreq (accepted_req r chunks) j1 e2 lg wl jf cl rr pr pn tl out room) as (w4 & j4 & x & E4 & F4 & Q4 & L4 & Lk4 & N4).
  - by destruct Hq.
  - done.
  - done.
  - apply lookup_insert_eq.
  - done.
  - rewrite <- Hel. unfold enc_req, accepted_req. simpl usernm. simpl jobnm. by rewrite !length_app, !le_bytes_length.
  - exists w4, e2, j4, x, chunks. rewrite E4. unfold socks1. rewrite !insert_insert_eq. split; [done|].
    split_and!; try done. rewrite F4. simpl in F3. rewrite F3, F2. simpl. by rewrite insert_insert_eq.
Qed.

(** A request that does not arrive whole is refused: no number is taken, nothing is
    queued and no file is touched. *)
Lemma client_refuses sock s n bs t :
  sock_ok sock (n_w (pd_net s)) (pd_net s) ->
  treadn sock sizeof_printreq 10 (pd_net s) = Ret (n, bs) t -> n <> sizeof_printreq ->
  exists t', client_body sock s = Ret 1 (set_net t' s) /\ n_w t' = n_w (pd_net s).
Proof.
  intros Hok E Hn.
  destruct (readn_returns (fun k => tread sock k 10) _ _ sizeof_printreq (pd_net s) Hok) as (r & b & t1 & E1 & Ok1 & _); [done|].
  unfold treadn in E. rewrite E1 in E. injection E as -> -> ->.
  unfold client_body. erewrite run_net; [|apply E1]. cbv beta. cbn [fst snd].
  bfalse (n =? sizeof_printreq). cbn [negb]. rewrite run_pget. unfold refuse, respond.
  set (bb := enc_resp _).
  destruct (writen_ok (sock_write sock) _ _ bb t Ok1) as (r2 & t2 & E2 & [_ _ W2] & _).
  exists t2. split; [|done]. unfold mbind, M_bind, on_net, zoom. simpl pd_net. rewrite E2. done.
Qed.

(** ** Recovery *)

(** The control file of a job puts the job back in the queue. *)
Lemma requeue_ok id r w socks e lg j wl jf cl rr pr pn l :
  k_malloc sizeof_job = true -> queue j l -> joblock j = false -> 0 <= id <= LONG_MAX -> req_ok r ->
  k_may_open (req_path id) O_RDONLY = true -> files w !! req_path id = Some (enc_req r) ->
  exists w' j' x, requeue (dec id) (Printd (Net w socks e lg) j wl jf cl rr pr pn) =
    Ret tt (Printd (Net w' socks e ("adding job %ld to queue" :: lg)) j' wl jf cl rr pr pn) /\
    files w' = files w /\ queue j' (l ++ [x]) /\
    loads (jheap j') (l ++ [x]) = loads (jheap j) l ++ [(id, r)] /\ joblock j' = false.
Proof.
  intros Hmem Hq Hlock Hid Hr Hmay Hf. unfold requeue.
  assert (Hd : forall b s, isdigit b = false -> dec id <> b :: s).
  { intros b s Hb E. apply (dec_not_in id b); [lia|done|]. rewrite E. left. }
  rewrite (bool_decide_eq_false_2 (dec id = bytes ".")) by (by apply Hd).
  rewrite (bool_decide_eq_false_2 (dec id = bytes "..")) by (by apply Hd). cbn [orb]. cbv zeta. fold (req_path id).
  assert (Hlen : Z.of_nat (length (req_path id)) < FILENMSZ).
  { assert (length (dec id) <= 19)%nat.
    { apply dec_length_le; [|lia]. unfold LONG_MAX in *. change (10 ^ Z.of_nat 19) with 10000000000000000000. lia. }
    unfold req_path, spool_path, FILENMSZ. rewrite !length_app. simpl length. lia. }
  bfalse (FILENMSZ <=? Z.of_nat (length (req_path id))). rewrite bind_mret.
  destruct (lowest_fd_free (fds w)) as [_ Hfd]. set (fd := lowest_fd (fds w)) in *.
  assert (E1 : sys_open (req_path id) O_RDONLY w = (fd,
    World (<[req_path id := enc_req r]> (files w)) (<[fd := OFile (req_path id) 0 true false]> (fds w)) (events w))).
  { unfold sys_open. rewrite Hmay, Hf. done. }
  zfs E1. bfalse (fd <? 0). rewrite (insert_id (files w)) by done. set (w1 := World _ _ _).
  pose proof (enc_req_length r Hr) as Hel.
  assert (E2 : exists w2, sys_read fd sizeof_printreq w1 = ((sizeof_printreq, enc_req r), w2) /\ files w2 = files w).
  { unfold sys_read, file_of. cbn [fds w1]. rewrite lookup_insert_eq. cbn [of_path files w1]. rewrite Hf.
    cbn [of_rd of_pos negb]. unfold read_at. rewrite drop_0, take_ge by lia. rewrite Hel. eexists. split; [done|]. done. }
  destruct E2 as (w2 & E2 & F2). zfs E2. rewrite Z.eqb_refl. cbn [negb].
  unfold log. erewrite run_net; [|reflexivity]. proj. cbv beta.
  assert (Ea : atol (dec id) = id).
  { pose proof (atol_dec 0 id []) as Ha. rewrite app_nil_r in Ha. apply Ha; done. }
  rewrite Ea, dec_enc_req by done.
  destruct (add_job_ok Hmem j l r id Hq Hlock) as (j2 & x & E4 & Q4 & _ & L4 & _ & Lk4 & N4 & _).
  exists w2, j2, x. unfold on_jobs, zoom. simpl pd_jobs. rewrite E4. done.
Qed.

(** The control file of a job is there and can be read. *)
Definition control_file (w : world) (p : Z * printreq) : Prop :=
  0 <= p.1 <= LONG_MAX /\ req_ok p.2 /\ k_may_open (req_path p.1) O_RDONLY = true /\
  files w !! req_path p.1 = Some (enc_req p.2).

Lemma requeue_all_ok ps w socks e lg j wl jf cl rr pr pn l :
  k_malloc sizeof_job = true -> queue j l -> joblock j = false -> Forall (control_file w) ps ->
  exists w' lg' j' l', requeue_all (map (fun p => dec p.1) ps) (Printd (Net w socks e lg) j wl jf cl rr pr pn) =
    Ret tt (Printd (Net w' socks e lg') j' wl jf cl rr pr pn) /\
    files w' = files w /\ queue j' l' /\ loads (jheap j') l' = loads (jheap j) l ++ ps /\ joblock j' = false.
Proof.
  intros Hmem. revert w lg j l. induction ps as [|[id r] ps IH]; intros w lg j l Hq Hl F.
  { exists w, lg, j, l. rewrite app_nil_r. done. }
  apply Forall_cons in F as [(H1 & H2 & H3 & H4) F]. cbn [map requeue_all fst snd] in *.
  destruct (requeue_ok id r w socks e lg j wl jf cl rr pr pn l Hmem Hq Hl H1 H2 H3 H4)
    as (w1 & j1 & x & E1 & F1 & Q1 & L1 & Lk1). run E1.
  destruct (IH w1 ("adding job %ld to queue" :: lg) j1 (l ++ [x]) Q1 Lk1) as (w2 & lg2 & j2 & l2 & E2 & F2 & Q2 & L2 & Lk2).
  { eapply Forall_impl; [exact F|]. intros p (? & ? & ? & ?). unfold control_file. rewrite F1. done. }
  exists w2, lg2, j2, l2. rewrite E2, F2, F1, L2, L1, <- app_assoc. done.
Qed.
End Accept.
