(* ===== verification/PrintFiles.v ===== *)
(** The job number file and the list of worker threads of
    [src/apue2e/ipp/printd.c]. *)
From S2P Require Import Prelude CStr FileIO ReadN PrintQueue PrintNet PrintDaemon PrintAccept.

(** ** The job number file *)

Section JobFile.
Context `{K : Kernel}.

Lemma update_jobno_ok w socks e lg j wl jf cl rr pr pn c :
  has_file w jf JOBFILE c -> 0 <= nextjob j <= LONG_MAX -> 64 < k_fsize ->
  exists w', update_jobno (Printd (Net w socks e lg) j wl jf cl rr pr pn) =
      Ret tt (Printd (Net w' socks e lg) j wl jf cl rr pr pn) /\
    files w' = <[JOBFILE := write_at c 0 (dec (nextjob j))]> (files w).
Proof.
  intros Hf Hn Hk. unfold update_jobno. rewrite !run_pget. proj.
  destruct (lseek_ok w jf JOBFILE c 0 SEEK_SET 0 Hf) as (w1 & E1 & V1 & P1 & _); [done|done|]. zfs E1.
  assert (Hl : (length (dec (nextjob j)) <= 19)%nat).
  { apply dec_length_le; [|lia]. unfold LONG_MAX in *. change (10 ^ Z.of_nat 19) with 10000000000000000000. lia. }
  destruct (write_ok w1 jf JOBFILE c (dec (nextjob j)) 0 (has_file_view _ _ _ _ _ V1 Hf)) as (w2 & E2 & W2 & _);
    [done|lia|lia|lia|].
  zfs E2. bfalse (Z.of_nat (length (dec (nextjob j))) <? 0). exists w2. split; [done|].
  unfold wrote, view in *. injection W2 as -> _ _. injection V1 as -> _ _. done.
Qed.

Lemma jobfile_not_digits k (rest : list Z) :
  (k <= 24)%nat -> exists c b, drop k (JOBFILE ++ [0] ++ rest) = c :: b /\ isdigit c = false.
Proof.
  intros Hk. assert (F : Forall (fun c => isdigit c = false) (JOBFILE ++ [0])) by (repeat constructor).
  destruct (lookup_lt_is_Some_2 (JOBFILE ++ [0]) k) as [c Hc]; [simpl; lia|].
  exists c, (drop (S k) (JOBFILE ++ [0] ++ rest)). rewrite app_assoc. split.
  - rewrite <- (drop_S _ c k); [done|]. by apply lookup_app_l_Some.
  - by eapply (Forall_lookup_1 _ _ _ _ F Hc).
Qed.

Lemma init_request_ok w socks e lg j wl jf cl rr pr pn n :
  files w !! JOBFILE = Some (dec n) -> 0 <= n <= LONG_MAX ->
  k_may_open JOBFILE (Z.lor O_CREAT O_RDWR) = true -> (forall evs cmd ev, k_lock evs cmd ev = true) ->
  exists w' fd, init_request (Printd (Net w socks e lg) j wl jf cl rr pr pn) =
    Ret tt (Printd (Net w' socks e lg) (set_nextjob n j) wl fd cl rr pr pn) /\
    files w' = files w.
Proof.
  intros Hf Hn Hmay Hgr. unfold init_request. set (fd := lowest_fd (fds w)).
  assert (E1 : sys_open JOBFILE (Z.lor O_CREAT O_RDWR) w = (fd,
    World (<[JOBFILE := dec n]> (files w)) (<[fd := OFile JOBFILE 0 true true]> (fds w)) (events w))).
  { unfold sys_open. rewrite Hmay, Hf. done. }
  zfs E1. rewrite (insert_id (files w)) by done. set (w1 := World _ _ _).
  unfold mbind at 1, M_bind at 1, modify at 1. cbn [set_jobfd pd_net pd_jobs pd_workers configlock reread printer printer_name].
  assert (Hh : has_file w1 fd JOBFILE (dec n)).
  { split; [|done]. simpl. rewrite fmap_insert. apply lookup_insert_eq. }
  zfs (lock_ok w1 fd JOBFILE _ F_SETLK F_WRLCK 0 0 Hh (Hgr _ _ _)). change (0 <? 0) with false. cbv iota. rewrite bind_mret.
  set (w2 := log_event _ w1).
  assert (Hl : (length (dec n) <= 19)%nat).
  { apply dec_length_le; [|lia]. unfold LONG_MAX in *. change (10 ^ Z.of_nat 19) with 10000000000000000000. lia. }
  pose proof (dec_length_pos n ltac:(lia)) as Hl0.
  assert (E2 : exists w3, sys_read fd FILENMSZ w2 = ((Z.of_nat (length (dec n)), dec n), w3) /\ files w3 = files w).
  { unfold sys_read, file_of. cbn [fds w2 w1 log_event files]. rewrite lookup_insert_eq. cbn [of_path]. rewrite Hf.
    cbn [of_rd of_pos negb]. unfold read_at. rewrite drop_0, take_ge by (unfold FILENMSZ; lia). eexists. done. }
  destruct E2 as (w3 & E2 & F3). zfs E2. bfalse (Z.of_nat (length (dec n)) <? 0). rewrite bind_mret.
  bfalse (Z.of_nat (length (dec n)) =? 0). exists w3, fd. split; [|done].
  unfold on_jobs, zoom, modify. cbn [pd_jobs]. unfold poke.
  destruct (jobfile_not_digits (length (dec n)) (junk (FILENMSZ - Z.of_nat (length JOBFILE) - 1))) as (c & b & -> & Hc); [lia|].
  pose proof (atol_dec 0 n (c :: b) Hn Hc) as Ha. simpl in Ha. rewrite Ha. done.
Qed.
End JobFile.

(** ** Workers *)

Fixpoint wlinked (h : gmap positive worker_thread) (p : option positive) (ts : list Z) : Prop :=
  match ts with
  | [] => p = None
  | t :: ts' => exists x w, p = Some x /\ h !! x = Some w /\ tid w = t /\ wlinked h (w_next w) ts'
  end.

Lemma run_wget {A B} (f : wlist -> A) (k : A -> M wlist B) s : (wget f ≫= k) s = k (f s) s.
Proof. done. Qed.

Lemma wderef_ok s x w : wheap s !! x = Some w -> wderef (Some x) s = Ret w s.
Proof. intros H. unfold wderef. rewrite run_wget. simpl. by rewrite H. Qed.

Lemma wstore_ok s x w f :
  wheap s !! x = Some w -> wstore (Some x) f s = Ret tt (set_wheap (<[x := f w]> (wheap s)) s).
Proof. intros H. unfold wstore. by run (wderef_ok _ _ _ H). Qed.

Lemma lock_workers_ok h hd cn : lock_workers (WList h hd false cn) = Ret tt (WList h hd true cn).
Proof. done. Qed.

Lemma kill_loop_ok fuel p ts h hd lk cn :
  wlinked h p ts -> (length ts < fuel)%nat ->
  kill_loop fuel p (WList h hd lk cn) = Ret tt (WList h hd lk (cn ++ ts)).
Proof.
  revert p cn fuel. induction ts as [|t ts IH]; intros p cn fuel Hw Hf; destruct fuel as [|f]; simpl in Hf; try lia.
  - simpl in Hw. subst. simpl. by rewrite app_nil_r.
  - destruct Hw as (x & w & -> & Hx & <- & Hw). simpl.
    run (wderef_ok (WList h hd lk cn) x w Hx). unfold mbind, M_bind, modify, set_cancelled. simpl. rewrite IH by (done || lia). by rewrite <- app_assoc.
Qed.

(** SIGTERM cancels exactly the threads on the list, in its order. *)
Lemma kill_workers_ok h hd ts cn :
  wlinked h hd ts -> (length ts <= size h)%nat ->
  kill_workers (WList h hd false cn) = Ret tt (WList h hd false (cn ++ ts)).
Proof.
  intros Hw Hf. unfold kill_workers. run (lock_workers_ok h hd cn). rewrite !run_wget. cbn [workers wheap].
  run (kill_loop_ok (S (size h)) _ _ _ hd true cn Hw ltac:(lia)). done.
Qed.

(** A list has no more nodes than the heap. *)
Lemma wlinked_det h p ts : forall us, wlinked h p ts -> wlinked h p us -> ts = us.
Proof.
  revert p. induction ts as [|t ts IH]; intros p [|u us]; cbn; [done|by intros -> (? & ? & ? & _)|by intros (? & ? & -> & _) ?|].
  intros (x & w & -> & Hx & <- & Hw) (x' & w' & [= <-] & Hx' & <- & Hw'). rewrite Hx in Hx'. injection Hx' as <-. f_equal. by eapply IH.
Qed.
Lemma wlinked_nodes h p ts : wlinked h p ts -> exists xs, NoDup xs /\ length xs = length ts /\ (forall x, x ∈ xs -> is_Some (h !! x)) /\
  forall x, x ∈ xs -> exists us, (length us <= length ts)%nat /\ wlinked h (Some x) us.
Proof.
  revert p. induction ts as [|t ts IH]; intros p Hw.
  - exists []. split_and!; [constructor|done|intros x; by rewrite elem_of_nil|intros x; by rewrite elem_of_nil].
  - pose proof Hw as (x & w & -> & Hx & Ht & Hw'). destruct (IH _ Hw') as (xs & Hn & Hl & Hd & Hs). exists (x :: xs). split_and!.
    + constructor; [|done]. intros (us & Hu & Hwu)%Hs. rewrite (wlinked_det _ _ _ _ Hwu Hw) in Hu. cbn in Hu. lia.
    + cbn. by rewrite Hl.
    + intros y [->|Hy]%elem_of_cons; [by exists w|by apply Hd].
    + intros y [->|Hy]%elem_of_cons; [by exists (t :: ts)|]. destruct (Hs y Hy) as (us & ? & ?). exists us. cbn. split; [lia|done].
Qed.
Lemma wlinked_size h p ts : wlinked h p ts -> (length ts <= size h)%nat.
Proof.
  intros (xs & Hn & <- & Hd & _)%wlinked_nodes. rewrite <- (size_list_to_set (C := gset positive) xs Hn), <- (size_dom h). apply subseteq_size.
  intros x Hx%elem_of_list_to_set. by apply elem_of_dom, Hd.
Qed.
(** Changing [prev] fields and adding nodes elsewhere leaves the list as it is. *)
Lemma wlinked_mono h h' p ts : (forall x w, h !! x = Some w -> exists w', h' !! x = Some w' /\ tid w' = tid w /\ w_next w' = w_next w) ->
  wlinked h p ts -> wlinked h' p ts.
Proof.
  intros Hh. revert p. induction ts as [|t ts IH]; intros p; [done|]. intros (x & w & -> & Hx & <- & Hw).
  destruct (Hh x w Hx) as (w' & Hx' & Ht & Hn). exists x, w'. split_and!; [done..|]. rewrite Hn. by apply IH.
Qed.
Lemma find_worker_absent t ts : forall p fuel s, wlinked (wheap s) p ts -> t ∉ ts -> (length ts <= fuel)%nat -> find_worker fuel t p s = Ret None s.
Proof.
  induction ts as [|u ts IH]; intros p fuel s Hw Ht Hf.
  - cbn in Hw. subst p. by destruct fuel.
  - destruct Hw as (x & w & -> & Hx & <- & Hw). destruct fuel as [|fuel]; [cbn in Hf; lia|]. cbn [find_worker]. run (wderef_ok s x w Hx).
    apply not_elem_of_cons in Ht as [Hne Ht]. rewrite (proj2 (Z.eqb_neq (tid w) t)) by congruence. apply IH; [done|done|cbn in Hf; lia].
Qed.

Section Workers.
Context `{K : Kernel} (Hmem : k_malloc sizeof_worker = true).

(** [add_worker] in front of a list: only an empty list gets a new head. *)
Definition added (h : gmap positive worker_thread) (hd : option positive) (t fd : Z) : gmap positive worker_thread :=
  let n := fresh (dom h) in
  let h1 := <[n := Worker hd None t fd]> h in
  match hd with Some y => alter (with_wprev (Some n)) y h1 | None => h1 end.
Lemma add_worker_ok h hd ts t fd cn : wlinked h hd ts ->
  add_worker t fd (WList h hd false cn) = Ret true (WList (added h hd t fd) (match hd with Some y => Some y | None => Some (fresh (dom h)) end) false cn).
Proof.
  intros Hw. unfold add_worker, added. rewrite Hmem. cbn [negb]. rewrite run_wget. cbn [wheap]. set (n := fresh (dom h)). cbv zeta.
  assert (Hn : h !! n = None) by (apply not_elem_of_dom, is_fresh).
  unfold mbind at 1, M_bind at 1, modify at 1. cbn [set_wheap workers workerlock cancelled].
  run (lock_workers_ok (<[n := Worker None None t fd]> h) hd cn). rewrite run_wget. cbn [workers].
  erewrite bind_ret; [|apply wstore_ok, lookup_insert_eq]. cbn [wheap set_wheap workers workerlock cancelled].
  erewrite bind_ret; [|apply wstore_ok; cbn [wheap]; apply lookup_insert_eq].
  cbn [wheap set_wheap workers workerlock cancelled]. rewrite !insert_insert_eq. cbn [with_wnext with_wprev w_next w_prev tid sockfd].
  destruct hd as [y|]; [|done]. destruct ts as [|u ts]; [done|]. destruct Hw as (y' & w & [= <-] & Hy & _ & _).
  assert (Hne : n <> y) by congruence.
  erewrite bind_ret; [|apply (wstore_ok _ y w); cbn; by rewrite lookup_insert_ne]. cbn [wheap set_wheap workers workerlock cancelled].
  unfold unlock_workers, modify, mbind, M_bind. cbn. unfold set_wlock. cbn. do 2 f_equal. apply map_eq. intros z.
  destruct (decide (y = z)) as [<-|Hz]; [rewrite lookup_insert_eq, lookup_alter_eq, lookup_insert_ne, Hy by done; done|by rewrite lookup_insert_ne, lookup_alter_ne].
Qed.
Lemma added_linked h hd ts t fd : wlinked h hd ts -> wlinked (added h hd t fd) hd ts.
Proof.
  unfold added. set (n := fresh (dom h)). assert (Hn : h !! n = None) by (apply not_elem_of_dom, is_fresh). cbv zeta.
  apply wlinked_mono. intros x w Hx. assert (n <> x) by congruence. destruct hd as [y|]; [|exists w; by rewrite lookup_insert_ne].
  destruct (decide (y = x)) as [<-|]; [rewrite lookup_alter_eq, lookup_insert_ne, Hx by done; by eexists|exists w; by rewrite lookup_alter_ne, lookup_insert_ne].
Qed.

(** What the cleanup of a thread does: without other workers its node is freed and its socket closed; with others, whose list it is not on, nothing. *)
Lemma worker_cleanup h hd ts t sock net jobs jf cl rr pr pn cn : wlinked h hd ts -> t ∉ ts ->
  client_cleanup t (Printd net jobs (WList (added h hd t sock) (match hd with Some y => Some y | None => Some (fresh (dom h)) end) false cn) jf cl rr pr pn) =
  Ret tt (match hd with
          | None => Printd (set_n_socks (alter closed_sock sock (n_socks net)) net) jobs (WList h None false cn) jf cl rr pr pn
          | Some y => Printd net jobs (WList (added h hd t sock) hd false cn) jf cl rr pr pn
          end).
Proof.
  intros Hw Ht. unfold client_cleanup. destruct hd as [y|].
  - pose proof (added_linked h (Some y) ts t sock Hw) as Hw'.
    assert (E : unlink_worker t (WList (added h (Some y) t sock) (Some y) false cn) = Ret None (WList (added h (Some y) t sock) (Some y) false cn)).
    { unfold unlink_worker. erewrite bind_ret; [|apply lock_workers_ok]. rewrite !run_wget. cbn [workers wheap].
      erewrite bind_ret; [|apply (find_worker_absent t ts); [exact Hw'|done|pose proof (wlinked_size _ _ _ Hw'); lia]]. done. }
    zwork E. done.
  - unfold added. set (n := fresh (dom h)). cbv zeta. assert (Hn : h !! n = None) by (apply not_elem_of_dom, is_fresh).
    set (h1 := <[n := Worker None None t sock]> h). assert (Hh1 : h1 !! n = Some (Worker None None t sock)) by apply lookup_insert_eq.
    assert (E : unlink_worker t (WList h1 (Some n) false cn) = Ret (Some n) (WList h1 None false cn)).
    { unfold unlink_worker. erewrite bind_ret; [|apply lock_workers_ok]. rewrite !run_wget. cbn [workers wheap].
      pose proof (wderef_ok (WList h1 (Some n) true cn) n _ Hh1) as Hd.
      assert (Hfw : find_worker (S (size h1)) t (Some n) (WList h1 (Some n) true cn) = Ret (Some n) (WList h1 (Some n) true cn)) by (cbn [find_worker]; run Hd; cbn [tid]; by rewrite Z.eqb_refl).
      run Hfw. unfold mbind at 1, M_bind at 1. run Hd. cbn [w_next]. rewrite bind_mret. run Hd. done. }
    zwork E. pose proof (wderef_ok (WList h1 None false cn) n _ Hh1) as Ed.
    zwork Ed. cbn [sockfd]. erewrite run_net; [|reflexivity]. proj. unfold on_workers, zoom, modify. cbn [pd_workers wheap].
    unfold set_workers, set_wheap. simpl. unfold h1. by rewrite delete_insert_id.
Qed.
End Workers.
