(* ===== verification/PrintIpp.v ===== *)
(** The printer's side of the daemon of [src/apue2e/ipp/printd.c]: the IPP and HTTP
    headers ([add_option], [printer_thread]), the printer's answer ([readmore],
    [printer_status]) and one turn of [printer_thread]. *)
From S2P Require Import Prelude CStr FileIO ReadN PrintQueue PrintNet PrintDaemon.

(** ** Constants of [ipp.h] and [print.h] *)
Definition OP_PRINT_JOB : Z := 2.
Definition TAG_OPERATION_ATTR : Z := 1.
Definition TAG_END_OF_ATTR : Z := 3.
Definition TAG_NAMEWOLANG : Z := 66.
Definition TAG_URI : Z := 69.
Definition TAG_CHARSET : Z := 71.
Definition TAG_NATULANG : Z := 72.
Definition TAG_MIMETYPE : Z := 73.
Definition STATCLASS_OK (x : Z) : bool := (0 <=? x) && (x <=? 255).
Definition IPP_PORT : Z := 631.
Definition IBUFSZ : Z := 512.
Definition HBUFSZ : Z := 512.
Definition HTTP_INFO (x : Z) : bool := (100 <=? x) && (x <=? 199).
Definition HTTP_SUCCESS (x : Z) : bool := (200 <=? x) && (x <=? 299).

Definition CR : Z := 13.
Definition CRLF : list Z := [CR; NEWLINE].

(** ** The IPP header *)

Definition opt_bytes (tag : Z) (optname optval : list Z) : list Z :=
  [tag mod 256] ++ le_bytes 2 (htons (strlen optname)) ++ cstr optname ++
  le_bytes 2 (htons (strlen optval)) ++ cstr optval.

(** [cp] is what [ibuf] holds up to the position; [None]: the option, with the null
    byte of the last [strcpy], does not fit in [ibuf]. *)
Definition add_option (cp : list Z) (tag : Z) (optname optval : list Z) : option (list Z) :=
  let cp' := cp ++ opt_bytes tag optname optval in
  if Z.of_nat (length cp') + 1 <=? IBUFSZ then Some cp' else None.

(** The string that starts at a memory area, if it ends there. *)
Definition c_string (mem : list Z) : option (list Z) :=
  if bool_decide (0 ∈ mem) then Some (cstr mem) else None.

Definition printer_uri (name : list Z) : option (list Z) :=
  let str := bytes "http://" ++ name ++ bytes ":" ++ dec IPP_PORT in
  if Z.of_nat (length str) + 1 <=? 64 then Some str else None.

(** The IPP header for a job; [None]: an array is overrun. *)
Definition ipp_header (pname : list Z) (jp : job) : option (list Z) :=
  let r := req jp in
  let icp := [1; 1] ++ le_bytes 2 (htons OP_PRINT_JOB) ++ le_bytes 4 (htonl (jobid jp)) ++ [TAG_OPERATION_ATTR] in
  icp ← add_option icp TAG_CHARSET (bytes "attributes-charset") (bytes "utf-8");
  icp ← add_option icp TAG_NATULANG (bytes "attributes-natural-language") (bytes "en-us");
  str ← printer_uri pname;
  icp ← add_option icp TAG_URI (bytes "printer-uri") str;
  user ← c_string (usernm r ++ jobnm r);
  icp ← add_option icp TAG_NAMEWOLANG (bytes "requesting-user-name") user;
  jname ← c_string (jobnm r);
  icp ← add_option icp TAG_NAMEWOLANG (bytes "job-name") jname;
  icp ← (if negb (Z.land (flags r) PR_TEXT =? 0)
         then add_option icp TAG_MIMETYPE (bytes "document-format") (bytes "text/plain")
         else add_option icp TAG_MIMETYPE (bytes "document-format") (bytes "application/postscript"));
  Some (icp ++ [TAG_END_OF_ATTR]).

(** The HTTP header for [size] bytes of file and [ilen] bytes of IPP header. *)
Definition http_header (pname : list Z) (size ilen : Z) : option (list Z) :=
  let h := bytes "POST /" ++ pname ++ bytes "/ipp HTTP/1.1" ++ CRLF ++
           bytes "Content-Length: " ++ dec (size + ilen) ++ CRLF ++
           bytes "Content-Type: application/ipp" ++ CRLF ++
           bytes "Host: " ++ pname ++ bytes ":" ++ dec IPP_PORT ++ CRLF ++ CRLF in
  if Z.of_nat (length h) <=? HBUFSZ then Some h else None.

(** ** The printer's answer *)

(** [bp] is the buffer, as long as it was allocated; an index outside is undefined. *)
Definition at_buf (bp : list Z) (i : Z) : M net Z :=
  match (if i <? 0 then None else bp !! Z.to_nat i) with
  | Some c => mret c
  | None => die (Undefined "read outside the buffer")
  end.
Definition put_buf (bp : list Z) (i c : Z) : M net (list Z) :=
  if (0 <=? i) && (i <? Z.of_nat (length bp)) then mret (<[Z.to_nat i := c]> bp)
  else die (Undefined "write outside the buffer").

(** [while (p( *cp )) cp++;] *)
Fixpoint skip_while (p : Z -> bool) (fuel : nat) (bp : list Z) (i : Z) : M net Z :=
  match fuel with
  | O => die Loops
  | S f => c ← at_buf bp i; if p c then skip_while p f bp (i + 1) else mret i
  end.

Definition tolower (c : Z) : Z := if (65 <=? c) && (c <=? 90) then c + 32 else c.
(** [strncasecmp(&bp[i], s, strlen(s)) == 0]: stops at the first difference. *)
Fixpoint casematch (s bp : list Z) (i : Z) : M net bool :=
  match s with
  | [] => mret true
  | a :: s' =>
      c ← at_buf bp i;
      if tolower c =? tolower a then casematch s' bp (i + 1) else mret false
  end.

Section Status.
Context `{K : Kernel}.

(** The buffer, and the new end of data or -1. *)
Definition readmore (sock : Z) (bp : list Z) (off : Z) : M net (list Z * Z) :=
  let bsz := Z.of_nat (length bp) in
  bp ← (if bsz <=? off then
          if k_malloc (bsz + IOBUFSZ) then mret (bp ++ junk IOBUFSZ)
          else die (Err_sys "readmore: can't allocate bigger read buffer")
        else mret bp : M net (list Z));
  r ← tread sock (Z.of_nat (length bp) - off) 1;
  if 0 <? r.1 then mret (take (Z.to_nat off) bp ++ poke r.2 (drop (Z.to_nat off) bp), off + r.1)
  else mret (bp, -1).

(** [if (i >= nr && (nr = readmore(...)) < 0) goto out;]: [None] is the [goto]. *)
Definition more_if (b : bool) (sock : Z) (bp : list Z) (i nr : Z) : M net (option (list Z * Z)) :=
  if b then
    r ← readmore sock bp i;
    if r.2 <? 0 then mret None else mret (Some r)
  else mret (Some (bp, nr)).

(** [while ( *cp != 'C' && *cp != 'c' && i < nr) ...] *)
Fixpoint find_c (fuel : nat) (bp : list Z) (i nr : Z) : M net Z :=
  match fuel with
  | O => die Loops
  | S f =>
      c ← at_buf bp i;
      if negb (c =? 67) && negb (c =? 99) && (i <? nr) then find_c f bp (i + 1) nr else mret i
  end.

(** The search for Content-Length: the buffer, the position after it, the end of
    data and the length. *)
Fixpoint find_length (fuel : nat) (sock : Z) (bp : list Z) (i nr : Z)
    : M net (option (list Z * Z * Z * Z)) :=
  match fuel with
  | O => die Loops
  | S f =>
      i ← find_c (S (length bp)) bp i nr;
      m ← more_if (nr <=? i) sock bp i nr;
      match m with
      | None => mret None
      | Some (bp, nr) =>
          b ← casematch (bytes "Content-Length:") bp i;
          if b : bool then
            j ← skip_while isspace (S (length bp)) bp (i + 15);
            e ← skip_while isdigit (S (length bp)) bp j;
            bp ← put_buf bp e 0;
            mret (Some (bp, e + 1, nr, atoi (drop (Z.to_nat j) bp)))
          else find_length f sock bp (i + 1) nr
      end
  end.

(** [while (i < nr - 2) ...]: the position, after the blank line when found. *)
Fixpoint scan_end (fuel : nat) (bp : list Z) (i nr : Z) : M net (bool * Z) :=
  if nr - 2 <=? i then mret (false, i) else
  match fuel with
  | O => die Loops
  | S f =>
      a ← at_buf bp i;
      b ← at_buf bp (i + 1);
      c ← at_buf bp (i + 2);
      if (a =? NEWLINE) && (b =? CR) && (c =? NEWLINE) then mret (true, i + 3)
      else scan_end f bp (i + 1) nr
  end.

(** [while (!found) ...] *)
Fixpoint find_end (fuel : nat) (sock : Z) (bp : list Z) (i nr : Z) : M net (option (list Z * Z * Z)) :=
  match fuel with
  | O => die Loops
  | S f =>
      r ← scan_end (S (length bp)) bp i nr;
      m ← more_if (nr <=? r.2) sock bp r.2 nr;
      match m with
      | None => mret None
      | Some (bp, nr) => if r.1 : bool then mret (Some (bp, r.2, nr)) else find_end f sock bp r.2 nr
      end
  end.

Definition be_at (bp : list Z) (i : Z) (n : nat) : Z := le_val (rev (take n (drop (Z.to_nat i) bp))).

(** From the end of the status line of a successful response to the answer of
    [printer_status]; [None] is [goto out]. *)
Definition ipp_status (fuel : nat) (sock id : Z) (bp : list Z) (cp nr : Z) : M net (option Z) :=
  r ← find_length fuel sock bp cp nr;
  match r with
  | None => mret None
  | Some (bp, i, nr, len) =>
      m ← more_if (nr <=? i) sock bp i nr;
      match m with
      | None => mret None
      | Some (bp, nr) =>
          e ← find_end fuel sock bp i nr;
          match e with
          | None => mret None
          | Some (bp, i, nr) =>
              m ← more_if (nr - i <? len) sock bp i nr;
              match m with
              | None => mret None
              | Some (bp, nr) =>
                  (if Z.of_nat (length bp) <? i + 8 then die (Undefined "read outside the buffer") else mret tt) ;;
                  let st := be_at bp (i + 2) 2 in
                  let reqid := be_at bp (i + 4) 4 in
                  if negb (reqid =? id) then log_msg "jobid %ld status code %d" ;; mret (Some 0)
                  else mret (Some (if STATCLASS_OK st then 1 else 0))
              end
          end
      end
  end.

(** The loop of [printer_status]. *)
Fixpoint status_loop (fuel : nat) (sock id : Z) (bp : list Z) : M net Z :=
  match fuel with
  | O => die Loops
  | S f =>
      r ← tread sock IOBUFSZ 5;
      let out := (if r.1 <? 0 then log_msg "jobid %ld: error reading printer response: %s" else mret tt) ;; mret 0 in
      if r.1 <=? 0 then out else
      let nr := r.1 in
      let bp := poke r.2 bp in
      statcode ← skip_while isspace (S (length bp)) bp 8;
      cp ← skip_while isdigit (S (length bp)) bp statcode;
      if cp =? statcode then log_msg "(the response)" ;; status_loop f sock id bp else
      bp ← put_buf bp cp 0;
      eol ← skip_while (fun c => negb (c =? CR) && negb (c =? NEWLINE)) (S (length bp)) bp (cp + 1);
      bp ← put_buf bp eol 0;
      let code := atoi (drop (Z.to_nat statcode) bp) in
      if HTTP_INFO code then status_loop f sock id bp
      else if negb (HTTP_SUCCESS code) then
        put_buf bp nr 0 ;;
        log_msg "error: %s" ;;
        mret 0
      else
        a ← ipp_status fuel sock id bp eol nr;
        match a with
        | Some success => mret success
        | None => log_msg "jobid %ld: error reading printer response: %s" ;; mret 0
        end
  end.

(** 1: the printer took the job. *)
Definition printer_status (fuel : nat) (sock id : Z) : M net Z :=
  (if k_malloc IOBUFSZ then mret tt else die (Err_sys "printer_status: can't allocate read buffer")) ;;
  status_loop fuel sock id (junk IOBUFSZ).
End Status.
