(* ===== verification/PrintWire.v ===== *)
(** What the printer receives and what its answer means: the IPP header decodes to
    the job's attributes, its exact size limit, and [printer_status] on the
    printer's answer ([src/apue2e/ipp/printd.c]). *)
From S2P Require Import Prelude CStr FileIO ReadN PrintQueue PrintNet PrintDaemon PrintIpp.

(** ** A reference decoder of IPP requests (RFC 2910) *)

Definition be16 (a b : Z) : Z := a * 256 + b.

Definition take_field (bs : list Z) : option (list Z * list Z) :=
  match bs with
  | a :: b :: bs' =>
      let n := Z.to_nat (be16 a b) in
      if Nat.leb n (length bs') then Some (take n bs', drop n bs') else None
  | _ => None
  end.

(** Attributes up to the end tag, and what follows. *)
Fixpoint parse_attrs (fuel : nat) (bs : list Z) : option (list (Z * list Z * list Z) * list Z) :=
  match fuel, bs with
  | S f, tag :: bs =>
      if tag =? TAG_END_OF_ATTR then Some ([], bs) else
      '(name, bs) ← take_field bs;
      '(val, bs) ← take_field bs;
      '(attrs, bs) ← parse_attrs f bs;
      Some ((tag, name, val) :: attrs, bs)
  | _, _ => None
  end.

Record ipp_request := IppRequest {
  ir_major : Z; ir_minor : Z; ir_op : Z; ir_id : Z;
  ir_group : Z; ir_attrs : list (Z * list Z * list Z); ir_rest : list Z
}.

Definition parse_ipp (bs : list Z) : option ipp_request :=
  match bs with
  | ma :: mi :: o1 :: o2 :: i1 :: i2 :: i3 :: i4 :: g :: bs' =>
      '(attrs, rest) ← parse_attrs (S (length bs')) bs';
      Some (IppRequest ma mi (be16 o1 o2) (be16 (be16 (be16 i1 i2) i3) i4) g attrs rest)
  | _ => None
  end.

Lemma htons_bytes n : 0 <= n < 65536 -> le_bytes 2 (htons n) = [n / 256; n mod 256].
Proof.
  intros Hn. unfold htons, bswap. simpl.
  rewrite (Z.mod_small (n / 256)) by (split; [apply Z.div_pos; lia|apply Z.div_lt_upper_bound; lia]).
  pose proof (Z.mod_pos_bound n 256 ltac:(lia)) as Hm.
  assert (Hd : 0 <= n / 256 < 256) by (split; [apply Z.div_pos; lia|apply Z.div_lt_upper_bound; lia]).
  rewrite Z.mul_0_r, Z.add_0_r. f_equal; [|f_equal].
  - rewrite (Z.mul_comm 256), Z.mod_add, Z.mod_small by lia. done.
  - rewrite (Z.mul_comm 256), Z.div_add, Z.div_small by lia. rewrite Z.add_0_l. apply Z.mod_small. done.
Qed.

Lemma take_field_ok s rest :
  Z.of_nat (length s) < 65536 ->
  take_field (le_bytes 2 (htons (Z.of_nat (length s))) ++ s ++ rest) = Some (s, rest).
Proof.
  intros Hs. rewrite htons_bytes by lia. simpl. unfold be16.
  rewrite Z.mul_comm, <- Z.div_mod, Nat2Z.id by lia.
  rewrite (proj2 (Nat.leb_le _ _)) by (rewrite length_app; lia).
  by rewrite take_app_length, drop_app_length.
Qed.

Lemma parse_option fuel tag n v rest :
  tag mod 256 <> TAG_END_OF_ATTR -> strlen n < 65536 -> strlen v < 65536 ->
  parse_attrs (S fuel) (opt_bytes tag n v ++ rest) =
    '(attrs, bs) ← parse_attrs fuel rest; Some ((tag mod 256, cstr n, cstr v) :: attrs, bs).
Proof.
  intros Ht Hn Hv. unfold opt_bytes, strlen in *. rewrite <- !app_assoc. cbn [app parse_attrs].
  bfalse (tag mod 256 =? TAG_END_OF_ATTR). rewrite take_field_ok by done. cbn [mbind option_bind].
  rewrite take_field_ok by done. done.
Qed.

Lemma opt_bytes_length tag n v :
  Z.of_nat (length (opt_bytes tag n v)) = 5 + strlen n + strlen v.
Proof. unfold opt_bytes, strlen. rewrite !length_app, !le_bytes_length. simpl. lia. Qed.

Lemma add_option_some cp tag n v cp' :
  add_option cp tag n v = Some cp' ->
  cp' = cp ++ opt_bytes tag n v /\ Z.of_nat (length cp') < IBUFSZ.
Proof. unfold add_option. destruct (Z.leb_spec (Z.of_nat (length (cp ++ opt_bytes tag n v)) + 1) IBUFSZ); [|done]. intros [= <-]. split; [done|lia]. Qed.

(** The attributes of a job. *)
Definition job_attrs (pname user jname : list Z) (text : bool) : list (Z * list Z * list Z) :=
  [ (TAG_CHARSET, bytes "attributes-charset", bytes "utf-8");
    (TAG_NATULANG, bytes "attributes-natural-language", bytes "en-us");
    (TAG_URI, bytes "printer-uri", bytes "http://" ++ pname ++ bytes ":631");
    (TAG_NAMEWOLANG, bytes "requesting-user-name", user);
    (TAG_NAMEWOLANG, bytes "job-name", jname);
    (TAG_MIMETYPE, bytes "document-format",
      if text then bytes "text/plain" else bytes "application/postscript") ].

Definition attr_bytes (a : Z * list Z * list Z) : list Z := opt_bytes a.1.1 a.1.2 a.2.
Definition ipp_bytes (id : Z) (attrs : list (Z * list Z * list Z)) : list Z :=
  [1; 1] ++ le_bytes 2 (htons OP_PRINT_JOB) ++ le_bytes 4 (htonl id) ++ [TAG_OPERATION_ATTR] ++
  concat (map attr_bytes attrs) ++ [TAG_END_OF_ATTR].

(** The header that [printer_thread] builds is the encoding of the attributes, as
    long as the arrays are not overrun. *)
Definition ipp_len (pname user jname : list Z) (text : bool) : Z :=
  159 + Z.of_nat (length pname) + Z.of_nat (length user) + Z.of_nat (length jname) + (if text then 10 else 22).
Definition ipp_fits (pname user jname : list Z) (text : bool) : Prop :=
  Z.of_nat (length pname) <= 52 /\ ipp_len pname user jname text + 1 <= IBUFSZ.

Lemma add_option_ok cp tag n v :
  Z.of_nat (length cp) + 5 + strlen n + strlen v + 1 <= IBUFSZ ->
  add_option cp tag n v = Some (cp ++ opt_bytes tag n v).
Proof.
  intros H. unfold add_option. rewrite length_app.
  pose proof (opt_bytes_length tag n v). by rewrite (proj2 (Z.leb_le _ _)) by lia.
Qed.

Lemma add_option_len cp tag n v k :
  Z.of_nat (length cp) = k -> Z.of_nat (length (cp ++ opt_bytes tag n v)) = k + 5 + strlen n + strlen v.
Proof. intros <-. rewrite length_app, Nat2Z.inj_add, opt_bytes_length. lia. Qed.

(** The strings of a job's request. *)
Record req_strings (r : printreq) (user jname : list Z) : Prop := {
  rs_user : c_string (usernm r ++ jobnm r) = Some user;
  rs_job : c_string (jobnm r) = Some jname
}.

(** The options of a job, in order. *)
Fixpoint add_options (cp : list Z) (attrs : list (Z * list Z * list Z)) : option (list Z) :=
  match attrs with
  | [] => Some cp
  | (tag, n, v) :: attrs' => cp ← add_option cp tag n v; add_options cp attrs'
  end.

Definition attrs_len (attrs : list (Z * list Z * list Z)) : Z :=
  Z.of_nat (length (concat (map attr_bytes attrs))).

Lemma attrs_len_cons a attrs : attrs_len (a :: attrs) = 5 + strlen a.1.2 + strlen a.2 + attrs_len attrs.
Proof. unfold attrs_len. cbn [map concat]. rewrite length_app, Nat2Z.inj_add. unfold attr_bytes at 1. by rewrite opt_bytes_length. Qed.

Lemma add_options_iff attrs cp :
  Z.of_nat (length cp) < IBUFSZ ->
  add_options cp attrs =
    if Z.of_nat (length cp) + attrs_len attrs + 1 <=? IBUFSZ then Some (cp ++ concat (map attr_bytes attrs)) else None.
Proof.
  revert cp. induction attrs as [|[[tag n] v] attrs IH]; intros cp Hcp.
  { simpl. unfold attrs_len. simpl. rewrite (proj2 (Z.leb_le _ _)) by lia. by rewrite app_nil_r. }
  rewrite attrs_len_cons. cbn [add_options fst snd map concat].
  assert (Hpos : 0 <= attrs_len attrs) by (unfold attrs_len; lia).
  pose proof (opt_bytes_length tag n v) as Hl.
  assert (Hc : Z.of_nat (length (cp ++ opt_bytes tag n v)) = Z.of_nat (length cp) + (5 + strlen n + strlen v))
    by (rewrite length_app; lia).
  unfold add_option. rewrite Hc.
  destruct (Z.leb_spec (Z.of_nat (length cp) + (5 + strlen n + strlen v) + 1) IBUFSZ) as [H|H]; cbn [mbind option_bind].
  - rewrite IH by lia. rewrite Hc, <- app_assoc. unfold attr_bytes at 2. cbn [fst snd].
    by replace (Z.of_nat (length cp) + (5 + strlen n + strlen v) + attrs_len attrs + 1)
      with (Z.of_nat (length cp) + (5 + strlen n + strlen v + attrs_len attrs) + 1) by lia.
  - rewrite (proj2 (Z.leb_gt _ _)) by lia. done.
Qed.

Definition ipp_start (id : Z) : list Z :=
  [1; 1] ++ le_bytes 2 (htons OP_PRINT_JOB) ++ le_bytes 4 (htonl id) ++ [TAG_OPERATION_ATTR].

(** The header is built exactly when the strings fit, and is then the encoding of
    the attributes. *)
Lemma ipp_header_eq pname jp user jname :
  req_strings (req jp) user jname -> nonul pname -> nonul user -> nonul jname ->
  let text := negb (Z.land (flags (req jp)) PR_TEXT =? 0) in
  ipp_header pname jp =
    if (Z.of_nat (length pname) <=? 52) && (ipp_len pname user jname text + 1 <=? IBUFSZ)
    then Some (ipp_bytes (jobid jp) (job_attrs pname user jname text)) else None.
Proof.
  intros [Hu Hj] Np Nu Nj text. unfold ipp_header. fold (ipp_start (jobid jp)). fold text.
  unfold printer_uri. change (dec IPP_PORT) with (bytes "631"). set (uri := bytes "http://" ++ pname ++ bytes ":" ++ bytes "631").
  assert (Hul : Z.of_nat (length uri) = Z.of_nat (length pname) + 11) by (unfold uri; rewrite !length_app; simpl; lia).
  rewrite Hu, Hj.
  assert (E : forall b : bool, (icp ← add_option (ipp_start (jobid jp)) TAG_CHARSET (bytes "attributes-charset") (bytes "utf-8");
      icp ← add_option icp TAG_NATULANG (bytes "attributes-natural-language") (bytes "en-us");
      str ← (if b then Some uri else None);
      icp ← add_option icp TAG_URI (bytes "printer-uri") str;
      user ← Some user;
      icp ← add_option icp TAG_NAMEWOLANG (bytes "requesting-user-name") user;
      jname ← Some jname;
      icp ← add_option icp TAG_NAMEWOLANG (bytes "job-name") jname;
      icp ← (if text then add_option icp TAG_MIMETYPE (bytes "document-format") (bytes "text/plain")
             else add_option icp TAG_MIMETYPE (bytes "document-format") (bytes "application/postscript"));
      Some (icp ++ [TAG_END_OF_ATTR])) =
    if b then icp ← add_options (ipp_start (jobid jp)) (job_attrs pname user jname text); Some (icp ++ [TAG_END_OF_ATTR]) else None).
  { intros b. destruct b; cbn [mbind option_bind].
    - unfold job_attrs, uri. cbn [add_options]. change (bytes ":" ++ bytes "631") with (bytes ":631").
      destruct text; do 6 (match goal with |- context [add_option ?c ?t ?n ?v] =>
        destruct (add_option c t n v) as [?|]; [|reflexivity] end; cbn [mbind option_bind]); reflexivity.
    - destruct (add_option _ TAG_CHARSET _ _); [|done]. cbn [mbind option_bind]. by destruct (add_option _ TAG_NATULANG _ _). }
  rewrite E. clear E. rewrite (add_options_iff _ (ipp_start (jobid jp))) by (unfold ipp_start; rewrite !length_app, !le_bytes_length; done).
  replace (Z.of_nat (length (ipp_start (jobid jp)))) with 9 by (unfold ipp_start; by rewrite !length_app, !le_bytes_length).
  assert (Ha : 9 + attrs_len (job_attrs pname user jname text) = ipp_len pname user jname text).
  { unfold job_attrs. rewrite !attrs_len_cons. cbn [fst snd]. unfold strlen, ipp_len.
    change (bytes "http://" ++ pname ++ bytes ":631") with uri.
    rewrite (cstr_id uri) by (unfold uri; repeat (apply Forall_app; split); try done; by repeat constructor).
    rewrite (cstr_id user), (cstr_id jname), Hul by done. unfold attrs_len. destruct text; simpl; lia. }
  rewrite Ha, Hul. destruct (Z.leb_spec (Z.of_nat (length pname)) 52).
  - rewrite (proj2 (Z.leb_le _ _)) by lia. cbn [andb].
    destruct (ipp_len pname user jname text + 1 <=? IBUFSZ); [|done]. cbn [mbind option_bind].
    unfold ipp_bytes, ipp_start. by rewrite <- !app_assoc.
  - by rewrite (proj2 (Z.leb_gt _ _)) by lia.
Qed.

(** The encoding decodes to the attributes. *)
Lemma parse_attrs_ok attrs fuel rest :
  Forall (fun a => a.1.1 mod 256 <> TAG_END_OF_ATTR /\ strlen a.1.2 < 65536 /\ strlen a.2 < 65536) attrs ->
  (length attrs < fuel)%nat ->
  parse_attrs fuel (concat (map attr_bytes attrs) ++ [TAG_END_OF_ATTR] ++ rest) =
    Some (map (fun a => (a.1.1 mod 256, cstr a.1.2, cstr a.2)) attrs, rest).
Proof.
  intros F. revert fuel. induction F as [|a attrs (H1 & H2 & H3) _ IH]; intros fuel Hf; destruct fuel as [|fuel]; simpl in Hf; try lia.
  { done. }
  cbn [map concat]. unfold attr_bytes at 1. rewrite <- app_assoc, parse_option by done.
  by rewrite IH by lia.
Qed.

Lemma htonl_be id : 0 <= id < 2 ^ 32 ->
  exists a b c d, le_bytes 4 (htonl id) = [a; b; c; d] /\ be16 (be16 (be16 a b) c) d = id.
Proof.
  intros Hid. unfold htonl, bswap.
  pose proof (le_bytes_range 4 id) as F. apply Forall_rev in F.
  pose proof (le_bytes_val _ F) as E. rewrite length_rev, le_bytes_length in E. rewrite E.
  pose proof (le_val_bytes 4 id) as V. change (256 ^ Z.of_nat 4) with (2 ^ 32) in V. rewrite Z.mod_small in V by done.
  pose proof (le_bytes_length 4 id) as Hl. clear E F.
  destruct (le_bytes 4 id) as [|d0 [|d1 [|d2 [|d3 [|]]]]]; try done. simpl in V |- *.
  exists d3, d2, d1, d0. split; [done|]. unfold be16. lia.
Qed.

Lemma job_attrs_ok pname user jname text :
  nonul pname -> nonul user -> nonul jname ->
  Z.of_nat (length pname) < 60000 -> Z.of_nat (length user) < 60000 -> Z.of_nat (length jname) < 60000 ->
  Forall (fun a => a.1.1 mod 256 <> TAG_END_OF_ATTR /\ strlen a.1.2 < 65536 /\ strlen a.2 < 65536)
    (job_attrs pname user jname text) /\
  map (fun a => (a.1.1 mod 256, cstr a.1.2, cstr a.2)) (job_attrs pname user jname text) = job_attrs pname user jname text.
Proof.
  intros Np Nu Nj Lp Lu Lj. unfold job_attrs.
  assert (Eu : cstr (bytes "http://" ++ pname ++ bytes ":631") = bytes "http://" ++ pname ++ bytes ":631").
  { apply cstr_id. repeat (apply Forall_app; split); try done; by repeat constructor. }
  split.
  - repeat constructor; cbn [fst snd]; try done; unfold strlen; rewrite ?Eu, ?(cstr_id user), ?(cstr_id jname) by done;
      rewrite ?length_app; try (simpl; lia). by destruct text.
  - simpl map. rewrite (cstr_id user), (cstr_id jname) by done. simpl cstr in Eu. rewrite ?Eu. by destruct text.
Qed.

Lemma parse_ipp_ok id attrs data :
  0 <= id < 2 ^ 32 ->
  Forall (fun a => a.1.1 mod 256 <> TAG_END_OF_ATTR /\ strlen a.1.2 < 65536 /\ strlen a.2 < 65536) attrs ->
  parse_ipp (ipp_bytes id attrs ++ data) =
    Some (IppRequest 1 1 OP_PRINT_JOB id TAG_OPERATION_ATTR
            (map (fun a => (a.1.1 mod 256, cstr a.1.2, cstr a.2)) attrs) data).
Proof.
  intros Hid F. destruct (htonl_be id Hid) as (a & b & c & d & E & V). unfold ipp_bytes. rewrite E.
  rewrite (htons_bytes OP_PRINT_JOB) by done. cbn [app parse_ipp]. rewrite <- app_assoc.
  rewrite parse_attrs_ok; [cbn [mbind option_bind]; by rewrite V|done|].
  rewrite !length_app. enough (length attrs <= length (concat (map attr_bytes attrs)))%nat by lia.
  clear. induction attrs as [|x l IH]; [done|]. cbn [map concat length]. rewrite length_app.
  enough (1 <= length (attr_bytes x))%nat by lia. unfold attr_bytes, opt_bytes. simpl. lia.
Qed.

(** ** Walking over the buffer *)

Lemma at_mid (a b : list Z) c s : at_buf (a ++ c :: b) (Z.of_nat (length a)) s = Ret c s.
Proof. unfold at_buf. bfalse (Z.of_nat (length a) <? 0). by rewrite Nat2Z.id, list_lookup_middle. Qed.

Lemma put_mid (a b : list Z) c x s :
  put_buf (a ++ c :: b) (Z.of_nat (length a)) x s = Ret (a ++ x :: b) s.
Proof.
  unfold put_buf. rewrite length_app. simpl. btrue (0 <=? Z.of_nat (length a)).
  btrue (Z.of_nat (length a) <? Z.of_nat (length a + S (length b))). simpl. by rewrite Nat2Z.id, insert_app_mid.
Qed.

Lemma skip_mid p fuel (a w b : list Z) c s :
  Forall (fun x => p x = true) w -> p c = false -> (length w < fuel)%nat ->
  skip_while p fuel (a ++ w ++ c :: b) (Z.of_nat (length a)) s = Ret (Z.of_nat (length (a ++ w))) s.
Proof.
  intros F Hc. revert a fuel. induction F as [|x w Hx _ IH]; intros a fuel Hf; destruct fuel as [|f]; simpl in Hf; try lia.
  - simpl. run (at_mid a b c s). rewrite Hc, app_nil_r. done.
  - cbn [skip_while app]. run (at_mid a (w ++ c :: b) x s). rewrite Hx.
    specialize (IH (a ++ [x]) f ltac:(lia)). rewrite <- !app_assoc in IH. cbn [app] in IH.
    rewrite <- IH. f_equal. rewrite length_app. simpl. lia.
Qed.

Lemma find_c_mid fuel (a w b : list Z) s nr :
  Forall (fun x => x <> 67 /\ x <> 99) w -> (length w < fuel)%nat -> Z.of_nat (length (a ++ w)) < nr ->
  find_c fuel (a ++ w ++ 67 :: b) (Z.of_nat (length a)) nr s = Ret (Z.of_nat (length (a ++ w))) s.
Proof.
  intros F. revert a fuel. induction F as [|x w [H1 H2] _ IH]; intros a fuel Hf Hn; destruct fuel as [|f]; simpl in Hf; try lia.
  - simpl. run (at_mid a b 67 s). by rewrite app_nil_r.
  - cbn [find_c app]. run (at_mid a (w ++ 67 :: b) x s). rewrite length_app in Hn. simpl in Hn.
    bfalse (x =? 67). bfalse (x =? 99). btrue (Z.of_nat (length a) <? nr). cbn [negb andb].
    specialize (IH (a ++ [x]) f ltac:(lia)). rewrite <- !app_assoc in IH. cbn [app] in IH.
    rewrite <- IH by (rewrite length_app; simpl; lia). f_equal. rewrite length_app. simpl. lia.
Qed.

Lemma casematch_mid lit (a b : list Z) s :
  casematch lit (a ++ lit ++ b) (Z.of_nat (length a)) s = Ret true s.
Proof.
  revert a. induction lit as [|x lit IH]; intros a; [done|]. cbn [casematch app].
  run (at_mid a (lit ++ b) x s). rewrite Z.eqb_refl.
  specialize (IH (a ++ [x])). rewrite <- !app_assoc in IH. cbn [app] in IH. rewrite <- IH. f_equal.
  rewrite length_app. simpl. lia.
Qed.

(** The place after the first blank line. *)
Fixpoint header_end (r : list Z) : option nat :=
  match r with
  | x :: ((y :: z :: _) as r') =>
      if (x =? NEWLINE) && (y =? CR) && (z =? NEWLINE) then Some 3%nat else S <$> header_end r'
  | _ => None
  end.

Lemma header_end_cons x y z r :
  header_end (x :: y :: z :: r) =
    if (x =? NEWLINE) && (y =? CR) && (z =? NEWLINE) then Some 3%nat else S <$> header_end (y :: z :: r).
Proof. done. Qed.

Lemma scan_end_mid fuel (a r b : list Z) k s nr :
  header_end r = Some k -> nr = Z.of_nat (length (a ++ r)) -> (length r < fuel)%nat ->
  scan_end fuel (a ++ r ++ b) (Z.of_nat (length a)) nr s = Ret (true, Z.of_nat (length a + k)) s.
Proof.
  revert a k fuel. induction r as [|x r IH]; intros a k fuel Hk Hnr Hf; [done|].
  destruct r as [|y [|z r]]; [done|done|]. destruct fuel as [|f]; [simpl in Hf; lia|].
  rewrite length_app in Hnr. simpl length in Hnr, Hf.
  cbn [scan_end]. bfalse (nr - 2 <=? Z.of_nat (length a)).
  cbn [app]. run (at_mid a (y :: z :: r ++ b) x s).
  pose proof (at_mid (a ++ [x]) (z :: r ++ b) y s) as E2. pose proof (at_mid (a ++ [x; y]) (r ++ b) z s) as E3.
  rewrite <- !app_assoc in E2, E3. cbn [app] in E2, E3. rewrite length_app in E2, E3. simpl length in E2, E3.
  replace (Z.of_nat (length a + 1)) with (Z.of_nat (length a) + 1) in E2 by lia.
  replace (Z.of_nat (length a + 2)) with (Z.of_nat (length a) + 2) in E3 by lia.
  run E2. run E3. rewrite header_end_cons in Hk. destruct (_ && _ && _).
  - injection Hk as <-. unfold mret, M_ret. do 2 f_equal. lia.
  - destruct (header_end (y :: z :: r)) as [k'|] eqn:Ek; [|done]. injection Hk as <-.
    specialize (IH (a ++ [x]) k' f eq_refl). rewrite !length_app in IH. simpl length in IH.
    specialize (IH ltac:(lia) ltac:(lia)). rewrite <- !app_assoc in IH. cbn [app] in IH.
    replace (Z.of_nat (length a) + 1) with (Z.of_nat (length a + 1)) by lia.
    replace (length a + S k')%nat with (length a + 1 + k')%nat by lia. done.
Qed.

(** ** A whole answer *)

Section Answer.
Context `{K : Kernel}.

Lemma more_no b sock bp i nr s : b = false -> more_if b sock bp i nr s = Ret (Some (bp, nr)) s.
Proof. by intros ->. Qed.

(** The status and the request id in the answer's body. *)
Definition answer_of (id : Z) (body : list Z) : Z :=
  if negb (le_val (rev (take 4 (drop 4 body))) =? id) then 0
  else if STATCLASS_OK (le_val (rev (take 2 (drop 2 body)))) then 1 else 0.

Lemma be_at_mid (a r b : list Z) k m n :
  (k + m + n <= length r)%nat ->
  be_at (a ++ r ++ b) (Z.of_nat (length a + k) + Z.of_nat m) n = le_val (rev (take n (drop m (drop k r)))).
Proof.
  intros H. unfold be_at. replace (Z.to_nat _) with (length a + (k + m))%nat by lia.
  rewrite drop_drop, drop_app_add, drop_app_le by lia. rewrite take_app_le; [done|]. rewrite length_drop. lia.
Qed.

Lemma dec_cons n : 0 <= n -> exists c l, dec n = c :: l /\ isdigit c = true /\ isspace c = false.
Proof.
  intros Hn. pose proof (dec_length_pos n Hn). pose proof (dec_isdigit n Hn) as F.
  destruct (dec n) as [|c l]; [simpl in *; lia|]. apply Forall_cons in F as [Hc _]. exists c, l. split_and!; try done.
  apply isdigit_range in Hc. unfold isspace. bfalse (c =? 32). bfalse (c <=? 13). by rewrite andb_false_r.
Qed.

Lemma atoi_dec n c b : 0 <= n < 2 ^ 31 -> isdigit c = false -> atoi (dec n ++ c :: b) = n.
Proof.
  intros Hn Hc. unfold atoi. pose proof (atol_dec 0 n (c :: b) ltac:(unfold LONG_MAX; lia) Hc) as E.
  unfold atol in E. simpl in E. rewrite E. apply swrap_small; lia.
Qed.

Lemma find_length_ok fuel sock (a pre rest T : list Z) n nr s :
  Forall (fun x => x <> 67 /\ x <> 99) pre -> 0 <= n < 2 ^ 31 ->
  nr = Z.of_nat (length a) + Z.of_nat (length pre) + 17 + Z.of_nat (length (dec n)) + Z.of_nat (length rest) ->
  let a1 := a ++ pre ++ bytes "Content-Length: " ++ dec n in
  find_length (S fuel) sock (a1 ++ CR :: rest ++ T) (Z.of_nat (length a)) nr s =
    Ret (Some (a1 ++ 0 :: rest ++ T, Z.of_nat (length a1) + 1, nr, n)) s.
Proof.
  intros Hpre Hn Hnr a1. destruct (dec_cons n ltac:(lia)) as (d0 & dl & Ed & Hd0 & Hs0).
  set (lit := bytes "Content-Length:"). set (R := CR :: rest ++ T).
  assert (Hbp : a1 ++ R = a ++ pre ++ 67 :: bytes "ontent-Length: " ++ dec n ++ R).
  { unfold a1. rewrite <- !app_assoc. done. }
  assert (Hl : (length pre < S (length (a1 ++ R)))%nat) by (rewrite Hbp, !length_app; lia).
  cbn [find_length]. rewrite Hbp at 2.
  run (find_c_mid (S (length (a1 ++ R))) a pre (bytes "ontent-Length: " ++ dec n ++ R) s nr Hpre Hl ltac:(rewrite length_app; lia)).
  run (more_no (nr <=? Z.of_nat (length (a ++ pre))) sock (a1 ++ R) (Z.of_nat (length (a ++ pre))) nr s
        ltac:(apply Z.leb_gt; rewrite length_app; lia)). cbv iota beta.
  assert (Hb2 : a1 ++ R = (a ++ pre) ++ lit ++ SPACE :: dec n ++ R).
  { unfold a1. rewrite <- !app_assoc. done. }
  rewrite Hb2 at 1. run (casematch_mid lit (a ++ pre) (SPACE :: dec n ++ R) s). cbv iota.
  set (p1 := (a ++ pre) ++ lit).
  assert (Hp1 : Z.of_nat (length (a ++ pre)) + 15 = Z.of_nat (length p1)) by (unfold p1; rewrite (length_app _ lit); simpl; lia).
  assert (Hb3 : a1 ++ R = p1 ++ [SPACE] ++ d0 :: dl ++ R).
  { rewrite Hb2, Ed. unfold p1. rewrite <- !app_assoc. done. }
  rewrite Hp1. rewrite Hb3 at 2.
  assert (Hsz : (length [SPACE] < S (length (a1 ++ R)))%nat) by (rewrite Hb3, !length_app; simpl; lia).
  run (skip_mid isspace (S (length (a1 ++ R))) p1 [SPACE] (dl ++ R) d0 s ltac:(by repeat constructor) Hs0 Hsz).
  set (p2 := p1 ++ [SPACE]).
  assert (Ha1 : a1 = p2 ++ dec n) by (unfold a1, p2, p1; rewrite <- !app_assoc; done).
  assert (Hb4 : a1 ++ R = p2 ++ dec n ++ CR :: rest ++ T) by (rewrite Ha1, <- app_assoc; done).
  rewrite Hb4 at 2.
  run (skip_mid isdigit (S (length (a1 ++ R))) p2 (dec n) (rest ++ T) CR s (dec_isdigit n ltac:(lia)) eq_refl
        ltac:(rewrite Hb4, !length_app; lia)).
  rewrite <- Ha1. run (put_mid a1 (rest ++ T) CR 0 s). unfold mret, M_ret. do 3 f_equal.
  rewrite Ha1, Nat2Z.id, <- app_assoc, drop_app_length. apply atoi_dec; done.
Qed.

Lemma find_end_ok fuel sock (a rest T : list Z) k nr s :
  header_end rest = Some k -> (k < length rest)%nat -> nr = Z.of_nat (length (a ++ rest)) ->
  find_end (S fuel) sock (a ++ rest ++ T) (Z.of_nat (length a)) nr s =
    Ret (Some (a ++ rest ++ T, Z.of_nat (length a + k), nr)) s.
Proof.
  intros Hk Hlt Hnr. cbn [find_end].
  run (scan_end_mid (S (length (a ++ rest ++ T))) a rest T k s nr Hk Hnr ltac:(rewrite !length_app; lia)).
  cbn [fst snd]. rewrite length_app in Hnr.
  by run (more_no (nr <=? Z.of_nat (length a + k)) sock (a ++ rest ++ T) (Z.of_nat (length a + k)) nr s ltac:(apply Z.leb_gt; lia)).
Qed.

Lemma ipp_status_ok fuel sock id (a pre rest T : list Z) n k nr s :
  Forall (fun x => x <> 67 /\ x <> 99) pre -> 0 <= n < 2 ^ 31 -> header_end rest = Some k ->
  (k + 8 <= length rest)%nat -> Z.of_nat k + n <= Z.of_nat (length rest) ->
  nr = Z.of_nat (length a) + Z.of_nat (length pre) + 17 + Z.of_nat (length (dec n)) + Z.of_nat (length rest) ->
  exists lg, ipp_status (S fuel) sock id ((a ++ pre ++ bytes "Content-Length: " ++ dec n) ++ CR :: rest ++ T)
    (Z.of_nat (length a)) nr s = Ret (Some (answer_of id (drop k rest))) (set_n_log lg s).
Proof.
  intros Hpre Hn Hk Hb Hlen Hnr. unfold ipp_status.
  run (find_length_ok fuel sock a pre rest T n nr s Hpre Hn Hnr). cbv iota beta.
  set (a1 := a ++ pre ++ bytes "Content-Length: " ++ dec n).
  assert (Hl1 : Z.of_nat (length a1) = Z.of_nat (length a) + Z.of_nat (length pre) + 16 + Z.of_nat (length (dec n))).
  { unfold a1. rewrite !length_app. simpl length. lia. }
  run (more_no (nr <=? Z.of_nat (length a1) + 1) sock (a1 ++ 0 :: rest ++ T) (Z.of_nat (length a1) + 1) nr s
        ltac:(apply Z.leb_gt; lia)). cbv iota beta.
  set (a2 := a1 ++ [0]).
  assert (Hl2 : Z.of_nat (length a1) + 1 = Z.of_nat (length a2)) by (unfold a2; rewrite length_app; simpl; lia).
  replace (a1 ++ 0 :: rest ++ T) with (a2 ++ rest ++ T) by (unfold a2; by rewrite <- app_assoc). rewrite Hl2.
  run (find_end_ok fuel sock a2 rest T k nr s Hk ltac:(lia) ltac:(rewrite length_app; lia)). cbv iota beta.
  run (more_no (nr - Z.of_nat (length a2 + k) <? n) sock (a2 ++ rest ++ T) (Z.of_nat (length a2 + k)) nr s
        ltac:(apply Z.ltb_ge; lia)). cbv iota beta.
  rewrite (proj2 (Z.ltb_ge _ _)) by (rewrite !length_app; lia). rewrite bind_mret. cbv zeta.
  rewrite (be_at_mid a2 rest T k 2 2 ltac:(lia) : be_at _ (_ + 2) 2 = _).
  rewrite (be_at_mid a2 rest T k 4 4 ltac:(lia) : be_at _ (_ + 4) 4 = _).
  unfold answer_of. destruct (negb _); [by eexists|]. exists (n_log s). by destruct s.
Qed.

(** A response: status line, then [after]. *)
Definition status_line (ver : list Z) (code : Z) (reason : list Z) : list Z :=
  ver ++ [SPACE] ++ dec code ++ [SPACE] ++ reason ++ CRLF.
Record status_ok (ver : list Z) (code : Z) (reason : list Z) : Prop := {
  so_ver : length ver = 8%nat;
  so_code : 200 <= code <= 299;
  so_reason : Forall (fun c => c <> CR /\ c <> NEWLINE) reason
}.
(** The status line after [printer_status] put null bytes in, up to its first one at
    the end of the line. *)
Definition cut_line (ver : list Z) (code : Z) (reason : list Z) : list Z :=
  ver ++ [SPACE] ++ dec code ++ [0] ++ reason.

(** The end of [printer_status]: an answer, or [goto out]. *)
Definition conclude (a : option Z) : M net Z :=
  match a with
  | Some success => mret success
  | None => log_msg "jobid %ld: error reading printer response: %s" ;; mret 0
  end.

Lemma line_code fuel ver code reason after s :
  length ver = 8%nat -> 0 <= code < 2 ^ 31 ->
  let bp := status_line ver code reason ++ after in
  (length bp < fuel)%nat ->
  skip_while isspace fuel bp 8 s = Ret 9 s /\
  skip_while isdigit fuel bp 9 s = Ret (9 + Z.of_nat (length (dec code))) s.
Proof.
  intros Hv Hc bp Hf. destruct (dec_cons code ltac:(lia)) as (d0 & dl & Ed & Hd0 & Hs0).
  set (Q := SPACE :: reason ++ CRLF ++ after).
  assert (Hb1 : bp = ver ++ [SPACE] ++ d0 :: dl ++ Q).
  { unfold bp, status_line, Q. rewrite Ed. repeat (rewrite <- app_assoc; cbn [app]). done. }
  assert (Hb2 : bp = (ver ++ [SPACE]) ++ dec code ++ Q) by (rewrite Hb1, Ed, <- !app_assoc; done).
  split.
  - rewrite Hb1. rewrite <- (eq_refl : Z.of_nat 8 = 8), <- Hv.
    rewrite (skip_mid isspace fuel ver [SPACE] (dl ++ Q) d0 s) by
      (done || (by repeat constructor) || (rewrite Hb1, !length_app in Hf; simpl length in *; lia)).
    by rewrite length_app, Hv.
  - rewrite Hb2. replace 9 with (Z.of_nat (length (ver ++ [SPACE]))) by (by rewrite length_app, Hv).
    unfold Q. rewrite (skip_mid isdigit fuel (ver ++ [SPACE]) (dec code) (reason ++ CRLF ++ after) SPACE s) by
      (done || (apply dec_isdigit; lia) || (rewrite Hb2, !length_app in Hf; simpl length in *; lia)).
    by rewrite (length_app (ver ++ [SPACE])), Nat2Z.inj_add.
Qed.

Lemma status_loop_line fuel sock id ver code reason after w socks e lg tl out room :
  k_malloc IOBUFSZ = true -> 0 <= sock < FD_SETSIZE -> 0 <= room -> status_ok ver code reason ->
  let resp := status_line ver code reason ++ after in
  Z.of_nat (length resp) <= IOBUFSZ -> socks !! sock = Some (Sock (Data resp :: tl) out room) ->
  let a := cut_line ver code reason in
  exists T, printer_status (S fuel) sock id (Net w socks e lg) =
    (ipp_status (S fuel) sock id (a ++ (0 :: NEWLINE :: after) ++ T) (Z.of_nat (length a)) (Z.of_nat (length resp)) ≫= conclude)
      (Net w (<[sock := Sock tl out room]> socks) e lg).
Proof.
  intros Hmem Hsock Hrm [H1 H2 H3] resp H9 Hs a. unfold printer_status. rewrite Hmem, bind_mret. cbn [status_loop].
  assert (Et : tread sock IOBUFSZ 5 (Net w socks e lg) = Ret (Z.of_nat (length resp), resp)
     (Net w (<[sock := Sock tl out room]> socks) e lg)).
  { unfold tread. replace ((sock <? 0) || (FD_SETSIZE <=? sock)) with false by (symmetry; apply orb_false_iff; lia).
    unfold mbind, M_bind, nget. cbn [n_socks]. rewrite (open_sock_ok _ _ _ Hs Hrm). cbn [s_in]. unfold sock_read.
    rewrite (proj2 (Z.leb_le _ _)) by done. done. }
  run Et. cbn [fst snd]. set (s1 := Net _ _ _ _).
  assert (Hpos : 0 < Z.of_nat (length resp)) by (unfold resp, status_line; rewrite !length_app, H1; lia).
  bfalse (Z.of_nat (length resp) <=? 0). set (T := drop (length resp) (junk IOBUFSZ)). exists T.
  assert (Hbp : poke resp (junk IOBUFSZ) = status_line ver code reason ++ after ++ T).
  { unfold poke, resp. by rewrite <- app_assoc. }
  rewrite Hbp. set (fu := S (length (status_line ver code reason ++ after ++ T))).
  destruct (line_code fu ver code reason (after ++ T) s1 H1 ltac:(lia)) as [E1 E2]; [unfold fu; lia|]. run E1. run E2.
  assert (HL : (0 < length (dec code))%nat) by (apply dec_length_pos; lia).
  bfalse (9 + Z.of_nat (length (dec code)) =? 9). cbv iota.
  set (p2 := ver ++ [SPACE] ++ dec code).
  assert (Hp2 : 9 + Z.of_nat (length (dec code)) = Z.of_nat (length p2)) by (unfold p2; rewrite !length_app, H1; simpl length; lia).
  rewrite Hp2. set (R := NEWLINE :: after ++ T).
  replace (status_line ver code reason ++ after ++ T) with (p2 ++ SPACE :: reason ++ CR :: R).
  2:{ unfold p2, status_line, R, CRLF. repeat (rewrite <- app_assoc; cbn [app]). done. }
  run (put_mid p2 (reason ++ CR :: R) SPACE 0 s1). set (fu2 := S (length (p2 ++ 0 :: reason ++ CR :: R))).
  replace (p2 ++ 0 :: reason ++ CR :: R) with ((p2 ++ [0]) ++ reason ++ CR :: R) by (by rewrite <- app_assoc).
  replace (Z.of_nat (length p2) + 1) with (Z.of_nat (length (p2 ++ [0]))) by (rewrite length_app; simpl; lia).
  assert (E3 : skip_while (fun c => negb (c =? CR) && negb (c =? NEWLINE)) fu2 ((p2 ++ [0]) ++ reason ++ CR :: R)
      (Z.of_nat (length (p2 ++ [0]))) s1 = Ret (Z.of_nat (length a)) s1).
  { rewrite (skip_mid _ fu2 (p2 ++ [0]) reason R CR s1); [|eapply Forall_impl; [exact H3|]; intros c [? ?];
      rewrite andb_true_iff, !negb_true_iff, !Z.eqb_neq; done|done|unfold fu2; rewrite !length_app; simpl length; rewrite ?length_app; lia].
    unfold a, cut_line, p2. by rewrite <- !app_assoc. }
  run E3. replace ((p2 ++ [0]) ++ reason ++ CR :: R) with (a ++ CR :: R).
  2:{ unfold a, cut_line, p2. repeat (rewrite <- app_assoc; cbn [app]). done. }
  run (put_mid a R CR 0 s1).
  assert (Ecode : atoi (drop (Z.to_nat 9) (a ++ 0 :: R)) = code).
  { replace (a ++ 0 :: R) with ((ver ++ [SPACE]) ++ dec code ++ 0 :: reason ++ 0 :: R).
    2:{ unfold a, cut_line. repeat (rewrite <- app_assoc; cbn [app]). done. }
    change (Z.to_nat 9) with 9%nat. rewrite drop_app_length' by (by rewrite length_app, H1). apply atoi_dec; [lia|done]. }
  rewrite Ecode. unfold HTTP_INFO, HTTP_SUCCESS. bfalse (code <=? 199). rewrite andb_false_r.
  btrue (200 <=? code). btrue (code <=? 299). cbn [andb negb]. done.
Qed.

(** An HTTP response with a Content-Length: what precedes it has no letter c. *)
Definition response (ver : list Z) (code : Z) (reason pre : list Z) (n : Z) (rest : list Z) : list Z :=
  status_line ver code reason ++ pre ++ bytes "Content-Length: " ++ dec n ++ [CR] ++ rest.

Record response_ok (ver : list Z) (code : Z) (reason pre : list Z) (n : Z) (rest : list Z) (k : nat) : Prop := {
  ro_line : status_ok ver code reason;
  ro_pre : Forall (fun x => x <> 67 /\ x <> 99) pre;
  ro_len : 0 <= n < 2 ^ 31;
  ro_end : header_end rest = Some k;
  ro_hdr : (k + 8 <= length rest)%nat;
  ro_body : Z.of_nat k + n <= Z.of_nat (length rest);
  ro_fits : Z.of_nat (length (response ver code reason pre n rest)) <= IOBUFSZ
}.

Lemma response_length ver code reason pre n rest :
  Z.of_nat (length (response ver code reason pre n rest)) =
    Z.of_nat (length (cut_line ver code reason)) + Z.of_nat (length (0 :: NEWLINE :: pre)) + 17 +
    Z.of_nat (length (dec n)) + Z.of_nat (length rest).
Proof. unfold response, status_line, cut_line. rewrite !length_app. simpl length. lia. Qed.

Lemma response_buffer ver code reason pre n rest T :
  cut_line ver code reason ++ (0 :: NEWLINE :: pre ++ bytes "Content-Length: " ++ dec n ++ [CR] ++ rest) ++ T =
  (cut_line ver code reason ++ (0 :: NEWLINE :: pre) ++ bytes "Content-Length: " ++ dec n) ++ CR :: rest ++ T.
Proof. repeat (rewrite <- app_assoc; cbn [app]). done. Qed.

Lemma no_c_line pre : Forall (fun x => x <> 67 /\ x <> 99) pre -> Forall (fun x => x <> 67 /\ x <> 99) (0 :: NEWLINE :: pre).
Proof. intros H. by do 2 (constructor; [done|]). Qed.

Lemma printer_status_ok fuel sock id ver code reason pre n rest k w socks e lg tl out room :
  k_malloc IOBUFSZ = true -> 0 <= sock < FD_SETSIZE -> 0 <= room -> response_ok ver code reason pre n rest k ->
  socks !! sock = Some (Sock (Data (response ver code reason pre n rest) :: tl) out room) ->
  exists lg', printer_status (S fuel) sock id (Net w socks e lg) =
    Ret (answer_of id (drop k rest)) (Net w (<[sock := Sock tl out room]> socks) e lg').
Proof.
  intros Hmem Hsock Hrm [H1 H4 H5 H6 H7 H8 H9] Hs.
  destruct (status_loop_line fuel sock id ver code reason _ w socks e lg tl out room Hmem Hsock Hrm H1 H9 Hs) as [T ->].
  fold (response ver code reason pre n rest). rewrite response_buffer.
  set (s1 := Net _ _ _ _).
  destruct (ipp_status_ok fuel sock id (cut_line ver code reason) (0 :: NEWLINE :: pre) rest T n k _ s1
    (no_c_line pre H4) H5 H6 H7 H8 (response_length ver code reason pre n rest)) as (lg' & E4).
  run E4. by exists lg'.
Qed.

(** ** An answer the thread never gets past *)

Lemma find_end_stuck fuel sock bp i nr s :
  nr - 2 <= i -> i < nr -> find_end fuel sock bp i nr s = Exit Loops s.
Proof.
  intros H1 H2. induction fuel as [|f IH]; [done|]. cbn [find_end].
  assert (E : scan_end (S (length bp)) bp i nr s = Ret (false, i) s) by (simpl; by btrue (nr - 2 <=? i)).
  run E. cbn [fst snd]. by run (more_no (nr <=? i) sock bp i nr s ltac:(apply Z.leb_gt; lia)).
Qed.

(** One or two bytes after the CR that ends the Content-Length line are enough. *)
Lemma printer_status_stuck fuel sock id ver code reason pre n rest w socks e lg tl out room :
  k_malloc IOBUFSZ = true -> 0 <= sock < FD_SETSIZE -> 0 <= room -> status_ok ver code reason ->
  Forall (fun x => x <> 67 /\ x <> 99) pre -> 0 <= n < 2 ^ 31 -> (1 <= length rest <= 2)%nat ->
  Z.of_nat (length (response ver code reason pre n rest)) <= IOBUFSZ ->
  socks !! sock = Some (Sock (Data (response ver code reason pre n rest) :: tl) out room) ->
  exists s', printer_status fuel sock id (Net w socks e lg) = Exit Loops s'.
Proof.
  intros Hmem Hsock Hrm H1 H4 H5 Hlen H9 Hs. destruct fuel as [|fuel].
  { unfold printer_status. rewrite Hmem, bind_mret. by eexists. }
  destruct (status_loop_line fuel sock id ver code reason _ w socks e lg tl out room Hmem Hsock Hrm H1 H9 Hs) as [T ->].
  fold (response ver code reason pre n rest). rewrite response_buffer.
  set (s1 := Net _ _ _ _). set (a := cut_line ver code reason). eexists. apply bind_exit. unfold ipp_status.
  pose proof (response_length ver code reason pre n rest) as Hnr.
  run (find_length_ok fuel sock a (0 :: NEWLINE :: pre) rest T n _ s1 (no_c_line pre H4) H5 Hnr). cbv iota beta.
  set (a1 := a ++ _).
  assert (Hl1 : Z.of_nat (length a1) = Z.of_nat (length a) + Z.of_nat (length (0 :: NEWLINE :: pre)) + 16 + Z.of_nat (length (dec n))).
  { unfold a1. rewrite !length_app. simpl length. lia. }
  rewrite Hnr. fold a. set (nr := Z.of_nat (length a) + _ + _ + _ + _) in *.
  run (more_no (nr <=? Z.of_nat (length a1) + 1) sock (a1 ++ 0 :: rest ++ T) (Z.of_nat (length a1) + 1) nr s1
        ltac:(apply Z.leb_gt; lia)). cbv iota beta.
  apply bind_exit, find_end_stuck; lia.
Qed.
End Answer.
