(* ===== verification/PrintThread.v ===== *)
(** The thread that feeds the printer ([printer_thread] of [src/apue2e/ipp/printd.c]):
    finding the printer ([init_printer], [get_printaddr], [getaddrlist]), connecting to
    it ([connect_retry] of [src/apue2e/sockets/clconn.c]) and one turn of the thread's
    loop, from taking a job off the queue to printing it or putting it back. *)
From S2P Require Import Prelude CStr FileIO ReadN PrintQueue PrintSpool PrintNet PrintDaemon.
From S2P Require Import PrintAccept PrintFiles PrintIpp PrintWire.

(** An address list: addresses with their canonical names. *)
Definition addrinfo : Type := list (list Z * option (list Z)).

(** The resolver and the network.  [getaddrinfo] gives an error code or a list;
    [new_socket] is the descriptor [socket] returns, negative on failure; [dial] is the
    outcome of the n-th attempt to connect to an address, with the peer's behaviour on
    the connection. *)
Class Network := {
  getaddrinfo : list Z -> list Z -> Z + addrinfo;
  new_socket : net -> Z;
  dial : net -> list Z -> nat -> option sock
}.

Section Thread.
Context `{K : Kernel} `{L : Libc} `{N : Network}.

Definition getaddrlist (host service : list Z) : Z + addrinfo := getaddrinfo host service.

Definition get_printaddr : M net (option addrinfo) :=
  p ← scan_configfile (bytes "printer");
  match p with
  | Some host =>
      match getaddrlist host (bytes "ipp") with
      | inl _ => log_msg "no address information for %s" ;; mret None
      | inr ailist => mret (Some ailist)
      end
  | None => log_msg "no printer address specified" ;; mret None
  end.

(** The address list that [printer] points to is not empty when [getaddrinfo]
    succeeds; the daemon uses its first entry. *)
Definition init_printer : M printd unit :=
  a ← on_net get_printaddr;
  match a ≫= head with
  | None => log "no printer device registered" ;; die (Err_quit "exit(1)")
  | Some p =>
      let nm := match p.2 with Some c => c | None => bytes "printer" end in
      modify (set_printer (Some p) (Some nm)) ;;
      log "printer is %s"
  end.

(** ** Connecting *)

Definition MAXSLEEP : Z := 128.

(** 0 or -1, and the seconds slept between the attempts. *)
Fixpoint connect_from (fuel : nat) (sockfd : Z) (addr : list Z) (nsec : Z) (try : nat) : M net (Z * list Z) :=
  if MAXSLEEP <? nsec then mret (-1, []) else
  match fuel with
  | O => die Loops
  | S f =>
      s ← get;
      match dial s addr try with
      | Some k => modify (set_n_socks (<[sockfd := k]> (n_socks s))) ;; mret (0, [])
      | None =>
          r ← connect_from f sockfd addr (Z.shiftl nsec 1) (S try);
          mret (r.1, (if nsec <=? MAXSLEEP / 2 then [nsec] else []) ++ r.2)
      end
  end.
(** [nsec] runs through 1, 2, 4, ..., 128: eight attempts. *)
Definition connect_retry (sockfd : Z) (addr : list Z) : M net (Z * list Z) := connect_from 8 sockfd addr 1 0.

(** [socket]: a descriptor that is not connected, or -1. *)
Definition socket : M net Z :=
  fd ← nget new_socket;
  if fd <? 0 then mret (-1) else
  modify (fun s => set_n_socks (<[fd := Sock [] [] 0]> (n_socks s)) s) ;;
  mret fd.

(** ** A turn of the loop *)

(** Copying the file; [false] is [goto defer]. *)
Fixpoint send_loop (fuel : nat) (fd sockfd : Z) : M net bool :=
  match fuel with
  | O => die Loops
  | S f =>
      rd ← fsys (sys_read fd IOBUFSZ);
      if 0 <? rd.1 then
        nw ← sock_write sockfd rd.2;
        if negb (nw =? rd.1) then
          log_msg (if nw <? 0 then "can't write to printer" else "short write (%d/%d) to printer") ;;
          mret false
        else send_loop f fd sockfd
      else if rd.1 <? 0 then log_msg "can't read %s" ;; mret false
      else mret true
  end.

(** Headers, file and answer on a connected socket; [true]: the printer has the job.
    [fuel] bounds the loops of [printer_status]. *)
Definition send_job (fuel : nat) (fd size sockfd : Z) (pname : list Z) (jp : job) : M net bool :=
  match ipp_header pname jp with
  | None => die (Undefined "strcpy past the end of ibuf")
  | Some ibuf =>
      match http_header pname size (Z.of_nat (length ibuf)) with
      | None => die (Undefined "sprintf past the end of hbuf")
      | Some hbuf =>
          nw ← sock_write sockfd (hbuf ++ ibuf);
          if negb (nw =? Z.of_nat (length (hbuf ++ ibuf))) then log_msg "can't write to printer" ;; mret false else
          ok ← send_loop (S (Z.to_nat size)) fd sockfd;
          if negb ok then mret false else
          a ← printer_status fuel sockfd (jobid jp);
          mret (negb (a =? 0))
      end
  end.

(** [false]: nothing is queued, the job was canceled or it was printed; [true]: the job
    was put back and the thread sleeps for a minute. *)
Inductive turn := Waits | Canceled | Printed | Deferred.

(** From [socket] to the label [defer]: the socket, and whether the job was printed. *)
Definition contact (fuel : nat) (fd size : Z) (jp : job) : M printd (Z * bool) :=
  sockfd ← on_net socket;
  if sockfd <? 0 then log "job %ld deferred - can't create socket: %s" ;; mret (sockfd, false) else
  pr ← pget printer;
  pn ← pget printer_name;
  match pr, pn with
  | Some (addr, _), Some pname =>
      c ← on_net (connect_retry sockfd addr);
      if c.1 <? 0 then log "job %ld deferred - can't contact printer: %s" ;; mret (sockfd, false) else
      b ← on_net (send_job fuel fd size sockfd pname jp);
      (if b : bool then on_net (unlink (data_path (jobid jp)) ;; unlink (req_path (jobid jp))) else mret tt) ;;
      mret (sockfd, b)
  | _, _ => die (Undefined "no printer")
  end.

Definition reread_config : M printd unit :=
  b ← pget configlock;
  (if b : bool then die Loops else modify (set_configlock true)) ;;
  rr ← pget reread;
  if rr : bool then
    modify (set_printer None None) ;;
    modify (set_reread false) ;;
    modify (set_configlock false) ;;
    init_printer
  else modify (set_configlock false).

(** From [socket] to the end of the turn. *)
Definition deliver (fuel : nat) (x : positive) (jp : job) (fd size : Z) : M printd turn :=
  r ← contact fuel fd size jp;
  (if r.2 : bool then on_jobs (modify (free_job x)) else mret tt) ;;
  on_net (close fd) ;;
  (if 0 <=? r.1 then on_net (sock_close r.1) else mret tt) ;;
  if r.2 : bool then mret Printed else on_jobs (replace_job (Some x)) ;; mret Deferred.

Definition print_turn (fuel : nat) : M printd turn :=
  p ← on_jobs pick_job;
  match p with
  | None => log "printer_thread: waiting..." ;; mret Waits
  | Some x =>
      jp ← on_jobs (deref p);
      log "printer_thread: picked up job %ld" ;;
      update_jobno ;;
      reread_config ;;
      fd ← on_net (fsys (sys_open (data_path (jobid jp)) O_RDONLY));
      if fd <? 0 then
        log "job %ld canceled - can't open %s: %s" ;;
        on_jobs (modify (free_job x)) ;;
        mret Canceled
      else
      size ← on_net (nget (fun s => sys_fsize fd (n_w s)));
      if size <? 0 then
        log "job %ld canceled - can't fstat %s: %s" ;;
        on_jobs (modify (free_job x)) ;;
        on_net (close fd) ;;
        mret Canceled
      else deliver fuel x jp fd size
  end.
End Thread.
