(* ===== verification/PrintTurn.v ===== *)
(** A turn of the printer thread of [src/apue2e/ipp/printd.c]: the job at the head of
    the queue reaches the printer whole and its files go, or the job is at the head of
    the queue again. *)
From S2P Require Import Prelude CStr FileIO ReadN PrintQueue PrintSpool PrintNet PrintDaemon.
From S2P Require Import PrintAccept PrintFiles PrintIpp PrintWire PrintThread.

Section Turn.
Context `{K : Kernel} `{L : Libc} `{N : Network}.

(** ** Connecting *)

Lemma connect_from_ok k fuel sockfd addr try s c :
  (forall i, (try <= i < try + k)%nat -> dial s addr i = None) -> dial s addr (try + k) = Some c ->
  (try + k < 8)%nat -> (k < fuel)%nat ->
  connect_from fuel sockfd addr (2 ^ Z.of_nat try) try s =
    Ret (0, map (fun i => 2 ^ Z.of_nat i) (seq try k)) (set_n_socks (<[sockfd := c]> (n_socks s)) s).
Proof.
  revert fuel try. induction k as [|k IH]; intros fuel try Hno Hyes Hk Hf; destruct fuel as [|f]; try lia; cbn [connect_from].
  - assert (2 ^ Z.of_nat try <= MAXSLEEP) by (apply (Z.pow_le_mono_r 2 _ 7); lia).
    rewrite (proj2 (Z.ltb_ge _ _)) by done. unfold mbind, M_bind, get. rewrite Nat.add_0_r in Hyes. by rewrite Hyes.
  - assert (2 ^ Z.of_nat try <= 64) by (apply (Z.pow_le_mono_r 2 _ 6); lia).
    rewrite (proj2 (Z.ltb_ge MAXSLEEP _)) by (by etrans). unfold mbind at 1, M_bind at 1, get at 1. rewrite Hno by lia.
    rewrite Z.shiftl_mul_pow2, <- Z.pow_add_r by lia. replace (Z.of_nat try + 1) with (Z.of_nat (S try)) by lia.
    assert (E : connect_from f sockfd addr (2 ^ Z.of_nat (S try)) (S try) s =
      Ret (0, map (fun i => 2 ^ Z.of_nat i) (seq (S try) k)) (set_n_socks (<[sockfd:=c]> (n_socks s)) s)).
    { apply IH; try lia; [intros i Hi; apply Hno; lia|]. by replace (S try + k)%nat with (try + S k)%nat by lia. }
    run E. change (MAXSLEEP / 2) with 64. rewrite (proj2 (Z.leb_le _ _)) by done. done.
Qed.

Lemma connect_retry_ok k sockfd addr s c :
  (forall i, (i < k)%nat -> dial s addr i = None) -> dial s addr k = Some c -> (k < 8)%nat ->
  connect_retry sockfd addr s =
    Ret (0, map (fun i => 2 ^ Z.of_nat i) (seq 0 k)) (set_n_socks (<[sockfd := c]> (n_socks s)) s).
Proof. intros H1 H2 H3. apply (connect_from_ok k 8 sockfd addr 0); try done. intros i Hi. apply H1. lia. Qed.

Lemma connect_retry_fails sockfd addr s :
  (forall i, (i < 8)%nat -> dial s addr i = None) ->
  connect_retry sockfd addr s = Ret (-1, [1; 2; 4; 8; 16; 32; 64]) s.
Proof.
  intros H. cbv -[dial]. by rewrite !H by lia.
Qed.

(** ** Sending *)

Lemma sock_write_all fd bs w socks e lg evs out room :
  socks !! fd = Some (Sock evs out room) -> bs <> [] -> Z.of_nat (length bs) <= room ->
  sock_write fd bs (Net w socks e lg) = Ret (Z.of_nat (length bs))
    (Net w (<[fd := Sock evs (out ++ bs) (room - Z.of_nat (length bs))]> socks) e lg).
Proof.
  intros Hs Hne Hroom. assert (0 < length bs)%nat by (destruct bs; [done|simpl; lia]).
  unfold sock_write, mbind, M_bind, nget. cbn [n_socks]. rewrite (open_sock_ok _ _ _ Hs) by (simpl; lia).
  cbv zeta. cbn [s_room s_in s_out]. btrue (Z.of_nat (length bs) <=? room). btrue (0 <? Z.of_nat (length bs)).
  rewrite orb_true_r. rewrite take_ge by lia. done.
Qed.

(** A file open for reading at an offset. *)
Record reading (w : world) (fd : Z) (p : list Z) (q : nat) (c : list Z) : Prop := {
  rd_fd : exists wr, fds w !! fd = Some (OFile p (Z.of_nat q) true wr);
  rd_file : files w !! p = Some c
}.

Lemma read_chunk w fd p q c n :
  reading w fd p q c ->
  exists w', sys_read fd n w = ((Z.of_nat (length (read_at c q (Z.to_nat n))), read_at c q (Z.to_nat n)), w') /\
    reading w' fd p (q + length (read_at c q (Z.to_nat n))) c /\ files w' = files w.
Proof.
  intros [(wr & Hfd) Hf]. unfold sys_read, file_of. rewrite Hfd. cbn [of_path]. rewrite Hf. cbn [of_rd negb of_pos].
  rewrite Nat2Z.id. cbv zeta. set (bs := read_at c q (Z.to_nat n)).
  eexists. split; [reflexivity|]. split; [|done].
  split; [|done]. exists wr. unfold set_pos, set_fds. cbn [fds of_path of_rd of_wr]. rewrite lookup_insert_eq.
  do 2 f_equal. lia.
Qed.

Lemma send_loop_ok fuel fd sk p q c w socks e lg evs out room :
  reading w fd p q c -> (q <= length c)%nat -> (length c - q < fuel)%nat ->
  socks !! sk = Some (Sock evs out room) -> Z.of_nat (length c - q) <= room ->
  exists w', send_loop fuel fd sk (Net w socks e lg) = Ret true
      (Net w' (<[sk := Sock evs (out ++ drop q c) (room - Z.of_nat (length c - q))]> socks) e lg) /\
    reading w' fd p (length c) c /\ files w' = files w.
Proof.
  revert q w socks out room. induction fuel as [|f IH]; intros q w socks out room Hr Hq Hf Hs Hroom; [lia|].
  destruct (read_chunk w fd p q c IOBUFSZ Hr) as (w1 & E1 & R1 & F1).
  assert (Hm : (0 < Z.to_nat IOBUFSZ)%nat) by (unfold IOBUFSZ; lia).
  set (m := Z.to_nat IOBUFSZ) in *. clearbody m. set (bs := read_at c q m) in *.
  assert (Hbs : length bs = (m `min` (length c - q))%nat) by (unfold bs, read_at; rewrite length_take, length_drop; done).
  assert (Hle : (length bs <= length c - q)%nat) by (rewrite Hbs; apply Nat.le_min_r).
  simpl send_loop. erewrite bind_ret; [|by apply run_fsys]. cbn [fst snd].
  destruct (decide (q = length c)) as [->|Hne].
  - assert (Hz : length bs = 0%nat) by lia. bfalse (0 <? Z.of_nat (length bs)). bfalse (Z.of_nat (length bs) <? 0).
    exists w1. rewrite Hz, Nat.add_0_r in R1. split; [|done]. rewrite drop_ge, app_nil_r, Nat.sub_diag, Z.sub_0_r by lia.
    by rewrite insert_id.
  - btrue (0 <? Z.of_nat (length bs)). unfold set_n_w. cbn [n_w n_socks n_errno n_log].
    assert (Hb : bs <> []) by (intros Eb; rewrite Eb in Hbs; simpl in Hbs; lia).
    run (sock_write_all sk bs w1 socks e lg evs out room Hs Hb ltac:(lia)). rewrite Z.eqb_refl. cbn [negb].
    destruct (IH (q + length bs)%nat w1 (<[sk := Sock evs (out ++ bs) (room - Z.of_nat (length bs))]> socks)
      (out ++ bs) (room - Z.of_nat (length bs)) R1) as (w2 & E2 & R2 & F2); try lia.
    { by rewrite lookup_insert_eq. }
    exists w2. rewrite E2. split; [|by rewrite F2]. rewrite insert_insert_eq. do 4 f_equal; [|lia].
    rewrite <- app_assoc. f_equal. rewrite <- (take_drop m (drop q c)). fold (read_at c q m). fold bs. f_equal. rewrite drop_drop.
    destruct (decide (length c - q <= m)%nat); [rewrite !drop_ge by lia; done|]. f_equal. lia.
Qed.

(** The answer with which the printer takes the job. *)
Definition takes_job (id : Z) (resp : list Z) : Prop :=
  exists ver code reason pre n rest k, resp = response ver code reason pre n rest /\
    response_ok ver code reason pre n rest k /\ answer_of id (drop k rest) = 1.

Lemma send_job_ok fuel fd sk pname jp data ibuf hbuf w socks e lg p resp tl room :
  ipp_header pname jp = Some ibuf ->
  http_header pname (Z.of_nat (length data)) (Z.of_nat (length ibuf)) = Some hbuf ->
  reading w fd p 0 data -> k_malloc IOBUFSZ = true -> 0 <= sk < FD_SETSIZE ->
  takes_job (jobid jp) resp -> socks !! sk = Some (Sock (Data resp :: tl) [] room) ->
  Z.of_nat (length (hbuf ++ ibuf ++ data)) <= room ->
  exists w' lg' rm, send_job (S fuel) fd (Z.of_nat (length data)) sk pname jp (Net w socks e lg) =
    Ret true (Net w' (<[sk := Sock tl (hbuf ++ ibuf ++ data) rm]> socks) e lg') /\
    reading w' fd p (length data) data /\ files w' = files w.
Proof.
  intros Hi Hh Hr Hm Hsk (ver & code & reason & pre & n & rest & k & -> & Hok & Ha) Hs Hroom.
  unfold send_job. rewrite Hi, Hh. rewrite !length_app in Hroom.
  assert (Hne : hbuf ++ ibuf <> []).
  { unfold http_header in Hh. destruct (_ <=? _); [|done]. injection Hh as <-. done. }
  run (sock_write_all sk (hbuf ++ ibuf) w socks e lg _ [] room Hs Hne ltac:(rewrite length_app; lia)).
  rewrite Z.eqb_refl. cbn [negb]. set (socks1 := <[sk := _]> socks). rewrite Nat2Z.id.
  pose proof (lookup_insert_eq socks sk (Sock (Data (response ver code reason pre n rest) :: tl) ([] ++ hbuf ++ ibuf)
    (room - Z.of_nat (length (hbuf ++ ibuf)))) : socks1 !! sk = _) as Hs1.
  destruct (send_loop_ok (S (length data)) fd sk p 0 data w socks1 e lg _ _ _ Hr ltac:(lia) ltac:(lia) Hs1
    ltac:(rewrite length_app; lia)) as (w2 & E2 & R2 & F2).
  run E2. cbn [negb]. unfold socks1. rewrite insert_insert_eq, drop_0.
  set (rm := room - _ - _).
  set (k2 := Sock (Data (response ver code reason pre n rest) :: tl) (([] ++ hbuf ++ ibuf) ++ data) rm).
  assert (Hrm : 0 <= rm) by (unfold rm; rewrite length_app, Nat.sub_0_r; lia).
  destruct (printer_status_ok fuel sk (jobid jp) ver code reason pre n rest k w2 (<[sk := k2]> socks) e lg tl _ rm
    Hm Hsk Hrm Hok (lookup_insert_eq socks sk k2)) as (lg' & E3).
  run E3. rewrite Ha. exists w2, lg', rm. rewrite insert_insert_eq. split; [|done].
  assert (Ea : ([] ++ hbuf ++ ibuf) ++ data = hbuf ++ ibuf ++ data) by (simpl; by rewrite <- app_assoc).
  by rewrite Ea.
Qed.

(** ** Turns *)

Lemma ipp_header_load pname jp jp' : load jp' = load jp -> ipp_header pname jp' = ipp_header pname jp.
Proof. unfold load. intros [= H1 H2]. unfold ipp_header. by rewrite H1, H2. Qed.

Lemma data_not_jobfile id : JOBFILE <> data_path id.
Proof. unfold JOBFILE, data_path, spool_path. intros E%app_inv_head. done. Qed.

Section Daemon.
Context (w : world) (socks : gmap Z sock) (e : Z) (lg : list string) (wl : wlist) (jf : Z).
Context (addr : list Z) (cn : option (list Z)) (pname : list Z).
Context (j : jobs) (x : positive) (l : list positive) (jp : job) (c data : list Z).
Context (Hq : queue j (x :: l)) (Hlock : joblock j = false) (Hx : jheap j !! x = Some jp).
Context (Hjf : has_file w jf JOBFILE c) (Hnext : 0 <= nextjob j <= LONG_MAX) (Hfs : 64 < k_fsize).
Context (Hmay : k_may_open (data_path (jobid jp)) O_RDONLY = true).
Context (Hdata : files w !! data_path (jobid jp) = Some data).

Abbreviation daemon := (Printd (Net w socks e lg) j wl jf false false (Some (addr, cn)) (Some pname)).
Abbreviation counted := (<[JOBFILE := write_at c 0 (dec (nextjob j))]> (files w)).

(** A turn up to the attempt to reach the printer. *)
Lemma turn_start fuel :
  exists w1 j1 jp1 fd lg1, print_turn fuel daemon =
      deliver fuel x jp1 fd (Z.of_nat (length data))
        (Printd (Net w1 socks e lg1) j1 wl jf false false (Some (addr, cn)) (Some pname)) /\
    files w1 = counted /\ reading w1 fd (data_path (jobid jp)) 0 data /\ 0 <= fd /\
    queue j1 l /\ joblock j1 = false /\ nextjob j1 = nextjob j /\ jheap j1 !! x = Some jp1 /\
    (forall y, load <$> jheap j1 !! y = load <$> jheap j !! y) /\ load jp1 = load jp /\ x ∉ l.
Proof.
  destruct (pick_job_ok j (x :: l) Hq Hlock) as (j1 & E1 & Q1 & L1 & N1 & Hld). simpl in E1, Q1.
  unfold print_turn. zjobs E1.
  pose proof (Hld x) as Hlx. rewrite Hx in Hlx. destruct (jheap j1 !! x) as [jp1|] eqn:Hx1; [|done].
  apply (inj Some) in Hlx. zjobs (deref_ok j1 x jp1 Hx1). unfold log. erewrite run_net; [|reflexivity]. proj. cbv beta.
  set (lg1 := _ :: lg). rewrite <- N1 in Hnext.
  destruct (update_jobno_ok w socks e lg1 j1 wl jf false false (Some (addr, cn)) (Some pname) c Hjf Hnext Hfs) as (w1 & E2 & F2).
  unfold mbind at 1, M_bind at 1. unfold set_n_log. cbn [n_w n_socks n_errno n_log]. rewrite E2.
  unfold mbind at 1, M_bind at 1. set (s2 := Printd _ j1 _ _ _ _ _ _).
  assert (E3 : reread_config s2 = Ret tt s2) by done. rewrite E3. clear E3. unfold s2.
  assert (Eid : jobid jp1 = jobid jp) by (unfold load in Hlx; congruence). rewrite Eid.
  destruct (lowest_fd_free (fds w1)) as [_ Hfd]. set (fd := lowest_fd (fds w1)) in *.
  assert (Hf1 : files w1 !! data_path (jobid jp) = Some data).
  { rewrite F2, lookup_insert_ne by apply data_not_jobfile. done. }
  assert (E4 : sys_open (data_path (jobid jp)) O_RDONLY w1 = (fd,
    World (<[data_path (jobid jp) := data]> (files w1)) (<[fd := OFile (data_path (jobid jp)) 0 true false]> (fds w1)) (events w1))).
  { unfold sys_open. rewrite Hmay, Hf1. done. }
  zfs E4. bfalse (fd <? 0). rewrite (insert_id (files w1)) by done. set (w2 := World _ _ _).
  erewrite run_net; [|reflexivity]. proj. cbv beta.
  assert (R2 : reading w2 fd (data_path (jobid jp)) 0 data).
  { split; [|done]. exists false. apply lookup_insert_eq. }
  assert (Es : sys_fsize fd w2 = Z.of_nat (length data)).
  { unfold sys_fsize, file_of. destruct R2 as [[wr ->] R]. cbn [of_path]. by rewrite R. }
  rewrite Es. bfalse (Z.of_nat (length data) <? 0).
  exists w2, j1, jp1, fd, lg1. split; [done|]. rewrite N1 in F2. split_and!; try done.
  - pose proof (q_nodup _ _ Hq) as ND. apply NoDup_cons in ND as [? _]. done.
Qed.

Lemma run_socket sk w0 socks0 e0 lg0 :
  new_socket (Net w0 socks0 e0 lg0) = sk -> 0 <= sk ->
  socket (Net w0 socks0 e0 lg0) = Ret sk (Net w0 (<[sk := Sock [] [] 0]> socks0) e0 lg0).
Proof. intros H1 H2. unfold socket, mbind, M_bind, nget. rewrite H1. by bfalse (sk <? 0). Qed.

Lemma run_close {B} fd f s (k : unit -> M printd B) :
  fds (n_w (pd_net s)) !! fd = Some f ->
  (on_net (close fd) ≫= k) s =
    k tt (set_net (set_n_w (log_event (EvLock fd F_UNLCK 0 0) (set_fds (delete fd (fds (n_w (pd_net s)))) (n_w (pd_net s)))) (pd_net s)) s).
Proof. intros Hf. erewrite run_net; [reflexivity|]. unfold close, mbind, M_bind, fsys, sys_close. by rewrite Hf. Qed.

Lemma print_turn_prints fuel sk k resp tl room ibuf hbuf :
  (forall s, new_socket s = sk) -> 0 <= sk < FD_SETSIZE -> k_malloc IOBUFSZ = true ->
  (forall s i, (i < k)%nat -> dial s addr i = None) ->
  (forall s, dial s addr k = Some (Sock (Data resp :: tl) [] room)) -> (k < 8)%nat ->
  ipp_header pname jp = Some ibuf ->
  http_header pname (Z.of_nat (length data)) (Z.of_nat (length ibuf)) = Some hbuf ->
  takes_job (jobid jp) resp -> Z.of_nat (length (hbuf ++ ibuf ++ data)) <= room ->
  exists s', print_turn (S fuel) daemon = Ret Printed s' /\
    sent_on sk (pd_net s') = hbuf ++ ibuf ++ data /\
    files (n_w (pd_net s')) = delete (req_path (jobid jp)) (delete (data_path (jobid jp)) counted) /\
    queue (pd_jobs s') l /\ loads (jheap (pd_jobs s')) l = loads (jheap j) l /\
    jheap (pd_jobs s') !! x = None /\ joblock (pd_jobs s') = false.
Proof.
  intros Hns Hsk Hm Hd1 Hd2 Hk Hi Hh Ht Hroom.
  destruct (turn_start (S fuel)) as (w1 & j1 & jp1 & fd & lg1 & E & F1 & R1 & Hfd & Q1 & L1 & _ & Hx1 & Hld & Hlj & Hxl).
  rewrite E. unfold deliver, contact. clear E.
  assert (Eid : jobid jp1 = jobid jp) by (unfold load in Hlj; congruence).
  unfold mbind at 1, M_bind at 1.
  znet (run_socket sk w1 socks e lg1 (Hns _) ltac:(lia)). bfalse (sk <? 0). rewrite !run_pget. proj.
  set (n1 := Net w1 _ e lg1).
  znet (connect_retry_ok k sk addr n1 _ (fun i Hik => Hd1 n1 i Hik) (Hd2 n1) Hk). change (0 <? 0) with false. cbv iota.
  unfold n1. cbn [n_w n_socks n_errno n_log]. rewrite insert_insert_eq.
  rewrite <- (ipp_header_load pname _ _ Hlj) in Hi. rewrite <- Eid in Ht.
  set (ks := Sock (Data resp :: tl) [] room).
  destruct (send_job_ok fuel fd sk pname jp1 data ibuf hbuf w1 (<[sk := ks]> socks) e lg1 _ resp tl room Hi Hh R1 Hm Hsk Ht
    (lookup_insert_eq socks sk ks) Hroom) as (w2 & lg2 & rm & E2 & [[wr R2] _] & F2).
  znet E2. rewrite insert_insert_eq. rewrite Eid.
  unfold mbind at 1, M_bind at 1. unfold on_net at 1, zoom at 1. cbn [pd_net].
  unfold mbind at 1, M_bind at 1, unlink at 1 2, modify at 1 2. proj. cbn [set_n_w set_files n_w n_socks n_errno n_log files fds events].
  unfold mret at 1, M_ret at 1. cbn [fst snd].
  unfold mbind at 1, M_bind at 1, on_jobs at 1, zoom at 1, modify at 1. proj.
  erewrite run_close; [|exact R2]. proj. cbn [files fds events set_fds log_event]. btrue (0 <=? sk).
  unfold mbind at 1, M_bind at 1, on_net at 1, zoom at 1, sock_close at 1, modify at 1. proj.
  unfold mret, M_ret. eexists. split; [reflexivity|]. cbn [pd_net n_w files pd_jobs].
  split_and!.
  - unfold sent_on. cbn [n_socks]. rewrite lookup_alter_eq, lookup_insert_eq. done.
  - by rewrite F2, F1.
  - by apply free_queue.
  - cbn [free_job set_jheap jheap]. apply loads_ext. intros y Hy. rewrite lookup_delete_ne by (intros ->; done). apply Hld.
  - cbn [free_job set_jheap jheap]. apply lookup_delete_eq.
  - done.
Qed.

Lemma print_turn_defers fuel sk :
  (forall s, new_socket s = sk) -> 0 <= sk -> (forall s i, dial s addr i = None) ->
  exists s', print_turn fuel daemon = Ret Deferred s' /\ files (n_w (pd_net s')) = counted /\
    queue (pd_jobs s') (x :: l) /\ loads (jheap (pd_jobs s')) (x :: l) = loads (jheap j) (x :: l) /\
    joblock (pd_jobs s') = false.
Proof.
  intros Hns Hsk Hd.
  destruct (turn_start fuel) as (w1 & j1 & jp1 & fd & lg1 & E & F1 & [[wr R1] _] & Hfd & Q1 & L1 & _ & Hx1 & Hld & Hlj & Hxl).
  rewrite E. unfold deliver, contact. clear E. unfold mbind at 1, M_bind at 1.
  znet (run_socket sk w1 socks e lg1 (Hns _) ltac:(lia)). bfalse (sk <? 0). rewrite !run_pget. proj.
  znet (connect_retry_fails sk addr (Net w1 (<[sk:=Sock [] [] 0]> socks) e lg1) (fun i _ => Hd _ i)).
  change (-1 <? 0) with true. cbv iota. unfold log. erewrite run_net; [|reflexivity]. proj.
  unfold mret at 1, M_ret at 1. cbn [fst snd]. rewrite bind_mret.
  erewrite run_close; [|exact R1]. proj. cbn [files fds events set_fds log_event]. btrue (0 <=? sk).
  unfold mbind at 1, M_bind at 1, on_net at 1, zoom at 1, sock_close at 1, modify at 1. proj.
  destruct (replace_job_ok j1 l x jp1 Q1 L1 Hxl Hx1) as (j2 & E2 & Q2 & Hl2 & _ & L2 & _).
  zjobs E2. eexists. split; [reflexivity|]. cbn [pd_net n_w files pd_jobs]. split_and!; try done.
  rewrite Hl2, loads_cons, Hx. simpl. rewrite <- Hlj. f_equal. apply loads_ext. intros; apply Hld.
Qed.
End Daemon.
End Turn.
