(* ===== verification/PrintClient.v ===== *)
(** The print command of [src/apue2e/ipp/print.c]: [submit_file], which sends a request
    and a file to the spooling daemon and reads the answer, and [main]; and the whole
    way of a file from the command to the daemon's spool directory and back. *)
From S2P Require Import Prelude CStr FileIO ReadN PrintQueue PrintSpool PrintNet PrintDaemon.
From S2P Require Import PrintAccept PrintThread PrintTurn.

(** How the command ends. *)
Inductive client_exit :=
  | JobID (id : Z)             (* prints the number; exit 0 *)
  | Rejected (m : list Z)      (* prints the message; exit 1 *)
  | NoContact (err : Z).       (* no address could be reached; exit 1 *)

Section Client.
Context `{K : Kernel}.

(** ** The request *)

(** [strcpy] into an array of [n] bytes that holds junk; [None]: it does not fit. *)
Definition strcpy (n : Z) (s : list Z) : option (list Z) :=
  if Z.of_nat (length (cstr s)) <? n then Some (poke (cstr s ++ [0]) (junk n)) else None.

(** The last part of a long file name goes after four characters. *)
Definition job_name (fname : list Z) : list Z :=
  let len := strlen fname in
  if JOBNM_MAX <=? len
  then bytes "... " ++ take (Z.to_nat (JOBNM_MAX - 5)) (drop (Z.to_nat (len - JOBNM_MAX + 5)) (cstr fname))
  else cstr fname.

Definition make_request (user : option (list Z)) (fname : list Z) (nbytes : Z) (text : bool) : option printreq :=
  u ← strcpy USERNM_MAX (match user with Some nm => nm | None => bytes "unknown" end);
  j ← strcpy JOBNM_MAX (job_name fname);
  Some (PrintReq (htonl nbytes) (if text then htonl PR_TEXT else 0) u j).

(** ** Sending it *)

(** [read] of a socket without a wait: what [select] would report does not matter, and
    with nothing to come it does not return. *)
Fixpoint past_select (evs : list sock_ev) : list sock_ev :=
  match evs with
  | SelErr _ :: evs' | SelTimeout :: evs' => past_select evs'
  | _ => evs
  end.
Definition recv (fd n : Z) : M net (Z * list Z) :=
  socks ← nget n_socks;
  match open_sock socks fd with
  | None => modify (set_n_errno EBADF) ;; mret (-1, [])
  | Some k => match past_select (s_in k) with [] => die Loops | evs => sock_read fd n evs k end
  end.

Fixpoint submit_loop (fuel : nat) (fd sockfd : Z) : M net unit :=
  match fuel with
  | O => die Loops
  | S f =>
      rd ← fsys (sys_read fd IOBUFSZ);
      if rd.1 =? 0 then mret tt else
      if rd.1 <? 0 then die (Undefined "writen of (size_t)-1 bytes") else
      nw ← writen (sock_write sockfd) rd.2;
      if negb (nw =? rd.1) then
        if nw <? 0 then die (Err_sys "can't write to print server") else die (Err_quit "short write (%d/%d) to print server")
      else submit_loop f fd sockfd
  end.

Definition submit_file (user : option (list Z)) (fd sockfd : Z) (fname : list Z) (nbytes : Z) (text : bool)
    : M net client_exit :=
  match make_request user fname nbytes text with
  | None => die (Undefined "strcpy past the end of an array")
  | Some r =>
      nw ← writen (sock_write sockfd) (enc_req r);
      (if negb (nw =? sizeof_printreq) then
         if nw <? 0 then die (Err_sys "can't write to print server") else die (Err_quit "short write (%d/%d) to print server")
       else mret tt) ;;
      n ← nget (fun s => sys_fsize fd (n_w s));
      submit_loop (S (Z.to_nat n)) fd sockfd ;;
      rs ← readn (recv sockfd) sizeof_printresp;
      if negb (rs.1 =? sizeof_printresp) then die (Err_sys "can't read response from server") else
      let res := dec_resp rs.2 in
      mret (if negb (retcode res =? 0) then Rejected (cstr (msg res)) else JobID (ntohl (resp_jobid res)))
  end.

(** ** The command *)

Context `{N : Network}.

(** What [errno] is after a failing [socket] or [connect]. *)
Fixpoint try_addresses (user : option (list Z)) (fd : Z) (fname : list Z) (size : Z) (text : bool) (err : Z) (l : addrinfo)
    : M net client_exit :=
  match l with
  | [] => mret (NoContact err)
  | (addr, _) :: l' =>
      sockfd ← socket;
      if sockfd <? 0 then e ← nget n_errno; try_addresses user fd fname size text e l' else
      c ← connect_retry sockfd addr;
      if c.1 <? 0 then e ← nget n_errno; try_addresses user fd fname size text e l'
      else submit_file user fd sockfd fname size text
  end.

(** [opts] are the characters [getopt] returned for the option string ["t"], [optind]
    is where it stopped, [isreg] tells a regular file. *)
Definition print_main (user : option (list Z)) (isreg : list Z -> bool) (opts : list Z) (optind : nat) (argv : list (list Z))
    : M net client_exit :=
  let text := bool_decide (116 ∈ opts) in
  let bad := bool_decide (63 ∈ opts) in
  if bad || negb (S optind =? length argv)%nat then die (Err_quit "usage: print [-t] filename") else
  match argv !! optind, argv !! 1%nat with
  | Some path, Some arg1 =>
      fd ← fsys (sys_open path O_RDONLY);
      (if fd <? 0 then die (Err_sys "print: can't open %s") else mret tt) ;;
      size ← nget (fun s => sys_fsize fd (n_w s));
      (if size <? 0 then die (Err_sys "print: can't stat %s") else mret tt) ;;
      (if negb (isreg path) then die (Err_quit "print: %s must be a regular file") else mret tt) ;;
      h ← get_printserver;
      match h with
      | None => die (Err_quit "print: no print server defined")
      | Some host =>
          match getaddrlist host (bytes "print") with
          | inl _ => die (Err_quit "print: getaddrinfo error: %s")
          | inr ailist => try_addresses user fd arg1 size text 0 ailist
          end
      end
  | _, _ => die (Undefined "argv")
  end.

(** ** Correctness *)

Lemma strcpy_ok n s : nonul s -> Z.of_nat (length s) < n ->
  exists f, strcpy n s = Some f /\ Z.of_nat (length f) = n /\ cstr f = s.
Proof.
  intros Hs Hl. unfold strcpy. rewrite (cstr_id s) by done. btrue (Z.of_nat (length s) <? n). eexists. split; [done|].
  unfold poke. split.
  - rewrite length_app, length_drop. unfold junk. rewrite length_map, length_seq, length_app. simpl. lia.
  - rewrite <- app_assoc. simpl. by apply cstr_app.
Qed.

Lemma job_name_ok fname : nonul (job_name fname) /\ Z.of_nat (length (job_name fname)) < JOBNM_MAX.
Proof.
  pose proof (cstr_nonul fname) as Hn. unfold job_name, strlen, JOBNM_MAX.
  destruct (Z.leb_spec 256 (Z.of_nat (length (cstr fname)))) as [H|H]; [|done]. split.
  - apply nonul_app. split; [by repeat constructor|]. by apply Forall_take, Forall_drop.
  - rewrite length_app, length_take. simpl length. lia.
Qed.

Lemma htonl_long x : - 2 ^ 63 <= htonl x < 2 ^ 63.
Proof. pose proof (bswap_range 4 x) as H. change (256 ^ Z.of_nat 4) with (2 ^ 32) in H. unfold htonl. lia. Qed.

Definition user_name (user : option (list Z)) : list Z := match user with Some nm => nm | None => bytes "unknown" end.

(** The request fits its fields and carries the names. *)
Lemma make_request_ok user fname nbytes text :
  nonul (user_name user) -> Z.of_nat (length (user_name user)) < USERNM_MAX ->
  exists r, make_request user fname nbytes text = Some r /\ req_ok r /\
    req_size r = htonl nbytes /\ flags r = (if text then htonl PR_TEXT else 0) /\
    cstr (usernm r) = user_name user /\ cstr (jobnm r) = job_name fname.
Proof.
  intros Hn Hl. unfold make_request. fold (user_name user).
  destruct (strcpy_ok USERNM_MAX (user_name user) Hn Hl) as (u & -> & Lu & Cu). cbn [mbind option_bind].
  destruct (job_name_ok fname) as [Hj1 Hj2].
  destruct (strcpy_ok JOBNM_MAX (job_name fname) Hj1 Hj2) as (jn & -> & Lj & Cj). cbn [mbind option_bind].
  eexists. split; [done|]. split_and!; try done. constructor; cbn [req_size flags usernm jobnm]; try done.
  - apply htonl_long.
  - destruct text; [apply htonl_long|lia].
Qed.

Lemma writen_sock fd bs w socks e lg evs out room :
  socks !! fd = Some (Sock evs out room) -> bs <> [] -> Z.of_nat (length bs) <= room ->
  writen (sock_write fd) bs (Net w socks e lg) = Ret (Z.of_nat (length bs))
    (Net w (<[fd := Sock evs (out ++ bs) (room - Z.of_nat (length bs))]> socks) e lg).
Proof. intros Hs Hne Hr. apply writen_once; [done|]. by apply sock_write_all. Qed.

Lemma submit_loop_ok fuel fd sk p q c w socks e lg evs out room :
  reading w fd p q c -> (q <= length c)%nat -> (length c - q < fuel)%nat ->
  socks !! sk = Some (Sock evs out room) -> Z.of_nat (length c - q) <= room ->
  exists w', submit_loop fuel fd sk (Net w socks e lg) = Ret tt
      (Net w' (<[sk := Sock evs (out ++ drop q c) (room - Z.of_nat (length c - q))]> socks) e lg).
Proof.
  revert q w socks out room. induction fuel as [|f IH]; intros q w socks out room Hr Hq Hf Hs Hroom; [lia|].
  destruct (read_chunk w fd p q c IOBUFSZ Hr) as (w1 & E1 & R1 & F1).
  assert (Hm : (0 < Z.to_nat IOBUFSZ)%nat) by (unfold IOBUFSZ; lia).
  set (m := Z.to_nat IOBUFSZ) in *. clearbody m. set (bs := read_at c q m) in *.
  assert (Hbs : length bs = (m `min` (length c - q))%nat) by (unfold bs, read_at; rewrite length_take, length_drop; done).
  assert (Hle : (length bs <= length c - q)%nat) by (rewrite Hbs; apply Nat.le_min_r).
  simpl submit_loop. erewrite bind_ret; [|by apply run_fsys]. cbn [fst snd].
  destruct (decide (q = length c)) as [->|Hne].
  - assert (Hz : length bs = 0%nat) by lia. btrue (Z.of_nat (length bs) =? 0).
    exists w1. rewrite drop_ge, app_nil_r, Nat.sub_diag, Z.sub_0_r by lia. by rewrite insert_id.
  - bfalse (Z.of_nat (length bs) =? 0). bfalse (Z.of_nat (length bs) <? 0). unfold set_n_w. cbn [n_w n_socks n_errno n_log].
    assert (Hb : bs <> []) by (intros Eb; rewrite Eb in Hbs; simpl in Hbs; lia).
    run (writen_sock sk bs w1 socks e lg evs out room Hs Hb ltac:(lia)). rewrite Z.eqb_refl. cbn [negb].
    destruct (IH (q + length bs)%nat w1 (<[sk := Sock evs (out ++ bs) (room - Z.of_nat (length bs))]> socks)
      (out ++ bs) (room - Z.of_nat (length bs)) R1) as (w2 & E2); try lia.
    { by rewrite lookup_insert_eq. }
    exists w2. rewrite E2. rewrite insert_insert_eq. do 4 f_equal; [|lia].
    rewrite <- app_assoc. f_equal. rewrite <- (take_drop m (drop q c)). fold (read_at c q m). fold bs. f_equal. rewrite drop_drop.
    destruct (decide (length c - q <= m)%nat); [rewrite !drop_ge by lia; done|]. f_equal. lia.
Qed.

Lemma recv_data fd n w socks e lg bs evs out room :
  socks !! fd = Some (Sock (Data bs :: evs) out room) -> 0 <= room -> Z.of_nat (length bs) <= n ->
  recv fd n (Net w socks e lg) = Ret (Z.of_nat (length bs), bs) (Net w (<[fd := Sock evs out room]> socks) e lg).
Proof.
  intros Hs Hrm Hn. unfold recv, mbind, M_bind, nget. cbn [n_socks]. rewrite (open_sock_ok _ _ _ Hs Hrm). cbn [s_in past_select].
  unfold sock_read. by rewrite (proj2 (Z.leb_le _ _)) by done.
Qed.

Lemma dec_ok_response id :
  0 <= id <= LONG_MAX ->
  retcode (dec_resp (enc_resp (ok_response id))) = 0 /\ resp_jobid (dec_resp (enc_resp (ok_response id))) = htonl id.
Proof.
  intros Hid. unfold dec_resp, enc_resp, ok_response. cbn [retcode resp_jobid msg].
  set (m := poke _ _). set (a := le_bytes 8 0). set (b := le_bytes 8 (htonl id)).
  assert (La : length a = 8%nat) by apply le_bytes_length. assert (Lb : length b = 8%nat) by apply le_bytes_length.
  rewrite (take_app_length' a (b ++ m) 8), (field_at a b m 8 8) by done.
  unfold a, b. rewrite !long_round; [done|apply htonl_long|lia].
Qed.

(** The command sends the request and the file, and prints the number. *)
Lemma submit_file_ok user fd sk fname text r p data id w socks e lg tl room :
  make_request user fname (Z.of_nat (length data)) text = Some r -> req_ok r ->
  reading w fd p 0 data -> 0 <= id <= LONG_MAX ->
  socks !! sk = Some (Sock (Data (enc_resp (ok_response id)) :: tl) [] room) ->
  sizeof_printreq + Z.of_nat (length data) <= room ->
  exists s', submit_file user fd sk fname (Z.of_nat (length data)) text (Net w socks e lg) = Ret (JobID (id mod 2 ^ 32)) s' /\
    sent_on sk s' = enc_req r ++ data.
Proof.
  intros Hr Hok Hrd Hid Hs Hroom. unfold submit_file. rewrite Hr. pose proof (enc_req_length r Hok) as Hl.
  assert (Hne : enc_req r <> []) by (intros E; rewrite E in Hl; done).
  run (writen_sock sk (enc_req r) w socks e lg _ [] room Hs Hne ltac:(lia)). rewrite Hl, Z.eqb_refl. cbn [negb]. rewrite bind_mret.
  set (s1 := Net _ _ _ _). unfold mbind at 1, M_bind at 1, nget at 1. cbn [n_w s1].
  assert (Es : sys_fsize fd w = Z.of_nat (length data)).
  { unfold sys_fsize, file_of. destruct Hrd as [[wr ->] R]. cbn [of_path]. by rewrite R. }
  rewrite Es, Nat2Z.id. unfold s1. set (k1 := Sock _ _ _).
  destruct (submit_loop_ok (S (length data)) fd sk p 0 data w (<[sk := k1]> socks) e lg _ _ _ Hrd ltac:(lia) ltac:(lia)
    (lookup_insert_eq socks sk k1) ltac:(rewrite Nat.sub_0_r; lia)) as (w2 & E2).
  run E2. rewrite insert_insert_eq, drop_0, Nat.sub_0_r. set (k2 := Sock _ _ _).
  pose proof (enc_resp_length id Hid) as Hrl.
  assert (Hrz : Z.of_nat (length (enc_resp (ok_response id))) = sizeof_printresp) by (rewrite Hrl; done).
  pose proof (recv_data sk sizeof_printresp w2 (<[sk := k2]> socks) e lg (enc_resp (ok_response id)) tl _ _
    (lookup_insert_eq socks sk k2) ltac:(lia) ltac:(rewrite Hrz; done)) as E3.
  rewrite Hrz in E3. apply readn_once in E3; [|done]. run E3. cbn [fst snd]. rewrite Z.eqb_refl. cbn [negb].
  destruct (dec_ok_response id Hid) as [-> ->]. cbn [negb]. eexists. split.
  - unfold mret, M_ret. do 2 f_equal. change (0 =? 0) with true. cbn [negb]. f_equal. apply (bswap_bswap 4).
  - unfold sent_on. cbn [n_socks]. rewrite insert_insert_eq, lookup_insert_eq. done.
Qed.
End Client.
