(* ===== verification/PrintTheorems.v ===== *)
(** The theorems about the print spooler of [src/apue2e/ipp]. *)
From S2P Require Import Prelude CStr FileIO ReadN PrintQueue PrintSpool PrintNet PrintDaemon.
From S2P Require Import PrintAccept PrintFiles PrintIpp PrintWire PrintThread PrintTurn PrintClient.

(** ** The queue *)

(** C7: in every state the daemon's threads can reach, in any interleaving of their
    critical sections, the job list is a well-formed doubly linked list, no thread is
    inside [joblock], and the jobs that were freed, the job being printed and the jobs
    in the list are, in this order, exactly the jobs accepted, in the order of their
    acceptance: no job is lost, doubled or overtaken. *)
Theorem spool_jobs_fifo `{K : Kernel} n s :
  k_malloc sizeof_job = true -> 1 <= n <= LONG_MAX -> reachable (start n) s ->
  exists l, queue (sp_jobs s) l /\ joblock (sp_jobs s) = false /\
    finished s ++ in_hand s ++ loads (jheap (sp_jobs s)) l = accepted s.
Proof. intros Hm Hn R. destruct (reachable_ok n s Hm Hn R) as [l []]. by exists l. Qed.

(** The numbers the clients get are consecutive from the counter of the job file,
    whatever the interleaving, so no two clients get the same number (up to the wrap
    after LONG_MAX). *)
Theorem job_numbers_distinct `{K : Kernel} n s :
  k_malloc sizeof_job = true -> 1 <= n <= LONG_MAX -> reachable (start n) s ->
  n + Z.of_nat (length (numbered s)) <= LONG_MAX ->
  numbered s = seqZ n (Z.of_nat (length (numbered s))) /\ NoDup (numbered s).
Proof.
  intros Hm Hn R Hl. destruct (numbers_ok n s Hm Hn R Hl) as [E _]. split; [done|]. rewrite E. apply NoDup_seqZ.
Qed.

(** ** Serving a client *)

Section Serve.
Context `{K : Kernel} `{L : Libc}.


(** A request that does not arrive whole (an error, a timeout, an early end of the
    stream) is refused: the thread ends with status 1, no number is taken, nothing is
    queued and no file is touched. *)
Theorem client_short_request_refused sock s n bs t :
  sock_ok sock (n_w (pd_net s)) (pd_net s) ->
  treadn sock sizeof_printreq 10 (pd_net s) = Ret (n, bs) t -> n <> sizeof_printreq ->
  exists t', client_body sock s = Ret 1 (set_net t' s) /\ n_w t' = n_w (pd_net s).
Proof. apply client_refuses. Qed.

(** C9: recovery: when the daemon starts, the control files of the request directory
    put exactly their jobs, with the numbers in their names and the requests that were
    accepted, in the queue, in the order of the directory, and change no file. *)
Theorem restart_recovers_queue ps w socks e lg j wl jf cl rr pr pn l :
  k_malloc sizeof_job = true -> queue j l -> joblock j = false -> Forall (control_file w) ps ->
  dir_entries w (SPOOLDIR ++ bytes "/" ++ bytes "reqs") = Some (bytes "." :: bytes ".." :: map (fun p => dec p.1) ps) ->
  exists w' lg' j' l', build_qonstart (Printd (Net w socks e lg) j wl jf cl rr pr pn) =
    Ret tt (Printd (Net w' socks e lg') j' wl jf cl rr pr pn) /\
    files w' = files w /\ queue j' l' /\ loads (jheap j') l' = loads (jheap j) l ++ ps /\ joblock j' = false.
Proof.
  intros Hm Hq Hl F D. unfold build_qonstart. rewrite run_pget. cbn [pd_net n_w]. rewrite D. by apply requeue_all_ok.
Qed.

(** The job file: the number that [update_jobno] writes is the one [init_request]
    of a restarted daemon reads, when the file had no more digits than the number. *)
Theorem jobno_survives_restart w socks e lg j wl jf cl rr pr pn c :
  has_file w jf JOBFILE c -> 0 <= nextjob j <= LONG_MAX -> 64 < k_fsize -> (length c <= length (dec (nextjob j)))%nat ->
  k_may_open JOBFILE (Z.lor O_CREAT O_RDWR) = true -> (forall evs cmd ev, k_lock evs cmd ev = true) ->
  exists w', update_jobno (Printd (Net w socks e lg) j wl jf cl rr pr pn) =
      Ret tt (Printd (Net w' socks e lg) j wl jf cl rr pr pn) /\
    forall j2, exists w2 fd, init_request (Printd (Net (World (files w') ∅ []) ∅ 0 []) j2 wl 0 cl rr None None) =
      Ret tt (Printd (Net w2 ∅ 0 []) (set_nextjob (nextjob j) j2) wl fd cl rr None None).
Proof.
  intros Hf Hn Hk Hc Hm Hg. destruct (update_jobno_ok w socks e lg j wl jf cl rr pr pn c Hf Hn Hk) as (w' & E & F).
  exists w'. split; [done|]. intros j2.
  destruct (init_request_ok (World (files w') ∅ []) ∅ 0 [] j2 wl 0 cl rr None None (nextjob j)) as (w2 & fd & E2 & _); try done.
  - cbn [files]. rewrite F, lookup_insert_eq. f_equal. unfold write_at. simpl. rewrite drop_ge by lia. by rewrite app_nil_r.
  - by exists w2, fd.
Qed.
End Serve.

(** ** Feeding the printer *)

Section Feed.
Context `{K : Kernel} `{L : Libc} `{N : Network}.
Context (w : world) (socks : gmap Z sock) (e : Z) (lg : list string) (wl : wlist) (jf : Z).
Context (addr : list Z) (cn : option (list Z)) (pname : list Z).
Context (j : jobs) (x : positive) (l : list positive) (jp : job) (c data : list Z).
Context (Hq : queue j (x :: l)) (Hlock : joblock j = false) (Hx : jheap j !! x = Some jp).
Context (Hjf : has_file w jf JOBFILE c) (Hnext : 0 <= nextjob j <= LONG_MAX) (Hfs : 64 < k_fsize).
Context (Hmay : k_may_open (data_path (jobid jp)) O_RDONLY = true).
Context (Hdata : files w !! data_path (jobid jp) = Some data).


(** When the printer cannot be reached in eight attempts the job is at the head of
    the queue again, with the same jobs behind it, and only the job number file has
    changed. *)
Theorem turn_defers_job fuel sk :
  (forall s, new_socket s = sk) -> 0 <= sk -> (forall s i, dial s addr i = None) ->
  exists s', print_turn fuel (Printd (Net w socks e lg) j wl jf false false (Some (addr, cn)) (Some pname)) = Ret Deferred s' /\
    files (n_w (pd_net s')) = <[JOBFILE := write_at c 0 (dec (nextjob j))]> (files w) /\
    queue (pd_jobs s') (x :: l) /\ loads (jheap (pd_jobs s')) (x :: l) = loads (jheap j) (x :: l) /\
    joblock (pd_jobs s') = false.
Proof. by eapply print_turn_defers. Qed.
End Feed.

(** The IPP header of a job is built exactly when the printer's name has at most
    52 characters and the header with the final null byte of the last [strcpy] fits in
    512 bytes; it is then a Print-Job request that an IPP decoder reads back: the job
    number as the request id, the attributes with the user, the job name, the printer's
    URI and the document format, and whatever follows as the data. *)
Theorem ipp_header_roundtrip pname jp user jname data :
  req_strings (req jp) user jname -> nonul pname -> nonul user -> nonul jname ->
  Z.of_nat (length user) < 60000 -> Z.of_nat (length jname) < 60000 -> 0 <= jobid jp < 2 ^ 32 ->
  let text := negb (Z.land (flags (req jp)) PR_TEXT =? 0) in
  (is_Some (ipp_header pname jp) <-> ipp_fits pname user jname text) /\
  forall ibuf, ipp_header pname jp = Some ibuf ->
    parse_ipp (ibuf ++ data) =
      Some (IppRequest 1 1 OP_PRINT_JOB (jobid jp) TAG_OPERATION_ATTR (job_attrs pname user jname text) data).
Proof.
  intros Hs Np Nu Nj Lu Lj Hid text. rewrite (ipp_header_eq pname jp user jname) by done. fold text.
  unfold ipp_fits. destruct (Z.leb_spec (Z.of_nat (length pname)) 52) as [Hp|Hp]; cbn [andb].
  2:{ split; [|done]. split; [by intros [? ?]|lia]. }
  destruct (Z.leb_spec (ipp_len pname user jname text + 1) IBUFSZ) as [Hi|Hi]; (split; [split; [|eauto]; (done || (by intros [? ?]) || lia)|]).
  - intros ibuf [= <-]. destruct (job_attrs_ok pname user jname text Np Nu Nj) as [F E]; try lia.
    by rewrite parse_ipp_ok, E.
  - done.
Qed.

Section Answers.
Context `{K : Kernel}.
Context (sock : Z) (w : world) (socks : gmap Z PrintNet.sock) (e : Z) (lg : list string).
Context (tl : list sock_ev) (out : list Z) (room : Z).
Context (Hmem : k_malloc IOBUFSZ = true) (Hsock : 0 <= sock < FD_SETSIZE) (Hroom : 0 <= room).

(** [printer_status] on a successful response that arrives whole: it returns, with
    1 exactly when the answer's request id is the job's and its IPP status is a success,
    and consumes the response. *)
Theorem printer_status_correct fuel id ver code reason pre n rest k :
  response_ok ver code reason pre n rest k ->
  socks !! sock = Some (Sock (Data (response ver code reason pre n rest) :: tl) out room) ->
  exists lg', printer_status (S fuel) sock id (Net w socks e lg) =
    Ret (answer_of id (drop k rest)) (Net w (<[sock := Sock tl out room]> socks) e lg').
Proof. by apply printer_status_ok. Qed.

(** A defect: when the first read of the response ends one or two bytes after the CR
    of the Content-Length line, the search for the end of the header makes no progress
    and reads no more: [printer_status] does not return for any bound on the number of
    iterations, whatever the printer sends afterwards. *)
Theorem split_header_hangs_printer_thread fuel id ver code reason pre n rest :
  status_ok ver code reason -> Forall (fun x => x <> 67 /\ x <> 99) pre -> 0 <= n < 2 ^ 31 -> (1 <= length rest <= 2)%nat ->
  Z.of_nat (length (response ver code reason pre n rest)) <= IOBUFSZ ->
  socks !! sock = Some (Sock (Data (response ver code reason pre n rest) :: tl) out room) ->
  exists s', printer_status fuel sock id (Net w socks e lg) = Exit Loops s'.
Proof. intros H1 H2 H3 H4 H5 H6. by eapply (printer_status_stuck fuel sock id ver code reason pre n rest w socks e lg tl out room). Qed.
End Answers.

(** ** From the command to the spool directory *)

(** C11: the print command and the daemon together.  For a user name that fits and a file
    below 4 GB the command sends a request and the file, and the daemon, however the
    network cuts this stream, stores the file's bytes and queues a job whose size, user
    name and job name are those of the command (text when the command said text);
    the daemon's answer makes the command print the job's number. *)
Theorem print_command_spools_file `{K : Kernel} `{L : Libc} user fname text data fd p w0 socks0 e0 lg0 sk tl0 room0
    sock w socks j l e lg wl jf cl rr pr pn :
  nonul (user_name user) -> Z.of_nat (length (user_name user)) < USERNM_MAX ->
  reading w0 fd p 0 data -> Z.of_nat (length data) < 2 ^ 32 ->
  socks0 !! sk = Some (Sock (Data (enc_resp (ok_response (nextjob j))) :: tl0) [] room0) ->
  sizeof_printreq + Z.of_nat (length data) <= room0 ->
  0 <= sock < FD_SETSIZE -> k_malloc sizeof_job = true -> queue j l -> joblock j = false -> 1 <= nextjob j < 2 ^ 32 ->
  k_may_open (data_path (nextjob j)) wr_flags = true -> k_may_open (req_path (nextjob j)) wr_flags = true ->
  Z.of_nat (length data) <= k_fsize -> sizeof_printreq <= k_fsize ->
  exists r, (exists s', submit_file user fd sk fname (Z.of_nat (length data)) text (Net w0 socks0 e0 lg0) = Ret (JobID (nextjob j)) s' /\
      sent_on sk s' = enc_req r ++ data) /\
    forall cs ev tl out room, Forall chunk_ok cs -> concat cs = enc_req r ++ data -> stops ev ->
      socks !! sock = Some (Sock (map Data cs ++ ev :: tl) out room) -> sizeof_printresp <= room ->
      exists s' x r', client_body sock (Printd (Net w socks e lg) j wl jf cl rr pr pn) = Ret 0 s' /\
        sent_on sock (pd_net s') = out ++ enc_resp (ok_response (nextjob j)) /\
        files (n_w (pd_net s')) !! data_path (nextjob j) = Some data /\
        loads (jheap (pd_jobs s')) (l ++ [x]) = loads (jheap j) l ++ [(nextjob j, r')] /\
        req_size r' = Z.of_nat (length data) /\ cstr (usernm r') = user_name user /\ cstr (jobnm r') = job_name fname /\
        (text = true -> flags r' = PR_TEXT).
Proof.
  intros Hu Hul Hrd Hd Hs0 Hr0 Hsock Hmem Hq Hlk Hnx Hm1 Hm2 Hk1 Hk2.
  destruct (make_request_ok user fname (Z.of_nat (length data)) text Hu Hul) as (r & Er & Hok & Sz & Fl & Un & Jn).
  assert (Hid : 1 <= nextjob j <= LONG_MAX) by (unfold LONG_MAX; lia).
  exists r. split.
  { destruct (submit_file_ok user fd sk fname text r p data (nextjob j) w0 socks0 e0 lg0 tl0 room0 Er Hok Hrd ltac:(lia) Hs0 Hr0)
      as (s' & E & S). rewrite Z.mod_small in E by lia. by exists s'. }
  intros cs ev tl out room Hcs Hcat Hev Hs Hroom.
  destruct (client_body_ok sock w socks j l cs data ev r e lg wl jf cl rr pr pn tl out room)
    as (w' & e' & j' & x & chunks & E & F & C & Q & Ld & Lk & _); try done.
  eexists _, x, (accepted_req r chunks). split; [exact E|]. cbn [pd_net pd_jobs n_w].
  split_and!; try done; unfold accepted_req; cbn [req_size usernm jobnm flags]; try done.
  - unfold sent_on. cbn [n_socks]. by rewrite lookup_insert_eq.
  - rewrite F, lookup_insert_ne by apply not_eq_sym, paths_differ. apply lookup_insert_eq.
  - rewrite Sz. rewrite (bswap_bswap 4 _ : ntohl (htonl _) = _). apply Z.mod_small. change (256 ^ Z.of_nat 4) with (2 ^ 32). lia.
  - intros ->. rewrite Fl. rewrite (bswap_bswap 4 _ : ntohl (htonl _) = _). change (PR_TEXT mod _) with PR_TEXT.
    unfold text_flag. destruct chunks as [|ch ?]; [done|]. by destruct (true && _).
Qed.

(** The configuration file: for a file of lines made of a keyword of at most 15
    characters, a blank and a value, [scan_configfile] gives the value of the first line
    with the keyword, and NULL when there is none. *)
Theorem scan_configfile_finds kw kvs w socks e lg :
  files w !! CONFIG_FILE = Some (cfg_text kvs) -> Forall cfg_ok kvs ->
  scan_configfile kw (Net w socks e lg) = Ret (assoc kw kvs) (Net w socks e lg).
Proof.
  intros Hf F. unfold scan_configfile, mbind, M_bind, nget. cbn [n_w]. rewrite Hf. unfold mret, M_ret.
  rewrite scan_lines_ok; [done|done|]. pose proof (cfg_text_length kvs F). lia.
Qed.

(** Bytes of a socket are reassembled: [treadn] always returns, with at most the
    number asked for or -1, and when at least that many bytes arrive before anything
    else happens it returns exactly the first of them, in order, however they are cut
    into reads, and leaves the rest. *)
Theorem treadn_reassembles fd t w n s :
  sock_ok fd w s -> 0 <= n ->
  (exists r bs s', treadn fd n t s = Ret (r, bs) s' /\ sock_ok fd w s' /\
    ((r = -1 /\ bs = [] /\ 0 < n) \/ (r = Z.of_nat (length bs) /\ r <= n))) /\
  (n <= Z.of_nat (length (waiting_on fd s)) ->
   exists s', treadn fd n t s = Ret (n, take (Z.to_nat n) (waiting_on fd s)) s' /\
     waiting_on fd s' = drop (Z.to_nat n) (waiting_on fd s)).
Proof.
  intros Hok Hn. split; [by apply (readn_returns _ _ (waiting_on fd))|]. intros Hw.
  destruct (readn_delivers (fun k => tread fd k t) (sock_ok fd w) (waiting_on fd) n s Hok) as (s' & E & _ & W); [lia|].
  by exists s'.
Qed.

(** ** A concrete system *)

(** Directory listings come from the file system; the printer is unreachable. *)
#[export] Instance demo_libc : Libc := {|
  strerror := fun _ => bytes "error";
  fs_errno := fun _ => EIO;
  dir_entries := fun w d => Some (omap (fun pc =>
    if bool_decide (take (S (length d)) pc.1 = d ++ bytes "/") then Some (drop (S (length d)) pc.1) else None)
    (map_to_list (files w)))
|}.
#[export] Instance demo_net : Network := {|
  getaddrinfo := fun _ _ => inr [([10; 0; 0; 1], Some (bytes "lp"))];
  new_socket := fun _ => 9;
  dial := fun _ _ _ => None
|}.

Definition pad (n : nat) (s : list Z) : list Z := s ++ replicate (n - length s) 0.
Definition demo_req (user : string) : printreq := PrintReq (htonl 4) 0 (pad 64 (bytes user)) (pad 256 (bytes "file")).
Definition demo_conn (user text : string) : sock :=
  Sock [Data (enc_req (demo_req user)); Data (bytes text); SelTimeout] [] 1000.
Definition demo_daemon (f : gmap (list Z) (list Z)) (socks : gmap Z sock) : printd :=
  Printd (Net (World f ∅ []) socks 0 []) (Jobs ∅ None None 0 false 0) (WList ∅ None false []) (-1) false false
    (Some ([10; 0; 0; 1], Some (bytes "lp"))) (Some (bytes "lp")).

(** The first run: two clients, with an attempt to print in between; the second: a
    restart and a client. *)
Definition first_run : M printd Z :=
  init_request ;; client_thread 101 5 ;; print_turn 10 ;; client_thread 102 6.
Definition second_run : M printd Z :=
  init_request ;; build_qonstart ;; client_thread 103 7.

(** The job with a number, as queued: user names in queue order. *)
Definition users_of (id : Z) (j : jobs) : list (list Z) :=
  omap (fun x => jp ← jheap j !! x; if jobid jp =? id then Some (cstr (usernm (req jp))) else None)
    (map fst (map_to_list (jheap j))).

(** A defect: the number file is written only when the printer thread takes a job
    and recovery does not look at the recovered numbers, so after a crash a new client
    can get the number of a job still queued: here bob's job 2 is waiting when carol's
    file is stored over bob's, and two jobs 2 are queued. *)
Theorem restart_reuses_job_number :
  match first_run (demo_daemon ∅ {[5 := demo_conn "ann" "AAAA"; 6 := demo_conn "bob" "BBBB"]}) with
  | Ret _ s1 =>
      files (n_w (pd_net s1)) !! data_path 2 = Some (bytes "BBBB") /\ users_of 2 (pd_jobs s1) = [bytes "bob"] /\
      match second_run (demo_daemon (files (n_w (pd_net s1))) {[7 := demo_conn "carol" "CCCC"]}) with
      | Ret _ s2 =>
          files (n_w (pd_net s2)) !! data_path 2 = Some (bytes "CCCC") /\
          (users_of 2 (pd_jobs s2) = [bytes "bob"; bytes "carol"] \/ users_of 2 (pd_jobs s2) = [bytes "carol"; bytes "bob"])
      | Exit _ _ => False
      end
  | Exit _ _ => False
  end.
Proof. vm_compute. auto. Qed.

(** A defect: [add_worker] does not make a second worker the head of the list, so
    neither SIGTERM nor the worker's own clean-up finds it: it is not cancelled and its
    connection is never closed. *)
Theorem second_worker_lost :
  match (add_worker 101 5 ;; add_worker 102 6 ;; kill_workers ;; unlink_worker 102) (WList ∅ None false []) with
  | Ret found s => cancelled s = [101] /\ found = None
  | Exit _ _ => False
  end.
Proof. vm_compute. auto. Qed.

(** ** Witnesses *)

(** Two jobs numbered and queued, the first one taken. *)
Lemma demo_reachable : exists s, reachable (start 1) s /\ numbered s = [1; 2] /\
  accepted s = [(1, demo_req "ann"); (2, demo_req "bob")] /\ in_hand s = [(1, demo_req "ann")].
Proof.
  eexists. split.
  1: eapply reach_step; [eapply reach_step; [eapply reach_step; [eapply reach_step; [eapply reach_step; [apply reach_start|]|]|]|]|].
  - eapply step_number. vm_compute. reflexivity.
  - eapply (step_add _ _ _ _ _ (demo_req "ann") 1). vm_compute. reflexivity.
  - eapply step_number. vm_compute. reflexivity.
  - eapply (step_add _ _ _ _ _ (demo_req "bob") 2). vm_compute. reflexivity.
  - eapply step_pick. vm_compute. reflexivity.
  - vm_compute. split_and!; reflexivity.
Qed.

Lemma spool_jobs_fifo_witness :
  exists s l, in_hand s = [(1, demo_req "ann")] /\ queue (sp_jobs s) l /\
    finished s ++ in_hand s ++ loads (jheap (sp_jobs s)) l = [(1, demo_req "ann"); (2, demo_req "bob")].
Proof.
  destruct demo_reachable as (s & R & _ & Ha & Hh). rewrite <- Ha.
  destruct (spool_jobs_fifo 1 s) as (l & Q & _ & E); [done|unfold LONG_MAX; lia|done|]. by exists s, l.
Defined.

Lemma job_numbers_distinct_witness :
  exists s, reachable (start 1) s /\ numbered s = seqZ 1 2 /\ NoDup (numbered s).
Proof.
  destruct demo_reachable as (s & R & Hn & _). exists s. split; [done|].
  replace 2 with (Z.of_nat (length (numbered s))) by (by rewrite Hn).
  apply (job_numbers_distinct 1 s); [done|unfold LONG_MAX; lia|done|rewrite Hn; unfold LONG_MAX; simpl; lia].
Defined.

Lemma empty_queue n : queue (Jobs ∅ None None n false 0) [].
Proof. constructor; try done; [constructor|]. intros [|? ?] y b E; done. Qed.

Lemma demo_req_ok user : (length (bytes user) <= 64)%nat -> req_ok (demo_req user).
Proof.
  intros Hl. constructor; cbn [demo_req req_size flags usernm jobnm].
  - apply htonl_long.
  - lia.
  - unfold pad, USERNM_MAX. rewrite length_app, length_replicate. lia.
  - reflexivity.
Qed.

Lemma enc_demo_length user : (length (bytes user) <= 64)%nat -> Z.of_nat (length (enc_req (demo_req user))) = 336.
Proof. intros H. by rewrite (enc_req_length _ (demo_req_ok user H)). Qed.


Definition short_daemon : printd :=
  Printd (Net fs0 {[5 := Sock [Data (bytes "GET /"); SelTimeout] [] 1000]} 0 []) (Jobs ∅ None None 7 false 0)
      (WList ∅ None false []) (-1) false false None None.

Lemma client_short_request_refused_witness :
  exists t', client_body 5 short_daemon = Ret 1 (set_net t' short_daemon) /\ n_w t' = fs0.
Proof.
  eapply (client_short_request_refused 5 short_daemon 5 (bytes "GET /")); [|vm_compute; reflexivity|done].
  constructor; [done| |done]. eexists. split; [apply lookup_singleton_eq|done].
Defined.

Definition crashed : world :=
  World {[req_path 3 := enc_req (demo_req "ann"); req_path 4 := enc_req (demo_req "bob")]} ∅ [].

(** A directory that lists the two control files. *)
Definition crashed_libc : Libc := {|
  strerror := fun _ => [];
  fs_errno := fun _ => EIO;
  dir_entries := fun _ _ => Some [bytes "."; bytes ".."; dec 3; dec 4]
|}.

Lemma restart_recovers_queue_witness :
  exists w' lg' j' l', build_qonstart (L := crashed_libc) (Printd (Net crashed ∅ 0 []) (Jobs ∅ None None 5 false 0) (WList ∅ None false []) 3 false false None None) =
    Ret tt (Printd (Net w' ∅ 0 lg') j' (WList ∅ None false []) 3 false false None None) /\
    files w' = files crashed /\ queue j' l' /\ loads (jheap j') l' = [(3, demo_req "ann"); (4, demo_req "bob")] /\ joblock j' = false.
Proof.
  apply (restart_recovers_queue (L := crashed_libc) [(3, demo_req "ann"); (4, demo_req "bob")] crashed ∅ 0 []
    (Jobs ∅ None None 5 false 0) _ 3 false false None None []); try done.
  - apply empty_queue.
  - assert (F : forall id u, 0 <= id <= LONG_MAX -> (length (bytes u) <= 64)%nat ->
      files crashed !! req_path id = Some (enc_req (demo_req u)) -> control_file crashed (id, demo_req u)).
    { intros id u H1 H2 H3. split; [exact H1|]. split; [by apply demo_req_ok|]. by split. }
    repeat constructor; apply F; try (unfold LONG_MAX; lia); try (simpl; lia); vm_compute; reflexivity.
Defined.

Lemma jobno_survives_restart_witness :
  exists w', update_jobno (Printd (Net (World {[JOBFILE := bytes "41"]} {[3 := OFile JOBFILE 0 true true]} []) ∅ 0 []) (Jobs ∅ None None 42 false 0)
      (WList ∅ None false []) 3 false false None None) =
      Ret tt (Printd (Net w' ∅ 0 []) (Jobs ∅ None None 42 false 0) (WList ∅ None false []) 3 false false None None) /\
    forall j2, exists w2 fd, init_request (Printd (Net (World (files w') ∅ []) ∅ 0 []) j2 (WList ∅ None false []) 0 false false None None) =
      Ret tt (Printd (Net w2 ∅ 0 []) (set_nextjob 42 j2) (WList ∅ None false []) fd false false None None).
Proof.
  apply (jobno_survives_restart (World {[JOBFILE := bytes "41"]} {[3 := OFile JOBFILE 0 true true]} []) ∅ 0 []
    (Jobs ∅ None None 42 false 0) (WList ∅ None false []) 3 false false None None (bytes "41")); try done.
Defined.

(** The answer of a printer that took job 7, and a network with this printer, which
    accepts the third attempt. *)
Definition demo_rest : list Z := [NEWLINE; CR; NEWLINE] ++ [1; 1; 0; 0; 0; 0; 0; 7; 3].
Definition demo_answer : list Z := response (bytes "HTTP/1.1") 200 (bytes "OK") [] 9 demo_rest.

Lemma demo_status : status_ok (bytes "HTTP/1.1") 200 (bytes "OK").
Proof. split; [reflexivity|lia|by repeat constructor]. Qed.

Lemma demo_answer_ok : response_ok (bytes "HTTP/1.1") 200 (bytes "OK") [] 9 demo_rest 3.
Proof.
  split; [apply demo_status|constructor|lia|reflexivity|simpl; lia|simpl; lia|vm_compute; congruence].
Qed.

Definition demo_job : job := Job None None 7 (demo_req "ann").
Definition one_job : jobs := Jobs {[1%positive := demo_job]} (Some 1%positive) (Some 1%positive) 8 false 0.
Definition spooled : world :=
  World {[JOBFILE := bytes "7"; data_path 7 := bytes "%!PS"; req_path 7 := enc_req (demo_req "ann")]} {[3 := OFile JOBFILE 0 true true]} [].

Lemma one_job_queue : queue one_job [1%positive].
Proof.
  constructor; try done; [apply NoDup_singleton|]. intros [|? [|? ?]] y b E; try done.
  injection E as <- <-. by exists demo_job.
Qed.

Definition waiting_daemon : printd :=
  Printd (Net spooled ∅ 0 []) one_job (WList ∅ None false []) 3 false false (Some ([10; 0; 0; 1], None)) (Some (bytes "lp")).


Lemma turn_defers_job_witness :
  exists s', print_turn 5 waiting_daemon = Ret Deferred s' /\ queue (pd_jobs s') [1%positive].
Proof.
  destruct (turn_defers_job spooled ∅ 0 [] (WList ∅ None false []) 3 [10; 0; 0; 1] None (bytes "lp") one_job
    1 [] demo_job (bytes "7") (bytes "%!PS") one_job_queue eq_refl) with (fuel := 5%nat) (sk := 9) as (s' & E & _ & Q & _).
  - reflexivity.
  - split; vm_compute; reflexivity.
  - cbn [one_job nextjob]. unfold LONG_MAX. lia.
  - vm_compute. reflexivity.
  - reflexivity.
  - vm_compute. reflexivity.
  - reflexivity.
  - lia.
  - reflexivity.
  - exists s'. split; [exact E|exact Q].
Defined.

Lemma ipp_header_roundtrip_witness :
  exists ibuf, ipp_header (bytes "lp") demo_job = Some ibuf /\
    parse_ipp (ibuf ++ bytes "%!PS") =
      Some (IppRequest 1 1 OP_PRINT_JOB 7 TAG_OPERATION_ATTR (job_attrs (bytes "lp") (bytes "ann") (bytes "file") false) (bytes "%!PS")).
Proof.
  destruct (ipp_header_roundtrip (bytes "lp") demo_job (bytes "ann") (bytes "file") (bytes "%!PS")) as [[_ H1] H2].
  - split; vm_compute; reflexivity.
  - by repeat constructor.
  - by repeat constructor.
  - by repeat constructor.
  - vm_compute. reflexivity.
  - vm_compute. reflexivity.
  - cbn [demo_job jobid]. lia.
  - destruct H1 as [ibuf E]; [split; vm_compute; congruence|]. exists ibuf. split; [exact E|]. apply (H2 ibuf E).
Defined.

Lemma printer_status_correct_witness :
  exists lg', printer_status 1 9 7 (Net fs0 {[9 := Sock [Data demo_answer] [] 0]} 0 []) =
    Ret 1 (Net fs0 (<[9 := Sock [] [] 0]> {[9 := Sock [Data demo_answer] [] 0]}) 0 lg').
Proof.
  apply (printer_status_correct 9 fs0 {[9 := Sock [Data demo_answer] [] 0]} 0 [] [] [] 0) with (fuel := 0%nat) (id := 7)
    (ver := bytes "HTTP/1.1") (code := 200) (reason := bytes "OK") (pre := @nil Z) (n := 9) (rest := demo_rest) (k := 3%nat).
  - reflexivity.
  - unfold FD_SETSIZE. lia.
  - lia.
  - apply demo_answer_ok.
  - apply lookup_singleton_eq.
Defined.

Lemma split_header_hangs_printer_thread_witness :
  exists s', printer_status 1000 9 7 (Net fs0 {[9 := Sock [Data (response (bytes "HTTP/1.1") 200 (bytes "OK") [] 9 [NEWLINE]); Data [CR; NEWLINE]] [] 0]} 0 []) =
    Exit Loops s'.
Proof.
  eapply (split_header_hangs_printer_thread 9 fs0 _ 0 [] [Data [CR; NEWLINE]] [] 0) with
    (ver := bytes "HTTP/1.1") (code := 200) (reason := bytes "OK") (pre := @nil Z) (n := 9) (rest := [NEWLINE]).
  - reflexivity.
  - unfold FD_SETSIZE. lia.
  - lia.
  - apply demo_status.
  - constructor.
  - lia.
  - simpl. lia.
  - vm_compute. congruence.
  - apply lookup_singleton_eq.
Defined.

Lemma print_command_spools_file_witness :
  exists r s', submit_file (Some (bytes "ann")) 4 9 (bytes "file") 4 true
      (Net (World {[bytes "file" := bytes "text"]} {[4 := OFile (bytes "file") 0 true false]} [])
        {[9 := Sock [Data (enc_resp (ok_response 7))] [] 5000]} 0 []) = Ret (JobID 7) s' /\
    sent_on 9 s' = enc_req r ++ bytes "text".
Proof.
  destruct (print_command_spools_file (Some (bytes "ann")) (bytes "file") true (bytes "text") 4 (bytes "file")
    (World {[bytes "file" := bytes "text"]} {[4 := OFile (bytes "file") 0 true false]} [])
    {[9 := Sock [Data (enc_resp (ok_response 7))] [] 5000]} 0 [] 9 [] 5000
    5 fs0 ∅ (Jobs ∅ None None 7 false 0) [] 0 [] (WList ∅ None false []) (-1) false false None None) as (r & (s' & E & S) & _).
  - by repeat constructor.
  - vm_compute. reflexivity.
  - split; [|reflexivity]. by exists false.
  - vm_compute. reflexivity.
  - apply lookup_singleton_eq.
  - vm_compute. congruence.
  - unfold FD_SETSIZE. lia.
  - reflexivity.
  - apply empty_queue.
  - reflexivity.
  - cbn [nextjob]. lia.
  - reflexivity.
  - reflexivity.
  - vm_compute. congruence.
  - vm_compute. congruence.
  - exists r, s'. split; [exact E|exact S].
Defined.

Definition demo_conf : list (list Z * list Z) :=
  [(bytes "printserver", bytes "blade"); (bytes "printer", bytes "phaser860")].

Lemma scan_configfile_finds_witness :
  scan_configfile (bytes "printer") (Net (World {[CONFIG_FILE := cfg_text demo_conf]} ∅ []) ∅ 0 []) =
    Ret (Some (bytes "phaser860")) (Net (World {[CONFIG_FILE := cfg_text demo_conf]} ∅ []) ∅ 0 []).
Proof.
  apply (scan_configfile_finds (bytes "printer") demo_conf).
  - apply lookup_singleton_eq.
  - assert (W : forall k v, bool_decide (k <> []) = true -> bool_decide (v <> []) = true ->
      forallb (fun b => negb (isspace b) && negb (b =? 0)) (k ++ v) = true ->
      (length k <? MAXKWLEN)%nat = true -> (length (cfg_line (k, v)) <? MAXCFGLINE)%nat = true -> cfg_ok (k, v)).
    { intros k v H1%bool_decide_eq_true H2%bool_decide_eq_true H3 H4%Nat.ltb_lt H5%Nat.ltb_lt.
      assert (F : Forall (fun b => isspace b = false /\ b <> 0) (k ++ v)).
      { apply Forall_forall. intros b Hb. rewrite forallb_forall in H3. specialize (H3 b (proj1 (list_elem_of_In _ _) Hb)). bsimp. done. }
      apply Forall_app in F as [F1 F2]. split_and!; try done; by split. }
    apply Forall_cons; split; [apply W; vm_compute; reflexivity|].
    apply Forall_cons; split; [apply W; vm_compute; reflexivity|apply Forall_nil; exact I].
Defined.

Lemma treadn_reassembles_witness :
  exists s', treadn 5 5 10 (Net fs0 {[5 := Sock [Data (bytes "ab"); Data (bytes "cdefg")] [] 0]} 0 []) = Ret (5, bytes "abcde") s' /\
    waiting_on 5 s' = bytes "fg".
Proof.
  destruct (treadn_reassembles 5 10 fs0 5 (Net fs0 {[5 := Sock [Data (bytes "ab"); Data (bytes "cdefg")] [] 0]} 0 [])) as [_ H].
  - constructor; [unfold FD_SETSIZE; lia| |reflexivity]. eexists. split; [apply lookup_singleton_eq|simpl; lia].
  - lia.
  - destruct H as (s' & E & W); [vm_compute; congruence|]. exists s'. split; [exact E|exact W].
Defined.
