(* ===== verification/Inotify.v ===== *)
(** The directory tree monitor of [src/tlpi-dist/inotify/inotify_dtree.c]: a cache of
    watch descriptors and path names that follows a directory tree through inotify
    events.  Messages of [logMessage] are not modelled, but for the listings of the
    cache; everything else is. *)
From S2P Require Import Prelude CStr.

(** ** Constants of [sys/inotify.h] and of the program *)
Definition IN_MOVED_FROM : Z := 0x40.
Definition IN_MOVED_TO : Z := 0x80.
Definition IN_CREATE : Z := 0x100.
Definition IN_DELETE_SELF : Z := 0x400.
Definition IN_MOVE_SELF : Z := 0x800.
Definition IN_UNMOUNT : Z := 0x2000.
Definition IN_Q_OVERFLOW : Z := 0x4000.
Definition IN_IGNORED : Z := 0x8000.
Definition IN_ONLYDIR : Z := 0x1000000.
Definition IN_ISDIR : Z := 0x40000000.
Definition PATH_MAX : Z := 4096.
Definition NAME_MAX : Z := 255.
Definition ENOENT_dt : Z := 2.
Definition EINTR : Z := 4.
Definition sizeof_event : Z := 16.
Definition INOTIFY_READ_BUF_LEN : Z := 100 * (sizeof_event + NAME_MAX + 1).
Definition ALLOC_INCR : nat := 200.
Definition SLASH : Z := 47.

(** ** Data *)

Record watch := Watch { wd : Z; path : list Z }.

(** An event as [read] delivers it; [ev_len] is the size of the padded name. *)
Record inotify_event := IEvent { ev_wd : Z; ev_mask : Z; ev_cookie : Z; ev_len : Z; ev_name : list Z }.
Definition ev_size (e : inotify_event) : Z := sizeof_event + ev_len e.

(** What the program asks of the system, whose state is [E]. *)
Record stat_t := Stat { st_isdir : bool; st_ino : Z; st_dev : Z }.
Inductive read_result := ReadEvents (l : list inotify_event) | ReadFails (errno : Z).

Class InotifyEnv (E : Type) := {
  inotify_add_watch : Z -> list Z -> Z -> E -> (Z + Z) * E;   (* inl errno, inr descriptor *)
  inotify_rm_watch : Z -> Z -> E -> bool * E;
  inotify_init : E -> Z * E;                                  (* -1 on failure *)
  close_inotify : Z -> E -> E;
  read_inotify : Z -> Z -> E -> read_result * E;
  (* the objects nftw visits before it ends or fails, with a flag for directories;
     None: it fails at once *)
  nftw_objects : list Z -> E -> option (list (list Z * bool));
  lstat : list Z -> E -> option stat_t;
  fopen_works : list Z -> E -> bool;
  realloc_works : Z -> bool
}.

Record dtree (E : Type) := DTree {
  wlCache : list watch;                  (* cacheSize is its length *)
  rootDirPaths : list (option (list Z)); (* numRootDirs is its length *)
  ignoreRootDirs : Z;
  dirCnt : Z;
  inotifyFd : Z;
  reinitCnt : Z;
  inotifyReadCnt : Z;
  verboseMask : Z;
  checkCache : bool;
  dumpCache : bool;
  readBufferSize : Z;
  abortOnCacheProblem : bool;
  logfp : bool;                          (* is there a log file? *)
  printed : list (list Z);               (* lines of the cache dumps and listings *)
  env : E
}.
Arguments DTree {E}.
Arguments wlCache {E}. Arguments rootDirPaths {E}. Arguments ignoreRootDirs {E}. Arguments dirCnt {E}.
Arguments inotifyFd {E}. Arguments reinitCnt {E}. Arguments inotifyReadCnt {E}. Arguments verboseMask {E}.
Arguments checkCache {E}. Arguments dumpCache {E}. Arguments readBufferSize {E}. Arguments abortOnCacheProblem {E}.
Arguments logfp {E}. Arguments printed {E}. Arguments env {E}.

Section Monitor.
Context {E : Type} `{I : InotifyEnv E}.
Abbreviation MD := (M (dtree E)).

Definition dget {A} (f : dtree E -> A) : MD A := fun s => Ret (f s) s.
Definition set_cache c (s : dtree E) := DTree c (rootDirPaths s) (ignoreRootDirs s) (dirCnt s) (inotifyFd s) (reinitCnt s) (inotifyReadCnt s) (verboseMask s) (checkCache s) (dumpCache s) (readBufferSize s) (abortOnCacheProblem s) (logfp s) (printed s) (env s).
Definition set_roots r i (s : dtree E) := DTree (wlCache s) r i (dirCnt s) (inotifyFd s) (reinitCnt s) (inotifyReadCnt s) (verboseMask s) (checkCache s) (dumpCache s) (readBufferSize s) (abortOnCacheProblem s) (logfp s) (printed s) (env s).
Definition set_dirCnt n (s : dtree E) := DTree (wlCache s) (rootDirPaths s) (ignoreRootDirs s) n (inotifyFd s) (reinitCnt s) (inotifyReadCnt s) (verboseMask s) (checkCache s) (dumpCache s) (readBufferSize s) (abortOnCacheProblem s) (logfp s) (printed s) (env s).
Definition set_fd f (s : dtree E) := DTree (wlCache s) (rootDirPaths s) (ignoreRootDirs s) (dirCnt s) f (reinitCnt s) (inotifyReadCnt s) (verboseMask s) (checkCache s) (dumpCache s) (readBufferSize s) (abortOnCacheProblem s) (logfp s) (printed s) (env s).
Definition set_reinit n (s : dtree E) := DTree (wlCache s) (rootDirPaths s) (ignoreRootDirs s) (dirCnt s) (inotifyFd s) n (inotifyReadCnt s) (verboseMask s) (checkCache s) (dumpCache s) (readBufferSize s) (abortOnCacheProblem s) (logfp s) (printed s) (env s).
Definition set_readcnt n (s : dtree E) := DTree (wlCache s) (rootDirPaths s) (ignoreRootDirs s) (dirCnt s) (inotifyFd s) (reinitCnt s) n (verboseMask s) (checkCache s) (dumpCache s) (readBufferSize s) (abortOnCacheProblem s) (logfp s) (printed s) (env s).
Definition set_opts v c d (s : dtree E) := DTree (wlCache s) (rootDirPaths s) (ignoreRootDirs s) (dirCnt s) (inotifyFd s) (reinitCnt s) (inotifyReadCnt s) v c d (readBufferSize s) (abortOnCacheProblem s) (logfp s) (printed s) (env s).
Definition set_buf b (s : dtree E) := DTree (wlCache s) (rootDirPaths s) (ignoreRootDirs s) (dirCnt s) (inotifyFd s) (reinitCnt s) (inotifyReadCnt s) (verboseMask s) (checkCache s) (dumpCache s) b (abortOnCacheProblem s) (logfp s) (printed s) (env s).
Definition set_abort b (s : dtree E) := DTree (wlCache s) (rootDirPaths s) (ignoreRootDirs s) (dirCnt s) (inotifyFd s) (reinitCnt s) (inotifyReadCnt s) (verboseMask s) (checkCache s) (dumpCache s) (readBufferSize s) b (logfp s) (printed s) (env s).
Definition set_logfp b (s : dtree E) := DTree (wlCache s) (rootDirPaths s) (ignoreRootDirs s) (dirCnt s) (inotifyFd s) (reinitCnt s) (inotifyReadCnt s) (verboseMask s) (checkCache s) (dumpCache s) (readBufferSize s) (abortOnCacheProblem s) b (printed s) (env s).
Definition set_printed l (s : dtree E) := DTree (wlCache s) (rootDirPaths s) (ignoreRootDirs s) (dirCnt s) (inotifyFd s) (reinitCnt s) (inotifyReadCnt s) (verboseMask s) (checkCache s) (dumpCache s) (readBufferSize s) (abortOnCacheProblem s) (logfp s) l (env s).
Definition set_env (e : E) (s : dtree E) : dtree E := DTree (wlCache s) (rootDirPaths s) (ignoreRootDirs s) (dirCnt s) (inotifyFd s) (reinitCnt s) (inotifyReadCnt s) (verboseMask s) (checkCache s) (dumpCache s) (readBufferSize s) (abortOnCacheProblem s) (logfp s) (printed s) e.
Definition on_env {A} (f : E -> A * E) : MD A := fun s => let '(a, e) := f (env s) in Ret a (set_env e s).

(** ** The cache *)

Definition freeCache : MD unit := modify (set_cache []).

(** The first slot that satisfies a test, from slot [j] on; -1: none. *)
Fixpoint find_slot (p : watch -> bool) (j : Z) (c : list watch) : Z :=
  match c with
  | [] => -1
  | x :: c' => if p x then j else find_slot p (j + 1) c'
  end.

Definition findWatch (w : Z) : MD Z := dget (fun s => find_slot (fun x => wd x =? w) 0 (wlCache s)).

(** The lines for the entries in use, from slot [j] on. *)
Fixpoint slot_lines (f : Z -> watch -> list Z) (j : Z) (c : list watch) : list (list Z) :=
  match c with
  | [] => []
  | x :: c' => if 0 <=? wd x then f j x :: slot_lines f (j + 1) c' else slot_lines f (j + 1) c'
  end.
Definition print_slots (f : Z -> watch -> list Z) : MD unit :=
  modify (fun s => set_printed (printed s ++ slot_lines f 0 (wlCache s)) s).
Definition print_total : MD unit :=
  modify (fun s => set_printed (printed s ++ [bytes "Total entries: " ++ dec (Z.of_nat (length (filter (fun x => 0 <= wd x) (wlCache s))))]) s).

(** Without a log file the stream is null. *)
Definition dumpCacheToLog : MD unit :=
  b ← dget logfp;
  if negb b then die (Undefined "fprintf to a null stream") else
  print_slots (fun j x => dec j ++ bytes ": wd = " ++ dec (wd x) ++ bytes "; " ++ path x) ;;
  print_total.
Definition createStopFileAndAbort {A} : MD A := dumpCacheToLog ;; die (Err_dump "abort").

Definition findWatchChecked (w : Z) : MD Z :=
  slot ← findWatch w;
  if 0 <=? slot then mret slot else
  b ← dget abortOnCacheProblem;
  if b : bool then createStopFileAndAbort else mret (-1).

(** [wlCache[slot]] *)
Definition slot_at (slot : Z) : MD watch :=
  c ← dget wlCache;
  match (if slot <? 0 then None else c !! Z.to_nat slot) with
  | Some x => mret x
  | None => die (Undefined "slot outside the cache")
  end.
Definition put_slot (slot : Z) (x : watch) : MD unit :=
  slot_at slot ;; modify (fun s => set_cache (<[Z.to_nat slot := x]> (wlCache s)) s).

Definition empty_slot : watch := Watch (-1) [].
Definition markCacheSlotEmpty (slot : Z) : MD unit := put_slot slot empty_slot.

(** A full cache grows by [ALLOC_INCR] slots, all marked empty. *)
Definition findEmptyCacheSlot : MD Z :=
  c ← dget wlCache;
  let j := find_slot (fun x => wd x =? -1) 0 c in
  if 0 <=? j then mret j else
  let n := Z.of_nat (length c + ALLOC_INCR) in
  if negb (realloc_works (n * (4 + PATH_MAX))) then die (Err_sys "realloc") else
  modify (set_cache (c ++ replicate ALLOC_INCR empty_slot)) ;;
  mret (n - Z.of_nat ALLOC_INCR).

(** [strncpy] of a name that fills the array leaves no null byte.  The copy itself is defined, but every
    later read of the entry runs past its end; the model ends here already.  [inotify_add_watch] refuses such
    names with ENAMETOOLONG before they come here. *)
Definition addWatchToCache (w : Z) (pathname : list Z) : MD Z :=
  slot ← findEmptyCacheSlot;
  if PATH_MAX <=? Z.of_nat (length pathname) then die (Undefined "path without a null byte") else
  put_slot slot (Watch w pathname) ;;
  mret slot.

Definition pathnameToCacheSlot (pathname : list Z) : MD Z :=
  dget (fun s => find_slot (fun x => (0 <=? wd x) && bool_decide (path x = pathname)) 0 (wlCache s)).
Definition pathnameInCache (pathname : list Z) : MD bool :=
  slot ← pathnameToCacheSlot pathname; mret (0 <=? slot).

(** The test for a directory hangs on the [if] for an unused slot: [sb] is what the
    last successful [lstat] gave, nothing at first. *)
Fixpoint check_slots (e : E) (sb : option bool) (failures : Z) (c : list watch) : MD Z :=
  match c with
  | [] => mret failures
  | x :: c' =>
      if 0 <=? wd x then
        match lstat (path x) e with
        | None => check_slots e sb (failures + 1) c'
        | Some st => check_slots e (Some (st_isdir st)) failures c'
        end
      else
        match sb with
        | None => die (Undefined "struct stat not initialised")
        | Some false => die (Exits 1)
        | Some true => check_slots e sb failures c'
        end
  end.
Definition checkCacheConsistency : MD Z :=
  c ← dget wlCache; e ← dget env; check_slots e None 0 c.

(** ** Root directories *)

Fixpoint count_dirs (e : E) (argv : list (list Z)) : MD unit :=
  match argv with
  | [] => mret tt
  | p :: argv' =>
      match lstat p e with
      | None => die (Exits 1)
      | Some st => if st_isdir st then count_dirs e argv' else die (Exits 1)
      end
  end.
(** [seen] are the files of the earlier arguments. *)
Fixpoint reject_duplicates (e : E) (seen : list stat_t) (argv : list (list Z)) : MD unit :=
  match argv with
  | [] => mret tt
  | p :: argv' =>
      match lstat p e with
      | None => die (Err_sys "lstat")
      | Some st =>
          if existsb (fun k => (st_ino st =? st_ino k) && (st_dev st =? st_dev k)) seen then die (Exits 1)
          else reject_duplicates e (seen ++ [st]) argv'
      end
  end.
Definition copyRootDirPaths (argv : list (list Z)) : MD unit :=
  e ← dget env;
  count_dirs e argv ;;
  reject_duplicates e [] argv ;;
  modify (set_roots (map Some argv) 0).

Definition findRootDirPath (p : list Z) (roots : list (option (list Z))) : option nat :=
  fst <$> list_find (fun r => r = Some p) roots.
Definition isRootDirPath (p : list Z) : MD bool :=
  dget (fun s => bool_decide (is_Some (findRootDirPath p (rootDirPaths s)))).
Definition zapRootDirPath (p : list Z) : MD unit :=
  r ← dget rootDirPaths;
  n ← dget ignoreRootDirs;
  match findRootDirPath p r with
  | None => die (Exits 1)
  | Some i =>
      modify (set_roots (<[i := None]> r) (n + 1)) ;;
      if n + 1 =? Z.of_nat (length r) then die (Exits 0) else mret tt
  end.

(** ** Watching a tree *)

Definition watch_flags (root : bool) : Z :=
  let flags := Z.lor IN_CREATE (Z.lor IN_MOVED_FROM (Z.lor IN_MOVED_TO IN_DELETE_SELF)) in
  Z.lor (if root then Z.lor flags IN_MOVE_SELF else flags) IN_ONLYDIR.

Definition traverseTree (ifd : Z) (pathname : list Z) (isdir : bool) : MD unit :=
  if negb isdir then mret tt else
  root ← isRootDirPath pathname;
  r ← on_env (inotify_add_watch ifd pathname (watch_flags root));
  match r with
  | inl errno => if errno =? ENOENT_dt then mret tt else die (Exits 1)
  | inr w =>
      slot ← findWatch w;
      if 0 <=? slot then mret tt else
      modify (fun s => set_dirCnt (dirCnt s + 1) s) ;;
      addWatchToCache w pathname ;; mret tt
  end.

Fixpoint traverse_all (ifd : Z) (objs : list (list Z * bool)) : MD unit :=
  match objs with
  | [] => mret tt
  | (p, d) :: objs' => traverseTree ifd p d ;; traverse_all ifd objs'
  end.
Definition watchDir (ifd : Z) (pathname : list Z) : MD Z :=
  modify (set_dirCnt 0) ;;
  e ← dget env;
  (match nftw_objects pathname e with
   | None => mret tt
   | Some objs => traverse_all ifd objs
   end) ;;
  dget dirCnt.
Definition watchSubtree (ifd : Z) (p : list Z) : MD unit := watchDir ifd p ;; mret tt.

(** ** Renames and removals *)

(** [snprintf] into an array of [n] bytes. *)
Definition snprintf (n : Z) (s : list Z) : list Z := take (Z.to_nat (n - 1)) s.

(** [strncmp(p, q, len) == 0 && (q[len] == '/' || q[len] == '\0')] with [len] the
    length of [p]: [q] is [p] or below it. *)
Definition under (p q : list Z) : bool :=
  bool_decide (take (length p) q = p) &&
  match drop (length p) q with [] => true | c :: _ => c =? SLASH end.

Definition join (prefix name : list Z) : list Z := prefix ++ [SLASH] ++ name.

Definition rewrite_slot (fullPath newPrefix : list Z) (x : watch) : watch :=
  if under fullPath (path x)
  then Watch (wd x) (snprintf PATH_MAX (newPrefix ++ drop (length fullPath) (path x)))
  else x.
Definition rewriteCachedPaths (oldPathPrefix oldName newPathPrefix newName : list Z) : MD unit :=
  let fullPath := snprintf PATH_MAX (join oldPathPrefix oldName) in
  let newPrefix := snprintf PATH_MAX (join newPathPrefix newName) in
  modify (fun s => set_cache (map (rewrite_slot fullPath newPrefix) (wlCache s)) s).

(** Slot [j] and the following; the count, or -1 when a watch cannot be removed. *)
Fixpoint zap_slots (ifd : Z) (pn : list Z) (cnt : Z) (done todo : list watch) : MD Z :=
  match todo with
  | [] => modify (set_cache done) ;; mret cnt
  | x :: todo' =>
      if (0 <=? wd x) && under pn (path x) then
        ok ← on_env (inotify_rm_watch ifd (wd x));
        if ok : bool then zap_slots ifd pn (cnt + 1) (done ++ [empty_slot]) todo'
        else modify (set_cache (done ++ todo)) ;; mret (-1)
      else zap_slots ifd pn cnt (done ++ [x]) todo'
  end.
Definition zapSubtree (ifd : Z) (p : list Z) : MD Z :=
  c ← dget wlCache; zap_slots ifd p 0 [] c.

Fixpoint watch_roots (ifd : Z) (roots : list (option (list Z))) : MD unit :=
  match roots with
  | [] => mret tt
  | None :: roots' => watch_roots ifd roots'
  | Some p :: roots' => watchSubtree ifd p ;; watch_roots ifd roots'
  end.
Definition reinitialize (oldInotifyFd : Z) : MD Z :=
  (if 0 <=? oldInotifyFd then
     on_env (fun e => (tt, close_inotify oldInotifyFd e)) ;; modify (fun s => set_reinit (reinitCnt s + 1) s)
   else modify (set_reinit 0)) ;;
  fd ← on_env inotify_init;
  (if fd =? -1 then die (Err_sys "inotify_init") else mret tt) ;;
  freeCache ;;
  roots ← dget rootDirPaths;
  watch_roots fd roots ;;
  mret fd.

(** ** Events *)

Definition has (mask bit : Z) : bool := negb (Z.land mask bit =? 0).

(** [*inotifyFd = reinitialize( *inotifyFd); return INOTIFY_READ_BUF_LEN;] *)
Definition start_over : MD Z :=
  fd ← dget inotifyFd;
  fd' ← reinitialize fd;
  modify (set_fd fd') ;;
  mret INOTIFY_READ_BUF_LEN.

(** The end of [processNextInotifyEvent]. *)
Definition finish_event (evLen : Z) : MD Z :=
  c ← dget checkCache;
  (if c : bool then checkCacheConsistency ;; mret tt else mret tt) ;;
  d ← dget dumpCache;
  (if d : bool then dumpCacheToLog else mret tt) ;;
  mret evLen.

(** A directory was created in the tree or moved into it. *)
Definition on_create (slot : Z) (ev : inotify_event) : MD unit :=
  x ← slot_at slot;
  let fullPath := snprintf (PATH_MAX + NAME_MAX) (join (path x) (ev_name ev)) in
  b ← pathnameInCache fullPath;
  if b : bool then mret tt else
  fd ← dget inotifyFd; watchSubtree fd fullPath.

Definition on_delete_self (slot : Z) : MD unit :=
  x ← slot_at slot;
  b ← isRootDirPath (path x);
  (if b : bool then zapRootDirPath (path x) else mret tt) ;;
  markCacheSlotEmpty slot.

(** The slot of a moved-from event, the event, the events after it in the buffer, and
    the number of bytes from this event to the end of the buffer.  -1: read more. *)
Definition on_moved_from (slot : Z) (ev : inotify_event) (rest : list inotify_event) (bufSize : Z) (firstTry : bool) : MD Z :=
  let evLen := ev_size ev in
  let more := evLen <? bufSize in
  x ← slot_at slot;
  match (if more then rest else []) with
  | nextEv :: _ =>
      if has (ev_mask nextEv) IN_MOVED_TO && (ev_cookie nextEv =? ev_cookie ev) then
        next ← findWatchChecked (ev_wd nextEv);
        if next =? -1 then start_over else
        y ← slot_at next;
        rewriteCachedPaths (path x) (ev_name ev) (path y) (ev_name nextEv) ;;
        finish_event (evLen + ev_size nextEv)
      else
        fd ← dget inotifyFd;
        n ← zapSubtree fd (snprintf (PATH_MAX + NAME_MAX) (join (path x) (ev_name ev)));
        if n =? -1 then start_over else finish_event evLen
  | [] =>
      if more then die (Undefined "no event after the first") else
      if firstTry then mret (-1) else
        fd ← dget inotifyFd;
        n ← zapSubtree fd (snprintf (PATH_MAX + NAME_MAX) (join (path x) (ev_name ev)));
        if n =? -1 then start_over else finish_event evLen
  end.

Definition on_move_self (slot : Z) (evLen : Z) : MD Z :=
  x ← slot_at slot;
  zapRootDirPath (path x) ;;
  fd ← dget inotifyFd;
  n ← zapSubtree fd (path x);
  if n =? -1 then start_over else finish_event evLen.

(** The branches on the mask, the last three first. *)
Definition dispatch_rare (slot : Z) (ev : inotify_event) : MD Z :=
  let evLen := ev_size ev in
  let mask := ev_mask ev in
  if has mask IN_Q_OVERFLOW then
    start_over ;; finish_event INOTIFY_READ_BUF_LEN
  else if has mask IN_UNMOUNT then
    markCacheSlotEmpty slot ;; finish_event evLen
  else if has mask IN_MOVE_SELF then
    x ← slot_at slot;
    b ← isRootDirPath (path x);
    if b : bool then on_move_self slot evLen else finish_event evLen
  else finish_event evLen.
Definition dispatch (slot : Z) (ev : inotify_event) (rest : list inotify_event) (bufSize : Z) (firstTry : bool) : MD Z :=
  let evLen := ev_size ev in
  let mask := ev_mask ev in
  if has mask IN_ISDIR && has mask (Z.lor IN_CREATE IN_MOVED_TO) then
    on_create slot ev ;; finish_event evLen
  else if has mask IN_DELETE_SELF then
    on_delete_self slot ;; finish_event evLen
  else if Z.land mask (Z.lor IN_MOVED_FROM IN_ISDIR) =? Z.lor IN_MOVED_FROM IN_ISDIR then
    on_moved_from slot ev rest bufSize firstTry
  else dispatch_rare slot ev.

(** The bytes consumed, -1: read more.  Without a watch (queue overflow) or for
    IN_IGNORED the slot is not looked up, and using it is undefined. *)
Definition processNextInotifyEvent (ev : inotify_event) (rest : list inotify_event) (bufSize : Z) (firstTry : bool) : MD Z :=
  if negb (ev_wd ev =? -1) && negb (has (ev_mask ev) IN_IGNORED) then
    slot ← findWatchChecked (ev_wd ev);
    if slot =? -1 then start_over else dispatch slot ev rest bufSize firstTry
  else dispatch (-1) ev rest bufSize firstTry.

(** [evp += n] over the events of the buffer. *)
Fixpoint skip_events (n : Z) (evs : list inotify_event) : list inotify_event :=
  match evs with
  | [] => []
  | e :: evs' => if n <=? 0 then evs else skip_events (n - ev_size e) evs'
  end.

Definition evs_size (l : list inotify_event) : Z := foldr (fun e n => ev_size e + n) 0 l.

(** The second read, for at most 2 ms.  When it is interrupted [nr] is -1 and, since the
    test is on [errno], is added to [numRead] all the same. *)
Definition read_more (left : Z) : MD (list inotify_event * Z) :=
  fd ← dget inotifyFd;
  r ← on_env (read_inotify fd (INOTIFY_READ_BUF_LEN - left));
  match r with
  | ReadFails errno =>
      if negb (errno =? EINTR) then die (Err_sys "read") else
      modify (fun s => set_readcnt (inotifyReadCnt s + 1) s) ;;
      mret ([], -1)
  | ReadEvents [] => die (Exits 1)
  | ReadEvents l =>
      modify (fun s => set_readcnt (inotifyReadCnt s + 1) s) ;;
      mret (l, evs_size l)
  end.

(** [evs] are the events from [evp] on, [left] is [buf + numRead - evp]. *)
Fixpoint event_loop (fuel : nat) (evs : list inotify_event) (left : Z) (firstTry : bool) : MD unit :=
  if left <=? 0 then mret tt else
  match fuel, evs with
  | O, _ => die Loops
  | _, [] => die (Undefined "no event in the buffer")
  | S f, ev :: rest =>
      evLen ← processNextInotifyEvent ev rest left firstTry;
      if 0 <? evLen then event_loop f (skip_events evLen evs) (left - evLen) true
      else
        r ← read_more left;
        event_loop f (evs ++ r.1) (left + r.2) false
  end.

Definition processInotifyEvents (fuel : nat) : MD unit :=
  n ← dget readBufferSize;
  fd ← dget inotifyFd;
  let cnt := if 0 <? n then n else INOTIFY_READ_BUF_LEN in
  (if INOTIFY_READ_BUF_LEN <? cnt then die (Undefined "read past the end of buf") else mret tt) ;;
  r ← on_env (read_inotify fd cnt);
  match r with
  | ReadFails _ => die (Err_sys "read")
  | ReadEvents [] => die (Exits 1)
  | ReadEvents l =>
      modify (fun s => set_readcnt (inotifyReadCnt s + 1) s) ;;
      event_loop fuel l (evs_size l) true
  end.

(** ** Commands *)

Fixpoint check_all (e : E) (cnt failures : Z) (c : list watch) : MD (Z * Z) :=
  match c with
  | [] => mret (cnt, failures)
  | x :: c' =>
      if 0 <=? wd x then
        match lstat (path x) e with
        | None => check_all e cnt (failures + 1) c'
        | Some st => if st_isdir st then check_all e (cnt + 1) failures c' else die (Exits 1)
        end
      else check_all e cnt failures c'
  end.
(** Entries verified and failures. *)
Definition checkAllCachedPathnamesExist : MD (Z * Z) :=
  c ← dget wlCache; e ← dget env; check_all e 0 0 c.

(** [sscanf(line, "%c %s\n", &cmd, arg)] of a line that is not empty. *)
Definition scan_command (line : list Z) : option (Z * option (list Z)) :=
  match line with
  | [] => None
  | c :: rest =>
      let w := (span_word (length rest) (skip_space rest)).1 in
      Some (c, match w with [] => None | _ => Some w end)
  end.

(** The line [read] gave, without what follows its last byte. *)
Definition executeCommand (line : list Z) : MD unit :=
  match line with
  | [] => die (Exits 1)
  | _ =>
      match scan_command (cstr (take (length line - 1) line)) with
      | None => mret tt
      | Some (cmd, arg) =>
          fd ← dget inotifyFd;
          let with_arg (k : list Z -> MD unit) : MD unit :=
            match arg with Some a => k a | None => die (Undefined "arg not initialised") end in
          if cmd =? 97 (* a *) then with_arg (fun a => zapSubtree fd a ;; watchSubtree fd a)
          else if (cmd =? 99) || (cmd =? 67) (* c C *) then checkAllCachedPathnamesExist ;; mret tt
          else if cmd =? 108 (* l *) then
            print_slots (fun j x => dec j ++ bytes ": " ++ dec (wd x) ++ bytes " " ++ path x) ;; print_total
          else if cmd =? 113 (* q *) then die (Exits 0)
          else if cmd =? 118 (* v *) then
            modify (fun s => set_opts (match arg with Some a => atoi a | None => if verboseMask s =? 0 then 1 else 0 end)
                               (checkCache s) (dumpCache s) s)
          else if cmd =? 100 (* d *) then modify (fun s => set_opts (verboseMask s) (checkCache s) (negb (dumpCache s)) s)
          else if cmd =? 120 (* x *) then modify (fun s => set_opts (verboseMask s) (negb (checkCache s)) (dumpCache s) s)
          else if cmd =? 119 (* w *) then with_arg (fun a =>
            e ← dget env;
            if fopen_works a e then print_slots (fun _ => path) else die (Undefined "fprintf to a null stream"))
          else if cmd =? 122 (* z *) then with_arg (fun a => zapSubtree fd a ;; mret tt)
          else if cmd =? 48 (* 0 *) then
            on_env (fun e => (tt, close_inotify fd e)) ;;
            fd' ← reinitialize (-1); modify (set_fd fd')
          else mret tt
      end
  end.

(** ** The program *)

(** What [getopt] returned: option characters with their arguments. *)
Fixpoint dt_options (opts : list (Z * list Z)) : MD unit :=
  match opts with
  | [] => mret tt
  | (o, a) :: opts' =>
      (if o =? 97 (* a *) then modify (set_abort true)
       else if o =? 120 (* x *) then modify (fun s => set_opts (verboseMask s) true (dumpCache s) s)
       else if o =? 100 (* d *) then modify (fun s => set_opts (verboseMask s) (checkCache s) true s)
       else if o =? 118 (* v *) then modify (fun s => set_opts (atoi a) (checkCache s) (dumpCache s) s)
       else if o =? 98 (* b *) then modify (set_buf (atoi a))
       else if o =? 108 (* l *) then e ← dget env; (if fopen_works a e then modify (set_logfp true) else die (Err_sys "fopen"))
       else die (Exits 1)) ;;
      dt_options opts'
  end.
(** [main] up to its loop. *)
Definition dt_main (opts : list (Z * list Z)) (dirs : list (list Z)) : MD unit :=
  dt_options opts ;;
  (match dirs with [] => die (Exits 1) | _ => mret tt end) ;;
  copyRootDirPaths dirs ;;
  fd ← reinitialize (-1);
  modify (set_fd fd).
(** One turn of the loop with what [select] reported ready. *)
Definition dt_turn (fuel : nat) (stdin : option (list Z)) (inotify : bool) : MD unit :=
  (match stdin with Some line => executeCommand line | None => mret tt end) ;;
  if inotify then processInotifyEvents fuel else mret tt.
End Monitor.
