(* ===== verification/InotifyCache.v ===== *)
(** The watch cache of [src/tlpi-dist/inotify/inotify_dtree.c] as a set of entries:
    what the operations on the array do to it, and an invariant that all of them keep. *)
From S2P Require Import Prelude CStr Inotify.

(** The slots in use. *)
Definition live (c : list watch) : list watch := filter (fun x => 0 <= wd x) c.

(** ** Entries *)

Definition entry (x : watch) : Z * list Z := (wd x, path x).
Definition entries (c : list watch) : list (Z * list Z) := map entry (live c).

Lemma live_app a b : live (a ++ b) = live a ++ live b.
Proof. apply filter_app. Qed.
Lemma entries_app a b : entries (a ++ b) = entries a ++ entries b.
Proof. unfold entries. by rewrite live_app, map_app. Qed.
Lemma entries_cons x c : entries (x :: c) = (if decide (0 <= wd x) then [entry x] else []) ++ entries c.
Proof. unfold entries, live. rewrite filter_cons. by destruct (decide (0 <= wd x)). Qed.
Lemma entries_empty n : entries (replicate n empty_slot) = [].
Proof. induction n as [|n IH]; [done|]. simpl replicate. rewrite entries_cons. by rewrite IH. Qed.

Lemma elem_of_entries c w p : (w, p) ∈ entries c <-> exists x, x ∈ c /\ wd x = w /\ path x = p /\ 0 <= w.
Proof.
  unfold entries. rewrite list_elem_of_fmap. unfold live, entry. split.
  - intros (x & [= -> ->] & [? ?]%list_elem_of_filter). eauto.
  - intros (x & Hx & <- & <- & Hw). exists x. split; [done|]. by apply list_elem_of_filter.
Qed.

(** ** Searching *)

Lemma find_slot_spec p j c :
  (find_slot p j c = -1 /\ Forall (fun x => p x = false) c) \/
  (exists l1 x l2, c = l1 ++ x :: l2 /\ p x = true /\ Forall (fun x => p x = false) l1 /\
     find_slot p j c = j + Z.of_nat (length l1)).
Proof.
  revert j. induction c as [|x c IH]; intros j; simpl; [left; split; [done|constructor]|].
  destruct (p x) eqn:Hx; [right; exists [], x, c; split_and!; [done|done|constructor|simpl; lia]|].
  destruct (IH (j + 1)) as [[-> F]|(l1 & y & l2 & -> & Hy & F & ->)]; [left; split; [done|by constructor]|].
  right. exists (x :: l1), y, l2. split_and!; [done|done|by constructor|]. simpl. lia.
Qed.

(** The first slot that satisfies a test is where the array splits. *)
Lemma find_slot_found p c :
  0 <= find_slot p 0 c ->
  exists l1 x l2, c = l1 ++ x :: l2 /\ p x = true /\ find_slot p 0 c = Z.of_nat (length l1).
Proof.
  intros H. destruct (find_slot_spec p 0 c) as [[E _]|(l1 & x & l2 & E & Hx & _ & F)]; [lia|].
  exists l1, x, l2. split_and!; [done|done|lia].
Qed.

Lemma find_slot_missing p c : find_slot p 0 c < 0 -> Forall (fun x => p x = false) c.
Proof. intros H. destruct (find_slot_spec p 0 c) as [[_ F]|(l1 & x & l2 & _ & _ & _ & F)]; [done|lia]. Qed.

Lemma find_slot_hit p c x : x ∈ c -> p x = true -> 0 <= find_slot p 0 c.
Proof.
  intros Hx Hp. destruct (Z_lt_le_dec (find_slot p 0 c) 0) as [H|H]; [|done].
  apply find_slot_missing in H. rewrite Forall_forall in H. specialize (H x Hx). congruence.
Qed.

(** ** Updates *)

Section Ops.
Context {E : Type} `{I : InotifyEnv E}.
Implicit Types s : dtree E.

Lemma run_dget {A B} (f : dtree E -> A) (k : A -> M (dtree E) B) s : (dget f ≫= k) s = k (f s) s.
Proof. done. Qed.
Lemma run_modify {B} (f : dtree E -> dtree E) (k : unit -> M (dtree E) B) s : (modify f ≫= k) s = k tt (f s).
Proof. done. Qed.
Lemma run_env {A B} (f : E -> A * E) (k : A -> M (dtree E) B) s a e :
  f (env s) = (a, e) -> (on_env f ≫= k) s = k a (set_env e s).
Proof. intros H. unfold mbind, M_bind, on_env. by rewrite H. Qed.

Lemma slot_at_ok s l1 x l2 : wlCache s = l1 ++ x :: l2 -> slot_at (Z.of_nat (length l1)) s = Ret x s.
Proof.
  intros H. unfold slot_at. rewrite run_dget, H. bfalse (Z.of_nat (length l1) <? 0).
  by rewrite Nat2Z.id, list_lookup_middle.
Qed.

Lemma put_slot_ok s l1 x l2 y :
  wlCache s = l1 ++ x :: l2 -> put_slot (Z.of_nat (length l1)) y s = Ret tt (set_cache (l1 ++ y :: l2) s).
Proof.
  intros H. unfold put_slot. run (slot_at_ok s l1 x l2 H). unfold modify. rewrite H, Nat2Z.id. by rewrite insert_app_mid.
Qed.

(** An empty slot is found or made, and nothing else changes. *)
Lemma findEmptyCacheSlot_ok s :
  (forall n, realloc_works n = true) ->
  exists l1 x l2, findEmptyCacheSlot s = Ret (Z.of_nat (length l1)) (set_cache (l1 ++ x :: l2) s) /\
    wd x = -1 /\ entries (l1 ++ x :: l2) = entries (wlCache s).
Proof.
  intros Hr. unfold findEmptyCacheSlot. rewrite run_dget. cbv zeta.
  destruct (Z.leb_spec 0 (find_slot (fun x => wd x =? -1) 0 (wlCache s))) as [H|H].
  - destruct (find_slot_found _ _ H) as (l1 & x & l2 & Ec & Hx & ->). exists l1, x, l2. rewrite <- Ec.
    split; [by destruct s|]. by bsimp.
  - rewrite Hr. cbn [negb]. rewrite run_modify. exists (wlCache s), empty_slot, (replicate 199 empty_slot).
    change (empty_slot :: replicate 199 empty_slot) with (replicate ALLOC_INCR empty_slot).
    split; [unfold mret, M_ret; f_equal; lia|]. split; [done|]. by rewrite entries_app, entries_empty, app_nil_r.
Qed.

Lemma addWatchToCache_ok s w p :
  (forall n, realloc_works n = true) -> 0 <= w -> Z.of_nat (length p) < PATH_MAX ->
  exists slot c, addWatchToCache w p s = Ret slot (set_cache c s) /\ entries c ≡ₚ (w, p) :: entries (wlCache s).
Proof.
  intros Hr Hw Hp. destruct (findEmptyCacheSlot_ok s Hr) as (l1 & x & l2 & E1 & Hx & Hen). unfold addWatchToCache.
  run E1. bfalse (PATH_MAX <=? Z.of_nat (length p)). run (put_slot_ok (set_cache (l1 ++ x :: l2) s) l1 x l2 (Watch w p) eq_refl).
  eexists _, (l1 ++ Watch w p :: l2). split; [done|]. rewrite <- Hen, !entries_app, !entries_cons. cbn [wd].
  rewrite decide_True by done. rewrite (decide_False (P := 0 <= wd x)) by lia. simpl. by rewrite Permutation_middle.
Qed.

Lemma markCacheSlotEmpty_ok s l1 x l2 :
  wlCache s = l1 ++ x :: l2 ->
  markCacheSlotEmpty (Z.of_nat (length l1)) s = Ret tt (set_cache (l1 ++ empty_slot :: l2) s) /\
  entries (l1 ++ empty_slot :: l2) = entries l1 ++ entries l2.
Proof.
  intros H. split; [by apply put_slot_ok with x|]. by rewrite entries_app, entries_cons.
Qed.

(** ** Paths *)

Lemma under_spec p q :
  under p q = true <-> exists r, q = p ++ r /\ (r = [] \/ exists r', r = SLASH :: r').
Proof.
  unfold under. rewrite andb_true_iff, bool_decide_eq_true. split.
  - intros [H1 H2]. exists (drop (length p) q). split; [by rewrite <- H1 at 1; rewrite take_drop|].
    destruct (drop (length p) q) as [|c r]; [by left|right]. bsimp. subst. eauto.
  - intros (r & -> & [->|[r' ->]]); rewrite take_app_length, drop_app_length; [done|]. by rewrite Z.eqb_refl.
Qed.

Lemma under_refl p : under p p = true.
Proof. apply under_spec. exists []. rewrite app_nil_r. auto. Qed.

Lemma snprintf_short n (t : list Z) : Z.of_nat (length t) < n -> snprintf n t = t.
Proof. intros H. unfold snprintf. apply take_ge. lia. Qed.

(** What a rename does to a path. *)
Definition rename_path (old new p : list Z) : list Z := if under old p then new ++ drop (length old) p else p.

Lemma rewriteCachedPaths_ok s d1 n1 d2 n2 :
  let old := join d1 n1 in let new := join d2 n2 in
  Z.of_nat (length old) < PATH_MAX -> Z.of_nat (length new) < PATH_MAX ->
  Forall (fun e => Z.of_nat (length (rename_path old new e.2)) < PATH_MAX) (entries (wlCache s)) ->
  exists c, rewriteCachedPaths d1 n1 d2 n2 s = Ret tt (set_cache c s) /\
    entries c = map (fun e => (e.1, rename_path old new e.2)) (entries (wlCache s)).
Proof.
  intros old new Ho Hn F. unfold rewriteCachedPaths. fold old new. rewrite !snprintf_short by done.
  eexists. split; [done|]. revert F. induction (wlCache s) as [|x c IH]; intros F; [done|].
  simpl map at 1. rewrite !entries_cons in *. apply Forall_app in F as [F1 F2].
  rewrite map_app, IH by done. f_equal.
  assert (Hw : wd (rewrite_slot old new x) = wd x) by (unfold rewrite_slot; by destruct (under _ _)). rewrite Hw.
  destruct (decide (0 <= wd x)) as [Hx|]; [|done]. simpl. f_equal. unfold entry. rewrite Hw. cbn [fst snd]. f_equal.
  apply Forall_cons in F1 as [F1 _]. cbn [snd entry] in F1. unfold rewrite_slot, rename_path in *.
  destruct (under old (path x)); [|done]. cbn [path]. by apply snprintf_short.
Qed.

(** ** Removing a tree *)

(** Removing the watches one after the other. *)
Fixpoint rm_all (ifd : Z) (ws : list Z) (e : E) : option E :=
  match ws with
  | [] => Some e
  | w :: ws' => let '(ok, e') := inotify_rm_watch ifd w e in if ok : bool then rm_all ifd ws' e' else None
  end.

Definition inside (p : list Z) (l : list (Z * list Z)) : list (Z * list Z) := filter (fun e => under p e.2 = true) l.
Definition outside (p : list Z) (l : list (Z * list Z)) : list (Z * list Z) := filter (fun e => under p e.2 = false) l.

Lemma set_env_cache e c s : set_env e (set_cache c s) = set_cache c (set_env e s).
Proof. done. Qed.

Lemma zap_slots_ok ifd pn cnt dn todo s e' :
  rm_all ifd (map fst (inside pn (entries todo))) (env s) = Some e' ->
  exists c, zap_slots ifd pn cnt dn todo s =
      Ret (cnt + Z.of_nat (length (inside pn (entries todo)))) (set_cache c (set_env e' s)) /\
    entries c = entries dn ++ outside pn (entries todo).
Proof.
  revert cnt dn s. induction todo as [|x todo IH]; intros cnt dn s H; simpl zap_slots.
  - injection H as <-. exists dn. rewrite app_nil_r. split; [|done]. unfold mbind, M_bind, modify, mret, M_ret.
    rewrite Z.add_0_r. by destruct s.
  - rewrite entries_cons in *. unfold inside, outside in *. rewrite filter_app in *.
    destruct (decide (0 <= wd x)) as [Hx|Hx].
    + btrue (0 <=? wd x). cbn [andb]. rewrite filter_cons, filter_nil in *. cbn [entry snd] in *.
      destruct (under pn (path x)) eqn:Hu; cbn [decide] in *.
      * destruct (inotify_rm_watch ifd (wd x) (env s)) as [ok e1] eqn:Er. simpl in H. rewrite Er in H.
        destruct ok; [|done]. rewrite (run_env _ _ _ _ _ Er).
        destruct (IH (cnt + 1) (dn ++ [empty_slot]) (set_env e1 s) H) as (c & E1 & E2). exists c. rewrite E1. split.
        -- f_equal. simpl. lia.
        -- rewrite E2, filter_app, filter_cons, filter_nil, entries_app. cbn [entry snd]. rewrite Hu. simpl. by rewrite app_nil_r.
      * simpl in H. destruct (IH cnt (dn ++ [x]) s H) as (c & E1 & E2). exists c. rewrite E1. split; [done|].
        rewrite E2, filter_app, filter_cons, filter_nil, entries_app, entries_cons. cbn [entry snd]. rewrite Hu.
        rewrite decide_True by done. simpl. by rewrite <- app_assoc.
    + bfalse (0 <=? wd x). cbn [andb]. simpl in H. destruct (IH cnt (dn ++ [x]) s H) as (c & E1 & E2). exists c.
      rewrite E1. split; [done|]. rewrite E2, entries_app, entries_cons, decide_False by done. simpl. by rewrite app_nil_r.
Qed.

Lemma zapSubtree_ok ifd p s e' :
  rm_all ifd (map fst (inside p (entries (wlCache s)))) (env s) = Some e' ->
  exists c, zapSubtree ifd p s = Ret (Z.of_nat (length (inside p (entries (wlCache s))))) (set_cache c (set_env e' s)) /\
    entries c = outside p (entries (wlCache s)).
Proof. intros H. unfold zapSubtree. rewrite run_dget. apply (zap_slots_ok ifd p 0 [] (wlCache s) s e' H). Qed.
End Ops.
