(* ===== verification/InotifyInv.v ===== *)
(** An invariant of the watch cache of [src/tlpi-dist/inotify/inotify_dtree.c] that every
    operation, event and command keeps, whatever the kernel does: a watch descriptor is
    in at most one slot, cached names fit their arrays, and the array has whole blocks
    of slots. *)
From S2P Require Import Prelude CStr Inotify InotifyCache.

Create HintDb inotify.

Section Invariant.
Context {E : Type} `{I : InotifyEnv E}.
(** Watch descriptors are not negative. *)
Context (Hwd : forall ifd p fl e w e', inotify_add_watch ifd p fl e = (inr w, e') -> 0 <= w).
Implicit Types s : dtree E.

Record cache_ok (c : list watch) : Prop := {
  co_nodup : NoDup (map fst (entries c));
  co_paths : Forall (fun x => Z.of_nat (length (path x)) < PATH_MAX) c;
  co_blocks : exists k, length c = (k * ALLOC_INCR)%nat
}.
Definition cok s : Prop := cache_ok (wlCache s).
Definition keeps {A} (m : M (dtree E) A) : Prop := triple cok m (fun _ => cok).

Lemma cok_ret {A} (a : A) : keeps (mret a).
Proof. by intros s Hs. Qed.
Lemma cok_die {A} e : keeps (A := A) (die e).
Proof. by intros s Hs. Qed.
Lemma cok_bind {A B} (m : M (dtree E) A) (k : A -> M (dtree E) B) : keeps m -> (forall a, keeps (k a)) -> keeps (m ≫= k).
Proof. intros Hm Hk. by eapply triple_bind. Qed.
Lemma keeps_dget {A} (f : dtree E -> A) : keeps (dget f).
Proof. by intros s Hs. Qed.
Lemma keeps_env {A} (f : E -> A * E) : keeps (on_env f).
Proof. intros s Hs. unfold on_env. by destruct (f (env s)). Qed.
Lemma keeps_modify (f : dtree E -> dtree E) : (forall s, cok s -> cok (f s)) -> keeps (modify f).
Proof. intros H s Hs. by apply H. Qed.
Lemma cok_if {A} (b : bool) (m n : M (dtree E) A) : keeps m -> keeps n -> keeps (if b then m else n).
Proof. by destruct b. Qed.
End Invariant.

#[export] Hint Resolve cok_ret cok_die keeps_dget keeps_env cok_if : inotify.
#[export] Hint Extern 2 (keeps (modify _)) => apply keeps_modify; by intros : inotify.

(** Prove that a program keeps the invariant from its parts. *)
Ltac keep := repeat lazymatch goal with
  | |- keeps (_ ≫= _) => apply cok_bind
  | |- keeps (match ?x with _ => _ end) => destruct x
  | |- keeps _ => solve [eauto with inotify]
  | |- forall _, keeps _ => intros ?
  end.

Section Keep.
Context {E : Type} `{I : InotifyEnv E}.
Context (Hwd : forall ifd p fl e w e', inotify_add_watch ifd p fl e = (inr w, e') -> 0 <= w).
Implicit Types s : dtree E.

Lemma ok_nil : cache_ok [].
Proof. split; [constructor|constructor|by exists 0%nat]. Qed.

(** Emptying a slot. *)
Lemma ok_empty_slot l1 x l2 : cache_ok (l1 ++ x :: l2) -> cache_ok (l1 ++ empty_slot :: l2).
Proof.
  intros [H1 H2 [k H3]]. split.
  - rewrite !entries_app, !entries_cons in *. simpl. rewrite !map_app in *.
    apply NoDup_app in H1 as (N1 & D1 & N2). apply NoDup_app in N2 as (_ & _ & N2).
    apply NoDup_app. split_and!; try done. intros w Hw1 Hw2. apply (D1 w Hw1). apply elem_of_app. by right.
  - apply Forall_app in H2 as [F1 F2]. apply Forall_cons in F2 as [_ F2]. apply Forall_app. split; [done|]. by constructor.
  - exists k. rewrite length_app in *. done.
Qed.

Lemma slot_at_inv slot s x s' : slot_at slot s = Ret x s' -> s' = s /\ exists l1 l2, wlCache s = l1 ++ x :: l2 /\ slot = Z.of_nat (length l1).
Proof.
  unfold slot_at. rewrite run_dget. destruct (Z.ltb_spec slot 0); [done|].
  destruct (wlCache s !! Z.to_nat slot) as [y|] eqn:Ey; [|done]. intros [= -> <-]. split; [done|].
  destruct (lookup_split _ _ _ Ey) as (l1 & l2 & -> & Hl). exists l1, l2. split; [done|lia].
Qed.

Lemma slot_at_keeps slot : keeps (E := E) (slot_at slot).
Proof. unfold slot_at. keep. Qed.

Lemma mark_keeps slot : keeps (E := E) (markCacheSlotEmpty slot).
Proof.
  intros s Hs. unfold markCacheSlotEmpty, put_slot, mbind, M_bind. destruct (slot_at slot s) as [x s'|] eqn:Ex; [|done].
  destruct (slot_at_inv _ _ _ _ Ex) as (-> & l1 & l2 & Ec & ->). unfold modify, cok. cbn [wlCache set_cache].
  unfold cok in Hs. rewrite Ec in *. rewrite Nat2Z.id, insert_app_mid. by eapply ok_empty_slot.
Qed.

(** Making room. *)
Lemma find_empty_keeps : triple cok (findEmptyCacheSlot (E := E)) (fun slot s => cok s /\
  exists l1 x l2, wlCache s = l1 ++ x :: l2 /\ slot = Z.of_nat (length l1) /\ wd x = -1).
Proof.
  intros s Hs. unfold findEmptyCacheSlot. rewrite run_dget. cbv zeta.
  destruct (Z.leb_spec 0 (find_slot (fun x => wd x =? -1) 0 (wlCache s))) as [H|H].
  - destruct (find_slot_found _ _ H) as (l1 & x & l2 & Ec & Hx & ->). split; [done|]. exists l1, x, l2. by bsimp.
  - destruct (negb _); [done|]. rewrite run_modify. unfold cok in *. destruct Hs as [H1 H2 [k H3]]. split.
    + constructor; cbn [wlCache set_cache].
      * by rewrite entries_app, entries_empty, app_nil_r.
      * apply Forall_app. split; [done|]. by apply Forall_replicate.
      * exists (S k). rewrite length_app, length_replicate, H3. lia.
    + exists (wlCache s), empty_slot, (replicate 199 empty_slot). split_and!; [done|lia|done].
Qed.

(** A new entry whose descriptor is not in the cache. *)
Lemma add_keeps w p :
  0 <= w -> triple (fun s => cok s /\ Forall (fun x => wd x <> w) (wlCache s)) (addWatchToCache (E := E) w p) (fun _ => cok).
Proof.
  intros Hw s [Hs Hf]. unfold addWatchToCache, mbind, M_bind.
  assert (Hf' : match findEmptyCacheSlot s with Ret _ s' => map fst (entries (wlCache s')) = map fst (entries (wlCache s)) | Exit _ _ => True end).
  { unfold findEmptyCacheSlot. rewrite run_dget. cbv zeta. destruct (_ <=? _); [done|]. destruct (negb _); [done|].
    rewrite run_modify. unfold mret, M_ret. cbn [wlCache set_cache]. by rewrite entries_app, entries_empty, app_nil_r. }
  pose proof (find_empty_keeps s Hs) as H. destruct (findEmptyCacheSlot s) as [slot s1|]; [|done].
  destruct H as (Ok1 & l1 & x & l2 & Ec & -> & Hx). destruct (PATH_MAX <=? Z.of_nat (length p)) eqn:Hp; [done|]. bsimp.
  rewrite (put_slot_ok s1 l1 x l2 (Watch w p) Ec). unfold mret, M_ret, cok in *. cbn [wlCache set_cache].
  destruct Ok1 as [H1 H2 [k H3]]. rewrite Ec in *. split.
  - assert (Hp1 : entries (l1 ++ Watch w p :: l2) ≡ₚ (w, p) :: entries (l1 ++ x :: l2)).
    { rewrite !entries_app, !entries_cons. cbn [wd]. rewrite decide_True by done. rewrite (decide_False (P := 0 <= wd x)) by lia.
      simpl. by rewrite Permutation_middle. }
    rewrite Hp1. simpl. apply NoDup_cons. split; [|done]. rewrite Hf'. rewrite list_elem_of_fmap. intros ([w' q] & -> & Hin).
    apply elem_of_entries in Hin as (y & Hy & Hwy & _). rewrite Forall_forall in Hf. by apply (Hf y).
  - apply Forall_app in H2 as [F1 F2]. apply Forall_cons in F2 as [_ F2]. apply Forall_app. split; [done|]. by constructor.
  - exists k. rewrite length_app in *. done.
Qed.

Lemma traverse_keeps ifd p d : keeps (E := E) (traverseTree ifd p d).
Proof.
  unfold traverseTree. destruct (negb d); [apply cok_ret|]. apply cok_bind; [apply keeps_dget|intros root].
  intros s Hs. unfold mbind at 1, M_bind at 1, on_env.
  destruct (inotify_add_watch ifd p (watch_flags root) (env s)) as [[er|w] e'] eqn:Ea; [by destruct (er =? ENOENT_dt)|].
  apply Hwd in Ea. set (s1 := set_env e' s).
  unfold findWatch at 1. rewrite run_dget. destruct (Z.leb_spec 0 (find_slot (fun x => wd x =? w) 0 (wlCache s1))) as [H|H]; [done|].
  rewrite run_modify. apply find_slot_missing in H.
  pose proof (add_keeps w p Ea (set_dirCnt (dirCnt s1 + 1) s1)) as H2. unfold mbind, M_bind.
  destruct (addWatchToCache w p _) as [a s2|] eqn:E2; [|done]. apply H2. split; [done|].
  eapply Forall_impl; [exact H|]. cbn. intros x Hx. by bsimp.
Qed.

Lemma traverse_all_keeps ifd objs : keeps (E := E) (traverse_all ifd objs).
Proof.
  induction objs as [|[p d] objs IH]; simpl; [apply cok_ret|]. apply cok_bind; [apply traverse_keeps|done].
Qed.
#[local] Hint Resolve traverse_all_keeps : inotify.
Lemma watchDir_keeps ifd p : keeps (E := E) (watchDir ifd p).
Proof. unfold watchDir. keep. Qed.
#[local] Hint Resolve watchDir_keeps : inotify.
Lemma watchSubtree_keeps ifd p : keeps (E := E) (watchSubtree ifd p).
Proof. unfold watchSubtree. keep. Qed.
#[local] Hint Resolve watchSubtree_keeps slot_at_keeps mark_keeps : inotify.

Lemma snprintf_length n (t : list Z) : 0 < n -> Z.of_nat (length (snprintf n t)) < n.
Proof. intros H. unfold snprintf. rewrite length_take. lia. Qed.

Lemma rewrite_keeps a b c d : keeps (E := E) (rewriteCachedPaths a b c d).
Proof.
  unfold rewriteCachedPaths. apply keeps_modify. intros s [H1 H2 [k H3]].
  set (f := rewrite_slot _ _). unfold cok. cbn [wlCache set_cache].
  assert (Hw : forall x, wd (f x) = wd x) by (intros x; unfold f, rewrite_slot; by destruct (under _ _)). split.
  - enough (map fst (entries (map f (wlCache s))) = map fst (entries (wlCache s))) as -> by done. clear H1 H2 H3.
    induction (wlCache s) as [|x l IH]; [done|]. simpl map at 2. rewrite !entries_cons, !map_app, IH, Hw.
    destruct (decide _); [|done]. simpl. by rewrite Hw.
  - apply Forall_map. eapply Forall_impl; [exact H2|]. intros x Hx. cbn. unfold f, rewrite_slot.
    destruct (under _ _); [|done]. cbn [path]. by apply snprintf_length.
  - exists k. by rewrite length_map.
Qed.

Lemma zap_slots_keeps ifd pn cnt dn todo s :
  cache_ok (dn ++ todo) -> match zap_slots ifd pn cnt dn todo s with Ret _ s' => cok s' | Exit _ _ => True end.
Proof.
  revert cnt dn s. induction todo as [|x todo IH]; intros cnt dn s Hs; simpl zap_slots.
  - rewrite app_nil_r in Hs. done.
  - destruct (_ && _).
    + unfold mbind at 1, M_bind at 1, on_env. destruct (inotify_rm_watch ifd (wd x) (env s)) as [[] e1].
      * apply IH. rewrite <- app_assoc. simpl. by eapply ok_empty_slot.
      * done.
    + apply IH. by rewrite <- app_assoc.
Qed.
Lemma zap_keeps ifd p : keeps (E := E) (zapSubtree ifd p).
Proof. intros s Hs. unfold zapSubtree. rewrite run_dget. by apply zap_slots_keeps. Qed.

#[local] Hint Resolve rewrite_keeps zap_keeps : inotify.

Lemma watch_roots_keeps ifd roots : keeps (E := E) (watch_roots ifd roots).
Proof.
  induction roots as [|[p|] roots IH]; simpl; [apply cok_ret| |done]. apply cok_bind; [apply watchSubtree_keeps|done].
Qed.

Lemma free_keeps : keeps (E := E) freeCache.
Proof. apply keeps_modify. intros s _. apply ok_nil. Qed.

#[local] Hint Resolve free_keeps watch_roots_keeps : inotify.

Lemma reinitialize_keeps fd : keeps (E := E) (reinitialize fd).
Proof.
  unfold reinitialize. keep.
Qed.
#[local] Hint Resolve reinitialize_keeps : inotify.

(** ** Events and commands *)

Lemma isRoot_keeps p : keeps (E := E) (isRootDirPath p).
Proof. unfold isRootDirPath. keep. Qed.
Lemma zapRoot_keeps p : keeps (E := E) (zapRootDirPath p).
Proof. unfold zapRootDirPath. keep. Qed.
Lemma print_keeps f : keeps (E := E) (print_slots f).
Proof. unfold print_slots. keep. Qed.
Lemma total_keeps : keeps (E := E) print_total.
Proof. unfold print_total. keep. Qed.
#[local] Hint Resolve print_keeps total_keeps : inotify.
Lemma dump_keeps : keeps (E := E) dumpCacheToLog.
Proof. unfold dumpCacheToLog. keep. Qed.
#[local] Hint Resolve dump_keeps : inotify.
Lemma checked_keeps w : keeps (E := E) (findWatchChecked w).
Proof. unfold findWatchChecked, findWatch, createStopFileAndAbort. keep. Qed.
Lemma inCache_keeps p : keeps (E := E) (pathnameInCache p).
Proof. unfold pathnameInCache, pathnameToCacheSlot. keep. Qed.
Lemma start_over_keeps : keeps (E := E) start_over.
Proof. unfold start_over. keep. Qed.
Lemma check_slots_keeps e sb n c : keeps (E := E) (check_slots e sb n c).
Proof. revert sb n. induction c as [|x c IH]; intros sb n; simpl; keep. Qed.
Lemma check_all_keeps e n m c : keeps (E := E) (check_all e n m c).
Proof. revert n m. induction c as [|x c IH]; intros n m; simpl; keep. Qed.
#[local] Hint Resolve isRoot_keeps zapRoot_keeps checked_keeps inCache_keeps start_over_keeps check_slots_keeps check_all_keeps : inotify.

Lemma finish_event_keeps n : keeps (E := E) (finish_event n).
Proof. unfold finish_event, checkCacheConsistency. keep. Qed.
#[local] Hint Resolve finish_event_keeps : inotify.

Lemma dispatch_keeps slot ev rest n b : keeps (E := E) (dispatch slot ev rest n b).
Proof. unfold dispatch, dispatch_rare, on_create, on_delete_self, on_moved_from, on_move_self. keep. Qed.
#[local] Hint Resolve dispatch_keeps : inotify.

Lemma processNext_keeps ev rest n b : keeps (E := E) (processNextInotifyEvent ev rest n b).
Proof. unfold processNextInotifyEvent. keep. Qed.
Lemma read_more_keeps n : keeps (E := E) (read_more n).
Proof. unfold read_more. keep. Qed.
#[local] Hint Resolve processNext_keeps read_more_keeps : inotify.

Lemma event_loop_keeps fuel evs n b : keeps (E := E) (event_loop fuel evs n b).
Proof. revert evs n b. induction fuel as [|f IH]; intros evs n b; simpl; keep. Qed.
#[local] Hint Resolve event_loop_keeps : inotify.

Lemma processInotifyEvents_keeps fuel : keeps (E := E) (processInotifyEvents fuel).
Proof. unfold processInotifyEvents. keep. Qed.
Lemma executeCommand_keeps line : keeps (E := E) (executeCommand line).
Proof. unfold executeCommand, checkAllCachedPathnamesExist. keep. Qed.
#[local] Hint Resolve processInotifyEvents_keeps executeCommand_keeps : inotify.

(** A turn of the program's loop. *)
Lemma dt_turn_keeps fuel line b : keeps (E := E) (dt_turn fuel line b).
Proof. unfold dt_turn. keep. Qed.

Lemma count_dirs_keeps e l : keeps (E := E) (count_dirs e l).
Proof. induction l; simpl; keep. Qed.
Lemma duplicates_keeps e seen l : keeps (E := E) (reject_duplicates e seen l).
Proof. revert seen. induction l; intros seen; simpl; keep. Qed.
Lemma options_keeps opts : keeps (E := E) (dt_options opts).
Proof. induction opts as [|[o a] opts IH]; simpl; keep. Qed.
#[local] Hint Resolve count_dirs_keeps duplicates_keeps options_keeps : inotify.

Lemma dt_main_keeps opts dirs : keeps (E := E) (dt_main opts dirs).
Proof. unfold dt_main, copyRootDirPaths. keep. Qed.
End Keep.
