(* ===== verification/InotifySim.v ===== *)
(** The directory tree monitor of [src/tlpi-dist/inotify/inotify_dtree.c] follows the file
    system: a model of a directory tree with inotify watches and the events its changes
    produce, and the simulation: after the program has handled the events of a change,
    its cache holds exactly the directories of the tree under their present names. *)
From S2P Require Import Prelude CStr Inotify InotifyCache.

(** ** A file system with watches *)

(** Directories with their i-nodes, the watch of each watched i-node, the next watch
    descriptor, and what the next reads of the inotify descriptor return. *)
Record fs := FS {
  tree : gmap (list Z) Z;
  watched : gmap Z Z;
  next_wd : Z;
  incoming : list read_result
}.
Definition set_watched m n (k : fs) := FS (tree k) m n (incoming k).

Definition owner (w : Z) (k : fs) : option Z := fst <$> head (filter (fun iw => iw.2 = w) (map_to_list (watched k))).

#[export] Instance fs_env : InotifyEnv fs := {|
  inotify_add_watch := fun _ p _ k =>
    match tree k !! p with
    | None => (inl ENOENT_dt, k)
    | Some i =>
        match watched k !! i with
        | Some w => (inr w, k)
        | None => (inr (next_wd k), set_watched (<[i := next_wd k]> (watched k)) (next_wd k + 1) k)
        end
    end;
  inotify_rm_watch := fun _ w k =>
    match owner w k with
    | Some i => (true, set_watched (delete i (watched k)) (next_wd k) k)
    | None => (false, k)
    end;
  inotify_init := fun k => (3, k);
  close_inotify := fun _ k => set_watched ∅ (next_wd k) k;
  read_inotify := fun _ _ k =>
    match incoming k with
    | [] => (ReadFails EINTR, k)
    | r :: l => (r, FS (tree k) (watched k) (next_wd k) l)
    end;
  nftw_objects := fun p k =>
    match tree k !! p with
    | None => None
    | Some _ => Some (map (fun q => (q, true)) (filter (fun q => under p q = true) (map fst (map_to_list (tree k)))))
    end;
  lstat := fun p k => (fun i => Stat true i 0) <$> tree k !! p;
  fopen_works := fun _ _ => true;
  realloc_works := fun _ => true
|}.

(** ** The cache and the tree agree *)

Record sane (k : fs) : Prop := {
  sn_tree : forall p q i, tree k !! p = Some i -> tree k !! q = Some i -> p = q;
  sn_watch : forall i j w, watched k !! i = Some w -> watched k !! j = Some w -> i = j;
  sn_range : forall i w, watched k !! i = Some w -> 0 <= w < next_wd k;
  sn_next : 0 <= next_wd k;
  sn_len : forall p i, tree k !! p = Some i -> Z.of_nat (length p) < PATH_MAX
}.

(** The cached entries are the watched directories of the tree. *)
Definition agree (c : list watch) (k : fs) : Prop :=
  forall w p, (w, p) ∈ entries c <-> exists i, tree k !! p = Some i /\ watched k !! i = Some w.

Record good (s : dtree fs) : Prop := {
  gd_agree : agree (wlCache s) (env s);
  gd_nodup : NoDup (map fst (entries (wlCache s)));
  gd_sane : sane (env s)
}.
(** Every directory is watched. *)
Definition complete (k : fs) : Prop := forall p i, tree k !! p = Some i -> is_Some (watched k !! i).
Definition quiet (s : dtree fs) : Prop := checkCache s = false /\ dumpCache s = false.

(** Exactly the directories of the tree, under their names, each once. *)
Record follows (s : dtree fs) : Prop := {
  fl_good : good s;
  fl_complete : complete (env s);
  fl_quiet : quiet s
}.

(** What handling events leaves alone. *)
Definition frame (s s' : dtree fs) : Prop :=
  tree (env s') = tree (env s) /\ incoming (env s') = incoming (env s) /\ rootDirPaths s' = rootDirPaths s /\
  inotifyFd s' = inotifyFd s /\ checkCache s' = checkCache s /\ dumpCache s' = dumpCache s /\
  abortOnCacheProblem s' = abortOnCacheProblem s.

#[export] Instance frame_preorder : PreOrder frame.
Proof.
  split; [done|]. intros s1 s2 s3 (?&?&?&?&?&?&?) (?&?&?&?&?&?&?). unfold frame. split_and!; congruence.
Qed.

(** ** Searching *)

Lemma findWatch_hit (s : dtree fs) w p :
  (w, p) ∈ entries (wlCache s) -> NoDup (map fst (entries (wlCache s))) ->
  exists l1 x l2, wlCache s = l1 ++ x :: l2 /\ entry x = (w, p) /\ findWatch w s = Ret (Z.of_nat (length l1)) s.
Proof.
  intros Hin ND. apply elem_of_entries in Hin as (y & Hy & Hw & Hp & Hw0).
  assert (Hh : 0 <= find_slot (fun x => wd x =? w) 0 (wlCache s)).
  { apply (find_slot_hit _ _ y Hy). apply Z.eqb_eq. lia. }
  destruct (find_slot_found _ _ Hh) as (l1 & x & l2 & Ec & Hx & Es). bsimp.
  exists l1, x, l2. split; [done|]. split; [|unfold findWatch, dget; by rewrite Es].
  enough (path x = p) as Hpx by (unfold entry; by rewrite Hx, Hpx). rewrite <- Hp. assert (Hin1 : (w, path x) ∈ entries (wlCache s)).
  { apply elem_of_entries. exists x. rewrite Ec. split; [apply elem_of_app; right; left|]. split; [done|]. split; [done|lia]. }
  assert (Hin2 : (w, path y) ∈ entries (wlCache s)) by (apply elem_of_entries; exists y; split_and!; try done; lia).
  by eapply nodup_fst_inj.
Qed.

Lemma findWatch_miss (s : dtree fs) w :
  0 <= w -> (forall p, (w, p) ∉ entries (wlCache s)) -> exists n, findWatch w s = Ret n s /\ n < 0.
Proof.
  intros Hw Hno. unfold findWatch, dget. eexists. split; [done|].
  destruct (Z_lt_le_dec (find_slot (fun x => wd x =? w) 0 (wlCache s)) 0) as [H|H]; [done|exfalso].
  destruct (find_slot_found _ _ H) as (l1 & x & l2 & Ec & Hx & _). bsimp. apply (Hno (path x)).
  apply elem_of_entries. exists x. rewrite Ec. split_and!; try done. apply elem_of_app. right. left.
Qed.

(** ** Watching directories *)

Lemma good_env_watch s i p :
  good s -> tree (env s) !! p = Some i -> watched (env s) !! i = None ->
  sane (set_watched (<[i := next_wd (env s)]> (watched (env s))) (next_wd (env s) + 1) (env s)).
Proof.
  intros [_ _ [H1 H2 H3 H4 H5]] Hp Hi. split; cbn [tree watched next_wd set_watched]; try done; [| |lia].
  - intros a b w. destruct (decide (a = i)) as [->|Ha], (decide (b = i)) as [->|Hb];
      rewrite ?lookup_insert_eq, ?lookup_insert_ne by done; intros E1 E2; simplify_eq; try done.
    + apply H3 in E2. lia.
    + apply H3 in E1. lia.
    + by eapply H2.
  - intros a w. destruct (decide (a = i)) as [->|Ha]; rewrite ?lookup_insert_eq, ?lookup_insert_ne by done.
    + intros [= <-]. lia.
    + intros E1%H3. lia.
Qed.

Lemma traverseTree_ok ifd p i s :
  good s -> tree (env s) !! p = Some i ->
  exists s', traverseTree ifd p true s = Ret tt s' /\ good s' /\ frame s s' /\
    is_Some (watched (env s') !! i) /\ (forall j w, watched (env s) !! j = Some w -> watched (env s') !! j = Some w).
Proof.
  intros G Hp. unfold traverseTree. cbn [negb]. unfold isRootDirPath. rewrite run_dget.
  destruct (watched (env s) !! i) as [w|] eqn:Hw.
  - erewrite run_env; [|cbn [inotify_add_watch fs_env]; rewrite Hp, Hw; reflexivity]. cbv iota.
    replace (set_env (env s) s) with s by (by destruct s).
    destruct (findWatch_hit s w p) as (l1 & x & l2 & _ & _ & E); [apply (gd_agree s G); eauto|apply G|].
    run E. btrue (0 <=? Z.of_nat (length l1)). exists s. split_and!; try done.
  - erewrite run_env; [|cbn [inotify_add_watch fs_env]; rewrite Hp, Hw; reflexivity]. cbv iota.
    pose proof (good_env_watch s i p G Hp Hw) as Sn. set (k' := set_watched _ _ _) in *. set (n := next_wd (env s)) in *.
    destruct G as [A ND [T1 W1 R1 N1 L1]].
    assert (Hno : forall q, (n, q) ∉ entries (wlCache s)).
    { intros q Hq. apply A in Hq as (a & _ & Ha). apply R1 in Ha. unfold n in Ha. lia. }
    destruct (findWatch_miss (set_env k' s) n N1 Hno) as (m & Em & Hm). run Em. bfalse (0 <=? m). rewrite run_modify.
    set (s1 := set_dirCnt _ (set_env k' s)).
    destruct (addWatchToCache_ok s1 n p) as (slot & c & Ec & Hc); [done|done|by eapply L1|]. run Ec.
    exists (set_cache c s1). split; [done|]. cbn [wlCache s1 set_dirCnt set_env] in Hc. split; [|split; [done|split]].
    + constructor; cbn [wlCache env set_cache s1 set_dirCnt set_env]; [| |done].
      * intros w q. rewrite Hc, elem_of_cons. pose proof (A w q) as Aq. rewrite Aq. split.
        -- intros [[= -> ->]|(a & Ha & Hwa)].
           ++ exists i. cbn [tree watched k' set_watched]. by rewrite lookup_insert_eq.
           ++ exists a. cbn [tree watched k' set_watched]. rewrite lookup_insert_ne by (intros ->; congruence). done.
        -- intros (a & Ha & Hwa). cbn [tree watched k' set_watched] in *. destruct (decide (a = i)) as [->|Hne].
           ++ rewrite lookup_insert_eq in Hwa. injection Hwa as <-. left. by rewrite (T1 q p i Ha Hp).
           ++ rewrite lookup_insert_ne in Hwa by done. right. eauto.
      * rewrite Hc. simpl. apply NoDup_cons. split; [|done]. rewrite list_elem_of_fmap. intros ([? q] & -> & Hq). by apply (Hno q).
    + cbn [env set_cache s1 set_dirCnt set_env watched k' set_watched]. rewrite lookup_insert_eq. eauto.
    + intros a w Ha. cbn [env set_cache s1 set_dirCnt set_env watched k' set_watched].
      rewrite lookup_insert_ne by (intros ->; congruence). done.
Qed.

Lemma traverse_all_ok ifd ps s :
  good s -> Forall (fun p => is_Some (tree (env s) !! p)) ps ->
  exists s', traverse_all ifd (map (fun q => (q, true)) ps) s = Ret tt s' /\ good s' /\ frame s s' /\
    (forall p i, p ∈ ps -> tree (env s) !! p = Some i -> is_Some (watched (env s') !! i)) /\
    (forall j w, watched (env s) !! j = Some w -> watched (env s') !! j = Some w).
Proof.
  revert s. induction ps as [|p ps IH]; intros s G F; simpl.
  - exists s. split_and!; try done. intros q i Hq. by apply not_elem_of_nil in Hq.
  - apply Forall_cons in F as [[i Hp] F]. destruct (traverseTree_ok ifd p i s G Hp) as (s1 & E1 & G1 & Fr1 & W1 & M1). run E1.
    destruct (IH s1 G1) as (s2 & E2 & G2 & Fr2 & W2 & M2).
    { destruct Fr1 as (-> & _). done. }
    exists s2. rewrite E2. split_and!; try done; [by etrans| |by eauto].
    intros q a [->|Hq]%elem_of_cons Ha; [|apply (W2 q); [done|by destruct Fr1 as (-> & _)]].
    rewrite Hp in Ha. injection Ha as <-. destruct W1 as [w W1]. exists w. by apply M2.
Qed.

(** The directories at and below a path. *)
Lemma nftw_members (k : fs) p q :
  q ∈ filter (fun q => under p q = true) (map fst (map_to_list (tree k))) <->
  under p q = true /\ is_Some (tree k !! q).
Proof.
  rewrite list_elem_of_filter. f_equiv. rewrite list_elem_of_fmap. split.
  - intros ([q' i] & -> & H%elem_of_map_to_list). eauto.
  - intros [i Hi]. exists (q, i). split; [done|]. by apply elem_of_map_to_list.
Qed.

Lemma watchSubtree_ok ifd p s :
  good s -> is_Some (tree (env s) !! p) ->
  exists s', watchSubtree ifd p s = Ret tt s' /\ good s' /\ frame s s' /\
    (forall q i, under p q = true -> tree (env s) !! q = Some i -> is_Some (watched (env s') !! i)) /\
    (forall j w, watched (env s) !! j = Some w -> watched (env s') !! j = Some w).
Proof.
  intros G [i0 Hp]. unfold watchSubtree, watchDir. unfold mbind at 1, M_bind at 1. rewrite run_modify, run_dget.
  cbn [nftw_objects fs_env env set_dirCnt]. rewrite Hp. set (ps := filter _ _).
  assert (G' : good (set_dirCnt 0 s)) by (by destruct G).
  destruct (traverse_all_ok ifd ps (set_dirCnt 0 s) G') as (s1 & E1 & G1 & Fr1 & W1 & M1).
  { apply Forall_forall. intros q Hq. by apply nftw_members in Hq as [_ ?]. }
  run E1. unfold dget, mret, M_ret. exists s1. split_and!; try done.
  intros q i Hu Hq. apply (W1 q); [|done]. apply nftw_members. eauto.
Qed.

(** ** Changes of the tree and their events *)

Definition moved_from (w c len : Z) (n : list Z) := IEvent w (Z.lor IN_MOVED_FROM IN_ISDIR) c len n.
Definition moved_to (w c len : Z) (n : list Z) := IEvent w (Z.lor IN_MOVED_TO IN_ISDIR) c len n.
Definition created (w len : Z) (n : list Z) := IEvent w (Z.lor IN_CREATE IN_ISDIR) 0 len n.
Definition deleted (w : Z) := IEvent w IN_DELETE_SELF 0 0 [].
Definition ignored (w : Z) := IEvent w IN_IGNORED 0 0 [].

(** The directory [p] is watched by [w]. *)
Definition watches (k : fs) (p : list Z) (w : Z) : Prop := exists i, tree k !! p = Some i /\ watched k !! i = Some w.

(** One change of the file system, the events it queues, and the file system after it.
    [roots] are the root directories of the program. *)
Inductive fs_op (roots : list (option (list Z))) (k : fs) : list inotify_event -> fs -> Prop :=
  | op_appear d n w len c sub k' ev :
      (* a directory is created or moved in, with whatever is below it by now *)
      watches k d w -> ev = created w len n \/ ev = moved_to w c len n -> 0 <= len ->
      is_Some (sub !! join d n) -> (forall p, is_Some (sub !! p) -> under (join d n) p = true) ->
      (forall p, is_Some (tree k !! p) -> under (join d n) p = false) ->
      (forall p i, sub !! p = Some i -> watched k !! i = None) ->
      k' = FS (tree k ∪ sub) (watched k) (next_wd k) [] ->
      fs_op roots k [ev] k'
  | op_remove p i w k' :
      (* a directory is removed: its watch goes *)
      tree k !! p = Some i -> watched k !! i = Some w -> Some p ∉ roots ->
      k' = FS (delete p (tree k)) (delete i (watched k)) (next_wd k) [] ->
      fs_op roots k [deleted w; ignored w] k'
  | op_rename d1 n1 d2 n2 w1 w2 c len1 len2 t k' :
      (* a directory is renamed inside the tree: i-nodes and watches stay *)
      watches k d1 w1 -> watches k d2 w2 -> 0 <= len1 -> 0 <= len2 ->
      is_Some (tree k !! join d1 n1) ->
      (forall p i, t !! p = Some i <-> exists q, tree k !! q = Some i /\ p = rename_path (join d1 n1) (join d2 n2) q) ->
      k' = FS t (watched k) (next_wd k) [] ->
      fs_op roots k [moved_from w1 c len1 n1; moved_to w2 c len2 n2] k'
  | op_leave d n w c len k' :
      (* a directory is moved out of the tree, its watches stay for now *)
      watches k d w -> 0 <= len -> is_Some (tree k !! join d n) ->
      k' = FS (filter (fun pi => under (join d n) pi.1 = false) (tree k)) (watched k) (next_wd k) [] ->
      fs_op roots k [moved_from w c len n] k'.

(** ** Handling the events *)

Lemma checked_hit (s : dtree fs) w p :
  (w, p) ∈ entries (wlCache s) -> NoDup (map fst (entries (wlCache s))) ->
  exists l1 x l2, wlCache s = l1 ++ x :: l2 /\ entry x = (w, p) /\ findWatchChecked w s = Ret (Z.of_nat (length l1)) s.
Proof.
  intros Hin ND. destruct (findWatch_hit s w p Hin ND) as (l1 & x & l2 & Ec & Hx & E). exists l1, x, l2. split_and!; try done.
  unfold findWatchChecked. run E. by btrue (0 <=? Z.of_nat (length l1)).
Qed.

(** An event for a cached directory is dispatched with its slot. *)
Lemma next_event (s : dtree fs) ev rest left b p :
  (ev_wd ev, p) ∈ entries (wlCache s) -> NoDup (map fst (entries (wlCache s))) -> has (ev_mask ev) IN_IGNORED = false ->
  exists l1 x l2, wlCache s = l1 ++ x :: l2 /\ entry x = (ev_wd ev, p) /\
    processNextInotifyEvent ev rest left b s = dispatch (Z.of_nat (length l1)) ev rest left b s.
Proof.
  intros Hin ND Hm. destruct (checked_hit s _ p Hin ND) as (l1 & x & l2 & Ec & Hx & E). exists l1, x, l2. split_and!; try done.
  assert (0 <= ev_wd ev) by (apply elem_of_entries in Hin as (? & _ & _ & _ & ?); done).
  unfold processNextInotifyEvent. bfalse (ev_wd ev =? -1). rewrite Hm. cbn [negb andb]. run E.
  bfalse (Z.of_nat (length l1) =? -1). done.
Qed.

Lemma finish_event_ok (s : dtree fs) n : quiet s -> finish_event n s = Ret n s.
Proof. intros [H1 H2]. unfold finish_event. rewrite run_dget, H1. rewrite bind_mret, run_dget, H2. done. Qed.

Lemma ev_size_pos ev : 0 <= ev_len ev -> 0 < ev_size ev.
Proof. unfold ev_size, sizeof_event. lia. Qed.

(** An event that is handled leaves the loop with the events after it. *)
Lemma loop_step f ev rest (s s1 : dtree fs) n b :
  0 < n <= ev_size ev + evs_size rest ->
  processNextInotifyEvent ev rest (ev_size ev + evs_size rest) b s = Ret n s1 ->
  event_loop (S f) (ev :: rest) (ev_size ev + evs_size rest) b s =
    event_loop f (skip_events n (ev :: rest)) (ev_size ev + evs_size rest - n) true s1.
Proof.
  intros Hn E. cbn [event_loop]. bfalse (ev_size ev + evs_size rest <=? 0). run E. by btrue (0 <? n).
Qed.

Lemma loop_done f evs (s : dtree fs) b : event_loop f evs 0 b s = Ret tt s.
Proof. by destruct f. Qed.

Lemma agree_more (s : dtree fs) sub :
  good s -> (forall p i, sub !! p = Some i -> watched (env s) !! i = None) ->
  agree (wlCache s) (FS (tree (env s) ∪ sub) (watched (env s)) (next_wd (env s)) []).
Proof.
  intros G Hs w p. pose proof (gd_agree s G w p) as A. rewrite A. cbn [tree watched]. split.
  - intros (i & Hp & Hw). exists i. split; [|done]. by apply lookup_union_Some_l.
  - intros (i & Hp & Hw). exists i. split; [|done]. apply lookup_union_Some_raw in Hp as [Hp|[_ Hp]]; [done|].
    apply Hs in Hp. congruence.
Qed.

Lemma frame_quiet (s s' : dtree fs) : frame s s' -> quiet s -> quiet s'.
Proof. intros (_ & _ & _ & _ & H1 & H2 & _) [H3 H4]. split; congruence. Qed.

Lemma appear_ok (s : dtree fs) d n w len c sub ev :
  follows s -> watches (env s) d w -> ev = created w len n \/ ev = moved_to w c len n -> 0 <= len ->
  is_Some (sub !! join d n) -> (forall p, is_Some (sub !! p) -> under (join d n) p = true) ->
  (forall p, is_Some (tree (env s) !! p) -> under (join d n) p = false) ->
  (forall p i, sub !! p = Some i -> watched (env s) !! i = None) ->
  let k' := FS (tree (env s) ∪ sub) (watched (env s)) (next_wd (env s)) [] in
  sane k' ->
  exists s', event_loop 3 [ev] (evs_size [ev]) true (set_env k' s) = Ret tt s' /\ follows s' /\ frame (set_env k' s) s'.
Proof.
  intros [G C Qt] Hd Hev Hlen Hn Hsub Hold Hunw k' Sn. set (s0 := set_env k' s).
  assert (G0 : good s0) by (constructor; [by apply (agree_more s)|exact (gd_nodup s G)|done]).
  assert (Hmask : has (ev_mask ev) IN_IGNORED = false /\ has (ev_mask ev) IN_ISDIR = true /\
    has (ev_mask ev) (Z.lor IN_CREATE IN_MOVED_TO) = true) by (by destruct Hev as [->| ->]).
  assert (Hw : ev_wd ev = w /\ ev_name ev = n /\ ev_len ev = len) by (by destruct Hev as [->| ->]).
  destruct Hmask as (M1 & M2 & M3), Hw as (Ew & En & El).
  assert (Hin : (ev_wd ev, d) ∈ entries (wlCache s0)) by (rewrite Ew; by apply (gd_agree s G)).
  destruct (next_event s0 ev [] (ev_size ev + evs_size []) true d Hin (gd_nodup s G) M1) as (l1 & x & l2 & Ec & Hx & E).
  assert (Ht : is_Some (tree k' !! join d n)).
  { destruct Hn as [i Hi]. exists i. apply lookup_union_Some_raw. right. split; [|done].
    destruct (tree (env s) !! join d n) eqn:Eq; [|done]. specialize (Hold (join d n)). rewrite under_refl in Hold.
    discriminate Hold. by rewrite Eq. }
  assert (Hlen2 : Z.of_nat (length (join d n)) < PATH_MAX) by (destruct Ht as [i Hi]; by apply (sn_len k' Sn _ i)).
  assert (Eo : exists s1, on_create (Z.of_nat (length l1)) ev s0 = Ret tt s1 /\ good s1 /\ frame s0 s1 /\ complete (env s1)).
  { unfold on_create. run (slot_at_ok s0 l1 x l2 Ec). injection Hx as Hx1 Hx2. rewrite Hx2, En.
    rewrite snprintf_short by (unfold NAME_MAX; lia). unfold pathnameInCache, pathnameToCacheSlot.
    unfold mbind at 1, M_bind at 1. rewrite run_dget. unfold mret, M_ret.
    assert (Hmiss : find_slot (fun x => (0 <=? wd x) && bool_decide (path x = join d n)) 0 (wlCache s0) < 0).
    { destruct (Z_lt_le_dec (find_slot (fun x => (0 <=? wd x) && bool_decide (path x = join d n)) 0 (wlCache s0)) 0) as [H|H];
        [done|exfalso]. destruct (find_slot_found _ _ H) as (a1 & y & a2 & Ea & Hy & _).
      apply andb_true_iff in Hy as [Hy1 Hy2]. apply bool_decide_eq_true in Hy2. bsimp.
      assert (Hy3 : (wd y, join d n) ∈ entries (wlCache s)).
      { apply elem_of_entries. exists y. cbn [wlCache set_env s0] in Ea. rewrite Ea. split_and!; try done. apply elem_of_app. right. left. }
      apply (gd_agree s G) in Hy3 as (i & Hi & _). specialize (Hold (join d n) ltac:(eauto)). by rewrite under_refl in Hold. }
    bfalse (0 <=? find_slot (fun x0 => (0 <=? wd x0) && bool_decide (path x0 = join d n)) 0 (wlCache s0)). rewrite run_dget.
    destruct (watchSubtree_ok (inotifyFd s0) (join d n) s0 G0 Ht) as (s1 & E1 & G1 & Fr1 & W1 & Mo1). exists s1.
    split_and!; try done. intros p i Hp. destruct Fr1 as (Et & _). rewrite Et in Hp. cbn [env s0 set_env] in Hp.
    pose proof Hp as Hp'. apply lookup_union_Some_raw in Hp as [Hp|[_ Hp]].
    - destruct (C p i Hp) as [v Hv]. exists v. by apply Mo1.
    - apply (W1 p); [|done]. apply Hsub. eauto. }
  destruct Eo as (s1 & E1 & G1 & Fr1 & C1).
  assert (Qt1 : quiet s1) by (by apply (frame_quiet s0)).
  assert (E2 : processNextInotifyEvent ev [] (ev_size ev + evs_size []) true s0 = Ret (ev_size ev) s1).
  { rewrite E. unfold dispatch. rewrite M2, M3. cbn [andb]. run E1. by apply finish_event_ok. }
  pose proof (ev_size_pos ev ltac:(lia)) as Hp.
  exists s1. split; [|done]. change (evs_size [ev]) with (ev_size ev + evs_size []).
  rewrite (loop_step 2 ev [] s0 s1 (ev_size ev) true ltac:(simpl; lia) E2).
  change (evs_size []) with 0. replace (ev_size ev + 0 - ev_size ev) with 0 by lia. apply loop_done.
Qed.

Lemma not_root p (roots : list (option (list Z))) : Some p ∉ roots -> findRootDirPath p roots = None.
Proof.
  intros H. unfold findRootDirPath. destruct (list_find _ roots) as [[i r]|] eqn:Ef; [|done].
  apply list_find_Some in Ef as (Hi & -> & _). exfalso. by eapply H, list_elem_of_lookup_2.
Qed.

(** The entries other than one with a given watch descriptor. *)
Lemma entries_without (c : list watch) l1 x l2 w p :
  c = l1 ++ x :: l2 -> entry x = (w, p) -> (w, p) ∈ entries c -> NoDup (map fst (entries c)) ->
  NoDup (map fst (entries l1 ++ entries l2)) /\
  forall v q, (v, q) ∈ entries l1 ++ entries l2 <-> (v, q) ∈ entries c /\ v <> w.
Proof.
  intros -> Hx Hin ND. assert (Hw : 0 <= wd x) by (apply elem_of_entries in Hin as (? & _ & _ & _ & ?); by injection Hx as -> _).
  rewrite entries_app, entries_cons, decide_True, Hx in * by done. clear Hin.
  assert (Hp : entries l1 ++ [(w, p)] ++ entries l2 ≡ₚ (w, p) :: entries l1 ++ entries l2) by (by rewrite Permutation_middle).
  rewrite Hp in ND. simpl in ND. apply NoDup_cons in ND as [Hn ND]. split; [done|]. intros v q. rewrite Hp, elem_of_cons. split.
  - intros Hv. split; [by right|]. intros ->. apply Hn, list_elem_of_fmap. by exists (w, q).
  - intros [[[= -> ->]|Hv] Hne]; done.
Qed.

Lemma remove_ok (s : dtree fs) p i w :
  follows s -> tree (env s) !! p = Some i -> watched (env s) !! i = Some w -> Some p ∉ rootDirPaths s ->
  let k' := FS (delete p (tree (env s))) (delete i (watched (env s))) (next_wd (env s)) [] in
  sane k' ->
  exists s', event_loop 3 [deleted w; ignored w] (evs_size [deleted w; ignored w]) true (set_env k' s) = Ret tt s' /\
    follows s' /\ frame (set_env k' s) s'.
Proof.
  intros [G C Qt] Hp Hi Hroot k' Sn. set (s0 := set_env k' s).
  assert (Hin : (w, p) ∈ entries (wlCache s)) by (apply (gd_agree s G); eauto).
  destruct (next_event s0 (deleted w) [ignored w] 32 true p Hin (gd_nodup s G) eq_refl) as (l1 & x & l2 & Ec & Hx & E).
  destruct (entries_without (wlCache s) l1 x l2 w p Ec Hx Hin (gd_nodup s G)) as [ND Hel].
  destruct (markCacheSlotEmpty_ok s0 l1 x l2 Ec) as [Em Een]. set (s1 := set_cache (l1 ++ empty_slot :: l2) s0) in *.
  assert (E2 : processNextInotifyEvent (deleted w) [ignored w] 32 true s0 = Ret 16 s1).
  { rewrite E. unfold dispatch. cbn [ev_mask deleted]. change (has IN_DELETE_SELF IN_ISDIR) with false.
    change (has IN_DELETE_SELF IN_DELETE_SELF) with true. cbn [andb]. unfold on_delete_self.
    unfold mbind at 1, M_bind at 1. run (slot_at_ok s0 l1 x l2 Ec). injection Hx as Hx1 Hx2. rewrite Hx2.
    unfold isRootDirPath. rewrite run_dget. cbn [rootDirPaths s0 set_env]. rewrite (not_root _ _ Hroot).
    change (bool_decide (is_Some None)) with false. cbv iota. rewrite bind_mret, Em. by apply finish_event_ok. }
  assert (Qt1 : quiet s1) by done.
  assert (E3 : processNextInotifyEvent (ignored w) [] 16 true s1 = Ret 16 s1).
  { unfold processNextInotifyEvent. change (has (ev_mask (ignored w)) IN_IGNORED) with true. rewrite andb_false_r.
    unfold dispatch. cbn [ev_mask ignored]. change (Z.land IN_IGNORED (Z.lor IN_MOVED_FROM IN_ISDIR) =? Z.lor IN_MOVED_FROM IN_ISDIR) with false.
    change (has IN_IGNORED IN_ISDIR) with false. change (has IN_IGNORED IN_DELETE_SELF) with false.
    change (has IN_IGNORED IN_Q_OVERFLOW) with false. change (has IN_IGNORED IN_UNMOUNT) with false.
    change (has IN_IGNORED IN_MOVE_SELF) with false. cbn [andb]. by apply finish_event_ok. }
  exists s1. split.
  - change (evs_size [deleted w; ignored w]) with (ev_size (deleted w) + evs_size [ignored w]).
    rewrite (loop_step 2 (deleted w) [ignored w] s0 s1 16 true ltac:(done) E2).
    change (event_loop 2 (skip_events 16 [deleted w; ignored w]) (ev_size (deleted w) + evs_size [ignored w] - 16) true s1)
      with (event_loop 2 [ignored w] (ev_size (ignored w) + evs_size []) true s1).
    by rewrite (loop_step 1 (ignored w) [] s1 s1 16 true ltac:(done) E3).
  - split; [|done]. constructor; [constructor|..]; try done.
    + intros v q. cbn [wlCache s1 set_cache env s0 set_env]. rewrite Een, Hel. pose proof (gd_agree s G v q) as A. rewrite A.
      cbn [tree watched k']. split.
      * intros [(a & Ha & Hwa) Hne]. exists a. assert (a <> i) by (intros ->; congruence).
        rewrite !lookup_delete_ne by (intros <-; congruence). done.
      * intros (a & Ha & Hwa). apply lookup_delete_Some in Ha as [? Ha]. apply lookup_delete_Some in Hwa as [? Hwa]. split; [eauto|].
        intros ->. by apply (sn_watch _ (gd_sane s G) i a w Hi) in Hwa.
    + cbn [wlCache s1 set_cache]. by rewrite Een.
    + intros q a Ha. cbn [tree watched k' env s1 set_cache s0 set_env] in *. apply lookup_delete_Some in Ha as [Hne Ha].
      destruct (C q a Ha) as [v Hv]. exists v. rewrite lookup_delete_ne; [done|]. intros ->.
      by apply Hne, (sn_tree _ (gd_sane s G) p q a).
Qed.

Lemma rename_ok (s : dtree fs) d1 n1 d2 n2 w1 w2 c len1 len2 t :
  follows s -> watches (env s) d1 w1 -> watches (env s) d2 w2 -> 0 <= len1 -> 0 <= len2 ->
  is_Some (tree (env s) !! join d1 n1) ->
  (forall p i, t !! p = Some i <-> exists q, tree (env s) !! q = Some i /\ p = rename_path (join d1 n1) (join d2 n2) q) ->
  let k' := FS t (watched (env s)) (next_wd (env s)) [] in
  let evs := [moved_from w1 c len1 n1; moved_to w2 c len2 n2] in
  sane k' ->
  exists s', event_loop 3 evs (evs_size evs) true (set_env k' s) = Ret tt s' /\ follows s' /\ frame (set_env k' s) s'.
Proof.
  intros [G C Qt] Hd1 Hd2 Hl1 Hl2 [i0 Ho] Ht k' evs Sn. set (s0 := set_env k' s).
  set (old := join d1 n1) in *. set (new := join d2 n2) in *.
  set (ev1 := moved_from w1 c len1 n1) in *. set (ev2 := moved_to w2 c len2 n2) in *.
  pose proof (ev_size_pos ev1 Hl1) as P1. pose proof (ev_size_pos ev2 Hl2) as P2.
  assert (Hin1 : (w1, d1) ∈ entries (wlCache s0)) by (by apply (gd_agree s G)).
  assert (Hin2 : (w2, d2) ∈ entries (wlCache s0)) by (by apply (gd_agree s G)).
  destruct (next_event s0 ev1 [ev2] (ev_size ev1 + evs_size [ev2]) true d1 Hin1 (gd_nodup s G) eq_refl) as (l1 & x & l2 & Ec & Hx & E).
  destruct (checked_hit s0 w2 d2 Hin2 (gd_nodup s G)) as (m1 & y & m2 & Ey & Hy & Ef).
  assert (Hlen : forall q i, tree (env s) !! q = Some i -> Z.of_nat (length (rename_path old new q)) < PATH_MAX).
  { intros q i Hq. apply (sn_len k' Sn _ i). apply Ht. eauto. }
  destruct (rewriteCachedPaths_ok s0 d1 n1 d2 n2) as (c' & Er & Een).
  - by apply (sn_len _ (gd_sane s G) _ i0).
  - fold old new. replace new with (rename_path old new old); [by apply (Hlen _ i0)|].
    unfold rename_path. by rewrite under_refl, drop_all, app_nil_r.
  - apply Forall_forall. intros [v q] Hq. apply (gd_agree s G) in Hq as (i & Hi & _). by apply (Hlen _ i).
  - fold old new in Een. set (s1 := set_cache c' s0) in *.
    assert (E2 : processNextInotifyEvent ev1 [ev2] (ev_size ev1 + evs_size [ev2]) true s0 = Ret (ev_size ev1 + ev_size ev2) s1).
    { rewrite E. unfold dispatch. change (has (ev_mask ev1) IN_ISDIR && has (ev_mask ev1) (Z.lor IN_CREATE IN_MOVED_TO)) with false.
      change (has (ev_mask ev1) IN_DELETE_SELF) with false.
      change (Z.land (ev_mask ev1) (Z.lor IN_MOVED_FROM IN_ISDIR) =? Z.lor IN_MOVED_FROM IN_ISDIR) with true. cbv iota.
      unfold on_moved_from. run (slot_at_ok s0 l1 x l2 Ec). change (evs_size [ev2]) with (ev_size ev2 + 0).
      btrue (ev_size ev1 <? ev_size ev1 + (ev_size ev2 + 0)). change (has (ev_mask ev2) IN_MOVED_TO) with true.
      change (ev_cookie ev2 =? ev_cookie ev1) with (c =? c). rewrite Z.eqb_refl. cbn [andb]. change (ev_wd ev2) with w2. run Ef.
      bfalse (Z.of_nat (length m1) =? -1). run (slot_at_ok s0 m1 y m2 Ey). injection Hx as _ ->. injection Hy as _ ->.
      cbn [ev_name ev1 ev2 moved_from moved_to]. run Er. by apply finish_event_ok. }
    exists s1. split.
    + change (evs_size evs) with (ev_size ev1 + evs_size [ev2]). unfold evs.
      rewrite (loop_step 2 ev1 [ev2] s0 s1 (ev_size ev1 + ev_size ev2) true ltac:(change (evs_size [ev2]) with (ev_size ev2 + 0); lia) E2).
      change (evs_size [ev2]) with (ev_size ev2 + 0). replace (_ - _) with 0 by lia. apply loop_done.
    + split; [|done]. constructor; [constructor|..]; try done.
      * intros v q. cbn [wlCache s1 set_cache env s0 set_env]. rewrite Een, list_elem_of_fmap. cbn [tree watched k']. split.
        -- intros ([v' q'] & [= -> ->] & Hq). apply (gd_agree s G) in Hq as (i & Hi & Hw). exists i. split; [|done]. apply Ht. eauto.
        -- intros (i & Hi & Hw). apply Ht in Hi as (q' & Hq' & ->). exists (v, q'). split; [done|]. apply (gd_agree s G). eauto.
      * cbn [wlCache s1 set_cache]. rewrite Een, map_map. cbn. apply (gd_nodup s G).
      * intros q i Hq. cbn [tree watched k' env s1 set_cache s0 set_env] in *. apply Ht in Hq as (q' & Hq' & _). by apply (C q').
Qed.

(** Removing watches that exist succeeds and removes just those. *)
Lemma owner_ok k i w :
  (forall a b v, watched k !! a = Some v -> watched k !! b = Some v -> a = b) -> watched k !! i = Some w -> owner w k = Some i.
Proof.
  intros Hinj Hi. unfold owner. set (l := filter _ _).
  assert (Hin : (i, w) ∈ l) by (apply list_elem_of_filter; split; [done|by apply elem_of_map_to_list]).
  assert (Hall : forall j v, (j, v) ∈ l -> j = i).
  { intros j v [Hv Hj]%list_elem_of_filter. simpl in Hv. subst. apply elem_of_map_to_list in Hj. by eapply Hinj. }
  destruct l as [|[j v] l]; [by apply not_elem_of_nil in Hin|]. simpl. f_equal. apply (Hall j v). left.
Qed.

Lemma rm_all_ok ifd ws k :
  NoDup ws -> (forall a b v, watched k !! a = Some v -> watched k !! b = Some v -> a = b) ->
  (forall w, w ∈ ws -> exists i, watched k !! i = Some w) ->
  exists m, rm_all ifd ws k = Some (set_watched m (next_wd k) k) /\
    forall i w, m !! i = Some w <-> watched k !! i = Some w /\ w ∉ ws.
Proof.
  revert k. induction ws as [|w ws IH]; intros k ND Hinj Hall; simpl.
  - exists (watched k). split; [by destruct k|]. intros i v. split; [|by intros [? _]]. intros H. split; [done|apply not_elem_of_nil].
  - apply NoDup_cons in ND as [Hn ND]. destruct (Hall w) as [i Hi]; [left|]. rewrite (owner_ok k i w Hinj Hi).
    set (k1 := set_watched (delete i (watched k)) (next_wd k) k).
    destruct (IH k1) as (m & Em & Hm); [done| | |].
    + intros a b v Ha Hb. cbn [watched k1 set_watched] in Ha, Hb. apply lookup_delete_Some in Ha as [_ Ha]. apply lookup_delete_Some in Hb as [_ Hb]. by eapply Hinj.
    + intros v Hv. destruct (Hall v) as [a Ha]; [by right|]. exists a. cbn [watched k1 set_watched].
      rewrite lookup_delete_ne; [done|]. intros ->. congruence.
    + exists m. split; [exact Em|]. intros a v. rewrite Hm. cbn [watched k1 set_watched]. rewrite lookup_delete_Some. split.
      * intros [[Hne Ha] Hv]. split; [done|]. intros [->|?]%elem_of_cons; [|done]. by apply Hne, (Hinj i a w).
      * intros [Ha Hv]. apply not_elem_of_cons in Hv as [Hv1 Hv2]. split; [|done]. split; [|done]. intros ->. congruence.
Qed.

Lemma leave_ok (s : dtree fs) d n w c len :
  follows s -> watches (env s) d w -> 0 <= len -> is_Some (tree (env s) !! join d n) ->
  let t := filter (fun pi => under (join d n) pi.1 = false) (tree (env s)) in
  let k' := FS t (watched (env s)) (next_wd (env s)) [] in
  let evs := [moved_from w c len n] in
  sane k' ->
  exists s', event_loop 3 evs (evs_size evs) true (set_env k' s) = Ret tt s' /\ follows s' /\ tree (env s') = t /\
    rootDirPaths s' = rootDirPaths s.
Proof.
  intros [G C Qt] Hd Hl [i0 Ho] t k' evs Sn. set (s0 := set_env k' s). set (old := join d n) in *.
  set (ev := moved_from w c len n) in *. pose proof (ev_size_pos ev Hl) as P1.
  assert (Hin : (w, d) ∈ entries (wlCache s0)) by (by apply (gd_agree s G)).
  pose proof (sn_len _ (gd_sane s G) _ i0 Ho) as Hlen.
  assert (Hdisp : forall l b left s, dispatch l ev [] left b s = on_moved_from l ev [] left b s) by done.
  (* the first pass asks for more, the second removes the subtree *)
  destruct (next_event s0 ev [] (ev_size ev + evs_size []) true d Hin (gd_nodup s G) eq_refl) as (l1 & x & l2 & Ec & Hx & E).
  assert (E1 : processNextInotifyEvent ev [] (ev_size ev + evs_size []) true s0 = Ret (-1) s0).
  { rewrite E, Hdisp. unfold on_moved_from. run (slot_at_ok s0 l1 x l2 Ec). change (evs_size []) with 0.
    by bfalse (ev_size ev <? ev_size ev + 0). }
  set (s1 := set_readcnt (inotifyReadCnt s0 + 1) s0).
  assert (E2 : read_more (ev_size ev + evs_size []) s0 = Ret ([], -1) s1) by done.
  set (ws := map fst (inside old (entries (wlCache s1)))).
  destruct (rm_all_ok (inotifyFd s1) ws (env s1)) as (m & Em & Hm).
  { apply nodup_map_filter, (gd_nodup s G). }
  { apply (sn_watch k' Sn). }
  { intros v Hv. apply list_elem_of_fmap in Hv as ([v' q] & -> & [_ Hq]%list_elem_of_filter).
    apply (gd_agree s G) in Hq as (i & _ & Hi). by exists i. }
  destruct (zapSubtree_ok (inotifyFd s1) old s1 _ Em) as (c' & Ez & Een). set (s2 := set_cache c' _) in Ez.
  destruct (next_event s1 ev [] (ev_size ev - 1) false d Hin (gd_nodup s G) eq_refl) as (l1' & x' & l2' & Ec' & Hx' & E').
  assert (E3 : processNextInotifyEvent ev [] (ev_size ev - 1) false s1 = Ret (ev_size ev) s2).
  { rewrite E', Hdisp. unfold on_moved_from. run (slot_at_ok s1 l1' x' l2' Ec'). bfalse (ev_size ev <? ev_size ev - 1). cbv iota.
    rewrite run_dget. injection Hx' as _ Hx'. rewrite Hx'. change (ev_name ev) with n. fold old.
    rewrite snprintf_short by (unfold NAME_MAX; lia). run Ez. rewrite (proj2 (Z.eqb_neq _ _)) by lia. by apply finish_event_ok. }
  exists s2. split.
  - assert (Hz : evs_size [] = 0) by done. change (evs_size evs) with (ev_size ev + evs_size []). unfold evs. cbn [event_loop]. bfalse (ev_size ev + evs_size [] <=? 0).
    run E1. change (0 <? -1) with false. cbv iota. run E2. cbn [fst snd app].
    replace (ev_size ev + evs_size [] + -1) with (ev_size ev - 1) by (change (evs_size []) with 0; lia).
    assert (16 <= ev_size ev) by (unfold ev_size, sizeof_event; change (ev_len ev) with len; lia).
    bfalse (ev_size ev - 1 <=? 0). run E3. btrue (0 <? ev_size ev). btrue (ev_size ev - 1 - ev_size ev <=? 0). done.
  - assert (Hws : forall v q, (v, q) ∈ entries (wlCache s) -> under old q = false -> v ∉ ws).
    { intros v q Hq Hu Hv. apply list_elem_of_fmap in Hv as ([v' q'] & -> & [Hu' Hq']%list_elem_of_filter). simpl in *.
      rewrite (nodup_fst_inj _ _ _ _ (gd_nodup s G) Hq Hq') in Hu. congruence. }
    split; [|done]. constructor; [constructor|..]; try done.
    + intros v q. cbn [wlCache s2 set_cache set_env env tree watched set_watched s1 set_readcnt s0 k']. rewrite Een. unfold outside.
      rewrite list_elem_of_filter. cbn [snd]. cbn [wlCache s1 set_readcnt s0 set_env]. pose proof (gd_agree s G v q) as A. split.
      * intros [Hu Hq]. pose proof Hq as Hq0. apply A in Hq as (i & Hi & Hw). exists i. split; [by apply map_lookup_filter_Some|].
        apply Hm. split; [done|]. by eapply Hws.
      * intros (i & Hi & Hw). apply map_lookup_filter_Some in Hi as [Hi Hu]. apply Hm in Hw as [Hw _]. split; [done|]. apply A. eauto.
    + cbn [wlCache s2 set_cache]. rewrite Een. apply nodup_map_filter, (gd_nodup s G).
    + destruct Sn as [T1 W1 R1 N1 L1]. split; try done; cbn [env s2 set_cache set_env watched set_watched s1 set_readcnt s0 next_wd k'].
      * intros a b v Ha Hb. apply Hm in Ha as [Ha _]. apply Hm in Hb as [Hb _]. by eapply W1.
      * intros a v Ha. apply Hm in Ha as [Ha _]. by eapply R1.
    + intros q i Hq. cbn [env s2 set_cache set_env watched set_watched tree s1 set_readcnt s0 k'] in *.
      apply map_lookup_filter_Some in Hq as [Hq Hu]. destruct (C q i Hq) as [v Hv]. exists v. apply Hm. split; [done|].
      eapply Hws; [|exact Hu]. apply (gd_agree s G). eauto.
Qed.

(** ** The simulation *)

(** After the events of a change the cache follows the changed tree. *)
Lemma fs_op_followed (s : dtree fs) evs k' :
  follows s -> fs_op (rootDirPaths s) (env s) evs k' -> sane k' ->
  exists s', event_loop 3 evs (evs_size evs) true (set_env k' s) = Ret tt s' /\ follows s' /\ tree (env s') = tree k' /\
    rootDirPaths s' = rootDirPaths s.
Proof.
  intros F Op Sn. destruct Op as [d n w len c sub k' ev H1 H2 H3 H4 H5 H6 H7 ->|p i w k' H1 H2 H3 ->
    |d1 n1 d2 n2 w1 w2 c len1 len2 t k' H1 H2 H3 H4 H5 H6 ->|d n w c len k' H1 H2 H3 ->].
  - destruct (appear_ok s d n w len c sub ev F H1 H2 H3 H4 H5 H6 H7 Sn) as (s' & E & F' & (Ht & _ & Hr & _)). by exists s'.
  - destruct (remove_ok s p i w F H1 H2 H3 Sn) as (s' & E & F' & (Ht & _ & Hr & _)). by exists s'.
  - destruct (rename_ok s d1 n1 d2 n2 w1 w2 c len1 len2 t F H1 H2 H3 H4 H5 H6 Sn) as (s' & E & F' & (Ht & _ & Hr & _)). by exists s'.
  - by apply (leave_ok s d n w c len).
Qed.

(** Histories: changes, each followed by the handling of its events. *)
Inductive history : dtree fs -> dtree fs -> Prop :=
  | hist_none s : history s s
  | hist_step s evs k' s1 s2 :
      fs_op (rootDirPaths s) (env s) evs k' -> sane k' ->
      event_loop 3 evs (evs_size evs) true (set_env k' s) = Ret tt s1 ->
      history s1 s2 -> history s s2.

Lemma history_follows s s' : follows s -> history s s' -> follows s'.
Proof.
  intros F H. revert F. induction H as [|s evs k' s1 s2 Op Sn E H IH]; intros F; [done|].
  destruct (fs_op_followed s evs k' F Op Sn) as (s1' & E' & F' & _). rewrite E in E'. injection E' as <-. by apply IH.
Qed.

(** ** Start-up *)

Lemma watch_roots_ok ifd roots (s : dtree fs) :
  good s -> Forall (fun p => is_Some (tree (env s) !! p)) roots ->
  exists s', watch_roots ifd (map Some roots) s = Ret tt s' /\ good s' /\ frame s s' /\
    (forall p q i, p ∈ roots -> under p q = true -> tree (env s) !! q = Some i -> is_Some (watched (env s') !! i)) /\
    (forall j w, watched (env s) !! j = Some w -> watched (env s') !! j = Some w).
Proof.
  revert s. induction roots as [|p roots IH]; intros s G F; simpl.
  - exists s. split_and!; try done. intros p q i Hp. by apply not_elem_of_nil in Hp.
  - apply Forall_cons in F as [Hp F]. destruct (watchSubtree_ok ifd p s G Hp) as (s1 & E1 & G1 & Fr1 & W1 & M1). run E1.
    destruct (IH s1 G1) as (s2 & E2 & G2 & Fr2 & W2 & M2); [by destruct Fr1 as (-> & _)|].
    exists s2. rewrite E2. split_and!; try done; [by etrans| |by eauto].
    intros r q i [->|Hr]%elem_of_cons Hu Hq; [|apply (W2 r q); [done|done|by destruct Fr1 as (-> & _)]].
    destruct (W1 q i Hu Hq) as [v Hv]. exists v. by apply M2.
Qed.

(** A new inotify instance and a rebuilt cache follow the tree, if all directories are at
    or below the roots. *)
Lemma reinitialize_ok (s : dtree fs) roots fd :
  sane (env s) -> quiet s -> watched (env s) = ∅ \/ 0 <= fd -> rootDirPaths s = map Some roots ->
  Forall (fun p => is_Some (tree (env s) !! p)) roots ->
  (forall q, is_Some (tree (env s) !! q) -> exists p, p ∈ roots /\ under p q = true) ->
  exists s', reinitialize fd s = Ret 3 s' /\ follows s' /\ tree (env s') = tree (env s).
Proof.
  intros Sn Qt Hw Hr F Hcov. unfold reinitialize.
  set (s1 := if 0 <=? fd then set_reinit (reinitCnt s + 1) (set_env (set_watched ∅ (next_wd (env s)) (env s)) s) else set_reinit 0 s).
  assert (E1 : (if 0 <=? fd then on_env (fun e => (tt, close_inotify fd e)) ;; modify (fun s => set_reinit (reinitCnt s + 1) s)
                else modify (set_reinit 0)) s = Ret tt s1) by (unfold s1; by destruct (0 <=? fd)).
  run E1. erewrite run_env; [|reflexivity]. change (3 =? -1) with false. cbv iota. rewrite bind_mret.
  unfold freeCache. rewrite run_modify, run_dget. set (s2 := set_cache [] _).
  assert (Hr2 : rootDirPaths s2 = map Some roots) by (unfold s2, s1; by destruct (0 <=? fd)). rewrite Hr2.
  assert (Hw2 : watched (env s2) = ∅ /\ tree (env s2) = tree (env s) /\ next_wd (env s2) = next_wd (env s)).
  { unfold s2, s1. destruct (Z.leb_spec 0 fd); [done|]. destruct Hw as [Hw|]; [done|lia]. }
  destruct Hw2 as (Hw2 & Ht2 & Hn2). destruct Sn as [T1 W1 R1 N1 L1].
  assert (G2 : good s2).
  { constructor; [|constructor|].
    - intros w p. split; [intros H; by apply not_elem_of_nil in H|]. rewrite Hw2. intros (i & _ & Hi). by rewrite lookup_empty in Hi.
    - split; rewrite ?Hw2, ?Ht2, ?Hn2; try done; intros *; by rewrite lookup_empty. }
  destruct (watch_roots_ok 3 roots s2 G2) as (s3 & E3 & G3 & Fr3 & W3 & _); [by rewrite Ht2|].
  run E3. exists s3. split; [done|]. pose proof Fr3 as (Ht3 & _). split; [|by rewrite Ht3].
  constructor; [done| |].
  - intros q i Hq. rewrite Ht3, Ht2 in Hq. destruct (Hcov q) as (p & Hp & Hu); [eauto|]. apply (W3 p q i Hp Hu). by rewrite Ht2.
  - apply (frame_quiet s2); [done|]. unfold s2, s1, quiet. destruct (0 <=? fd); apply Qt.
Qed.
