(* ===== verification/InotifyTheorems.v ===== *)
(** The theorems about the directory tree monitor of
    [src/tlpi-dist/inotify/inotify_dtree.c]. *)
From S2P Require Import Prelude CStr Inotify InotifyCache InotifyInv InotifySim.

(** The program's main loop: any number of turns. *)
Inductive turns {E : Type} `{I : InotifyEnv E} : dtree E -> dtree E -> Prop :=
  | turns_none s : turns s s
  | turns_more s fuel line b s1 s2 : dt_turn fuel line b s = Ret tt s1 -> turns s1 s2 -> turns s s2.

(** C12: whatever the kernel reports and the user types (only watch descriptors are not
    negative), in every state of the running program no watch descriptor is in two slots
    of the cache, every cached name fits its array with its null byte, and the cache has
    whole blocks of 200 slots. *)
Theorem watch_cache_invariant {E : Type} `{I : InotifyEnv E} opts dirs (s0 s1 s : dtree E) :
  (forall ifd p fl e w e', inotify_add_watch ifd p fl e = (inr w, e') -> 0 <= w) ->
  wlCache s0 = [] -> dt_main opts dirs s0 = Ret tt s1 -> turns s1 s -> cache_ok (wlCache s).
Proof.
  intros Hwd H0 Hm Ht. assert (H1 : cok s1).
  { apply (triple_run cok (dt_main opts dirs) (fun _ => cok) s0 tt s1 (dt_main_keeps Hwd opts dirs)); [|done].
    unfold cok. rewrite H0. apply ok_nil. }
  clear Hm H0. induction Ht as [|s1 fuel line b s2 s3 Et Ht IH]; [done|]. apply IH.
  by apply (triple_run cok (dt_turn fuel line b) (fun _ => cok) s1 tt s2 (dt_turn_keeps Hwd fuel line b)).
Qed.

(** C13: when the cache holds exactly the watched tree and one change happens to the tree
    (a directory with its subtree appears, is removed, is renamed within the tree or
    leaves it), handling the events of the change terminates, and the cache again holds
    exactly the directories of the changed tree, under their present names, each under
    the descriptor that watches it. *)
Theorem cache_follows_tree (s : dtree fs) evs k' :
  follows s -> fs_op (rootDirPaths s) (env s) evs k' -> sane k' ->
  exists s', event_loop 3 evs (evs_size evs) true (set_env k' s) = Ret tt s' /\ follows s' /\ tree (env s') = tree k' /\
    rootDirPaths s' = rootDirPaths s.
Proof. apply fs_op_followed. Qed.

(** Building the cache anew (at start-up, or after lost events on a live inotify
    descriptor) gives exactly the directories of the tree, if all of them are at or below
    the root directories. *)
Theorem rebuild_follows_tree (s : dtree fs) roots fd :
  sane (env s) -> quiet s -> watched (env s) = ∅ \/ 0 <= fd -> rootDirPaths s = map Some roots ->
  Forall (fun p => is_Some (tree (env s) !! p)) roots ->
  (forall q, is_Some (tree (env s) !! q) -> exists p, p ∈ roots /\ under p q = true) ->
  exists s', reinitialize fd s = Ret 3 s' /\ follows s' /\ tree (env s') = tree (env s).
Proof. apply reinitialize_ok. Qed.

Lemma check_accepts_files {E : Type} `{I : InotifyEnv E} (s : dtree E) e sb n c :
  Forall (fun x => 0 <= wd x /\ exists st, lstat (path x) e = Some st /\ st_isdir st = false) c ->
  check_slots e sb n c s = Ret n s.
Proof.
  intros F. revert sb. induction F as [|x c (Hw & st & Hl & _) _ IH]; intros sb; [done|].
  simpl. btrue (0 <=? wd x). by rewrite Hl.
Qed.

(** A defect: [checkCacheConsistency] tests for a directory in the wrong branch: it
    accepts a cache whose names are all plain files, and reads an uninitialised structure
    when the first slot is unused. *)
Theorem consistency_check_misplaced {E : Type} `{I : InotifyEnv E} (s : dtree E) :
  (Forall (fun x => 0 <= wd x /\ exists st, lstat (path x) (env s) = Some st /\ st_isdir st = false) (wlCache s) ->
   checkCacheConsistency s = Ret 0 s) /\
  (forall c, wlCache s = empty_slot :: c ->
   checkCacheConsistency s = Exit (Undefined "struct stat not initialised") s).
Proof.
  split.
  - intros F. unfold checkCacheConsistency. rewrite !run_dget. by apply check_accepts_files.
  - intros c Hc. unfold checkCacheConsistency. rewrite !run_dget, Hc. done.
Qed.

(** ** Witnesses *)

(** A tree with two directories, watched. *)
Definition top : list Z := bytes "/w".
Definition demo_fs : fs := FS {[top := 100; join top (bytes "a") := 101]} {[100 := 1; 101 := 2]} 3 [].
Definition demo_dt : dtree fs :=
  DTree [Watch 1 top; Watch 2 (join top (bytes "a"))] [Some top] 0 0 3 0 0 0 false false 0 false false [] demo_fs.

Definition blank_dt (k : fs) : dtree fs := DTree [] [] 0 0 (-1) 0 0 0 false false 0 false false [] k.

(** A system in which every directory gets the descriptor 7. *)
Definition one_wd_env : InotifyEnv unit := {|
  inotify_add_watch := fun _ _ _ e => (inr 7, e);
  inotify_rm_watch := fun _ _ e => (true, e);
  inotify_init := fun e => (3, e);
  close_inotify := fun _ e => e;
  read_inotify := fun _ _ e => (ReadEvents [IEvent 7 IN_IGNORED 0 0 []], e);
  nftw_objects := fun p _ => Some [(p, true); (join p (bytes "x"), true)];
  lstat := fun _ _ => Some (Stat true 1 1);
  fopen_works := fun _ _ => true;
  realloc_works := fun _ => true
|}.
Definition blank_unit : dtree unit := DTree [] [] 0 0 (-1) 0 0 0 false false 0 false false [] tt.

Lemma watch_cache_invariant_witness :
  exists s, turns (I := one_wd_env) (match dt_main (I := one_wd_env) [] [top] blank_unit with Ret _ s => s | Exit _ s => s end) s /\
    cache_ok (wlCache s).
Proof.
  destruct (dt_main (I := one_wd_env) [] [top] blank_unit) as [[] s1|] eqn:E; [|vm_compute in E; discriminate].
  exists (match dt_turn (I := one_wd_env) 5 None true s1 with Ret _ s => s | Exit _ s => s end).
  assert (R : turns (I := one_wd_env) s1 (match dt_turn (I := one_wd_env) 5 None true s1 with Ret _ s => s | Exit _ s => s end)).
  { eapply (turns_more s1 5 None true); [|apply turns_none]. vm_compute in E. injection E as <-. vm_compute. reflexivity. }
  split; [exact R|]. apply (watch_cache_invariant (I := one_wd_env) [] [top] blank_unit s1 _); [|reflexivity|exact E|exact R].
  intros ifd p fl e w e' [= <- <-]. lia.
Defined.

Lemma singleton_two {A B} `{Countable A} (a b k : A) (x y v : B) :
  ({[a := x; b := y]} : gmap A B) !! k = Some v -> (k = a /\ v = x) \/ (k = b /\ v = y).
Proof.
  intros Hk. destruct (decide (k = a)) as [->|Ha]; [rewrite lookup_insert_eq in Hk; left; by simplify_eq|].
  rewrite lookup_insert_ne in Hk by done. apply lookup_singleton_Some in Hk as [-> ->]. by right.
Qed.

Lemma demo_sane : sane demo_fs.
Proof.
  split; cbn [demo_fs tree watched next_wd].
  - intros p q i [[-> ->]|[-> ->]]%singleton_two [[-> Hi]|[-> Hi]]%singleton_two; done.
  - intros i j w [[-> ->]|[-> ->]]%singleton_two [[-> Hi]|[-> Hi]]%singleton_two; done.
  - intros i w [[-> ->]|[-> ->]]%singleton_two; lia.
  - lia.
  - intros p i [[-> ->]|[-> ->]]%singleton_two; vm_compute; reflexivity.
Qed.

Lemma demo_follows : follows demo_dt.
Proof.
  constructor; [constructor|..].
  - intros w p. cbn [demo_dt wlCache env demo_fs tree watched]. split.
    + intros [[= -> ->]|[[= -> ->]|H%not_elem_of_nil]%elem_of_cons]%elem_of_cons; [exists 100|exists 101|done]; vm_compute; split; reflexivity.
    + intros (i & [[-> ->]|[-> ->]]%singleton_two & [[Hi ->]|[Hi ->]]%singleton_two); try done; [left|right; left].
  - apply (bool_decide_unpack _). vm_compute. exact Logic.I.
  - apply demo_sane.
  - intros p i [[-> ->]|[-> ->]]%singleton_two; eexists; vm_compute; reflexivity.
  - done.
Qed.

(** The directory [/w/a] is renamed to [/w/b]. *)
Definition renamed_tree : gmap (list Z) Z := {[top := 100; join top (bytes "b") := 101]}.

Lemma cache_follows_tree_witness :
  exists s', event_loop 3 [moved_from 1 77 16 (bytes "a"); moved_to 1 77 16 (bytes "b")]
      (evs_size [moved_from 1 77 16 (bytes "a"); moved_to 1 77 16 (bytes "b")]) true
      (set_env (FS renamed_tree {[100 := 1; 101 := 2]} 3 []) demo_dt) = Ret tt s' /\ follows s' /\ tree (env s') = renamed_tree.
Proof.
  destruct (cache_follows_tree demo_dt [moved_from 1 77 16 (bytes "a"); moved_to 1 77 16 (bytes "b")]
    (FS renamed_tree {[100 := 1; 101 := 2]} 3 [])) as (s' & E & F & T & _).
  - apply demo_follows.
  - assert (W : watches demo_fs top 1) by (exists 100; vm_compute; split; reflexivity).
    eapply (op_rename _ demo_fs top (bytes "a") top (bytes "b") 1 1 77 16 16); [exact W|exact W|lia|lia|eexists; vm_compute; reflexivity| |reflexivity].
    intros p i. split.
    + intros [[-> ->]|[-> ->]]%singleton_two; [exists top|exists (join top (bytes "a"))]; vm_compute; split; reflexivity.
    + intros (q & [[-> ->]|[-> ->]]%singleton_two & ->); vm_compute; reflexivity.
  - split; cbn [tree watched next_wd].
    + intros p q i [[-> ->]|[-> ->]]%singleton_two [[-> Hi]|[-> Hi]]%singleton_two; done.
    + intros i j w [[-> ->]|[-> ->]]%singleton_two [[-> Hi]|[-> Hi]]%singleton_two; done.
    + intros i w [[-> ->]|[-> ->]]%singleton_two; lia.
    + lia.
    + intros p i [[-> ->]|[-> ->]]%singleton_two; vm_compute; reflexivity.
  - exists s'. done.
Defined.

Lemma rebuild_follows_tree_witness :
  exists s', reinitialize 3 (set_cache [] demo_dt) = Ret 3 s' /\ follows s' /\ tree (env s') = tree demo_fs.
Proof.
  apply (rebuild_follows_tree (set_cache [] demo_dt) [top] 3).
  - apply demo_sane.
  - done.
  - right. lia.
  - reflexivity.
  - constructor; [eexists; vm_compute; reflexivity|constructor].
  - intros q [i [[-> _]|[-> _]]%singleton_two]; exists top; (split; [left|vm_compute; reflexivity]).
Defined.
