(* ===== verification/Semaph.v ===== *)
(** The semaphore routines of [src/apue2e/lib/semaph.c] on System V semaphores: the
    kernel's semaphore sets with their undo records, the routines as programs of system
    calls, and processes that run them interleaved and may die at any moment. *)
From S2P Require Import Prelude.

(** ** The kernel *)

(** The three members of a set: [0] the semaphore, [1] the process counter, [2] the lock. *)
Inductive member := Value | Counter | Lock.
#[export] Instance member_eq : EqDecision member.
Proof. solve_decision. Defined.

Record sem3 := Sem3 { sem_value : Z; sem_counter : Z; sem_lock : Z }.
Definition zero3 : sem3 := Sem3 0 0 0.
Definition sv (m : member) (x : sem3) : Z :=
  match m with Value => sem_value x | Counter => sem_counter x | Lock => sem_lock x end.
Definition put3 (m : member) (n : Z) (x : sem3) : sem3 :=
  match m with
  | Value => Sem3 n (sem_counter x) (sem_lock x)
  | Counter => Sem3 (sem_value x) n (sem_lock x)
  | Lock => Sem3 (sem_value x) (sem_counter x) n
  end.

Record sembuf := SemBuf { sem_num : member; sb_op : Z; sb_undo : bool }.

Definition SEMVMX : Z := 32767.
Definition EINTR_ : Z := 4.
Definition EINVAL_ : Z := 22.
Definition ENOENT_ : Z := 2.
Definition ERANGE_ : Z := 34.
Definition EIDRM_ : Z := 43.
Definition ENOSPC_ : Z := 28.
Definition IPC_PRIVATE : Z := 0.

(** [semop]: all operations at once, in order, on the values and the caller's undo record. *)
Inductive op_result := Proceeds (v adj : sem3) | WouldBlock | OpFails (errno : Z).
Fixpoint try_ops (v adj : sem3) (ops : list sembuf) : op_result :=
  match ops with
  | [] => Proceeds v adj
  | SemBuf m o undo :: ops' =>
      if (o =? 0) && negb (sv m v =? 0) then WouldBlock else
      let r := sv m v + o in
      if r <? 0 then WouldBlock else
      if SEMVMX <? r then OpFails ERANGE_ else
      let a := if undo : bool then sv m adj - o else sv m adj in
      if (a <? - SEMVMX - 1) || (SEMVMX <? a) then OpFails ERANGE_ else
      try_ops (put3 m r v) (put3 m a adj) ops'
  end.

Inductive call :=
  | SemGet (key : Z) (creat : bool)
  | SemOp (id : Z) (ops : list sembuf)
  | GetVal (id : Z) (m : member)
  | SetVal (id : Z) (m : member) (n : Z)
  | RmId (id : Z).

(** A program makes system calls, whose results are an errno or a value. *)
Inductive prog :=
  | Return (r : Z)
  | Fatal (e : fatal)
  | Sys (c : call) (k : Z + Z -> prog).

(** ** The routines *)

Definition BIGCOUNT : Z := 10000.

Definition op_lock : list sembuf := [SemBuf Lock 0 false; SemBuf Lock 1 true].
Definition op_endcreate : list sembuf := [SemBuf Counter (-1) true; SemBuf Lock (-1) true].
Definition op_open : list sembuf := [SemBuf Counter (-1) true].
Definition op_close : list sembuf := [SemBuf Lock 0 false; SemBuf Lock 1 true; SemBuf Counter 1 true].
Definition op_unlock : list sembuf := [SemBuf Lock (-1) true].
Definition op_op (n : Z) : list sembuf := [SemBuf Value n true].

(** A call whose failure ends the process. *)
Definition must (c : call) (msg : string) (k : Z -> prog) : prog :=
  Sys c (fun r => match r with inl _ => Fatal (Err_sys msg) | inr v => k v end).

(** [sem_create] with the lock held. *)
Definition create_end (id : Z) : prog :=
  must (SemOp id op_endcreate) "can't end create" (fun _ => Return id).
Definition create_count (id : Z) : prog :=
  must (SetVal id Counter BIGCOUNT) "can SETVAL[1]" (fun _ => create_end id).
Definition create_value (id initval : Z) : prog :=
  must (SetVal id Value initval) "can SETVAL[0]" (fun _ => create_count id).
Definition create_locked (id initval : Z) : prog :=
  must (GetVal id Counter) "can't GETVAL" (fun semval =>
    if semval =? 0 then create_value id initval else create_end id).

(** Taking the lock; [again] is the code from the label of that name. *)
Definition create_lock (again : prog) (id initval : Z) : prog :=
  Sys (SemOp id op_lock) (fun r =>
    match r with
    | inl e => if e =? EINVAL_ then again else Fatal (Err_sys "can't lock")
    | inr _ => create_locked id initval
    end).
(** The fuel bounds the jumps back to the label. *)
Fixpoint create_again (fuel : nat) (key initval : Z) : prog :=
  match fuel with
  | O => Fatal Loops
  | S f =>
      Sys (SemGet key true) (fun r =>
        match r with
        | inl _ => Return (-1)
        | inr id => create_lock (create_again f key initval) id initval
        end)
  end.
Definition sem_create (fuel : nat) (key initval : Z) : prog :=
  if key =? IPC_PRIVATE then Return (-1) else
  if key =? -1 then Return (-1) else
  create_again fuel key initval.

Definition open_count (id : Z) : prog := must (SemOp id op_open) "can't open" (fun _ => Return id).
Definition open_get (key : Z) : prog :=
  Sys (SemGet key false) (fun r =>
    match r with
    | inl _ => Return (-1)
    | inr id => open_count id
    end).
Definition sem_open (key : Z) : prog :=
  if key =? IPC_PRIVATE then Return (-1) else
  if key =? -1 then Return (-1) else
  open_get key.

Definition sem_rm (id : Z) : prog := must (RmId id) "can't IPC_RMID" (fun _ => Return 0).

(** [sem_close] with the lock held. *)
Definition close_unlock (id : Z) : prog := must (SemOp id op_unlock) "can't unlock" (fun _ => Return 0).
Definition close_locked (id : Z) : prog :=
  must (GetVal id Counter) "can't GETVAL" (fun semval =>
    if BIGCOUNT <? semval then Fatal (Err_dump "sem[1] > BIGCOUNT")
    else if semval =? BIGCOUNT then sem_rm id
    else close_unlock id).
Definition sem_close (id : Z) : prog :=
  must (SemOp id op_close) "can't semop" (fun _ => close_locked id).

(** The amount is stored in a [short]. *)
Definition short (n : Z) : Z := (n + 32768) mod 65536 - 32768.
Definition sem_op (id value : Z) : prog :=
  if short value =? 0 then Fatal (Err_sys "can't have value == 0") else
  must (SemOp id (op_op (short value))) "sem_op error" (fun _ => Return 0).
Definition sem_wait (id : Z) : prog := sem_op id (-1).
Definition sem_signal (id : Z) : prog := sem_op id 1.

(** ** Processes *)

(** What a process may call; it has at most one semaphore open at a time, and works on
    that one. *)
Inductive lib :=
  | Create (key initval : Z)
  | Open (key : Z)
  | Close
  | Op (amount : Z)
  | Remove.

(** [p_call]: the routine in progress; [p_held]: the semaphore the process has open. *)
Record proc := Proc {
  p_prog : prog;
  p_asleep : bool;               (* sleeping in the semop that p_prog starts with *)
  p_adj : gmap Z sem3;           (* undo records *)
  p_call : option lib;
  p_held : option Z
}.
Record sysv := Sysv {
  semsets : gmap Z (Z * sem3);   (* identifier: key and values *)
  next_id : Z;                   (* identifiers are not used again *)
  procs : gmap Z proc
}.

Definition adj_of (id : Z) (x : proc) : sem3 := default zero3 (p_adj x !! id).
Definition set_prog (q : prog) (x : proc) : proc := Proc q false (p_adj x) (p_call x) (p_held x).
Definition set_asleep (x : proc) : proc := Proc (p_prog x) true (p_adj x) (p_call x) (p_held x).
Definition set_adj (f : gmap Z sem3 -> gmap Z sem3) (x : proc) : proc :=
  Proc (p_prog x) (p_asleep x) (f (p_adj x)) (p_call x) (p_held x).

(** When a routine has returned the process notes what it has open. *)
Definition after_call (c : lib) (r : Z) (held : option Z) : option Z :=
  match c with
  | Create _ _ | Open _ => if r <? 0 then held else Some r
  | Close | Remove => None
  | Op _ => held
  end.
Definition settle (x : proc) : proc :=
  match p_prog x, p_call x with
  | Return r, Some c => Proc (Return r) false (p_adj x) None (after_call c r (p_held x))
  | _, _ => x
  end.

Definition find_key (key : Z) (sets : gmap Z (Z * sem3)) : option Z :=
  (fun e => e.2.1) <$> list_find (fun e => e.2.1 = key) (map_to_list sets).

Definition set_vals (id : Z) (v : sem3) (s : sysv) : sysv :=
  Sysv (alter (fun e => (e.1, v)) id (semsets s)) (next_id s) (procs s).

(** A call of process [p], with the most sets the kernel allows: a result and the new
    state, or nothing when the process has to sleep. *)
Definition do_call (semmni : nat) (p : Z) (c : call) (s : sysv) : option ((Z + Z) * sysv) :=
  match c with
  | SemGet key creat =>
      match find_key key (semsets s) with
      | Some id => Some (inr id, s)
      | None =>
          if negb creat then Some (inl ENOENT_, s) else
          if (semmni <=? size (semsets s))%nat then Some (inl ENOSPC_, s) else
          Some (inr (next_id s), Sysv (<[next_id s := (key, zero3)]> (semsets s)) (next_id s + 1) (procs s))
      end
  | SemOp id ops =>
      match semsets s !! id, procs s !! p with
      | Some e, Some x =>
          match try_ops e.2 (adj_of id x) ops with
          | Proceeds v a => Some (inr 0, Sysv (<[id := (e.1, v)]> (semsets s)) (next_id s) (<[p := set_adj (<[id := a]>) x]> (procs s)))
          | WouldBlock => None
          | OpFails e => Some (inl e, s)
          end
      | _, _ => Some (inl EINVAL_, s)
      end
  | GetVal id m =>
      match semsets s !! id with
      | Some e => Some (inr (sv m e.2), s)
      | None => Some (inl EINVAL_, s)
      end
  | SetVal id m n =>
      match semsets s !! id with
      | Some e =>
          if (n <? 0) || (SEMVMX <? n) then Some (inl ERANGE_, s) else
          (* every process's undo record for this member is cleared *)
          Some (inr 0, Sysv (<[id := (e.1, put3 m n e.2)]> (semsets s)) (next_id s) (set_adj (alter (put3 m 0) id) <$> procs s))
      | None => Some (inl EINVAL_, s)
      end
  | RmId id =>
      match semsets s !! id with
      | Some _ => Some (inr 0, Sysv (delete id (semsets s)) (next_id s) (set_adj (delete id) <$> procs s))
      | None => Some (inl EINVAL_, s)
      end
  end.

(** At the end of a process its undo records are applied, within the range of values. *)
Definition clamp (n : Z) : Z := Z.max 0 (Z.min SEMVMX n).
Definition undo3 (v a : sem3) : sem3 :=
  Sem3 (clamp (sem_value v + sem_value a)) (clamp (sem_counter v + sem_counter a)) (clamp (sem_lock v + sem_lock a)).
Definition undo_all (x : proc) (sets : gmap Z (Z * sem3)) : gmap Z (Z * sem3) :=
  map_imap (fun id e => Some (e.1, undo3 e.2 (adj_of id x))) sets.

(** ** Interleavings *)

Inductive action :=
  | Spawn (p : Z)                 (* a new process *)
  | Start (p : Z) (c : lib)       (* an idle process calls a routine *)
  | Run (p : Z)                   (* the next system call, or falling asleep in it *)
  | Interrupt (p : Z)             (* a signal for a sleeping process *)
  | Die (p : Z).                  (* exit, or death by a signal *)

Definition start_prog (fuel : nat) (c : lib) (held : option Z) : option prog :=
  match c, held with
  | Create key v, None => Some (sem_create fuel key v)
  | Open key, None => Some (sem_open key)
  | Close, Some id => Some (sem_close id)
  | Op n, Some id => Some (sem_op id n)
  | Remove, Some id => Some (sem_rm id)
  | _, _ => None
  end.

Definition resume (p : Z) (k : Z + Z -> prog) (r : Z + Z) (s : sysv) : sysv :=
  Sysv (semsets s) (next_id s) (alter (fun x => settle (set_prog (k r) x)) p (procs s)).

(** One action; nothing: it is not possible now.  A process that sleeps when its set
    goes away gets [EIDRM]. *)
Definition step (semmni fuel : nat) (a : action) (s : sysv) : option sysv :=
  match a with
  | Spawn p =>
      if decide (procs s !! p = None /\ Z.of_nat (size (procs s)) + 1 < BIGCOUNT)
      then Some (Sysv (semsets s) (next_id s) (<[p := Proc (Return 0) false ∅ None None]> (procs s)))
      else None
  | Start p c =>
      x ← procs s !! p;
      match p_prog x, p_call x with
      | Return _, None =>
          q ← start_prog fuel c (p_held x);
          Some (Sysv (semsets s) (next_id s) (<[p := settle (Proc q false (p_adj x) (Some c) (p_held x))]> (procs s)))
      | _, _ => None
      end
  | Run p =>
      x ← procs s !! p;
      match p_prog x with
      | Sys c k =>
          match c with
          | SemOp id _ =>
              if p_asleep x && bool_decide (semsets s !! id = None) then Some (resume p k (inl EIDRM_) s) else
              match do_call semmni p c s with
              | Some (r, s') => Some (resume p k r s')
              | None => if p_asleep x then None else Some (Sysv (semsets s) (next_id s) (<[p := set_asleep x]> (procs s)))
              end
          | _ =>
              rs ← do_call semmni p c s;
              Some (resume p k rs.1 rs.2)
          end
      | _ => None
      end
  | Interrupt p =>
      x ← procs s !! p;
      match p_prog x with
      | Sys c k => if p_asleep x then Some (resume p k (inl EINTR_) s) else None
      | _ => None
      end
  | Die p =>
      x ← procs s !! p;
      Some (Sysv (undo_all x (semsets s)) (next_id s) (delete p (procs s)))
  end.

Fixpoint exec (semmni fuel : nat) (l : list action) (s : sysv) : option sysv :=
  match l with
  | [] => Some s
  | a :: l' => s' ← step semmni fuel a s; exec semmni fuel l' s'
  end.

Definition sys0 : sysv := Sysv ∅ 1 ∅.
