(* ===== verification/SemaphInv.v ===== *)
(** Invariants of the semaphore routines of [src/apue2e/lib/semaph.c] under every
    interleaving of processes. *)
From S2P Require Import Prelude Semaph.

(** ** Sums over processes *)

Definition total (f : proc -> Z) (m : gmap Z proc) : Z := map_fold (fun _ x n => f x + n) 0 m.

Section Total.
Implicit Types (f g : proc -> Z) (m : gmap Z proc).

Lemma total_empty f : total f ∅ = 0.
Proof. apply map_fold_empty. Qed.
Lemma total_new f m p y : m !! p = None -> total f (<[p := y]> m) = f y + total f m.
Proof. intros Hp. unfold total. rewrite map_fold_insert_L; [done| |done]. intros. lia. Qed.
Lemma total_delete f m p x : m !! p = Some x -> total f (delete p m) = total f m - f x.
Proof.
  intros Hp. rewrite <- (insert_delete_id m p x Hp) at 2. rewrite total_new by apply lookup_delete_eq. lia.
Qed.
Lemma total_insert f m p x y : m !! p = Some x -> total f (<[p := y]> m) = total f m - f x + f y.
Proof.
  intros Hp. rewrite <- insert_delete_eq, total_new by apply lookup_delete_eq.
  rewrite (total_delete f m p x Hp). lia.
Qed.
Lemma total_ext f g m : (forall p x, m !! p = Some x -> f x = g x) -> total f m = total g m.
Proof.
  induction m as [|p x m Hp IH] using map_ind; intros E; [by rewrite !total_empty|].
  rewrite !total_new by done. rewrite (E p x (lookup_insert_eq _ _ _)), IH; [done|].
  intros q y Hq. apply (E q). rewrite lookup_insert_ne; [done|]. intros ->. by rewrite Hp in Hq.
Qed.
Lemma total_fmap f (g : proc -> proc) m : total f (g <$> m) = total (fun x => f (g x)) m.
Proof. unfold total. by rewrite map_fold_fmap. Qed.
Lemma total_const f m : (forall p x, m !! p = Some x -> f x = 0) -> total f m = 0.
Proof.
  intros E. rewrite (total_ext f (fun _ => 0) m E). induction m as [|p x m Hp IH] using map_ind; [apply total_empty|].
  rewrite total_new by done. rewrite IH; [done|]. intros q y Hq. apply (E q).
  rewrite lookup_insert_ne; [done|]. intros ->. by rewrite Hp in Hq.
Qed.
Lemma total_range f m : (forall p x, m !! p = Some x -> 0 <= f x <= 1) -> 0 <= total f m <= Z.of_nat (size m).
Proof.
  induction m as [|p x m Hp IH] using map_ind; intros B; [by rewrite total_empty|].
  rewrite total_new, map_size_insert_None by done. specialize (B p x (lookup_insert_eq _ _ _)) as Bx.
  enough (0 <= total f m <= Z.of_nat (size m)) by lia. apply IH. intros q y Hq. apply (B q).
  rewrite lookup_insert_ne; [done|]. intros ->. by rewrite Hp in Hq.
Qed.
Lemma total_member f m p x : (forall q y, m !! q = Some y -> 0 <= f y) -> m !! p = Some x -> f x <= total f m.
Proof.
  intros B Hp. rewrite <- (insert_delete_id m p x Hp), total_new by apply lookup_delete_eq.
  enough (0 <= total f (delete p m)) by lia.
  assert (B' : forall q y, delete p m !! q = Some y -> 0 <= f y) by (intros q y [_ Hq]%lookup_delete_Some; by apply (B q)).
  clear B Hp. induction (delete p m) as [|q y d Hq IH] using map_ind; [by rewrite total_empty|].
  rewrite total_new by done. specialize (B' q y (lookup_insert_eq _ _ _)) as By.
  enough (0 <= total f d) by lia. apply IH. intros r z Hr. apply (B' r).
  rewrite lookup_insert_ne; [done|]. intros ->. by rewrite Hq in Hr.
Qed.
Lemma total_pair f m p x q y : (forall q y, m !! q = Some y -> 0 <= f y) -> p <> q ->
  m !! p = Some x -> m !! q = Some y -> f x + f y <= total f m.
Proof.
  intros B N Hp Hq. rewrite <- (insert_delete_id m p x Hp), total_new by apply lookup_delete_eq.
  enough (f y <= total f (delete p m)) by lia. apply (total_member f _ q); [|by rewrite lookup_delete_ne].
  intros r z [_ Hr]%lookup_delete_Some. by apply (B r).
Qed.
End Total.

(** ** Where a process is

    [need]: what the code at a point relies on about a set whose lock it holds. *)
Inductive need := Nothing | Uninit (id : Z) | Inited (id : Z) | Unused (id : Z).

(** A routine in progress, what the process has open, its program, the lock it holds
    and the set whose counter it has decremented. *)
Inductive point (no_open : bool) : option lib -> option Z -> prog -> option Z -> option Z -> need -> Prop :=
  | pt_rest held r : point no_open None held (Return r) None held Nothing
  | pt_fatal c held e l o : point no_open c held (Fatal e) l o Nothing
  | pt_create f k i : point no_open (Some (Create k i)) None (create_again f k i) None None Nothing
  | pt_lock f k i id : point no_open (Some (Create k i)) None (create_lock (create_again f k i) id i) None None Nothing
  | pt_locked k i id : point no_open (Some (Create k i)) None (create_locked id i) (Some id) None Nothing
  | pt_value k i id : point no_open (Some (Create k i)) None (create_value id i) (Some id) None (Uninit id)
  | pt_count k i id : point no_open (Some (Create k i)) None (create_count id) (Some id) None (Uninit id)
  | pt_end k i id : point no_open (Some (Create k i)) None (create_end id) (Some id) None (Inited id)
  | pt_open k : no_open <> true -> point no_open (Some (Open k)) None (open_get k) None None Nothing
  | pt_open_count k id : no_open <> true -> point no_open (Some (Open k)) None (open_count id) None None Nothing
  | pt_close id : point no_open (Some Close) (Some id) (sem_close id) None (Some id) Nothing
  | pt_close_locked id : point no_open (Some Close) (Some id) (close_locked id) (Some id) None Nothing
  | pt_close_rm id : point no_open (Some Close) (Some id) (sem_rm id) (Some id) None (Unused id)
  | pt_close_unlock id : point no_open (Some Close) (Some id) (close_unlock id) (Some id) None Nothing
  | pt_op n m id : point no_open (Some (Op n)) (Some id) (must (SemOp id (op_op m)) "sem_op error" (fun _ => Return 0)) None (Some id) Nothing
  | pt_rm id : point no_open (Some Remove) (Some id) (sem_rm id) None (Some id) Nothing.

Definition one (a : option Z) (id : Z) : Z := if decide (a = Some id) then 1 else 0.

Definition adj_ok (sets : gmap Z (Z * sem3)) (x : proc) (lock opened : option Z) : Prop :=
  forall id, is_Some (sets !! id) ->
    sv Lock (adj_of id x) = - one lock id /\ sv Counter (adj_of id x) = one opened id.

(** Identifiers a process knows have been given out. *)
Definition known (next : Z) (a : option Z) : Prop := forall id, a = Some id -> id < next.

(** The counter with all undo records applied. *)
Definition users (id : Z) (ps : gmap Z proc) : Z := total (fun x => sv Counter (adj_of id x)) ps.
Definition lockers (id : Z) (ps : gmap Z proc) : Z := total (fun x => - sv Lock (adj_of id x)) ps.

Definition need_ok (no_open : bool) (sets : gmap Z (Z * sem3)) (ps : gmap Z proc) (n : need) : Prop :=
  match n with
  | Nothing => True
  | Uninit id => forall e, sets !! id = Some e -> sem_counter e.2 + users id ps = 0
  | Inited id => forall e, sets !! id = Some e -> sem_counter e.2 + users id ps = BIGCOUNT
  | Unused id => no_open = true -> is_Some (sets !! id) -> users id ps = 0
  end.

Definition set_ok (ps : gmap Z proc) (id : Z) (v : sem3) : Prop :=
  0 <= sem_counter v /\ sem_lock v <= 1 /\ sem_lock v = lockers id ps /\
  (sem_counter v + users id ps = 0 \/ sem_counter v + users id ps = BIGCOUNT).

Record sem_inv (no_open : bool) (s : sysv) : Prop := SemInv {
  si_ids : forall id e, semsets s !! id = Some e -> 0 < id < next_id s;
  si_next : 0 < next_id s;
  si_adj : forall p x id, procs s !! p = Some x -> is_Some (p_adj x !! id) -> is_Some (semsets s !! id);
  si_proc : forall p x, procs s !! p = Some x ->
    exists l o n, point no_open (p_call x) (p_held x) (p_prog x) l o n /\ adj_ok (semsets s) x l o /\
      need_ok no_open (semsets s) (procs s) n /\ known (next_id s) l /\ known (next_id s) o;
  si_set : forall id e, semsets s !! id = Some e -> set_ok (procs s) id e.2;
  si_size : Z.of_nat (size (procs s)) < BIGCOUNT
}.

Section Invariant.
Context (no : bool).
Implicit Types (s : sysv) (x y : proc).

Lemma one_range a id : 0 <= one a id <= 1.
Proof. unfold one. destruct (decide _); lia. Qed.
Lemma one_eq a : one (Some a) a = 1.
Proof. unfold one. by rewrite decide_True. Qed.
Lemma one_ne a b : a <> Some b -> one a b = 0.
Proof. intros N. unfold one. by rewrite decide_False. Qed.

(** Every process's share of the two sums is 0 or 1. *)
Lemma lock_share s p x id : sem_inv no s -> is_Some (semsets s !! id) -> procs s !! p = Some x ->
  0 <= - sv Lock (adj_of id x) <= 1.
Proof.
  intros I Hid Hp. destruct (si_proc no s I p x Hp) as (l & o & n & _ & A & _ & _).
  destruct (A id Hid) as [-> _]. pose proof (one_range l id). lia.
Qed.
Lemma count_share s p x id : sem_inv no s -> is_Some (semsets s !! id) -> procs s !! p = Some x ->
  0 <= sv Counter (adj_of id x) <= 1.
Proof.
  intros I Hid Hp. destruct (si_proc no s I p x Hp) as (l & o & n & _ & A & _ & _).
  destruct (A id Hid) as [_ ->]. apply one_range.
Qed.
Lemma users_range s id : sem_inv no s -> is_Some (semsets s !! id) -> 0 <= users id (procs s) < BIGCOUNT.
Proof.
  intros I Hid. pose proof (si_size no s I). unfold users.
  pose proof (total_range (fun x => sv Counter (adj_of id x)) (procs s) (fun p x => count_share s p x id I Hid)). lia.
Qed.

(** A lock has one holder. *)
Lemma lock_unique s p q x y id o o' : sem_inv no s -> is_Some (semsets s !! id) ->
  procs s !! p = Some x -> procs s !! q = Some y -> adj_ok (semsets s) x (Some id) o -> adj_ok (semsets s) y (Some id) o' -> p = q.
Proof.
  intros I [e He] Hp Hq Ax Ay. destruct (decide (p = q)) as [|N]; [done|exfalso].
  destruct (si_set no s I id e He) as (_ & L1 & L2 & _). unfold lockers in L2.
  pose proof (total_pair (fun x => - sv Lock (adj_of id x)) (procs s) p x q y
    (fun r z Hr => proj1 (lock_share s r z id I (ex_intro _ e He) Hr)) N Hp Hq) as T. cbn beta in T.
  destruct (Ax id (ex_intro _ e He)) as [Ex _]. destruct (Ay id (ex_intro _ e He)) as [Ey _].
  rewrite Ex, Ey, one_eq in T. lia.
Qed.
(** When the lock member is 0 nobody holds the lock. *)
Lemma lock_free s q y id e l o : sem_inv no s -> semsets s !! id = Some e -> sem_lock e.2 = 0 ->
  procs s !! q = Some y -> adj_ok (semsets s) y l o -> l <> Some id.
Proof.
  intros I He Z0 Hq Ay ->. destruct (si_set no s I id e He) as (_ & _ & L2 & _). unfold lockers in L2.
  pose proof (total_member (fun x => - sv Lock (adj_of id x)) (procs s) q y
    (fun r z Hr => proj1 (lock_share s r z id I (ex_intro _ e He) Hr)) Hq) as T. cbn beta in T.
  destruct (Ay id (ex_intro _ e He)) as [Ey _]. rewrite Ey, one_eq in T. lia.
Qed.

(** ** Changes of the state *)

(** [need] speaks of a set whose lock is held. *)
Definition about (n : need) (id : Z) : Prop := n = Uninit id \/ n = Inited id \/ n = Unused id.
Lemma need_lock c h q l o n id : point no c h q l o n -> about n id -> l = Some id.
Proof. by intros [] [?|[?|?]]; simplify_eq. Qed.

(** A process goes on without a change of the kernel's state. *)
Lemma inv_prog s p x x' : sem_inv no s -> procs s !! p = Some x -> p_adj x' = p_adj x ->
  (forall l o n, point no (p_call x) (p_held x) (p_prog x) l o n -> adj_ok (semsets s) x l o -> need_ok no (semsets s) (procs s) n ->
     known (next_id s) l -> known (next_id s) o ->
     exists l' o' n', point no (p_call x') (p_held x') (p_prog x') l' o' n' /\ adj_ok (semsets s) x l' o' /\
       need_ok no (semsets s) (procs s) n' /\ known (next_id s) l' /\ known (next_id s) o') ->
  sem_inv no (Sysv (semsets s) (next_id s) (<[p := x']> (procs s))).
Proof.
  intros I Hp Ha Hx.
  assert (Hu : forall f, (forall a b, p_adj a = p_adj b -> f a = f b :> Z) -> total f (<[p := x']> (procs s)) = total f (procs s)).
  { intros f Hf. rewrite (total_insert f _ p x x' Hp), (Hf x' x Ha). lia. }
  assert (Hadj : forall id, adj_of id x' = adj_of id x) by (intros id; unfold adj_of; by rewrite Ha).
  assert (Hus : forall id, users id (<[p := x']> (procs s)) = users id (procs s)).
  { intros id. apply Hu. intros a b E. unfold adj_of. by rewrite E. }
  assert (Hls : forall id, lockers id (<[p := x']> (procs s)) = lockers id (procs s)).
  { intros id. apply Hu. intros a b E. unfold adj_of. by rewrite E. }
  assert (Hneed : forall n, need_ok no (semsets s) (procs s) n -> need_ok no (semsets s) (<[p := x']> (procs s)) n).
  { intros []; simpl; try done; rewrite Hus; done. }
  destruct I as [H1 H2 H3 H4 H5 H6]. split; cbn [semsets next_id procs]; [done..| | | |].
  - intros q y id [[<- <-]|[N Hq]]%lookup_insert_Some; [rewrite Ha|]; eauto.
  - intros q y [[<- <-]|[N Hq]]%lookup_insert_Some.
    + destruct (H4 p x Hp) as (l & o & n & P & A & Q & K1 & K2). destruct (Hx l o n P A Q K1 K2) as (l' & o' & n' & P' & A' & Q' & K').
      exists l', o', n'. split_and!; [done| |by apply Hneed|apply K'..]. intros id Hid. rewrite Hadj. by apply A'.
    + destruct (H4 q y Hq) as (l & o & n & P & A & Q & K1 & K2). exists l, o, n. split_and!; [done..|by apply Hneed|done|done].
  - intros id e He. destruct (H5 id e He) as (B1 & B2 & B3 & B4). unfold set_ok. by rewrite Hus, Hls.
  - by rewrite map_size_insert_Some.
Qed.

(** A [semop] with undo on the counter and the lock moves values into the undo record. *)
Lemma inv_semop s p x x' id e v a : sem_inv no s -> procs s !! p = Some x -> semsets s !! id = Some e ->
  p_adj x' = <[id := a]> (p_adj x) ->
  sv Counter v + sv Counter a = sv Counter e.2 + sv Counter (adj_of id x) ->
  sv Lock v + sv Lock a = sv Lock e.2 + sv Lock (adj_of id x) ->
  0 <= sv Counter v -> sv Lock v <= 1 ->
  (sv Counter a = sv Counter (adj_of id x) \/ no <> true \/
   forall q y l o, q <> p -> procs s !! q = Some y -> adj_ok (semsets s) y l o -> l <> Some id) ->
  (exists l' o' n', point no (p_call x') (p_held x') (p_prog x') l' o' n' /\ adj_ok (semsets s) x' l' o' /\
     need_ok no (<[id := (e.1, v)]> (semsets s)) (<[p := x']> (procs s)) n' /\ known (next_id s) l' /\ known (next_id s) o') ->
  sem_inv no (Sysv (<[id := (e.1, v)]> (semsets s)) (next_id s) (<[p := x']> (procs s))).
Proof.
  intros I Hp He Ha C1 C2 B1 B2 Hun (l' & o' & n' & P' & A' & Q' & K').
  assert (Hid : adj_of id x' = a) by (unfold adj_of; by rewrite Ha, lookup_insert_eq).
  assert (Hne : forall j, j <> id -> adj_of j x' = adj_of j x) by (intros j N; unfold adj_of; by rewrite Ha, lookup_insert_ne by done).
  assert (Hus : forall j, users j (<[p := x']> (procs s)) = users j (procs s) + (if decide (j = id) then sv Counter a - sv Counter (adj_of id x) else 0)).
  { intros j. unfold users. rewrite (total_insert _ _ p x x' Hp). destruct (decide (j = id)) as [->|N]; [rewrite Hid|rewrite Hne by done]; lia. }
  assert (Hls : forall j, lockers j (<[p := x']> (procs s)) = lockers j (procs s) - (if decide (j = id) then sv Lock a - sv Lock (adj_of id x) else 0)).
  { intros j. unfold lockers. rewrite (total_insert _ _ p x x' Hp). destruct (decide (j = id)) as [->|N]; [rewrite Hid|rewrite Hne by done]; lia. }
  assert (Hdom : forall j, is_Some (<[id := (e.1, v)]> (semsets s) !! j) -> is_Some (semsets s !! j)).
  { intros j [z [[<- _]|[_ Hz]]%lookup_insert_Some]; eauto. }
  pose proof I as [H1 H2 H3 H4 H5 H6]. split; cbn [semsets next_id procs].
  - intros j z [[<- _]|[_ Hz]]%lookup_insert_Some; eauto.
  - done.
  - intros q y j Hq Hj. apply lookup_insert_is_Some. destruct (decide (id = j)) as [|N]; [by left|right; split; [done|]].
    apply lookup_insert_Some in Hq as [[<- <-]|[Nq Hq]]; [|by eapply H3].
    rewrite Ha, lookup_insert_ne in Hj by done. by eapply H3.
  - intros q y [[<- <-]|[N Hq]]%lookup_insert_Some.
    { exists l', o', n'. split_and!; [done| |done|apply K'..]. intros j Hj. by apply A', Hdom. }
    destruct (H4 q y Hq) as (l & o & n & P & A & Q & K1 & K2). exists l, o, n.
    split_and!; [done|intros j Hj; by apply A, Hdom| |done|done].
    destruct n as [|j|j|j]; cbn [need_ok] in *; [done| | |].
    1,2: intros z Hz; rewrite Hus; apply lookup_insert_Some in Hz as [[<- <-]|[Nj Hz]]; [rewrite decide_True by done|rewrite decide_False by done];
      [specialize (Q e He); cbn [snd] in *; cbn [sv] in *; lia|specialize (Q z Hz); lia].
    intros Hno Hj. rewrite Hus. destruct (decide (j = id)) as [->|Nj]; [|rewrite (Q Hno (Hdom j Hj)); lia].
    rewrite (Q Hno (Hdom id Hj)). destruct Hun as [->|[Hun|Hun]]; [lia|done|].
    by destruct (Hun q y l o (not_eq_sym N) Hq A (need_lock _ _ _ _ _ _ id P (or_intror (or_intror eq_refl)))).
  - intros j z [[<- <-]|[Nj Hz]]%lookup_insert_Some.
    + destruct (H5 id e He) as (G1 & G2 & G3 & G4). unfold set_ok. rewrite Hus, Hls, !decide_True by done. cbn [snd sv] in *. lia.
    + destruct (H5 j z Hz) as (G1 & G2 & G3 & G4). unfold set_ok. rewrite Hus, Hls, !decide_False by done. lia.
  - by rewrite map_size_insert_Some.
Qed.

(** A new set is made. *)
Lemma inv_newset s k : sem_inv no s ->
  sem_inv no (Sysv (<[next_id s := (k, zero3)]> (semsets s)) (next_id s + 1) (procs s)).
Proof.
  intros I. pose proof I as [H1 H2 H3 H4 H5 H6].
  assert (Hnew : semsets s !! next_id s = None).
  { destruct (semsets s !! next_id s) as [e|] eqn:E; [|done]. specialize (H1 _ _ E). lia. }
  assert (Hadj : forall p x, procs s !! p = Some x -> adj_of (next_id s) x = zero3).
  { intros p x Hp. unfold adj_of. destruct (p_adj x !! next_id s) eqn:E; [|done].
    destruct (H3 p x (next_id s) Hp) as [e He]; [by exists s0|congruence]. }
  split; cbn [semsets next_id procs]; [|lia|..|done].
  - intros j z [[<- _]|[_ Hz]]%lookup_insert_Some; [lia|]. specialize (H1 j z Hz). lia.
  - intros q y j Hq Hj. apply lookup_insert_is_Some. right. destruct (H3 q y j Hq Hj) as [z Hz]. split; [congruence|by exists z].
  - intros q y Hq. destruct (H4 q y Hq) as (l & o & n & P & A & Q & K1 & K2). exists l, o, n.
    split_and!; [done| | |intros j Hj; specialize (K1 j Hj); lia|intros j Hj; specialize (K2 j Hj); lia].
    + intros j [<-|Hj]%lookup_insert_is_Some'; [|by apply A]. rewrite (Hadj q y Hq). cbn [sv zero3 sem_lock sem_counter].
      rewrite !one_ne; [done| |]; [intros K; specialize (K2 _ K); lia|intros K; specialize (K1 _ K); lia].
    + assert (Hn : forall j, about n j -> next_id s <> j).
      { intros j Hj <-. specialize (K1 _ (need_lock _ _ _ _ _ _ _ P Hj)). lia. }
      destruct n as [|j|j|j]; cbn [need_ok] in *; [done|..]; rewrite lookup_insert_ne by (apply Hn; unfold about; auto); done.
  - intros j z [[<- <-]|[_ Hz]]%lookup_insert_Some; [|by apply H5]. cbn [snd].
    unfold set_ok, users, lockers. rewrite !total_const; [cbn; lia|..]; intros p x Hp; rewrite (Hadj p x Hp); done.
Qed.

(** The undo records change only in the member for the semaphore's value. *)
Lemma inv_records s (g : proc -> proc) : sem_inv no s ->
  (forall x, p_call (g x) = p_call x /\ p_held (g x) = p_held x /\ p_prog (g x) = p_prog x) ->
  (forall p x j, procs s !! p = Some x -> is_Some (p_adj (g x) !! j) -> is_Some (semsets s !! j)) ->
  (forall p x j, procs s !! p = Some x -> is_Some (semsets s !! j) ->
     sv Lock (adj_of j (g x)) = sv Lock (adj_of j x) /\ sv Counter (adj_of j (g x)) = sv Counter (adj_of j x)) ->
  sem_inv no (Sysv (semsets s) (next_id s) (g <$> procs s)).
Proof.
  intros I Hg Hdom Hsame. pose proof I as [H1 H2 H3 H4 H5 H6].
  assert (Hus : forall j, is_Some (semsets s !! j) -> users j (g <$> procs s) = users j (procs s)).
  { intros j Hj. unfold users. rewrite total_fmap. apply total_ext. intros p x Hp. by apply (Hsame p). }
  assert (Hls : forall j, is_Some (semsets s !! j) -> lockers j (g <$> procs s) = lockers j (procs s)).
  { intros j Hj. unfold lockers. rewrite total_fmap. apply total_ext. intros p x Hp. by rewrite (proj1 (Hsame p x j Hp Hj)). }
  split; cbn [semsets next_id procs]; [done..| | | |].
  - intros q y j Hq Hj. apply lookup_fmap_Some in Hq as (x & <- & Hq). by eapply Hdom.
  - intros q y Hq. apply lookup_fmap_Some in Hq as (x & <- & Hq). destruct (Hg x) as (-> & -> & ->).
    destruct (H4 q x Hq) as (l & o & n & P & A & Q & K). exists l, o, n. split_and!; [done| | |apply K..].
    + intros j Hj. destruct (Hsame q x j Hq Hj) as [-> ->]. by apply A.
    + destruct n as [|j|j|j]; cbn [need_ok] in *; [done|..].
      1,2: intros z Hz; rewrite Hus by (by exists z); by apply Q.
      intros Hno Hj. rewrite Hus by done. by apply Q.
  - intros j z Hz. destruct (H5 j z Hz) as (B1 & B2 & B3 & B4). unfold set_ok. by rewrite Hus, Hls by (by exists z).
  - by rewrite map_size_fmap.
Qed.

(** The holder of the lock sets a value, or the counter of a set nobody uses. *)
Lemma inv_setval s p x x' id e v o : sem_inv no s -> procs s !! p = Some x -> semsets s !! id = Some e ->
  p_adj x' = p_adj x -> adj_ok (semsets s) x (Some id) o -> sem_lock v = sem_lock e.2 ->
  (sem_counter v = sem_counter e.2 \/ users id (procs s) = 0 /\ sem_counter v = BIGCOUNT) ->
  (exists l' o' n', point no (p_call x') (p_held x') (p_prog x') l' o' n' /\ adj_ok (semsets s) x l' o' /\
     need_ok no (<[id := (e.1, v)]> (semsets s)) (procs s) n' /\ known (next_id s) l' /\ known (next_id s) o') ->
  sem_inv no (Sysv (<[id := (e.1, v)]> (semsets s)) (next_id s) (<[p := x']> (procs s))).
Proof.
  intros I Hp He Ha Al Hlock Hcount (l' & o' & n' & P' & A' & Q' & K').
  assert (Hadj : forall j, adj_of j x' = adj_of j x) by (intros j; unfold adj_of; by rewrite Ha).
  assert (Hus : forall j, users j (<[p := x']> (procs s)) = users j (procs s)).
  { intros j. unfold users. rewrite (total_insert _ _ p x x' Hp), Hadj. lia. }
  assert (Hls : forall j, lockers j (<[p := x']> (procs s)) = lockers j (procs s)).
  { intros j. unfold lockers. rewrite (total_insert _ _ p x x' Hp), Hadj. lia. }
  assert (Hdom : forall j, is_Some (<[id := (e.1, v)]> (semsets s) !! j) -> is_Some (semsets s !! j)).
  { intros j [z [[<- _]|[_ Hz]]%lookup_insert_Some]; eauto. }
  pose proof I as [H1 H2 H3 H4 H5 H6]. split; cbn [semsets next_id procs].
  - intros j z [[<- _]|[_ Hz]]%lookup_insert_Some; eauto.
  - done.
  - intros q y j Hq Hj. apply lookup_insert_is_Some'. right.
    apply lookup_insert_Some in Hq as [[<- <-]|[Nq Hq]]; [rewrite Ha in Hj|]; by eapply H3.
  - intros q y [[<- <-]|[N Hq]]%lookup_insert_Some.
    { exists l', o', n'. split_and!; [done| | |apply K'..].
      - intros j Hj. rewrite Hadj. by apply A', Hdom.
      - destruct n'; cbn [need_ok] in *; rewrite ?Hus; done. }
    destruct (H4 q y Hq) as (l & o1 & n & P & A & Q & K). exists l, o1, n.
    split_and!; [done|intros j Hj; by apply A, Hdom| |apply K..].
    assert (Hn : forall j, about n j -> id <> j).
    { intros j Hj <-. apply N. pose proof (need_lock _ _ _ _ _ _ _ P Hj) as ->.
      by apply (lock_unique s p q x y id o o1 I (ex_intro _ e He)). }
    destruct n as [|j|j|j]; cbn [need_ok] in *; [done|..];
      rewrite lookup_insert_ne by (apply Hn; unfold about; auto); rewrite Hus; done.
  - intros j z [[<- <-]|[Nj Hz]]%lookup_insert_Some.
    + destruct (H5 id e He) as (G1 & G2 & G3 & G4). unfold set_ok. rewrite Hus, Hls. cbn [snd]. unfold BIGCOUNT in *. lia.
    + unfold set_ok. rewrite Hus, Hls. by apply H5.
  - by rewrite map_size_insert_Some.
Qed.

(** A set is removed. *)
Lemma inv_rm s id : sem_inv no s ->
  sem_inv no (Sysv (delete id (semsets s)) (next_id s) (set_adj (delete id) <$> procs s)).
Proof.
  intros I. pose proof I as [H1 H2 H3 H4 H5 H6].
  assert (Hadj : forall x j, j <> id -> adj_of j (set_adj (delete id) x) = adj_of j x).
  { intros x j N. unfold adj_of, set_adj. cbn [p_adj]. by rewrite lookup_delete_ne by done. }
  assert (Hus : forall j, j <> id -> users j (set_adj (delete id) <$> procs s) = users j (procs s)).
  { intros j N. unfold users. rewrite total_fmap. apply total_ext. intros p x Hp. by rewrite Hadj. }
  assert (Hls : forall j, j <> id -> lockers j (set_adj (delete id) <$> procs s) = lockers j (procs s)).
  { intros j N. unfold lockers. rewrite total_fmap. apply total_ext. intros p x Hp. by rewrite Hadj. }
  assert (Hdom : forall j, is_Some (delete id (semsets s) !! j) -> j <> id /\ is_Some (semsets s !! j)).
  { intros j [z [N Hz]%lookup_delete_Some]. split; [done|by exists z]. }
  split; cbn [semsets next_id procs].
  - intros j z [_ Hz]%lookup_delete_Some. eauto.
  - done.
  - intros q y j Hq Hj. apply lookup_fmap_Some in Hq as (x & <- & Hq). unfold set_adj in Hj. cbn [p_adj] in Hj.
    apply lookup_delete_is_Some in Hj as [N Hj]. apply lookup_delete_is_Some. split; [done|by eapply H3].
  - intros q y Hq. apply lookup_fmap_Some in Hq as (x & <- & Hq). unfold set_adj at 1 2 3. cbn [p_call p_held p_prog].
    destruct (H4 q x Hq) as (l & o & n & P & A & Q & K). exists l, o, n. split_and!; [done| | |apply K..].
    + intros j [N Hj]%Hdom. rewrite Hadj by done. by apply A.
    + destruct n as [|j|j|j]; cbn [need_ok] in *; [done|..].
      1,2: intros z [N Hz]%lookup_delete_Some; rewrite Hus by done; by apply Q.
      intros Hno [N Hj]%Hdom. rewrite Hus by done. by apply Q.
  - intros j z [N Hz]%lookup_delete_Some. unfold set_ok. rewrite Hus, Hls by done. by apply H5.
  - by rewrite map_size_fmap.
Qed.

(** A process ends: its undo records give back exactly its share. *)
Lemma undo_exact s p x id e : sem_inv no s -> procs s !! p = Some x -> semsets s !! id = Some e ->
  sem_counter (undo3 e.2 (adj_of id x)) = sem_counter e.2 + sv Counter (adj_of id x) /\
  sem_lock (undo3 e.2 (adj_of id x)) = sem_lock e.2 + sv Lock (adj_of id x).
Proof.
  intros I Hp He. assert (Hid : is_Some (semsets s !! id)) by (by exists e).
  destruct (si_set no s I id e He) as (G1 & G2 & G3 & G4).
  pose proof (count_share s p x id I Hid Hp). pose proof (lock_share s p x id I Hid Hp).
  pose proof (total_member (fun x => - sv Lock (adj_of id x)) (procs s) p x (fun q y Hq => proj1 (lock_share s q y id I Hid Hq)) Hp) as T1.
  pose proof (total_member (fun x => sv Counter (adj_of id x)) (procs s) p x (fun q y Hq => proj1 (count_share s q y id I Hid Hq)) Hp) as T2.
  unfold lockers, users, BIGCOUNT in *. cbn beta in T1, T2.
  unfold undo3, clamp, SEMVMX. cbn [sem_counter sem_lock sv] in *. lia.
Qed.
Lemma inv_die s p x : sem_inv no s -> procs s !! p = Some x ->
  sem_inv no (Sysv (undo_all x (semsets s)) (next_id s) (delete p (procs s))).
Proof.
  intros I Hp. pose proof I as [H1 H2 H3 H4 H5 H6].
  assert (Hsets : forall j z, undo_all x (semsets s) !! j = Some z ->
    exists e, semsets s !! j = Some e /\ z = (e.1, undo3 e.2 (adj_of j x))).
  { intros j z Hz. unfold undo_all in Hz. rewrite map_lookup_imap in Hz.
    destruct (semsets s !! j) as [e|] eqn:E; simpl in Hz; [|done]. simplify_eq. by exists e. }
  assert (Hdom : forall j, is_Some (undo_all x (semsets s) !! j) <-> is_Some (semsets s !! j)).
  { intros j. unfold undo_all. rewrite map_lookup_imap. destruct (semsets s !! j); simpl; split; intros [? ?]; by eexists. }
  assert (Hus : forall j, users j (delete p (procs s)) = users j (procs s) - sv Counter (adj_of j x)).
  { intros j. by apply (total_delete (fun x => sv Counter (adj_of j x))). }
  assert (Hls : forall j, lockers j (delete p (procs s)) = lockers j (procs s) + sv Lock (adj_of j x)).
  { intros j. unfold lockers. rewrite (total_delete _ _ p x Hp). lia. }
  split; cbn [semsets next_id procs].
  - intros j z Hz. destruct (Hsets j z Hz) as (e & He & _). eauto.
  - done.
  - intros q y j [_ Hq]%lookup_delete_Some Hj. apply Hdom. by eapply H3.
  - intros q y [N Hq]%lookup_delete_Some. destruct (H4 q y Hq) as (l & o & n & P & A & Q & K). exists l, o, n.
    split_and!; [done|intros j Hj; by apply A, Hdom| |apply K..].
    destruct n as [|j|j|j]; cbn [need_ok] in *; [done|..].
    1,2: intros z Hz; destruct (Hsets j z Hz) as (e & He & ->); destruct (undo_exact s p x j e I Hp He) as [U _];
      cbn [snd]; rewrite U, Hus; specialize (Q e He); lia.
    intros Hno Hj%Hdom. rewrite Hus, (Q Hno Hj).
    pose proof (total_member (fun x => sv Counter (adj_of j x)) (procs s) p x (fun q y Hq => proj1 (count_share s q y j I Hj Hq)) Hp) as T.
    pose proof (count_share s p x j I Hj Hp). specialize (Q Hno Hj). unfold users in Q. cbn beta in T. lia.
  - intros j z Hz. destruct (Hsets j z Hz) as (e & He & ->). destruct (undo_exact s p x j e I Hp He) as [U1 U2].
    destruct (H5 j e He) as (G1 & G2 & G3 & G4). unfold set_ok. cbn [snd]. rewrite U1, U2, Hus, Hls.
    pose proof (count_share s p x j I (ex_intro _ e He) Hp). pose proof (lock_share s p x j I (ex_intro _ e He) Hp). lia.
  - rewrite map_size_delete, Hp. simpl. lia.
Qed.

(** ** What the operation arrays do *)

Ltac ops := intros E; cbv [op_lock op_endcreate op_open op_close op_unlock op_op try_ops] in E;
  repeat (case_match; [discriminate|]); simplify_eq; cbn in *; bsimp; lia.

Lemma try_lock v a v' a' : try_ops v a op_lock = Proceeds v' a' ->
  sem_lock v = 0 /\ sem_lock v' = 1 /\ sem_lock a' = sem_lock a - 1 /\ sem_counter v' = sem_counter v /\ sem_counter a' = sem_counter a.
Proof. ops. Qed.
Lemma try_endcreate v a v' a' : try_ops v a op_endcreate = Proceeds v' a' ->
  0 <= sem_counter v' /\ sem_counter v' = sem_counter v - 1 /\ sem_counter a' = sem_counter a + 1 /\
  sem_lock v' = sem_lock v - 1 /\ sem_lock a' = sem_lock a + 1.
Proof. ops. Qed.
Lemma try_open v a v' a' : try_ops v a op_open = Proceeds v' a' ->
  0 <= sem_counter v' /\ sem_counter v' = sem_counter v - 1 /\ sem_counter a' = sem_counter a + 1 /\
  sem_lock v' = sem_lock v /\ sem_lock a' = sem_lock a.
Proof. ops. Qed.
Lemma try_close v a v' a' : try_ops v a op_close = Proceeds v' a' ->
  sem_lock v = 0 /\ sem_lock v' = 1 /\ sem_lock a' = sem_lock a - 1 /\ 0 <= sem_counter v' /\
  sem_counter v' = sem_counter v + 1 /\ sem_counter a' = sem_counter a - 1.
Proof. ops. Qed.
Lemma try_unlock v a v' a' : try_ops v a op_unlock = Proceeds v' a' ->
  sem_counter v' = sem_counter v /\ sem_counter a' = sem_counter a /\ sem_lock v' = sem_lock v - 1 /\ sem_lock a' = sem_lock a + 1.
Proof. ops. Qed.
Lemma try_value n v a v' a' : try_ops v a (op_op n) = Proceeds v' a' ->
  sem_counter v' = sem_counter v /\ sem_counter a' = sem_counter a /\ sem_lock v' = sem_lock v /\ sem_lock a' = sem_lock a.
Proof. ops. Qed.

(** ** Steps of a process *)

Lemma alter_some (f : proc -> proc) (m : gmap Z proc) p x : m !! p = Some x -> alter f p m = <[p := f x]> m.
Proof.
  intros Hp. apply map_eq. intros q. destruct (decide (p = q)) as [<-|N].
  - by rewrite lookup_alter_eq, Hp, lookup_insert_eq.
  - by rewrite lookup_alter_ne, lookup_insert_ne.
Qed.
Lemma settle_adj x : p_adj (settle x) = p_adj x.
Proof. unfold settle. by destruct (p_prog x), (p_call x). Qed.

(** The points with a system call: [P] is destructed into the cases of [Sys c k]. *)
Ltac point_cases P := let q := fresh "q" in let E := fresh "E" in
  match type of P with point _ ?ca ?he (Sys ?c ?k) _ _ _ =>
    remember (Sys c k) as q eqn:E; remember ca as ca' eqn:Eca; remember he as he' eqn:Ehe;
    destruct P as [held0 r0|c0 held0 e0 l0 o0|f key0 i|f key0 i id0|key0 i id0|key0 i id0|key0 i id0|key0 i id0|key0 Hno|key0 id0 Hno|id0|id0|id0|id0|n0 m0 id0|id0];
    try discriminate E;
    [destruct f; [discriminate E|]|..];
    try discriminate E; injection E; clear E; intros; subst
  end.

(** A failing call leaves the undo records; the process ends, tries again or returns. *)
Lemma error_point x c k l o n e : p_prog x = Sys c k -> point no (p_call x) (p_held x) (Sys c k) l o n ->
  let x' := settle (set_prog (k (inl e)) x) in point no (p_call x') (p_held x') (p_prog x') l o Nothing.
Proof.
  intros _ P. unfold settle, set_prog. cbn [p_prog p_call p_held p_adj].
  point_cases P; try (constructor; fail).
  destruct (e =? EINVAL_); [|constructor]. destruct f; [constructor|apply (pt_create no (S f))].
Qed.

Lemma resume_eq s p x k r : procs s !! p = Some x ->
  resume p k r s = Sysv (semsets s) (next_id s) (<[p := settle (set_prog (k r) x)]> (procs s)).
Proof. intros Hp. unfold resume. by rewrite (alter_some _ _ p x Hp). Qed.

Lemma run_error s p x c k e : sem_inv no s -> procs s !! p = Some x -> p_prog x = Sys c k -> sem_inv no (resume p k (inl e) s).
Proof.
  intros I Hp Hk. rewrite (resume_eq s p x _ _ Hp). apply (inv_prog s p x); [done..|by rewrite settle_adj|].
  intros l o n P A Q K1 K2. rewrite Hk in P. exists l, o, Nothing. split_and!; [|done..]. by apply (error_point x c k l o n e).
Qed.

Lemma run_semget s p x key b k id : sem_inv no s -> procs s !! p = Some x -> p_prog x = Sys (SemGet key b) k ->
  sem_inv no (resume p k (inr id) s).
Proof.
  intros I Hp Hk. rewrite (resume_eq s p x _ _ Hp). apply (inv_prog s p x); [done..|by rewrite settle_adj|].
  intros l o n P A Q K1 K2. rewrite Hk in P. unfold settle, set_prog. cbn [p_prog p_call p_held p_adj].
  point_cases P; exists None, None, Nothing; (split_and!; [|done..]); by constructor.
Qed.

Lemma run_getval s p x id m e k : sem_inv no s -> procs s !! p = Some x -> p_prog x = Sys (GetVal id m) k ->
  semsets s !! id = Some e -> sem_inv no (resume p k (inr (sv m e.2)) s).
Proof.
  intros I Hp Hk He. rewrite (resume_eq s p x _ _ Hp). apply (inv_prog s p x); [done..|by rewrite settle_adj|].
  intros l o n P A Q K1 K2. rewrite Hk in P. unfold settle, set_prog. cbn [p_prog p_call p_held p_adj].
  destruct (si_set no s I id e He) as (G1 & G2 & G3 & G4). pose proof (users_range s id I (ex_intro _ e He)) as U.
  point_cases P; cbn [sv].
  - destruct (sem_counter e.2 =? 0) eqn:E0; bsimp; exists (Some id), None; [exists (Uninit id)|exists (Inited id)]; cbn [need_ok];
      (split_and!; [constructor|done| |done|done]); intros z Hz; simplify_eq; unfold BIGCOUNT in *; lia.
  - destruct (BIGCOUNT <? sem_counter e.2) eqn:E1; [exists (Some id), None, Nothing; split_and!; [constructor|done..]|].
    destruct (sem_counter e.2 =? BIGCOUNT) eqn:E2; bsimp; exists (Some id), None; [exists (Unused id)|exists Nothing]; cbn [need_ok];
      (split_and!; [constructor|done| |done|done]); [|done]. intros _ _. unfold BIGCOUNT in *. lia.
Qed.

Lemma adj_alter m id j x : adj_of j (set_adj (alter (put3 m 0) id) x) = if decide (j = id) then put3 m 0 (adj_of id x) else adj_of j x.
Proof.
  unfold adj_of, set_adj. cbn [p_adj]. destruct (decide (j = id)) as [->|N].
  - rewrite lookup_alter_eq. destruct (p_adj x !! id); [done|by destruct m].
  - by rewrite lookup_alter_ne by done.
Qed.

(** [SETVAL] clears undo records that are 0 where it matters. *)
Lemma setval_records s p x id m n k : sem_inv no s -> procs s !! p = Some x -> p_prog x = Sys (SetVal id m n) k ->
  sem_inv no (Sysv (semsets s) (next_id s) (set_adj (alter (put3 m 0) id) <$> procs s)).
Proof.
  intros I Hp Hk. apply inv_records; [done|done|..].
  - intros q y j Hq Hj. apply (si_adj no s I q y j Hq). unfold set_adj in Hj. cbn [p_adj] in Hj.
    destruct (decide (id = j)) as [<-|N]; [rewrite lookup_alter_eq in Hj|by rewrite lookup_alter_ne in Hj].
    destruct (p_adj y !! id); [done|by destruct Hj].
  - intros q y j Hq Hj. rewrite adj_alter. destruct (decide (j = id)) as [->|]; [|done].
    destruct (si_proc no s I p x Hp) as (l & o & n0 & P & A & Q & K). rewrite Hk in P.
    enough (m = Value \/ m = Counter /\ users id (procs s) = 0) as [->|[-> U]]; [done| |].
    + pose proof (count_share s q y id I Hj Hq).
      pose proof (total_member (fun x => sv Counter (adj_of id x)) (procs s) q y (fun r z Hr => proj1 (count_share s r z id I Hj Hr)) Hq) as T.
      unfold users in U. cbn [sv put3 sem_lock sem_counter] in *. lia.
    + destruct Hj as [e He]. destruct (si_set no s I id e He) as (G1 & _). pose proof (users_range s id I (ex_intro _ e He)).
      point_cases P; [by left|right]. specialize (Q e He). split; [done|]. lia.
Qed.

Lemma run_setval s p x id m n e k : sem_inv no s -> procs s !! p = Some x -> p_prog x = Sys (SetVal id m n) k ->
  semsets s !! id = Some e ->
  sem_inv no (resume p k (inr 0) (Sysv (<[id := (e.1, put3 m n e.2)]> (semsets s)) (next_id s) (set_adj (alter (put3 m 0) id) <$> procs s))).
Proof.
  intros I Hp Hk He. set (g := set_adj (alter (put3 m 0) id)).
  pose proof (setval_records s p x id m n k I Hp Hk) as I2. fold g in I2.
  assert (Hg : (g <$> procs s) !! p = Some (g x)) by (by rewrite lookup_fmap, Hp).
  rewrite (resume_eq (Sysv (<[id := (e.1, put3 m n e.2)]> (semsets s)) (next_id s) (g <$> procs s)) p (g x) _ _ Hg). cbn [semsets next_id procs].
  destruct (si_proc no (Sysv (semsets s) (next_id s) (g <$> procs s)) I2 p (g x) Hg) as (l & o & n0 & P & A & Q & K1 & K2). cbn [semsets next_id procs] in *.
  assert (Hk' : p_prog (g x) = Sys (SetVal id m n) k) by done. rewrite Hk' in P.
  destruct (users_range (Sysv (semsets s) (next_id s) (g <$> procs s)) id I2 (ex_intro _ e He)) as [U1 U2].
  destruct (si_set no (Sysv (semsets s) (next_id s) (g <$> procs s)) I2 id e He) as (G1 & _). cbn [semsets next_id procs] in *.
  assert (l = Some id) as -> by (point_cases P; done).
  pose proof (inv_setval (Sysv (semsets s) (next_id s) (g <$> procs s)) p (g x) (settle (set_prog (k (inr 0)) (g x))) id e (put3 m n e.2) o) as X.
  cbn [semsets next_id procs] in X. apply X; clear X;
    [done|done|done|by rewrite settle_adj|done|by point_cases P|..]; unfold settle, set_prog; cbn [semsets next_id procs p_prog p_call p_held p_adj];
    point_cases P; cbn [put3 sem_counter].
  - by left.
  - right. specialize (Q e He). lia.
  - exists (Some id), None, (Uninit id). split_and!; [constructor|done| |done|done]. cbn [need_ok]. intros z Hz.
    rewrite lookup_insert_eq in Hz. simplify_eq. cbn [snd]. by apply (Q e).
  - exists (Some id), None, (Inited id). split_and!; [constructor|done| |done|done]. cbn [need_ok]. intros z Hz.
    rewrite lookup_insert_eq in Hz. simplify_eq. cbn [snd sem_counter]. specialize (Q e He). lia.
Qed.

Lemma run_rm s p x id k : sem_inv no s -> procs s !! p = Some x -> p_prog x = Sys (RmId id) k ->
  sem_inv no (resume p k (inr 0) (Sysv (delete id (semsets s)) (next_id s) (set_adj (delete id) <$> procs s))).
Proof.
  intros I Hp Hk. set (g := set_adj (delete id)). pose proof (inv_rm s id I) as I2. fold g in I2.
  assert (Hg : (g <$> procs s) !! p = Some (g x)) by (by rewrite lookup_fmap, Hp).
  rewrite (resume_eq (Sysv (delete id (semsets s)) (next_id s) (g <$> procs s)) p (g x) _ _ Hg). cbn [semsets next_id procs].
  pose proof (inv_prog (Sysv (delete id (semsets s)) (next_id s) (g <$> procs s)) p (g x) (settle (set_prog (k (inr 0)) (g x))) I2 Hg) as X.
  cbn [semsets next_id procs] in X. apply X; clear X; [by rewrite settle_adj|]. cbn [semsets next_id procs].
  intros l o n P A Q K1 K2. assert (Hk' : p_prog (g x) = Sys (RmId id) k) by done. rewrite Hk' in P.
  unfold settle, set_prog. cbn [p_prog p_call p_held p_adj].
  assert (Hout : forall l' o', adj_ok (delete id (semsets s)) (g x) l' o' -> (l' = None \/ l' = Some id) -> (o' = None \/ o' = Some id) ->
    adj_ok (delete id (semsets s)) (g x) None None).
  { intros l' o' A' Hl Ho j Hj. destruct (A' j Hj) as [-> ->]. apply lookup_delete_is_Some in Hj as [N _].
    destruct Hl as [->| ->], Ho as [->| ->]; rewrite ?(one_ne (Some id) j) by congruence; done. }
  point_cases P; exists None, None, Nothing; (split_and!; [constructor| |done..]); eapply Hout; eauto.
Qed.

Lemma adj_ok_insert sets x x' id a l o l' o' : adj_ok sets x l o -> p_adj x' = <[id := a]> (p_adj x) ->
  sem_lock a = - one l' id -> sem_counter a = one o' id ->
  (forall j, j <> id -> one l' j = one l j /\ one o' j = one o j) -> adj_ok sets x' l' o'.
Proof.
  intros A Ha E1 E2 Ho j Hj. unfold adj_of. rewrite Ha. destruct (decide (id = j)) as [<-|N].
  - by rewrite lookup_insert_eq.
  - rewrite lookup_insert_ne by done. destruct (Ho j) as [-> ->]; [done|]. by apply A.
Qed.

(** The end of a [semop]: its values, its undo record and the point reached. *)
Lemma semop_done s p x id e v a k l o l' o' : sem_inv no s -> procs s !! p = Some x -> semsets s !! id = Some e ->
  let x' := settle (set_prog (k (inr 0)) (set_adj (<[id := a]>) x)) in
  adj_ok (semsets s) x l o -> known (next_id s) o ->
  sem_counter v + sem_counter a = sem_counter e.2 + sem_counter (adj_of id x) ->
  sem_lock v + sem_lock a = sem_lock e.2 + sem_lock (adj_of id x) -> 0 <= sem_counter v -> sem_lock v <= 1 ->
  (sem_counter a = sem_counter (adj_of id x) \/ no <> true \/ l = Some id \/ sem_lock e.2 = 0) ->
  point no (p_call x') (p_held x') (p_prog x') l' o' Nothing -> (l' = l \/ l' = None \/ l' = Some id) -> (o' = o \/ o' = None \/ o' = Some id) ->
  sem_lock a = - one l' id -> sem_counter a = one o' id ->
  (forall j, j <> id -> one l' j = one l j /\ one o' j = one o j) ->
  known (next_id s) l ->
  sem_inv no (resume p k (inr 0) (Sysv (<[id := (e.1, v)]> (semsets s)) (next_id s) (<[p := set_adj (<[id := a]>) x]> (procs s)))).
Proof.
  intros I Hp He x' A Ko C1 C2 B1 B2 Hun P Hl Ho E1 E2 Hj Kl.
  rewrite (resume_eq (Sysv (<[id := (e.1, v)]> (semsets s)) (next_id s) (<[p := set_adj (<[id := a]>) x]> (procs s))) p (set_adj (<[id := a]>) x))
    by apply lookup_insert_eq. cbn [semsets next_id procs]. rewrite insert_insert_eq. fold x'.
  assert (Ha : p_adj x' = <[id := a]> (p_adj x)) by (unfold x'; by rewrite settle_adj).
  assert (Kid : id < next_id s) by (destruct (si_ids no s I id e He); done).
  apply (inv_semop s p x x' id e v a); [done..| |].
  - destruct Hun as [Hun|[Hun|[->|Hun]]]; [by left|by right; left|right; right..]; intros q y l1 o1 N Hq Ay.
    + intros ->. apply N. by apply (lock_unique s q p y x id o1 o I (ex_intro _ e He)).
    + by apply (lock_free s q y id e l1 o1 I He Hun Hq).
  - exists l', o', Nothing. split_and!; [done| |done| |].
    + by eapply adj_ok_insert.
    + destruct Hl as [->|[->| ->]]; [done|done|]. by intros j [= <-].
    + destruct Ho as [->|[->| ->]]; [done|done|]. by intros j [= <-].
Qed.

Lemma one_none id : one None id = 0.
Proof. done. Qed.

(** A [semop] that changes the lock and the set counted from [l], [o] to [l'], [o']. *)
Ltac moved H l o l' o' :=
  apply (H _ l o l' o'); try done; try lia; rewrite ?one_eq, ?one_none; try lia; auto;
  first
    [ intros j N; split; by rewrite ?one_ne by congruence
    | unfold settle, set_prog; cbn [p_prog p_call p_held p_adj set_adj];
      repeat match goal with E : _ = p_call _ |- _ => rewrite <- E; clear E | E : _ = p_held _ |- _ => rewrite <- E; clear E end;
      cbn [after_call p_prog p_call p_held];
      repeat match goal with |- context [?i <? 0] => bfalse (i <? 0) end; constructor ].

Lemma run_semop s p x id ops k e v a : sem_inv no s -> procs s !! p = Some x -> p_prog x = Sys (SemOp id ops) k ->
  semsets s !! id = Some e -> try_ops e.2 (adj_of id x) ops = Proceeds v a ->
  sem_inv no (resume p k (inr 0) (Sysv (<[id := (e.1, v)]> (semsets s)) (next_id s) (<[p := set_adj (<[id := a]>) x]> (procs s)))).
Proof.
  intros I Hp Hk He Ht. destruct (si_proc no s I p x Hp) as (l & o & n & P & A & Q & Kl & Ko). rewrite Hk in P.
  destruct (A id (ex_intro _ e He)) as [AL AC]. cbn [sv] in AL, AC.
  destruct (si_set no s I id e He) as (G1 & G2 & G3 & G4). destruct (si_ids no s I id e He) as [Kid _].
  point_cases P; rewrite ?one_eq, ?one_none in AL; rewrite ?one_eq, ?one_none in AC.
  - apply try_lock in Ht as (T1 & T2 & T3 & T4 & T5). moved (semop_done s p x id e v a) (@None Z) (@None Z) (Some id) (@None Z).
  - apply try_endcreate in Ht as (T1 & T2 & T3 & T4 & T5). moved (semop_done s p x id e v a) (Some id) (@None Z) (@None Z) (Some id).
  - apply try_open in Ht as (T1 & T2 & T3 & T4 & T5). moved (semop_done s p x id e v a) (@None Z) (@None Z) (@None Z) (Some id).
  - apply try_close in Ht as (T1 & T2 & T3 & T4 & T5 & T6). moved (semop_done s p x id e v a) (@None Z) (Some id) (Some id) (@None Z).
  - apply try_unlock in Ht as (T1 & T2 & T3 & T4). moved (semop_done s p x id e v a) (Some id) (@None Z) (@None Z) (@None Z).
  - apply try_value in Ht as (T1 & T2 & T3 & T4). moved (semop_done s p x id e v a) (@None Z) (Some id) (@None Z) (Some id).
Qed.

Lemma run_call s p x mni c k r s1 : sem_inv no s -> procs s !! p = Some x -> p_prog x = Sys c k ->
  do_call mni p c s = Some (r, s1) -> sem_inv no (resume p k r s1).
Proof.
  intros I Hp Hk E. destruct c as [key b|id ops|id m|id m n|id]; cbn [do_call] in E.
  - destruct (find_key key (semsets s)); [simplify_eq; by eapply run_semget|]. destruct (negb b); [simplify_eq; by eapply run_error|].
    destruct (_ <=? _)%nat; [simplify_eq; by eapply run_error|]. simplify_eq. eapply run_semget; [by apply inv_newset|done|done].
  - rewrite Hp in E. destruct (semsets s !! id) as [e|] eqn:He; [|simplify_eq; by eapply run_error].
    destruct (try_ops _ _ _) eqn:Ht; simplify_eq; [by eapply run_semop|by eapply run_error].
  - destruct (semsets s !! id) as [e|] eqn:He; simplify_eq; [by eapply run_getval|by eapply run_error].
  - destruct (semsets s !! id) as [e|] eqn:He; [|simplify_eq; by eapply run_error].
    destruct (_ || _); simplify_eq; [by eapply run_error|by eapply run_setval].
  - destruct (semsets s !! id) as [e|] eqn:He; simplify_eq; [by eapply run_rm|by eapply run_error].
Qed.

(** ** All actions *)

Definition allowed (a : action) : Prop := match a with Start _ (Open _) => no <> true | _ => True end.

Lemma start_point fuel c held q : start_prog fuel c held = Some q -> (forall key, c = Open key -> no <> true) ->
  exists l o, point no (Some c) held q l o Nothing /\ l = None /\ o = held \/
    exists r, q = Return r /\ after_call c r held = held.
Proof.
  intros E Hno. destruct c as [key i|key| |n|], held as [id|]; try discriminate E; simplify_eq/=.
  - unfold sem_create. exists None, None. destruct (key =? IPC_PRIVATE); [by right; exists (-1)|]. destruct (key =? -1); [by right; exists (-1)|].
    left. by split; [constructor|].
  - unfold sem_open. exists None, None. destruct (key =? IPC_PRIVATE); [by right; exists (-1)|]. destruct (key =? -1); [by right; exists (-1)|].
    left. split; [|done]. constructor. by apply (Hno key).
  - exists None, (Some id). left. by split; [constructor|].
  - exists None, (Some id). left. unfold sem_op. destruct (short n =? 0); by split; [constructor|].
  - exists None, (Some id). left. by split; [constructor|].
Qed.

Lemma inv_spawn s p : sem_inv no s -> procs s !! p = None -> Z.of_nat (size (procs s)) + 1 < BIGCOUNT ->
  sem_inv no (Sysv (semsets s) (next_id s) (<[p := Proc (Return 0) false ∅ None None]> (procs s))).
Proof.
  intros [H1 H2 H3 H4 H5 H6] Hp Hsz.
  assert (Hus : forall j, users j (<[p := Proc (Return 0) false ∅ None None]> (procs s)) = users j (procs s)).
  { intros j. unfold users. by rewrite total_new. }
  assert (Hls : forall j, lockers j (<[p := Proc (Return 0) false ∅ None None]> (procs s)) = lockers j (procs s)).
  { intros j. unfold lockers. by rewrite total_new. }
  split; cbn [semsets next_id procs]; [done..| | | |].
  - intros q y j [[<- <-]|[N Hq]]%lookup_insert_Some Hj; [by destruct Hj|by eapply H3].
  - intros q y [[<- <-]|[N Hq]]%lookup_insert_Some.
    + exists None, None, Nothing. split_and!; [constructor|done..].
    + destruct (H4 q y Hq) as (l & o & n & P & A & Q & K). exists l, o, n. split_and!; [done|done| |apply K..].
      destruct n; cbn [need_ok] in *; rewrite ?Hus; done.
  - intros j z Hz. unfold set_ok. rewrite Hus, Hls. by apply H5.
  - rewrite map_size_insert_None by done. lia.
Qed.

Lemma inv_start s p x c fuel q : sem_inv no s -> procs s !! p = Some x -> (exists r, p_prog x = Return r) -> p_call x = None ->
  start_prog fuel c (p_held x) = Some q -> (forall key, c = Open key -> no <> true) ->
  sem_inv no (Sysv (semsets s) (next_id s) (<[p := settle (Proc q false (p_adj x) (Some c) (p_held x))]> (procs s))).
Proof.
  intros I Hp [r0 Hr] Hc Hq Hno. apply (inv_prog s p x); [done..|by rewrite settle_adj|].
  intros l o n P A Q K1 K2. rewrite Hr, Hc in P.
  assert (l = None /\ o = p_held x) as [-> ->] by (remember (Return r0) as q0 eqn:E0; remember None as c0 eqn:Ec0; destruct P; try done; by destruct f).
  destruct (start_point fuel c (p_held x) q Hq Hno) as (l' & o' & [(P' & -> & ->)|(r & -> & Hh)]).
  - exists None, (p_held x). destruct q as [r|e|c0 k0].
    + exists Nothing. split_and!; [|done..]. unfold settle. cbn [p_prog p_call p_held].
      remember (Return r) as q0 eqn:E0. remember (Some c) as c0 eqn:E1. destruct P'; try discriminate; by destruct f.
    + exists Nothing. by split_and!.
    + exists Nothing. by split_and!.
  - exists None, (p_held x), Nothing. split_and!; [|done..]. unfold settle. cbn [p_prog p_call p_held]. rewrite Hh. constructor.
Qed.

Lemma step_inv mni fuel a s s' : sem_inv no s -> allowed a -> step mni fuel a s = Some s' -> sem_inv no s'.
Proof.
  intros I Al E. destruct a as [p|p c|p|p|p]; cbn [step] in E.
  - destruct (decide _) as [[Hp Hsz]|]; [|done]. simplify_eq. by apply inv_spawn.
  - apply bind_Some in E as (x & Hp & E). destruct (p_prog x) as [r| |] eqn:Hr; [|done..]. destruct (p_call x) eqn:Hc; [done|].
    apply bind_Some in E as (q & Hq & E). simplify_eq. eapply inv_start; try done; [by exists r|]. by intros key ->.
  - apply bind_Some in E as (x & Hp & E). destruct (p_prog x) as [| |c k] eqn:Hk; [done..|].
    assert (Hcall : forall rs, do_call mni p c s = Some rs -> sem_inv no (resume p k rs.1 rs.2)).
    { intros [r s1] Hd. by eapply run_call. }
    destruct c as [key b|id ops|id m|id m n|id];
      [apply bind_Some in E as (rs & Hd & E); simplify_eq; by apply Hcall| |apply bind_Some in E as (rs & Hd & E); simplify_eq; by apply Hcall..].
    destruct (_ && _); [simplify_eq; by eapply run_error|].
    destruct (do_call _ _ _ _) as [[r s1]|]; [simplify_eq; by apply (Hcall (r, s1))|]. destruct (p_asleep x); [done|]. simplify_eq.
    apply (inv_prog s p x); [done..|]. intros l o n P A Q K1 K2. by exists l, o, n.
  - apply bind_Some in E as (x & Hp & E). destruct (p_prog x) as [| |c k] eqn:Hk; [done..|]. destruct (p_asleep x); [|done].
    simplify_eq. by eapply run_error.
  - apply bind_Some in E as (x & Hp & E). simplify_eq. by apply inv_die.
Qed.

Lemma exec_inv mni fuel acts s s' : Forall allowed acts -> sem_inv no s -> exec mni fuel acts s = Some s' -> sem_inv no s'.
Proof.
  intros F. revert s. induction F as [|a acts Ha F IH]; intros s I E; cbn [exec] in E; [by simplify_eq|].
  apply bind_Some in E as (s1 & E1 & E). apply (IH s1); [|done]. by eapply step_inv.
Qed.
Lemma sys0_inv : sem_inv no sys0.
Proof. split; cbn; try done; intros; by (rewrite lookup_empty in * || done). Qed.
End Invariant.
