(* ===== verification/SemaphTheorems.v ===== *)
(** The theorems about the semaphore routines of [src/apue2e/lib/semaph.c]. *)
From S2P Require Import Prelude Semaph SemaphInv.

(** The next step of a process is one that [sem_create] and [sem_close] take with the
    lock of set [id] held. *)
Definition in_section (id : Z) (x : proc) : Prop :=
  match p_prog x with
  | Sys (GetVal j _) _ | Sys (SetVal j _ _) _ => j = id
  | Sys (SemOp j ops) _ => j = id /\ (ops = op_endcreate \/ ops = op_unlock)
  | Sys (RmId j) _ => j = id /\ p_call x = Some Close
  | _ => False
  end.

Lemma section_lock no c h q l o n b a id :
  point no c h q l o n -> in_section id (Proc q b a c h) -> l = Some id.
Proof.
  intros P. unfold in_section. cbn [p_prog p_call].
  destruct P as [| |f|f| | | | | | | | | | | |]; try destruct f; cbn; try done; try (by intros ->);
    intros [-> HX]; try done; by destruct HX as [HX|HX].
Qed.

(** At rest a process is counted exactly for the semaphore it has open. *)
Lemma rest_counted no s p x id : sem_inv no s -> procs s !! p = Some x -> is_Some (semsets s !! id) ->
  p_call x = None -> (exists r, p_prog x = Return r) -> sem_counter (adj_of id x) = one (p_held x) id.
Proof.
  intros I Hp Hid Hc [r Hr]. destruct (si_proc no s I p x Hp) as (l & o & n & P & A & _). rewrite Hr, Hc in P.
  assert (o = p_held x) as -> by (remember (Return r) as q eqn:E; remember None as c eqn:Ec; destruct P; try done; by destruct f).
  apply (A id Hid).
Qed.

(** C14: for every number of processes, every interleaving of their calls and every
    moment of death of each of them: at most one process is between taking and releasing
    the lock of a set, and the counter of a set is 0 as long as the set is not
    initialised, and afterwards BIGCOUNT less the number of processes that have the
    semaphore open, dead ones not counted. *)
Theorem semaphore_counts_users mni fuel acts s id key v :
  exec mni fuel acts sys0 = Some s -> semsets s !! id = Some (key, v) ->
  (forall p q x y, procs s !! p = Some x -> procs s !! q = Some y -> in_section id x -> in_section id y -> p = q) /\
  (sem_counter v = 0 /\ users id (procs s) = 0 \/ sem_counter v = BIGCOUNT - users id (procs s)) /\
  (forall p x, procs s !! p = Some x -> p_call x = None -> (exists r, p_prog x = Return r) ->
     sem_counter (adj_of id x) = one (p_held x) id).
Proof.
  intros E Hid. assert (I : sem_inv false s).
  { apply (exec_inv false mni fuel acts sys0 s); [|apply sys0_inv|done]. apply Forall_true. by intros [|? []| | |]. }
  assert (Hs : is_Some (semsets s !! id)) by (by exists (key, v)). split_and!.
  - intros p q x y Hp Hq Sx Sy. destruct (si_proc false s I p x Hp) as (l & o & n & P & A & _).
    destruct (si_proc false s I q y Hq) as (l' & o' & n' & P' & A' & _). destruct x as [qx bx ax cx hx], y as [qy by_ ay cy hy].
    pose proof (section_lock _ _ _ _ _ _ _ _ _ _ P Sx) as ->. pose proof (section_lock _ _ _ _ _ _ _ _ _ _ P' Sy) as ->.
    by apply (lock_unique false s p q _ _ id o o' I Hs Hp Hq).
  - destruct (si_set false s I id _ Hid) as (G1 & _ & _ & G4). cbn [snd] in *. pose proof (users_range false s id I Hs). lia.
  - intros p x Hp Hc Hr. by apply (rest_counted false s p).
Qed.

(** If no process uses [sem_open], a process that is about to remove a set in
    [sem_close] is right: nobody has that semaphore open. *)
Theorem close_removes_unused mni fuel acts s p x id :
  exec mni fuel acts sys0 = Some s -> Forall (allowed true) acts ->
  procs s !! p = Some x -> p_call x = Some Close -> p_prog x = sem_rm id -> is_Some (semsets s !! id) ->
  users id (procs s) = 0 /\
  forall q y, procs s !! q = Some y -> p_call y = None -> (exists r, p_prog y = Return r) -> p_held y <> Some id.
Proof.
  intros E F Hp Hc Hr Hid. pose proof (exec_inv true mni fuel acts sys0 s F (sys0_inv true) E) as I.
  assert (U : users id (procs s) = 0).
  { destruct (si_proc true s I p x Hp) as (l & o & n & P & A & Q & _). rewrite Hc, Hr in P.
    remember (sem_rm id) as q eqn:Eq. remember (Some Close) as c eqn:Ec. destruct P; try discriminate.
    injection Eq as <-. by apply Q. }
  split; [done|]. intros q y Hq Hcq Hrq Hh. pose proof (rest_counted true s q y id I Hq Hid Hcq Hrq) as Ey. rewrite Hh, one_eq in Ey.
  pose proof (total_member (fun x => sv Counter (adj_of id x)) (procs s) q y
    (fun r z Hz => proj1 (count_share true s r z id I Hid Hz)) Hq) as T. unfold users in U. cbn beta in T. cbn [sv] in *. lia.
Qed.

(** Two races that the code does not handle.  A process that sleeps in [sem_create]
    while the last user closes the semaphore gets [EIDRM] and dies, since only [EINVAL]
    makes it try again.  And with [sem_open], which takes no lock, the last user can
    remove a set that another process has opened in the meantime. *)
Theorem semaphore_races :
  (exists acts s x, exec 10 5 acts sys0 = Some s /\ Forall (allowed true) acts /\
     procs s !! 2 = Some x /\ p_prog x = Fatal (Err_sys "can't lock")) /\
  (exists acts s x, exec 10 5 acts sys0 = Some s /\
     procs s !! 2 = Some x /\ p_prog x = Return 1 /\ p_held x = Some 1 /\ semsets s !! 1 = None).
Proof.
  split.
  - exists ([Spawn 1; Start 1 (Create 7 3)] ++ replicate 6 (Run 1) ++ [Start 1 Close; Run 1; Spawn 2; Start 2 (Create 7 3)] ++ [Run 2; Run 2; Run 1; Run 1; Run 2]).
    eexists _, _. split; [vm_compute; reflexivity|]. split; [|split; vm_compute; reflexivity]. by repeat constructor.
  - exists ([Spawn 1; Start 1 (Create 7 3)] ++ replicate 6 (Run 1) ++ [Start 1 Close; Run 1; Run 1; Spawn 2; Start 2 (Open 7); Run 2; Run 2; Run 1]).
    eexists _, _. split; [vm_compute; reflexivity|]. split_and!; vm_compute; reflexivity.
Qed.

(** ** Witnesses *)

(** Two processes create the semaphore, one of them dies, the other one uses it. *)
Definition demo_acts : list action :=
  [Spawn 1; Start 1 (Create 7 3)] ++ replicate 6 (Run 1) ++ [Spawn 2; Start 2 (Create 7 3)] ++ replicate 4 (Run 2) ++ [Start 1 (Op (-1)); Run 1; Die 2].

Lemma semaphore_counts_users_witness :
  exists s v, exec 10 5 demo_acts sys0 = Some s /\ semsets s !! 1 = Some (7, v) /\ sem_value v = 2 /\ sem_counter v = 9999 /\
    (sem_counter v = 0 /\ users 1 (procs s) = 0 \/ sem_counter v = BIGCOUNT - users 1 (procs s)).
Proof.
  destruct (exec 10 5 demo_acts sys0) as [s|] eqn:E; [|vm_compute in E; discriminate].
  destruct (semsets s !! 1) as [[k v]|] eqn:Ev; [|vm_compute in E; injection E as <-; vm_compute in Ev; discriminate].
  assert (k = 7 /\ sem_value v = 2 /\ sem_counter v = 9999) as (-> & V1 & V2)
    by (vm_compute in E; injection E as <-; vm_compute in Ev; injection Ev as <- <-; done).
  exists s, v. split_and!; [done..|]. apply (semaphore_counts_users 10 5 demo_acts s 1 7 v E Ev).
Defined.

Definition close_acts : list action :=
  [Spawn 1; Start 1 (Create 7 3)] ++ replicate 6 (Run 1) ++ [Start 1 Close; Run 1; Run 1].

Lemma close_removes_unused_witness :
  exists s x, exec 10 5 close_acts sys0 = Some s /\ procs s !! 1 = Some x /\ p_prog x = sem_rm 1 /\ users 1 (procs s) = 0.
Proof.
  destruct (exec 10 5 close_acts sys0) as [s|] eqn:E; [|vm_compute in E; discriminate].
  assert (F : Forall (allowed true) close_acts) by (unfold close_acts; by repeat constructor).
  destruct (procs s !! 1) as [x|] eqn:Ex; [|vm_compute in E; injection E as <-; vm_compute in Ex; discriminate].
  assert (p_call x = Some Close /\ p_prog x = sem_rm 1 /\ is_Some (semsets s !! 1)) as (X1 & X2 & X3)
    by (vm_compute in E; injection E as <-; vm_compute in Ex; injection Ex as <-; split_and!; [done..|eexists; vm_compute; reflexivity]).
  exists s, x. split_and!; [done..|]. apply (close_removes_unused 10 5 close_acts s 1 x 1 E F Ex X1 X2 X3).
Defined.
