(* ===== verification/FdPass.v ===== *)
(** Passing descriptors over a stream pipe: [send_fd], [send_err] and [recv_fd] of
    [src/apue2e/lib/sendfd.c], [senderr.c] and [recvfd.c].  A message text may come
    first; the end is a null byte and a status byte, and status 0 brings a descriptor. *)
From S2P Require Import Prelude CStr ReadN.

Definition MAXLINE : Z := 4096.

(** What one [recvmsg] delivers. *)
Inductive received :=
  | RecvFails
  | RecvEof
  | Recv (data : list Z) (passed : option Z).   (* passed: a descriptor in the control data *)

(** ** Sending *)

Section Send.
Context {S : Type}.
(** [sendmsg(fd, &msg, 0)] with the bytes and the descriptor to pass; [write(fd, ...)]. *)
Context (sendmsg : Z -> list Z -> option Z -> M S Z) (write : Z -> list Z -> M S Z) (malloc_ok : bool).

(** [buf[1]] is a [char]. *)
Definition status_byte (fd_to_send : Z) : Z :=
  let b := (- fd_to_send) mod 256 in if b =? 0 then 1 else b.

Definition send_fd (fd fd_to_send : Z) : M S Z :=
  if fd_to_send <? 0 then
    n ← sendmsg fd [0; status_byte fd_to_send] None;
    mret (if n =? 2 then 0 else -1)
  else if negb malloc_ok then mret (-1) else
    n ← sendmsg fd [0; 0] (Some fd_to_send);
    mret (if n =? 2 then 0 else -1).

Definition send_err (fd errcode : Z) (msg : list Z) : M S Z :=
  let n := Z.of_nat (length msg) in
  let last : M S Z :=
    r ← send_fd fd (if 0 <=? errcode then -1 else errcode);
    mret (if r <? 0 then -1 else 0) in
  if 0 <? n then
    w ← writen (write fd) msg;
    if negb (w =? n) then mret (-1) else last
  else last.
End Send.

(** ** Receiving *)

(** The scan of a buffer for the null byte, which must be the last but one. *)
Inductive scan_result := Text | Final (text : list Z) (status : Z) | Malformed.
Fixpoint scan_buf (seen buf : list Z) : scan_result :=
  match buf with
  | [] => Text
  | c :: buf' =>
      if c =? 0 then
        match buf' with
        | [st] => Final seen (st mod 256)
        | _ => Malformed
        end
      else scan_buf (seen ++ [c]) buf'
  end.

Section Receive.
Context {S : Type}.
Context (recvmsg : M S received) (userfunc : list Z -> M S Z) (malloc_ok : bool).

(** [nr > 0 && ( *userfunc)(STDERR_FILENO, buf, nr) != nr] *)
Definition user_fails (buf : list Z) : M S bool :=
  match buf with
  | [] => mret false
  | _ => w ← userfunc buf; mret (negb (w =? Z.of_nat (length buf)))
  end.

(** Every turn takes one message: the fuel bounds their number. *)
Fixpoint recv_fd (fuel : nat) : M S Z :=
  match fuel with
  | O => die Loops
  | Datatypes.S f =>
      if negb malloc_ok then mret (-1) else
      r ← recvmsg;
      match r with
      | RecvFails => die (Err_sys "recvmsg error")
      | RecvEof => mret (-1)
      | Recv buf passed =>
          match scan_buf [] buf with
          | Malformed => die (Err_dump "message format error")
          | Text =>
              bad ← user_fails buf;
              if bad : bool then mret (-1) else recv_fd f
          | Final text status =>
              newfd ← (if status =? 0 then
                         match passed with
                         | None => die (Err_dump "status = 0 but no fd")
                         | Some fd => mret fd
                         end
                       else mret (- status) : M S Z);
              bad ← user_fails text;
              if bad : bool then mret (-1) else mret newfd
          end
      end
  end.
End Receive.

(** ** A pipe *)

(** Both ends as one state: what was sent, and how [recvmsg] will cut it. *)
Record pipe := Pipe { p_sent : list (list Z * option Z); p_in : list received; p_user : list Z }.

Definition pipe_sendmsg (fd : Z) (bs : list Z) (d : option Z) : M pipe Z := fun s =>
  Ret (Z.of_nat (length bs)) (Pipe (p_sent s ++ [(bs, d)]) (p_in s) (p_user s)).
Definition pipe_write (fd : Z) (bs : list Z) : M pipe Z := pipe_sendmsg fd bs None.
Definition pipe_recvmsg : M pipe received := fun s =>
  match p_in s with
  | [] => Ret RecvEof s
  | r :: l => Ret r (Pipe (p_sent s) l (p_user s))
  end.
Definition pipe_user (bs : list Z) : M pipe Z := fun s =>
  Ret (Z.of_nat (length bs)) (Pipe (p_sent s) (p_in s) (p_user s ++ bs)).

(** The bytes sent and the descriptor passed last. *)
Definition sent_bytes (s : pipe) : list Z := concat (map fst (p_sent s)).
Definition sent_fd (s : pipe) : option Z := match last (p_sent s) with Some (_, d) => d | None => None end.

(** A stream delivers the bytes in order, cut anywhere into parts that are not empty and fit the
    buffer of [recv_fd].  The descriptor comes with the first byte of the message it was sent with. *)
Definition before_last (s : pipe) : nat := length (concat (map fst (removelast (p_sent s)))).
Fixpoint deliver (skip : nat) (d : option Z) (parts : list (list Z)) : list received :=
  match parts with
  | [] => []
  | b :: ps =>
      if (skip <? length b)%nat then Recv b d :: map (fun b => Recv b None) ps
      else Recv b None :: deliver (skip - length b) d ps
  end.
Definition fits_buf (b : list Z) : Prop := b <> [] /\ Z.of_nat (length b) <= MAXLINE.
Definition delivers (s : pipe) (l : list received) : Prop :=
  exists parts, l = deliver (before_last s) (sent_fd s) parts /\ Forall fits_buf parts /\ concat parts = sent_bytes s.
(** The stream was cut between the null byte and the status byte. *)
Definition cut_status (l : list received) : bool :=
  match last l with Some (Recv [_] _) => true | _ => false end.

Lemma scan_text seen t : nonul t -> scan_buf seen t = Text.
Proof.
  intros F. revert seen. induction F as [|c t Hc F IH]; intros seen; [done|]. simpl. bfalse (c =? 0). apply IH.
Qed.
Lemma scan_final seen t st : nonul t -> scan_buf seen (t ++ [0; st]) = Final (seen ++ t) (st mod 256).
Proof.
  intros F. revert seen. induction F as [|c t Hc F IH]; intros seen; simpl; [by rewrite app_nil_r|].
  bfalse (c =? 0). by rewrite IH, <- app_assoc.
Qed.

Lemma user_ok bs s : user_fails pipe_user bs s = Ret false (Pipe (p_sent s) (p_in s) (p_user s ++ bs)).
Proof.
  destruct bs as [|c bs]; [destruct s; simpl; by rewrite app_nil_r|]. cbn [user_fails]. unfold mbind, M_bind, pipe_user.
  unfold mret, M_ret. by btrue (Z.of_nat (length (c :: bs)) =? Z.of_nat (length (c :: bs))).
Qed.

Lemma scan_cut seen t : nonul t -> scan_buf seen (t ++ [0]) = Malformed.
Proof. intros F. revert seen. induction F as [|c t Hc F IH]; intros seen; [done|]. simpl. bfalse (c =? 0). apply IH. Qed.

(** The first part of what is delivered, against the text [msg], the null byte and the status. *)
Lemma first_part b ps msg (st : Z) : b <> [] -> Forall fits_buf ps -> b ++ concat ps = msg ++ [0; st] ->
  (exists msg', msg = b ++ msg' /\ concat ps = msg' ++ [0; st]) \/
  (b = msg ++ [0] /\ ps = [[st]]) \/ (b = msg ++ [0; st] /\ ps = []).
Proof.
  intros Hb F E. destruct (decide (length b <= length msg)%nat) as [Hl|Hl].
  - left. exists (drop (length b) msg). assert (Hp : b = take (length b) msg).
    { apply (f_equal (take (length b))) in E. by rewrite take_app_length, take_app_le in E by lia. }
    split; [rewrite Hp at 1; by rewrite take_drop|]. apply (f_equal (drop (length b))) in E. by rewrite drop_app_length, drop_app_le in E by lia.
  - right. apply app_eq_inv in E as [(k & -> & E) | (k & -> & E)]; [|exfalso; rewrite length_app in Hl; lia].
    destruct k as [|x k]; [rewrite app_nil_r in Hl; lia|]. injection E as <- E. destruct k as [|y k].
    + left. split; [done|]. destruct ps as [|q ps]; [done|]. apply Forall_cons in F as [[Hq _] F]. destruct q as [|y q]; [done|].
      injection E as <- E. symmetry in E. apply app_eq_nil in E as [-> E]. destruct ps as [|q ps]; [done|]. exfalso.
      apply Forall_cons in F as [[Hq' _] _]. cbn in E. by apply app_eq_nil in E as [-> _].
    + right. injection E as <- E. symmetry in E. apply app_eq_nil in E as [-> E]. split; [done|]. destruct ps as [|q ps]; [done|]. exfalso.
      apply Forall_cons in F as [[Hq' _] _]. cbn in E. by apply app_eq_nil in E as [-> _].
Qed.

Lemma deliver_nonempty skip d parts : parts <> [] -> deliver skip d parts <> [].
Proof. destruct parts as [|b ps]; [done|]. cbn [deliver]. by case_match. Qed.
Lemma cut_status_cons r l : l <> [] -> cut_status (r :: l) = cut_status l.
Proof. destruct l as [|r' l]; [done|]. done. Qed.

Lemma recv_text b l f snt user : nonul b ->
  recv_fd pipe_recvmsg pipe_user true (S f) (Pipe snt (Recv b None :: l) user) = recv_fd pipe_recvmsg pipe_user true f (Pipe snt l (user ++ b)).
Proof.
  intros Hb. cbn [recv_fd negb]. unfold mbind at 1, M_bind at 1, pipe_recvmsg at 1. cbn [p_in]. rewrite scan_text by done.
  by rewrite (bind_ret _ _ _ _ _ (user_ok _ _)).
Qed.
(** Receiving text, null byte and status, however cut. *)
Lemma recv_parts parts msg st d fuel snt user : (length parts <= fuel)%nat -> Forall fits_buf parts -> nonul msg ->
  concat parts = msg ++ [0; st] -> (st mod 256 = 0 -> is_Some d) ->
  let l := deliver (length msg) d parts in
  let x := recv_fd pipe_recvmsg pipe_user true fuel (Pipe snt l user) in
  if cut_status l then exists s', x = Exit (Err_dump "message format error") s'
  else x = Ret (if st mod 256 =? 0 then default 0 d else - (st mod 256)) (Pipe snt [] (user ++ msg)).
Proof.
  revert msg fuel user. induction parts as [|b ps IH]; intros msg fuel user Hf F Hm Hc Hd; [by destruct msg|].
  destruct fuel as [|f]; [cbn in Hf; lia|]. apply Forall_cons in F as [Hb F]. cbn zeta. cbn [concat] in Hc. cbn [length] in Hf.
  destruct (first_part b ps msg st (proj1 Hb) F Hc) as [(msg' & -> & Hc')|[[-> ->]|[-> ->]]]; cbn [deliver].
  - apply nonul_app in Hm as [Hb' Hm]. rewrite (proj2 (Nat.ltb_ge _ _)) by (rewrite length_app; lia).
    replace (length (b ++ msg') - length b)%nat with (length msg') by (rewrite length_app; lia).
    rewrite cut_status_cons by (apply deliver_nonempty; intros ->; apply (f_equal length) in Hc'; rewrite length_app in Hc'; cbn in Hc'; lia).
    specialize (IH msg' f (user ++ b) ltac:(lia) F Hm Hc' Hd). cbn zeta in IH.
    rewrite recv_text by done. by rewrite app_assoc.
  - rewrite (proj2 (Nat.ltb_lt _ _)) by (rewrite length_app; cbn; lia). cbn [map]. change (cut_status _) with true. cbn iota.
    cbn [recv_fd negb]. unfold mbind at 1, M_bind at 1, pipe_recvmsg at 1. cbn [p_in]. rewrite scan_cut by done. by eexists.
  - rewrite (proj2 (Nat.ltb_lt _ _)) by (rewrite length_app; cbn; lia). cbn [map].
    assert (Hcut : cut_status [Recv (msg ++ [0; st]) d] = false) by (by destruct msg as [|? [|? ?]]). rewrite Hcut.
    cbn [recv_fd negb]. unfold mbind at 1, M_bind at 1, pipe_recvmsg at 1. cbn [p_in]. rewrite scan_final by done. destruct (st mod 256 =? 0) eqn:E.
    + destruct Hd as [fd ->]; [lia|]. by rewrite bind_mret, (bind_ret _ _ _ _ _ (user_ok _ _)).
    + by rewrite bind_mret, (bind_ret _ _ _ _ _ (user_ok _ _)).
Qed.

(** *** Sending into it *)

Definition pipe_app (bs : list Z) (d : option Z) (s : pipe) : pipe := Pipe (p_sent s ++ [(bs, d)]) (p_in s) (p_user s).
Lemma sent_app bs d s : sent_bytes (pipe_app bs d s) = sent_bytes s ++ bs.
Proof. unfold sent_bytes, pipe_app. cbn [p_sent]. rewrite map_app, concat_app. simpl. by rewrite app_nil_r. Qed.
Lemma sent_fd_app bs d s : sent_fd (pipe_app bs d s) = d.
Proof. unfold sent_fd, pipe_app. cbn [p_sent]. by rewrite last_snoc. Qed.

Lemma before_last_app bs d s : before_last (pipe_app bs d s) = length (sent_bytes s).
Proof. unfold before_last, pipe_app, sent_bytes. cbn [p_sent]. by rewrite removelast_last. Qed.

Lemma status_byte_range n : 0 < status_byte n < 256.
Proof. unfold status_byte. pose proof (Z.mod_pos_bound (- n) 256 ltac:(lia)). destruct (_ =? 0) eqn:E; bsimp; lia. Qed.
Lemma status_byte_ok n : 0 < n < 256 -> status_byte (- n) = n.
Proof. intros Hn. unfold status_byte. rewrite Z.opp_involutive, Z.mod_small by lia. by bfalse (n =? 0). Qed.

(** What [recv_fd] makes of a delivery whose bytes are a text, a null byte and a status. *)
Definition recv_result (l : list received) (x : outcome pipe Z) (r : Z) (s : pipe) : Prop :=
  if cut_status l then exists s', x = Exit (Err_dump "message format error") s' else x = Ret r s.

Lemma recv_delivered s msg st l fuel user : sent_bytes s = msg ++ [0; st] -> before_last s = length msg -> nonul msg -> 0 <= st < 256 ->
  (st = 0 -> is_Some (sent_fd s)) -> delivers s l -> (length l <= fuel)%nat ->
  recv_result l (recv_fd pipe_recvmsg pipe_user true fuel (Pipe (p_sent s) l user))
    (if st =? 0 then default 0 (sent_fd s) else - st) (Pipe (p_sent s) [] (user ++ msg)).
Proof.
  intros Hb Hl Hm Hst Hd (parts & -> & F & Hc) Hf. rewrite Hb in Hc. rewrite Hl in *.
  assert (Hst' : st mod 256 = st) by (by apply Z.mod_small). assert (Hlen : forall k d, length (deliver k d parts) = length parts).
  { clear. intros k. revert k. induction parts as [|b ps IH]; intros k d; [done|]. cbn [deliver]. case_match; cbn [length]; [by rewrite length_map|by rewrite IH]. }
  rewrite Hlen in Hf. pose proof (recv_parts parts msg st (sent_fd s) fuel (p_sent s) user Hf F Hm Hc ltac:(by rewrite Hst')) as H.
  cbn zeta in H. by rewrite Hst' in H.
Qed.

(** [send_err] replaces a code that is not negative. *)
Definition err_status (err : Z) : Z := status_byte (if 0 <=? err then -1 else err).
Lemma send_err_pipe sock err msg s :
  send_err pipe_sendmsg pipe_write true sock err msg s =
  Ret 0 (pipe_app [0; err_status err] None (match msg with [] => s | _ => pipe_app msg None s end)).
Proof.
  set (s1 := match msg with [] => s | _ => _ end).
  assert (Hlast : (r ← send_fd pipe_sendmsg true sock (if 0 <=? err then -1 else err); mret (if r <? 0 then -1 else 0)) s1 =
    Ret 0 (pipe_app [0; err_status err] None s1)).
  { unfold send_fd. rewrite (proj2 (Z.ltb_lt _ _)) by (destruct (0 <=? err) eqn:E; bsimp; lia). done. }
  unfold send_err. destruct msg as [|c msg]; [exact Hlast|]. set (m := c :: msg) in *.
  assert (Hm : 0 < Z.of_nat (length m)) by (unfold m; cbn [length]; lia). btrue (0 <? Z.of_nat (length m)).
  assert (Hw : writen (pipe_write sock) m s = Ret (Z.of_nat (length m)) s1) by (by apply writen_once).
  rewrite (bind_ret _ _ _ _ _ Hw), Z.eqb_refl. exact Hlast.
Qed.
Lemma err_status_code err : - err_status err =
  if 0 <=? err then -1 else if -256 <? err then err else if (- err) mod 256 =? 0 then -1 else - ((- err) mod 256).
Proof.
  unfold err_status. destruct (0 <=? err) eqn:E0; bsimp; [done|]. destruct (-256 <? err) eqn:E1; bsimp.
  - rewrite <- (Z.opp_involutive err) at 1. rewrite status_byte_ok; lia.
  - unfold status_byte. by case_match.
Qed.
