(* ===== verification/CallArgs.v ===== *)
(** Command lines between the programs [call] and [calld]: [buf_args] of
    [src/apue2e/lib/bufargs.c], [cli_args] of [src/apue2e/calld/cliargs.c], and the
    building of the request in [src/apue2e/call/main.c] and [call.c]. *)
From S2P Require Import Prelude CStr FdPass.

(** ** The C library *)

(** [strtok]: skip delimiters, take a token, drop the delimiter after it. *)
Fixpoint skip_delims (d : Z -> bool) (s : list Z) : list Z :=
  match s with
  | c :: s' => if d c then skip_delims d s' else s
  | [] => []
  end.
Fixpoint span_token (d : Z -> bool) (s : list Z) : list Z * list Z :=
  match s with
  | c :: s' => if d c then ([], s') else let '(t, r) := span_token d s' in (c :: t, r)
  | [] => ([], [])
  end.
Definition strtok (d : Z -> bool) (s : list Z) : option (list Z * list Z) :=
  match skip_delims d s with
  | [] => None
  | s' => Some (span_token d s')
  end.
(** The string [WHITE]. *)
Definition white (c : Z) : bool := (c =? 32) || (c =? 9) || (c =? 10).

(** [getopt] with the option string ["des:o"]: the options up to the first operand, as
    POSIX has it, and the operands. *)
Inductive optres := Opt (c : Z) | OptArg (c : Z) (arg : list Z) | BadOpt (c : Z).
Definition flag_opt (c : Z) : bool := (c =? 100) || (c =? 101) || (c =? 111).   (* d e o *)
Definition arg_opt (c : Z) : bool := c =? 115.                                 (* s *)
Fixpoint getopt_chars (cs : list Z) (next : list (list Z)) : list optres * list (list Z) :=
  match cs with
  | [] => ([], next)
  | c :: cs' =>
      if arg_opt c then
        match cs', next with
        | _ :: _, _ => ([OptArg c cs'], next)
        | [], a :: next' => ([OptArg c a], next')
        | [], [] => ([BadOpt c], [])
        end
      else
        let '(l, r) := getopt_chars cs' next in
        ((if flag_opt c then Opt c else BadOpt c) :: l, r)
  end.
Fixpoint getopt (fuel : nat) (argv : list (list Z)) : list optres * list (list Z) :=
  match fuel, argv with
  | S f, (45 :: c :: cs) :: argv' =>
      if bool_decide (c :: cs = [45]) then ([], argv') else
      let '(l, r) := getopt_chars (c :: cs) argv' in
      let '(l', r') := getopt f r in (l ++ l', r')
  | _, _ => ([], argv)
  end.

(** ** The server's side *)

Definition MAXARGC : nat := 50.

Fixpoint args_loop (fuel argc : nat) (s : list Z) : option (list (list Z)) :=
  match fuel with
  | O => None
  | S f =>
      match strtok white s with
      | None => Some []
      | Some (t, r) =>
          if (MAXARGC - 1 <=? S argc)%nat then None
          else cons t <$> args_loop f (S argc) r
      end
  end.
(** [argv[0]] is [buf] itself, which starts with the white space before the first
    token and ends, now, with it.  Each token takes a byte: the length is fuel enough. *)
Definition buf_argv (buf : list Z) : option (list (list Z)) :=
  let s := cstr buf in
  match strtok white s with
  | None => None
  | Some (t, r) =>
      cons (take (length s - length (skip_delims white s)) s ++ t) <$> args_loop (S (length r)) 0 r
  end.
Definition buf_args {S} (buf : list Z) (optfunc : list (list Z) -> M S Z) : M S Z :=
  match buf_argv buf with
  | None => mret (-1)
  | Some argv => optfunc argv
  end.

Inductive parity_t := NONE | EVEN | ODD.
#[export] Instance parity_eq : EqDecision parity_t.
Proof. solve_decision. Defined.

(** The globals that [cli_args] sets. *)
Record opts := Opts {
  o_Debug : bool; o_parity : parity_t; o_speed : option (list Z); o_sysname : list Z; o_errmsg : list Z
}.
Definition set_errmsg (m : list Z) (o : opts) : opts := Opts (o_Debug o) (o_parity o) (o_speed o) (o_sysname o) m.

Fixpoint cli_options (l : list optres) : M opts bool :=
  match l with
  | [] => mret true
  | r :: l' =>
      match r with
      | BadOpt c => modify (set_errmsg (bytes "unrecognized option: -" ++ [c; 10])) ;; mret false
      | Opt c | OptArg c _ =>
          modify (fun o =>
            if c =? 100 then Opts true (o_parity o) (o_speed o) (o_sysname o) (o_errmsg o)
            else if c =? 101 then Opts (o_Debug o) EVEN (o_speed o) (o_sysname o) (o_errmsg o)
            else if c =? 111 then Opts (o_Debug o) ODD (o_speed o) (o_sysname o) (o_errmsg o)
            else match r with
                 | OptArg _ a => Opts (o_Debug o) (o_parity o) (Some a) (o_sysname o) (o_errmsg o)
                 | _ => o
                 end) ;;
          cli_options l'
      end
  end.
Definition CL_CALL : list Z := bytes "call".
Definition cli_args (argv : list (list Z)) : M opts Z :=
  if (length argv <? 2)%nat || negb (bool_decide (head argv = Some CL_CALL)) then
    modify (set_errmsg (bytes "usage: call <options> <hostname>")) ;; mret (-1)
  else
  modify (fun o => Opts false NONE None (o_sysname o) (o_errmsg o)) ;;
  let '(l, operands) := getopt (length argv) (tail argv) in
  ok ← cli_options l;
  if negb ok then mret (-1) else
  match operands with
  | [] => modify (set_errmsg (bytes "missing <hostname> to call" ++ [10])) ;; mret (-1)
  | host :: _ => modify (fun o => Opts (o_Debug o) (o_parity o) (o_speed o) host (o_errmsg o)) ;; mret 0
  end.

(** ** The client's side *)

(** What [main] appends to [args] for an option. *)
Fixpoint call_options (l : list optres) : option (list Z) :=
  match l with
  | [] => Some []
  | r :: l' =>
      match r with
      | BadOpt _ => None
      | Opt c => app [45; c; 32] <$> call_options l'
      | OptArg c a => app ([45; c; 32] ++ a ++ [32]) <$> call_options l'
      end
  end.
(** The string [args] that [main] builds from its arguments. *)
Definition call_main (argv : list (list Z)) : fatal + list Z :=
  let '(l, operands) := getopt (length argv) (tail argv) in
  match call_options l, operands with
  | None, _ => inl (Err_quit "unrecognized option")
  | Some _, [] => inl (Err_quit "missing <hostname> to call")
  | Some args, host :: _ =>
      if MAXLINE <=? Z.of_nat (length (args ++ host)) then inl (Undefined "strcat past the end of args")
      else inr (args ++ host)
  end.
(** The bytes that [call] writes to the server. *)
Definition call_request (args : list Z) : list Z := CL_CALL ++ [32] ++ args ++ [0].

(** ** The request read back *)

Definition token (w : list Z) : Prop := w <> [] /\ Forall (fun c => white c = false /\ c <> 0) w.

Lemma strtok_token w d r : token w -> white d = true -> strtok white (w ++ d :: r) = Some (w, r).
Proof.
  intros [Hw F] Hd. assert (Hs : span_token white (w ++ d :: r) = (w, r)).
  { clear Hw. induction F as [|c w [Hc _] F IH]; simpl; [by rewrite Hd|]. by rewrite Hc, IH. }
  unfold strtok. destruct w as [|c w]; [done|]. apply Forall_cons in F as [[Hc _] _]. cbn [app skip_delims] in *. rewrite Hc. by rewrite Hs.
Qed.
Lemma strtok_last w : token w -> strtok white w = Some (w, []).
Proof.
  intros [Hw F]. assert (Hs : span_token white w = (w, [])).
  { clear Hw. induction F as [|c w [Hc _] F IH]; [done|]. simpl. by rewrite Hc, IH. }
  unfold strtok. destruct w as [|c w]; [done|]. apply Forall_cons in F as [[Hc _] _]. cbn [skip_delims] in *. rewrite Hc. by rewrite Hs.
Qed.

Definition line_of (ws : list (list Z)) : list Z := concat (map (fun w => w ++ [32]) ws).

Lemma args_loop_words ws h fuel argc : Forall token ws -> token h -> (length ws + 1 < fuel)%nat -> (argc + length ws + 1 < MAXARGC - 1)%nat ->
  args_loop fuel argc (line_of ws ++ h) = Some (ws ++ [h]).
Proof.
  intros F Hh. revert fuel argc.
  assert (Hlt : forall argc, (S argc < MAXARGC - 1)%nat -> (MAXARGC - 1 <=? S argc)%nat = false) by (intros argc Hl; by apply Nat.leb_gt).
  induction F as [|w ws Hw F IH]; intros fuel argc Hf Ha; (destruct fuel as [|f]; [cbn [length] in *; lia|]); cbn [args_loop length] in *.
  - cbn [line_of map concat app]. rewrite strtok_last by done. rewrite Hlt by lia. (destruct f as [|f]; [lia|]). done.
  - unfold line_of. cbn [map concat]. rewrite <- !app_assoc. cbn [app]. rewrite strtok_token, Hlt by (done || lia).
    fold (line_of ws). by rewrite IH by lia.
Qed.

Lemma line_length ws : Forall token ws -> (length ws <= length (line_of ws))%nat.
Proof.
  induction 1 as [|w ws Hw F IH]; [done|]. unfold line_of. cbn [map concat]. rewrite !length_app. fold (line_of ws). simpl. lia.
Qed.
Lemma line_nonul ws : Forall token ws -> nonul (line_of ws).
Proof.
  induction 1 as [|w ws [_ Hw] F IH]; [constructor|]. unfold line_of. cbn [map concat]. apply nonul_app. split; [apply nonul_app; split|done].
  - eapply Forall_impl; [exact Hw|]. by intros c [_ ?].
  - by repeat constructor.
Qed.

Lemma buf_argv_cmd cmd ws h : token cmd -> Forall token ws -> token h -> (length ws + 1 < MAXARGC - 1)%nat ->
  buf_argv (cmd ++ [32] ++ line_of ws ++ h ++ [0]) = Some (cmd :: ws ++ [h]).
Proof.
  intros Hcmd F Hh Hn. assert (Htn : forall w, token w -> nonul w) by (intros w [_ Hw]; eapply Forall_impl; [exact Hw|]; by intros c [_ ?]).
  assert (Hz : cstr (cmd ++ [32] ++ line_of ws ++ h ++ [0]) = cmd ++ 32 :: line_of ws ++ h).
  { replace (cmd ++ [32] ++ line_of ws ++ h ++ [0]) with ((cmd ++ 32 :: line_of ws ++ h) ++ 0 :: []) by (rewrite <- !app_assoc; cbn; by rewrite <- !app_assoc).
    rewrite cstr_app; [done|]. apply nonul_app. split; [by apply Htn|]. constructor; [done|]. apply nonul_app. split; [by apply line_nonul|by apply Htn]. }
  unfold buf_argv. rewrite Hz, strtok_token by done.
  assert (Hsk : skip_delims white (cmd ++ 32 :: line_of ws ++ h) = cmd ++ 32 :: line_of ws ++ h).
  { destruct Hcmd as [Hc Fc]. destruct cmd as [|c cmd]; [done|]. apply Forall_cons in Fc as [[Hw _] _]. cbn. by rewrite Hw. }
  rewrite Hsk, Nat.sub_diag, take_0. rewrite args_loop_words; [done..| |done].
  rewrite length_app. pose proof (line_length ws F). destruct Hh as [Hh _]. destruct h; [done|]. simpl. lia.
Qed.
Lemma buf_argv_words ws h : Forall token ws -> token h -> (length ws + 1 < MAXARGC - 1)%nat ->
  buf_argv (CL_CALL ++ [32] ++ line_of ws ++ h ++ [0]) = Some (CL_CALL :: ws ++ [h]).
Proof. intros. apply buf_argv_cmd; [|done..]. split; [done|by repeat constructor]. Qed.

(** *** Options *)

Definition opt_words (r : optres) : list (list Z) :=
  match r with Opt c => [[45; c]] | OptArg c a => [[45; c]; a] | BadOpt _ => [] end.
Definition opt_ok (r : optres) : Prop :=
  match r with Opt c => flag_opt c = true | OptArg c a => arg_opt c = true /\ token a | BadOpt _ => False end.

Lemma call_options_words l : Forall opt_ok l -> call_options l = Some (line_of (concat (map opt_words l))).
Proof.
  induction 1 as [|r l Hr F IH]; [done|]. destruct r as [c|c a|c]; [| |done]; cbn [call_options map concat opt_words app]; rewrite IH; cbn.
  - done.
  - f_equal.
Qed.

Lemma opt_words_tokens l : Forall opt_ok l -> Forall token (concat (map opt_words l)).
Proof.
  induction 1 as [|r l Hr F IH]; [constructor|]. cbn [map concat]. apply Forall_app. split; [|done].
  assert (Hc : forall c, flag_opt c = true \/ arg_opt c = true -> token [45; c]).
  { intros c Hc. unfold flag_opt, arg_opt in Hc. split; [done|]. constructor; [done|]. constructor; [|constructor].
    unfold white. split; [|intros ->; by destruct Hc].
    destruct (Z.eqb_spec c 32), (Z.eqb_spec c 9), (Z.eqb_spec c 10); subst; try done; by destruct Hc. }
  destruct r as [c|c a|c]; [| |done]; cbn [opt_words]; simpl in Hr.
  - constructor; [apply Hc; left; exact Hr|constructor].
  - constructor; [apply Hc; right; exact (proj1 Hr)|]. constructor; [apply Hr|constructor].
Qed.

Definition operand (h : list Z) : Prop := match h with 45 :: _ :: _ => False | _ => True end.

Lemma getopt_words l h fuel : Forall opt_ok l -> operand h -> (length (concat (map opt_words l)) < fuel)%nat ->
  getopt fuel (concat (map opt_words l) ++ [h]) = (l, [h]).
Proof.
  intros F Hh. revert fuel. induction F as [|r l Hr F IH]; intros fuel Hf; (destruct fuel as [|f]; [simpl in *; lia|]).
  - simpl. destruct h as [|a [|b h]]; [done|by destruct a as [|p|p]; try done; repeat (destruct p as [p|p|]; try done)|].
    destruct (Z.eq_dec a 45) as [->|N]; [done|]. destruct a as [|p|p]; try done; repeat (destruct p as [p|p|]; try done).
  - destruct r as [c|c a|c]; [| |done]; cbn [map concat opt_words app length] in *; cbn [getopt].
    + rewrite bool_decide_eq_false_2 by (intros [= ->]; discriminate). cbn [getopt_chars].
      replace (arg_opt c) with false. 2: { symmetry. unfold opt_ok, flag_opt, arg_opt in *. destruct (Z.eqb_spec c 115); [by subst|done]. }
      simpl in Hr. rewrite Hr. rewrite IH by lia. done.
    + destruct Hr as [Hr _]. rewrite bool_decide_eq_false_2 by (intros [= ->]; discriminate). cbn [getopt_chars]. rewrite Hr.
      rewrite IH by lia. done.
Qed.

(** What the options ask for. *)
Definition asks_debug (l : list optres) : bool := existsb (fun r => match r with Opt 100 => true | _ => false end) l.
Definition parity_opt (r : optres) : option parity_t :=
  match r with Opt c => if c =? 101 then Some EVEN else if c =? 111 then Some ODD else None | _ => None end.
Definition asks_parity (l : list optres) : parity_t := default NONE (last (omap parity_opt l)).
Definition speed_opt (r : optres) : option (list Z) := match r with OptArg _ a => Some a | _ => None end.
Definition asks_speed (l : list optres) : option (list Z) := last (omap speed_opt l).

Lemma last_cons_default {A} (x : A) l : last (x :: l) = Some (default x (last l)).
Proof. rewrite last_cons. by destruct (last l). Qed.

Lemma cli_options_ok l o : Forall opt_ok l ->
  cli_options l o = Ret true (Opts (o_Debug o || asks_debug l) (default (o_parity o) (last (omap parity_opt l)))
    (match asks_speed l with Some a => Some a | None => o_speed o end) (o_sysname o) (o_errmsg o)).
Proof.
  intros F. revert o. induction F as [|r l Hr F IH]; intros o.
  { destruct o. unfold asks_debug, asks_speed. cbn. by rewrite orb_false_r. }
  destruct r as [c|c a|c]; [| |done]; cbn [cli_options]; unfold mbind at 1, M_bind at 1, modify; rewrite IH; clear IH; simpl in Hr.
  - unfold flag_opt in Hr. unfold asks_debug, asks_speed. cbn [existsb omap list_omap parity_opt speed_opt].
    destruct (Z.eqb_spec c 100) as [->|]; [by rewrite orb_true_r|].
    destruct (Z.eqb_spec c 101) as [->|]; [cbn; rewrite last_cons_default; by destruct (last (omap parity_opt l))|].
    destruct (Z.eqb_spec c 111) as [->|]; [cbn; rewrite last_cons_default; by destruct (last (omap parity_opt l))|]. done.
  - destruct Hr as [Hr _]. unfold arg_opt in Hr. apply Z.eqb_eq in Hr as ->. unfold asks_debug, asks_speed.
    cbn [existsb omap list_omap parity_opt speed_opt]. rewrite last_cons_default. cbn. f_equal. f_equal.
    by destruct (last (omap speed_opt l)).
Qed.

Lemma cli_args_words l h o : Forall opt_ok l -> operand h ->
  cli_args (CL_CALL :: concat (map opt_words l) ++ [h]) o =
  Ret 0 (Opts (asks_debug l) (asks_parity l) (asks_speed l) h (o_errmsg o)).
Proof.
  intros F Hh. unfold cli_args. rewrite bool_decide_eq_true_2 by done.
  replace (_ <? 2)%nat with false. 2: { symmetry. apply Nat.ltb_ge. cbn [length]. rewrite length_app. simpl. lia. }
  cbn [orb negb tail]. unfold mbind at 1, M_bind at 1, modify at 1.
  rewrite getopt_words by (done || (cbn [length]; rewrite length_app; lia)).
  rewrite (bind_ret _ _ _ _ _ (cli_options_ok l _ F)). cbn [negb o_Debug o_parity o_speed o_sysname o_errmsg orb].
  unfold mbind, M_bind, modify. cbn [o_Debug o_parity o_speed o_sysname o_errmsg]. unfold mret, M_ret. f_equal. f_equal.
  by destruct (asks_speed l).
Qed.
