(* ===== verification/Calld.v ===== *)
(** The connection server of [src/apue2e/calld]: it finds a free line to a system in the
    files [Systems] and [Devices], locks it, and starts a child that dials.  This file
    models the server itself: [loop.c], [client.c], [request.c], [lock.c], [sysfile.c],
    [devfile.c], [sigchld.c] and [debug.c]; the child is in [Dial]. *)
From S2P Require Import Prelude CStr ReadN FdPass CallArgs.

(** ** Data *)

Record client := Client {
  fd : Z;                    (* -1: available *)
  pid : Z;
  uid : Z;
  childdone : Z;
  sysftell : Z;
  foundone : Z;
  cDebug : bool;
  cparity : parity_t;
  cspeed : list Z;
  csysname : list Z
}.
Definition set_fd (x : Z) (c : client) := Client x (pid c) (uid c) (childdone c) (sysftell c) (foundone c) (cDebug c) (cparity c) (cspeed c) (csysname c).
Definition set_pid (x : Z) (c : client) := Client (fd c) x (uid c) (childdone c) (sysftell c) (foundone c) (cDebug c) (cparity c) (cspeed c) (csysname c).
Definition set_childdone (x : Z) (c : client) := Client (fd c) (pid c) (uid c) x (sysftell c) (foundone c) (cDebug c) (cparity c) (cspeed c) (csysname c).
Definition set_sysftell (x : Z) (c : client) := Client (fd c) (pid c) (uid c) (childdone c) x (foundone c) (cDebug c) (cparity c) (cspeed c) (csysname c).
Definition set_foundone (x : Z) (c : client) := Client (fd c) (pid c) (uid c) (childdone c) (sysftell c) x (cDebug c) (cparity c) (cspeed c) (csysname c).

Record systems_t := Systems { s_name : list Z; s_time : list Z; s_type : list Z; s_class : list Z; s_phone : list Z; s_login : list Z }.
Record devices_t := Devices { d_type : list Z; d_line : list Z; d_line2 : list Z; d_class : list Z; d_dialer : list Z }.

(** The files, what fresh memory holds, and whether writing to a client works. *)
Class CallEnv := {
  systems_file : option (list Z);
  devices_file : option (list Z);
  fresh_client : client;
  alloc_works : Z -> bool;
  can_write : Z -> bool
}.

(** The server's variables; [sent] is what was written to clients, [pids] what [fork]
    will return, [children] the children started, with the lines they dial on. *)
Record calld := Calld {
  clients : list client;
  locks : list (list Z * Z);
  globals : opts;
  clifd : Z;
  fpsys : option Z;
  fpdev : option Z;
  systems : systems_t;
  devices : devices_t;
  allset : gset Z;
  chld_flag : bool;
  maxi : Z;
  sent : list (Z * (list Z * option Z));
  closed : list Z;
  pids : list Z;
  children : list (Z * list Z)
}.
Definition set_clients (x : list client) (s : calld) : calld :=
  Calld x (locks s) (globals s) (clifd s) (fpsys s) (fpdev s) (systems s) (devices s) (allset s) (chld_flag s) (maxi s) (sent s) (closed s) (pids s) (children s).
Definition set_locks (x : list (list Z * Z)) (s : calld) : calld :=
  Calld (clients s) x (globals s) (clifd s) (fpsys s) (fpdev s) (systems s) (devices s) (allset s) (chld_flag s) (maxi s) (sent s) (closed s) (pids s) (children s).
Definition set_globals (x : opts) (s : calld) : calld :=
  Calld (clients s) (locks s) x (clifd s) (fpsys s) (fpdev s) (systems s) (devices s) (allset s) (chld_flag s) (maxi s) (sent s) (closed s) (pids s) (children s).
Definition set_clifd (x : Z) (s : calld) : calld :=
  Calld (clients s) (locks s) (globals s) x (fpsys s) (fpdev s) (systems s) (devices s) (allset s) (chld_flag s) (maxi s) (sent s) (closed s) (pids s) (children s).
Definition set_fpsys (x : option Z) (s : calld) : calld :=
  Calld (clients s) (locks s) (globals s) (clifd s) x (fpdev s) (systems s) (devices s) (allset s) (chld_flag s) (maxi s) (sent s) (closed s) (pids s) (children s).
Definition set_fpdev (x : option Z) (s : calld) : calld :=
  Calld (clients s) (locks s) (globals s) (clifd s) (fpsys s) x (systems s) (devices s) (allset s) (chld_flag s) (maxi s) (sent s) (closed s) (pids s) (children s).
Definition set_systems (x : systems_t) (s : calld) : calld :=
  Calld (clients s) (locks s) (globals s) (clifd s) (fpsys s) (fpdev s) x (devices s) (allset s) (chld_flag s) (maxi s) (sent s) (closed s) (pids s) (children s).
Definition set_devices (x : devices_t) (s : calld) : calld :=
  Calld (clients s) (locks s) (globals s) (clifd s) (fpsys s) (fpdev s) (systems s) x (allset s) (chld_flag s) (maxi s) (sent s) (closed s) (pids s) (children s).
Definition set_allset (x : gset Z) (s : calld) : calld :=
  Calld (clients s) (locks s) (globals s) (clifd s) (fpsys s) (fpdev s) (systems s) (devices s) x (chld_flag s) (maxi s) (sent s) (closed s) (pids s) (children s).
Definition set_chld_flag (x : bool) (s : calld) : calld :=
  Calld (clients s) (locks s) (globals s) (clifd s) (fpsys s) (fpdev s) (systems s) (devices s) (allset s) x (maxi s) (sent s) (closed s) (pids s) (children s).
Definition set_maxi (x : Z) (s : calld) : calld :=
  Calld (clients s) (locks s) (globals s) (clifd s) (fpsys s) (fpdev s) (systems s) (devices s) (allset s) (chld_flag s) x (sent s) (closed s) (pids s) (children s).
Definition set_sent (x : list (Z * (list Z * option Z))) (s : calld) : calld :=
  Calld (clients s) (locks s) (globals s) (clifd s) (fpsys s) (fpdev s) (systems s) (devices s) (allset s) (chld_flag s) (maxi s) x (closed s) (pids s) (children s).
Definition set_closed (x : list Z) (s : calld) : calld :=
  Calld (clients s) (locks s) (globals s) (clifd s) (fpsys s) (fpdev s) (systems s) (devices s) (allset s) (chld_flag s) (maxi s) (sent s) x (pids s) (children s).
Definition set_pids (x : list Z) (s : calld) : calld :=
  Calld (clients s) (locks s) (globals s) (clifd s) (fpsys s) (fpdev s) (systems s) (devices s) (allset s) (chld_flag s) (maxi s) (sent s) (closed s) x (children s).
Definition set_children (x : list (Z * list Z)) (s : calld) : calld :=
  Calld (clients s) (locks s) (globals s) (clifd s) (fpsys s) (fpdev s) (systems s) (devices s) (allset s) (chld_flag s) (maxi s) (sent s) (closed s) (pids s) x.

Section Server.
Context `{E : CallEnv}.
Abbreviation MC := (M calld).

Definition cget {A} (f : calld -> A) : MC A := fun s => Ret (f s) s.
Definition with_globals {A} (m : M opts A) : MC A := zoom globals set_globals m.
(** [sprintf(errmsg, ...)] *)
Definition set_error (m : list Z) : MC unit :=
  if MAXLINE <=? Z.of_nat (length m) then die (Undefined "sprintf past the end of errmsg")
  else modify (fun s => set_globals (set_errmsg m (globals s)) s).

(** [client[i]] *)
Definition client_at (i : nat) : MC client :=
  l ← cget clients;
  match l !! i with Some c => mret c | None => die (Undefined "client outside the array") end.
Definition upd_client (i : nat) (f : client -> client) : MC unit :=
  client_at i ;; modify (fun s => set_clients (alter f i (clients s)) s).

(** ** Output to clients *)

(** One [write] or [sendmsg] takes all bytes, or fails. *)
Definition c_sendmsg (to : Z) (bs : list Z) (d : option Z) : MC Z :=
  if can_write to then
    modify (fun s => set_sent (sent s ++ [(to, (bs, d))]) s) ;; mret (Z.of_nat (length bs))
  else mret (-1).
Definition c_write (to : Z) (bs : list Z) : MC Z := c_sendmsg to bs None.
Definition c_send_err (to : Z) (code : Z) (msg : list Z) : MC Z := send_err c_sendmsg c_write true to code msg.

Definition DEBUG (text : list Z) : MC unit :=
  o ← cget globals;
  if negb (o_Debug o) then mret tt else
  let line := text ++ [10] in
  (if MAXLINE <=? Z.of_nat (length line) then die (Undefined "vsprintf past the end of line") else mret tt) ;;
  to ← cget clifd;
  n ← writen (c_write to) line;
  if negb (n =? Z.of_nat (length line)) then die (Err_sys "writen error") else mret tt.

(** ** client.c *)

Definition NALLOC : nat := 10.
Definition sizeof_client : Z := 560.

Definition client_alloc : MC unit :=
  l ← cget clients;
  if negb (alloc_works (Z.of_nat (length l + NALLOC) * sizeof_client)) then die (Err_sys "can't alloc for client array") else
  modify (set_clients (l ++ replicate NALLOC (set_fd (-1) fresh_client))).

Fixpoint find_client (p : client -> bool) (i : nat) (l : list client) : option nat :=
  match l with
  | [] => None
  | c :: l' => if p c then Some i else find_client p (S i) l'
  end.
(** A second search, after [client_alloc], succeeds. *)
Definition client_add (f u : Z) : MC nat :=
  l ← cget clients;
  (match l with [] => client_alloc | _ => mret tt end) ;;
  let take_entry (i : nat) : MC nat :=
    upd_client i (fun c => Client f (pid c) u (childdone c) (sysftell c) (foundone c) (cDebug c) (cparity c) (cspeed c) (csysname c)) ;;
    mret i in
  l ← cget clients;
  match find_client (fun c => fd c =? -1) 0 l with
  | Some i => take_entry i
  | None =>
      client_alloc ;;
      l ← cget clients;
      match find_client (fun c => fd c =? -1) 0 l with
      | Some i => take_entry i
      | None => die Loops
      end
  end.
Definition client_del (f : Z) : MC unit :=
  l ← cget clients;
  match find_client (fun c => fd c =? f) 0 l with
  | Some i => upd_client i (set_fd (-1))
  | None => die (Err_quit "can't find client entry for fd %d")
  end.
Definition client_sigchld (p stat : Z) : MC unit :=
  l ← cget clients;
  match find_client (fun c => pid c =? p) 0 l with
  | Some i => upd_client i (set_childdone stat)
  | None => die (Err_quit "can't find client entry for pid %d")
  end.

(** The SIGCHLD handler, with what [waitpid] returned; [status]: the exit status, none
    when the child was killed. *)
Definition sig_chld (p : Z) (status : option Z) : MC unit :=
  modify (set_chld_flag true) ;;
  (if p <=? 0 then die (Err_sys "waitpid error") else mret tt) ;;
  match status with
  | Some st => client_sigchld p (st mod 256 + 1)
  | None => mret tt
  end.

(** ** lock.c *)

Fixpoint find_lock (line : list Z) (i : nat) (l : list (list Z * Z)) : option nat :=
  match l with
  | [] => None
  | e :: l' => if bool_decide (line = e.1) then Some i else find_lock line (S i) l'
  end.
(** The index of the entry, made if there is none. *)
Definition find_line (line : list Z) : MC nat :=
  l ← cget locks;
  match find_lock line 0 l with
  | Some i => mret i
  | None =>
      if negb (alloc_works (Z.of_nat (length l + NALLOC))) then die (Err_sys "can't alloc for lock array") else
      modify (set_locks (l ++ [(line, 0)])) ;; mret (length l)
  end.
Definition lock_set (line : list Z) (p : Z) : MC unit :=
  i ← find_line line;
  modify (fun s => set_locks (alter (fun e => (e.1, p)) i (locks s)) s).
Fixpoint release (p : Z) (l : list (list Z * Z)) : list (list Z * Z) :=
  match l with
  | [] => []
  | e :: l' => if e.2 =? p then (e.1, 0) :: l' else e :: release p l'
  end.
Definition lock_rel (p : Z) : MC unit := modify (fun s => set_locks (release p (locks s)) s).
Definition is_locked (line : list Z) : MC Z :=
  i ← find_line line;
  l ← cget locks;
  match l !! i with Some e => mret e.2 | None => die (Undefined "lock outside the array") end.

(** ** sysfile.c and devfile.c *)

(** [fgets(line, MAXLINE, fp)] at a position: the line, none at the end of the file. *)
Fixpoint line_at (n : nat) (c : list Z) : list Z :=
  match n, c with
  | S k, b :: c' => if b =? 10 then [b] else b :: line_at k c'
  | _, _ => []
  end.
Definition fgets_at (text : list Z) (pos : Z) : option (list Z) :=
  match drop (Z.to_nat pos) text with
  | [] => None
  | c => Some (line_at (Z.to_nat (MAXLINE - 1)) c)
  end.
Definition newline_only (c : Z) : bool := c =? 10.

(** [strtok(...)], or [log_quit] *)
Definition tok_or (d : Z -> bool) (s : list Z) (msg : string) : MC (list Z * list Z) :=
  match strtok d s with Some p => mret p | None => die (Err_quit msg) end.

(** From the label [again], with the position of [fpsys]. *)
Fixpoint sys_again (fuel : nat) (text : list Z) (pos : Z) : MC Z :=
  match fuel with
  | O => die Loops
  | S f =>
      match fgets_at text pos with
      | None => mret (-1)
      | Some line =>
          let pos' := pos + Z.of_nat (length line) in
          modify (set_fpsys (Some pos')) ;;
          match strtok white (cstr line) with
          | None =>
              if bool_decide (head line = Some 10) then sys_again f text pos'
              else die (Err_quit "missing `name' in Systems file, line %d")
          | Some (name, r) =>
              if bool_decide (head name = Some 35) then sys_again f text pos' else
              time ← tok_or white r "missing `time' in Systems file, line %d";
              type ← tok_or white time.2 "missing `type' in Systems file, line %d";
              class ← tok_or white type.2 "missing `class' in Systems file, line %d";
              phone ← tok_or white class.2 "missing `phone' in Systems file, line %d";
              login ← tok_or newline_only phone.2 "missing `login' in Systems file, line %d";
              modify (set_systems (Systems name time.1 type.1 class.1 phone.1 login.1)) ;;
              mret pos'
          end
      end
  end.
(** Each line takes a byte: the length of the file is fuel enough. *)
Definition sys_next : MC Z :=
  match systems_file with
  | None => die (Err_sys "can't open %s")
  | Some text =>
      p ← cget fpsys;
      modify (set_fpsys (Some (default 0 p))) ;;
      sys_again (S (length text)) text (default 0 p)
  end.
Definition sys_rew : MC unit :=
  p ← cget fpsys;
  match p with Some _ => modify (set_fpsys (Some 0)) | None => mret tt end.
Definition sys_posn (posn : Z) : MC unit :=
  if posn =? 0 then sys_rew else
  p ← cget fpsys;
  match p with
  | None => die (Undefined "fseek of a null stream")
  | Some _ => if posn <? 0 then die (Err_sys "fseek error") else modify (set_fpsys (Some posn))
  end.

Fixpoint dev_again (fuel : nat) (text : list Z) (pos : Z) : MC Z :=
  match fuel with
  | O => die Loops
  | S f =>
      match fgets_at text pos with
      | None => mret (-1)
      | Some line =>
          let pos' := pos + Z.of_nat (length line) in
          modify (set_fpdev (Some pos')) ;;
          match strtok white (cstr line) with
          | None =>
              if bool_decide (head line = Some 10) then dev_again f text pos'
              else die (Err_quit "missing `type' in Devices file, line %d")
          | Some (type, r) =>
              if bool_decide (head type = Some 35) then dev_again f text pos' else
              line1 ← tok_or white r "missing `line' in Devices file, line %d";
              line2 ← tok_or white line1.2 "missing `line2' in Devices file, line %d";
              class ← tok_or white line2.2 "missing `class' in Devices file, line %d";
              dialer ← tok_or white class.2 "missing `dialer' in Devices file, line %d";
              modify (set_devices (Devices type line1.1 line2.1 class.1 dialer.1)) ;;
              mret 0
          end
      end
  end.
Definition dev_next : MC Z :=
  match devices_file with
  | None => die (Err_sys "can't open %s")
  | Some text =>
      p ← cget fpdev;
      modify (set_fpdev (Some (default 0 p))) ;;
      dev_again (S (length text)) text (default 0 p)
  end.
Definition dev_rew : MC unit :=
  p ← cget fpdev;
  match p with Some _ => modify (set_fpdev (Some 0)) | None => mret tt end.
Fixpoint dev_find_loop (fuel : nat) (type class : list Z) : MC Z :=
  match fuel with
  | O => die Loops
  | S f =>
      r ← dev_next;
      if r <? 0 then
        set_error (bytes "device `" ++ type ++ bytes "'/`" ++ class ++ bytes "' not found" ++ [10]) ;;
        mret (-1)
      else
        d ← cget devices;
        if bool_decide (type = d_type d) && bool_decide (class = d_class d) then mret 0
        else dev_find_loop f type class
  end.
Definition dev_find (sy : systems_t) : MC Z :=
  dev_rew ;;
  dev_find_loop (S (length (default [] devices_file))) (s_type sy) (s_class sy).

(** ** request.c *)

(** Fork a child to dial and lock the line for it; the child waits for the lock. *)
Definition start_child (i : nat) (line : list Z) : MC bool :=
  ps ← cget pids;
  match ps with
  | [] => die (Err_sys "fork error")
  | p :: ps' =>
      (if p <? 0 then die (Err_sys "fork error") else mret tt) ;;
      modify (set_pids ps') ;;
      upd_client i (set_pid p) ;;
      modify (fun s => set_children (children s ++ [(p, line)]) s) ;;
      lock_set line p ;;
      mret true
  end.
(** An entry that matches; [next] goes on with the entries after it.  The result says
    whether a child was started. *)
Definition try_entry (next : MC bool) (i : nat) (sy : systems_t) : MC bool :=
  DEBUG (bytes "trying sys: " ++ s_name sy ++ bytes ", " ++ s_type sy ++ bytes ", " ++ s_class sy ++ bytes ", " ++ s_phone sy) ;;
  upd_client i (fun c => set_foundone (foundone c + 1) c) ;;
  r ← dev_find sy;
  if r <? 0 then mret false else
  d ← cget devices;
  DEBUG (bytes "trying dev: " ++ d_type d ++ bytes ", " ++ d_line d ++ bytes ", " ++ d_class d ++ bytes ", " ++ d_dialer d) ;;
  holder ← is_locked (d_line d);
  if negb (holder =? 0) then
    set_error (bytes "device `" ++ d_line d ++ bytes "' already locked by pid " ++ dec holder ++ [10]) ;;
    next
  else start_child i (d_line d).
Fixpoint request_loop (fuel : nat) (i : nat) : MC bool :=
  match fuel with
  | O => die Loops
  | S f =>
      pos ← sys_next;
      upd_client i (set_sysftell pos) ;;
      if pos <? 0 then mret false else
      c ← client_at i;
      sy ← cget systems;
      if negb (bool_decide (csysname c = s_name sy)) then request_loop f i else
      if negb (bool_decide (cspeed c = [])) && negb (bool_decide (cspeed c = s_class sy)) then request_loop f i else
      try_entry (request_loop f i) i sy
  end.
Definition request (i : nat) : MC Z :=
  set_error [] ;;
  c ← client_at i;
  sys_posn (sysftell c) ;;
  started ← request_loop (S (length (default [] systems_file))) i;
  if started : bool then mret 0 else
  c ← client_at i;
  o ← cget globals;
  (if foundone c =? 0 then set_error (bytes "system `" ++ csysname c ++ bytes "' not found" ++ [10])
   else if bool_decide (o_errmsg o = []) then set_error (bytes "unable to connect to system `" ++ csysname c ++ bytes "'" ++ [10])
   else mret tt) ;;
  mret (-1).

(** ** loop.c *)

Definition cli_done (f : Z) : MC unit :=
  client_del f ;;
  modify (fun s => set_allset (allset s ∖ {[f]}) s) ;;
  modify (fun s => set_closed (closed s ++ [f]) s).

(** A failed [request]: the client gets the reason and is done. *)
Definition drop_client (i : nat) : MC unit :=
  c ← client_at i;
  o ← cget globals;
  r ← c_send_err (fd c) (-1) (o_errmsg o);
  (if r <? 0 then die (Err_sys "send_err error") else mret tt) ;;
  f ← cget clifd;
  cli_done f.

(** The body of the loop of [child_done]. *)
Definition child_done_at (i : nat) : MC unit :=
  c ← client_at i;
  modify (set_clifd (fd c)) ;;
  if fd c <? 0 then mret tt else
  if childdone c =? 0 then mret tt else
  if childdone c =? 1 then upd_client i (set_childdone 0) else
  upd_client i (set_childdone 0) ;;
  lock_rel (pid c) ;;
  r ← request i;
  if r <? 0 then drop_client i else mret tt.
Fixpoint each (f : nat -> MC unit) (l : list nat) : MC unit :=
  match l with
  | [] => mret tt
  | i :: l' => f i ;; each f l'
  end.
(** The indices 0 to [maxi]. *)
Definition indices (m : Z) : list nat := seq 0 (Z.to_nat (m + 1)).
(** No signal comes while it runs, so [again] is not taken. *)
Definition child_done : MC unit :=
  modify (set_chld_flag false) ;;
  m ← cget maxi;
  each child_done_at (indices m).

(** A new connection, with what [serv_accept] returned. *)
Definition accept_client (f u : Z) : MC unit :=
  (if f <? 0 then die (Err_sys "serv_accept error: %d") else mret tt) ;;
  modify (set_clifd f) ;;
  i ← client_add f u;
  modify (fun s => set_allset ({[f]} ∪ allset s) s) ;;
  modify (fun s => set_maxi (if maxi s <? Z.of_nat i then Z.of_nat i else maxi s) s).

Definition MAXSYSNAME : Z := 256.
Definition MAXSPEEDSTR : Z := 256.

(** The options of a request are kept with the client. *)
Definition save_options (i : nat) : MC unit :=
  o ← cget globals;
  let sp := default [] (o_speed o) in
  (if (MAXSYSNAME <=? Z.of_nat (length (o_sysname o))) || (MAXSPEEDSTR <=? Z.of_nat (length sp))
   then die (Undefined "strcpy past the end of sysname or speed") else mret tt) ;;
  upd_client i (fun c => Client (fd c) (pid c) (uid c) 0 0 0 (o_Debug o) (o_parity o) sp (o_sysname o)).

(** What [read] gave for a client that [select] reported: none: an error. *)
Definition serve_client (i : nat) (data : option (list Z)) : MC unit :=
  c ← client_at i;
  match data with
  | None => die (Err_sys "read error on fd %d")
  | Some [] => lock_rel (pid c) ;; f ← cget clifd; cli_done f
  | Some buf =>
      if negb (bool_decide (last buf = Some 0)) then die (Err_quit "request from uid %d not null terminated") else
      r ← with_globals (buf_args buf cli_args);
      if r <? 0 then die (Err_quit "command line error: %s") else
      save_options i ;;
      r ← request i;
      if r <? 0 then drop_client i else mret tt
  end.

(** What [select] may return: it was interrupted, a connection waits, or data of
    clients, by descriptor. *)
Inductive wakeup := Interrupted | Connection (f u : Z) | Data (ready : gmap Z (option (list Z))).

Definition serve_at (ready : gmap Z (option (list Z))) (i : nat) : MC unit :=
  c ← client_at i;
  modify (set_clifd (fd c)) ;;
  if fd c <? 0 then mret tt else
  match ready !! fd c with
  | None => mret tt
  | Some data => serve_client i data
  end.

(** One turn of [loop]. *)
Definition loop_turn (w : wakeup) : MC unit :=
  b ← cget chld_flag;
  (if b : bool then child_done else mret tt) ;;
  match w with
  | Interrupted => child_done
  | Connection f u => accept_client f u
  | Data ready => m ← cget maxi; each (serve_at ready) (indices m)
  end.
End Server.
