(* ===== verification/CalldFiles.v ===== *)
(** Reading the configuration files of [src/apue2e/calld] and the lock table: what the
    routines of [sysfile.c], [devfile.c] and [lock.c] do for well-formed files. *)
From S2P Require Import Prelude CStr ReadN FdPass CallArgs Calld.

(** ** Files as lists of lines *)

Inductive conf (A : Type) := Entry (a : A) | Comment (t : list Z) | Blank.
Arguments Entry {A}. Arguments Comment {A}. Arguments Blank {A}.

(** Text that fits a line of a file. *)
Definition fits_line (t : list Z) : Prop :=
  Forall (fun c => c <> 10 /\ c <> 0) t /\ Z.of_nat (length t) + 1 < MAXLINE.

Definition sys_fields (e : systems_t) : list Z :=
  s_name e ++ 32 :: s_time e ++ 32 :: s_type e ++ 32 :: s_class e ++ 32 :: s_phone e ++ 32 :: s_login e.
Definition dev_fields (d : devices_t) : list Z :=
  d_type d ++ 32 :: d_line d ++ 32 :: d_line2 d ++ 32 :: d_class d ++ 32 :: d_dialer d.
Definition conf_line {A} (fields : A -> list Z) (l : conf A) : list Z :=
  match l with Entry a => fields a ++ [10] | Comment t => 35 :: t ++ [10] | Blank => [10] end.
Definition conf_text {A} (fields : A -> list Z) (ls : list (conf A)) : list Z := concat (map (conf_line fields) ls).

Definition name_ok (n : list Z) : Prop := token n /\ head n <> Some 35.
Definition sys_ok (e : systems_t) : Prop :=
  name_ok (s_name e) /\ token (s_time e) /\ token (s_type e) /\ token (s_class e) /\ token (s_phone e) /\
  s_login e <> [] /\ fits_line (sys_fields e).
Definition dev_ok (d : devices_t) : Prop :=
  name_ok (d_type d) /\ token (d_line d) /\ token (d_line2 d) /\ token (d_class d) /\ token (d_dialer d) /\ fits_line (dev_fields d).
Definition conf_ok {A} (ok : A -> Prop) (l : conf A) : Prop :=
  match l with Entry a => ok a | Comment t => fits_line (35 :: t) | Blank => True end.

(** ** Lines *)

Lemma line_at_ok n t r : Forall (fun c => c <> 10 /\ c <> 0) t -> (length t < n)%nat -> line_at n (t ++ 10 :: r) = t ++ [10].
Proof.
  intros F. revert n. induction F as [|c t [Hc _] F IH]; intros n Hn; (destruct n as [|n]; [simpl in Hn; lia|]); simpl; [done|].
  bfalse (c =? 10). rewrite IH; [done|]. simpl in Hn. lia.
Qed.
Lemma fgets_ok pre t r : fits_line t -> fgets_at (pre ++ t ++ 10 :: r) (Z.of_nat (length pre)) = Some (t ++ [10]).
Proof.
  intros [F L]. unfold fgets_at. rewrite Nat2Z.id, drop_app_length. destruct (t ++ 10 :: r) as [|c l] eqn:Et; [by destruct t|].
  rewrite <- Et, line_at_ok; [done..|]. unfold MAXLINE in *. lia.
Qed.
Lemma fgets_eof text : fgets_at text (Z.of_nat (length text)) = None.
Proof. unfold fgets_at. by rewrite Nat2Z.id, drop_all. Qed.
Lemma cstr_line t : fits_line t -> cstr (t ++ [10]) = t ++ [10].
Proof.
  intros [F _]. apply cstr_id, nonul_app. split; [|by repeat constructor]. eapply Forall_impl; [exact F|]. by intros c [_ ?].
Qed.

(** A comment's first token starts with the mark. *)
Lemma strtok_comment s : exists t r, strtok white (35 :: s) = Some (35 :: t, r).
Proof.
  exists (span_token white s).1, (span_token white s).2. unfold strtok.
  assert (H1 : skip_delims white (35 :: s) = 35 :: s) by reflexivity. rewrite H1.
  assert (H2 : span_token white (35 :: s) = (35 :: (span_token white s).1, (span_token white s).2))
    by (cbn [span_token]; change (white 35) with false; by destruct (span_token white s)).
  by rewrite H2.
Qed.

Lemma strtok_line (t : list Z) : t <> [] -> Forall (fun c => c <> 10 /\ c <> 0) t -> strtok newline_only (t ++ [10]) = Some (t, []).
Proof.
  intros Ht F. assert (Hs : span_token newline_only (t ++ [10]) = (t, [])).
  { clear Ht. induction F as [|c t [Hc _] F IH]; [done|]. cbn [app span_token]. rewrite (proj2 (Z.eqb_neq c 10) Hc : newline_only c = false).
    by rewrite IH. }
  unfold strtok. destruct t as [|c t]; [done|]. apply Forall_cons in F as [[Hc _] _]. cbn [app skip_delims] in *.
  rewrite (proj2 (Z.eqb_neq c 10) Hc : newline_only c = false). by rewrite Hs.
Qed.

(** ** The Systems file *)

Section Files.
Context `{E : CallEnv}.
Implicit Types s : calld.

Lemma run_cget {A B} (f : calld -> A) (k : A -> M calld B) s : (cget f ≫= k) s = k (f s) s.
Proof. done. Qed.
Lemma run_modify_c {B} (f : calld -> calld) (k : unit -> M calld B) s : (modify f ≫= k) s = k tt (f s).
Proof. done. Qed.
Lemma tok_or_ok {B} d t (p : list Z * list Z) msg (k : list Z * list Z -> M calld B) s : strtok d t = Some p -> (tok_or d t msg ≫= k) s = k p s.
Proof. intros Ht. unfold tok_or. by rewrite Ht. Qed.

(** The entries up to the first one: it and the lines read. *)
Fixpoint next_entry {A} (ls : list (conf A)) : option (A * list (conf A) * list (conf A)) :=
  match ls with
  | [] => None
  | Entry a :: ls' => Some (a, [Entry a], ls')
  | l :: ls' => match next_entry ls' with Some (a, r, ls2) => Some (a, l :: r, ls2) | None => None end
  end.

Lemma head_name e t : name_ok e -> bool_decide (head (e ++ t) = Some 35) = false.
Proof. intros [[He _] Hh]. apply bool_decide_eq_false. by destruct e. Qed.

Lemma sys_entry_ok f text pre e r s : text = pre ++ sys_fields e ++ 10 :: r -> sys_ok e ->
  let pos' := Z.of_nat (length pre + length (conf_line sys_fields (Entry e))) in
  sys_again (S f) text (Z.of_nat (length pre)) s = Ret pos' (set_systems e (set_fpsys (Some pos') s)).
Proof.
  intros -> (Hn & Ht & Hy & Hc & Hp & Hl & Hf) pos'. cbn [sys_again]. rewrite fgets_ok, run_modify_c, cstr_line by done.
  assert (Epos : Z.of_nat (length pre) + Z.of_nat (length (sys_fields e ++ [10])) = pos') by (unfold pos'; cbn; lia).
  rewrite Epos. unfold sys_fields at 1. rewrite <- !app_assoc. cbn [app]. rewrite strtok_token by (done || apply Hn).
  replace (bool_decide (head (s_name e) = Some 35)) with false by (symmetry; rewrite <- (app_nil_r (s_name e)); by apply head_name).
  rewrite <- !app_assoc. cbn [app].
  rewrite (tok_or_ok white _ (s_time e, _)) by (by apply strtok_token). cbn [fst snd]. rewrite <- !app_assoc. cbn [app].
  rewrite (tok_or_ok white _ (s_type e, _)) by (by apply strtok_token). cbn [fst snd]. rewrite <- !app_assoc. cbn [app].
  rewrite (tok_or_ok white _ (s_class e, _)) by (by apply strtok_token). cbn [fst snd]. rewrite <- !app_assoc. cbn [app].
  rewrite (tok_or_ok white _ (s_phone e, _)) by (by apply strtok_token). cbn [fst snd].
  rewrite (tok_or_ok newline_only _ (s_login e, [])).
  2: { apply strtok_line; [done|]. destruct Hf as [F _]. unfold sys_fields in F. repeat (rewrite Forall_app, Forall_cons in F; destruct F as [_ [_ F]]). done. }
  rewrite run_modify_c. by destruct e.
Qed.

Lemma sys_skip_ok f text pre l r s : text = pre ++ conf_line sys_fields l ++ r -> conf_ok sys_ok l -> (forall a, l <> Entry a) ->
  let pos' := Z.of_nat (length (pre ++ conf_line sys_fields l)) in
  sys_again (S f) text (Z.of_nat (length pre)) s = sys_again f text pos' (set_fpsys (Some pos') s).
Proof.
  intros -> Hl Hne pos'. destruct l as [a|t|]; [by destruct (Hne a)|..]; cbn [sys_again conf_line].
  - change (pre ++ (35 :: t ++ [10]) ++ r) with (pre ++ ((35 :: t) ++ [10]) ++ r). rewrite <- (app_assoc (35 :: t)).
    change ([10] ++ r) with (10 :: r). rewrite fgets_ok, run_modify_c, cstr_line by done.
    destruct (strtok_comment (t ++ [10])) as (w & q & Hw). change ((35 :: t) ++ [10]) with (35 :: t ++ [10]). rewrite Hw.
    rewrite bool_decide_eq_true_2 by done. unfold pos'. rewrite length_app, Nat2Z.inj_add. done.
  - change (pre ++ [10] ++ r) with (pre ++ [] ++ 10 :: r). rewrite fgets_ok by (split; [constructor|done]). rewrite run_modify_c.
    assert (Epos : Z.of_nat (length pre) + Z.of_nat (length ([] ++ [10])) = pos') by (unfold pos'; rewrite (length_app pre); cbn [conf_line app length]; lia).
    rewrite Epos. change (strtok white (cstr ([] ++ [10]))) with (@None (list Z * list Z)). by rewrite bool_decide_eq_true_2.
Qed.

Lemma dev_entry_ok f text pre d r s : text = pre ++ dev_fields d ++ 10 :: r -> dev_ok d ->
  let pos' := Z.of_nat (length pre + length (conf_line dev_fields (Entry d))) in
  dev_again (S f) text (Z.of_nat (length pre)) s = Ret 0 (set_devices d (set_fpdev (Some pos') s)).
Proof.
  intros -> (Hn & Hl & Hl2 & Hc & Hd & Hf) pos'. cbn [dev_again]. rewrite fgets_ok, run_modify_c, cstr_line by done.
  assert (Epos : Z.of_nat (length pre) + Z.of_nat (length (dev_fields d ++ [10])) = pos') by (unfold pos'; cbn; lia).
  rewrite Epos. unfold dev_fields at 1. rewrite <- !app_assoc. cbn [app]. rewrite strtok_token by (done || apply Hn).
  replace (bool_decide (head (d_type d) = Some 35)) with false by (symmetry; rewrite <- (app_nil_r (d_type d)); by apply head_name).
  rewrite <- !app_assoc. cbn [app].
  rewrite (tok_or_ok white _ (d_line d, _)) by (by apply strtok_token). cbn [fst snd]. rewrite <- !app_assoc. cbn [app].
  rewrite (tok_or_ok white _ (d_line2 d, _)) by (by apply strtok_token). cbn [fst snd]. rewrite <- !app_assoc. cbn [app].
  rewrite (tok_or_ok white _ (d_class d, _)) by (by apply strtok_token). cbn [fst snd].
  rewrite (tok_or_ok white _ (d_dialer d, [])) by (by apply strtok_token). rewrite run_modify_c. by destruct d.
Qed.
Lemma dev_skip_ok f text pre l r s : text = pre ++ conf_line dev_fields l ++ r -> conf_ok dev_ok l -> (forall a, l <> Entry a) ->
  let pos' := Z.of_nat (length (pre ++ conf_line dev_fields l)) in
  dev_again (S f) text (Z.of_nat (length pre)) s = dev_again f text pos' (set_fpdev (Some pos') s).
Proof.
  intros -> Hl Hne pos'. destruct l as [a|t|]; [by destruct (Hne a)|..]; cbn [dev_again conf_line].
  - change (pre ++ (35 :: t ++ [10]) ++ r) with (pre ++ ((35 :: t) ++ [10]) ++ r). rewrite <- (app_assoc (35 :: t)).
    change ([10] ++ r) with (10 :: r). rewrite fgets_ok, run_modify_c, cstr_line by done.
    destruct (strtok_comment (t ++ [10])) as (w & q & Hw). change ((35 :: t) ++ [10]) with (35 :: t ++ [10]). rewrite Hw.
    rewrite bool_decide_eq_true_2 by done. unfold pos'. rewrite length_app, Nat2Z.inj_add. done.
  - change (pre ++ [10] ++ r) with (pre ++ [] ++ 10 :: r). rewrite fgets_ok by (split; [constructor|done]). rewrite run_modify_c.
    assert (Epos : Z.of_nat (length pre) + Z.of_nat (length ([] ++ [10])) = pos') by (unfold pos'; rewrite (length_app pre); cbn [conf_line app length]; lia).
    rewrite Epos. change (strtok white (cstr ([] ++ [10]))) with (@None (list Z * list Z)). by rewrite bool_decide_eq_true_2.
Qed.
End Files.

(** ** Reading to the next entry

    Shared by the two files: a loop [again] that reads an entry or skips a line, the
    position it keeps and the structure it fills. *)
Section Reader.
Context {A : Type} (fields : A -> list Z) (ok : A -> Prop) (again : nat -> list Z -> Z -> M calld Z).
Context (pos_of : calld -> option Z) (set_pos : option Z -> calld -> calld) (fill : A -> calld -> calld) (val : Z -> Z).
Context (again_entry : forall f text pre a r s, text = pre ++ fields a ++ 10 :: r -> ok a ->
  let pos' := Z.of_nat (length pre + length (conf_line fields (Entry a))) in
  again (S f) text (Z.of_nat (length pre)) s = Ret (val pos') (fill a (set_pos (Some pos') s))).
Context (again_skip : forall f text pre l r s, text = pre ++ conf_line fields l ++ r -> conf_ok ok l -> (forall a, l <> Entry a) ->
  let pos' := Z.of_nat (length (pre ++ conf_line fields l)) in
  again (S f) text (Z.of_nat (length pre)) s = again f text pos' (set_pos (Some pos') s)).
Context (again_eof : forall f text s, again (S f) text (Z.of_nat (length text)) s = Ret (-1) s).
Context (set_set : forall p q s, set_pos p (set_pos q s) = set_pos p s) (set_same : forall s, set_pos (pos_of s) s = s).

Lemma again_ok ls : forall fuel text pre s, text = pre ++ conf_text fields ls -> Forall (conf_ok ok) ls -> (length ls < fuel)%nat ->
  match next_entry ls with
  | Some (e, r, _) => let pos' := Z.of_nat (length (pre ++ conf_text fields r)) in
      again fuel text (Z.of_nat (length pre)) s = Ret (val pos') (fill e (set_pos (Some pos') s))
  | None => exists p, again fuel text (Z.of_nat (length pre)) s = Ret (-1) (set_pos p s)
  end.
Proof.
  induction ls as [|l ls IH]; intros fuel text pre s Et F Hf; (destruct fuel as [|f]; [simpl in Hf; lia|]).
  { exists (pos_of s). unfold conf_text in Et. simpl in Et. rewrite app_nil_r in Et. subst. rewrite again_eof, set_same. auto. }
  apply Forall_cons in F as [Hl F]. unfold conf_text in Et. cbn [map concat] in Et. fold (conf_text fields ls) in Et.
  assert (Hskip : (forall a, l <> Entry a) -> match next_entry ls with
    | Some (e, r, _) => let pos' := Z.of_nat (length (pre ++ conf_text fields (l :: r))) in
        again (S f) text (Z.of_nat (length pre)) s = Ret (val pos') (fill e (set_pos (Some pos') s))
    | None => exists p, again (S f) text (Z.of_nat (length pre)) s = Ret (-1) (set_pos p s) end).
  { intros Hne. rewrite (again_skip f text pre l (conf_text fields ls) s Et Hl Hne). rewrite app_assoc in Et.
    specialize (IH f text (pre ++ conf_line fields l) (set_pos (Some (Z.of_nat (length (pre ++ conf_line fields l)))) s) Et F ltac:(simpl in Hf; lia)).
    destruct (next_entry ls) as [[[e r] ls2]|]; cbn zeta in *.
    - rewrite set_set, <- app_assoc in IH. done.
    - destruct IH as (p & Hp). exists p. by rewrite Hp, set_set. }
  destruct l as [a|t|]; cbn [next_entry].
  - cbn [conf_line] in Et. rewrite <- app_assoc in Et. rewrite (again_entry f text pre a _ s Et Hl). cbn zeta.
    replace (length pre + length (conf_line fields (Entry a)))%nat with (length (pre ++ conf_text fields [Entry a])); [done|].
    rewrite length_app. unfold conf_text. cbn [map concat]. by rewrite app_nil_r.
  - specialize (Hskip ltac:(done)). by destruct (next_entry ls) as [[[e r] ls2]|].
  - specialize (Hskip ltac:(done)). by destruct (next_entry ls) as [[[e r] ls2]|].
Qed.

Lemma conf_text_lines ls : (length ls <= length (conf_text fields ls))%nat.
Proof.
  induction ls as [|l ls IH]; [done|]. unfold conf_text in *. cbn [map concat length]. rewrite length_app.
  destruct l; cbn [conf_line length]; rewrite ?length_app; simpl; lia.
Qed.
Lemma conf_text_app l1 l2 : conf_text fields (l1 ++ l2) = conf_text fields l1 ++ conf_text fields l2.
Proof. unfold conf_text. by rewrite map_app, concat_app. Qed.

(** From a position between two lines of the file. *)
Lemma reader_ok before after s p : pos_of s = p -> default 0 p = Z.of_nat (length (conf_text fields before)) -> Forall (conf_ok ok) after ->
  let text := conf_text fields (before ++ after) in
  match next_entry after with
  | Some (e, r, _) => let pos' := Z.of_nat (length (conf_text fields (before ++ r))) in
      again (S (length text)) text (default 0 p) (set_pos (Some (default 0 p)) s) = Ret (val pos') (fill e (set_pos (Some pos') s))
  | None => exists p', again (S (length text)) text (default 0 p) (set_pos (Some (default 0 p)) s) = Ret (-1) (set_pos p' s)
  end.
Proof.
  intros Hp Hd F text. rewrite Hd. pose proof (conf_text_lines after) as Hlen.
  pose proof (again_ok after (S (length text)) text (conf_text fields before) (set_pos (Some (Z.of_nat (length (conf_text fields before)))) s)
    (conf_text_app before after) F) as H. specialize (H ltac:(unfold text; rewrite conf_text_app, length_app; lia)).
  destruct (next_entry after) as [[[e r] ls2]|]; cbn zeta in *.
  - by rewrite set_set, <- conf_text_app in H.
  - destruct H as [p' H]. exists p'. by rewrite set_set in H.
Qed.
End Reader.

(** ** The two files *)

Section Next.
Context `{E : CallEnv}.
Implicit Types s : calld.

Lemma sys_next_ok before after s : systems_file = Some (conf_text sys_fields (before ++ after)) -> Forall (conf_ok sys_ok) after ->
  default 0 (fpsys s) = Z.of_nat (length (conf_text sys_fields before)) ->
  match next_entry after with
  | Some (e, r, _) => let pos' := Z.of_nat (length (conf_text sys_fields (before ++ r))) in
      sys_next s = Ret pos' (set_systems e (set_fpsys (Some pos') s))
  | None => exists p, sys_next s = Ret (-1) (set_fpsys p s)
  end.
Proof.
  intros Hf F Hp. unfold sys_next. rewrite Hf, run_cget, run_modify_c.
  apply (reader_ok sys_fields sys_ok sys_again fpsys set_fpsys set_systems (fun p => p)); try done.
  - apply sys_entry_ok.
  - apply sys_skip_ok.
  - intros f text s'. cbn [sys_again]. by rewrite fgets_eof.
  - by intros [].
Qed.
Lemma dev_next_ok before after s : devices_file = Some (conf_text dev_fields (before ++ after)) -> Forall (conf_ok dev_ok) after ->
  default 0 (fpdev s) = Z.of_nat (length (conf_text dev_fields before)) ->
  match next_entry after with
  | Some (d, r, _) => let pos' := Z.of_nat (length (conf_text dev_fields (before ++ r))) in
      dev_next s = Ret 0 (set_devices d (set_fpdev (Some pos') s))
  | None => exists p, dev_next s = Ret (-1) (set_fpdev p s)
  end.
Proof.
  intros Hf F Hp. unfold dev_next. rewrite Hf, run_cget, run_modify_c.
  apply (reader_ok dev_fields dev_ok dev_again fpdev set_fpdev set_devices (fun _ => 0)); try done.
  - apply dev_entry_ok.
  - apply dev_skip_ok.
  - intros f text s'. cbn [dev_again]. by rewrite fgets_eof.
  - by intros [].
Qed.
End Next.
