(* ===== verification/CalldReq.v ===== *)
(** [request] of [src/apue2e/calld/request.c] against a reference that works on the
    entries of the two files and on a map from lines to the processes that hold them. *)
From S2P Require Import Prelude CStr ReadN FdPass CallArgs Calld CalldFiles.

(** ** The lock table as a map *)

(** The process that holds a line, 0: none. *)
Fixpoint holder (line : list Z) (l : list (list Z * Z)) : Z :=
  match l with
  | [] => 0
  | e :: l' => if decide (line = e.1) then e.2 else holder line l'
  end.

Lemma find_lock_spec line l k :
  match find_lock line k l with
  | Some i => exists l1 q l2, l = l1 ++ (line, q) :: l2 /\ (i = k + length l1)%nat /\ line ∉ map fst l1
  | None => line ∉ map fst l
  end.
Proof.
  revert k. induction l as [|[x q] l IH]; intros k; simpl; [apply not_elem_of_nil|]. case_bool_decide as Hx.
  - subst. exists [], q, l. split_and!; [done|simpl; lia|apply not_elem_of_nil].
  - specialize (IH (S k)). destruct (find_lock line (S k) l) as [i|].
    + destruct IH as (l1 & q' & l2 & -> & -> & Hn). exists ((x, q) :: l1), q', l2. split_and!; [done|simpl; lia|].
      apply not_elem_of_cons. by split.
    + apply not_elem_of_cons. by split.
Qed.
Lemma holder_app x l1 l2 : x ∉ map fst l1 -> holder x (l1 ++ l2) = holder x l2.
Proof.
  induction l1 as [|[y q] l1 IH]; [done|]. intros [Hy Hn]%not_elem_of_cons. simpl. rewrite decide_False by done. by apply IH.
Qed.
Lemma holder_none x l : x ∉ map fst l -> holder x l = 0.
Proof. intros Hx. rewrite <- (app_nil_r l). by rewrite holder_app. Qed.
Lemma holder_mid x l1 line q l2 : holder x (l1 ++ (line, q) :: l2) =
  if decide (x ∈ map fst l1) then holder x l1 else if decide (x = line) then q else holder x l2.
Proof.
  destruct (decide (x ∈ map fst l1)) as [Hx|Hx]; [|by rewrite holder_app].
  induction l1 as [|[y r] l1 IH]; simpl in *; [by apply not_elem_of_nil in Hx|]. destruct (decide (x = y)); [done|].
  apply IH. apply elem_of_cons in Hx as [?|?]; [done|done].
Qed.

Section Request.
Context `{E : CallEnv} (alloc : forall n, alloc_works n = true).
Implicit Types s : calld.

Definition table_ok (l : list (list Z * Z)) : Prop := NoDup (map fst l).

Lemma find_line_ok line s : table_ok (locks s) ->
  exists i l' l1 q l2, find_line line s = Ret i (set_locks l' s) /\ l' = l1 ++ (line, q) :: l2 /\ length l1 = i /\ line ∉ map fst l1 /\
    q = holder line (locks s) /\ table_ok l' /\ forall x, holder x l' = holder x (locks s).
Proof.
  intros ND. unfold find_line. rewrite run_cget. pose proof (find_lock_spec line (locks s) 0) as H.
  destruct (find_lock line 0 (locks s)) as [i|].
  - destruct H as (l1 & q & l2 & Hl & -> & Hn). exists (length l1), (locks s), l1, q, l2. split_and!; try done; [by destruct s|].
    rewrite Hl, holder_mid, decide_False, decide_True by done. done.
  - exists (length (locks s)), (locks s ++ [(line, 0)]), (locks s), 0, []. rewrite alloc. split_and!; try done.
    + by rewrite holder_none.
    + unfold table_ok. rewrite map_app. apply NoDup_app. split_and!; [done| |apply NoDup_singleton].
      intros x Hx ->%list_elem_of_singleton. done.
    + intros x. rewrite holder_mid. destruct (decide (x ∈ map fst (locks s))); [done|].
      rewrite (holder_none x (locks s)) by done. by destruct (decide (x = line)).
Qed.

Lemma is_locked_ok line s : table_ok (locks s) ->
  exists l', is_locked line s = Ret (holder line (locks s)) (set_locks l' s) /\ table_ok l' /\ forall x, holder x l' = holder x (locks s).
Proof.
  intros ND. destruct (find_line_ok line s ND) as (i & l' & l1 & q & l2 & Ef & El & Ei & Hn & -> & ND' & Hx). exists l'. split_and!; [|done..].
  unfold is_locked. rewrite (bind_ret _ _ _ _ _ Ef), run_cget. cbn [locks set_locks]. rewrite El, <- Ei.
  rewrite list_lookup_middle by done. done.
Qed.
Lemma lock_set_ok line p s : table_ok (locks s) ->
  exists l', lock_set line p s = Ret tt (set_locks l' s) /\ table_ok l' /\
    forall x, holder x l' = if decide (x = line) then p else holder x (locks s).
Proof.
  intros ND. destruct (find_line_ok line s ND) as (i & l' & l1 & q & l2 & Ef & El & Ei & Hn & Hq & ND' & Hx).
  exists (l1 ++ (line, p) :: l2). unfold lock_set. rewrite (bind_ret _ _ _ _ _ Ef). unfold modify. cbn [locks set_locks].
  split_and!.
  - f_equal. rewrite El, <- Ei. rewrite alter_app_r_alt, Nat.sub_diag by lia. done.
  - unfold table_ok in *. rewrite El in ND'. rewrite !map_app in *. done.
  - intros x. specialize (Hx x). rewrite El, holder_mid in Hx. rewrite holder_mid. destruct (decide (x ∈ map fst l1)) as [Hi|Hi].
    + rewrite decide_False by congruence. done.
    + destruct (decide (x = line)); done.
Qed.

(** A process that holds one line gives it back. *)
Lemma lock_rel_ok line p s : table_ok (locks s) -> p <> 0 -> holder line (locks s) = p -> (forall x, holder x (locks s) = p -> x = line) ->
  table_ok (release p (locks s)) /\ forall x, holder x (release p (locks s)) = if decide (x = line) then 0 else holder x (locks s).
Proof.
  unfold table_ok. intros ND Hp Hh Hu. generalize dependent (locks s). clear s. intros l. induction l as [|[y q] l IH]; intros ND Hh Hu.
  { simpl in Hh. congruence. }
  simpl in ND. apply NoDup_cons in ND as [Hn ND]. cbn [release fst snd]. destruct (Z.eqb_spec q p) as [->|Hq].
  - assert (y = line) as <- by (apply Hu; simpl; by rewrite decide_True). split; [by apply NoDup_cons|]. intros x. simpl. by destruct (decide (x = y)).
  - assert (Hy : y <> line). { intros ->. apply Hq. simpl in Hh. by rewrite decide_True in Hh. }
    simpl in Hh. rewrite decide_False in Hh by congruence.
    assert (Hne : forall x, x ∈ map fst l -> x <> y) by (intros x Hx ->; done).
    destruct IH as [IH1 IH2]; [done|done| |].
    { intros x Hx. apply Hu. simpl. rewrite decide_False; [done|]. intros ->. rewrite holder_none in Hx by done. congruence. }
    split; [|intros x; simpl; destruct (decide (x = y)) as [->|]; [by rewrite decide_False|done]].
    simpl. apply NoDup_cons. split; [|done].
    assert (Hm : map fst (release p l) = map fst l).
    { clear. induction l as [|e l IH]; [done|]. simpl. destruct (e.2 =? p); simpl; by rewrite ?IH. }
    by rewrite Hm.
Qed.

(** ** Devices *)

Fixpoint find_dev (type class : list Z) (ds : list (conf devices_t)) : option devices_t :=
  match ds with
  | [] => None
  | Entry d :: ds' => if bool_decide (type = d_type d) && bool_decide (class = d_class d) then Some d else find_dev type class ds'
  | _ :: ds' => find_dev type class ds'
  end.
Definition error_set (m : list Z) (s : calld) : calld := set_globals (set_errmsg m (globals s)) s.
Lemma set_error_ok m s : Z.of_nat (length m) < MAXLINE -> set_error m s = Ret tt (error_set m s).
Proof. intros Hm. unfold set_error. by bfalse (MAXLINE <=? Z.of_nat (length m)). Qed.

Lemma next_entry_spec {A} (ls : list (conf A)) :
  match next_entry ls with
  | Some (e, r, ls2) => ls = r ++ ls2 /\ (length ls2 < length ls)%nat /\
      exists skipped, r = skipped ++ [Entry e] /\ Forall (fun l => forall a, l <> Entry a) skipped
  | None => Forall (fun l => forall a, l <> Entry a) ls
  end.
Proof.
  induction ls as [|l ls IH]; [constructor|]. destruct l as [a|t|]; cbn [next_entry].
  - split_and!; [done|simpl; lia|]. exists []. by split.
  - destruct (next_entry ls) as [[[e r] ls2]|]; [|by constructor]. destruct IH as (-> & Hl & sk & -> & F).
    split_and!; [done|simpl in *; lia|]. exists (Comment t :: sk). split; [done|by constructor].
  - destruct (next_entry ls) as [[[e r] ls2]|]; [|by constructor]. destruct IH as (-> & Hl & sk & -> & F).
    split_and!; [done|simpl in *; lia|]. exists (Blank :: sk). split; [done|by constructor].
Qed.
Lemma find_dev_skip ty cl sk ds : Forall (fun l => forall a, l <> Entry a) sk -> find_dev ty cl (sk ++ ds) = find_dev ty cl ds.
Proof. induction 1 as [|l sk Hl F IH]; [done|]. destruct l as [a| |]; [by destruct (Hl a)|done..]. Qed.

Definition no_device (ty cl : list Z) : list Z := bytes "device `" ++ ty ++ bytes "'/`" ++ cl ++ bytes "' not found" ++ [10].

Lemma dev_find_loop_ok ty cl n : forall before after fuel s, length after = n ->
  devices_file = Some (conf_text dev_fields (before ++ after)) -> Forall (conf_ok dev_ok) after ->
  default 0 (fpdev s) = Z.of_nat (length (conf_text dev_fields before)) -> (length after < fuel)%nat ->
  Z.of_nat (length (no_device ty cl)) < MAXLINE ->
  match find_dev ty cl after with
  | Some d => exists p, dev_find_loop fuel ty cl s = Ret 0 (set_devices d (set_fpdev p s))
  | None => exists p d, dev_find_loop fuel ty cl s = Ret (-1) (error_set (no_device ty cl) (set_devices d (set_fpdev p s)))
  end.
Proof.
  induction n as [n IH] using lt_wf_ind. intros before after fuel s Hn Hf F Hp Hfu Hm. destruct fuel as [|f]; [lia|]. cbn [dev_find_loop].
  pose proof (dev_next_ok before after s Hf F Hp) as Hnx. pose proof (next_entry_spec after) as Hsp.
  destruct (next_entry after) as [[[d r] ls2]|]; cbn zeta in Hnx.
  - destruct Hsp as (-> & Hl & sk & -> & Fs). rewrite (bind_ret _ _ _ _ _ Hnx). change (0 <? 0) with false. cbn iota.
    rewrite run_cget. cbn [devices set_devices]. rewrite <- app_assoc, find_dev_skip by done. cbn [app find_dev].
    destruct (bool_decide (ty = d_type d) && bool_decide (cl = d_class d)); [by eexists|].
    rewrite app_assoc in Hf. pose proof Hl as Hl'. rewrite length_app in Hl'.
    specialize (IH (length ls2) ltac:(lia) (before ++ sk ++ [Entry d]) ls2 f
      (set_devices d (set_fpdev (Some (Z.of_nat (length (conf_text dev_fields (before ++ sk ++ [Entry d]))))) s)) eq_refl Hf).
    specialize (IH (proj2 (proj1 (Forall_app _ _ _) F)) eq_refl ltac:(lia) Hm).
    destruct (find_dev ty cl ls2) as [d'|]; [destruct IH as [p ->]; by exists p|destruct IH as (p & d' & ->); by exists p, d'].
  - destruct Hnx as [p Hnx]. rewrite (bind_ret _ _ _ _ _ Hnx). change (-1 <? 0) with true. cbn iota.
    replace (find_dev ty cl after) with (@None devices_t)
      by (rewrite <- (app_nil_r after), find_dev_skip by done; done).
    exists p, (devices s). rewrite (bind_ret _ _ _ _ _ (set_error_ok _ _ Hm)). by destruct s.
Qed.

Lemma dev_find_ok ds sy s : devices_file = Some (conf_text dev_fields ds) -> Forall (conf_ok dev_ok) ds ->
  Z.of_nat (length (no_device (s_type sy) (s_class sy))) < MAXLINE ->
  match find_dev (s_type sy) (s_class sy) ds with
  | Some d => exists p, dev_find sy s = Ret 0 (set_devices d (set_fpdev p s))
  | None => exists p d, dev_find sy s = Ret (-1) (error_set (no_device (s_type sy) (s_class sy)) (set_devices d (set_fpdev p s)))
  end.
Proof.
  intros Hf F Hm. unfold dev_find, dev_rew. set (s1 := set_fpdev (match fpdev s with Some _ => Some 0 | None => None end) s).
  assert (Hr : (p ← cget fpdev; match p with Some _ => modify (set_fpdev (Some 0)) | None => mret tt end) s = Ret tt s1).
  { rewrite run_cget. unfold s1. destruct (fpdev s) eqn:Ep; [done|]. destruct s; simpl in *; by subst. }
  rewrite (bind_ret _ _ _ _ _ Hr). rewrite Hf. cbn [default].
  pose proof (conf_text_lines dev_fields ds) as Hlen.
  pose proof (dev_find_loop_ok (s_type sy) (s_class sy) (length ds) [] ds (S (length (conf_text dev_fields ds))) s1 eq_refl Hf F) as H.
  specialize (H ltac:(unfold s1; cbn [fpdev set_fpdev]; by destruct (fpdev s)) ltac:(lia) Hm). cbn [default] in H.
  destruct (find_dev _ _ ds) as [d|]; [destruct H as [p H]; exists p|destruct H as (p & d & H); exists p, d]; exact H.
Qed.

(** ** The reference for [request] *)

Definition busy_msg (line : list Z) (p : Z) : list Z := bytes "device `" ++ line ++ bytes "' already locked by pid " ++ dec p ++ [10].
Definition wants (name speed : list Z) (e : systems_t) : bool :=
  bool_decide (name = s_name e) && (bool_decide (speed = []) || bool_decide (speed = s_class e)).

(** What becomes of a request: a line to start a child on, with the number of matching
    entries seen and the entries after; or a failure with that number and a message. *)
Inductive picked :=
  | Found (d : devices_t) (n : Z) (rest : list (conf systems_t))
  | Failed (n : Z) (msg : list Z).
Fixpoint pick (name speed : list Z) (ds : list (conf devices_t)) (h : list Z -> Z) (n : Z) (msg : list Z) (ls : list (conf systems_t)) : picked :=
  match ls with
  | [] => Failed n msg
  | Entry e :: ls' =>
      if wants name speed e then
        match find_dev (s_type e) (s_class e) ds with
        | None => Failed (n + 1) (no_device (s_type e) (s_class e))
        | Some d =>
            if h (d_line d) =? 0 then Found d (n + 1) ls'
            else pick name speed ds h (n + 1) (busy_msg (d_line d) (h (d_line d))) ls'
        end
      else pick name speed ds h n msg ls'
  | _ :: ls' => pick name speed ds h n msg ls'
  end.

Lemma pick_skip name speed ds h n msg sk ls : Forall (fun l => forall a, l <> Entry a) sk ->
  pick name speed ds h n msg (sk ++ ls) = pick name speed ds h n msg ls.
Proof. induction 1 as [|l sk Hl F IH]; [done|]. destruct l as [a| |]; [by destruct (Hl a)|done..]. Qed.
Lemma pick_ext name speed ds h h' n msg ls : (forall x, h x = h' x) -> pick name speed ds h n msg ls = pick name speed ds h' n msg ls.
Proof.
  intros Hh. revert n msg. induction ls as [|[e| |] ls IH]; intros n msg; cbn [pick]; [done| |done..].
  destruct (wants name speed e); [|done]. destruct (find_dev _ _ ds); [|done]. rewrite <- Hh. destruct (_ =? 0); done.
Qed.

(** What [request] does not change. *)
Definition rest_of s := (clifd s, allset s, chld_flag s, maxi s, sent s, closed s, o_Debug (globals s)).
Definition with_search (c : client) (p t n : Z) : client :=
  Client (fd c) p (uid c) (childdone c) t n (cDebug c) (cparity c) (cspeed c) (csysname c).

Lemma client_at_ok i c s : clients s !! i = Some c -> client_at i s = Ret c s.
Proof. intros Hc. unfold client_at. by rewrite run_cget, Hc. Qed.
Lemma upd_client_ok i c f s : clients s !! i = Some c -> upd_client i f s = Ret tt (set_clients (<[i := f c]> (clients s)) s).
Proof.
  intros Hc. unfold upd_client. rewrite (bind_ret _ _ _ _ _ (client_at_ok i c s Hc)). unfold modify. f_equal. f_equal.
  apply list_eq. intros j. destruct (decide (i = j)) as [<-|N].
  - rewrite list_lookup_alter_eq, Hc. rewrite list_lookup_insert_eq; [done|]. by eapply lookup_lt_Some.
  - by rewrite list_lookup_alter_ne, list_lookup_insert_ne.
Qed.
Lemma DEBUG_off t s : o_Debug (globals s) = false -> DEBUG t s = Ret tt s.
Proof. intros Hd. unfold DEBUG. by rewrite run_cget, Hd. Qed.

Definition started_post (i : nat) (c : client) (d : devices_t) (p n t : Z) s s' : Prop :=
  clients s' = <[i := with_search c p t n]> (clients s) /\ pids s = p :: pids s' /\ children s' = children s ++ [(p, d_line d)] /\
  table_ok (locks s') /\ (forall x, holder x (locks s') = if decide (x = d_line d) then p else holder x (locks s)) /\
  rest_of s' = rest_of s /\ is_Some (fpsys s').
Definition failed_post (i : nat) (c : client) (n : Z) (msg : list Z) s s' : Prop :=
  (exists t, clients s' = <[i := with_search c (pid c) t n]> (clients s)) /\ pids s' = pids s /\ children s' = children s /\
  table_ok (locks s') /\ (forall x, holder x (locks s') = holder x (locks s)) /\ rest_of s' = rest_of s /\ o_errmsg (globals s') = msg.

(** The messages fit. *)
Definition sys_brief (l : conf systems_t) : Prop :=
  match l with Entry e => Z.of_nat (length (no_device (s_type e) (s_class e))) < MAXLINE | _ => True end.
Definition dev_brief (h : list Z -> Z) (l : conf devices_t) : Prop :=
  match l with Entry d => Z.of_nat (length (busy_msg (d_line d) (h (d_line d)))) < MAXLINE | _ => True end.

Lemma find_dev_in ty cl ds d : find_dev ty cl ds = Some d -> Entry d ∈ ds.
Proof.
  induction ds as [|[d'| |] ds IH]; cbn [find_dev]; [done| |right; auto..]. destruct (_ && _); [intros [= ->]; left|right; auto].
Qed.

Lemma started_trans i c d p n t n0 t0 s s1 s' : clients s !! i = Some c -> clients s1 = <[i := with_search c (pid c) t0 n0]> (clients s) ->
  pids s1 = pids s -> children s1 = children s -> (forall x, holder x (locks s1) = holder x (locks s)) -> rest_of s1 = rest_of s ->
  started_post i (with_search c (pid c) t0 n0) d p n t s1 s' -> started_post i c d p n t s s'.
Proof.
  intros Hc E1 E2 E3 E4 E5 (P1 & P2 & P3 & P4 & P5 & P6 & P7). unfold started_post.
  rewrite P1, E1, list_insert_insert_eq, <- E2, <- E3, <- E5. split_and!; try done. intros x. by rewrite P5, E4.
Qed.
Lemma failed_trans i c n msg n0 t0 s s1 s' : clients s !! i = Some c -> clients s1 = <[i := with_search c (pid c) t0 n0]> (clients s) ->
  pids s1 = pids s -> children s1 = children s -> (forall x, holder x (locks s1) = holder x (locks s)) -> rest_of s1 = rest_of s ->
  failed_post i (with_search c (pid c) t0 n0) n msg s1 s' -> failed_post i c n msg s s'.
Proof.
  intros Hc E1 E2 E3 E4 E5 ((t & P1) & P2 & P3 & P4 & P5 & P6 & P7). unfold failed_post.
  rewrite P2, P3, P6, E2, E3, E5. split_and!; try done; [exists t; by rewrite P1, E1, list_insert_insert_eq|]. intros x. by rewrite P5, E4.
Qed.

(** The state between two entries of the Systems file. *)
Record searching (i : nat) (c : client) (before : list (conf systems_t)) (msg : list Z) (h : list Z -> Z) (s : calld) : Prop := Searching {
  sr_client : clients s !! i = Some c;
  sr_debug : o_Debug (globals s) = false;
  sr_msg : o_errmsg (globals s) = msg;
  sr_table : table_ok (locks s);
  sr_holder : forall x, holder x (locks s) = h x;
  sr_pos : default 0 (fpsys s) = Z.of_nat (length (conf_text sys_fields before))
}.

Context (ls : list (conf systems_t)) (ds : list (conf devices_t)).
Context (Hsys : systems_file = Some (conf_text sys_fields ls)) (Hls : Forall (conf_ok sys_ok) ls) (Hbrief : Forall sys_brief ls).
Context (Hdev : devices_file = Some (conf_text dev_fields ds)) (Hds : Forall (conf_ok dev_ok) ds).

(** The end of a turn that found a free line: fork and lock. *)
Lemma start_child_ok i c d p ps t n s : clients s !! i = Some (with_search c (pid c) t n) -> table_ok (locks s) -> pids s = p :: ps -> 0 <= p -> is_Some (fpsys s) ->
  exists s', start_child i (d_line d) s = Ret true s' /\ started_post i (with_search c (pid c) t n) d p n t s s'.
Proof.
  intros Hc Ht Hp Hp0 Hf. unfold start_child. rewrite run_cget, Hp. bfalse (p <? 0). cbn iota. rewrite bind_mret, run_modify_c.
  assert (Hc1 : clients (set_pids ps s) !! i = Some (with_search c (pid c) t n)) by done.
  rewrite (bind_ret _ _ _ _ _ (upd_client_ok i _ (set_pid p) _ Hc1)), run_modify_c.
  set (s1 := set_children _ _). destruct (lock_set_ok (d_line d) p s1) as (l' & El & Tl & Hl); [done|].
  rewrite (bind_ret _ _ _ _ _ El). eexists. split; [done|]. split_and!; done.
Qed.

(** An attempt with a matching entry, given what the following entries lead to. *)
Lemma try_entry_ok i c h e t before msg s p ps next (Q : bool -> calld -> Prop) :
  searching i (with_search c (pid c) t (foundone c)) before msg h s -> is_Some (fpsys s) -> Forall (dev_brief h) ds ->
  Z.of_nat (length (no_device (s_type e) (s_class e))) < MAXLINE -> pids s = p :: ps -> 0 <= p ->
  (forall n3 msg3 s3, clients s3 = <[i := with_search c (pid c) t n3]> (clients s) -> searching i (with_search c (pid c) t n3) before msg3 h s3 ->
     pids s3 = pids s -> children s3 = children s -> rest_of s3 = rest_of s ->
     n3 = foundone c + 1 -> (exists d, find_dev (s_type e) (s_class e) ds = Some d /\ h (d_line d) <> 0 /\ msg3 = busy_msg (d_line d) (h (d_line d))) ->
     exists b s', next s3 = Ret b s' /\ Q b s') ->
  (forall d, find_dev (s_type e) (s_class e) ds = Some d -> h (d_line d) = 0 ->
     forall s', started_post i (with_search c (pid c) t (foundone c + 1)) d p (foundone c + 1) t
       s s' -> Q true s') ->
  (find_dev (s_type e) (s_class e) ds = None -> forall s', failed_post i (with_search c (pid c) t (foundone c)) (foundone c + 1) (no_device (s_type e) (s_class e)) s s' -> Q false s') ->
  exists b s', try_entry next i e s = Ret b s' /\ Q b s'.
Proof.
  intros [S1 S2 S3 S4 S5 S6] Hfp Fd Fe Hp Hp0 Hbusy Hfree Hnone. unfold try_entry.
  rewrite (bind_ret _ _ _ _ _ (DEBUG_off _ s S2)). rewrite (bind_ret _ _ _ _ _ (upd_client_ok i _ _ s S1)).
  set (s1 := set_clients _ s). assert (Hi : (i < length (clients s))%nat) by (by eapply lookup_lt_Some).
  assert (C1 : clients s1 !! i = Some (with_search c (pid c) t (foundone c + 1))) by (apply list_lookup_insert_eq; done).
  pose proof (dev_find_ok ds e s1 Hdev Hds Fe) as Hd. destruct (find_dev _ _ ds) as [d|] eqn:Efd.
  - destruct Hd as [q Hd]. rewrite (bind_ret _ _ _ _ _ Hd). change (0 <? 0) with false. cbn iota. rewrite run_cget.
    set (s2 := set_devices d (set_fpdev q s1)). change (devices s2) with d.
    rewrite (bind_ret _ _ _ _ _ (DEBUG_off _ s2 S2)). destruct (is_locked_ok (d_line d) s2 S4) as (l' & Ei & Tl & Hl). rewrite (bind_ret _ _ _ _ _ Ei).
    change (locks s2) with (locks s) in *. rewrite S5. destruct (Z.eqb_spec (h (d_line d)) 0) as [Hz|Hz]; cbn [negb].
    + destruct (start_child_ok i c d p ps t (foundone c + 1) (set_locks l' s2)) as (s' & Es & Ps); [done..|].
      exists true, s'. split; [done|]. apply (Hfree d eq_refl Hz). destruct Ps as (P1 & P2 & P3 & P4 & P5 & P6 & P7). split_and!; try done.
      * rewrite P1. unfold s2, s1. cbn. by rewrite list_insert_insert_eq.
      * intros x. by rewrite P5, <- Hl.
    + assert (Hm : Z.of_nat (length (busy_msg (d_line d) (h (d_line d)))) < MAXLINE).
      { rewrite Forall_forall in Fd. apply (Fd (Entry d)). by apply (find_dev_in _ _ _ _ Efd). }
      rewrite (bind_ret _ _ _ _ _ (set_error_ok _ _ Hm)).
      apply (Hbusy (foundone c + 1) (busy_msg (d_line d) (h (d_line d)))); try done; [|by eexists]. split; try done. intros x. cbn. by rewrite Hl.
  - destruct Hd as (q & d & Hd). rewrite (bind_ret _ _ _ _ _ Hd). change (-1 <? 0) with true. cbn iota. eexists false, _. split; [done|].
    apply (Hnone eq_refl). split_and!; try done. by exists t.
Qed.

(** What the loop has done when the reference says [r]. *)
Definition picked_post (i : nat) (c : client) (p : Z) (before : list (conf systems_t)) s (r : picked) (started : bool) s' : Prop :=
  match r with
  | Found d n rest => started = true /\ exists before', ls = before' ++ rest /\ (length before < length before')%nat /\
      started_post i c d p n (Z.of_nat (length (conf_text sys_fields before'))) s s'
  | Failed n msg => started = false /\ failed_post i c n msg s s'
  end.
Lemma picked_trans i c p before more t0 n0 s s1 r b s' : clients s !! i = Some c -> clients s1 = <[i := with_search c (pid c) t0 n0]> (clients s) ->
  pids s1 = pids s -> children s1 = children s -> (forall x, holder x (locks s1) = holder x (locks s)) -> rest_of s1 = rest_of s ->
  picked_post i (with_search c (pid c) t0 n0) p (before ++ more) s1 r b s' -> picked_post i c p before s r b s'.
Proof.
  intros Hc E1 E2 E3 E4 E5. destruct r as [d n rest|n msg]; cbn [picked_post].
  - intros (-> & b' & L & Hlt & P). split; [done|]. exists b'. split_and!; [done|rewrite length_app in Hlt; lia|]. by eapply started_trans.
  - intros [-> P]. split; [done|]. by eapply failed_trans.
Qed.

Lemma request_loop_ok i h k : forall before after fuel c msg s p ps, length after = k -> ls = before ++ after ->
  Forall (dev_brief h) ds -> searching i c before msg h s -> pids s = p :: ps -> 0 <= p -> (length after < fuel)%nat ->
  exists b s', request_loop fuel i s = Ret b s' /\ picked_post i c p before s (pick (csysname c) (cspeed c) ds h (foundone c) msg after) b s'.
Proof.
  induction k as [k IH] using lt_wf_ind. intros before after fuel c msg s p ps Hk El Fd S Hp Hp0 Hfu.
  destruct fuel as [|f]; [lia|]. cbn [request_loop]. destruct S as [S1 S2 S3 S4 S5 S6].
  assert (Fa : Forall (conf_ok sys_ok) after) by (pose proof Hls as X; rewrite El in X; by apply Forall_app in X as [_ ?]).
  assert (Fb : Forall sys_brief after) by (pose proof Hbrief as X; rewrite El in X; by apply Forall_app in X as [_ ?]).
  pose proof (sys_next_ok before after s ltac:(by rewrite <- El) Fa S6) as Hnx. pose proof (next_entry_spec after) as Hsp.
  destruct (next_entry after) as [[[e r] rest]|]; cbn zeta in Hnx.
  2: { destruct Hnx as [q Hnx]. rewrite (bind_ret _ _ _ _ _ Hnx). rewrite (bind_ret _ _ _ _ _ (upd_client_ok i c _ (set_fpsys q s) S1)).
    change (-1 <? 0) with true. cbn iota. rewrite <- (app_nil_r after), pick_skip by done. cbn [pick].
    eexists false, _. split; [done|]. split; [done|]. split_and!; try done. by exists (-1). }
  destruct Hsp as (-> & Hlen & sk & -> & Fs). set (read := sk ++ [Entry e]) in *. set (pos := Z.of_nat (length (conf_text sys_fields (before ++ read)))) in *.
  assert (Fe : Z.of_nat (length (no_device (s_type e) (s_class e))) < MAXLINE).
  { unfold read in Fb. rewrite <- app_assoc in Fb. apply Forall_app in Fb as [_ Fb]. by apply Forall_cons in Fb as [? _]. }
  unfold read at 1. rewrite <- app_assoc, pick_skip by done. cbn [app pick]. assert (El' : ls = (before ++ read) ++ rest) by (by rewrite El, <- !app_assoc).
  rewrite (bind_ret _ _ _ _ _ Hnx). rewrite (bind_ret _ _ _ _ _ (upd_client_ok i c _ (set_systems e (set_fpsys (Some pos) s)) S1)).
  bfalse (pos <? 0). cbn iota. set (s2 := set_clients _ _). assert (Hi : (i < length (clients s))%nat) by (by eapply lookup_lt_Some).
  assert (C2 : clients s2 !! i = Some (with_search c (pid c) pos (foundone c))) by (apply list_lookup_insert_eq; done).
  rewrite (bind_ret _ _ _ _ _ (client_at_ok i _ s2 C2)), run_cget. change (systems s2) with e. cbn [csysname cspeed with_search].
  (* the next turn, from a state that differs in what is not kept *)
  assert (Hnext : forall n3 msg3 s3, clients s3 = <[i := with_search c (pid c) pos n3]> (clients s) -> searching i (with_search c (pid c) pos n3) (before ++ read) msg3 h s3 ->
    pids s3 = pids s -> children s3 = children s -> rest_of s3 = rest_of s ->
    exists b s', request_loop f i s3 = Ret b s' /\ picked_post i c p before s (pick (csysname c) (cspeed c) ds h n3 msg3 rest) b s').
  { intros n3 msg3 s3 E1 S3' E2 E3 E4.
    destruct (IH (length rest) ltac:(lia) (before ++ read) rest f _ msg3 s3 p ps eq_refl El' Fd S3' ltac:(by rewrite E2) Hp0 ltac:(lia)) as (b & s' & R & P).
    exists b, s'. split; [done|]. eapply (picked_trans i c p before read pos n3 s s3); try done. intros x. rewrite S5. apply (sr_holder _ _ _ _ _ _ S3'). }
  assert (Base : searching i (with_search c (pid c) pos (foundone c)) (before ++ read) msg h s2) by (by split).
  unfold wants. destruct (bool_decide (csysname c = s_name e)) eqn:E1; cbn [negb andb]; [|by apply (Hnext (foundone c) msg s2)].
  rewrite <- negb_orb. destruct (bool_decide (cspeed c = []) || bool_decide (cspeed c = s_class e)); cbn [negb]; [|by apply (Hnext (foundone c) msg s2)].
  apply (try_entry_ok i c h e pos (before ++ read) msg s2 p ps (request_loop f i) _ Base); try done.
  - intros n3 msg3 s3 E3 S3' E4 E5 E6 -> (d & Ed & Hz & ->). rewrite Ed. bfalse (h (d_line d) =? 0).
    apply Hnext; try done. rewrite E3. apply list_insert_insert_eq.
  - intros d Ed Hz s' P. rewrite Ed. btrue (h (d_line d) =? 0). split; [done|]. exists (before ++ read).
    split_and!; [done|unfold read; rewrite !length_app; simpl; lia|]. destruct P as (P1 & P2). split; [|exact P2]. rewrite P1. apply list_insert_insert_eq.
  - intros Ed s' P. rewrite Ed. split; [done|]. destruct P as ((t & P1) & P2). split; [|exact P2]. exists t. rewrite P1. apply list_insert_insert_eq.
Qed.

Definition fail_msg (name : list Z) (n : Z) (msg : list Z) : list Z :=
  if n =? 0 then bytes "system `" ++ name ++ bytes "' not found" ++ [10]
  else if bool_decide (msg = []) then bytes "unable to connect to system `" ++ name ++ bytes "'" ++ [10]
  else msg.

Lemma position_zero before : Z.of_nat (length (conf_text sys_fields before)) = 0 -> before = [].
Proof. pose proof (conf_text_lines sys_fields before). destruct before; [done|]. simpl in *. lia. Qed.

Lemma sys_posn_ok before s : (before = [] \/ is_Some (fpsys s)) ->
  exists q, sys_posn (Z.of_nat (length (conf_text sys_fields before))) s = Ret tt (set_fpsys q s) /\
    default 0 q = Z.of_nat (length (conf_text sys_fields before)).
Proof.
  intros Hb. unfold sys_posn. destruct (Z.eqb_spec (Z.of_nat (length (conf_text sys_fields before))) 0) as [Hz|Hz].
  - rewrite Hz. unfold sys_rew. rewrite run_cget. destruct (fpsys s) as [q|] eqn:Eq; [by exists (Some 0)|].
    exists None. split; [|done]. destruct s. simpl in *. by subst.
  - rewrite run_cget. destruct Hb as [->|[q Hq]]; [done|]. rewrite Hq.
    bfalse (Z.of_nat (length (conf_text sys_fields before)) <? 0). by eexists (Some _).
Qed.

(** [request] does what the reference says. *)
Lemma request_ok i c before after h s p ps : ls = before ++ after -> clients s !! i = Some c -> o_Debug (globals s) = false ->
  table_ok (locks s) -> (forall x, holder x (locks s) = h x) -> Forall (dev_brief h) ds ->
  sysftell c = Z.of_nat (length (conf_text sys_fields before)) -> before = [] \/ is_Some (fpsys s) ->
  Z.of_nat (length (csysname c)) < MAXSYSNAME -> pids s = p :: ps -> 0 <= p ->
  match pick (csysname c) (cspeed c) ds h (foundone c) [] after with
  | Found d n rest => exists before' s', request i s = Ret 0 s' /\ ls = before' ++ rest /\ (length before < length before')%nat /\
      started_post i c d p n (Z.of_nat (length (conf_text sys_fields before'))) s s'
  | Failed n msg => exists s', request i s = Ret (-1) s' /\ failed_post i c n (fail_msg (csysname c) n msg) s s'
  end.
Proof.
  intros El Hc Hd Ht Hh Fd Hft Hb Hname Hp Hp0. unfold request. rewrite (bind_ret _ _ _ _ _ (set_error_ok [] s ltac:(done))).
  rewrite (bind_ret _ _ _ _ _ (client_at_ok i c (error_set [] s) Hc)). rewrite Hft.
  destruct (sys_posn_ok before (error_set [] s) Hb) as (q & Eq & Hq). rewrite (bind_ret _ _ _ _ _ Eq). rewrite Hsys. cbn [default].
  set (s1 := set_fpsys q (error_set [] s)). assert (S1 : searching i c before [] h s1) by (by split).
  pose proof (conf_text_lines sys_fields ls) as Hlen.
  pose proof (request_loop_ok i h (length after) before after (S (length (conf_text sys_fields ls))) c [] s1 p ps eq_refl El Fd S1 Hp Hp0) as H.
  destruct H as (b & s' & R & H); [pose proof (f_equal length El) as X; rewrite length_app in X; lia|]. destruct (pick _ _ _ _ _ _ _) as [d n rest|n msg].
  - destruct H as (-> & b' & L & Hlt & P). exists b', s'. change (default [] (Some (conf_text sys_fields ls))) with (conf_text sys_fields ls).
    rewrite (bind_ret _ _ _ _ _ R). by split_and!.
  - destruct H as (-> & ((t & P1) & P2 & P3 & P4 & P5 & P6 & P7)). change (default [] (Some (conf_text sys_fields ls))) with (conf_text sys_fields ls).
    rewrite (bind_ret _ _ _ _ _ R). cbn iota.
    assert (Hi : (i < length (clients s))%nat) by (by eapply lookup_lt_Some).
    assert (C' : clients s' !! i = Some (with_search c (pid c) t n)) by (rewrite P1; apply list_lookup_insert_eq; done).
    rewrite (bind_ret _ _ _ _ _ (client_at_ok i _ s' C')), run_cget. cbn [foundone with_search csysname]. rewrite P7. unfold fail_msg, MAXSYSNAME in *.
    assert (Hl1 : Z.of_nat (length (bytes "system `" ++ csysname c ++ bytes "' not found" ++ [10])) < MAXLINE)
      by (rewrite !length_app; change (length (bytes "system `")) with 8%nat; change (length (bytes "' not found")) with 11%nat; cbn [length]; unfold MAXLINE; lia).
    assert (Hl2 : Z.of_nat (length (bytes "unable to connect to system `" ++ csysname c ++ bytes "'" ++ [10])) < MAXLINE)
      by (rewrite !length_app; change (length (bytes "unable to connect to system `")) with 29%nat; change (length (bytes "'")) with 1%nat; cbn [length]; unfold MAXLINE; lia).
    destruct (n =? 0); [|case_bool_decide].
    + rewrite (bind_ret _ _ _ _ _ (set_error_ok _ s' Hl1)). eexists. split; [done|]. split_and!; try done. by exists t.
    + rewrite (bind_ret _ _ _ _ _ (set_error_ok _ s' Hl2)). eexists. split; [done|]. split_and!; try done. by exists t.
    + eexists. split; [done|]. split_and!; try done. by exists t.
Qed.
End Request.
