(* ===== verification/CalldLive.v ===== *)
(** A client of [src/apue2e/calld] whose dialing children all fail: the server tries the
    remaining entries and at last tells the client. *)
From S2P Require Import Prelude CStr ReadN FdPass CallArgs Calld CalldFiles CalldReq.

Section Live.
Context `{E : CallEnv} (alloc : forall n, alloc_works n = true).
Context (ls : list (conf systems_t)) (ds : list (conf devices_t)).
Context (Hsys : systems_file = Some (conf_text sys_fields ls)) (Hls : Forall (conf_ok sys_ok) ls) (Hbrief : Forall sys_brief ls).
Context (Hdev : devices_file = Some (conf_text dev_fields ds)) (Hds : Forall (conf_ok dev_ok) ds).
Implicit Types s : calld.

(** ** Telling the client *)

Lemma c_write_ok f bs s : can_write f = true -> bs <> [] ->
  writen (c_write f) bs s = Ret (Z.of_nat (length bs)) (set_sent (sent s ++ [(f, (bs, None))]) s).
Proof.
  intros Hf Hb. apply writen_once; [done|]. unfold c_write, c_sendmsg. by rewrite Hf.
Qed.
Lemma c_send_err_ok f msg s : can_write f = true -> msg <> [] ->
  c_send_err f (-1) msg s = Ret 0 (set_sent (sent s ++ [(f, (msg, None)); (f, ([0; 1], None))]) s).
Proof.
  intros Hf Hm. unfold c_send_err, send_err. assert (Hn : 0 < Z.of_nat (length msg)) by (destruct msg; [done|]; cbn [length]; lia). btrue (0 <? Z.of_nat (length msg)).
  rewrite (bind_ret _ _ _ _ _ (c_write_ok f msg s Hf Hm)). rewrite Z.eqb_refl. cbn [negb]. change (0 <=? -1) with false. cbn iota.
  unfold send_fd. change (-1 <? 0) with true. cbn iota. change (status_byte (-1)) with 1.
  unfold mbind, M_bind, c_sendmsg. rewrite Hf. unfold mbind, M_bind, modify, mret, M_ret. cbn [length]. cbn.
  f_equal. destruct s. cbn. by rewrite <- app_assoc.
Qed.

(** ** Finding a client *)

Lemma find_client_ok (p : client -> bool) l i c k : l !! i = Some c -> p c = true -> (forall j d, (j < i)%nat -> l !! j = Some d -> p d = false) ->
  find_client p k l = Some (k + i)%nat.
Proof.
  revert i k. induction l as [|x l IH]; intros i k Hi Hp Hb; [done|]. cbn [find_client]. destruct i as [|i]; simpl in Hi.
  - simplify_eq. rewrite Hp. f_equal. lia.
  - rewrite (Hb 0%nat x) by (done || lia). rewrite (IH i (S k) Hi Hp); [f_equal; lia|]. intros j d Hj Hd. apply (Hb (S j) d); [lia|done].
Qed.

Lemma cli_done_ok i c f s : clients s !! i = Some c -> fd c = f -> (forall j d, j <> i -> clients s !! j = Some d -> fd d <> f) ->
  cli_done f s = Ret tt (set_closed (closed s ++ [f]) (set_allset (allset s ∖ {[f]}) (set_clients (<[i := set_fd (-1) c]> (clients s)) s))).
Proof.
  intros Hc Hf Hu. unfold cli_done, client_del.
  assert (Hfc : find_client (fun c => fd c =? f) 0 (clients s) = Some i).
  { apply (find_client_ok _ _ i c 0); [done|lia|]. intros j d Hj Hd. apply Z.eqb_neq. apply (Hu j); [lia|done]. }
  assert (E1 : (l ← cget clients; match find_client (fun c => fd c =? f) 0 l with Some i => upd_client i (set_fd (-1)) | None => die (Err_quit "can't find client entry for fd %d") end) s =
    Ret tt (set_clients (<[i := set_fd (-1) c]> (clients s)) s)).
  { rewrite run_cget, Hfc. by apply upd_client_ok. }
  rewrite (bind_ret _ _ _ _ _ E1). done.
Qed.

(** ** Clients without a finished child *)

Definition idle (c : client) : Prop := fd c < 0 \/ childdone c = 0.

Lemma child_done_idle i c s : clients s !! i = Some c -> idle c -> child_done_at i s = Ret tt (set_clifd (fd c) s).
Proof.
  intros Hc Hi. unfold child_done_at. rewrite (bind_ret _ _ _ _ _ (client_at_ok i c s Hc)), run_modify_c.
  destruct (fd c <? 0) eqn:Hf; [done|]. destruct Hi as [Hi|Hi]; [apply Z.ltb_ge in Hf; lia|]. rewrite Hi. done.
Qed.
Lemma each_idle l s : Forall (fun j => exists c, clients s !! j = Some c /\ idle c) l ->
  exists v, each child_done_at l s = Ret tt (set_clifd v s).
Proof.
  intros F. revert s F. induction l as [|j l IH]; intros s F; [exists (clifd s); by destruct s|].
  apply Forall_cons in F as [(c & Hc & Hi) F]. cbn [each]. rewrite (bind_ret _ _ _ _ _ (child_done_idle j c s Hc Hi)).
  destruct (IH (set_clifd (fd c) s) F) as [v ->]. by exists v.
Qed.

(** Everybody but client [i] is idle. *)
Definition others_idle (i : nat) s : Prop := forall j d, j <> i -> clients s !! j = Some d -> idle d.

Lemma indices_in m j : j ∈ indices m -> (Z.of_nat j <= m).
Proof. unfold indices. rewrite list_elem_of_In, in_seq. lia. Qed.
Lemma indices_split m i : Z.of_nat i <= m -> exists l1 l2, indices m = l1 ++ i :: l2 /\ i ∉ l1 /\ i ∉ l2 /\
  forall j, j ∈ l1 \/ j ∈ l2 -> Z.of_nat j <= m.
Proof.
  intros Hi. exists (seq 0 i), (seq (S i) (Z.to_nat (m + 1) - S i)). unfold indices.
  replace (Z.to_nat (m + 1)) with (i + S (Z.to_nat (m + 1) - S i))%nat at 1 by lia. rewrite seq_app. cbn [seq].
  split_and!; [done|rewrite list_elem_of_In, in_seq; lia|rewrite list_elem_of_In, in_seq; lia|].
  intros j [Hj|Hj]; rewrite list_elem_of_In, in_seq in Hj; lia.
Qed.
Lemma idle_list i s l : others_idle i s -> Z.of_nat (length (clients s)) > maxi s -> i ∉ l -> (forall j, j ∈ l -> Z.of_nat j <= maxi s) ->
  Forall (fun j => exists c, clients s !! j = Some c /\ idle c) l.
Proof.
  intros O Hm Hn Hl. apply Forall_forall. intros j Hj. destruct (lookup_lt_is_Some_2 (clients s) j) as [c Hc].
  { specialize (Hl j Hj). lia. }
  exists c. split; [done|]. apply (O j); [|done]. by intros ->.
Qed.

(** ** One failure *)

(** A child's failure is reported and the server handles it. *)
Definition fail_turn (p : Z) : M calld unit := sig_chld p (Some 1) ;; loop_turn Interrupted.

Definition pid_range (q : Z) : Prop := 0 <= q < 2 ^ 31.
Context (Hlines : Forall (fun l => match l with Entry d => (length (d_line d) <= 2000)%nat | _ => True end) ds).

Lemma brief_ok h : (forall x, pid_range (h x)) -> Forall (dev_brief h) ds.
Proof.
  intros Hh. eapply Forall_impl; [exact Hlines|]. intros [d| |] Hd; [|done..]. unfold dev_brief, busy_msg. rewrite !length_app.
  pose proof (dec_length_le (h (d_line d)) 10) as Hx. destruct (Hh (d_line d)). specialize (Hx ltac:(split; [done|etrans; [done|by vm_compute]]) ltac:(lia)).
  change (length (bytes "device `")) with 8%nat. change (length (bytes "' already locked by pid ")) with 24%nat. cbn [length]. unfold MAXLINE. lia.
Qed.

(** Client [i] waits while its child [p] dials on [line]; [before] are the lines of the
    Systems file read so far. *)
Record dialing (i : nat) (c : client) (p : Z) (line : list Z) (before : list (conf systems_t)) s : Prop := Dialing {
  dl_client : clients s !! i = Some c;
  dl_pid : pid c = p;
  dl_pos : 0 < p;
  dl_fd : 0 <= fd c;
  dl_done : childdone c = 0;
  dl_tell : sysftell c = Z.of_nat (length (conf_text sys_fields before));
  dl_file : is_Some (fpsys s);
  dl_name : Z.of_nat (length (csysname c)) < MAXSYSNAME;
  dl_maxi : Z.of_nat i <= maxi s < Z.of_nat (length (clients s));
  dl_others : forall j d, j <> i -> clients s !! j = Some d -> idle d /\ pid d <> p /\ pid d ∉ pids s /\ fd d <> fd c;
  dl_table : table_ok (locks s);
  dl_holds : holder line (locks s) = p;
  dl_only : forall x, holder x (locks s) = p -> x = line;
  dl_pids : NoDup (pids s) /\ p ∉ pids s /\ Forall (fun q => 0 < q /\ pid_range q) (pids s);
  dl_fresh : forall x, holder x (locks s) ∉ pids s /\ pid_range (holder x (locks s));
  dl_debug : o_Debug (globals s) = false;
  dl_write : can_write (fd c) = true
}.

Lemma each_app (f : nat -> M calld unit) l1 l2 s s1 : each f l1 s = Ret tt s1 -> each f (l1 ++ l2) s = each f l2 s1.
Proof.
  revert s. induction l1 as [|j l1 IH]; intros s; cbn [each app]; [by intros [= ->]|]. unfold mbind, M_bind.
  destruct (f j s) as [[] s2|]; [|done]. apply IH.
Qed.

Lemma child_done_all_idle s : (forall j d, clients s !! j = Some d -> idle d) -> maxi s < Z.of_nat (length (clients s)) ->
  exists v, child_done s = Ret tt (set_clifd v (set_chld_flag false s)).
Proof.
  intros Hi Hm. unfold child_done. rewrite run_modify_c, run_cget. apply each_idle. apply Forall_forall. intros j Hj%indices_in.
  destruct (lookup_lt_is_Some_2 (clients s) j) as [d Hd]; [cbn [maxi set_chld_flag] in Hj; lia|]. exists d. split; [done|]. by apply (Hi j).
Qed.

(** The turn up to the client concerned, and what follows. *)
Lemma fail_turn_run i c p line before s : dialing i c p line before s ->
  exists v, forall s4, (child_done_at i (set_clients (<[i := set_childdone 2 c]> (clients s)) (set_clifd v (set_chld_flag false s))) = Ret tt s4) ->
    maxi s4 = maxi s -> length (clients s4) = length (clients s) -> (forall j d, clients s4 !! j = Some d -> idle d) ->
    exists v2, fail_turn p s = Ret tt (set_clifd v2 (set_chld_flag false s4)).
Proof.
  intros D. destruct D. set (s1 := set_clients (<[i := set_childdone 2 c]> (clients s)) (set_chld_flag true s)).
  assert (E1 : sig_chld p (Some 1) s = Ret tt s1).
  { unfold sig_chld. rewrite run_modify_c. bfalse (p <=? 0). cbn iota. rewrite bind_mret. unfold client_sigchld. rewrite run_cget.
    rewrite (find_client_ok _ _ i c 0); [|done|lia|].
    - exact (upd_client_ok i c (set_childdone 2) (set_chld_flag true s) dl_client0).
    - intros j d Hj Hd. apply Z.eqb_neq. apply (dl_others0 j d); [lia|done]. }
  destruct (indices_split (maxi s) i (proj1 dl_maxi0)) as (l1 & l2 & El & N1 & N2 & Hl).
  assert (Ho : forall j d, j <> i -> clients s1 !! j = Some d -> idle d).
  { intros j d Hj Hd. unfold s1 in Hd. cbn [clients set_clients] in Hd. rewrite list_lookup_insert_ne in Hd by done. by apply (dl_others0 j). }
  assert (Hlen : length (clients s1) = length (clients s)) by apply length_insert.
  destruct (each_idle l1 (set_chld_flag false s1)) as [v Ev].
  { apply (idle_list i); [done|cbn [maxi clients set_chld_flag]; unfold s1 in *; cbn in *; lia|done|]. intros j Hj. apply Hl. by left. }
  exists v. intros s4 E4 M4 L4 Hall. unfold fail_turn. rewrite (bind_ret _ _ _ _ _ E1). unfold loop_turn. rewrite run_cget.
  change (chld_flag s1) with true. cbn iota.
  assert (Ec : exists w, child_done s1 = Ret tt (set_clifd w s4)).
  { unfold child_done. rewrite run_modify_c, run_cget. change (maxi (set_chld_flag false s1)) with (maxi s). rewrite El.
    rewrite (each_app _ _ _ _ _ Ev). cbn [each]. rewrite (bind_ret _ _ _ _ _ E4).
    apply each_idle. apply Forall_forall. intros j Hj. destruct (lookup_lt_is_Some_2 (clients s4) j) as [d Hd].
    { specialize (Hl j (or_intror Hj)). lia. }
    exists d. split; [done|]. by apply (Hall j). }
  destruct Ec as [w Ec]. rewrite (bind_ret _ _ _ _ _ Ec).
  destruct (child_done_all_idle (set_clifd w s4)) as [v2 Ev2]; [done|cbn [maxi clients set_clifd]; lia|]. exists v2. rewrite Ev2. done.
Qed.

(** The client's entry at that moment: the lock is released and the search goes on. *)
Lemma retry_run i c p line before s v : dialing i c p line before s ->
  let s3 := set_locks (release p (locks s)) (set_clifd (fd c) (set_chld_flag false s)) in
  child_done_at i (set_clients (<[i := set_childdone 2 c]> (clients s)) (set_clifd v (set_chld_flag false s))) =
  (r ← request i; if r <? 0 then drop_client i else mret tt) s3.
Proof.
  intros D s3. destruct D. assert (Hi : (i < length (clients s))%nat) by (by eapply lookup_lt_Some).
  set (s1 := set_clients _ _). assert (C1 : clients s1 !! i = Some (set_childdone 2 c)) by (by apply list_lookup_insert_eq).
  unfold child_done_at. rewrite (bind_ret _ _ _ _ _ (client_at_ok i _ s1 C1)), run_modify_c. cbn [fd childdone pid set_childdone].
  bfalse (fd c <? 0). change (2 =? 0) with false. change (2 =? 1) with false. cbn iota.
  rewrite (bind_ret _ _ _ _ _ (upd_client_ok i _ _ (set_clifd (fd c) s1) C1)). unfold lock_rel. rewrite run_modify_c.
  match goal with |- (_ ≫= _) ?x = _ => replace x with s3; [done|] end.
  unfold s3, s1. destruct s as [cl lk gl cf fs fdv sy dv al fl mx sn cl' ps ch]. cbn in *. rewrite list_insert_insert_eq.
  replace (set_childdone 0 (set_childdone 2 c)) with c by (destruct c; simpl in *; by subst). rewrite list_insert_id by done. by rewrite dl_pid0.
Qed.

Definition told (f : Z) (msg : list Z) : list (Z * (list Z * option Z)) := [(f, (msg, None)); (f, ([0; 1], None))].

Lemma fail_msg_nonempty name n msg : fail_msg name n msg <> [].
Proof. unfold fail_msg. destruct (n =? 0); [done|]. by case_bool_decide. Qed.

Lemma drop_client_ok i c f msg s : clients s !! i = Some c -> fd c = f -> clifd s = f -> o_errmsg (globals s) = msg -> msg <> [] -> can_write f = true ->
  (forall j d, j <> i -> clients s !! j = Some d -> fd d <> f) ->
  drop_client i s = Ret tt (set_closed (closed s ++ [f]) (set_allset (allset s ∖ {[f]})
    (set_clients (<[i := set_fd (-1) c]> (clients s)) (set_sent (sent s ++ told f msg) s)))).
Proof.
  intros Hc Hf Hcf Hm Hne Hw Hu. unfold drop_client. rewrite (bind_ret _ _ _ _ _ (client_at_ok i c s Hc)), run_cget, Hf, Hm.
  rewrite (bind_ret _ _ _ _ _ (c_send_err_ok f msg s Hw Hne)). change (0 <? 0) with false. cbn iota. rewrite bind_mret, run_cget.
  cbn [clifd set_sent]. rewrite Hcf. exact (cli_done_ok i c f (set_sent (sent s ++ told f msg) s) Hc Hf Hu).
Qed.

(** The line picked was free. *)
Lemma pick_free name speed h d n rest a m after : pick name speed ds h a m after = Found d n rest -> h (d_line d) = 0.
Proof.
  revert a m. induction after as [|[e| |] after IH]; intros a m; cbn [pick]; [done| |apply IH..].
  destruct (wants _ _ e); [|apply IH]. destruct (find_dev _ _ ds) as [d0|]; [|done]. destruct (Z.eqb_spec (h (d_line d0)) 0); [|apply IH]. by intros [= -> _ _].
Qed.

(** The state in which the search goes on, and its outcome. *)
Definition retry_state (c : client) (p : Z) s : calld := set_locks (release p (locks s)) (set_clifd (fd c) (set_chld_flag false s)).
Definition freed (line : list Z) s (x : list Z) : Z := if decide (x = line) then 0 else holder x (locks s).
Lemma retry_request i c p line before after s q qs : ls = before ++ after -> dialing i c p line before s -> pids s = q :: qs ->
  (forall x, holder x (locks (retry_state c p s)) = freed line s x) /\
  match pick (csysname c) (cspeed c) ds (freed line s) (foundone c) [] after with
  | Found d n rest => exists before' s', request i (retry_state c p s) = Ret 0 s' /\ ls = before' ++ rest /\ (length before < length before')%nat /\
      started_post i c d q n (Z.of_nat (length (conf_text sys_fields before'))) (retry_state c p s) s'
  | Failed n msg => exists s', request i (retry_state c p s) = Ret (-1) s' /\ failed_post i c n (fail_msg (csysname c) n msg) (retry_state c p s) s'
  end.
Proof.
  intros El D Eq. destruct D. destruct (lock_rel_ok line p s dl_table0 ltac:(lia) dl_holds0 dl_only0) as [Tr Hr]. split; [exact Hr|].
  destruct dl_pids0 as (_ & _ & Fq). rewrite Eq in Fq. apply Forall_cons in Fq as [[Hq0 _] _].
  assert (Fd : Forall (dev_brief (freed line s)) ds).
  { apply brief_ok. intros x. unfold freed. destruct (decide (x = line)); [unfold pid_range; lia|apply dl_fresh0]. }
  exact (request_ok alloc ls ds Hsys Hls Hbrief Hdev Hds i c before after _ (retry_state c p s) q qs El dl_client0 dl_debug0 Tr Hr Fd dl_tell0 (or_intror dl_file0) dl_name0 Eq ltac:(lia)).
Qed.

(** The search finds a line: a new child dials on it. *)
Lemma failure_retried i c p line before after s q qs d n rest : ls = before ++ after -> dialing i c p line before s -> pids s = q :: qs ->
  pick (csysname c) (cspeed c) ds (freed line s) (foundone c) [] after = Found d n rest ->
  exists c' line' before' s', fail_turn p s = Ret tt s' /\ ls = before' ++ rest /\ (length rest < length after)%nat /\
     dialing i c' q line' before' s' /\ fd c' = fd c /\ length (pids s) = S (length (pids s')) /\
     (forall x, holder x (locks s') = if decide (x = line') then q else if decide (x = line) then 0 else holder x (locks s)) /\
     holder line' (locks s) = (if decide (line' = line) then p else 0) /\
     sent s' = sent s /\ closed s' = closed s /\ allset s' = allset s.
Proof.
  intros El D Eq Epick. destruct (fail_turn_run i c p line before s D) as [v Hrun]. pose proof (retry_run i c p line before s v D) as Hretry. cbn zeta in Hretry.
  destruct (retry_request i c p line before after s q qs El D Eq) as [Hr H]. rewrite Epick in H. fold (retry_state c p s) in Hretry.
  set (s3 := retry_state c p s) in *. destruct D. destruct (pids s) as [|q0 qs0] eqn:E0; [done|]. injection Eq as -> ->.
  destruct dl_pids0 as (ND & Np & Fq). apply NoDup_cons in ND as [Nq ND]. apply Forall_cons in Fq as [[Hq0 Hqr] Fq].
  assert (Hi : (i < length (clients s))%nat) by lia.
  destruct H as (b' & s4 & R & L & Hlt & (P1 & P2 & P3 & P4 & P5 & P6 & P7)). rewrite (bind_ret _ _ _ _ _ R) in Hretry. change (0 <? 0) with false in Hretry. cbn iota in Hretry.
  change (clients s3) with (clients s) in P1. change (pids s3) with (pids s) in P2. unfold rest_of in P6. injection P6 as Q1 Q2 Q3 Q4 Q5 Q6 Q7.
  cbn [clifd allset chld_flag maxi sent closed globals s3 retry_state set_locks set_clifd set_chld_flag] in Q1, Q2, Q3, Q4, Q5, Q6, Q7.
  set (c' := with_search c q (Z.of_nat (length (conf_text sys_fields b'))) n) in *.
  assert (L4 : length (clients s4) = length (clients s)) by (rewrite P1; apply length_insert).
  assert (Hoth : forall j e, j <> i -> clients s4 !! j = Some e -> clients s !! j = Some e).
  { intros j e Hj He. by rewrite P1, list_lookup_insert_ne in He. }
  assert (C4 : clients s4 !! i = Some c') by (rewrite P1; by apply list_lookup_insert_eq).
  destruct (Hrun s4 Hretry Q4 L4) as [v2 Ef].
  { intros j e He. destruct (decide (j = i)) as [->|N]; [|by apply (dl_others0 j e N), Hoth]. rewrite C4 in He. simplify_eq. by right. }
  rewrite E0 in P2. injection P2 as P2.
  pose proof (pick_free _ _ _ _ _ _ _ _ _ Epick) as Hfree.
  exists c', (d_line d), b', (set_clifd v2 (set_chld_flag false s4)). split_and!; try done.
  - pose proof (f_equal length El) as X1. pose proof (f_equal length L) as X2. rewrite length_app in X1. rewrite length_app in X2. lia.
  - split; try done; cbn [clients maxi pids locks globals set_clifd set_chld_flag fpsys].
    + rewrite Q4, L4. done.
    + intros j e Hj He%Hoth; [|done]. destruct (dl_others0 j e Hj He) as (O1 & O2 & O3 & O4). rewrite not_elem_of_cons in O3. destruct O3 as [O3 O5].
      split_and!; [done|done| |done]. by rewrite <- P2.
    + rewrite P5. by rewrite decide_True.
    + intros x. rewrite P5. destruct (decide (x = d_line d)); [done|]. rewrite Hr. unfold freed. destruct (decide (x = line)); [lia|].
      intros Hx. destruct (dl_fresh0 x) as [Hf _]. rewrite Hx in Hf. apply not_elem_of_cons in Hf as [Hf _]. done.
    + rewrite <- P2. done.
    + intros x. rewrite P5. destruct (decide (x = d_line d)); [rewrite <- P2; done|]. rewrite Hr. unfold freed. destruct (decide (x = line)).
      { split; [|unfold pid_range; lia]. rewrite <- P2. intros H0. rewrite Forall_forall in Fq. specialize (Fq 0 H0). lia. }
      destruct (dl_fresh0 x) as [Hf Hx]. apply not_elem_of_cons in Hf as [_ Hf]. by rewrite <- P2.
    + cbn in *. congruence.
  - cbn [pids set_clifd set_chld_flag]. by rewrite <- P2.
  - intros x. cbn [locks set_clifd set_chld_flag]. rewrite P5. by rewrite Hr.
  - unfold freed in Hfree. destruct (decide (d_line d = line)) as [->|]; done.
Qed.

(** The search fails: the client is told. *)
Lemma failure_told i c p line before after s q qs n msg : ls = before ++ after -> dialing i c p line before s -> pids s = q :: qs ->
  pick (csysname c) (cspeed c) ds (freed line s) (foundone c) [] after = Failed n msg ->
  exists c' s', fail_turn p s = Ret tt s' /\ clients s' !! i = Some c' /\ fd c' = -1 /\
     sent s' = sent s ++ told (fd c) (fail_msg (csysname c) n msg) /\ closed s' = closed s ++ [fd c] /\ allset s' = allset s ∖ {[fd c]} /\
     (forall x, holder x (locks s') = if decide (x = line) then 0 else holder x (locks s)).
Proof.
  intros El D Eq Epick. destruct (fail_turn_run i c p line before s D) as [v Hrun]. pose proof (retry_run i c p line before s v D) as Hretry. cbn zeta in Hretry.
  destruct (retry_request i c p line before after s q qs El D Eq) as [Hr H]. rewrite Epick in H. fold (retry_state c p s) in Hretry.
  set (s3 := retry_state c p s) in *. destruct D. assert (Hi : (i < length (clients s))%nat) by lia.
  destruct H as (s4 & R & ((t & P1) & P2 & P3 & P4 & P5 & P6 & P7)). rewrite (bind_ret _ _ _ _ _ R) in Hretry.
  change (-1 <? 0) with true in Hretry. cbn iota in Hretry.
  change (clients s3) with (clients s) in P1. unfold rest_of in P6. injection P6 as Q1 Q2 Q3 Q4 Q5 Q6 Q7.
  cbn [clifd allset chld_flag maxi sent closed globals s3 retry_state set_locks set_clifd set_chld_flag] in Q1, Q2, Q3, Q4, Q5, Q6, Q7.
  set (c' := with_search c (pid c) t n) in *.
  assert (C4 : clients s4 !! i = Some c') by (rewrite P1; by apply list_lookup_insert_eq).
  assert (Hoth : forall j e, j <> i -> clients s4 !! j = Some e -> clients s !! j = Some e).
  { intros j e Hj He. by rewrite P1, list_lookup_insert_ne in He. }
  rewrite (drop_client_ok i c' (fd c) _ s4 C4 eq_refl Q1 P7 (fail_msg_nonempty _ _ _) dl_write0) in Hretry
    by (intros j e Hj He%Hoth; [by apply (dl_others0 j e)|done]).
  destruct (Hrun _ Hretry) as [v2 Ef].
  - done.
  - cbn [clients set_closed set_allset set_clients]. rewrite P1, !length_insert. done.
  - intros j e He. cbn [clients set_closed set_allset set_clients] in He. destruct (decide (j = i)) as [->|N].
    + rewrite list_lookup_insert_eq in He by (by eapply lookup_lt_Some). simplify_eq. by left.
    + rewrite list_lookup_insert_ne in He by done. by apply (dl_others0 j e N), Hoth.
  - exists (set_fd (-1) c'). eexists. split; [exact Ef|].
    cbn [clients sent closed allset locks set_clifd set_chld_flag set_closed set_allset set_clients set_sent]. rewrite Q2, Q5, Q6.
    split_and!; [apply list_lookup_insert_eq; by eapply lookup_lt_Some|done|done..|].
    intros x. rewrite P5. apply Hr.
Qed.

Lemma one_failure i c p line before after s : ls = before ++ after -> dialing i c p line before s -> (length after < length (pids s))%nat ->
  (exists c' q line' before' rest s', fail_turn p s = Ret tt s' /\ ls = before' ++ rest /\ (length rest < length after)%nat /\
     dialing i c' q line' before' s' /\ fd c' = fd c /\ length (pids s) = S (length (pids s')) /\
     (forall x, holder x (locks s') = if decide (x = line') then q else if decide (x = line) then 0 else holder x (locks s)) /\
     holder line' (locks s) = (if decide (line' = line) then p else 0) /\
     sent s' = sent s /\ closed s' = closed s /\ allset s' = allset s) \/
  (exists c' msg s', fail_turn p s = Ret tt s' /\ clients s' !! i = Some c' /\ fd c' = -1 /\ msg <> [] /\
     sent s' = sent s ++ told (fd c) msg /\ closed s' = closed s ++ [fd c] /\ allset s' = allset s ∖ {[fd c]} /\
     (forall x, holder x (locks s') = if decide (x = line) then 0 else holder x (locks s))).
Proof.
  intros El D Hp. assert (exists q qs, pids s = q :: qs) as (q & qs & Eq) by (destruct (pids s) as [|q qs]; [simpl in Hp; lia|by exists q, qs]).
  destruct (pick (csysname c) (cspeed c) ds (freed line s) (foundone c) [] after) as [d n rest|n msg] eqn:Epick.
  - left. destruct (failure_retried i c p line before after s q qs d n rest El D Eq Epick) as (c' & line' & b' & s' & H). by exists c', q, line', b', rest, s'.
  - right. destruct (failure_told i c p line before after s q qs n msg El D Eq Epick) as (c' & s' & H1 & H2 & H3 & H4).
    exists c', (fail_msg (csysname c) n msg), s'. split_and!; try done; [apply fail_msg_nonempty|apply H4..].
Qed.

(** ** All failures *)

(** The client's children fail one after the other, [n] of them at most. *)
Fixpoint fail_turns (n : nat) (i : nat) : M calld unit :=
  match n with
  | O => mret tt
  | S m =>
      c ← client_at i;
      if fd c <? 0 then mret tt else fail_turn (pid c) ;; fail_turns m i
  end.

Lemma all_failures i m : forall c p line before after s, (length after < m)%nat -> ls = before ++ after -> dialing i c p line before s -> (length after < length (pids s))%nat ->
  exists c' msg s', fail_turns m i s = Ret tt s' /\ clients s' !! i = Some c' /\ fd c' = -1 /\ msg <> [] /\
    sent s' = sent s ++ told (fd c) msg /\ closed s' = closed s ++ [fd c] /\ allset s' = allset s ∖ {[fd c]} /\
    (forall x, holder x (locks s') = if decide (x = line) then 0 else holder x (locks s)).
Proof.
  induction m as [|m IH]; intros c p line before after s Hk El D Hp; [lia|]. cbn [fail_turns].
  rewrite (bind_ret _ _ _ _ _ (client_at_ok i c s (dl_client _ _ _ _ _ _ D))). pose proof (dl_fd _ _ _ _ _ _ D). bfalse (fd c <? 0).
  rewrite (dl_pid _ _ _ _ _ _ D). destruct (one_failure i c p line before after s El D Hp) as [H1|H1].
  - destruct H1 as (c' & q & line' & b' & rest & s1 & Ef & L & Hlt & D' & Hfd & Hps & Hh & Hfree & Hs & Hcl & Ha). rewrite (bind_ret _ _ _ _ _ Ef).
    destruct (IH c' q line' b' rest s1 ltac:(lia) L D' ltac:(lia)) as (c2 & msg & s' & Et & C2 & F2 & Hm & S2 & Cl2 & A2 & H2).
    exists c2, msg, s'. rewrite S2, Cl2, A2, Hs, Hcl, Ha, Hfd. split_and!; try done.
    intros x. rewrite H2, Hh. destruct (decide (x = line')) as [->|]; [|done]. rewrite Hfree. by destruct (decide (line' = line)).
  - destruct H1 as (c' & msg & s1 & Ef & C2 & F2 & Hm & H1). rewrite (bind_ret _ _ _ _ _ Ef). exists c', msg, s1. split_and!; try done; [|apply H1..].
    destruct m; cbn [fail_turns]; [done|]. rewrite (bind_ret _ _ _ _ _ (client_at_ok i c' s1 C2)), F2. done.
Qed.
End Live.
