(* ===== verification/Dial.v ===== *)
(** The dialing child of [src/apue2e/calld]: [childdial.c], [dialfile.c], [ttyopen.c],
    [ttydial.c], [expectstr.c], [sendstr.c] and [ctlstr.c].  Debugging output is left
    out. *)
From S2P Require Import Prelude CStr ReadN FdPass CallArgs Calld.

(** ** Data *)

Record dialers_t := Dialers { l_dialer : list Z; l_sub : list Z; l_expsend : list Z }.

(** What reading the line gives: a byte, or nothing until the alarm interrupts, or an
    error.  After the last one nothing more comes. *)
Inductive input := Byte (b : Z) | Alarm | ReadError.

Record termios := Termios { c_cflag : Z; c_iflag : Z; c_oflag : Z; c_lflag : Z; c_vmin : Z; c_vtime : Z; c_speed : Z }.

Class DialEnv := {
  dialers_file : option (list Z);
  open_line : list Z -> list Z + Z;   (* open(devname, O_RDWR | O_NONBLOCK): strerror's text, or a descriptor *)
  is_tty : Z -> bool;
  tcgetattr_works : Z -> bool;
  tcsetattr_works : Z -> bool;
  client_writable : Z -> bool
}.

Record child := Child {
  line_in : list input;
  line_out : list Z;
  caught_alrm : bool;
  child_errmsg : list Z;
  tty : option termios;
  fpdial : option Z;
  dialers : option dialers_t;                    (* none: not yet filled in *)
  to_client : list (list Z * option Z);
  slept : Z                                      (* microseconds *)
}.
Definition set_in x s := Child x (line_out s) (caught_alrm s) (child_errmsg s) (tty s) (fpdial s) (dialers s) (to_client s) (slept s).
Definition set_out x s := Child (line_in s) x (caught_alrm s) (child_errmsg s) (tty s) (fpdial s) (dialers s) (to_client s) (slept s).
Definition set_caught x s := Child (line_in s) (line_out s) x (child_errmsg s) (tty s) (fpdial s) (dialers s) (to_client s) (slept s).
Definition set_cerr x s := Child (line_in s) (line_out s) (caught_alrm s) x (tty s) (fpdial s) (dialers s) (to_client s) (slept s).
Definition set_tty x s := Child (line_in s) (line_out s) (caught_alrm s) (child_errmsg s) x (fpdial s) (dialers s) (to_client s) (slept s).
Definition set_fpdial x s := Child (line_in s) (line_out s) (caught_alrm s) (child_errmsg s) (tty s) x (dialers s) (to_client s) (slept s).
Definition set_dialers x s := Child (line_in s) (line_out s) (caught_alrm s) (child_errmsg s) (tty s) (fpdial s) x (to_client s) (slept s).
Definition set_to_client x s := Child (line_in s) (line_out s) (caught_alrm s) (child_errmsg s) (tty s) (fpdial s) (dialers s) x (slept s).
Definition set_slept x s := Child (line_in s) (line_out s) (caught_alrm s) (child_errmsg s) (tty s) (fpdial s) (dialers s) (to_client s) x.

Abbreviation MD := (M child).
Definition chget {A} (f : child -> A) : MD A := fun s => Ret (f s) s.
Definition child_error (m : list Z) : MD unit :=
  if MAXLINE <=? Z.of_nat (length m) then die (Undefined "sprintf past the end of errmsg") else modify (set_cerr m).

(** Three octal digits. *)
Definition octal3 (c : Z) : list Z := [48 + c / 64; 48 + c / 8 mod 8; 48 + c mod 8].
Definition ctl_str (c : Z) : list Z :=
  if c =? 0 then bytes "\0"
  else if c <? 32 then [94; c + 65 - 1]
  else if c =? 127 then bytes "DEL"
  else if 127 <? c then 92 :: octal3 c
  else [c].

(** ** expectstr.c *)

(** [exp_read]: the byte stored, if one was read.  The value -1 is returned as a
    [size_t], so that no caller's test for a negative result succeeds. *)
Definition exp_read : MD (option Z) :=
  caught ← chget caught_alrm;
  if caught : bool then mret None else
  i ← chget line_in;
  match i with
  | Byte b :: i' => modify (set_in i') ;; mret (Some b)
  | [] => modify (set_caught true) ;; mret None
  | Alarm :: i' => modify (fun s => set_caught true (set_in i' s)) ;; mret None
  | ReadError :: _ => die (Err_sys "read error")
  end.

(** Escape sequences of an expect string. *)
Fixpoint expect_escapes (src : list Z) : list Z + list Z :=
  match src with
  | [] => inr []
  | c :: src' =>
      if c =? 92 then
        match src' with
        | [] => inl []
        | e :: src'' =>
            if e =? 114 then match expect_escapes src'' with inr l => inr (13 :: l) | inl m => inl m end
            else if e =? 115 then match expect_escapes src'' with inr l => inr (32 :: l) | inl m => inl m end
            else inl (bytes "unknown expect escape char: \" ++ ctl_str e ++ [10])
        end
      else match expect_escapes src' with inr l => inr (c :: l) | inl m => inl m end
  end.

(** [do ... while (c != expstr[0])]; [c] keeps its value when nothing is read. *)
Fixpoint expect_skip (fuel : nat) (c first : Z) : MD unit :=
  match fuel with
  | O => die Loops
  | S f =>
      r ← exp_read;
      let c' := default c r in
      if c' =? first then mret tt else expect_skip f c' first
  end.
(** Bytes of [inbuf]; none: not written.  [n] more are read. *)
Fixpoint expect_fill (n : nat) (inbuf : list (option Z)) : MD (list (option Z)) :=
  match n with
  | O => mret inbuf
  | S k =>
      if MAXLINE <=? Z.of_nat (length inbuf) then die (Undefined "exp_read past the end of inbuf") else
      r ← exp_read;
      expect_fill k (inbuf ++ [r])
  end.
(** [strncmp(cmpptr, expstr, matchlen) == 0]; none: a byte that was not written. *)
Fixpoint window_eq (w : list (option Z)) (e : list Z) : option bool :=
  match e, w with
  | [], _ => Some true
  | b :: e', Some x :: w' => if x =? b then window_eq w' e' else Some false
  | _, _ => None
  end.
(** The last loop; [cmp] is the index of [cmpptr]. *)
Fixpoint expect_match (fuel : nat) (e : list Z) (inbuf : list (option Z)) (cmp : nat) : MD unit :=
  match fuel with
  | O => die Loops
  | S f =>
      match window_eq (drop cmp inbuf) e with
      | None => die (Undefined "byte of inbuf not initialised")
      | Some true => mret tt
      | Some false =>
          if MAXLINE <=? Z.of_nat (length inbuf) then die (Undefined "exp_read past the end of inbuf") else
          r ← exp_read;
          expect_match f e (inbuf ++ [r]) (S cmp)
      end
  end.
(** The fuel bounds the bytes to skip; the last loop ends with the end of [inbuf]. *)
Definition expect_str (fuel : nat) (ptr : list Z) : MD Z :=
  if bool_decide (ptr = [34; 34]) then mret 0 else
  match expect_escapes ptr with
  | inl [] => child_error (bytes "invalid expect string: " ++ ptr ++ [10]) ;; mret (-1)
  | inl m => child_error m ;; mret (-1)
  | inr expstr =>
      let first := default 0 (head expstr) in       (* expstr[0], the null byte of an empty string *)
      modify (set_caught false) ;;
      expect_skip fuel 0 first ;;
      inbuf ← expect_fill (length expstr - 1) [Some first];
      expect_match (Z.to_nat (MAXLINE + 1)) expstr inbuf 0 ;;
      mret 0
  end.

(** ** sendstr.c *)

Definition put_byte (c : Z) : MD unit := modify (fun s => set_out (line_out s ++ [c]) s).

(** Reading the echo, without an alarm. *)
Fixpoint wait_echo (i : list input) (c : Z) : MD unit :=
  match i with
  | Byte b :: i' => modify (set_in i') ;; if b =? c then mret tt else wait_echo i' c
  | [] => die Loops
  | _ => die (Err_sys "read error")
  end.
Definition send_byte (c : Z) (echocheck : bool) : MD unit :=
  put_byte c ;;
  if echocheck then i ← chget line_in; wait_echo i c else mret tt.
Definition pause (us : Z) : MD unit := modify (fun s => set_slept (slept s + us) s).

(** The rest of a send string; [phone echo] sends the telephone number. *)
Fixpoint send_chars (phone : bool -> MD Z) (ptr : list Z) (echocheck : bool) : MD Z :=
  match ptr with
  | [] => put_byte 13 ;; mret 0
  | c :: ptr' =>
      if c =? 92 then
        match ptr' with
        | [] => child_error (bytes "backslash at end of send string" ++ [10]) ;; mret (-1)
        | e :: ptr'' =>
            if e =? 99 then match ptr'' with [] => mret 0 | _ => send_chars phone ptr'' echocheck end          (* \c *)
            else if e =? 100 then pause 2000000 ;; send_chars phone ptr'' echocheck                            (* \d *)
            else if e =? 112 then pause 250000 ;; send_chars phone ptr'' echocheck                             (* \p *)
            else if e =? 101 then send_chars phone ptr'' false                                                 (* \e *)
            else if e =? 69 then send_chars phone ptr'' true                                                   (* \E *)
            else if e =? 84 then phone echocheck ;; send_chars phone ptr'' echocheck                           (* \T *)
            else if e =? 114 then send_byte 13 echocheck ;; send_chars phone ptr'' echocheck                   (* \r *)
            else if e =? 115 then send_byte 32 echocheck ;; send_chars phone ptr'' echocheck                   (* \s *)
            else child_error (bytes "unknown send escape char: \" ++ ctl_str e ++ [10]) ;; mret (-1)
        end
      else send_byte c echocheck ;; send_chars phone ptr' echocheck
  end.
(** The number may hold escapes, even that for the number: the fuel is the depth. *)
Fixpoint send_str (depth : nat) (ptr phone : list Z) (echocheck : bool) : MD Z :=
  match depth with
  | O => die Loops
  | S d => send_chars (send_str d phone phone) ptr echocheck
  end.

(** ** ttydial.c *)

Fixpoint dial_chat (fuel skip : nat) (ptr s phone : list Z) : MD Z :=
  match fuel with
  | O => die Loops
  | S f =>
      r ← expect_str skip ptr;
      if r <? 0 then mret (-1) else
      match strtok white s with
      | None => mret 0
      | Some (snd_, s') =>
          r ← send_str skip snd_ phone false;
          if r <? 0 then mret (-1) else
          match strtok white s' with
          | None => mret 0
          | Some (exp, s'') => dial_chat f skip exp s'' phone
          end
      end
  end.
Definition tty_dial (skip : nat) (phone expsend : list Z) : MD Z :=
  match strtok white expsend with
  | None => die (Undefined "expect string is a null pointer")
  | Some (exp, s) => dial_chat (S (length expsend)) skip exp s phone
  end.

(** ** ttyopen.c *)

Definition CS7 : Z := 0x20.
Definition CS8 : Z := 0x30.
Definition CREAD : Z := 0x80.
Definition PARENB : Z := 0x100.
Definition PARODD : Z := 0x200.
Definition HUPCL : Z := 0x400.
Definition CLOCAL : Z := 0x800.
Definition IGNBRK : Z := 1.
Definition IGNPAR : Z := 4.
Definition ISTRIP : Z := 0x20.
Definition IXON : Z := 0x400.
Definition IXOFF : Z := 0x1000.

(** The speeds with the codes of [termios.h]. *)
Definition bauds : list (list Z * Z) :=
  [(bytes "38400", 15); (bytes "19200", 14); (bytes "9600", 13); (bytes "4800", 12); (bytes "2400", 11);
   (bytes "1800", 10); (bytes "1200", 9); (bytes "600", 8); (bytes "300", 7); (bytes "200", 6);
   (bytes "150", 5); (bytes "134", 4); (bytes "110", 3); (bytes "75", 2); (bytes "50", 1)].
Fixpoint baud_of (class : list Z) (l : list (list Z * Z)) : option Z :=
  match l with
  | [] => None
  | (n, b) :: l' => if bool_decide (class = n) then Some b else baud_of class l'
  end.
Definition line_cflag (par : parity_t) (modem : bool) : Z :=
  let base := match par with NONE => CS8 | EVEN => Z.lor CS7 PARENB | ODD => Z.lor (Z.lor CS7 PARENB) PARODD end in
  let f := Z.lor base (Z.lor CREAD HUPCL) in
  if modem then f else Z.lor f CLOCAL.
Definition line_iflag : Z := Z.lor (Z.lor (Z.lor (Z.lor IXON IXOFF) IGNBRK) ISTRIP) IGNPAR.

Section Child.
Context `{D : DialEnv}.

Definition tty_open (class line : list Z) (par : parity_t) (modem : bool) : MD Z :=
  let devname := bytes "/dev/" ++ line in
  if 100 <=? Z.of_nat (length devname) then die (Undefined "strcat past the end of devname") else
  match open_line devname with
  | inl reason => child_error (bytes "can't open " ++ devname ++ bytes ": " ++ reason ++ [10]) ;; mret (-1)
  | inr fd =>
      if negb (is_tty fd) then child_error (devname ++ bytes " is not a tty" ++ [10]) ;; mret (-1) else
      if negb (tcgetattr_works fd) then die (Err_sys "tcgetattr error") else
      match baud_of class bauds with
      | None => child_error (bytes "invalid baud rate: " ++ class ++ [10]) ;; mret (-1)
      | Some baud =>
          if negb (tcsetattr_works fd) then die (Err_sys "tcsetattr error") else
          modify (set_tty (Some (Termios (line_cflag par modem) line_iflag 0 0 1 0 baud))) ;;
          mret fd
      end
  end.

(** ** dialfile.c *)

Definition child_tok (d : Z -> bool) (s : list Z) (msg : string) : MD (list Z * list Z) :=
  match strtok d s with Some p => mret p | None => die (Err_quit msg) end.
Fixpoint dial_again (fuel : nat) (text : list Z) (pos : Z) : MD Z :=
  match fuel with
  | O => die Loops
  | S f =>
      match fgets_at text pos with
      | None => mret (-1)
      | Some line =>
          let pos' := pos + Z.of_nat (length line) in
          modify (set_fpdial (Some pos')) ;;
          match strtok white (cstr line) with
          | None =>
              if bool_decide (head line = Some 10) then dial_again f text pos'
              else die (Err_quit "missing `dialer' in Dialers file, line %d")
          | Some (dialer, r) =>
              if bool_decide (head dialer = Some 35) then dial_again f text pos' else
              sub ← child_tok white r "missing `sub' in Dialers file, line %d";
              expsend ← child_tok newline_only sub.2 "missing `expsend' in Dialers file, line %d";
              modify (set_dialers (Some (Dialers dialer sub.1 expsend.1))) ;;
              mret 0
          end
      end
  end.
Definition dial_next : MD Z :=
  match dialers_file with
  | None => die (Err_sys "can't open %s")
  | Some text =>
      p ← chget fpdial;
      modify (set_fpdial (Some (default 0 p))) ;;
      dial_again (S (length text)) text (default 0 p)
  end.
Definition dial_rew : MD unit :=
  p ← chget fpdial;
  match p with Some _ => modify (set_fpdial (Some 0)) | None => mret tt end.
(** The message names the dialer read last, not the one looked for. *)
Fixpoint dial_find_loop (fuel : nat) (dialer : list Z) : MD Z :=
  match fuel with
  | O => die Loops
  | S f =>
      r ← dial_next;
      d ← chget dialers;
      if r <? 0 then
        match d with
        | None => die (Undefined "dialer is a null pointer")
        | Some x => child_error (bytes "dialer `" ++ l_dialer x ++ bytes "' not found" ++ [10]) ;; mret (-1)
        end
      else
        match d with
        | Some x => if bool_decide (l_dialer x = dialer) then mret 0 else dial_find_loop f dialer
        | None => die Loops
        end
  end.
Definition dial_find (dialer : list Z) : MD Z :=
  dial_rew ;; dial_find_loop (S (length (default [] dialers_file))) dialer.

(** ** childdial.c *)

Definition ch_sendmsg (to : Z) (bs : list Z) (d : option Z) : MD Z :=
  if client_writable to then modify (fun s => set_to_client (to_client s ++ [(bs, d)]) s) ;; mret (Z.of_nat (length bs))
  else mret (-1).

(** The descriptor of the dialed line, negative when something failed. *)
Definition dial_line (skip : nat) (sy : systems_t) (d : devices_t) (par : parity_t) : MD Z :=
  if bool_decide (d_dialer d = bytes "direct") then tty_open (s_class sy) (d_line d) par false
  else
    r ← dial_find (d_dialer d);
    if r <? 0 then mret (-1) else
    fd ← tty_open (s_class sy) (d_line d) par true;
    if fd <? 0 then mret (-1) else
    dl ← chget dialers;
    r ← tty_dial skip (s_phone sy) (match dl with Some x => l_expsend x | None => [] end);
    if r <? 0 then mret (-1) else mret fd.
(** The exit status. *)
Definition child_dial (skip : nat) (to : Z) (sy : systems_t) (d : devices_t) (par : parity_t) : MD Z :=
  fd ← dial_line skip sy d par;
  if fd <? 0 then
    m ← chget child_errmsg;
    n ← writen (fun bs => ch_sendmsg to bs None) m;
    if negb (n =? Z.of_nat (length m)) then die (Err_sys "writen error") else mret 1
  else
    r ← send_fd ch_sendmsg true to fd;
    if r <? 0 then die (Err_sys "send_fd error") else mret 0.
End Child.
