(* ===== verification/DialChat.v ===== *)
(** The dialogue with a modem, [tty_dial] of [src/apue2e/calld/ttydial.c], against a
    reference that works on the words of the script and on the bytes received. *)
From S2P Require Import Prelude CStr ReadN FdPass CallArgs Calld Dial.

(** ** The reference *)

(** What follows the first occurrence of [e] in [l]. *)
Fixpoint after_first (e l : list Z) : option (list Z) :=
  if bool_decide (take (length e) l = e) then Some (drop (length e) l)
  else match l with [] => None | _ :: l' => after_first e l' end.

(** Waiting for the text of an expect word. *)
Definition hear (w l : list Z) : option (list Z) :=
  if bool_decide (w = [34; 34]) then Some l else
  match expect_escapes w with
  | inr (x :: e) => after_first (x :: e) l
  | _ => None
  end.

(** The bytes of a send word and the time it pauses; none: it is not one that is sent
    without errors and without waiting for echoes. *)
Fixpoint spoken (phone w : list Z) : option (list Z * Z) :=
  match w with
  | [] => Some ([13], 0)
  | c :: w' =>
      if c =? 92 then
        match w' with
        | [] => None
        | e :: w'' =>
            if e =? 99 then match w'' with [] => Some ([], 0) | _ => spoken phone w'' end
            else if e =? 100 then prod_map id (Z.add 2000000) <$> spoken phone w''
            else if e =? 112 then prod_map id (Z.add 250000) <$> spoken phone w''
            else if e =? 101 then spoken phone w''
            else if e =? 84 then prod_map (app (phone ++ [13])) id <$> spoken phone w''
            else if e =? 114 then prod_map (cons 13) id <$> spoken phone w''
            else if e =? 115 then prod_map (cons 32) id <$> spoken phone w''
            else None
        end
      else prod_map (cons c) id <$> spoken phone w'
  end.

(** The script run on the bytes received: those left, those sent, the time. *)
Fixpoint dialogue (phone : list Z) (ws : list (list Z)) (l : list Z) : option (list Z * list Z * Z) :=
  match ws with
  | [] => None
  | e :: ws' =>
      l1 ← hear e l;
      match ws' with
      | [] => Some (l1, [], 0)
      | w :: ws'' =>
          '(o, t) ← spoken phone w;
          match ws'' with
          | [] => Some (l1, o, t)
          | _ => '(l2, o2, t2) ← dialogue phone ws'' l1; Some (l2, o ++ o2, t + t2)
          end
      end
  end.
Fixpoint script (ws : list (list Z)) : list Z :=
  match ws with
  | [] => []
  | [w] => w
  | w :: ws' => w ++ 32 :: script ws'
  end.

(** ** Waiting for a text *)

Implicit Types s : child.
Definition hears (l : list Z) (more : list input) s : Prop := line_in s = map Byte l ++ more /\ caught_alrm s = false.

Lemma set_in_in i j s : set_in i (set_in j s) = set_in i s.
Proof. done. Qed.
Lemma exp_read_byte b l more s : hears (b :: l) more s ->
  exp_read s = Ret (Some b) (set_in (map Byte l ++ more) s) /\ hears l more (set_in (map Byte l ++ more) s).
Proof. intros [Hl Hc]. split; [|by split]. unfold exp_read, mbind, M_bind, chget. rewrite Hc. cbn iota. by rewrite Hl. Qed.

Fixpoint from_first (a : Z) (l : list Z) : list Z :=
  match l with [] => [] | b :: l' => if b =? a then l else from_first a l' end.

Lemma expect_skip_ok first l l' : forall fuel c more s, from_first first l = first :: l' -> hears l more s -> (length l < fuel)%nat ->
  expect_skip fuel c first s = Ret tt (set_in (map Byte l' ++ more) s).
Proof.
  induction l as [|b l IH]; intros fuel c more s Hf Hh Hl; [done|]. destruct fuel as [|f]; [simpl in Hl; lia|]. cbn [expect_skip].
  destruct (exp_read_byte b l more s Hh) as [E H1]. rewrite (bind_ret _ _ _ _ _ E). cbn [default from_option] in *. cbn [from_first] in Hf.
  unfold id. destruct (b =? first) eqn:Eb; [by injection Hf as _ ->|]. rewrite (IH f b more _ Hf H1); [done|]. simpl in Hl. lia.
Qed.
Lemma expect_fill_ok w : forall inbuf l more s, hears (w ++ l) more s -> Z.of_nat (length inbuf + length w) <= MAXLINE ->
  expect_fill (length w) inbuf s = Ret (inbuf ++ map Some w) (set_in (map Byte l ++ more) s).
Proof.
  induction w as [|b w IH]; intros inbuf l more s Hh Hl; cbn [expect_fill length].
  - destruct Hh as [Hh _]. simpl in Hh. rewrite <- Hh, app_nil_r. by destruct s.
  - cbn [length] in Hl. bfalse (MAXLINE <=? Z.of_nat (length inbuf)). cbn iota.
    destruct (exp_read_byte b (w ++ l) more s Hh) as [E H1]. rewrite (bind_ret _ _ _ _ _ E), (IH _ l more); [|done|rewrite length_app; simpl; lia].
    by rewrite <- app_assoc, set_in_in.
Qed.

Lemma window_spec e w : length w = length e -> window_eq (map Some w) e = Some (bool_decide (w = e)).
Proof.
  revert w. induction e as [|b e IH]; intros [|x w] Hl; try done. cbn [map window_eq]. injection Hl as Hl.
  destruct (Z.eqb_spec x b) as [->|N]; [|rewrite bool_decide_eq_false_2; [done|congruence]]. rewrite IH by done. f_equal. apply bool_decide_ext. split; congruence.
Qed.
Lemma after_short e l : (length l < length e)%nat -> after_first e l = None.
Proof.
  induction l as [|b l IH]; intros Hl; cbn [after_first]; (rewrite bool_decide_eq_false_2; [|intros E; apply (f_equal length) in E; rewrite length_take in E; simpl in *; lia]); [done|].
  apply IH. simpl in Hl. lia.
Qed.
Lemma after_window e w u : length w = length e -> w <> e -> e <> [] -> after_first e (w ++ u) = match u with [] => None | x :: u' => after_first e (tail w ++ [x] ++ u') end.
Proof.
  intros Hl Hn He. destruct w as [|y w]; [by destruct e|]. cbn [app after_first tail].
  rewrite bool_decide_eq_false_2 by (rewrite <- Hl; change (y :: w ++ u) with ((y :: w) ++ u); by rewrite take_app_length).
  destruct u as [|x u]; [|done]. rewrite app_nil_r. apply after_short. simpl in Hl. lia.
Qed.
Lemma after_here e u : after_first e (e ++ u) = Some u.
Proof.
  destruct e as [|b e]; [by destruct u|]. cbn [app after_first]. change (b :: e ++ u) with ((b :: e) ++ u).
  by rewrite take_app_length, drop_app_length, bool_decide_eq_true_2.
Qed.
Lemma after_length e l r : after_first e l = Some r -> (length r + length e <= length l)%nat.
Proof.
  induction l as [|b l IH]; cbn [after_first]; case_bool_decide as Ht; try done.
  - intros [= <-]. rewrite take_nil in Ht. by subst.
  - intros [= <-]. apply (f_equal length) in Ht. rewrite length_take in Ht. rewrite length_drop. lia.
  - intros Hr. specialize (IH Hr). simpl. lia.
Qed.

Lemma expect_match_ok e u : forall fuel v w r more s, e <> [] -> length w = length e -> after_first e (w ++ u) = Some r -> hears u more s ->
  Z.of_nat (length v + length w + length u) <= MAXLINE + Z.of_nat (length r) -> (length u < fuel + length r)%nat ->
  expect_match fuel e (map Some (v ++ w)) (length v) s = Ret tt (set_in (map Byte r ++ more) s).
Proof.
  induction u as [|x u IH]; intros fuel v w r more s He Hw Hr Hh Hm Hf; pose proof (after_length _ _ _ Hr) as Hlen; rewrite length_app in Hlen;
    (destruct fuel as [|f]; [simpl in *; lia|]); cbn [expect_match];
    rewrite map_app, <- (length_map Some v), drop_app_length, window_spec by done; (destruct (decide (w = e)) as [->|N]; [rewrite bool_decide_eq_true_2 by done|rewrite bool_decide_eq_false_2 by done]).
  1, 3: rewrite after_here in Hr; injection Hr as <-; destruct Hh as [Hh _]; rewrite <- Hh; by destruct s.
  - by rewrite after_window in Hr.
  - rewrite after_window, app_assoc in Hr by done. pose proof (after_length _ _ _ Hr) as Hlen'.
    destruct w as [|y w]; [by destruct e|]. cbn [tail length] in *. rewrite !length_app in Hlen'. cbn [length] in *.
    assert (Hb : length (map Some v ++ map Some (y :: w)) = S (length v + length w)) by (rewrite length_app, !length_map; simpl; lia).
    rewrite Hb. bfalse (MAXLINE <=? Z.of_nat (S (length v + length w))). cbn iota. destruct (exp_read_byte x u more s Hh) as [E H1]. rewrite (bind_ret _ _ _ _ _ E).
    replace ((map Some v ++ map Some (y :: w)) ++ [Some x]) with (map Some ((v ++ [y]) ++ (w ++ [x]))) by (rewrite !map_app; by rewrite <- !app_assoc).
    replace (S (length (map Some v))) with (length (v ++ [y])) by (rewrite length_app, length_map; simpl; lia).
    rewrite (IH f (v ++ [y]) (w ++ [x]) r more); [done|done| |done|done|..]; rewrite ?length_app; simpl; lia.
Qed.

Lemma after_skip x e l r : after_first (x :: e) l = Some r -> exists u, from_first x l = x :: u /\ after_first (x :: e) (x :: u) = Some r.
Proof.
  induction l as [|b l IH]; cbn [from_first]; [cbn [after_first]; by case_bool_decide|]. destruct (Z.eqb_spec b x) as [->|N]; [by exists l|].
  cbn [after_first]. rewrite bool_decide_eq_false_2; [done|]. simpl. congruence.
Qed.
Lemma from_first_length a l : (length (from_first a l) <= length l)%nat.
Proof. induction l as [|b l IH]; [done|]. simpl. destruct (b =? a); simpl; lia. Qed.

(** [expect_str] takes the input up to the end of the first occurrence of the text. *)
Lemma expect_str_ok fuel w l r more s : hear w l = Some r -> line_in s = map Byte l ++ more -> (length l < fuel)%nat -> Z.of_nat (length l) <= MAXLINE ->
  exists b, expect_str fuel w s = Ret 0 (set_in (map Byte r ++ more) (set_caught b s)).
Proof.
  unfold hear, expect_str. intros Hh Hl Hf Hm. case_bool_decide; [simplify_eq; exists (caught_alrm s); rewrite <- Hl; by destruct s|].
  destruct (expect_escapes w) as [|[|x e]]; [done..|]. exists false. cbn [head default from_option length]. cbn zeta.
  destruct (after_skip x e l r Hh) as (u & Hu & Hr). pose proof (from_first_length x l) as Hlen. rewrite Hu in Hlen.
  pose proof (after_length _ _ _ Hr) as Hru. cbn [length] in Hlen, Hru. set (s1 := set_caught false s).
  assert (H1 : hears l more s1) by (by split). unfold mbind at 1, M_bind at 1, modify. fold s1. unfold id.
  rewrite (bind_ret _ _ _ _ _ (expect_skip_ok x l u fuel 0 more s1 Hu H1 Hf)).
  rewrite <- (take_drop (length e) u) in Hr |- *. set (w1 := take (length e) u) in *. set (u1 := drop (length e) u) in *.
  assert (Hw1 : length w1 = length e) by (unfold w1; rewrite length_take; lia). assert (Hu1 : (length w1 + length u1 = length u)%nat) by (unfold w1, u1; rewrite <- length_app, take_drop; done).
  replace (S (length e) - 1)%nat with (length w1) by lia.
  rewrite (bind_ret _ _ _ _ _ (expect_fill_ok w1 [Some x] u1 more (set_in (map Byte (w1 ++ u1) ++ more) s1) (conj eq_refl eq_refl) ltac:(simpl; lia))), set_in_in.
  assert (Em := expect_match_ok (x :: e) u1 (Z.to_nat (MAXLINE + 1)) [] (x :: w1) r more (set_in (map Byte u1 ++ more) s1)).
  cbn [app length map] in Em |- *. rewrite (bind_ret _ _ _ _ _ (Em ltac:(done) ltac:(lia) Hr (conj eq_refl eq_refl) ltac:(lia) ltac:(unfold MAXLINE in *; lia))). done.
Qed.

(** A line that falls silent before the first byte of the text: the time-out does not
    end the wait, whatever the number of turns. *)
Lemma expect_silent first l : Forall (fun b => b <> first) l -> forall fuel c s, c <> first -> line_in s = map Byte l ->
  exists s', expect_skip fuel c first s = Exit Loops s'.
Proof.
  intros F fuel. revert l F. induction fuel as [|f IH]; intros l F c s Hc Hl; [by eexists|]. cbn [expect_skip]. unfold exp_read, mbind, M_bind, chget, modify.
  destruct (caught_alrm s); [cbn; bfalse (c =? first); by apply (IH l)|]. rewrite Hl.
  destruct F as [|b l Hb F]; cbn; [bfalse (c =? first); by apply (IH [])|]. bfalse (b =? first). by apply (IH l).
Qed.

(** ** Sending *)

Definition said (o : list Z) (t : Z) s : child := set_slept (slept s + t) (set_out (line_out s ++ o) s).
Lemma said_said o t o' t' s : said o' t' (said o t s) = said (o ++ o') (t + t') s.
Proof. unfold said. cbn. by rewrite <- app_assoc, Z.add_assoc. Qed.
Lemma said_nil s : said [] 0 s = s.
Proof. destruct s. unfold said. cbn. by rewrite app_nil_r, Z.add_0_r. Qed.

Lemma put_byte_run {B} c (k : unit -> MD B) s : (put_byte c ≫= k) s = k tt (said [c] 0 s).
Proof. unfold mbind, M_bind, put_byte, modify, said. destruct s. cbn. by rewrite Z.add_0_r. Qed.
Lemma send_byte_run {B} c (k : unit -> MD B) s : (send_byte c false ≫= k) s = k tt (said [c] 0 s).
Proof. unfold mbind, M_bind, send_byte, put_byte, modify, said. destruct s. cbn. by rewrite Z.add_0_r. Qed.
Lemma pause_run {B} us (k : unit -> MD B) s : (pause us ≫= k) s = k tt (said [] us s).
Proof. unfold mbind, M_bind, pause, modify, said. destruct s. cbn. by rewrite app_nil_r. Qed.

Definition plain (phone : list Z) : Prop := Forall (fun c => c <> 92) phone.

Lemma send_plain f phone s : plain phone -> send_chars f phone false s = Ret 0 (said (phone ++ [13]) 0 s).
Proof.
  intros F. revert s. induction F as [|c phone Hc F IH]; intros s; cbn [send_chars app].
  - by rewrite put_byte_run.
  - bfalse (c =? 92). rewrite send_byte_run, IH, said_said. done.
Qed.

Lemma send_chars_ok f phone w s : (forall s, f false s = Ret 0 (said (phone ++ [13]) 0 s)) ->
  forall o t, spoken phone w = Some (o, t) -> send_chars f w false s = Ret 0 (said o t s).
Proof.
  intros Hf. revert s. induction w as [w IH] using (induction_ltof1 _ (@length Z)). unfold ltof in IH.
  intros s o t. destruct w as [|c w]; cbn [spoken send_chars].
  { intros [= <- <-]. by rewrite put_byte_run. }
  destruct (c =? 92).
  2: { intros ((o' & t') & Hs & [= -> ->])%fmap_Some. rewrite send_byte_run, (IH w ltac:(simpl; lia) _ _ _ Hs), said_said. by rewrite Z.add_0_l. }
  destruct w as [|e w]; [done|]. assert (Hl : (length w < length (c :: e :: w))%nat) by (simpl; lia).
  repeat match goal with |- context [if e =? ?k then _ else _] => destruct (Z.eqb_spec e k) as [->|] end; try done.
  - destruct w; [intros [= <- <-]; by rewrite said_nil|]. by apply IH.
  - intros ((o' & t') & Hs & [= -> ->])%fmap_Some. by rewrite pause_run, (IH w Hl _ _ _ Hs), said_said.
  - intros ((o' & t') & Hs & [= -> ->])%fmap_Some. by rewrite pause_run, (IH w Hl _ _ _ Hs), said_said.
  - by apply IH.
  - change (84 =? 69) with false. cbn iota. intros ((o' & t') & Hs & [= -> ->])%fmap_Some. rewrite (bind_ret _ _ _ _ _ (Hf s)), (IH w Hl _ _ _ Hs), said_said. by rewrite Z.add_0_l.
  - change (114 =? 69) with false. cbn iota. intros ((o' & t') & Hs & [= -> ->])%fmap_Some. by rewrite send_byte_run, (IH w Hl _ _ _ Hs), said_said, Z.add_0_l.
  - change (115 =? 69) with false. cbn iota. intros ((o' & t') & Hs & [= -> ->])%fmap_Some. by rewrite send_byte_run, (IH w Hl _ _ _ Hs), said_said, Z.add_0_l.
Qed.

(** ** The dialogue *)

Lemma script_tok w ws : token w -> strtok white (script (w :: ws)) = Some (w, script ws).
Proof. intros Hw. destruct ws as [|w' ws]; [by apply strtok_last|]. by apply strtok_token. Qed.

Lemma dial_chat_ok phone skip n : forall ws fuel e l l' o t more s, (length ws <= n)%nat -> (n < fuel)%nat -> Forall token ws -> plain phone ->
  dialogue phone (e :: ws) l = Some (l', o, t) -> line_in s = map Byte l ++ more -> (length l < skip)%nat -> (2 <= skip)%nat -> Z.of_nat (length l) <= MAXLINE ->
  exists b, dial_chat fuel skip e (script ws) phone s = Ret 0 (said o t (set_in (map Byte l' ++ more) (set_caught b s))).
Proof.
  induction n as [n IH] using lt_wf_ind. intros ws fuel e l l' o t more s Hn Hf F Hp Hd Hl Hs H2 Hm. destruct fuel as [|f]; [lia|]. cbn [dial_chat].
  cbn [dialogue] in Hd. apply bind_Some in Hd as (l1 & Hh & Hd).
  destruct (expect_str_ok skip e l l1 more s Hh Hl Hs Hm) as [b Eb]. rewrite (bind_ret _ _ _ _ _ Eb). change (0 <? 0) with false. cbn iota.
  destruct ws as [|w ws]; [simplify_eq; exists b; by rewrite said_nil|]. apply Forall_cons in F as [Hw F]. rewrite script_tok by done.
  apply bind_Some in Hd as ([o1 t1] & Hsp & Hd). set (s1 := set_in _ _) in *.
  assert (Es : send_str skip w phone false s1 = Ret 0 (said o1 t1 s1)).
  { destruct skip as [|[|sk]]; [lia..|]. cbn [send_str]. apply (send_chars_ok _ phone); [|done]. intros s'. by apply send_plain. }
  rewrite (bind_ret _ _ _ _ _ Es). change (0 <? 0) with false. cbn iota.
  destruct ws as [|e2 ws]; [simplify_eq; by exists b|]. apply Forall_cons in F as [He2 F]. rewrite script_tok by done.
  apply bind_Some in Hd as ([[l2 o2] t2] & Hd & [= -> <- <-]).
  assert (Hll : (length l1 <= length l)%nat).
  { unfold hear in Hh. case_bool_decide; [by simplify_eq|]. destruct (expect_escapes e) as [|[|x e0]]; [done..|]. apply after_length in Hh. lia. }
  destruct (IH (length ws) ltac:(simpl in Hn; lia) ws f e2 l1 l' o2 t2 more (said o1 t1 s1)) as [b2 E2]; try done; try (simpl in Hn; lia).
  exists b2. rewrite E2. rewrite <- said_said. done.
Qed.
