(* ===== verification/CalldTheorems.v ===== *)
(** The theorems about the connection server [src/apue2e/calld], its client
    [src/apue2e/call] and the passing of descriptors between them. *)
From S2P Require Import Prelude CStr ReadN FdPass CallArgs Calld CalldFiles CalldReq CalldLive Dial DialChat.

(** ** Messages *)

(** C15: whatever text without null bytes was sent before, and however the stream cuts it, [recv_fd]
    returns after [send_err] the error code (any [int] but the least, which cannot be negated), as far as a status byte holds it (-1 for one that is not negative, the
    code itself from -255 to -1, otherwise minus its last eight bits, or -1 when these are 0), after [send_fd] the
    descriptor that was passed, and it hands on exactly the text; but where the stream is cut between the null byte
    and the status byte, [recv_fd] ends the process with "message format error". *)
Theorem descriptor_roundtrip sock err msg fd s fuel user :
  nonul (sent_bytes s) -> nonul msg -> - 2 ^ 31 < err < 2 ^ 31 -> 0 <= fd ->
  (exists s1, send_err pipe_sendmsg pipe_write true sock err msg s = Ret 0 s1 /\
     forall l, delivers s1 l -> (length l <= fuel)%nat ->
     recv_result l (recv_fd pipe_recvmsg pipe_user true fuel (Pipe (p_sent s1) l user))
       (if 0 <=? err then -1 else if -256 <? err then err else if (- err) mod 256 =? 0 then -1 else - ((- err) mod 256))
       (Pipe (p_sent s1) [] (user ++ sent_bytes s ++ msg))) /\
  (exists s1, send_fd pipe_sendmsg true sock fd s = Ret 0 s1 /\
     forall l, delivers s1 l -> (length l <= fuel)%nat ->
     recv_result l (recv_fd pipe_recvmsg pipe_user true fuel (Pipe (p_sent s1) l user))
       fd (Pipe (p_sent s1) [] (user ++ sent_bytes s))).
Proof.
  intros Hs Hm He Hfd. split.
  - eexists. split; [by apply send_err_pipe|]. intros l Hd Hl.
    pose proof (status_byte_range (if 0 <=? err then -1 else err)) as Hst. fold (err_status err) in Hst.
    assert (Hb : sent_bytes (match msg with [] => s | _ => pipe_app msg None s end) = sent_bytes s ++ msg)
      by (destruct msg; [by rewrite app_nil_r|by rewrite sent_app]).
    pose proof (recv_delivered (pipe_app [0; err_status err] None (match msg with [] => s | _ => pipe_app msg None s end)) (sent_bytes s ++ msg)
      (err_status err) l fuel user ltac:(by rewrite sent_app, Hb) ltac:(by rewrite before_last_app, Hb) ltac:(by apply nonul_app) ltac:(lia) ltac:(lia) Hd Hl) as H.
    rewrite (proj2 (Z.eqb_neq _ _)) in H by lia. rewrite err_status_code in H. exact H.
  - exists (pipe_app [0; 0] (Some fd) s). split; [unfold send_fd; bfalse (fd <? 0); done|]. intros l Hd Hl.
    pose proof (recv_delivered (pipe_app [0; 0] (Some fd) s) (sent_bytes s) 0 l fuel user (sent_app _ _ _) (before_last_app _ _ _) Hs ltac:(lia)
      ltac:(by rewrite sent_fd_app) Hd Hl) as H. by rewrite sent_fd_app in H.
Qed.

Lemma descriptor_roundtrip_witness :
  (forall s1 l, send_err pipe_sendmsg pipe_write true 3 (-7) (bytes "no line") (Pipe [] [] []) = Ret 0 s1 -> delivers s1 l -> (length l <= 5)%nat ->
     recv_result l (recv_fd pipe_recvmsg pipe_user true 5 (Pipe (p_sent s1) l [])) (-7) (Pipe (p_sent s1) [] (bytes "no line"))) /\
  delivers (Pipe [(bytes "no line", None); ([0; 7], None)] [] []) [Recv (bytes "no ") None; Recv (bytes "line" ++ [0; 7]) None] /\
  delivers (Pipe [(bytes "no line", None); ([0; 7], None)] [] []) [Recv (bytes "no line" ++ [0]) None; Recv [7] None].
Proof.
  split_and!.
  - intros s1 l E Hd Hl. destruct (descriptor_roundtrip 3 (-7) (bytes "no line") 4 (Pipe [] [] []) 5 []) as [(s2 & E2 & H2) _];
      [by repeat constructor|by repeat constructor|lia|lia|]. rewrite E in E2. injection E2 as <-. exact (H2 l Hd Hl).
  - exists [bytes "no "; bytes "line" ++ [0; 7]]. split_and!; [done|by repeat constructor|done].
  - exists [bytes "no line" ++ [0]; [7]]. split_and!; [done|by repeat constructor|done].
Defined.

(** ** Command lines *)

(** What the user of [call] asks for arrives in the server.  For every command line
    whose options [getopt] accepts and whose words have no white space, with at most 47 words, the request that
    [call] writes makes [buf_args] and [cli_args] in the server set debugging, parity,
    speed and system name as asked, and nothing else. *)
Theorem request_roundtrip argv l host more o :
  getopt (length argv) (tail argv) = (l, host :: more) -> Forall opt_ok l -> token host -> operand host ->
  (length (concat (map opt_words l)) <= 47)%nat -> Z.of_nat (length (line_of (concat (map opt_words l)) ++ host)) < MAXLINE ->
  exists args, call_main argv = inr args /\
    buf_args (call_request args) cli_args o =
    Ret 0 (Opts (asks_debug l) (asks_parity l) (asks_speed l) host (o_errmsg o)).
Proof.
  intros Hg F Ht Ho Hn Hl. exists (line_of (concat (map opt_words l)) ++ host). split.
  - unfold call_main. rewrite Hg, call_options_words by done. by bfalse (MAXLINE <=? Z.of_nat (length (line_of (concat (map opt_words l)) ++ host))).
  - unfold buf_args, call_request. rewrite <- (app_assoc (line_of _)).
    assert (Hc : (length (concat (map opt_words l)) + 1 < MAXARGC - 1)%nat) by (change (MAXARGC - 1)%nat with 49%nat; lia).
    rewrite (buf_argv_words _ host (opt_words_tokens l F) Ht Hc). by apply cli_args_words.
Qed.
Lemma request_roundtrip_witness : exists args,
  call_main [bytes "call"; bytes "-d"; bytes "-es9600"; bytes "-o"; bytes "host1"] = inr args /\
  buf_args (call_request args) cli_args (Opts false NONE None [] []) = Ret 0 (Opts true ODD (Some (bytes "9600")) (bytes "host1") []).
Proof.
  assert (Htok : forall w, w <> [] -> forallb (fun c => negb (white c) && negb (c =? 0)) w = true -> token w).
  { intros w Hw Hb. split; [done|]. apply Forall_forall. intros c Hc. apply list_elem_of_In in Hc. rewrite forallb_forall in Hb. specialize (Hb c Hc). bsimp. done. }
  apply (request_roundtrip [bytes "call"; bytes "-d"; bytes "-es9600"; bytes "-o"; bytes "host1"]
    [Opt 100; Opt 101; OptArg 115 (bytes "9600"); Opt 111] (bytes "host1") [] (Opts false NONE None [] [])).
  - by vm_compute.
  - apply Forall_cons; split; [done|]. apply Forall_cons; split; [done|]. apply Forall_cons; split; [split; [done|by apply Htok]|]. by repeat constructor.
  - by apply Htok.
  - exact I.
  - vm_compute. lia.
  - by vm_compute.
Defined.

(** ** Requests *)

(** The two files hold these entries, in lines that fit, and memory does not run out. *)
Record files_are `{E : CallEnv} (ls : list (conf systems_t)) (ds : list (conf devices_t)) : Prop := FilesAre {
  fa_alloc : forall n, alloc_works n = true;
  fa_systems : systems_file = Some (conf_text sys_fields ls);
  fa_sys_ok : Forall (conf_ok sys_ok) ls;
  fa_sys_brief : Forall sys_brief ls;
  fa_devices : devices_file = Some (conf_text dev_fields ds);
  fa_dev_ok : Forall (conf_ok dev_ok) ds;
  fa_lines : Forall (fun l => match l with Entry d => (length (d_line d) <= 2000)%nat | _ => True end) ds
}.

(** An example: two entries for a system, on two lines. *)
Definition ex_sys (class : string) : conf systems_t :=
  Entry (Systems (bytes "host1") (bytes "Any") (bytes "ACU") (bytes class) (bytes "5551234") (bytes "login")).
Definition ex_dev (class line : string) : conf devices_t :=
  Entry (Devices (bytes "ACU") (bytes line) (bytes "-") (bytes class) (bytes "hayes")).
Definition ex_systems : list (conf systems_t) := [Comment (bytes " systems"); ex_sys "19200"; Blank; ex_sys "9600"].
Definition ex_devices : list (conf devices_t) := [ex_dev "9600" "cua0"; ex_dev "19200" "cua1"].
Definition ex_client (p : Z) (tell found : Z) : client := Client 5 p 100 0 tell found false NONE [] (bytes "host1").
Definition ex_env : CallEnv := {|
  systems_file := Some (conf_text sys_fields ex_systems); devices_file := Some (conf_text dev_fields ex_devices);
  fresh_client := ex_client 0 0 0; alloc_works := fun _ => true; can_write := fun _ => true |}.
Definition ex_state (c : client) (l : list (list Z * Z)) (f : option Z) (ps : list Z) : calld :=
  Calld [c] l (Opts false NONE None [] []) 0 f None (Systems [] [] [] [] [] []) (Devices [] [] [] [] []) {[5]} false 0 [] [] ps [].

Lemma ex_token w : forallb (fun c => negb (white c) && negb (c =? 0)) w = true -> w <> [] -> token w.
Proof.
  intros Hb Hw. split; [done|]. apply Forall_forall. intros c Hc%list_elem_of_In. rewrite forallb_forall in Hb. specialize (Hb c Hc). by bsimp.
Qed.
Lemma ex_fits t : forallb (fun c => negb (c =? 10) && negb (c =? 0)) t = true -> (length t < 100)%nat -> fits_line t.
Proof.
  intros Hb Ht. split; [|unfold MAXLINE; lia]. apply Forall_forall. intros c Hc%list_elem_of_In. rewrite forallb_forall in Hb. specialize (Hb c Hc). by bsimp.
Qed.
Lemma ex_files : @files_are ex_env ex_systems ex_devices.
Proof.
  assert (Hs : forall c, c = "9600"%string \/ c = "19200"%string -> conf_ok sys_ok (ex_sys c)).
  { intros c [-> | ->]; (split_and!; [split; [by apply ex_token|done]|by apply ex_token..|done|apply ex_fits; [done|vm_compute; lia]]). }
  assert (Hd : forall c l, c = "9600"%string \/ c = "19200"%string -> l = "cua0"%string \/ l = "cua1"%string -> conf_ok dev_ok (ex_dev c l)).
  { intros c l [-> | ->] [-> | ->]; (split_and!; [split; [by apply ex_token|done]|by apply ex_token..|apply ex_fits; [done|vm_compute; lia]]). }
  split; try done.
  - repeat (apply Forall_cons; split); try by (apply Hs; auto). 1: apply ex_fits; [done|vm_compute; lia]. all: by constructor.
  - by repeat (apply Forall_cons; split).
  - repeat (apply Forall_cons; split); try by (apply Hd; auto). constructor.
  - repeat (apply Forall_cons; split); try (vm_compute; lia). constructor.
Qed.

(** C16: [request], over the text of the two files and the table of locks, does what
    the reference [pick] says over their entries and the map of lines to processes.  It goes through the entries of
    the Systems file after those already tried that match the system and the speed, and looks for each at the first
    entry of the Devices file with its type and class only.  When that line is locked it goes on; when there is
    no such entry it gives up, even if a later entry of the Systems file has a free line; when it is free it starts
    a child for it, and that line alone is locked, by the child.  When it gives up, nothing is locked or started and the message
    tells why; of the client's record the count of entries found and the place in the Systems file may change,
    and of the server's state what it keeps of the files it has read. *)
Theorem request_picks `{E : CallEnv} ls ds i c before after s p ps :
  files_are ls ds -> ls = before ++ after -> clients s !! i = Some c -> o_Debug (globals s) = false ->
  table_ok (locks s) -> (forall x, pid_range (holder x (locks s))) ->
  sysftell c = Z.of_nat (length (conf_text sys_fields before)) -> before = [] \/ is_Some (fpsys s) ->
  Z.of_nat (length (csysname c)) < MAXSYSNAME -> pids s = p :: ps -> 0 < p ->
  match pick (csysname c) (cspeed c) ds (fun x => holder x (locks s)) (foundone c) [] after with
  | Found d n rest => exists before' s', request i s = Ret 0 s' /\ ls = before' ++ rest /\ (length before < length before')%nat /\
      holder (d_line d) (locks s) = 0 /\ started_post i c d p n (Z.of_nat (length (conf_text sys_fields before'))) s s'
  | Failed n msg => exists s', request i s = Ret (-1) s' /\ failed_post i c n (fail_msg (csysname c) n msg) s s'
  end.
Proof.
  intros [Ha Hs Hl Hb Hd Hds Hli] El Hc Hdb Ht Hr Hte Hf Hn Hp Hp0.
  pose proof (request_ok Ha ls ds Hs Hl Hb Hd Hds i c before after _ s p ps El Hc Hdb Ht (fun x => eq_refl) (brief_ok ds Hli _ Hr) Hte Hf Hn Hp ltac:(lia)) as H.
  destruct (pick _ _ _ _ _ _ _) as [d n rest|n msg] eqn:Ep; [|done]. destruct H as (b' & s' & R & L & Hlt & P).
  exists b', s'. split_and!; try done. exact (pick_free ds _ _ _ _ _ _ _ _ _ Ep).
Qed.

(** C17: a client is never left waiting by failing children.  If the child that dials for it
    and all those started after it exit with an error, then after at most as many
    failures as there are untried lines in the Systems file, plus one, the server has
    sent the client a message and the status 1, has closed the connection, and holds no line
    for it any more; the locks of the others are as they were. *)
Theorem failures_are_reported `{E : CallEnv} ls ds i c p line before after s :
  files_are ls ds -> ls = before ++ after -> dialing i c p line before s -> (length after < length (pids s))%nat ->
  exists c' msg s', fail_turns (length after + 1) i s = Ret tt s' /\ clients s' !! i = Some c' /\ fd c' = -1 /\ msg <> [] /\
    sent s' = sent s ++ told (fd c) msg /\ closed s' = closed s ++ [fd c] /\ allset s' = allset s ∖ {[fd c]} /\
    (forall x, holder x (locks s') = if decide (x = line) then 0 else holder x (locks s)).
Proof.
  intros [Ha Hs Hl Hb Hd Hds Hli] El D Hp.
  exact (all_failures Ha ls ds Hs Hl Hb Hd Hds Hli i (length after + 1)%nat c p line before after s ltac:(lia) El D Hp).
Qed.

Lemma request_picks_witness : exists s',
  @request ex_env 0 (ex_state (ex_client 0 0 0) [] None [41; 42; 43]) = Ret 0 s' /\ holder (bytes "cua1") (locks s') = 41.
Proof.
  pose proof (@request_picks ex_env ex_systems ex_devices 0 (ex_client 0 0 0) [] ex_systems (ex_state (ex_client 0 0 0) [] None [41; 42; 43]) 41 [42; 43]
    ex_files eq_refl eq_refl eq_refl (NoDup_nil_2) (fun _ => conj (Z.le_refl 0) eq_refl) eq_refl (or_introl eq_refl) eq_refl eq_refl eq_refl) as H.
  destruct (pick _ _ _ _ _ _ _) as [d n rest|] eqn:E; vm_compute in E; [|done]. injection E as <- <- <-.
  destruct H as (b & s' & R & _ & _ & _ & P). exists s'. split; [exact R|]. destruct P as (_ & _ & _ & _ & P & _). exact (P (bytes "cua1")).
Defined.

Lemma failures_are_reported_witness : exists s' msg,
  @fail_turns ex_env 3 0 (ex_state (ex_client 41 44 1) [(bytes "cua1", 41)] (Some 44) [42; 43; 44]) = Ret tt s' /\
  sent s' = [(5, (msg, None)); (5, ([0; 1], None))] /\ closed s' = [5] /\ holder (bytes "cua1") (locks s') = 0.
Proof.
  destruct (@failures_are_reported ex_env ex_systems ex_devices 0 (ex_client 41 44 1) 41 (bytes "cua1") [Comment (bytes " systems"); ex_sys "19200"] [Blank; ex_sys "9600"]
    (ex_state (ex_client 41 44 1) [(bytes "cua1", 41)] (Some 44) [42; 43; 44])) as (c' & msg & s' & R & _ & _ & _ & Hs & Hc & _ & Hh);
    [exact ex_files|done| |simpl; lia|exists s', msg; split_and!; [exact R|exact Hs|exact Hc|exact (Hh (bytes "cua1"))]].
  split; try done.
  - intros j d Hj. by destruct j as [|[|j]].
  - apply NoDup_singleton.
  - intros x. cbn [locks ex_state holder fst snd]. by destruct (decide (x = bytes "cua1")).
  - split; [|split; [|by repeat constructor]].
    + by apply (bool_decide_unpack _).
    + by apply (bool_decide_unpack _).
  - intros x. cbn [locks ex_state holder fst snd]. destruct (decide (x = bytes "cua1")); (split; [by apply (bool_decide_unpack _)|done]).
Defined.

(** ** Dialing *)

(** [tty_dial] carries out the expect/send script.  If the bytes that arrive, at
    most 4096, satisfy the script, it returns 0 having sent exactly what the
    script says, escapes and telephone number filled in, having paused as long as it
    says, and having read up to the end of the last expected text and no further.
    If the first byte of an expected text never comes, it does not return at all:
    the alarm has no effect. *)
Theorem dial_follows_script phone ws l l' o t more skip s :
  Forall token ws -> plain phone -> dialogue phone ws l = Some (l', o, t) ->
  line_in s = map Byte l ++ more -> (length l < skip)%nat -> (2 <= skip)%nat -> Z.of_nat (length l) <= MAXLINE ->
  (exists b, tty_dial skip phone (script ws) s =
     Ret 0 (Child (map Byte l' ++ more) (line_out s ++ o) b (child_errmsg s) (tty s) (fpdial s) (dialers s) (to_client s) (slept s + t))) /\
  (forall w x e heard fuel s1, expect_escapes w = inr (x :: e) -> w <> [34; 34] -> x <> 0 -> Forall (fun b => b <> x) heard -> line_in s1 = map Byte heard ->
     exists s2, expect_str fuel w s1 = Exit Loops s2).
Proof.
  intros F Hp Hd Hl Hs H2 Hm. split.
  - destruct ws as [|w ws]; [done|]. apply Forall_cons in F as [Hw F]. unfold tty_dial. rewrite script_tok by done.
    destruct (dial_chat_ok phone skip (length ws) ws (S (length (script (w :: ws)))) w l l' o t more s) as [b E]; try done.
    + assert (Hws : (length ws <= length (script (w :: ws)))%nat); [|lia].
      clear -F. revert w. induction F as [|w' ws Hw' F IH]; intros w; [simpl; lia|]. specialize (IH w').
      change (script (w :: w' :: ws)) with (w ++ 32 :: script (w' :: ws)). rewrite length_app. cbn [length]. lia.
    + by exists b.
  - intros w x e heard fuel s1 Hw Hn Hx Fl Hs1. unfold expect_str. rewrite bool_decide_eq_false_2, Hw by done.
    cbn [head default from_option]. unfold mbind at 1, M_bind at 1, modify.
    destruct (expect_silent x heard Fl fuel 0 (set_caught false s1)) as [s2 E]; [done..|]. exists s2. by rewrite (bind_exit _ _ _ _ _ E).
Qed.
Lemma dial_follows_script_witness : exists b,
  tty_dial 30 (bytes "5551234") (script [[34; 34]; bytes "\pATZ"; bytes "OK"; bytes "ATDT\T\c"; bytes "CONNECT"])
    (Child (map Byte (bytes "ATZ OK NO CONNECT login")) [] false [] None None None [] 0) =
  Ret 0 (Child (map Byte (bytes " login")) (bytes "ATZ" ++ 13 :: bytes "ATDT5551234" ++ [13]) b [] None None None [] 250000).
Proof.
  apply (dial_follows_script (bytes "5551234") [[34; 34]; bytes "\pATZ"; bytes "OK"; bytes "ATDT\T\c"; bytes "CONNECT"]
    (bytes "ATZ OK NO CONNECT login") (bytes " login") (bytes "ATZ" ++ 13 :: bytes "ATDT5551234" ++ [13]) 250000 [] 30
    (Child (map Byte (bytes "ATZ OK NO CONNECT login")) [] false [] None None None [] 0)).
  - repeat (apply Forall_cons; split); try (by apply ex_token). constructor.
  - by repeat constructor.
  - by vm_compute.
  - done.
  - vm_compute. lia.
  - lia.
  - by vm_compute.
Defined.
