(* ===== verification/ShmXfr.v ===== *)
(** Transfer of a stream through shared memory: the binary semaphores of
    [src/tlpi-dist/svsem/binary_sems.c] and the two programs that use them,
    [src/tlpi-dist/svshm/svshm_xfr_writer.c] and [svshm_xfr_reader.c], as processes that
    interleave at every access to something shared. *)
From S2P Require Import Prelude.

(** ** Shared objects *)

Definition BUF_SIZE : Z := 1024.
Record shmseg := ShmSeg { cnt : Z; buf : list Z }.

Definition SEM_MAX : Z := 32767.   (* SEMVMX *)
Inductive xsem := WRITE_SEM | READ_SEM.

(** The semaphore set and the shared memory segment; none: there is no such object. *)
Record kern := Kern { semset : option (Z * Z); seg : option shmseg }.
Definition set_semset (x : option (Z * Z)) (k : kern) : kern := Kern x (seg k).
Definition set_seg (x : option shmseg) (k : kern) : kern := Kern (semset k) x.

Definition xval (n : xsem) (v : Z * Z) : Z := match n with WRITE_SEM => v.1 | READ_SEM => v.2 end.
Definition put_xval (n : xsem) (x : Z) (v : Z * Z) : Z * Z := match n with WRITE_SEM => (x, v.2) | READ_SEM => (v.1, x) end.

(** [semctl(..., SETVAL, ...)] *)
Definition setval (n : xsem) (x : Z) (k : kern) : option kern :=
  match semset k with None => None | Some v => Some (set_semset (Some (put_xval n x v)) k) end.

(** [semop] with one operation. *)
Inductive semop_result := Sleeps | OpError | Done (k : kern).
Definition semop1 (n : xsem) (op : Z) (k : kern) : semop_result :=
  match semset k with
  | None => OpError
  | Some v =>
      let r := xval n v + op in
      if r <? 0 then Sleeps else if SEM_MAX <? r then OpError else Done (set_semset (Some (put_xval n r v)) k)
  end.

(** ** binary_sems.c *)

Definition bsRetryOnEintr : bool := true.
Definition initSemAvailable (n : xsem) (k : kern) : option kern := setval n 1 k.
Definition initSemInUse (n : xsem) (k : kern) : option kern := setval n 0 k.

(** One turn of the loop of [reserveSem], which a signal may interrupt. *)
Inductive reserve_result := Waits | Retries | Refused | Reserved (k : kern).
Definition reserveSem (n : xsem) (interrupted : bool) (k : kern) : reserve_result :=
  if interrupted then (if bsRetryOnEintr then Retries else Refused) else
  match semop1 n (-1) k with Sleeps => Waits | OpError => Refused | Done k' => Reserved k' end.
Definition releaseSem (n : xsem) (k : kern) : option kern :=
  match semop1 n 1 k with Done k' => Some k' | _ => None end.

(** ** The writer *)

Definition INT_MAX : Z := 2 ^ 31 - 1.

(** What happens next is the statement named; [errExit] and [fatal] end in [WDied], and so
    does an overflow of [bytes], which has no meaning in C. *)
Inductive wpc :=
  | WSemget | WInitWrite | WInitRead | WShmget | WShmat
  | WReserve | WRead | WRelease | WTest | WAdd
  | WLast | WRmSem | WDetach | WRmShm
  | WExited | WDied.
Record writer := Writer { w_pc : wpc; w_in : list Z; w_bytes : Z; w_xfrs : Z }.
Definition w_goto (pc : wpc) (w : writer) : writer := Writer pc (w_in w) (w_bytes w) (w_xfrs w).

(** How the outside answers a call: an interrupting signal, a failure, or success, with
    a number of bytes where one is asked for. *)
Inductive answer := Interrupt | Failure | Success (n : nat).

Definition or_die {A} (r : option A) (k : A -> kern * writer) (s : kern * writer) : kern * writer :=
  match r with Some a => k a | None => (s.1, w_goto WDied s.2) end.

(** [read(STDIN_FILENO, shmp->buf, BUF_SIZE)]: at least a byte unless the input is at
    its end. *)
Definition read_size (n : nat) (input : list Z) : nat := Nat.min (Nat.max 1 n) (Nat.min (Z.to_nat BUF_SIZE) (length input)).
Definition fill (bs : list Z) (g : shmseg) : shmseg := ShmSeg (Z.of_nat (length bs)) (bs ++ drop (length bs) (buf g)).

Definition writer_step (a : answer) (k : kern) (w : writer) : option (kern * writer) :=
  let dies := Some (k, w_goto WDied w) in
  match w_pc w with
  | WSemget =>
      match a with
      | Failure => dies
      | _ => Some (match semset k with None => set_semset (Some (0, 0)) k | Some _ => k end, w_goto WInitWrite w)
      end
  | WInitWrite => Some (or_die (initSemAvailable WRITE_SEM k) (fun k' => (k', w_goto WInitRead w)) (k, w))
  | WInitRead => Some (or_die (initSemInUse READ_SEM k) (fun k' => (k', w_goto WShmget w)) (k, w))
  | WShmget =>
      match a with
      | Failure => dies
      | _ => Some (match seg k with None => set_seg (Some (ShmSeg 0 (replicate (Z.to_nat BUF_SIZE) 0))) k | Some _ => k end, w_goto WShmat w)
      end
  | WShmat => match a with Failure => dies | _ => Some (k, w_goto WReserve w) end
  | WReserve =>
      match reserveSem WRITE_SEM (match a with Interrupt => true | _ => false end) k with
      | Waits => None
      | Retries => Some (k, w)
      | Refused => dies
      | Reserved k' => Some (k', w_goto WRead w)
      end
  | WRead =>
      match seg k with
      | None => dies
      | Some g =>
          match a with
          | Success n =>
              let m := read_size n (w_in w) in
              Some (set_seg (Some (fill (take m (w_in w)) g)) k, Writer WRelease (drop m (w_in w)) (w_bytes w) (w_xfrs w))
          | _ => Some (set_seg (Some (ShmSeg (-1) (buf g))) k, w_goto WDied w)
          end
      end
  | WRelease => Some (or_die (releaseSem READ_SEM k) (fun k' => (k', w_goto WTest w)) (k, w))
  | WTest =>
      match seg k with
      | None => dies
      | Some g => Some (k, w_goto (if cnt g =? 0 then WLast else WAdd) w)
      end
  | WAdd =>
      match seg k with
      | None => dies
      | Some g =>
          if INT_MAX <? w_bytes w + cnt g then dies
          else Some (k, Writer WReserve (w_in w) (w_bytes w + cnt g) (w_xfrs w + 1))
      end
  | WLast =>
      match reserveSem WRITE_SEM (match a with Interrupt => true | _ => false end) k with
      | Waits => None
      | Retries => Some (k, w)
      | Refused => dies
      | Reserved k' => Some (k', w_goto WRmSem w)
      end
  | WRmSem => Some (or_die (semset k) (fun _ => (set_semset None k, w_goto WDetach w)) (k, w))
  | WDetach => Some (k, w_goto WRmShm w)
  | WRmShm => Some (or_die (seg k) (fun _ => (set_seg None k, w_goto WExited w)) (k, w))
  | WExited | WDied => None
  end.

(** ** The reader *)

Inductive rpc :=
  | RSemget | RShmget | RShmat
  | RReserve | RTest | RAdd | RWrite | RRelease
  | RDetach | RLast
  | RExited | RDied.
Record reader := Reader { r_pc : rpc; r_out : list Z; r_bytes : Z; r_xfrs : Z }.
Definition r_goto (pc : rpc) (r : reader) : reader := Reader pc (r_out r) (r_bytes r) (r_xfrs r).

(** [write(STDOUT_FILENO, shmp->buf, shmp->cnt)]; less than all of it is fatal. *)
Definition chunk (g : shmseg) : list Z := take (Z.to_nat (cnt g)) (buf g).

Definition reader_step (a : answer) (k : kern) (r : reader) : option (kern * reader) :=
  let dies := Some (k, r_goto RDied r) in
  match r_pc r with
  | RSemget => match semset k, a with None, _ | _, Failure => dies | Some _, _ => Some (k, r_goto RShmget r) end
  | RShmget => match seg k, a with None, _ | _, Failure => dies | Some _, _ => Some (k, r_goto RShmat r) end
  | RShmat => match a with Failure => dies | _ => Some (k, r_goto RReserve r) end
  | RReserve =>
      match reserveSem READ_SEM (match a with Interrupt => true | _ => false end) k with
      | Waits => None
      | Retries => Some (k, r)
      | Refused => dies
      | Reserved k' => Some (k', r_goto RTest r)
      end
  | RTest =>
      match seg k with
      | None => dies
      | Some g => Some (k, r_goto (if cnt g =? 0 then RDetach else RAdd) r)
      end
  | RAdd =>
      match seg k with
      | None => dies
      | Some g =>
          if INT_MAX <? r_bytes r + cnt g then dies
          else Some (k, Reader RWrite (r_out r) (r_bytes r + cnt g) (r_xfrs r))
      end
  | RWrite =>
      match seg k with
      | None => dies
      | Some g =>
          match a with
          | Success n =>
              if (length (chunk g) <=? n)%nat then Some (k, Reader RRelease (r_out r ++ chunk g) (r_bytes r) (r_xfrs r))
              else Some (k, Reader RDied (r_out r ++ take n (chunk g)) (r_bytes r) (r_xfrs r))
          | _ => dies
          end
      end
  | RRelease =>
      match releaseSem WRITE_SEM k with
      | Some k' => Some (k', Reader RReserve (r_out r) (r_bytes r) (r_xfrs r + 1))
      | None => dies
      end
  | RDetach => Some (k, r_goto RLast r)
  | RLast =>
      match releaseSem WRITE_SEM k with
      | Some k' => Some (k', r_goto RExited r)
      | None => dies
      end
  | RExited | RDied => None
  end.

(** ** The two together *)

Record xfr := Xfr { x_kern : kern; x_w : writer; x_r : reader }.
Inductive who := TheWriter | TheReader.
Definition xfr_step (p : who) (a : answer) (s : xfr) : option xfr :=
  match p with
  | TheWriter => '(k, w) ← writer_step a (x_kern s) (x_w s); Some (Xfr k w (x_r s))
  | TheReader => '(k, r) ← reader_step a (x_kern s) (x_r s); Some (Xfr k (x_w s) r)
  end.
(** A schedule; what cannot go on waits. *)
Fixpoint xfr_run (l : list (who * answer)) (s : xfr) : xfr :=
  match l with
  | [] => s
  | (p, a) :: l' => xfr_run l' (default s (xfr_step p a s))
  end.
(** No objects yet, both programs about to start. *)
Definition xfr0 (input : list Z) : xfr :=
  Xfr (Kern None None) (Writer WSemget input 0 0) (Reader RSemget [] 0 0).

#[global] Instance wpc_eq_dec : EqDecision wpc. Proof. solve_decision. Defined.
#[global] Instance rpc_eq_dec : EqDecision rpc. Proof. solve_decision. Defined.
#[global] Instance shmseg_eq_dec : EqDecision shmseg. Proof. solve_decision. Defined.
#[global] Instance kern_eq_dec : EqDecision kern. Proof. solve_decision. Defined.
#[global] Instance writer_eq_dec : EqDecision writer. Proof. solve_decision. Defined.
#[global] Instance reader_eq_dec : EqDecision reader. Proof. solve_decision. Defined.
#[global] Instance xfr_eq_dec : EqDecision xfr. Proof. solve_decision. Defined.

(** The steps of a schedule that change something: neither a wait nor an interrupted call
    that is begun again. *)
Fixpoint xfr_moves (l : list (who * answer)) (s : xfr) : nat :=
  match l with
  | [] => 0
  | (p, a) :: l' =>
      let s' := default s (xfr_step p a s) in
      ((if decide (s' = s) then 0 else 1) + xfr_moves l' s')%nat
  end.
