(* ===== verification/ShmXfrInv.v ===== *)
(** Invariants of the transfer of [src/tlpi-dist/svshm] under every interleaving of writer
    and reader, and a measure that every step but an interruption decreases. *)
From S2P Require Import Prelude ShmXfr.

(** ** Whose turn *)

Definition w_setup (pc : wpc) : bool :=
  match pc with WSemget | WInitWrite | WInitRead | WShmget | WShmat => true | _ => false end.
Definition w_loop (pc : wpc) : bool :=
  match pc with WReserve | WRead | WRelease | WTest | WAdd | WLast | WRmSem | WDied => true | _ => false end.
Definition r_early (pc : rpc) : bool :=
  match pc with RSemget | RShmget | RShmat | RReserve => true | _ => false end.

(** The token: in one of the semaphores, or with a process. *)
Definition w_holds (pc : wpc) : Z := match pc with WRead | WRelease | WRmSem => 1 | _ => 0 end.
Definition r_holds (pc : rpc) : Z := match pc with RTest | RAdd | RWrite | RRelease | RDetach | RLast => 1 | _ => 0 end.

(** The bytes in shared memory have been read and not yet been written. *)
Definition in_flight (w : wpc) (b : Z) (r : rpc) : bool :=
  match w with WRelease => true | _ => match r with RTest | RAdd | RWrite => true | _ => b =? 1 end end.
Definition flight (w : wpc) (b : Z) (r : rpc) (g : shmseg) : list Z := if in_flight w b r then chunk g else [].

(** The writer has read them and not yet counted them; the reader has not yet counted
    the transfer. *)
Definition w_uncounted (pc : wpc) : bool := match pc with WRelease | WTest | WAdd => true | _ => false end.
Definition r_uncounted (w : wpc) (b : Z) (r : rpc) : bool := match r with RRelease => true | _ => in_flight w b r end.
Definition some_if (c : bool) (n : Z) : Z := if c then n else 0.
Definition one_chunk (g : shmseg) : Z := if cnt g =? 0 then 0 else 1.

(** Positions, as booleans. *)
Definition w_dead (pc : wpc) : bool := match pc with WDied => true | _ => false end.
Definition w_adds (pc : wpc) : bool := match pc with WAdd => true | _ => false end.
Definition w_after (pc : wpc) : bool := match pc with WLast | WRmSem => true | _ => false end.
Definition w_end (pc : wpc) : bool := match pc with WTest => true | _ => w_after pc end.
Definition r_dead (pc : rpc) : bool := match pc with RDied => true | _ => false end.
Definition r_tests (pc : rpc) : bool := match pc with RTest => true | _ => false end.
Definition r_busy (pc : rpc) : bool := match pc with RAdd | RWrite | RRelease => true | _ => false end.
Definition r_last (pc : rpc) : bool := match pc with RDetach | RLast | RExited => true | _ => false end.

Section Invariant.
Context (input : list Z).

(** While the data are transferred. *)
Record moving (a b : Z) (g : shmseg) (w : writer) (r : reader) : Prop := Moving {
  mv_pc : w_loop (w_pc w) = true /\ r_dead (r_pc r) = false;
  mv_token : 0 <= a /\ 0 <= b /\ a + b + w_holds (w_pc w) + r_holds (r_pc r) <= 1 /\
    (w_dead (w_pc w) = false -> a + b + w_holds (w_pc w) + r_holds (r_pc r) = 1);
  mv_data : r_out r ++ flight (w_pc w) b (r_pc r) g ++ w_in w = input;
  mv_size : w_dead (w_pc w) = false \/ in_flight (w_pc w) b (r_pc r) = true \/ r_busy (r_pc r) = true -> 0 <= cnt g <= Z.of_nat (length (buf g));
  mv_eof : cnt g = 0 -> in_flight (w_pc w) b (r_pc r) = true \/ w_end (w_pc w) = true \/ r_last (r_pc r) = true -> length (w_in w) = 0%nat;
  mv_offered : cnt g = 0 -> b = 1 \/ r_tests (r_pc r) = true -> w_end (w_pc w) = true \/ w_dead (w_pc w) = true;
  mv_w_test : (w_after (w_pc w) = true -> cnt g = 0) /\ (w_adds (w_pc w) = true -> cnt g <> 0);
  mv_r_test : r_busy (r_pc r) = true -> cnt g <> 0;
  mv_r_last : r_last (r_pc r) = true -> cnt g = 0 /\ b = 0 /\ (w_end (w_pc w) = true \/ w_dead (w_pc w) = true);
  mv_w_last : w_end (w_pc w) = true -> cnt g = 0 -> b = 1 \/ r_tests (r_pc r) = true \/ r_last (r_pc r) = true;
  mv_w_bytes : w_dead (w_pc w) = false -> w_bytes w + some_if (w_uncounted (w_pc w)) (cnt g) + Z.of_nat (length (w_in w)) = Z.of_nat (length input);
  mv_r_bytes : r_bytes r = Z.of_nat (length (r_out r)) + (match r_pc r with RWrite => cnt g | _ => 0 end);
  mv_xfrs : w_dead (w_pc w) = false -> w_xfrs w + some_if (w_uncounted (w_pc w)) (one_chunk g) = r_xfrs r + some_if (r_uncounted (w_pc w) b (r_pc r)) (one_chunk g)
}.

Definition zero_seg : shmseg := ShmSeg 0 (replicate (Z.to_nat BUF_SIZE) 0).
(** Before. *)
Definition setting_up (k : kern) (w : writer) (r : reader) : Prop :=
  w = Writer (w_pc w) input 0 0 /\ r = Reader (r_pc r) [] 0 0 /\
  match w_pc w with
  | WSemget => k = Kern None None /\ r_pc r = RSemget
  | WInitWrite => k = Kern (Some (0, 0)) None /\ (r_pc r = RSemget \/ r_pc r = RShmget)
  | WInitRead | WShmget => k = Kern (Some (1, 0)) None /\ (r_pc r = RSemget \/ r_pc r = RShmget)
  | WShmat => k = Kern (Some (1, 0)) (Some zero_seg) /\ r_early (r_pc r) = true
  | _ => False
  end.
(** After. *)
Definition cleaning_up (k : kern) (w : writer) (r : reader) : Prop :=
  r_pc r = RExited /\ r_out r = input /\ w_in w = [] /\ w_bytes w = Z.of_nat (length input) /\ r_bytes r = Z.of_nat (length input) /\
  w_xfrs w = r_xfrs r /\ semset k = None /\
  match w_pc w with WDetach | WRmShm => is_Some (seg k) | WExited => seg k = None | _ => False end.
(** The writer died before it began: the reader gets no turn. *)
Definition stillborn (k : kern) (w : writer) (r : reader) : Prop :=
  w_pc w = WDied /\ r_early (r_pc r) = true /\ r_out r = [] /\ match semset k with Some (_, b) => b = 0 | None => True end.

Inductive xfr_inv : xfr -> Prop :=
  | InvSetup k w r : setting_up k w r -> xfr_inv (Xfr k w r)
  | InvMoving a b g w r : moving a b g w r -> xfr_inv (Xfr (Kern (Some (a, b)) (Some g)) w r)
  | InvCleanup k w r : cleaning_up k w r -> xfr_inv (Xfr k w r)
  | InvStillborn k w r : stillborn k w r -> xfr_inv (Xfr k w r)
  | InvReaderDead k w r : r_pc r = RDied -> r_out r `prefix_of` input -> xfr_inv (Xfr k w r).

Lemma xfr0_inv : xfr_inv (xfr0 input).
Proof. apply InvSetup. done. Qed.

(** *** Arithmetic of the token *)

Lemma release_ok n v k : semset k = Some v -> 0 <= xval n v <= 1 -> releaseSem n k = Some (set_semset (Some (put_xval n (xval n v + 1) v)) k).
Proof. intros Hk Hv. unfold releaseSem, semop1, SEM_MAX. rewrite Hk. bfalse (xval n v + 1 <? 0). by bfalse (32767 <? xval n v + 1). Qed.
Lemma reserve_cases n i k v r : semset k = Some v -> xval n v <= 1 -> reserveSem n i k = r ->
  (r = Waits /\ xval n v <= 0) \/ (i = true /\ r = Retries) \/ (i = false /\ r = Reserved (set_semset (Some (put_xval n (xval n v - 1) v)) k) /\ 1 <= xval n v).
Proof.
  intros Hk Hv <-. unfold reserveSem, semop1, SEM_MAX. destruct i; [by right; left|]. rewrite Hk. cbn iota. destruct (xval n v + -1 <? 0) eqn:E; bsimp; [left; split; [done|lia]|].
  right; right. bfalse (32767 <? xval n v + -1). split_and!; [done|done|lia].
Qed.

(** All positions of the other process, and whether there is an offer. *)
Ltac mv_solve rp b :=
  let Hb1 := fresh in unfold flight in *; destruct rp; cbn in *; try done; (destruct (b =? 1) eqn:Hb1; cbn in * ); try lia;
  split; cbn; rewrite ?Hb1; unfold flight; cbn; rewrite ?Hb1; cbn; try done; try lia.

Lemma one_chunk_cases g : cnt g = 0 /\ one_chunk g = 0 \/ cnt g <> 0 /\ one_chunk g = 1.
Proof. unfold one_chunk. destruct (Z.eqb_spec (cnt g) 0); lia. Qed.

Lemma read_facts n (inp : list Z) g : let m := read_size n inp in let g' := fill (take m inp) g in
  (m <= length inp)%nat /\ (m = 0%nat -> inp = []) /\ cnt g' = Z.of_nat m /\ chunk g' = take m inp /\ (m <= length (buf g'))%nat.
Proof.
  intros m g'. assert (Hm : (m <= length inp)%nat) by (unfold m, read_size; lia).
  assert (Ht : length (take m inp) = m) by (rewrite length_take; lia). split_and!; [done| | | |].
  - intros H0. unfold m, read_size, BUF_SIZE in H0. destruct inp; [done|]. simpl length in H0. lia.
  - unfold g', fill. cbn [cnt]. by rewrite Ht.
  - unfold chunk, g', fill. cbn [cnt buf]. rewrite Ht, Nat2Z.id, take_app_le by lia. by rewrite take_ge by lia.
  - unfold g', fill. cbn [buf]. rewrite length_app. lia.
Qed.

Lemma moving_writer a b g w r ans k' w' : moving a b g w r -> writer_step ans (Kern (Some (a, b)) (Some g)) w = Some (k', w') -> xfr_inv (Xfr k' w' r).
Proof.
  intros [M1 M2 M3 M4 M5 M6 M7 M8 M9 M10 M11 M12 M13]. destruct w as [pc inp bs xs], r as [rp out rb rx]. cbn [w_pc w_in w_bytes w_xfrs r_pc r_out r_bytes r_xfrs] in *.
  destruct M1 as [M1 M1'], M2 as (Ma & Mb & Mt & Me), M7 as [M7 M7']. assert (Hr : 0 <= r_holds rp <= 1) by (destruct rp; cbn; lia).
  pose proof (one_chunk_cases g) as Ho.
  destruct pc; try done; cbn [writer_step w_pc w_in w_bytes w_xfrs seg semset].
  - (* WReserve *) destruct (reserveSem WRITE_SEM _ _) as [| | |k1] eqn:E; [done| | |].
    all: destruct (reserve_cases WRITE_SEM _ (Kern (Some (a, b)) (Some g)) (a, b) _ eq_refl ltac:(cbn in Mt |- *; lia) E) as [[? ?]|[[? ?]|(? & ? & ?)]]; simplify_eq.
    all: intros [= <- <-]; apply InvMoving.
    1: by split.
    mv_solve rp b.
  - (* WRead *) assert (b = 0 /\ a = 0 /\ r_holds rp = 0) as (-> & -> & Hrp) by (cbn in *; lia).
    destruct ans as [| |n]; intros [= <- <-].
    1, 2: apply InvMoving; mv_solve rp 0.
    destruct (read_facts n inp g) as (Hm & H0 & Hc & Hch & Hlb). set (m := read_size n inp) in *. set (g' := fill (take m inp) g) in *.
    apply InvMoving. unfold set_seg. cbn [semset seg]. clearbody g'. pose proof (one_chunk_cases g') as Ho'.
    assert (Hl : (length inp = m + length (drop m inp))%nat) by (rewrite length_drop; lia).
    assert (H0' : m = 0%nat -> length inp = 0%nat) by (intros E0; by rewrite (H0 E0)).
    assert (M3' : out ++ inp = input -> out ++ chunk g' ++ drop m inp = input) by (by rewrite Hch, take_drop).
    mv_solve rp 0; auto.
  - (* WRelease *) rewrite (release_ok READ_SEM (a, b)) by (done || (cbn in *; lia)). intros [= <- <-]. cbn [put_xval xval fst snd].
    assert (b = 0 /\ a = 0 /\ r_holds rp = 0) as (-> & -> & Hrp) by (cbn in *; lia). apply InvMoving. mv_solve rp 0.
  - (* WTest *) intros [= <- <-]. apply InvMoving. destruct (Z.eqb_spec (cnt g) 0) as [Hc|Hc]; mv_solve rp b.
  - (* WAdd *) destruct (INT_MAX <? bs + cnt g); intros [= <- <-]; apply InvMoving; mv_solve rp b.
  - (* WLast *) destruct (reserveSem WRITE_SEM _ _) as [| | |k1] eqn:E; [done| | |].
    all: destruct (reserve_cases WRITE_SEM _ (Kern (Some (a, b)) (Some g)) (a, b) _ eq_refl ltac:(cbn in Mt |- *; lia) E) as [[? ?]|[[? ?]|(? & ? & ?)]]; simplify_eq.
    all: intros [= <- <-]; apply InvMoving.
    1: by split.
    mv_solve rp b.
  - (* WRmSem *) intros [= <- <-]. apply InvCleanup. assert (b = 0 /\ a = 0 /\ r_holds rp = 0) as (-> & -> & Hrp) by (cbn in *; lia).
    change (0 =? 1) with false in *. cbn in *. specialize (M7 eq_refl). specialize (M10 eq_refl M7). destruct rp; cbn in *; try (exfalso; lia).
    change (0 =? 1) with false in *. cbn in *.
    assert (inp = []) as -> by (apply nil_length_inv; lia). rewrite app_nil_r in M3. subst out.
    split_and!; cbn; try done; try lia.
Qed.

Lemma moving_prefix a b g w r : moving a b g w r -> r_out r `prefix_of` input.
Proof. intros M. rewrite <- (mv_data _ _ _ _ _ M). by eexists. Qed.
Lemma moving_dies a b g w r k : moving a b g w r -> xfr_inv (Xfr k w (r_goto RDied r)).
Proof. intros M. apply InvReaderDead; [done|]. exact (moving_prefix a b g w r M). Qed.

Ltac mv_solve_w pc b :=
  let Hb1 := fresh in unfold flight in *; destruct pc; cbn in *; try done; (destruct (b =? 1) eqn:Hb1; cbn in * ); try lia;
  split; cbn; rewrite ?Hb1; unfold flight; cbn; rewrite ?Hb1; cbn; try done; try lia.

Lemma moving_reader a b g w r ans k' r' : moving a b g w r -> reader_step ans (Kern (Some (a, b)) (Some g)) r = Some (k', r') -> xfr_inv (Xfr k' w r').
Proof.
  intros M. pose proof (fun k => moving_dies a b g w r k M) as Hdie. pose proof (moving_prefix a b g w r M) as Hpre.
  destruct M as [M1 M2 M3 M4 M5 M6 M7 M8 M9 M10 M11 M12 M13]. destruct w as [pc inp bs xs], r as [rp out rb rx]. cbn [w_pc w_in w_bytes w_xfrs r_pc r_out r_bytes r_xfrs] in *.
  destruct M1 as [M1 M1'], M2 as (Ma & Mb & Mt & Me), M7 as [M7 M7']. assert (Hr : 0 <= w_holds pc <= 1) by (destruct pc; cbn; lia).
  pose proof (one_chunk_cases g) as Ho.
  destruct rp; try done; cbn [reader_step r_pc r_out r_bytes r_xfrs seg semset].
  - (* RSemget *) destruct ans; intros [= <- <-]; try apply Hdie; apply InvMoving; clear Hdie; mv_solve_w pc b.
  - destruct ans; intros [= <- <-]; try apply Hdie; apply InvMoving; clear Hdie; mv_solve_w pc b.
  - destruct ans; intros [= <- <-]; try apply Hdie; apply InvMoving; clear Hdie; mv_solve_w pc b.
  - (* RReserve *) destruct (reserveSem READ_SEM _ _) as [| | |k1] eqn:E; [done| | |].
    all: destruct (reserve_cases READ_SEM _ (Kern (Some (a, b)) (Some g)) (a, b) _ eq_refl ltac:(cbn in Mt |- *; lia) E) as [[? ?]|[[? ?]|(? & ? & ?)]]; simplify_eq.
    all: intros [= <- <-]; apply InvMoving.
    1: by split.
    clear Hdie E. mv_solve_w pc b.
  - (* RTest *) intros [= <- <-]. apply InvMoving. clear Hdie. destruct (Z.eqb_spec (cnt g) 0) as [Hc|Hc].
    + assert (Hch : chunk g = []) by (unfold chunk; by rewrite Hc). mv_solve_w pc b. all: by rewrite Hch in M3.
    + mv_solve_w pc b.
  - (* RAdd *) destruct (INT_MAX <? rb + cnt g); intros [= <- <-]; [apply Hdie|]. apply InvMoving. clear Hdie. mv_solve_w pc b.
  - (* RWrite *) assert (a = 0 /\ b = 0 /\ w_holds pc = 0) as (-> & -> & Hw) by (cbn in *; lia).
    assert (Hfl : flight pc 0 RWrite g = chunk g) by (by destruct pc). rewrite Hfl in M3.
    destruct ans as [| |n]; [intros [= <- <-]; apply Hdie..|]. clear Hdie. destruct (length (chunk g) <=? n)%nat; intros [= <- <-].
    + assert (Hlen : Z.of_nat (length (chunk g)) = cnt g).
      { unfold chunk. rewrite length_take. assert (0 <= cnt g <= Z.of_nat (length (buf g))); [|lia]. apply M4. by right; right. }
      assert (M3' : (out ++ chunk g) ++ inp = input) by (by rewrite <- app_assoc). apply InvMoving. clear M3 Hfl.
      assert (Hlo : length (out ++ chunk g) = (length out + length (chunk g))%nat) by apply length_app. set (out' := out ++ chunk g) in *. clearbody out'. mv_solve_w pc 0.
    + apply InvReaderDead; [done|]. cbn. exists (drop n (chunk g) ++ inp). by rewrite <- app_assoc, (app_assoc (take n _)), take_drop.
  - (* RRelease *) rewrite (release_ok WRITE_SEM (a, b)) by (done || (cbn in *; lia)). intros [= <- <-]. cbn [put_xval xval fst snd].
    assert (b = 0 /\ a = 0 /\ w_holds pc = 0) as (-> & -> & Hw) by (cbn in *; lia). apply InvMoving. clear Hdie. mv_solve_w pc 0.
  - (* RDetach *) intros [= <- <-]. apply InvMoving. clear Hdie. mv_solve_w pc b.
  - (* RLast *) rewrite (release_ok WRITE_SEM (a, b)) by (done || (cbn in *; lia)). intros [= <- <-]. cbn [put_xval xval fst snd].
    assert (b = 0 /\ a = 0 /\ w_holds pc = 0) as (-> & -> & Hw) by (cbn in *; lia). apply InvMoving. clear Hdie. mv_solve_w pc 0.
Qed.

Lemma setup_writer k w r ans k' w' : setting_up k w r -> writer_step ans k w = Some (k', w') -> xfr_inv (Xfr k' w' r).
Proof.
  intros (Ew & Er & H). destruct w as [pc inp bs xs], r as [rp out rb rx]. cbn [w_pc r_pc] in *. injection Ew as -> -> ->. injection Er as -> -> ->.
  assert (Hd : forall k, match semset k with Some (_, b) => b = 0 | None => True end -> r_early rp = true -> xfr_inv (Xfr k (Writer WDied input 0 0) (Reader rp [] 0 0))).
  { intros k0 Hk Hr. apply InvStillborn. by split_and!. }
  destruct pc; try done; destruct H as [-> H]; cbn [writer_step w_pc semset seg initSemAvailable initSemInUse setval or_die fst snd].
  - subst rp. destruct ans; intros [= <- <-]; try (by apply Hd); apply InvSetup; split_and!; try done; cbn; auto.
  - intros [= <- <-]. apply InvSetup. by split_and!.
  - intros [= <- <-]. apply InvSetup. by split_and!.
  - destruct ans; intros [= <- <-]; try (apply Hd; [done|by destruct H as [-> | ->]]); apply InvSetup; split_and!; try done; cbn; by destruct H as [-> | ->].
  - destruct ans; intros [= <- <-]; try (by apply Hd); apply InvMoving; destruct rp; try done; split; cbn; try done; try lia.
Qed.
Lemma setup_reader k w r ans k' r' : setting_up k w r -> reader_step ans k r = Some (k', r') -> xfr_inv (Xfr k' w r').
Proof.
  intros (Ew & Er & H). destruct w as [pc inp bs xs], r as [rp out rb rx]. cbn [w_pc r_pc] in *. injection Ew as -> -> ->. injection Er as -> -> ->.
  assert (Hd : forall k, xfr_inv (Xfr k (Writer pc input 0 0) (Reader RDied [] 0 0))) by (intros k0; apply InvReaderDead; [done|apply prefix_nil]).
  destruct pc; try done; destruct H as [-> H]; try (destruct H as [-> | ->]); cbn [reader_step r_pc semset seg].
  1: subst rp; cbn; intros [= <- <-]; apply Hd.
  7: destruct rp; try done; cbn.
  10: { destruct (reserveSem READ_SEM _ _) as [| | |k1] eqn:E; [done| | |].
    all: destruct (reserve_cases READ_SEM _ (Kern (Some (1, 0)) (Some zero_seg)) (1, 0) _ eq_refl ltac:(done) E) as [[? ?]|[[? ?]|(? & ? & Hx)]]; simplify_eq; try (by cbn in Hx).
    intros [= <- <-]. apply InvSetup. by split_and!. }
  all: destruct ans; intros [= <- <-]; try apply Hd; apply InvSetup; split_and!; try done; cbn; auto.
Qed.
Lemma cleanup_writer k w r ans k' w' : cleaning_up k w r -> writer_step ans k w = Some (k', w') -> xfr_inv (Xfr k' w' r).
Proof.
  intros (C1 & C2 & C3 & C4 & C5 & C6 & C7 & C8). destruct w as [pc inp bs xs]. cbn [w_pc w_in w_bytes w_xfrs] in *. destruct pc; try done; cbn [writer_step w_pc].
  - intros [= <- <-]. apply InvCleanup. by split_and!.
  - destruct C8 as [g Hg]. rewrite Hg. intros [= <- <-]. apply InvCleanup. by split_and!.
Qed.
Lemma stillborn_reader k w r ans k' r' : stillborn k w r -> reader_step ans k r = Some (k', r') -> xfr_inv (Xfr k' w r').
Proof.
  intros (S1 & S2 & S3 & S4). destruct r as [rp out rb rx]. cbn [r_pc r_out] in *. subst out.
  assert (Hd : forall k, xfr_inv (Xfr k w (Reader RDied [] rb rx))) by (intros k0; apply InvReaderDead; [done|apply prefix_nil]).
  destruct rp; try done; cbn [reader_step r_pc].
  - destruct (semset k) eqn:Ek; [|intros [= <- <-]; apply Hd]. destruct ans; intros [= <- <-]; try apply Hd; apply InvStillborn; split_and!; try done; by rewrite Ek.
  - destruct (seg k); [|intros [= <- <-]; apply Hd]. destruct ans; intros [= <- <-]; try apply Hd; apply InvStillborn; by split_and!.
  - destruct ans; intros [= <- <-]; try apply Hd; apply InvStillborn; by split_and!.
  - unfold reserveSem, semop1. destruct ans; [intros [= <- <-]; apply InvStillborn; by split_and!| |];
      (destruct (semset k) as [[a b]|] eqn:Ek; [subst b; done|intros [= <- <-]; apply Hd]).
Qed.

Lemma xfr_step_inv p ans s s' : xfr_inv s -> xfr_step p ans s = Some s' -> xfr_inv s'.
Proof.
  intros I. destruct p; cbn [xfr_step]; intros ([k x] & E & [= <-])%bind_Some; destruct I as [k0 w r H|a b g w r H|k0 w r H|k0 w r H|k0 w r H Hp]; cbn [x_kern x_w x_r] in *.
  - by eapply setup_writer.
  - by eapply moving_writer.
  - by eapply cleanup_writer.
  - destruct H as [H _]. unfold writer_step in E. by rewrite H in E.
  - by apply InvReaderDead.
  - by eapply setup_reader.
  - by eapply moving_reader.
  - destruct H as [H _]. unfold reader_step in E. by rewrite H in E.
  - by eapply stillborn_reader.
  - unfold reader_step in E. by rewrite H in E.
Qed.
Lemma xfr_run_inv l s : xfr_inv s -> xfr_inv (xfr_run l s).
Proof.
  revert s. induction l as [|[p ans] l IH]; intros s I; [done|]. cbn [xfr_run]. apply IH. destruct (xfr_step p ans s) as [s'|] eqn:E; [|done]. by eapply xfr_step_inv.
Qed.
End Invariant.

(** ** Progress *)

#[local] Arguments Z.mul : simpl never.
#[local] Arguments Z.add : simpl never.

(** A bound on the steps still to come, interruptions not counted. *)
Definition w_rank (g : option shmseg) (pc : wpc) (left : nat) : Z :=
  let c := match g with Some g => cnt g | None => 0 end in
  let full := 30 * (Z.of_nat left + 1) in
  match pc with
  | WSemget => full + 9 | WInitWrite => full + 8 | WInitRead => full + 7 | WShmget => full + 6 | WShmat => full + 5
  | WReserve => full + 4 | WRead => full + 3
  | WRelease => if c =? 0 then 20 else full + 20
  | WTest => if c =? 0 then 8 else full + 11
  | WAdd => full + 10
  | WLast => 7 | WRmSem => 6 | WDetach => 5 | WRmShm => 4
  | WExited | WDied => 0
  end.
Definition r_rank (v : option (Z * Z)) (pc : rpc) : Z :=
  (match v with Some (_, 1) => 7 | _ => 0 end) +
  match pc with
  | RSemget => 8 | RShmget => 5 | RShmat => 4 | RReserve => 3
  | RTest => 7 | RAdd => 6 | RWrite => 5 | RRelease => 4
  | RDetach => 6 | RLast => 5
  | RExited | RDied => 0
  end.
Definition rank (s : xfr) : Z :=
  w_rank (seg (x_kern s)) (w_pc (x_w s)) (length (w_in (x_w s))) + r_rank (semset (x_kern s)) (r_pc (x_r s)).

Definition offer (v : option (Z * Z)) : Z := match v with Some (_, 1) => 7 | _ => 0 end.
Lemma offer_range v : 0 <= offer v <= 7.
Proof. destruct v as [[a [|[]|]]|]; cbn; lia. Qed.
Lemma offer_a a a' b : offer (Some (a, b)) = offer (Some (a', b)).
Proof. done. Qed.
Lemma reserved_semset n i k k' : reserveSem n i k = Reserved k' ->
  exists v, semset k = Some v /\ 1 <= xval n v /\ k' = set_semset (Some (put_xval n (xval n v - 1) v)) k.
Proof.
  unfold reserveSem, semop1. destruct i; [done|]. destruct (semset k) as [v|]; [|done]. destruct (xval n v + -1 <? 0) eqn:E; [done|].
  destruct (SEM_MAX <? xval n v + -1); [done|]. intros [= <-]. bsimp. exists v. split_and!; [done|lia|done].
Qed.
Lemma released_semset n k k' : releaseSem n k = Some k' -> exists v, semset k = Some v /\ k' = set_semset (Some (put_xval n (xval n v + 1) v)) k.
Proof.
  unfold releaseSem, semop1. destruct (semset k) as [v|]; [|done]. destruct (xval n v + 1 <? 0); [done|]. destruct (SEM_MAX <? xval n v + 1); [done|].
  intros [= <-]. by exists v.
Qed.

Lemma writer_rank a k w k' w' : writer_step a k w = Some (k', w') ->
  (k', w') = (k, w) \/
  w_rank (seg k') (w_pc w') (length (w_in w')) + offer (semset k') < w_rank (seg k) (w_pc w) (length (w_in w)) + offer (semset k).
Proof.
  destruct w as [pc inp bs xs]. pose proof (offer_range (semset k)) as O1. pose proof (offer_range (semset k')) as O2.
  destruct pc; cbn [writer_step w_pc w_in w_bytes w_xfrs w_goto]; try done.
  - destruct a; intros [= <- <-]; right; cbn; try lia. all: destruct (semset k) as [v|] eqn:Ek; cbn in *; rewrite ?Ek; cbn; lia.
  - unfold initSemAvailable, setval. destruct (semset k) as [[x y]|] eqn:Ek; intros [= <- <-]; right; cbn in *; rewrite ?Ek; cbn; lia.
  - unfold initSemInUse, setval. destruct (semset k) as [[x y]|] eqn:Ek; intros [= <- <-]; right; cbn in *; rewrite ?Ek; cbn; lia.
  - destruct a; intros [= <- <-]; right; cbn; try lia. all: destruct (seg k) as [g|] eqn:Ek; cbn in *; rewrite ?Ek; cbn; lia.
  - destruct a; intros [= <- <-]; right; cbn; lia.
  - destruct (reserveSem _ _ k) as [| | |k1] eqn:E; [done| | |]; intros [= <- <-]; [by left|right; cbn; lia|right].
    apply reserved_semset in E as ([x y] & Ek & _ & ->). rewrite Ek. cbn. lia.
  - destruct (seg k) as [g|] eqn:Ek; [|intros [= <- <-]; right; cbn; lia]. destruct a as [| |n]; intros [= <- <-]; right; [cbn; lia..|].
    destruct (read_facts n inp g) as (Hm & H0 & Hc & _ & _). set (m := read_size n inp) in *. set (g' := fill _ g) in *. clearbody g'.
    cbn. rewrite Hc, length_drop. destruct (Z.eqb_spec (Z.of_nat m) 0); lia.
  - destruct (releaseSem READ_SEM k) as [k1|] eqn:E; intros [= <- <-]; right; cbn.
    + apply released_semset in E as ([x y] & Ek & ->). rewrite Ek in *. cbn in *. destruct (_ =? 0); lia.
    + destruct (_ =? 0); lia.
  - destruct (seg k) as [g|] eqn:Ek; intros [= <- <-]; right; cbn; rewrite ?Ek; [destruct (cnt g =? 0)|change (0 =? 0) with true]; cbn; lia.
  - destruct (seg k) as [g|] eqn:Ek; [|intros [= <- <-]; right; cbn; lia]. destruct (INT_MAX <? _); intros [= <- <-]; right; cbn; lia.
  - destruct (reserveSem _ _ k) as [| | |k1] eqn:E; [done| | |]; intros [= <- <-]; [by left|right; cbn; lia|right].
    apply reserved_semset in E as ([x y] & Ek & _ & ->). rewrite Ek. cbn. lia.
  - destruct (semset k) eqn:Ek; intros [= <- <-]; right; cbn in *; rewrite ?Ek; cbn; lia.
  - intros [= <- <-]. right. cbn. lia.
  - destruct (seg k); intros [= <- <-]; right; cbn; lia.
Qed.
Lemma reader_rank a k r k' r' : (forall x y, semset k = Some (x, y) -> y <= 1) -> reader_step a k r = Some (k', r') ->
  (k', r') = (k, r) \/ seg k' = seg k /\ r_rank (semset k') (r_pc r') < r_rank (semset k) (r_pc r).
Proof.
  intros Hy. destruct r as [pc out bs xs]. unfold r_rank. fold (offer (semset k)) (offer (semset k')). pose proof (offer_range (semset k)) as O1.
  destruct pc; cbn [reader_step r_pc r_out r_bytes r_xfrs r_goto]; try done.
  - destruct (semset k) eqn:Ek, a; intros [= <- <-]; right; split; try done; cbn in *; rewrite ?Ek; cbn; lia.
  - destruct (seg k) eqn:Ek, a; intros [= <- <-]; right; split; try done; cbn in *; lia.
  - destruct a; intros [= <- <-]; right; split; try done; cbn in *; lia.
  - destruct (reserveSem _ _ k) as [| | |k1] eqn:E; [done| | |]; intros [= <- <-]; [by left|right; split; [done|cbn; lia]|right].
    apply reserved_semset in E as ([x y] & Ek & H1 & ->). specialize (Hy x y Ek). cbn in H1. assert (y = 1) as -> by lia. rewrite Ek in *. split; [done|]. change (xval READ_SEM (x, 1) - 1) with 0. cbn in *. lia.
  - destruct (seg k) as [g|] eqn:Ek; intros [= <- <-]; right; split; try done; cbn; try destruct (cnt g =? 0); lia.
  - destruct (seg k) as [g|] eqn:Ek; [|intros [= <- <-]; right; split; [done|cbn; lia]]. destruct (INT_MAX <? _); intros [= <- <-]; right; split; try done; cbn; lia.
  - destruct (seg k) as [g|] eqn:Ek; [|intros [= <- <-]; right; split; [done|cbn; lia]]. destruct a as [| |n]; [..|destruct (_ <=? n)%nat]; intros [= <- <-]; right; split; try done; cbn; lia.
  - destruct (releaseSem WRITE_SEM k) as [k1|] eqn:E; intros [= <- <-]; right; [|split; [done|cbn; lia]].
    apply released_semset in E as ([x y] & Ek & ->). rewrite Ek in *. split; [done|]. cbn in *. lia.
  - intros [= <- <-]. right. split; [done|]. cbn. lia.
  - destruct (releaseSem WRITE_SEM k) as [k1|] eqn:E; intros [= <- <-]; right; [|split; [done|cbn; lia]].
    apply released_semset in E as ([x y] & Ek & ->). rewrite Ek in *. split; [done|]. cbn in *. lia.
Qed.

Lemma rank_nonneg s : 0 <= rank s.
Proof.
  unfold rank, r_rank. fold (offer (semset (x_kern s))). pose proof (offer_range (semset (x_kern s))).
  assert (0 <= w_rank (seg (x_kern s)) (w_pc (x_w s)) (length (w_in (x_w s)))).
  { unfold w_rank. destruct (w_pc (x_w s)); try destruct (_ =? 0); lia. }
  destruct (r_pc (x_r s)); lia.
Qed.
Lemma xfr_inv_offered input k w r x y : xfr_inv input (Xfr k w r) -> r_pc r <> RDied -> semset k = Some (x, y) -> y <= 1.
Proof.
  inversion 1 as [? ? ? H1|a b g ? ? H1|? ? ? H1|? ? ? H1|? ? ? H1]; subst; intros Hd Ek.
  - destruct H1 as (_ & _ & H1). destruct (w_pc w); try done; destruct H1 as [-> _]; cbn in Ek; simplify_eq; lia.
  - injection Ek as -> ->. destruct (mv_token _ _ _ _ _ _ H1) as (? & ? & ? & _). assert (0 <= w_holds (w_pc w)) by (destruct (w_pc w); cbn; lia).
    assert (0 <= r_holds (r_pc r)) by (destruct (r_pc r); cbn; lia). lia.
  - destruct H1 as (_ & _ & _ & _ & _ & _ & H1 & _). congruence.
  - destruct H1 as (_ & _ & _ & H1). rewrite Ek in H1. lia.
  - done.
Qed.
Lemma xfr_step_rank input p ans s s' : xfr_inv input s -> xfr_step p ans s = Some s' -> s' = s \/ rank s' < rank s.
Proof.
  intros I. destruct s as [k w r]. destruct p; cbn [xfr_step x_kern x_w x_r]; intros ([k' x] & E & [= <-])%bind_Some; unfold rank; cbn [x_kern x_w x_r].
  - destruct (writer_rank _ _ _ _ _ E) as [[= -> ->]|H]; [by left|right]. unfold r_rank. fold (offer (semset k')) (offer (semset k)). lia.
  - assert (Hd : r_pc r <> RDied) by (intros Hd; unfold reader_step in E; by rewrite Hd in E).
    destruct (reader_rank _ _ _ _ _ (fun a b => xfr_inv_offered input k w r a b I Hd) E) as [[= -> ->]|[-> H]]; [by left|right]. lia.
Qed.
Lemma xfr_moves_rank input l s : xfr_inv input s -> Z.of_nat (xfr_moves l s) + rank (xfr_run l s) <= rank s.
Proof.
  revert s. induction l as [|[p ans] l IH]; intros s I; cbn [xfr_moves xfr_run]; [lia|].
  destruct (xfr_step p ans s) as [s'|] eqn:E; cbn [from_option id].
  - specialize (IH s' (xfr_step_inv input p ans s s' I E)). destruct (xfr_step_rank input p ans s s' I E) as [->|H]; destruct decide as [Hd|Hd]; try done; rewrite ?Hd in *; lia.
  - rewrite decide_True by done. specialize (IH s I). lia.
Qed.

(** ** No deadlock *)

Definition w_stopped (pc : wpc) : bool := match pc with WExited | WDied => true | _ => false end.
Definition r_stopped (pc : rpc) : bool := match pc with RExited | RDied => true | _ => false end.
Definition w_waits (pc : wpc) : bool := match pc with WReserve | WLast => true | _ => false end.
Definition r_waits (pc : rpc) : bool := match pc with RReserve => true | _ => false end.

Lemma success_moves p n s s' : xfr_step p (Success n) s = Some s' -> s' <> s.
Proof.
  destruct s as [k [pc inp bs xs] [rp out rb rx]]. destruct p; cbn [xfr_step x_kern x_w x_r]; intros ([k' x] & E & [= <-])%bind_Some H; injection H as -> ->.
  - destruct pc; cbn in E; try done; unfold or_die in E; repeat case_match; simplify_eq.
  - destruct rp; cbn in E; try done; repeat case_match; simplify_eq.
Qed.

(** Only a process that waits for its semaphore cannot go on. *)
Lemma writer_goes n k w : w_stopped (w_pc w) = false ->
  (w_waits (w_pc w) = true -> match semset k with Some (a, _) => 1 <= a <= SEM_MAX | None => True end) -> is_Some (writer_step (Success n) k w).
Proof.
  destruct w as [pc inp bs xs]. intros Hs Hw. destruct pc; try done; cbn; try (eapply mk_is_Some; reflexivity); try (case_match; eapply mk_is_Some; reflexivity); try (repeat case_match; eapply mk_is_Some; reflexivity).
  all: specialize (Hw eq_refl); unfold reserveSem, semop1; destruct (semset k) as [[a b]|]; [|by eexists]; cbn; repeat case_match; bsimp; simplify_eq; try lia; eapply mk_is_Some; reflexivity.
Qed.
Lemma reader_goes n k r : r_stopped (r_pc r) = false ->
  (r_waits (r_pc r) = true -> match semset k with Some (_, b) => 1 <= b <= SEM_MAX | None => True end) -> is_Some (reader_step (Success n) k r).
Proof.
  destruct r as [pc out bs xs]. intros Hs Hw. destruct pc; try done; cbn; try (eapply mk_is_Some; reflexivity); try (case_match; eapply mk_is_Some; reflexivity); try (repeat case_match; eapply mk_is_Some; reflexivity).
  all: specialize (Hw eq_refl); unfold reserveSem, semop1; destruct (semset k) as [[a b]|]; [|by eexists]; cbn; repeat case_match; bsimp; simplify_eq; try lia; eapply mk_is_Some; reflexivity.
Qed.
Definition can_move (s : xfr) : Prop := exists p, forall n, exists s', xfr_step p (Success n) s = Some s' /\ s' <> s.
Lemma writer_can s : w_stopped (w_pc (x_w s)) = false ->
  (w_waits (w_pc (x_w s)) = true -> match semset (x_kern s) with Some (a, _) => 1 <= a <= SEM_MAX | None => True end) -> can_move s.
Proof.
  intros H1 H2. exists TheWriter. intros n. destruct (writer_goes n _ _ H1 H2) as [[k w] E].
  exists (Xfr k w (x_r s)). assert (E' : xfr_step TheWriter (Success n) s = Some (Xfr k w (x_r s))) by (cbn; by rewrite E). split; [done|by eapply success_moves].
Qed.
Lemma reader_can s : r_stopped (r_pc (x_r s)) = false ->
  (r_waits (r_pc (x_r s)) = true -> match semset (x_kern s) with Some (_, b) => 1 <= b <= SEM_MAX | None => True end) -> can_move s.
Proof.
  intros H1 H2. exists TheReader. intros n. destruct (reader_goes n _ _ H1 H2) as [[k r] E].
  exists (Xfr k (x_w s) r). assert (E' : xfr_step TheReader (Success n) s = Some (Xfr k (x_w s) r)) by (cbn; by rewrite E). split; [done|by eapply success_moves].
Qed.
Lemma xfr_no_deadlock input s : xfr_inv input s -> w_pc (x_w s) <> WDied -> r_pc (x_r s) <> RDied ->
  w_pc (x_w s) = WExited /\ r_pc (x_r s) = RExited \/ can_move s.
Proof.
  intros I Hw Hr. destruct I as [k w r H|a b g w r H|k w r H|k w r H|k w r H]; cbn [x_w x_r] in *.
  - right. destruct H as (_ & _ & H). apply writer_can; cbn; by destruct (w_pc w).
  - right. destruct H as [[M1 M1'] (Ma & Mb & Mt & Me) _ _ _ _ _ _ M9 _ _ _ _]. 
    assert (Hd : w_dead (w_pc w) = false) by (by destruct (w_pc w)). specialize (Me Hd).
    destruct (w_waits (w_pc w)) eqn:Ew; [|apply writer_can; cbn; [by destruct (w_pc w)|by rewrite Ew]].
    destruct (Z.eq_dec a 0) as [->|Ha].
    + apply reader_can; cbn.
      * destruct (r_pc r); try done. exfalso. destruct (M9 eq_refl) as (_ & -> & _). cbn in *. destruct (w_pc w); try done; cbn in Me; lia.
      * intros Er. assert (w_holds (w_pc w) = 0) by (by destruct (w_pc w)). assert (r_holds (r_pc r) = 0) by (by destruct (r_pc r)). unfold SEM_MAX. lia.
    + apply writer_can; cbn; [by destruct (w_pc w)|]. assert (0 <= w_holds (w_pc w)) by (by destruct (w_pc w)). assert (0 <= r_holds (r_pc r)) by (by destruct (r_pc r)). unfold SEM_MAX. lia.
  - destruct H as (H1 & _ & _ & _ & _ & _ & _ & H2). destruct (w_pc w) eqn:E; try done; [right..|by left]; apply writer_can; cbn; rewrite E; done.
  - by destruct H.
  - done.
Qed.
