(* ===== verification/ShmXfrTheorems.v ===== *)
(** What the two programs of [src/tlpi-dist/svshm] achieve together. *)
From S2P Require Import Prelude ShmXfr ShmXfrInv.

Lemma moving_exited input a b g w r : moving input a b g w r -> r_pc r = RExited -> r_out r = input.
Proof.
  intros [[M1 _] _ M3 _ M5 _ _ _ M9 _ _ _ _] E. rewrite E in *. destruct (M9 eq_refl) as (Hc & -> & He).
  assert (Hin : w_in w = []) by (apply length_zero_iff_nil, M5; auto). rewrite Hin in M3. cbn in M3.
  assert (Hf : flight (w_pc w) 0 RExited g = []) by (by destruct (w_pc w); destruct He).
  by rewrite Hf, !app_nil_r in M3.
Qed.
Lemma holds_range w r : 0 <= w_holds w <= 1 /\ 0 <= r_holds r <= 1.
Proof. destruct w, r; cbn; lia. Qed.
Lemma xfr_inv_excludes input s : xfr_inv input s -> w_holds (w_pc (x_w s)) + r_holds (r_pc (x_r s)) <= 1.
Proof.
  intros I. pose proof (holds_range (w_pc (x_w s)) (r_pc (x_r s))) as Hh. destruct I as [k w r H|a b g w r H|k w r H|k w r H|k w r H Hp]; cbn [x_w x_r] in *.
  - destruct H as (_ & _ & H). assert (w_holds (w_pc w) = 0) by (by destruct (w_pc w)). lia.
  - destruct (mv_token _ _ _ _ _ _ H) as (? & ? & ? & _). lia.
  - destruct H as (-> & _). cbn in *. lia.
  - destruct H as (-> & _). cbn in *. lia.
  - rewrite H in *. cbn in *. lia.
Qed.
Lemma xfr_inv_prefix input s : xfr_inv input s -> r_out (x_r s) `prefix_of` input.
Proof.
  intros [k w r H|a b g w r H|k w r H|k w r H|k w r H Hp]; cbn [x_r].
  - destruct H as (_ & -> & _). apply prefix_nil.
  - by eapply moving_prefix.
  - destruct H as (_ & -> & _). done.
  - destruct H as (_ & _ & -> & _). apply prefix_nil.
  - done.
Qed.
Lemma xfr_inv_exited input s : xfr_inv input s -> r_pc (x_r s) = RExited -> r_out (x_r s) = input.
Proof.
  intros [k w r H|a b g w r H|k w r H|k w r H|k w r H Hp] E; cbn [x_r] in *.
  - destruct H as (_ & _ & H). rewrite E in H. exfalso. destruct (w_pc w); naive_solver.
  - by eapply moving_exited.
  - by destruct H as (_ & ? & _).
  - destruct H as (_ & H & _). by rewrite E in H.
  - congruence.
Qed.
Lemma xfr_inv_final input s : xfr_inv input s -> w_pc (x_w s) = WExited -> r_pc (x_r s) = RExited ->
  w_in (x_w s) = [] /\ w_bytes (x_w s) = Z.of_nat (length input) /\ r_bytes (x_r s) = w_bytes (x_w s) /\ r_xfrs (x_r s) = w_xfrs (x_w s) /\ x_kern s = Kern None None.
Proof.
  intros [k w r H|a b g w r H|k w r H|k w r H|k w r H Hp] Ew Er; cbn [x_w x_r x_kern] in *.
  - destruct H as (_ & _ & H). by rewrite Ew in H.
  - destruct (mv_pc _ _ _ _ _ _ H) as [H1 _]. by rewrite Ew in H1.
  - destruct H as (_ & _ & ? & ? & ? & ? & Hs & H). rewrite Ew in H. destruct k as [ss sg]. cbn in *. subst. split_and!; congruence.
  - destruct H as (H & _). congruence.
  - congruence.
Qed.

(** C18: Whatever the order in which writer and reader run, the sizes their reads return and the calls
    that fail or are interrupted: what the reader has written is always a prefix of the
    writer's input, the two are never in possession of the shared memory at once, a reader that
    exits has written the whole input, and when both exit the counts of bytes and of
    transfers they report agree and neither semaphores nor shared memory are left behind. *)
Theorem shm_transfer_faithful input l :
  let s := xfr_run l (xfr0 input) in
  r_out (x_r s) `prefix_of` input /\
  w_holds (w_pc (x_w s)) + r_holds (r_pc (x_r s)) <= 1 /\
  (r_pc (x_r s) = RExited -> r_out (x_r s) = input) /\
  (w_pc (x_w s) = WExited -> r_pc (x_r s) = RExited ->
   w_in (x_w s) = [] /\ w_bytes (x_w s) = Z.of_nat (length input) /\ r_bytes (x_r s) = w_bytes (x_w s) /\ r_xfrs (x_r s) = w_xfrs (x_w s) /\ x_kern s = Kern None None).
Proof.
  intros s. assert (I : xfr_inv input s) by apply xfr_run_inv, xfr0_inv.
  split; [by apply xfr_inv_prefix|]. split; [by eapply xfr_inv_excludes|]. split; [by apply xfr_inv_exited|by apply xfr_inv_final].
Qed.

(** C19: The transfer ends: an execution has at most a fixed number of steps per byte of
    input, waiting and interrupted calls not counted, and as long as neither program has
    died and not both have exited one of them can take a step. *)
Theorem shm_transfer_terminates input l :
  let s := xfr_run l (xfr0 input) in
  Z.of_nat (xfr_moves l (xfr0 input)) <= 30 * (Z.of_nat (length input) + 1) + 17 /\
  (w_pc (x_w s) <> WDied -> r_pc (x_r s) <> RDied -> w_pc (x_w s) = WExited /\ r_pc (x_r s) = RExited \/ can_move s).
Proof.
  intros s. split.
  - pose proof (xfr_moves_rank input l (xfr0 input) (xfr0_inv input)) as H. pose proof (rank_nonneg (xfr_run l (xfr0 input))).
    assert (rank (xfr0 input) = 30 * (Z.of_nat (length input) + 1) + 17) by (unfold rank, w_rank, r_rank; cbn [xfr0 x_kern x_w x_r seg semset w_pc w_in r_pc]; lia). lia.
  - apply (xfr_no_deadlock input), xfr_run_inv, xfr0_inv.
Qed.

(** A run to the end: three bytes read as two and one. *)
Definition sample_schedule : list (who * answer) :=
  replicate 8 (TheWriter, Success 2) ++ [(TheReader, Interrupt)] ++ replicate 9 (TheReader, Success 9) ++ [(TheWriter, Interrupt)] ++
  replicate 5 (TheWriter, Success 2) ++ replicate 9 (TheReader, Success 9) ++ replicate 9 (TheWriter, Success 2) ++ replicate 9 (TheReader, Success 9) ++ replicate 9 (TheWriter, Success 2).
Example shm_sample_run : let s := xfr_run sample_schedule (xfr0 [7; 8; 9]) in
  (w_pc (x_w s), w_bytes (x_w s), w_xfrs (x_w s)) = (WExited, 3, 2) /\ (r_pc (x_r s), r_out (x_r s), r_bytes (x_r s), r_xfrs (x_r s)) = (RExited, [7; 8; 9], 3, 2).
Proof. vm_compute. done. Qed.
