(* ===== verification/SvmsgFile.v ===== *)
(** The file server over System V message queues of [src/tlpi-dist/svmsg]:
    [svmsg_file_server.c], its parent and its children, and any number of processes that run
    [svmsg_file_client.c], which interleave at every call on a queue or a file. *)
From S2P Require Import Prelude CStr.

(** ** svmsg_file.h *)

Definition PATH_MAX : Z := 4096.
Definition RESP_MSG_SIZE : Z := 8192.
Definition INT_MAX : Z := 2 ^ 31 - 1.

(** A queue is named by the client that creates it: the kernel's identifiers are distinct,
    and each client creates one. *)
Record requestMsg := RequestMsg { clientId : nat; pathname : list Z }.
Definition REQ_MSG_SIZE : Z := 4 + PATH_MAX.

Inductive resp_type := RESP_MT_FAILURE | RESP_MT_DATA | RESP_MT_END.
Record responseMsg := ResponseMsg { mtype : resp_type; mtext : list Z }.

(** ** Message queues *)

(** The server's queue and those of the clients, as far as they exist. *)
Record ipc := Ipc { serverq : option (list requestMsg); clientq : gmap nat (list responseMsg) }.
Definition set_serverq (x : option (list requestMsg)) (k : ipc) : ipc := Ipc x (clientq k).
Definition set_clientq (f : gmap nat (list responseMsg) -> gmap nat (list responseMsg)) (k : ipc) : ipc := Ipc (serverq k) (f (clientq k)).

(** How the outside answers a call: a signal, an error, or success, with a number of bytes
    where one is asked for. *)
Inductive outcome := Interrupted | Fails | Works (n : nat).
Definition works (a : outcome) : bool := match a with Works _ => true | _ => false end.

(** [msgsnd] waits while the queue has no room for the bytes of the message, or for
    one more message. *)
Inductive snd_result (A : Type) := SndWaits | SndError | Sent (q : list A).
Arguments SndWaits {A}. Arguments SndError {A}. Arguments Sent {A} q.
Definition qsize {A} (size : A -> Z) (q : list A) : Z := foldr (fun m n => size m + n) 0 q.
Definition msgsnd {A} (size : A -> Z) (qbytes : Z) (a : outcome) (q : option (list A)) (m : A) : snd_result A :=
  match q with
  | None => SndError
  | Some l =>
      if negb (works a) then SndError
      else if (qsize size l + size m <=? qbytes) && (Z.of_nat (length l) + 1 <=? qbytes) then Sent (l ++ [m]) else SndWaits
  end.
(** [msgrcv] of the first message of any type. *)
Inductive rcv_result (A : Type) := RcvWaits | RcvIntr | RcvError | Received (m : A) (q : list A).
Arguments RcvWaits {A}. Arguments RcvIntr {A}. Arguments RcvError {A}. Arguments Received {A} m q.
Definition msgrcv {A} (a : outcome) (q : option (list A)) : rcv_result A :=
  match q with
  | None => RcvError
  | Some l =>
      match a with
      | Interrupted => RcvIntr
      | Fails => RcvError
      | Works _ => match l with [] => RcvWaits | m :: l' => Received m l' end
      end
  end.
Definition req_size (r : requestMsg) : Z := REQ_MSG_SIZE.
Definition resp_size (m : responseMsg) : Z := Z.of_nat (length (mtext m)).

Definition EXIT_SUCCESS : Z := 0.
Definition EXIT_FAILURE : Z := 1.

Section Programs.
(** The most bytes in a queue, and the files with their contents. *)
Context (qbytes : Z) (files : list Z -> option (list Z)).

(** ** A child of the server: serveRequest *)

Inductive child_pc := ChOpen | ChFailure | ChRead | ChSend (numRead : list Z) | ChEnd | ChExited (status : Z).
(** [ch_rest]: what is left to read of the file. *)
Record child := Child { ch_req : requestMsg; ch_pc : child_pc; ch_rest : list Z }.
Definition ch_goto (pc : child_pc) (c : child) : child := Child (ch_req c) pc (ch_rest c).

Definition msg_failure : responseMsg := ResponseMsg RESP_MT_FAILURE (take (Z.to_nat (RESP_MSG_SIZE - 1)) (bytes "Couldn't open") ++ [NUL]).
Definition msg_end : responseMsg := ResponseMsg RESP_MT_END [].
(** At least a byte unless the file is at its end. *)
Definition piece_size (n : nat) (l : list Z) : nat := Nat.min (Nat.max 1 n) (Nat.min (Z.to_nat RESP_MSG_SIZE) (length l)).

Definition reply (a : outcome) (k : ipc) (c : child) (m : responseMsg) (pc_ok pc_error : child_pc) : option (ipc * child) :=
  let id := clientId (ch_req c) in
  match msgsnd resp_size qbytes a (clientq k !! id) m with
  | SndWaits => None
  | SndError => Some (k, ch_goto pc_error c)
  | Sent q => Some (set_clientq (insert id q) k, ch_goto pc_ok c)
  end.
Definition serveRequest (a : outcome) (k : ipc) (c : child) : option (ipc * child) :=
  match ch_pc c with
  | ChOpen =>
      match files (pathname (ch_req c)), a with
      | Some content, Works _ => Some (k, Child (ch_req c) ChRead content)
      | _, _ => Some (k, ch_goto ChFailure c)
      end
  | ChFailure => reply a k c msg_failure (ChExited EXIT_FAILURE) (ChExited EXIT_FAILURE)
  | ChRead =>
      match a with
      | Works n =>
          let m := piece_size n (ch_rest c) in
          Some (k, if (m =? 0)%nat then ch_goto ChEnd c else Child (ch_req c) (ChSend (take m (ch_rest c))) (drop m (ch_rest c)))
      | _ => Some (k, ch_goto ChEnd c)
      end
  | ChSend d => reply a k c (ResponseMsg RESP_MT_DATA d) ChRead ChEnd
  | ChEnd => reply a k c msg_end (ChExited EXIT_SUCCESS) (ChExited EXIT_SUCCESS)
  | ChExited _ => None
  end.

(** ** The server: main *)

Inductive parent := PCreate | PSigaction | PReceive | PFork (req : requestMsg) | PRemove | PExited (status : Z).
(** The child, if one is born. *)
Definition server_step (a : outcome) (k : ipc) (p : parent) : option (ipc * parent * option child) :=
  match p with
  | PCreate =>
      match serverq k, a with
      | None, Works _ => Some (set_serverq (Some []) k, PSigaction, None)
      | _, _ => Some (k, PExited EXIT_FAILURE, None)
      end
  | PSigaction => Some (k, if works a then PReceive else PExited EXIT_FAILURE, None)
  | PReceive =>
      match msgrcv a (serverq k) with
      | RcvWaits => None
      | RcvIntr => Some (k, PReceive, None)
      | RcvError => Some (k, PRemove, None)
      | Received req q => Some (set_serverq (Some q) k, PFork req, None)
      end
  | PFork req => Some (if works a then (k, PReceive, Some (Child req ChOpen [])) else (k, PRemove, None))
  | PRemove =>
      match serverq k, a with
      | Some _, Works _ => Some (set_serverq None k, PExited EXIT_SUCCESS, None)
      | _, _ => Some (k, PExited EXIT_FAILURE, None)
      end
  | PExited _ => None
  end.

(** ** The client *)

(** [KRemove]: the exit handler is to run; [KOverflow]: [numMsgs] has exceeded its type. *)
Inductive client_pc :=
  | KArgs | KServer | KCreate | KAtexit | KSend | KFirst | KMore
  | KRemove (status : Z) | KExited (status : Z) | KOverflow.
Record client := Client { c_pc : client_pc; c_argv : list (list Z); c_tot : Z; c_msgs : Z; c_out : list Z }.
Definition c_goto (pc : client_pc) (c : client) : client := Client pc (c_argv c) (c_tot c) (c_msgs c) (c_out c).
Definition c_exit (out : list Z) (status : Z) (c : client) : client := Client (KRemove status) (c_argv c) (c_tot c) (c_msgs c) (c_out c ++ out).
(** The argument [argv[1]]. *)
Definition c_path (c : client) : list Z := default [] (head (c_argv c)).
Definition bad_args (argv : list (list Z)) : bool :=
  match argv with
  | [p] => bool_decide (p = bytes "--help") || (PATH_MAX - 1 <? Z.of_nat (length p))
  | _ => true
  end.

Definition received_line (tot msgs : Z) : list Z := bytes "Received " ++ dec tot ++ bytes " bytes (" ++ dec msgs ++ bytes " messages)" ++ [NEWLINE].
(** A message has arrived and been counted; the loop goes on after data. *)
Definition got (m : responseMsg) (c : client) : client :=
  match mtype m with
  | RESP_MT_DATA => c_goto KMore c
  | _ => c_exit (received_line (c_tot c) (c_msgs c)) EXIT_SUCCESS c
  end.
Definition removeQueue (a : outcome) (i : nat) (st : Z) (k : ipc) : ipc * client_pc :=
  match clientq k !! i, a with
  | Some _, Works _ => (set_clientq (delete i) k, KExited st)
  | _, _ => (k, KExited EXIT_FAILURE)
  end.
Definition client_step (a : outcome) (i : nat) (k : ipc) (c : client) : option (ipc * client) :=
  let dies := Some (k, c_exit [] EXIT_FAILURE c) in
  let gives_up := Some (k, c_goto (KExited EXIT_FAILURE) c) in
  match c_pc c with
  | KArgs => Some (k, c_goto (if bad_args (c_argv c) then KExited EXIT_FAILURE else KServer) c)
  | KServer => match serverq k, a with Some _, Works _ => Some (k, c_goto KCreate c) | _, _ => gives_up end
  | KCreate => if works a then Some (set_clientq (insert i []) k, c_goto KAtexit c) else gives_up
  | KAtexit => if works a then Some (k, c_goto KSend c) else gives_up
  | KSend =>
      match msgsnd req_size qbytes a (serverq k) (RequestMsg i (take (Z.to_nat (PATH_MAX - 1)) (c_path c))) with
      | SndWaits => None
      | SndError => dies
      | Sent q => Some (set_serverq (Some q) k, c_goto KFirst c)
      end
  | KFirst =>
      match msgrcv a (clientq k !! i) with
      | RcvWaits => None
      | RcvIntr | RcvError => dies
      | Received m q =>
          Some (set_clientq (insert i q) k,
                match mtype m with
                | RESP_MT_FAILURE => c_exit (cstr (mtext m) ++ [NEWLINE]) EXIT_FAILURE c
                | _ => got m (Client KFirst (c_argv c) (resp_size m) 1 (c_out c))
                end)
      end
  | KMore =>
      match msgrcv a (clientq k !! i) with
      | RcvWaits => None
      | RcvIntr | RcvError => dies
      | Received m q =>
          Some (set_clientq (insert i q) k,
                if INT_MAX <=? c_msgs c then c_goto KOverflow c
                else got m (Client KMore (c_argv c) (c_tot c + resp_size m) (c_msgs c + 1) (c_out c)))
      end
  | KRemove st => let r := removeQueue a i st k in Some (r.1, c_goto r.2 c)
  | KExited _ | KOverflow => None
  end.

(** ** All of them *)

Record sys := Sys { s_ipc : ipc; s_parent : parent; s_kids : list child; s_clients : list client }.
Inductive actor := TheServer | TheChild (j : nat) | TheClient (i : nat).
Definition sys_step (p : actor) (a : outcome) (s : sys) : option sys :=
  match p with
  | TheServer => '(k, q, born) ← server_step a (s_ipc s) (s_parent s); Some (Sys k q (s_kids s ++ option_list born) (s_clients s))
  | TheChild j =>
      c ← s_kids s !! j;
      '(k, c') ← serveRequest a (s_ipc s) c; Some (Sys k (s_parent s) (<[j := c']> (s_kids s)) (s_clients s))
  | TheClient i =>
      c ← s_clients s !! i;
      '(k, c') ← client_step a i (s_ipc s) c; Some (Sys k (s_parent s) (s_kids s) (<[i := c']> (s_clients s)))
  end.
(** A schedule; what cannot go on waits. *)
Fixpoint sys_run (l : list (actor * outcome)) (s : sys) : sys :=
  match l with
  | [] => s
  | (p, a) :: l' => sys_run l' (default s (sys_step p a s))
  end.
(** The programs are about to start; [argvs]: the arguments of the clients. *)
Definition sys0 (argvs : list (list (list Z))) : sys :=
  Sys (Ipc None ∅) PCreate [] (map (fun argv => Client KArgs argv 0 0 []) argvs).
End Programs.
