(* ===== verification/SvmsgInv.v ===== *)
(** Invariants of the file server of [src/tlpi-dist/svmsg] under every interleaving of the
    server, its children and the clients. *)
From S2P Require Import Prelude CStr SvmsgFile.

Definition data (ds : list (list Z)) : list responseMsg := map (ResponseMsg RESP_MT_DATA) ds.
Definition total (ds : list (list Z)) : Z := foldr (fun d n => Z.of_nat (length d) + n) 0 ds.
Lemma total_app a b : total (a ++ b) = total a + total b.
Proof. unfold total. induction a as [|d a IH]; cbn; [done|]. rewrite IH. lia. Qed.
Lemma data_app a b : data (a ++ b) = data a ++ data b.
Proof. apply map_app. Qed.

Lemma sublist_in {A} (l k : list A) x : l `sublist_of` k -> x ∈ l -> x ∈ k.
Proof. intros H Hx. eapply elem_of_submseteq; [exact Hx|]. by apply sublist_submseteq. Qed.

(** The size of a piece that is sent in a message. *)
Definition piece (d : list Z) : Prop := 1 <= Z.of_nat (length d) <= RESP_MSG_SIZE.

Section Invariant.
(** [clean]: no call of a child fails; [calm]: no call fails at all, and the server has
    been started. *)
Context (qbytes : Z) (files : list Z -> option (list Z)) (clean calm : bool).

(** ** One client, its queue, and who works for it *)

(** The client has counted all but [ds] and [lost] bytes. *)
Definition stream (c : client) (ds : list (list Z)) (lost : Z) : Prop :=
  exists content, files (c_path c) = Some content /\ Forall piece ds /\ 0 <= lost /\
    c_tot c + total ds + lost = Z.of_nat (length content) /\
    0 <= c_msgs c <= c_tot c /\ c_tot c <= RESP_MSG_SIZE * c_msgs c.

Definition active (pc : client_pc) : bool := match pc with KFirst | KMore => true | _ => false end.
(** What the queue of a client that waits contains, by the position of its child. *)
Definition flow (c : client) (ch : child) (q : list responseMsg) : Prop :=
  match ch_pc ch with
  | ChOpen => q = [] /\ c_pc c = KFirst
  | ChFailure => q = [] /\ c_pc c = KFirst /\ (clean = true -> files (c_path c) = None)
  | ChRead => exists ds, q = data ds /\ stream c ds (Z.of_nat (length (ch_rest ch)))
  | ChSend d => piece d /\ exists ds, q = data ds /\ stream c ds (Z.of_nat (length d) + Z.of_nat (length (ch_rest ch)))
  | ChEnd => exists ds lost, q = data ds /\ stream c ds lost /\ (clean = true -> lost = 0)
  | ChExited st =>
      (exists ds lost, (q = data ds ++ [msg_end] \/ clean = false /\ q = data ds) /\ stream c ds lost /\ (clean = true -> lost = 0)) \/
      (c_pc c = KFirst /\ (q = [msg_failure] /\ (clean = true -> files (c_path c) = None) \/ clean = false /\ q = []))
  end.

Definition blank (c : client) : Prop := c_tot c = 0 /\ c_msgs c = 0 /\ c_out c = [].
Definition no_such_file : list Z := bytes "Couldn't open" ++ [NEWLINE].
Definition result (c : client) (st : Z) : Prop :=
  (st = EXIT_SUCCESS ->
   bad_args (c_argv c) = false /\ exists content, files (c_path c) = Some content /\ c_out c = received_line (c_tot c) (c_msgs c) /\
     0 <= c_tot c <= Z.of_nat (length content) /\ (clean = true -> c_tot c = Z.of_nat (length content)) /\
     c_msgs c - 1 <= c_tot c <= RESP_MSG_SIZE * (c_msgs c - 1)) /\
  (st <> EXIT_SUCCESS -> st = EXIT_FAILURE /\ (calm = true ->
   bad_args (c_argv c) = true /\ c_out c = [] \/ bad_args (c_argv c) = false /\ files (c_path c) = None /\ c_out c = no_such_file)).

Definition client_ok (q : option (list responseMsg)) (own : Prop) (c : client) : Prop :=
  match c_pc c with
  | KArgs => q = None /\ ~ own /\ blank c
  | KServer | KCreate => q = None /\ ~ own /\ blank c /\ bad_args (c_argv c) = false
  | KAtexit | KSend => q = Some [] /\ ~ own /\ blank c /\ bad_args (c_argv c) = false
  | KFirst => (own /\ is_Some q \/ calm = false /\ q = Some []) /\ blank c /\ bad_args (c_argv c) = false
  | KMore => own /\ is_Some q /\ c_out c = [] /\ bad_args (c_argv c) = false
  | KRemove st => is_Some q /\ result c st
  | KExited st => result c st
  | KOverflow => exists content, files (c_path c) = Some content /\ INT_MAX <= Z.of_nat (length content)
  end.
Definition req_ok (q : option (list responseMsg)) (c : client) (r : requestMsg) : Prop :=
  pathname r = c_path c /\ (active (c_pc c) = true -> c_pc c = KFirst /\ q = Some []).
Definition kid_ok (q : option (list responseMsg)) (c : client) (ch : child) : Prop :=
  pathname (ch_req ch) = c_path c /\ (active (c_pc c) = true -> exists l, q = Some l /\ flow c ch l).

(** ** All of them *)

Definition in_hand (p : parent) : list requestMsg := match p with PFork r => [r] | _ => [] end.
Definition reqs (s : sys) : list requestMsg := in_hand (s_parent s) ++ default [] (serverq (s_ipc s)).
Definition owners (s : sys) : list nat := map clientId (reqs s) ++ map (fun ch => clientId (ch_req ch)) (s_kids s).
Definition q_of (s : sys) (i : nat) : option (list responseMsg) := clientq (s_ipc s) !! i.
Definition is_up (s : sys) : Prop :=
  is_Some (serverq (s_ipc s)) /\ match s_parent s with PReceive | PFork _ => True | _ => False end.

Record sys_inv (s : sys) : Prop := SysInv {
  si_nodup : NoDup (owners s);
  si_up : calm = true -> is_up s;
  si_client i c : s_clients s !! i = Some c -> client_ok (q_of s i) (i ∈ owners s) c;
  si_req r : r ∈ reqs s -> exists c, s_clients s !! clientId r = Some c /\ req_ok (q_of s (clientId r)) c r;
  si_kid ch : ch ∈ s_kids s -> exists c, s_clients s !! clientId (ch_req ch) = Some c /\ kid_ok (q_of s (clientId (ch_req ch))) c ch
}.

(** ** The steps of a child *)

Lemma piece_facts n l : let m := piece_size n l in
  (m <= length l)%nat /\ (m = 0%nat -> l = []) /\ (m <> 0%nat -> piece (take m l)).
Proof.
  intros m. assert (Hm : (m <= length l)%nat) by (unfold m, piece_size; lia). split_and!; [done| |].
  - unfold m, piece_size, RESP_MSG_SIZE. destruct l; [done|]. cbn [length]. lia.
  - intros H0. unfold piece. rewrite length_take, Nat.min_l by done. unfold m, piece_size, RESP_MSG_SIZE in *. lia.
Qed.

Lemma reply_cases a k ch m p1 p2 k' ch' : reply qbytes a k ch m p1 p2 = Some (k', ch') ->
  let id := clientId (ch_req ch) in
  (exists l, clientq k !! id = Some l /\ k' = set_clientq (insert id (l ++ [m])) k /\ ch' = ch_goto p1 ch) \/
  ((clientq k !! id = None \/ works a = false) /\ k' = k /\ ch' = ch_goto p2 ch).
Proof.
  unfold reply, msgsnd. destruct (clientq k !! _) as [l|]; [|intros [= <- <-]; right; auto].
  destruct (works a); cbn; [|intros [= <- <-]; right; auto]. destruct (_ && _); [|done]. intros [= <- <-]. left. eauto.
Qed.

Lemma stream_send c ds d lost : stream c ds (Z.of_nat (length d) + lost) -> 0 <= lost -> piece d -> stream c (ds ++ [d]) lost.
Proof.
  intros (content & H1 & H2 & H3 & H4 & H5) Hl Hd. exists content. split; [done|]. split; [apply Forall_app; auto|].
  rewrite total_app. cbn. split_and!; try lia.
Qed.

(** What a child does, seen by the client it works for. *)
Definition kid_moves (k : ipc) (ch : child) (k' : ipc) (ch' : child) (c : client) : Prop :=
  let id := clientId (ch_req ch) in
  ch_req ch' = ch_req ch /\ serverq k' = serverq k /\ (forall i, i <> id -> clientq k' !! i = clientq k !! i) /\
  (is_Some (clientq k !! id) -> is_Some (clientq k' !! id)) /\ kid_ok (clientq k' !! id) c ch'.

Lemma kid_local k ch pc rest c : let ch' := Child (ch_req ch) pc rest in
  kid_ok (clientq k !! clientId (ch_req ch)) c ch -> (forall l, flow c ch l -> flow c ch' l) -> kid_moves k ch k ch' c.
Proof.
  intros ch' [Hp Hf] Himp. repeat (split; [done|]). intros Ha. destruct (Hf Ha) as (l & ? & ?). eauto.
Qed.
Lemma kid_reply a k ch m p1 p2 k' ch' c : (clean = true -> works a = true) -> reply qbytes a k ch m p1 p2 = Some (k', ch') ->
  kid_ok (clientq k !! clientId (ch_req ch)) c ch ->
  (forall l, flow c ch l -> flow c (ch_goto p1 ch) (l ++ [m])) ->
  (clean = false -> forall l, flow c ch l -> flow c (ch_goto p2 ch) l) -> kid_moves k ch k' ch' c.
Proof.
  intros Hc H [Hp Hf] H1 H2. apply reply_cases in H as [(l & Hl & -> & ->)|(Hfail & -> & ->)].
  - split; [done|]. split; [done|]. cbn. split; [|split; [|split; [done|]]].
    + intros i Hi. by rewrite lookup_insert_ne.
    + by rewrite lookup_insert_eq.
    + intros Ha. rewrite lookup_insert_eq. destruct (Hf Ha) as (l0 & ? & ?). simplify_eq. eauto.
  - repeat (split; [done|]). intros Ha. destruct (Hf Ha) as (l & Hl & Hfl). destruct Hfail as [Hn|Hw]; [congruence|].
    exists l. split; [done|]. apply H2; [|done]. destruct clean; [|done]. by rewrite Hc in Hw.
Qed.

Lemma kid_step a k ch k' ch' c : (clean = true -> works a = true) -> serveRequest qbytes files a k ch = Some (k', ch') ->
  (c_pc c = KFirst -> blank c) -> kid_ok (clientq k !! clientId (ch_req ch)) c ch -> kid_moves k ch k' ch' c.
Proof.
  intros Hc H Hb Hk. pose proof Hk as [Hp _]. destruct ch as [r pc rest]. unfold serveRequest in H. cbn [ch_pc ch_req ch_rest] in *. destruct pc as [| | |d| |st].
  - rewrite Hp in H. assert (Hdo : files (c_path c) = None \/ clean = false -> kid_moves k (Child r ChOpen rest) k (Child r ChFailure rest) c).
    { intros Hn. apply (kid_local k (Child r ChOpen rest)); [done|]. intros l [-> ?]. split_and!; try done. intros Hcl. destruct Hn; congruence. }
    destruct (files (c_path c)) as [content|] eqn:Ef; [|injection H as <- <-; apply Hdo; auto].
    destruct a as [| |n]; injection H as <- <-; [apply Hdo; right; destruct clean; [by specialize (Hc eq_refl)|done].. |].
    apply (kid_local k (Child r ChOpen rest)); [done|]. intros l [-> HF]. destruct (Hb HF) as (Ht & Hm & _). exists []. split; [done|].
    exists content. rewrite Ht, Hm. split_and!; cbn; try done; lia.
  - eapply (kid_reply a); [done..| |].
    + intros l (-> & HF & Hn). right. split; [done|]. left. auto.
    + intros Hcl l (-> & HF & Hn). right. auto.
  - destruct a as [| |n].
    1, 2: injection H as <- <-; apply (kid_local k (Child r ChRead rest)); [done|]; intros l (ds & -> & Hs); exists ds, (Z.of_nat (length rest)); split_and!; try done; intros Hcl; by specialize (Hc Hcl).
    destruct (piece_facts n rest) as (Hle & H0 & Hpc). set (m := piece_size n rest) in *. injection H as <- <-. destruct (Nat.eqb_spec m 0) as [Hm|Hm].
    + rewrite (H0 Hm). apply (kid_local k (Child r ChRead [])); [by rewrite (H0 Hm) in Hk|]. intros l (ds & -> & Hs). exists ds, 0. auto.
    + apply (kid_local k (Child r ChRead rest)); [done|]. intros l (ds & -> & Hs). split; [auto|]. exists ds. split; [done|].
      cbn [ch_rest] in *. rewrite <- Nat2Z.inj_add, <- length_app, take_drop. done.
  - eapply (kid_reply a); [done..| |].
    + intros l (Hd & ds & -> & Hs). exists (ds ++ [d]). split; [by rewrite data_app|]. apply stream_send; [done|lia|done].
    + intros Hcl l (Hd & ds & -> & Hs). eexists ds, _. split; [done|]. split; [exact Hs|congruence].
  - eapply (kid_reply a); [done..| |].
    + intros l (ds & lost & -> & Hs). left. exists ds, lost. auto.
    + intros Hcl l (ds & lost & -> & Hs). left. exists ds, lost. auto.
  - done.
Qed.

(** ** The steps of a client *)

(** The first message in the queue. *)
Lemma flow_message c ch m q : flow c ch (m :: q) ->
  (exists d ds lost, m = ResponseMsg RESP_MT_DATA d /\ stream c (d :: ds) lost /\ forall c', stream c' ds lost -> flow c' ch q) \/
  (m = msg_end /\ exists lost, stream c [] lost /\ (clean = true -> lost = 0)) \/
  (m = msg_failure /\ c_pc c = KFirst /\ (clean = true -> files (c_path c) = None)).
Proof.
  unfold flow. destruct (ch_pc ch) as [| | |d0| |st].
  - by intros [? _].
  - by intros [? _].
  - intros (ds & Hq & Hs). destruct ds as [|d ds]; [done|]. injection Hq as -> ->. left. eexists d, ds, _. split_and!; eauto.
  - intros (Hd & ds & Hq & Hs). destruct ds as [|d ds]; [done|]. injection Hq as -> ->. left. eexists d, ds, _. split_and!; eauto.
  - intros (ds & lost & Hq & Hs & Hc). destruct ds as [|d ds]; [done|]. injection Hq as -> ->. left. exists d, ds, lost. split_and!; eauto 10.
  - intros [(ds & lost & Hq & Hs & Hc)|(HF & [[Hq Hn]|[_ Hq]])]; [|by injection Hq as -> ->; right; right|done].
    destruct ds as [|d ds]; [destruct Hq as [Hq|[? Hq]]; [|done]; injection Hq as -> ->; right; left; eauto|].
    left. exists d, ds, lost. destruct Hq as [Hq|[? Hq]]; injection Hq as -> ->; split_and!; try done; intros c' Hs'; left; exists ds, lost; auto.
Qed.

Lemma stream_count c d ds lost pc out : stream c (d :: ds) lost -> stream (Client pc (c_argv c) (c_tot c + Z.of_nat (length d)) (c_msgs c + 1) out) ds lost.
Proof.
  intros (content & H1 & H2 & H3 & H4 & H5). apply Forall_cons in H2 as [Hd H2]. unfold piece, RESP_MSG_SIZE in *. cbn in H4.
  exists content. cbn. unfold RESP_MSG_SIZE. split_and!; try done; unfold total in *; lia.
Qed.
Lemma stream_result c lost : stream c [] lost -> (clean = true -> lost = 0) -> c_out c = [] -> bad_args (c_argv c) = false ->
  result (c_exit (received_line (c_tot c) (c_msgs c + 1)) EXIT_SUCCESS (Client (c_pc c) (c_argv c) (c_tot c) (c_msgs c + 1) (c_out c))) EXIT_SUCCESS.
Proof.
  intros (content & H1 & _ & H3 & H4 & H5) Hc Ho Hb. cbn in H4. split; [|done]. intros _. split; [done|]. exists content. cbn. rewrite Ho. split_and!; try done; try lia.
  intros Hcl. specialize (Hc Hcl). lia.
Qed.

(** What a client does, seen by who works for it; no request is sent. *)
Definition client_moves (own : Prop) (i : nat) (k : ipc) (c : client) (k' : ipc) (c' : client) : Prop :=
  serverq k' = serverq k /\ (forall j, j <> i -> clientq k' !! j = clientq k !! j) /\ client_ok (clientq k' !! i) own c' /\
  (own -> forall ch, kid_ok (clientq k !! i) c ch -> kid_ok (clientq k' !! i) c' ch) /\
  (own -> forall r, req_ok (clientq k !! i) c r -> req_ok (clientq k' !! i) c' r).

Lemma client_ends own i k c k' c' : serverq k' = serverq k -> (forall j, j <> i -> clientq k' !! j = clientq k !! j) ->
  client_ok (clientq k' !! i) own c' -> c_argv c' = c_argv c -> active (c_pc c') = false -> client_moves own i k c k' c'.
Proof.
  intros H1 H2 H3 Hp Ha. assert (Hpath : c_path c' = c_path c) by (unfold c_path; by rewrite Hp).
  split_and!; try done; intros _ x [Hx _]; (split; [by rewrite Hpath|]); by rewrite Ha.
Qed.
Lemma client_early own i k c k' c' : ~ own -> serverq k' = serverq k -> (forall j, j <> i -> clientq k' !! j = clientq k !! j) ->
  client_ok (clientq k' !! i) own c' -> client_moves own i k c k' c'.
Proof. intros Hn H1 H2 H3. by split_and!. Qed.

Lemma failure_result c : calm = false -> result c EXIT_FAILURE.
Proof. intros H. split; [done|]. intros _. split; [done|]. congruence. Qed.

(** A message arrives: [c1] is the client that has counted it. *)
Lemma client_receives own i k c m q :
  clientq k !! i = Some (m :: q) -> client_ok (clientq k !! i) own c -> active (c_pc c) = true -> (calm = true -> clean = true) ->
  (own -> (exists r, req_ok (clientq k !! i) c r) \/ exists ch, kid_ok (clientq k !! i) c ch) ->
  (c_pc c = KMore -> mtype m <> RESP_MT_FAILURE /\ exists ds lost, stream c ds lost) /\ client_moves own i k c (set_clientq (insert i q) k)
    match mtype m with
    | RESP_MT_FAILURE => c_exit (cstr (mtext m) ++ [NEWLINE]) EXIT_FAILURE c
    | _ => got m (Client (c_pc c) (c_argv c) (c_tot c + resp_size m) (c_msgs c + 1) (c_out c))
    end.
Proof.
  intros Hq Hok Ha Hcc Hw. rewrite Hq in *. assert (Hown : own /\ c_out c = [] /\ bad_args (c_argv c) = false).
  { unfold client_ok, blank in Hok. destruct (c_pc c); try done; [destruct Hok as [[[? _]|[_ ?]] [(_ & _ & ?) ?]]; done|naive_solver]. }
  destruct Hown as (Hown & Hout & Hba). assert (Hkid : exists ch, kid_ok (Some (m :: q)) c ch).
  { destruct (Hw Hown) as [(r & _ & Hr)|?]; [|done]. by destruct (Hr Ha). }
  destruct Hkid as (ch & _ & Hf). destruct (Hf Ha) as (l & [= <-] & Hfl).
  assert (Hs : forall j, j <> i -> clientq (set_clientq (insert i q) k) !! j = clientq k !! j) by (intros j Hj; cbn; by rewrite lookup_insert_ne).
  destruct (flow_message _ _ _ _ Hfl) as [(d & ds & lost & -> & Hst & _)|[(-> & lost & Hst & Hl)|(-> & HF & Hn)]]; (split; [intros E; split; [cbn; congruence|]; try congruence; eauto|]); cbn [mtype mtext msg_end msg_failure].
  - split; [done|]. split; [done|]. cbn [set_clientq clientq]. rewrite lookup_insert_eq, Hq. split; [by split_and!|]. split; intros _.
    + intros ch' [Hp Hf']. split; [done|]. intros _. exists q. split; [done|]. destruct (Hf' Ha) as (l & [= <-] & Hfl').
      destruct (flow_message _ _ _ _ Hfl') as [(d' & ds' & lost' & Hd & Hst' & Hgo)|[[? _]|[? _]]]; [|done..]. injection Hd as <-. apply Hgo, (stream_count c d ds' lost'). done.
    + intros r [_ Hr]. by destruct (Hr Ha).
  - change (resp_size _) with 0. rewrite Z.add_0_r. apply client_ends; try done. cbn [set_clientq clientq]. rewrite lookup_insert_eq.
    split; [done|]. by apply (stream_result c lost).
  - apply client_ends; try done. cbn [set_clientq clientq]. rewrite lookup_insert_eq. cbn -[NEWLINE]. split; [done|]. split; [done|].
    intros _. split; [done|]. intros Hcalm. right. split; [done|]. split; [auto|]. cbn. by rewrite Hout.
Qed.

Lemma path_fits c : bad_args (c_argv c) = false -> take (Z.to_nat (PATH_MAX - 1)) (c_path c) = c_path c.
Proof.
  unfold c_path, bad_args. destruct (c_argv c) as [|p [|]]; [done| |done]. cbn [head default]. intros H. apply orb_false_iff in H as [_ H]. apply Z.ltb_ge in H.
  apply take_ge. unfold PATH_MAX in *. cbn. lia.
Qed.
Lemma not_calm a (k : ipc) (X : Prop) : (calm = true -> works a = true /\ is_Some (serverq k)) -> works a = false \/ serverq k = None -> calm = false.
Proof. intros H Hn. destruct calm; [|done]. destruct (H eq_refl) as [? [? ?]]. destruct Hn; congruence. Qed.
Lemma msgrcv_cases {A} a (q : option (list A)) r : msgrcv a q = r ->
  match r with RcvWaits => True | RcvIntr | RcvError => works a = false \/ q = None | Received m l => q = Some (m :: l) end.
Proof. intros <-. unfold msgrcv. destruct q as [[|]|], a; cbn; auto. Qed.

Definition sends (i : nat) (k : ipc) (c : client) (k' : ipc) (c' : client) : Prop :=
  c_pc c = KSend /\ c' = c_goto KFirst c /\ exists l, serverq k = Some l /\ k' = set_serverq (Some (l ++ [RequestMsg i (c_path c)])) k.

Lemma client_step_ok own a i k c k' c' : client_step qbytes a i k c = Some (k', c') ->
  (calm = true -> works a = true /\ is_Some (serverq k)) -> (calm = true -> clean = true) -> client_ok (clientq k !! i) own c ->
  (own -> (exists r, req_ok (clientq k !! i) c r) \/ exists ch, kid_ok (clientq k !! i) c ch) ->
  client_moves own i k c k' c' \/ sends i k c k' c'.
Proof.
  intros H Hcalm Hcc Hok Hw. pose proof (fun x => not_calm a k True Hcalm x) as Hnc.
  assert (Hends : forall c1, c_argv c1 = c_argv c -> active (c_pc c1) = false -> client_ok (clientq k !! i) own c1 -> client_moves own i k c k c1) by (intros; by apply client_ends).
  unfold client_step in H. pose proof Hok as Hok'. unfold client_ok in Hok'. destruct (c_pc c) as [| | | | | | |st|st|] eqn:Epc.
  - left. injection H as <- <-. apply Hends; [done|by destruct (bad_args _)|]. destruct Hok' as (Hq & Hn & Hb). unfold client_ok. cbn. destruct (bad_args (c_argv c)) eqn:Eb; [|by split_and!].
    split; [done|]. intros _. split; [done|]. intros _. left. by destruct Hb as (_ & _ & ?).
  - left. destruct Hok' as (Hq & Hn & Hb & Hba). destruct (serverq k) as [l|] eqn:El; [|injection H as <- <-; apply Hends; try done; by apply failure_result, Hnc; right].
    destruct a; injection H as <- <-; apply Hends; try done; by apply failure_result, Hnc; left.
  - left. destruct Hok' as (Hq & Hn & Hb & Hba). destruct (works a) eqn:Ea; injection H as <- <-; [|apply Hends; try done; by apply failure_result, Hnc; left].
    apply client_early; try done; cbn; [intros j Hj; by rewrite lookup_insert_ne|]. by rewrite lookup_insert_eq.
  - left. destruct (works a) eqn:Ea; injection H as <- <-; apply Hends; try done. by apply failure_result, Hnc; left.
  - destruct Hok' as (Hq & Hn & Hb & Hba). unfold msgsnd in H. destruct (serverq k) as [l|] eqn:El.
    + destruct (works a) eqn:Ea; cbn in H; [|left; injection H as <- <-; apply Hends; try done; split; [by rewrite Hq|]; by apply failure_result, Hnc; left].
      destruct (_ && _); [|done]. right. injection H as <- <-. split; [done|]. split; [done|]. exists l. split; [done|]. rewrite path_fits; done.
    + left. injection H as <- <-. apply Hends; try done. split; [by rewrite Hq|]. by apply failure_result, Hnc; right.
  - left. destruct (msgrcv a (clientq k !! i)) as [| | |m q] eqn:Er; apply msgrcv_cases in Er; [done| | |].
    1, 2: injection H as <- <-; apply Hends; [done..|]; unfold client_ok; cbn.
    1, 2: assert (Hs : is_Some (clientq k !! i)) by (destruct Hok' as [[[_ ?]|[_ ->]] _]; done); split; [done|]; apply failure_result, Hnc; left.
    1, 2: destruct Er as [?|Er]; [done|]; rewrite Er in Hs; by destruct Hs.
    destruct Hok' as [_ [(Ht & Hm & _) _]]. injection H as <- <-. pose proof (client_receives own i k c m q Er Hok) as Hcr. rewrite Epc, Ht, Hm in Hcr. by apply Hcr.
  - left. destruct (msgrcv a (clientq k !! i)) as [| | |m q] eqn:Er; apply msgrcv_cases in Er; [done| | |].
    1, 2: injection H as <- <-; apply Hends; [done..|]; unfold client_ok; cbn.
    1, 2: destruct Hok' as (_ & Hs & _); split; [done|]; apply failure_result, Hnc; left.
    1, 2: destruct Er as [?|Er]; [done|]; rewrite Er in Hs; by destruct Hs.
    injection H as <- <-. destruct (client_receives own i k c m q Er Hok) as [Hnf Hcr]; [by rewrite Epc|done..|].
    destruct (Hnf Epc) as [Hnm (ds & lost & content & Hf & Hp & Hst)]. rewrite Epc in Hcr. destruct (Z.leb_spec INT_MAX (c_msgs c)).
    + assert (0 <= total ds) by (clear; unfold total; induction ds; cbn; lia).
      apply client_ends; try done; [intros j Hj; cbn; by rewrite lookup_insert_ne|]. exists content. split; [done|lia].
    + by destruct (mtype m).
  - left. injection H as <- <-. destruct Hok' as [[l Hl] Hr]. unfold removeQueue. rewrite Hl. destruct a as [| |n]; cbn [fst snd].
    1, 2: apply Hends; [done..|]; by apply failure_result, Hnc; left.
    apply client_ends; try done. intros j Hj. cbn. by rewrite lookup_delete_ne.
  - done.
  - done.
Qed.

(** ** The steps of the system *)

Lemma owners_spec s i : i ∈ owners s <-> (exists r, r ∈ reqs s /\ clientId r = i) \/ (exists ch, ch ∈ s_kids s /\ clientId (ch_req ch) = i).
Proof. unfold owners. rewrite elem_of_app, !list_elem_of_fmap. naive_solver. Qed.
Lemma workers s i c : sys_inv s -> s_clients s !! i = Some c -> i ∈ owners s ->
  (exists r, req_ok (q_of s i) c r) \/ exists ch, kid_ok (q_of s i) c ch.
Proof.
  intros I Hc Ho. apply owners_spec in Ho as [(r & Hr & <-)|(ch & Hch & <-)].
  - destruct (si_req s I r Hr) as (c' & ? & ?). simplify_eq. eauto.
  - destruct (si_kid s I ch Hch) as (c' & ? & ?). simplify_eq. eauto.
Qed.
Lemma client_ok_iff q (P Q : Prop) c : (P <-> Q) -> client_ok q P c -> client_ok q Q c.
Proof. unfold client_ok. destruct (c_pc c); tauto. Qed.

(** The server takes requests, gives birth to children, or dies: nothing of the clients
    changes but who works for them. *)
Lemma server_moves s k p kids : sys_inv s -> clientq k = clientq (s_ipc s) ->
  let s' := Sys k p kids (s_clients s) in
  owners s' ≡ₚ owners s \/ calm = false /\ owners s' `sublist_of` owners s ->
  (calm = true -> is_up s') -> (forall r, r ∈ reqs s' -> r ∈ reqs s) ->
  (forall ch, ch ∈ kids -> ch ∈ s_kids s \/ ch_pc ch = ChOpen /\ ch_req ch ∈ reqs s) ->
  (forall ch, ch ∈ s_kids s -> ch ∈ kids) -> sys_inv s'.
Proof.
  intros I Hk s' Ho Hup Hr Hkid Hkid'. assert (Hq : forall i, q_of s' i = q_of s i) by (intros i; unfold q_of; cbn; by rewrite Hk). split; [| done | | |].
  - destruct Ho as [Ho|[_ Ho]]; [rewrite Ho|eapply sublist_NoDup; [|exact Ho]]; apply (si_nodup s I).
  - intros i c Hc. change (s_clients s !! i = Some c) in Hc. pose proof (si_client s I i c Hc) as Hok. rewrite Hq. destruct Ho as [Ho|[Hn Ho]]; [eapply client_ok_iff, Hok; by rewrite Ho|].
    assert (Hsub : i ∈ owners s' -> i ∈ owners s) by (intros Hi; eapply sublist_in; eauto).
    pose proof (workers s i c I Hc) as Hw. unfold client_ok in *. destruct (c_pc c) eqn:Epc; try tauto.
    + destruct Hok as [[[Hi Hs]|[? Hs]] Hb]; (split; [|done]); [|by right]. destruct (decide (i ∈ owners s')) as [|Hni]; [by left|]. right. split; [done|].
      apply owners_spec in Hi as [(r & Hin & <-)|(ch & Hin & <-)].
      * destruct (si_req s I r Hin) as (c' & Hc' & _ & Hx). assert (c' = c) as -> by congruence. rewrite Epc in Hx. by destruct (Hx eq_refl).
      * exfalso. apply Hni, owners_spec. right. eauto.
    + destruct Hok as (Hi & Hs & Hb). split; [|done]. apply owners_spec in Hi as [(r & Hin & <-)|(ch & Hin & <-)].
      * destruct (si_req s I r Hin) as (c' & Hc' & _ & Hx). assert (c' = c) as -> by congruence. rewrite Epc in Hx. by destruct (Hx eq_refl).
      * apply owners_spec. right. eauto.
  - intros r Hin. destruct (si_req s I r (Hr r Hin)) as (c & Hc & Hx). exists c. by rewrite Hq.
  - intros ch Hin. destruct (Hkid ch Hin) as [Hin'|[Hpc Hin']].
    + destruct (si_kid s I ch Hin') as (c & Hc & Hx). exists c. by rewrite Hq.
    + destruct (si_req s I _ Hin') as (c & Hc & Hp & Hx). exists c. rewrite Hq. split; [done|]. split; [done|]. intros Ha. destruct (Hx Ha) as [HF Hs]. exists []. split; [done|]. unfold flow. by rewrite Hpc.
Qed.

Lemma server_step_inv a s k p born : sys_inv s -> server_step a (s_ipc s) (s_parent s) = Some (k, p, born) -> (calm = true -> works a = true) ->
  sys_inv (Sys k p (s_kids s ++ option_list born) (s_clients s)).
Proof.
  intros I H Hca. pose proof (si_up s I) as Hup. destruct s as [[sq cq] p0 kids cls]. unfold is_up in Hup. cbn [s_ipc s_parent s_kids s_clients serverq] in *.
  assert (Hnc : p0 = PCreate \/ p0 = PSigaction \/ p0 = PRemove -> calm = false) by (destruct calm; [|done]; destruct (Hup eq_refl) as [_ ?]; intros [->|[->| ->]]; done).
  assert (Hwk : works a = false -> calm = false) by (destruct calm; [|done]; by rewrite Hca).
  (* Requests may be lost only when something fails. *)
  assert (Hlose : forall sq' p', calm = false -> reqs (Sys (Ipc sq' cq) p' kids cls) `sublist_of` reqs (Sys (Ipc sq cq) p0 kids cls) -> sys_inv (Sys (Ipc sq' cq) p' (kids ++ []) cls)).
  { intros sq' p' Hn Hsub. rewrite app_nil_r. apply (server_moves (Sys (Ipc sq cq) p0 kids cls)); try done.
    - right. split; [done|]. unfold owners. apply sublist_app; [|done]. by apply fmap_sublist.
    - congruence.
    - intros r. by apply sublist_in.
    - auto. }
  destruct p0 as [| | |req| |st]; cbn [server_step serverq] in H.
  - assert (Hn : calm = false) by auto. destruct sq as [l|], a; injection H as <- <- <-; by apply Hlose.
  - assert (Hn : calm = false) by auto. injection H as <- <- <-. apply Hlose; [done|]. by destruct (works a).
  - destruct (msgrcv a sq) as [| | |r q] eqn:Er; [done| | |]; injection H as <- <- <-; apply msgrcv_cases in Er.
    + rewrite app_nil_r. done.
    + apply Hlose; [|done]. destruct Er as [?| ->]; [auto|]. destruct calm; [|done]. destruct (Hup eq_refl) as [[? ?] _]. done.
    + rewrite app_nil_r. subst sq. apply (server_moves (Sys (Ipc (Some (r :: q)) cq) PReceive kids cls)); try done; auto.
  - destruct (works a) eqn:Ea; injection H as <- <- <-.
    + apply (server_moves (Sys (Ipc sq cq) (PFork req) kids cls)); try done.
      * left. unfold owners, reqs. cbn. rewrite map_app. cbn. set (x := map _ kids). solve_Permutation.
      * intros r Hr. unfold reqs in *. cbn in *. set_solver.
      * intros ch [?|?]%elem_of_app; [by left|]. right. cbn in *. unfold reqs. cbn. set_solver.
      * intros ch ?. apply elem_of_app. by left.
    + apply Hlose; [auto|]. unfold reqs. cbn. by apply sublist_cons.
  - assert (Hn : calm = false) by auto. destruct sq as [l|], a; injection H as <- <- <-; apply Hlose; try done. unfold reqs. cbn. apply sublist_nil_l.
  - done.
Qed.

(** No two work for the same client. *)
Lemma one_worker s r ch : sys_inv s -> r ∈ reqs s -> ch ∈ s_kids s -> clientId r <> clientId (ch_req ch).
Proof.
  intros I Hr Hch E. pose proof (si_nodup s I) as Hnd. unfold owners in Hnd. apply NoDup_app in Hnd as (_ & Hnd & _).
  apply (Hnd (clientId r)); [by apply list_elem_of_fmap_2|]. rewrite E. apply list_elem_of_fmap. eauto.
Qed.
Lemma one_child s j1 j2 ch1 ch2 : sys_inv s -> s_kids s !! j1 = Some ch1 -> s_kids s !! j2 = Some ch2 -> j1 <> j2 -> clientId (ch_req ch1) <> clientId (ch_req ch2).
Proof.
  intros I H1 H2 Hj E. pose proof (si_nodup s I) as Hnd. unfold owners in Hnd. apply NoDup_app in Hnd as (_ & _ & Hnd).
  apply Hj, (NoDup_lookup _ j1 j2 (clientId (ch_req ch1)) Hnd); rewrite list_lookup_fmap; [by rewrite H1|rewrite H2; cbn; congruence].
Qed.

Lemma child_step_inv a s j ch k ch' : sys_inv s -> s_kids s !! j = Some ch -> serveRequest qbytes files a (s_ipc s) ch = Some (k, ch') ->
  (clean = true -> works a = true) -> sys_inv (Sys k (s_parent s) (<[j := ch']> (s_kids s)) (s_clients s)).
Proof.
  intros I Hj Hs Hc. assert (Hin : ch ∈ s_kids s) by (eapply list_elem_of_lookup_2; eauto).
  destruct (si_kid s I ch Hin) as (c & Hcl & Hk). pose proof (si_client s I _ c Hcl) as Hok. set (id := clientId (ch_req ch)) in *.
  assert (Hown : id ∈ owners s) by (apply owners_spec; right; eauto).
  assert (Hb : c_pc c = KFirst -> blank c) by (intros E; unfold client_ok in Hok; rewrite E in Hok; tauto).
  destruct (kid_step a (s_ipc s) ch k ch' c Hc Hs Hb Hk) as (Hr & Hsq & Hq & Hsome & Hk').
  set (s' := Sys k (s_parent s) (<[j := ch']> (s_kids s)) (s_clients s)).
  assert (Hreqs : reqs s' = reqs s) by (unfold reqs; cbn; by rewrite Hsq).
  assert (Howns : owners s' = owners s).
  { unfold owners. rewrite Hreqs. f_equal. cbn. change (map ?f) with (fmap (M := list) f). rewrite list_fmap_insert, list_insert_id; [done|]. by rewrite list_lookup_fmap, Hj, Hr. }
  split.
  - rewrite Howns. apply (si_nodup s I).
  - intros Hca. destruct (si_up s I Hca) as [? ?]. split; [by cbn; rewrite Hsq|done].
  - intros i c0 Hc0. rewrite Howns. change (s_clients s !! i = Some c0) in Hc0. destruct (decide (i = id)) as [->|Hi]; [|unfold q_of; cbn; rewrite (Hq i Hi); by apply (si_client s I)].
    assert (c0 = c) as -> by congruence. unfold client_ok, q_of in *. cbn. destruct (c_pc c); try tauto. destruct Hok as [[[? ?]|[? E]] ?]; (split; [|done]); left; (split; [done|]); apply Hsome; [done|eexists; exact E].
  - intros r Hin'. rewrite Hreqs in Hin'. destruct (si_req s I r Hin') as (c0 & ? & ?). exists c0. split; [done|]. unfold q_of in *. cbn. by rewrite Hq by (by apply (one_worker s)).
  - intros ch0 Hin0. apply list_elem_of_lookup in Hin0 as [j0 Hj0]. cbn in Hj0. destruct (decide (j0 = j)) as [->|Hne].
    + rewrite list_lookup_insert_eq in Hj0 by (by eapply lookup_lt_Some). injection Hj0 as <-. exists c. rewrite Hr. done.
    + rewrite list_lookup_insert_ne in Hj0 by done. destruct (si_kid s I ch0) as (c0 & ? & ?); [by eapply list_elem_of_lookup_2|]. exists c0. split; [done|].
      unfold q_of in *. cbn. by rewrite Hq by (by apply (one_child s j0 j)).
Qed.

Lemma client_step_inv a s i c k c' : sys_inv s -> s_clients s !! i = Some c -> client_step qbytes a i (s_ipc s) c = Some (k, c') ->
  (calm = true -> works a = true) -> (calm = true -> clean = true) -> sys_inv (Sys k (s_parent s) (s_kids s) (<[i := c']> (s_clients s))).
Proof.
  intros I Hi Hs Hca Hcc. pose proof (si_client s I i c Hi) as Hok. set (s' := Sys k (s_parent s) (s_kids s) (<[i := c']> (s_clients s))).
  assert (Hi' : s_clients s' !! i = Some c') by (apply list_lookup_insert_eq; by eapply lookup_lt_Some).
  assert (Hne : forall j, j <> i -> s_clients s' !! j = s_clients s !! j) by (intros; by apply list_lookup_insert_ne).
  assert (Hup : calm = true -> works a = true /\ is_Some (serverq (s_ipc s))) by (intros Hc; destruct (si_up s I Hc); auto).
  destruct (client_step_ok _ a i _ c k c' Hs Hup Hcc Hok (workers s i c I Hi)) as [(Hsq & Hq & Hok' & Hkid & Hreq)|(Hpc & -> & l & Hl & ->)].
  - assert (Hreqs : reqs s' = reqs s) by (unfold reqs; cbn; by rewrite Hsq). assert (Howns : owners s' = owners s) by (unfold owners; by rewrite Hreqs).
    split.
    + rewrite Howns. apply (si_nodup s I).
    + intros Hc. destruct (si_up s I Hc) as [? ?]. split; [by cbn; rewrite Hsq|done].
    + intros j c0 Hj. rewrite Howns. destruct (decide (j = i)) as [->|Hj']; [rewrite Hi' in Hj; by injection Hj as <-|]. rewrite Hne in Hj by done. unfold q_of. cbn. rewrite Hq by done. by apply (si_client s I).
    + intros r Hin. rewrite Hreqs in Hin. destruct (si_req s I r Hin) as (c0 & Hc0 & Hr0). destruct (decide (clientId r = i)) as [E|E].
      * subst i. exists c'. split; [done|]. assert (c0 = c) as -> by congruence. apply Hreq; [apply owners_spec; eauto|done].
      * exists c0. rewrite Hne by done. split; [done|]. unfold q_of. cbn. by rewrite Hq.
    + intros ch Hin. destruct (si_kid s I ch Hin) as (c0 & Hc0 & Hr0). destruct (decide (clientId (ch_req ch) = i)) as [E|E].
      * subst i. exists c'. split; [done|]. assert (c0 = c) as -> by congruence. apply Hkid; [apply owners_spec; eauto|done].
      * exists c0. rewrite Hne by done. split; [done|]. unfold q_of. cbn. by rewrite Hq.
  - unfold client_ok in Hok. rewrite Hpc in Hok. destruct Hok as (Hq & Hno & Hb & Hba).
    assert (Hreqs : reqs s' = reqs s ++ [RequestMsg i (c_path c)]) by (unfold reqs; cbn; rewrite Hl; cbn; by rewrite app_assoc).
    assert (Howns : owners s' ≡ₚ i :: owners s).
    { unfold owners. rewrite Hreqs, map_app. cbn. set (x := map _ (s_kids s)). solve_Permutation. }
    split.
    + rewrite Howns. constructor; [done|]. apply (si_nodup s I).
    + intros Hc. destruct (si_up s I Hc) as [? ?]. by split.
    + intros j c0 Hj. destruct (decide (j = i)) as [->|Hj'].
      * rewrite Hi' in Hj. injection Hj as <-. split; [|done]. left. rewrite Howns. unfold q_of in *. cbn. rewrite Hq. split; [set_solver|done].
      * rewrite Hne in Hj by done. eapply client_ok_iff, (si_client s I j c0 Hj). rewrite Howns. set_solver.
    + intros r Hin. rewrite Hreqs in Hin. apply elem_of_app in Hin as [Hin|Hin].
      * destruct (si_req s I r Hin) as (c0 & Hc0 & Hr0). exists c0. rewrite Hne; [done|]. intros <-. apply Hno, owners_spec. eauto.
      * apply list_elem_of_singleton in Hin as ->. exists (c_goto KFirst c). done.
    + intros ch Hin. destruct (si_kid s I ch Hin) as (c0 & Hc0 & Hr0). exists c0. rewrite Hne; [done|]. intros <-. apply Hno, owners_spec. eauto.
Qed.
End Invariant.
