(* ===== verification/SvmsgTheorems.v ===== *)
(** What clients of the file server of [src/tlpi-dist/svmsg] are told, and that all of them
    are served. *)
From S2P Require Import Prelude CStr SvmsgFile SvmsgInv.

(** No call fails; no call of a child fails. *)
Definition all_work (l : list (actor * outcome)) : bool := forallb (fun e => works e.2) l.
Definition children_work (l : list (actor * outcome)) : bool := forallb (fun e => match e.1 with TheChild _ => works e.2 | _ => true end) l.
Lemma all_children l : all_work l = true -> children_work l = true.
Proof. unfold all_work, children_work. rewrite !forallb_forall. intros H x Hx. specialize (H x Hx). by destruct x as [[] a]. Qed.

(** The system when the server has created its queue and waits. *)
Definition sys_up (argvs : list (list (list Z))) : sys :=
  Sys (Ipc (Some []) ∅) PReceive [] (map (fun argv => Client KArgs argv 0 0 []) argvs).

Section Runs.
Context (qbytes : Z) (files : list Z -> option (list Z)).

Lemma sys_step_inv clean calm p a s s' : (calm = true -> clean = true) -> (calm = true -> works a = true) ->
  (clean = true -> match p with TheChild _ => works a = true | _ => True end) ->
  sys_inv files clean calm s -> sys_step qbytes files p a s = Some s' -> sys_inv files clean calm s'.
Proof.
  intros Hcc Hca Hcl I H. destruct p as [|j|i]; cbn in H.
  - destruct (server_step _ _ _) as [[[k p] born]|] eqn:E; [|done]. injection H as <-. by eapply server_step_inv.
  - destruct (s_kids s !! j) as [ch|] eqn:Ej; [|done]. cbn in H. destruct (serveRequest _ _ _ _ _) as [[k ch']|] eqn:E; [|done]. injection H as <-. by eapply child_step_inv.
  - destruct (s_clients s !! i) as [c|] eqn:Ei; [|done]. cbn in H. destruct (client_step _ _ _ _ _) as [[k c']|] eqn:E; [|done]. injection H as <-. by eapply client_step_inv.
Qed.
Lemma sys_run_inv clean calm l s : (calm = true -> clean = true) -> (calm = true -> all_work l = true) -> (clean = true -> children_work l = true) ->
  sys_inv files clean calm s -> sys_inv files clean calm (sys_run qbytes files l s).
Proof.
  intros Hcc. revert s. induction l as [|[p a] l IH]; intros s Hca Hcl I; [done|]. cbn [sys_run all_work children_work forallb fst snd] in *.
  apply IH.
  - intros H. apply Hca in H. cbn in H. by apply andb_true_iff in H as [_ H].
  - intros H. apply Hcl in H. cbn in H. by apply andb_true_iff in H as [_ H].
  - destruct (sys_step _ _ _ _ _) as [s'|] eqn:E; [|done]. cbn. eapply sys_step_inv; [done| | |done|done].
    + intros H. apply Hca in H. cbn in H. by apply andb_true_iff in H as [H _].
    + intros H. apply Hcl in H. cbn in H. apply andb_true_iff in H as [H _]. by destruct p.
Qed.
Lemma start_inv clean calm k p argvs : clientq k = ∅ -> default [] (serverq k) = [] -> in_hand p = [] -> (calm = true -> is_up (Sys k p [] [])) ->
  sys_inv files clean calm (Sys k p [] (map (fun argv => Client KArgs argv 0 0 []) argvs)).
Proof.
  intros Hq Hs Hp Hup. assert (Hr : reqs (Sys k p [] (map (fun argv => Client KArgs argv 0 0 []) argvs)) = []) by (unfold reqs; cbn; by rewrite Hs, Hp).
  split.
  - unfold owners. rewrite Hr. constructor.
  - done.
  - intros i c Hc. apply list_lookup_fmap_Some in Hc as (argv & -> & _). unfold client_ok, owners. rewrite Hr. cbn. unfold q_of. cbn. rewrite Hq. split_and!; try done. set_solver.
  - intros r. rewrite Hr. set_solver.
  - set_solver.
Qed.

(** The arguments stay what they are. *)
Lemma sys_step_argv p a s s' : sys_step qbytes files p a s = Some s' -> map c_argv (s_clients s') = map c_argv (s_clients s).
Proof.
  intros H. destruct p as [|j|i]; cbn in H.
  - destruct (server_step _ _ _) as [[[k p] born]|] eqn:E; [|done]. by injection H as <-.
  - destruct (s_kids s !! j) as [ch|] eqn:Ej; [|done]. cbn in H. destruct (serveRequest _ _ _ _ _) as [[k ch']|] eqn:E; [|done]. by injection H as <-.
  - destruct (s_clients s !! i) as [c|] eqn:Ei; [|done]. cbn in H. destruct (client_step _ _ _ _ _) as [[k c']|] eqn:E; [|done]. injection H as <-. cbn.
    change (map ?f) with (fmap (M := list) f). rewrite list_fmap_insert, list_insert_id; [done|]. rewrite list_lookup_fmap, Ei. cbn. f_equal.
    symmetry. revert E. clear. unfold client_step, got, c_exit, removeQueue. intros H.
    repeat case_match; simplify_eq; done.
Qed.
Lemma sys_run_argv l s : map c_argv (s_clients (sys_run qbytes files l s)) = map c_argv (s_clients s).
Proof.
  revert s. induction l as [|[p a] l IH]; intros s; [done|]. cbn. rewrite IH. destruct (sys_step _ _ _ _ _) as [s'|] eqn:E; [|done]. by eapply sys_step_argv.
Qed.
Lemma run_argv k p l argvs i c : s_clients (sys_run qbytes files l (Sys k p [] (map (fun argv => Client KArgs argv 0 0 []) argvs))) !! i = Some c -> argvs !! i = Some (c_argv c).
Proof.
  intros H. assert (E : map c_argv (s_clients (sys_run qbytes files l (Sys k p [] (map (fun argv => Client KArgs argv 0 0 []) argvs)))) = argvs).
  { rewrite sys_run_argv. cbn. rewrite map_map. apply map_id. }
  pose proof (f_equal (fun l => l !! i) E) as Ei. cbn beta in Ei. rewrite <- Ei. apply list_lookup_fmap_Some. eauto.
Qed.

(** ** Nobody is left waiting *)

Definition stuck (s : sys) : Prop := forall p n, sys_step qbytes files p (Works n) s = None.
Definition finished (pc : client_pc) : bool := match pc with KExited _ | KOverflow => true | _ => false end.

Lemma stuck_server s : stuck s -> is_up s -> reqs s = [] /\ serverq (s_ipc s) = Some [].
Proof.
  intros Hs [[l Hl] Hp]. specialize (Hs TheServer 0%nat). unfold reqs. cbn in Hs. destruct (s_parent s); try done; cbn in Hs; rewrite Hl in *; cbn in *.
  by destruct l.
Qed.
(** A message fits into an empty queue. *)
Lemma msgsnd_empty {A} (size : A -> Z) n m : size m <= qbytes -> 1 <= qbytes -> msgsnd size qbytes (Works n) (Some []) m = Sent [m].
Proof. intros. unfold msgsnd. cbn [works negb]. replace (_ && _) with true; [done|]. symmetry. apply andb_true_iff. split; apply Z.leb_le; cbn; lia. Qed.
Lemma stuck_child s j ch : stuck s -> RESP_MSG_SIZE <= qbytes -> s_kids s !! j = Some ch -> q_of s (clientId (ch_req ch)) = Some [] ->
  (forall d, ch_pc ch = ChSend d -> piece d) -> exists st, ch_pc ch = ChExited st.
Proof.
  intros Hs Hqb Hj Hq Hd. specialize (Hs (TheChild j) 0%nat). cbn in Hs. rewrite Hj in Hs. cbn in Hs. unfold serveRequest, reply, q_of in *. rewrite Hq in Hs. unfold RESP_MSG_SIZE in *.
  destruct (ch_pc ch) as [| | |d| |st] eqn:E; [| | | | |by exists st]; exfalso.
  - by destruct (files _).
  - by rewrite msgsnd_empty in Hs by (replace (resp_size msg_failure) with 14 by (vm_compute; done); lia).
  - done.
  - rewrite msgsnd_empty in Hs; [done| |lia]. specialize (Hd d eq_refl). unfold piece, RESP_MSG_SIZE, resp_size in *. cbn. lia.
  - by rewrite msgsnd_empty in Hs by (try change (resp_size msg_end) with 0; lia).
Qed.
Lemma stuck_finished s i c : sys_inv files true true s -> stuck s -> RESP_MSG_SIZE <= qbytes -> s_clients s !! i = Some c -> finished (c_pc c) = true.
Proof.
  intros I Hs Hqb Hc. destruct (stuck_server s Hs (si_up _ _ _ _ I eq_refl)) as [Hr Hsq]. pose proof (si_client _ _ _ s I i c Hc) as Hok.
  pose proof (Hs (TheClient i) 0%nat) as Hst. cbn in Hst. rewrite Hc in Hst. cbn in Hst. unfold client_ok in Hok.
  assert (Hact : active (c_pc c) = true -> is_Some (q_of s i) -> i ∈ owners s -> exists m q, q_of s i = Some (m :: q)).
  { intros Ha [q Hq] Ho. apply owners_spec in Ho as [(r & Hin & _)|(ch & Hin & Hid)]; [rewrite Hr in Hin; set_solver|]. destruct q as [|m q]; [exfalso|eauto]. subst i.
    destruct (si_kid _ _ _ s I ch Hin) as (c' & Hc' & _ & Hf). assert (c' = c) as -> by congruence. destruct (Hf Ha) as (l & Hl & Hfl). assert (l = []) as -> by congruence.
    apply list_elem_of_lookup in Hin as [j Hj]. destruct (stuck_child s j ch Hs Hqb Hj Hq) as [st Est].
    { intros d E. unfold flow in Hfl. rewrite E in Hfl. tauto. }
    unfold flow in Hfl. rewrite Est in Hfl. destruct Hfl as [(ds & lost & [Hx|[? _]] & _)|(_ & [[? _]|[? _]])]; try done. by destruct ds. }
  unfold client_step in Hst. destruct (c_pc c) as [| | | | | | |st|st|] eqn:Epc; try done.
  - by rewrite Hsq in Hst.
  - rewrite Hsq, msgsnd_empty in Hst; [done|unfold req_size, REQ_MSG_SIZE, PATH_MAX, RESP_MSG_SIZE in *; lia|unfold RESP_MSG_SIZE in *; lia].
  - destruct Hok as [[[Ho Hq]|[? _]] _]; [|done]. destruct (Hact eq_refl Hq Ho) as (m & q & E). unfold q_of in E. by rewrite E in Hst.
  - destruct Hok as (Ho & Hq & _). destruct (Hact eq_refl Hq Ho) as (m & q & E). unfold q_of in E. by rewrite E in Hst.
Qed.

(** ** A measure *)

(** The steps that a request for a file costs its child. *)
Definition path_work (path : list Z) : nat := (3 * length (default [] (files path)))%nat.
Definition ch_work (ch : child) : nat :=
  (match ch_pc ch with
  | ChOpen => 4 + path_work (pathname (ch_req ch))
  | ChFailure | ChEnd => 2
  | ChRead => 3 + 3 * length (ch_rest ch)
  | ChSend _ => 5 + 3 * length (ch_rest ch)
  | ChExited _ => 0
  end)%nat.
Definition req_work (r : requestMsg) : nat := (6 + path_work (pathname r))%nat.
Definition hand_work (p : parent) : nat := match p with PFork r => (5 + path_work (pathname r))%nat | _ => 0%nat end.
Definition c_work (c : client) : nat :=
  (let w := 6 + path_work (take (Z.to_nat (PATH_MAX - 1)) (c_path c)) in
  match c_pc c with
  | KArgs => 8 + w | KServer => 7 + w | KCreate => 6 + w | KAtexit => 5 + w | KSend => 4 + w
  | KFirst | KMore => 3 | KRemove _ => 1 | KExited _ | KOverflow => 0
  end)%nat.
Definition q_work (k : ipc) (i : nat) : nat := length (default [] (clientq k !! i)).
Definition work (s : sys) : nat :=
  (sum_list_with req_work (default [] (serverq (s_ipc s))) + hand_work (s_parent s) + sum_list_with ch_work (s_kids s) +
  sum_list_with c_work (s_clients s) + sum_list_with (q_work (s_ipc s)) (seq 0 (length (s_clients s))))%nat.

Lemma sum_cons {A} (f : A -> nat) x l : sum_list_with f (x :: l) = (f x + sum_list_with f l)%nat.
Proof. done. Qed.
Lemma sum_insert {A} (f : A -> nat) l i x y : l !! i = Some x -> (sum_list_with f (<[i := y]> l) + f x = sum_list_with f l + f y)%nat.
Proof.
  revert i. induction l as [|z l IH]; intros [|i] H; [done..| |].
  - injection H as ->. change (<[0%nat := y]> (x :: l)) with (y :: l). rewrite !sum_cons. lia.
  - change (<[S i := y]> (z :: l)) with (z :: <[i := y]> l). rewrite !sum_cons. specialize (IH i H). lia.
Qed.
Lemma sum_ext {A} (f g : A -> nat) l : (forall x, x ∈ l -> f x = g x) -> sum_list_with f l = sum_list_with g l.
Proof. induction l as [|x l IH]; intros H; [done|]. rewrite !sum_cons, (H x), IH; [done| |]; set_solver. Qed.
Lemma sum_at (f g : nat -> nat) l i : NoDup l -> i ∈ l -> (forall j, j <> i -> f j = g j) -> (sum_list_with f l + g i = sum_list_with g l + f i)%nat.
Proof.
  intros Hnd Hi H. induction Hnd as [|x l Hx Hnd IH]; [set_solver|]. rewrite !sum_cons. destruct (decide (x = i)) as [->|Hne].
  - rewrite (sum_ext f g l); [lia|]. intros y Hy. apply H. by intros ->.
  - rewrite (H x Hne). apply elem_of_cons in Hi as [->|Hi]; [done|]. specialize (IH Hi). lia.
Qed.
(** At most one queue changes. *)
Lemma queues_work k k' n i : (forall j, j <> i -> clientq k' !! j = clientq k !! j) ->
  ((i < n)%nat /\ (sum_list_with (q_work k') (seq 0 n) + q_work k i = sum_list_with (q_work k) (seq 0 n) + q_work k' i)%nat) \/
  ((n <= i)%nat /\ sum_list_with (q_work k') (seq 0 n) = sum_list_with (q_work k) (seq 0 n)).
Proof.
  intros H. assert (Hq : forall j, j <> i -> q_work k' j = q_work k j) by (intros j Hj; unfold q_work; by rewrite H).
  destruct (decide (i < n)%nat) as [Hi|Hi]; [left|right]; (split; [lia|]).
  - apply sum_at; [apply NoDup_seq|apply elem_of_seq; lia|done].
  - apply sum_ext. intros j Hj%elem_of_seq. apply Hq. lia.
Qed.

Lemma child_works n k ch k' ch' : serveRequest qbytes files (Works n) k ch = Some (k', ch') ->
  serverq k' = serverq k /\ (forall j, j <> clientId (ch_req ch) -> clientq k' !! j = clientq k !! j) /\
  (ch_work ch' < ch_work ch)%nat /\ (ch_work ch' + q_work k' (clientId (ch_req ch)) < ch_work ch + q_work k (clientId (ch_req ch)))%nat.
Proof.
  intros H. assert (Hreply : forall m p1 p2, reply qbytes (Works n) k ch m p1 p2 = Some (k', ch') -> (ch_work (ch_goto p1 ch) + 1 < ch_work ch)%nat -> (ch_work (ch_goto p2 ch) < ch_work ch)%nat ->
    serverq k' = serverq k /\ (forall j, j <> clientId (ch_req ch) -> clientq k' !! j = clientq k !! j) /\ (ch_work ch' < ch_work ch)%nat /\ (ch_work ch' + q_work k' (clientId (ch_req ch)) < ch_work ch + q_work k (clientId (ch_req ch)))%nat).
  { intros m p1 p2 Hr H1 H2. apply reply_cases in Hr as [(l & Hl & -> & ->)|(_ & -> & ->)]; [|split_and!; try done; lia].
    split; [done|]. split; [intros j Hj; cbn; by rewrite lookup_insert_ne|]. unfold q_work. cbn [set_clientq clientq]. rewrite lookup_insert_eq, Hl. cbn [default from_option id]. rewrite length_app. cbn [length]. split; lia. }
  unfold serveRequest in H. destruct ch as [r pc rest]. cbn [ch_pc ch_req ch_rest] in *. destruct pc as [| | |d| |st]; [|eapply Hreply; [exact H|cbn; lia..]| |eapply Hreply; [exact H|cbn; lia..]|eapply Hreply; [exact H|cbn; lia..]|done].
  - destruct (files (pathname r)) as [content|] eqn:E; injection H as <- <-; (split; [done|]); (split; [done|]); unfold ch_work, path_work; cbn [ch_pc ch_req ch_rest ch_goto]; rewrite E; cbn; split; lia.
  - destruct (piece_facts n rest) as (Hle & _ & _). set (m := piece_size n rest) in *. clearbody m. injection H as <- <-. split; [done|]. split; [done|]. destruct (Nat.eqb_spec m 0); unfold ch_work; cbn [ch_pc ch_req ch_rest ch_goto]; [split; lia|].
    rewrite length_drop. split; lia.
Qed.

Definition reqs_work (k : ipc) : nat := sum_list_with req_work (default [] (serverq k)).
Lemma client_works n i k c k' c' : client_step qbytes (Works n) i k c = Some (k', c') ->
  (forall j, j <> i -> clientq k' !! j = clientq k !! j) /\
  (reqs_work k' + c_work c' + q_work k' i < reqs_work k + c_work c + q_work k i)%nat.
Proof.
  intros H. assert (Hstay : forall c1, (c_work c1 < c_work c)%nat -> Some (k, c1) = Some (k', c') ->
    (forall j, j <> i -> clientq k' !! j = clientq k !! j) /\ (reqs_work k' + c_work c' + q_work k' i < reqs_work k + c_work c + q_work k i)%nat).
  { intros c1 Hw [= <- <-]. split; [done|lia]. }
  assert (Htake : forall m q c1, clientq k !! i = Some (m :: q) -> (c_work c1 <= c_work c)%nat -> Some (set_clientq (insert i q) k, c1) = Some (k', c') ->
    (forall j, j <> i -> clientq k' !! j = clientq k !! j) /\ (reqs_work k' + c_work c' + q_work k' i < reqs_work k + c_work c + q_work k i)%nat).
  { intros m q c1 Hq Hw [= <- <-]. split; [intros j Hj; cbn; by rewrite lookup_insert_ne|]. change (reqs_work (set_clientq _ k)) with (reqs_work k).
    unfold q_work. cbn [set_clientq clientq]. rewrite lookup_insert_eq, Hq. cbn [default from_option id length]. lia. }
  unfold client_step in H. destruct c as [pc argv tot msgs out]. cbn [c_pc c_argv c_tot c_msgs c_out] in *.
  destruct pc as [| | | | | | |st|st|]; try done.
  - eapply Hstay; [|exact H]. destruct (bad_args argv); unfold c_work, c_path; cbn [c_goto c_pc c_argv]; lia.
  - destruct (serverq k); eapply Hstay; [|exact H| |exact H]; unfold c_work, c_path; cbn [c_goto c_pc c_argv]; lia.
  - cbn [works] in H. injection H as <- <-. split; [intros j Hj; cbn; by rewrite lookup_insert_ne|]. change (reqs_work (set_clientq _ k)) with (reqs_work k).
    unfold q_work. cbn [set_clientq clientq]. rewrite lookup_insert_eq. unfold c_work, c_path. cbn [c_goto c_pc c_argv default from_option id length]. lia.
  - eapply Hstay; [|exact H]. unfold c_work, c_path; cbn [c_goto c_pc c_argv]; lia.
  - unfold msgsnd in H. destruct (serverq k) as [l|] eqn:El; cbn [works negb] in H; [|eapply Hstay; [|exact H]; unfold c_work, c_path; cbn [c_exit c_pc c_argv]; lia].
    destruct (_ && _); [|done]. injection H as <- <-. split; [done|]. unfold q_work, reqs_work. cbn [set_serverq serverq clientq]. rewrite El. cbn [default from_option id]. rewrite sum_list_with_app, sum_cons.
    unfold req_work at 2, c_work. cbn [sum_list_with c_pc c_goto pathname]. change (c_path (Client KFirst _ _ _ _)) with (c_path (Client KSend argv tot msgs out)). cbn. lia.
  - destruct (msgrcv _ _) as [| | |m q] eqn:Er; apply msgrcv_cases in Er; [done| | |].
    1, 2: eapply Hstay; [|exact H]; unfold c_work; cbn [c_exit c_pc c_argv]; lia.
    eapply Htake; [exact Er| |exact H]. unfold got. destruct (mtype m); unfold c_work; cbn [c_exit c_goto c_pc c_argv]; lia.
  - destruct (msgrcv _ _) as [| | |m q] eqn:Er; apply msgrcv_cases in Er; [done| | |].
    1, 2: eapply Hstay; [|exact H]; unfold c_work; cbn [c_exit c_pc c_argv]; lia.
    eapply Htake; [exact Er| |exact H]. destruct (INT_MAX <=? msgs); [|unfold got; destruct (mtype m)]; unfold c_work; cbn [c_exit c_goto c_pc c_argv]; lia.
  - unfold removeQueue in H. destruct (clientq k !! i) as [l|] eqn:El; cbn [fst snd] in H; [|eapply Hstay; [|exact H]; unfold c_work; cbn [c_goto c_pc]; lia].
    injection H as <- <-. split; [intros j Hj; cbn; by rewrite lookup_delete_ne|]. unfold q_work. cbn [set_clientq clientq]. rewrite lookup_delete_eq, El. unfold c_work. cbn [c_goto c_pc default from_option id length].
    change (reqs_work (set_clientq _ k)) with (reqs_work k). lia.
Qed.

Lemma server_works n k p k' p' born : is_Some (serverq k) -> match p with PReceive | PFork _ => True | _ => False end ->
  server_step (Works n) k p = Some (k', p', born) ->
  clientq k' = clientq k /\ (reqs_work k' + hand_work p' + sum_list_with ch_work (option_list born) < reqs_work k + hand_work p)%nat.
Proof.
  intros [l Hl] Hp H. destruct p as [| | |r| |]; try done; cbn [server_step] in H.
  - rewrite Hl in H. destruct l as [|r l]; [done|]. injection H as <- <- <-. split; [done|]. unfold reqs_work. rewrite Hl. cbn [set_serverq serverq default from_option id option_list option_rect]. rewrite sum_cons. unfold req_work at 2, hand_work. cbn. lia.
  - injection H as <- <- <-. split; [done|]. unfold hand_work. cbn [option_list option_rect]. rewrite sum_cons. unfold ch_work at 1. cbn [ch_pc ch_req]. cbn. lia.
Qed.

(** Every step gets closer to the end. *)
Lemma step_works p n s s' : is_up s -> sys_step qbytes files p (Works n) s = Some s' -> (work s' < work s)%nat.
Proof.
  intros [Hsq Hp] H. destruct p as [|j|i]; cbn in H.
  - destruct (server_step _ _ _) as [[[k p] born]|] eqn:E; [|done]. injection H as <-. destruct (server_works n _ _ _ _ _ Hsq Hp E) as [Hq Hw]. unfold work. cbn [s_ipc s_parent s_kids s_clients].
    rewrite sum_list_with_app, (sum_ext (q_work k) (q_work (s_ipc s))) by (intros; unfold q_work; by rewrite Hq). unfold reqs_work in Hw. lia.
  - destruct (s_kids s !! j) as [ch|] eqn:Ej; [|done]. cbn in H. destruct (serveRequest _ _ _ _ _) as [[k ch']|] eqn:E; [|done]. injection H as <-. destruct (child_works n _ _ _ _ E) as (Hs & Hq & Hc & Hw).
    unfold work. cbn [s_ipc s_parent s_kids s_clients]. rewrite Hs. pose proof (sum_insert ch_work _ _ _ ch' Ej) as Hi. destruct (queues_work (s_ipc s) k (length (s_clients s)) _ Hq) as [[_ Hn]|[_ Hn]]; lia.
  - destruct (s_clients s !! i) as [c|] eqn:Ei; [|done]. cbn in H. destruct (client_step _ _ _ _ _) as [[k c']|] eqn:E; [|done]. injection H as <-. destruct (client_works n i _ _ _ _ E) as (Hq & Hw).
    unfold work. cbn [s_ipc s_parent s_kids s_clients]. rewrite length_insert. pose proof (sum_insert c_work _ _ _ c' Ei) as Hi. pose proof (lookup_lt_Some _ _ _ Ei) as Hlt.
    destruct (queues_work (s_ipc s) k (length (s_clients s)) i Hq) as [[_ Hn]|[? _]]; [|lia]. unfold reqs_work in Hw. lia.
Qed.

(** The steps of a schedule that are taken. *)
Fixpoint steps_taken (l : list (actor * outcome)) (s : sys) : nat :=
  match l with
  | [] => 0
  | (p, a) :: l' => match sys_step qbytes files p a s with Some s' => S (steps_taken l' s') | None => steps_taken l' s end
  end%nat.
Lemma steps_work l s : all_work l = true -> sys_inv files true true s -> (steps_taken l s + work (sys_run qbytes files l s) <= work s)%nat.
Proof.
  revert s. induction l as [|[p a] l IH]; intros s Hl I; [cbn; lia|]. cbn in Hl. apply andb_true_iff in Hl as [Ha Hl]. destruct a as [| |n]; try done. cbn [steps_taken sys_run].
  destruct (sys_step _ _ _ _ _) as [s'|] eqn:E; [|by apply IH]. cbn [default from_option id]. assert (I' : sys_inv files true true s') by (eapply sys_step_inv; [done..| |exact I|exact E]; by destruct p).
  specialize (IH s' Hl I'). pose proof (step_works p n s s' (si_up _ _ _ _ I eq_refl) E). lia.
Qed.
Lemma start_work argvs : work (sys_up argvs) = sum_list_with (fun argv => 14 + path_work (take (Z.to_nat (PATH_MAX - 1)) (default [] (head argv))))%nat argvs.
Proof.
  unfold work, sys_up. cbn [s_ipc s_parent s_kids s_clients serverq default from_option id]. rewrite (sum_ext (q_work _) (fun _ => 0%nat)) by done.
  assert (Hz : forall l : list nat, sum_list_with (fun _ => 0%nat) l = 0%nat) by (induction l; [done|by rewrite sum_cons]). rewrite Hz. cbn [hand_work].
  change (sum_list_with req_work []) with 0%nat. change (sum_list_with ch_work []) with 0%nat. rewrite Nat.add_0_r. cbn [Nat.add]. induction argvs as [|argv argvs IH]; [done|].
  cbn [map]. rewrite !sum_cons, IH. f_equal.
Qed.

(** What a client that has exited was told, when nothing has failed. *)
Lemma calm_result c st : result files true true c st ->
  if bad_args (c_argv c) then st = EXIT_FAILURE /\ c_out c = [] else
  match files (c_path c) with
  | None => st = EXIT_FAILURE /\ c_out c = no_such_file
  | Some content => st = EXIT_SUCCESS /\ exists msgs, c_out c = received_line (Z.of_nat (length content)) msgs /\ msgs - 1 <= Z.of_nat (length content) <= RESP_MSG_SIZE * (msgs - 1)
  end.
Proof.
  intros [Hs Hf]. destruct (decide (st = EXIT_SUCCESS)) as [E|E].
  - destruct (Hs E) as (-> & content & -> & Ho & _ & Ht & Hm). rewrite (Ht eq_refl) in *. split; [done|]. exists (c_msgs c). done.
  - destruct (Hf E) as (-> & Hc). destruct (Hc eq_refl) as [(-> & ?)|(-> & -> & ?)]; done.
Qed.
End Runs.

(** C20: Whatever the order in which the server, its children and any number of clients run and
    whatever calls fail or are interrupted, a client that exits with success has printed the
    number of bytes and of messages that it received of the file it named: never
    more bytes than the file has, all of them if no call of a child failed, and between
    one and 8192 bytes in every message but the last. *)
Theorem svmsg_client_told qbytes files argvs l :
  let s := sys_run qbytes files l (sys0 argvs) in
  forall i c, s_clients s !! i = Some c -> c_pc c = KExited EXIT_SUCCESS ->
  argvs !! i = Some (c_argv c) /\ exists content, files (c_path c) = Some content /\
    c_out c = received_line (c_tot c) (c_msgs c) /\ 0 <= c_tot c <= Z.of_nat (length content) /\
    c_msgs c - 1 <= c_tot c <= RESP_MSG_SIZE * (c_msgs c - 1) /\ (children_work l = true -> c_tot c = Z.of_nat (length content)).
Proof.
  intros s i c Hc Hpc. split; [by apply (run_argv _ _ _ _ _ _ _ _ Hc)|].
  assert (I : sys_inv files (children_work l) false s) by (apply sys_run_inv; [done..|]; by apply start_inv).
  pose proof (si_client _ _ _ _ I i c Hc) as Hok. unfold client_ok in Hok. rewrite Hpc in Hok. destruct (proj1 Hok eq_refl) as (_ & content & H). exists content. tauto.
Qed.

(** C21: With the server waiting and no call failing, every client is served: a
    schedule has only so many steps, fourteen for each client and three for each byte of
    the file it wants, and when none of the processes can take a step every client has
    exited, with the complete file if there is one, with the server's message if there is none, and
    at once if its arguments are wrong. Queues must have room for one message. *)
Theorem svmsg_all_served qbytes files argvs l (Hq : RESP_MSG_SIZE <= qbytes) (Hl : all_work l = true)
    (Hf : forall path content, files path = Some content -> Z.of_nat (length content) < INT_MAX) :
  let s := sys_run qbytes files l (sys_up argvs) in
  (steps_taken qbytes files l (sys_up argvs) <= sum_list_with (fun argv => 14 + 3 * length (default [] (files (take (Z.to_nat (PATH_MAX - 1)) (default [] (head argv))))))%nat argvs)%nat /\
  (stuck qbytes files s -> forall i argv, argvs !! i = Some argv -> exists c st, s_clients s !! i = Some c /\ c_pc c = KExited st /\
    if bad_args argv then st = EXIT_FAILURE /\ c_out c = [] else
    match files (default [] (head argv)) with
    | None => st = EXIT_FAILURE /\ c_out c = bytes "Couldn't open" ++ [NEWLINE]
    | Some content => st = EXIT_SUCCESS /\ exists msgs, c_out c = received_line (Z.of_nat (length content)) msgs /\ msgs - 1 <= Z.of_nat (length content) <= RESP_MSG_SIZE * (msgs - 1)
    end).
Proof.
  intros s. assert (I0 : sys_inv files true true (sys_up argvs)) by (by apply start_inv).
  assert (I : sys_inv files true true s) by (apply sys_run_inv; [done|done|intros; by apply all_children|done]). split.
  - pose proof (steps_work qbytes files l _ Hl I0) as H. rewrite start_work in H. unfold path_work in H. lia.
  - intros Hs i argv Hi. assert (Hlen : length (s_clients s) = length argvs).
    { transitivity (length (map c_argv (s_clients s))); [by rewrite length_map|]. unfold s. rewrite sys_run_argv. cbn. by rewrite map_map, map_id. }
    destruct (s_clients s !! i) as [c|] eqn:Ec; [|apply lookup_ge_None in Ec; apply lookup_lt_Some in Hi; lia].
    assert (Ha : c_argv c = argv) by (apply run_argv in Ec; congruence). pose proof (stuck_finished _ _ _ _ _ I Hs Hq Ec) as Hfin. pose proof (si_client _ _ _ _ I i c Ec) as Hok. unfold client_ok in Hok.
    destruct (c_pc c) as [| | | | | | |st0|st|] eqn:Epc; try done.
    + exists c, st. split; [done|]. split; [done|]. subst argv. by apply (calm_result files).
    + destruct Hok as (content & Hc & Hb). specialize (Hf _ _ Hc). lia.
Qed.

(** ** Runs *)

Definition sample_files (path : list Z) : option (list Z) := if bool_decide (path = bytes "f") then Some [1; 2; 3] else None.
Definition sample_argvs : list (list (list Z)) := [[bytes "f"]; [bytes "g"]; []].
Definition sample_round : list (actor * outcome) := map (fun p => (p, Works 2)) [TheServer; TheChild 0; TheChild 1; TheClient 0; TheClient 1; TheClient 2].
Definition sample_schedule : list (actor * outcome) := concat (replicate 20 sample_round).

Lemma svmsg_all_served_witness : exists c st, s_clients (sys_run 16384 sample_files sample_schedule (sys_up sample_argvs)) !! 0%nat = Some c /\ c_pc c = KExited st /\
  st = EXIT_SUCCESS /\ exists msgs, c_out c = received_line 3 msgs /\ msgs - 1 <= 3 <= RESP_MSG_SIZE * (msgs - 1).
Proof.
  assert (Hf : forall path content, sample_files path = Some content -> Z.of_nat (length content) < INT_MAX).
  { intros path content H. unfold sample_files in H. destruct (bool_decide _); [|done]. injection H as <-. reflexivity. }
  assert (Hs : stuck 16384 sample_files (sys_run 16384 sample_files sample_schedule (sys_up sample_argvs))).
  { assert (E : exists s, sys_run 16384 sample_files sample_schedule (sys_up sample_argvs) = s /\ serverq (s_ipc s) = Some [] /\ s_parent s = PReceive /\ map ch_pc (s_kids s) = [ChExited 0; ChExited 1] /\ map c_pc (s_clients s) = [KExited 0; KExited 1; KExited 1]).
    { eexists. split; [reflexivity|]. vm_compute. done. }
    destruct E as (s & -> & Hq & Hp & Hk & Hc). intros [|j|i] n; cbn.
    - rewrite Hp. cbn. by rewrite Hq.
    - destruct (s_kids s) as [|k1 [|k2 [|]]]; try done. injection Hk as H1 H2. destruct j as [|[|j]]; cbn; [| |done]; unfold serveRequest; [by rewrite H1|by rewrite H2].
    - destruct (s_clients s) as [|c1 [|c2 [|c3 [|]]]]; try done. injection Hc as H1 H2 H3. destruct i as [|[|[|i]]]; cbn; [| | |done]; unfold client_step; [by rewrite H1|by rewrite H2|by rewrite H3]. }
  exact (proj2 (svmsg_all_served 16384 sample_files sample_argvs sample_schedule ltac:(done) ltac:(vm_compute; reflexivity) Hf) Hs 0%nat [bytes "f"] eq_refl).
Defined.

Definition start_schedule : list (actor * outcome) := [(TheServer, Works 0); (TheServer, Works 0)].
Lemma svmsg_client_told_witness : exists c, s_clients (sys_run 16384 sample_files (start_schedule ++ sample_schedule) (sys0 sample_argvs)) !! 0%nat = Some c /\
  c_out c = received_line (c_tot c) (c_msgs c) /\ exists content, sample_files (c_path c) = Some content /\ c_tot c = Z.of_nat (length content).
Proof.
  assert (H : exists c, s_clients (sys_run 16384 sample_files (start_schedule ++ sample_schedule) (sys0 sample_argvs)) !! 0%nat = Some c /\ c_pc c = KExited EXIT_SUCCESS).
  { eexists. split; vm_compute; reflexivity. }
  destruct H as (c & Hc & Hpc). exists c. split; [done|].
  destruct (svmsg_client_told 16384 sample_files sample_argvs (start_schedule ++ sample_schedule) 0%nat c Hc Hpc) as (_ & content & H1 & H2 & _ & _ & H3).
  split; [exact H2|]. exists content. split; [exact H1|]. apply H3. vm_compute. reflexivity.
Defined.

(** A client that asks for a file is told that it has been received although it could not
    be read: a child that cannot read sends the end of the file. *)
Example svmsg_read_error_unnoticed : exists l c, s_clients (sys_run 16384 sample_files l (sys_up [[bytes "f"]])) !! 0%nat = Some c /\
  c_pc c = KExited EXIT_SUCCESS /\ c_out c = received_line 2 2.
Proof.
  exists (replicate 5 (TheClient 0, Works 0) ++ replicate 2 (TheServer, Works 0) ++ replicate 3 (TheChild 0, Works 2) ++ [(TheChild 0, Fails); (TheChild 0, Works 0)] ++ replicate 3 (TheClient 0, Works 0)).
  eexists. split; [vm_compute; reflexivity|]. vm_compute. done.
Qed.
(** When the server cannot fork it removes its queue and exits; the client whose request it
    has taken waits for ever. *)
Example svmsg_fork_failure_strands_client : exists l, let s := sys_run 16384 sample_files l (sys_up [[bytes "f"]]) in
  s_parent s = PExited EXIT_SUCCESS /\ map c_pc (s_clients s) = [KFirst] /\ stuck 16384 sample_files s.
Proof.
  exists (replicate 5 (TheClient 0, Works 0) ++ [(TheServer, Works 0); (TheServer, Fails); (TheServer, Works 0)]).
  set (s := sys_run _ _ _ _). assert (E : s = Sys (Ipc None {[0%nat := []]}) (PExited 0) [] [Client KFirst [bytes "f"] 0 0 []]) by (vm_compute; reflexivity).
  rewrite E. split; [done|]. split; [done|]. intros [|j|[|i]] n; done.
Qed.
