(* ===== verification/LineRead.v ===== *)
(** Reading lines and blocks from a descriptor: [readLine] of
    [src/tlpi-dist/sockets/read_line.c], [readLineBuf] of [read_line_buf.c], [readn] and
    [writen] of [rdwrn.c].

    A descriptor is the list of what its calls to [read] are going to find: bytes, of which a call
    takes as many as it has room for, an interrupting signal, a failure, a peer that sends nothing more
    and stays connected, and the end of the input when nothing is left (or where no bytes are found). *)
From S2P Require Import Prelude CStr.

Inductive revent := Bytes (bs : list Z) | Interrupted | Failed | Silent.
Inductive rresult := Got (bs : list Z) | REintr | RError | RBlocks.   (* RBlocks: the call never returns *)
Definition sread (k : nat) (evs : list revent) : rresult * list revent :=
  match evs with
  | [] => (Got [], [])
  | Bytes bs :: l => (Got (take k bs), match drop k bs with [] => l | bs' => Bytes bs' :: l end)
  | Interrupted :: l => (REintr, l)
  | Failed :: l => (RError, l)
  | Silent :: l => (RBlocks, Silent :: l)
  end.

(** The descriptor and the caller's buffer; none: a null pointer. *)
Record rio := Rio { r_evs : list revent; r_user : option (list Z) }.
Definition rd (k : nat) : M rio rresult := fun s => let '(r, l) := sread k (r_evs s) in Ret r (Rio l (r_user s)).
(** [buffer[i..] = bs] *)
Definition store (i : nat) (bs : list Z) : M rio unit := fun s =>
  match r_user s with
  | Some ub =>
      if (i + length bs <=? length ub)%nat then Ret tt (Rio (r_evs s) (Some (take i ub ++ bs ++ drop (i + length bs) ub)))
      else Exit (Undefined "buffer") s
  | None => Exit (Undefined "null pointer") s
  end.

(** ** readLine *)

Fixpoint readLine_loop (fuel : nat) (n : Z) (totRead : nat) : M rio Z :=
  match fuel with
  | O => die Loops
  | S fuel =>
      r ← rd 1;
      match r with
      | REintr => readLine_loop fuel n totRead
      | RError => mret (-1)
      | RBlocks => die Loops
      | Got [] => if (totRead =? 0)%nat then mret 0 else store totRead [NUL] ;; mret (Z.of_nat totRead)
      | Got (ch :: _) =>
          let fits := Z.of_nat totRead <? n - 1 in
          when fits (store totRead [ch]) ;;
          let totRead := if fits then S totRead else totRead in
          if ch =? NEWLINE then store totRead [NUL] ;; mret (Z.of_nat totRead) else readLine_loop fuel n totRead
      end
  end.
Definition weight (evs : list revent) : nat := sum_list_with (fun e => match e with Bytes bs => S (length bs) | _ => 1%nat end) evs.
Definition readLine (n : Z) : M rio Z := fun s =>
  if (n <=? 0) || bool_decide (r_user s = None) then Ret (-1) s else readLine_loop (S (weight (r_evs s))) n 0 s.

(** ** readLineBuf *)

Definition RL_MAX_BUF : nat := 10.
Record ReadLineBuf := RLB { rl_buf : list Z; rl_next : Z; rl_len : Z }.
Definition readLineBufInit (junk : list Z) : ReadLineBuf := RLB junk 0 0.

(** [read(rlbuf->fd, rlbuf->buf, RL_MAX_BUF)] where the buffer is used up, and the next character. *)
Inductive fetched := FError | FEof | FChar (c : Z).
Definition fetch : M (ReadLineBuf * rio) fetched := fun '(b, s) =>
  let next_char b s :=
    match rl_buf b !! Z.to_nat (rl_next b) with
    | Some c => if rl_next b <? 0 then Exit (Undefined "rlbuf->buf") (b, s) else Ret (FChar c) (RLB (rl_buf b) (rl_next b + 1) (rl_len b), s)
    | None => Exit (Undefined "rlbuf->buf") (b, s)
    end in
  if rl_len b <=? rl_next b then
    let '(r, l) := sread RL_MAX_BUF (r_evs s) in
    let s := Rio l (r_user s) in
    match r with
    | REintr | RError => Ret FError (RLB (rl_buf b) (rl_next b) (-1), s)
    | RBlocks => Exit Loops (b, s)
    | Got [] => Ret FEof (RLB (rl_buf b) (rl_next b) 0, s)
    | Got bs => next_char (RLB (poke bs (rl_buf b)) 0 (Z.of_nat (length bs))) s
    end
  else next_char b s.
Definition on_user {A} (m : M rio A) : M (ReadLineBuf * rio) A := zoom snd (fun s x => (x.1, s)) m.
Fixpoint readLineBuf_loop (fuel : nat) (n : Z) (cnt : nat) : M (ReadLineBuf * rio) Z :=
  match fuel with
  | O => die Loops
  | S fuel =>
      r ← fetch;
      match r with
      | FError => mret (-1)
      | FEof => mret (Z.of_nat cnt)
      | FChar c =>
          let fits := Z.of_nat cnt <? n in
          when fits (on_user (store cnt [c])) ;;
          let cnt := if fits then S cnt else cnt in
          if c =? NEWLINE then mret (Z.of_nat cnt) else readLineBuf_loop fuel n cnt
      end
  end.
Definition readLineBuf (n : Z) : M (ReadLineBuf * rio) Z := fun s =>
  if (n <=? 0) || bool_decide (r_user s.2 = None) then Ret (-1) s
  else readLineBuf_loop (S (weight (r_evs s.2) + Z.to_nat (rl_len s.1))) n 0 s.

(** ** rdwrn.c *)

Fixpoint tlpi_readn_loop (fuel : nat) (n totRead : nat) : M rio Z :=
  match fuel with
  | O => die Loops
  | S fuel =>
      if (n <=? totRead)%nat then mret (Z.of_nat totRead) else
      r ← rd (n - totRead);
      match r with
      | Got [] => mret (Z.of_nat totRead)
      | REintr => tlpi_readn_loop fuel n totRead
      | RError => mret (-1)
      | RBlocks => die Loops
      | Got bs => store totRead bs ;; tlpi_readn_loop fuel n (totRead + length bs)
      end
  end.
Definition tlpi_readn (n : nat) : M rio Z := fun s => tlpi_readn_loop (S (weight (r_evs s))) n 0 s.

(** What calls to [write] are going to do: take some bytes, be interrupted, fail; a list that
    is used up takes everything. *)
Inductive wevent := Takes (k : nat) | WInterrupted | WFailed.
Record wio := Wio { w_evs : list wevent; w_pieces : list (list Z) }.
Inductive wresult := Wrote (k : nat) | WEintr | WError.
Definition wr (bs : list Z) : M wio wresult := fun s =>
  match w_evs s with
  | [] => Ret (Wrote (length bs)) (Wio [] (w_pieces s ++ [bs]))
  | Takes k :: l => Ret (Wrote (Nat.min k (length bs))) (Wio l (w_pieces s ++ [take k bs]))
  | WInterrupted :: l => Ret WEintr (Wio l (w_pieces s))
  | WFailed :: l => Ret WError (Wio l (w_pieces s))
  end.
Fixpoint tlpi_writen_loop (fuel : nat) (n : nat) (bs : list Z) : M wio Z :=
  match fuel with
  | O => die Loops
  | S fuel =>
      match bs with [] => mret (Z.of_nat n) | _ =>
        r ← wr bs;
        match r with
        | WEintr => tlpi_writen_loop fuel n bs
        | WError | Wrote O => mret (-1)
        | Wrote k => tlpi_writen_loop fuel n (drop k bs)
        end
      end
  end.
Definition tlpi_writen (bs : list Z) : M wio Z := fun s => tlpi_writen_loop (2 + length (w_evs s)) (length bs) bs s.

(** ** Reference *)

Definition waiting (evs : list revent) : list Z := concat (map (fun e => match e with Bytes bs => bs | _ => [] end) evs).
Fixpoint first_line (bs : list Z) : list Z :=
  match bs with
  | [] => []
  | c :: bs' => if c =? NEWLINE then [c] else c :: first_line bs'
  end.
(** The descriptor delivers bytes until they end, with interruptions if [int] is true. *)
Definition plain (int : bool) (evs : list revent) : Prop :=
  Forall (fun e => match e with Bytes bs => bs <> [] | Interrupted => int = true | Failed | Silent => False end) evs.

Lemma plain_sread int k evs : (1 <= k)%nat -> plain int evs ->
  match sread k evs with
  | (Got bs, evs') => plain int evs' /\ waiting evs = bs ++ waiting evs' /\ (length bs <= k)%nat /\ (weight evs' + length bs <= weight evs)%nat /\
      (bs = [] -> evs = [] /\ evs' = [])
  | (REintr, evs') => int = true /\ plain int evs' /\ waiting evs' = waiting evs /\ (weight evs' < weight evs)%nat
  | (RError, _) | (RBlocks, _) => False
  end.
Proof.
  intros Hk P. unfold weight. destruct P as [|[bs| | |] l Hb P]; cbn; [split_and!; (done || apply Forall_nil_2 || lia)| |split_and!; (done || lia)|done|done].
  assert (Ht : take k bs <> []) by (destruct bs, k; (done || lia)).
  pose proof (take_drop k bs) as Htd. destruct (drop k bs) as [|x r] eqn:Ed.
  - rewrite app_nil_r in Htd. rewrite Htd in *. split_and!; try done; [|lia]. rewrite <- Htd, length_take. lia.
  - split_and!; try done.
    + by constructor.
    + rewrite <- Htd at 1. cbn. by rewrite <- app_assoc.
    + rewrite length_take. lia.
    + cbn. rewrite <- Htd at 2. rewrite length_app. cbn. lia.
Qed.

Lemma store_poke acc bs ub evs : (length acc + length bs <= length ub)%nat ->
  store (length acc) bs (Rio evs (Some (poke acc ub))) = Ret tt (Rio evs (Some (poke (acc ++ bs) ub))).
Proof.
  intros H. unfold store, poke. cbn [r_user r_evs]. rewrite length_app, length_drop. rewrite (proj2 (Nat.leb_le _ _)) by lia.
  rewrite take_app_length, length_app, <- app_assoc. do 4 f_equal. rewrite drop_app_ge, drop_drop by lia. do 2 f_equal. lia.
Qed.
Lemma take_take_app {A} m (a b : list A) : take m (take m a ++ b) = take m (a ++ b).
Proof.
  destruct (Nat.le_gt_cases (length a) m) as [H|H]; [by rewrite (take_ge a) by lia|].
  rewrite !take_app_le by (rewrite ?length_take; lia). by rewrite take_take, Nat.min_id.
Qed.
Lemma store_fits m acc ch ub evs : (length acc <= m)%nat -> (m <= length ub)%nat ->
  when (Z.of_nat (length acc) <? Z.of_nat m) (store (length acc) [ch]) (Rio evs (Some (poke acc ub))) =
    Ret tt (Rio evs (Some (poke (take m (acc ++ [ch])) ub))) /\
  (if Z.of_nat (length acc) <? Z.of_nat m then S (length acc) else length acc) = length (take m (acc ++ [ch])).
Proof.
  intros H1 H2. destruct (Z.of_nat (length acc) <? Z.of_nat m) eqn:E; bsimp; cbn [when].
  - rewrite (take_ge (acc ++ [ch])) by (rewrite length_app; cbn; lia). rewrite store_poke by (cbn; lia). rewrite length_app. cbn. split; [done|lia].
  - assert (length acc = m) as <- by lia. by rewrite take_app_length.
Qed.
Lemma rd_run k s r l : sread k (r_evs s) = (r, l) -> rd k s = Ret r (Rio l (r_user s)).
Proof. unfold rd. by intros ->. Qed.

(** What a call leaves in the buffer. *)
Definition terminated (st ub : list Z) : list Z := match st with [] => ub | _ => poke (st ++ [NUL]) ub end.
Lemma terminated_ne st ub : st <> [] -> terminated st ub = poke (st ++ [NUL]) ub.
Proof. by destruct st. Qed.

Section Loops.
Context (int : bool) (ub : list Z).

Lemma readLine_loop_spec m fuel acc evs : (1 <= m)%nat -> (m < length ub)%nat -> (length acc <= m)%nat -> (weight evs < fuel)%nat -> plain int evs ->
  let L := first_line (waiting evs) in let st := take m (acc ++ L) in
  exists evs', plain int evs' /\ waiting evs' = drop (length L) (waiting evs) /\
    readLine_loop fuel (Z.of_nat m + 1) (length acc) (Rio evs (Some (poke acc ub))) = Ret (Z.of_nat (length st)) (Rio evs' (Some (terminated st ub))).
Proof.
  intros Hm Hub. revert acc evs. induction fuel as [|fuel IH]; intros acc evs Ha Hw P; [lia|]. cbn zeta.
  pose proof (plain_sread int 1 evs ltac:(lia) P) as H. destruct (sread 1 evs) as [r l] eqn:E. cbn [readLine_loop].
  rewrite (bind_ret _ _ _ _ _ (rd_run 1 (Rio evs (Some (poke acc ub))) r l E)). cbn [r_user].
  destruct r as [[|ch bs]| | |]; [| | |done|done].
  - destruct H as (P' & _ & _ & _ & H). destruct (H eq_refl) as [-> ->]. exists []. cbn [waiting map concat first_line length]. rewrite app_nil_r, take_ge by lia.
    split_and!; [done|done|]. destruct acc as [|c acc]; [done|]. cbn [length Nat.eqb]. change (S (length acc)) with (length (c :: acc)).
    by rewrite (bind_ret _ _ _ _ _ (store_poke (c :: acc) [NUL] ub [] ltac:(cbn in *; lia))).
  - destruct H as (P' & Hwt & Hl & Hw' & _). destruct bs; [|cbn in Hl; lia]. cbn in Hw'. rewrite Hwt. cbn [app first_line].
    replace (Z.of_nat m + 1 - 1) with (Z.of_nat m) by lia. destruct (store_fits m acc ch ub l Ha ltac:(lia)) as [Hst Hlen].
    rewrite (bind_ret _ _ _ _ _ Hst), Hlen. set (acc' := take m (acc ++ [ch])) in *. 
    assert (Hne : acc' <> []) by (subst acc'; intros H; apply (f_equal length) in H; rewrite length_take, length_app in H; cbn in H; lia).
    assert (Hacc : (length acc' <= m)%nat) by (subst acc'; rewrite length_take; lia).
    destruct (ch =? NEWLINE).
    + exists l. split_and!; [done|done|]. rewrite (bind_ret _ _ _ _ _ (store_poke acc' [NUL] ub l ltac:(cbn; lia))). cbn beta. by rewrite terminated_ne.
    + destruct (IH acc' l Hacc ltac:(lia) P') as (l' & Pl & Hwl & El). exists l'. split_and!; [done|done|]. rewrite El.
      subst acc'. by rewrite take_take_app, <- app_assoc.
  - destruct H as (_ & P' & Hwt & Hw'). rewrite <- Hwt. apply (IH acc l); (done || lia).
Qed.
Lemma readLine_spec n evs : 2 <= n <= Z.of_nat (length ub) -> plain int evs ->
  let L := first_line (waiting evs) in let st := take (Z.to_nat (n - 1)) L in
  exists evs', plain int evs' /\ waiting evs' = drop (length L) (waiting evs) /\
    readLine n (Rio evs (Some ub)) = Ret (Z.of_nat (length st)) (Rio evs' (Some (terminated st ub))).
Proof.
  intros Hn P. destruct (readLine_loop_spec (Z.to_nat (n - 1)) (S (weight evs)) [] evs) as (l & Pl & Hwl & El); [lia|lia|cbn; lia|lia|done|].
  exists l. split_and!; [done|done|]. unfold readLine. cbn [r_user r_evs]. bfalse (n <=? 0). rewrite bool_decide_false by done. cbn [orb].
  replace (Z.of_nat (Z.to_nat (n - 1)) + 1) with n in El by lia. exact El.
Qed.
End Loops.

(** The characters fetched and not yet returned. *)
Definition pending (b : ReadLineBuf) : list Z := drop (Z.to_nat (rl_next b)) (take (Z.to_nat (rl_len b)) (rl_buf b)).
Definition rlb_ok (b : ReadLineBuf) : Prop := length (rl_buf b) = RL_MAX_BUF /\ 0 <= rl_next b /\ rl_len b <= Z.of_nat RL_MAX_BUF.

Lemma next_char_spec buf next len c rest : length buf = RL_MAX_BUF -> 0 <= next < len -> len <= Z.of_nat RL_MAX_BUF ->
  pending (RLB buf next len) = c :: rest -> buf !! Z.to_nat next = Some c /\ pending (RLB buf (next + 1) len) = rest.
Proof.
  unfold pending. cbn [rl_buf rl_next rl_len]. intros Hb Hn Hl H. replace (Z.to_nat (next + 1)) with (S (Z.to_nat next)) by lia.
  assert (Hc : take (Z.to_nat len) buf !! Z.to_nat next = Some c).
  { rewrite <- (Nat.add_0_r (Z.to_nat next)), <- lookup_drop, H. done. }
  split; [rewrite lookup_take_Some in Hc; by destruct Hc|]. apply drop_S in Hc. rewrite H in Hc. by injection Hc.
Qed.
Lemma pending_buffered b : rlb_ok b -> rl_next b < rl_len b -> pending b <> [].
Proof.
  intros (Hb & H0 & Hl) Hn H. apply (f_equal length) in H. unfold pending in H. rewrite length_drop, length_take in H. cbn in H. lia.
Qed.
Lemma pending_used b : rlb_ok b -> rl_len b <= rl_next b -> pending b = [].
Proof. intros (Hb & H0 & Hl) Hn. apply drop_ge. rewrite length_take. lia. Qed.

(** The input with its interruptions: the characters, and none where a read is interrupted. *)
Definition items (evs : list revent) : list (option Z) :=
  concat (map (fun e => match e with Bytes bs => map Some bs | Interrupted => [None] | _ => [] end) evs).
Lemma items_plain evs : plain false evs -> items evs = map Some (waiting evs).
Proof.
  induction 1 as [|[bs| | |] l Hb P IH]; [done| |done..]. unfold items, waiting in *. cbn [map concat]. by rewrite map_app, IH.
Qed.
Lemma items_sread k evs : (1 <= k)%nat -> plain true evs ->
  match sread k evs with
  | (Got bs, evs') => plain true evs' /\ items evs = map Some bs ++ items evs' /\ (length bs <= k)%nat /\ (weight evs' + length bs <= weight evs)%nat /\
      (bs = [] -> evs = [] /\ evs' = [])
  | (REintr, evs') => plain true evs' /\ items evs = None :: items evs'
  | (RError, _) | (RBlocks, _) => False
  end.
Proof.
  intros Hk P. pose proof (plain_sread true k evs Hk P) as H. destruct (sread k evs) as [[bs| | |] l] eqn:E; [| |done|done].
  - destruct H as (P' & _ & H2 & H3 & H4). split_and!; try done. destruct evs as [|[b| | |] evs]; cbn in E; simplify_eq; [done|].
    rewrite <- (take_drop k b) at 1. unfold items at 1. cbn [map concat]. rewrite map_app, <- app_assoc. f_equal. by destruct (drop k b).
  - destruct H as (_ & P' & _ & _). split; [done|]. destruct evs as [|[b| | |] evs]; cbn in E; by simplify_eq.
Qed.

Lemma fetch_spec b evs u : rlb_ok b -> plain true evs ->
  exists b' evs', rlb_ok b' /\ plain true evs' /\
    match map Some (pending b) ++ items evs with
    | [] => fetch (b, Rio evs u) = Ret FEof (b', Rio evs' u) /\ map Some (pending b') ++ items evs' = []
    | None :: rest => fetch (b, Rio evs u) = Ret FError (b', Rio evs' u) /\ map Some (pending b') ++ items evs' = rest
    | Some c :: rest => fetch (b, Rio evs u) = Ret (FChar c) (b', Rio evs' u) /\ map Some (pending b') ++ items evs' = rest /\
        (weight evs' + length (pending b') < weight evs + length (pending b))%nat
    end.
Proof.
  intros Hok P. destruct b as [buf next len]. destruct Hok as (Hb & H0 & Hl). cbn [rl_buf rl_next rl_len] in *. unfold fetch. cbn [rl_len rl_next rl_buf r_evs r_user].
  destruct (len <=? next) eqn:E; bsimp.
  - rewrite (pending_used (RLB buf next len)) by (done || split_and!; done). cbn [app map].
    pose proof (items_sread RL_MAX_BUF evs ltac:(unfold RL_MAX_BUF; lia) P) as H. destruct (sread RL_MAX_BUF evs) as [[bs| | |] l]; [| |done|done].
    2: { destruct H as (P' & ->). exists (RLB buf next (-1)), l. split_and!; try done. rewrite pending_used; [done|by split_and!|cbn; lia]. }
    destruct H as (P' & Hw & Hlen & Hwt & Hnil). rewrite Hw. destruct bs as [|c bs].
    + destruct (Hnil eq_refl) as [-> ->]. exists (RLB buf next 0), []. split_and!; try done. rewrite pending_used; [done|by split_and!|done].
    + destruct (next_char_spec (poke (c :: bs) buf) 0 (Z.of_nat (length (c :: bs))) c bs) as [Hc Hp].
      * unfold poke. rewrite length_app, length_drop. cbn [length] in *. lia.
      * cbn. lia.
      * cbn [length] in *. lia.
      * unfold pending, poke. cbn [rl_buf rl_next rl_len]. by rewrite Nat2Z.id, take_app_length.
      * cbn [rl_next map app]. rewrite Hc. exists (RLB (poke (c :: bs) buf) (0 + 1) (Z.of_nat (length (c :: bs)))), l. rewrite Hp. split_and!; try done.
        -- unfold rlb_ok, poke. cbn [rl_buf rl_next rl_len]. rewrite length_app, length_drop. cbn [length] in *. lia.
        -- cbn [length] in *. lia.
  - destruct (pending (RLB buf next len)) as [|c rest] eqn:Ep; [by apply pending_buffered in Ep|].
    destruct (next_char_spec buf next len c rest Hb ltac:(lia) Hl Ep) as [Hc Hp]. cbn [app map]. rewrite Hc. bfalse (next <? 0).
    exists (RLB buf (next + 1) len), evs. rewrite Hp. split_and!; try done; [split_and!; cbn [rl_buf rl_next rl_len]; (done || lia)|cbn [length]; lia].
Qed.

(** What a call of [readLineBuf] makes of the input: a line, or none where it meets an interruption first; and the rest. *)
Fixpoint line_items (acc : list Z) (l : list (option Z)) : option (list Z) * list (option Z) :=
  match l with
  | [] => (Some acc, [])
  | None :: l' => (None, l')
  | Some c :: l' => if c =? NEWLINE then (Some (acc ++ [c]), l') else line_items (acc ++ [c]) l'
  end.
Lemma line_items_all acc bs : line_items acc (map Some bs) = (Some (acc ++ first_line bs), map Some (drop (length (first_line bs)) bs)).
Proof.
  revert acc. induction bs as [|c bs IH]; intros acc; cbn [map line_items first_line]; [by rewrite app_nil_r|].
  destruct (c =? NEWLINE); [done|]. rewrite IH, <- app_assoc. done.
Qed.

Lemma on_user_run {A} (m : M rio A) b s a s' : m s = Ret a s' -> on_user m (b, s) = Ret a (b, s').
Proof. intros H. unfold on_user, zoom. cbn. by rewrite H. Qed.
(** The state after a call: what is left of the input, and the line or -1. *)
Definition buf_result (m : nat) (ub : list Z) (x : outcome (ReadLineBuf * rio) Z) (y : option (list Z) * list (option Z)) : Prop :=
  exists b' evs' u', rlb_ok b' /\ plain true evs' /\ map Some (pending b') ++ items evs' = y.2 /\
    match y.1 with
    | Some L => x = Ret (Z.of_nat (length (take m L))) (b', Rio evs' (Some (poke (take m L) ub)))
    | None => x = Ret (-1) (b', Rio evs' u')
    end.
Lemma readLineBuf_loop_spec ub m fuel acc full b evs : (1 <= m <= length ub)%nat -> acc = take m full -> (weight evs + length (pending b) < fuel)%nat ->
  rlb_ok b -> plain true evs ->
  buf_result m ub (readLineBuf_loop fuel (Z.of_nat m) (length acc) (b, Rio evs (Some (poke acc ub)))) (line_items full (map Some (pending b) ++ items evs)).
Proof.
  intros Hm. revert acc full b evs. induction fuel as [|fuel IH]; intros acc full b evs Hacc Hw Hok P; [lia|].
  assert (Ha : (length acc <= m)%nat) by (rewrite Hacc, length_take; lia).
  destruct (fetch_spec b evs (Some (poke acc ub)) Hok P) as (b1 & evs1 & Hok1 & P1 & H). cbn [readLineBuf_loop].
  destruct (map Some (pending b) ++ items evs) as [|[c|] rest]; cbn [line_items].
  - destruct H as [E H]. rewrite (bind_ret _ _ _ _ _ E). exists b1, evs1, None. cbn [fst snd]. rewrite <- Hacc. by split_and!.
  - destruct H as (E & H & Hd). rewrite (bind_ret _ _ _ _ _ E).
    destruct (store_fits m acc c ub evs1 Ha ltac:(lia)) as [Hst Hlen].
    assert (Hst' : when (Z.of_nat (length acc) <? Z.of_nat m) (on_user (store (length acc) [c])) (b1, Rio evs1 (Some (poke acc ub))) =
      Ret tt (b1, Rio evs1 (Some (poke (take m (acc ++ [c])) ub)))).
    { destruct (_ <? _); cbn [when] in Hst |- *; [by apply on_user_run|]. injection Hst as Hst. by rewrite Hst. }
    rewrite (bind_ret _ _ _ _ _ Hst'), Hlen. assert (Hacc' : take m (acc ++ [c]) = take m (full ++ [c])) by (by rewrite Hacc, take_take_app).
    destruct (c =? NEWLINE).
    + exists b1, evs1, None. cbn [fst snd]. rewrite <- Hacc'. by split_and!.
    + rewrite <- H. apply IH; [done|lia|done|done].
  - destruct H as [E H]. rewrite (bind_ret _ _ _ _ _ E). exists b1, evs1, (Some (poke acc ub)). by split_and!.
Qed.
Lemma readLineBuf_spec ub n b evs : 1 <= n <= Z.of_nat (length ub) -> rlb_ok b -> plain true evs ->
  buf_result (Z.to_nat n) ub (readLineBuf n (b, Rio evs (Some ub))) (line_items [] (map Some (pending b) ++ items evs)).
Proof.
  intros Hn Hok P. unfold readLineBuf. cbn [fst snd r_user r_evs]. bfalse (n <=? 0). rewrite bool_decide_false by done. cbn [orb].
  assert (Hp : (length (pending b) <= Z.to_nat (rl_len b))%nat) by (unfold pending; rewrite length_drop, length_take; lia).
  pose proof (readLineBuf_loop_spec ub (Z.to_nat n) (S (weight evs + Z.to_nat (rl_len b))) [] [] b evs ltac:(lia) ltac:(by rewrite take_nil) ltac:(lia) Hok P) as H.
  rewrite Z2Nat.id in H by lia. exact H.
Qed.

Lemma tlpi_readn_loop_spec int ub n fuel acc evs : (n <= length ub)%nat -> (length acc <= n)%nat -> (weight evs < fuel)%nat -> plain int evs ->
  let st := take n (acc ++ waiting evs) in
  exists evs', plain int evs' /\ acc ++ waiting evs = st ++ waiting evs' /\
    tlpi_readn_loop fuel n (length acc) (Rio evs (Some (poke acc ub))) = Ret (Z.of_nat (length st)) (Rio evs' (Some (poke st ub))).
Proof.
  intros Hub. revert acc evs. induction fuel as [|fuel IH]; intros acc evs Ha Hw P; [lia|]. cbn zeta. cbn [tlpi_readn_loop].
  destruct (n <=? length acc)%nat eqn:En; [apply Nat.leb_le in En|apply Nat.leb_gt in En].
  { assert (n = length acc) as -> by lia. rewrite take_app_length. by exists evs. }
  pose proof (plain_sread int (n - length acc) evs ltac:(lia) P) as H. destruct (sread _ evs) as [r l] eqn:E.
  rewrite (bind_ret _ _ _ _ _ (rd_run _ (Rio evs (Some (poke acc ub))) r l E)). cbn [r_user]. destruct r as [[|c bs]| | |]; [| | |done|done].
  - destruct H as (_ & _ & _ & _ & H). destruct (H eq_refl) as [-> ->]. exists []. cbn [waiting map concat]. rewrite !app_nil_r, take_ge by lia. by split_and!.
  - destruct H as (P' & Hwt & Hl & Hw' & _). rewrite Hwt. rewrite (bind_ret _ _ _ _ _ (store_poke acc (c :: bs) ub l ltac:(lia))). rewrite <- length_app.
    rewrite (app_assoc acc). apply IH; [rewrite length_app; lia|cbn [length] in *; lia|done].
  - destruct H as (_ & P' & Hwt & Hw'). rewrite <- Hwt. apply IH; (done || lia).
Qed.
Lemma tlpi_readn_spec int ub n evs : (n <= length ub)%nat -> plain int evs ->
  exists evs', plain int evs' /\ waiting evs' = drop n (waiting evs) /\
    tlpi_readn n (Rio evs (Some ub)) = Ret (Z.of_nat (Nat.min n (length (waiting evs)))) (Rio evs' (Some (poke (take n (waiting evs)) ub))).
Proof.
  intros Hub P. destruct (tlpi_readn_loop_spec int ub n (S (weight evs)) [] evs Hub ltac:(cbn; lia) ltac:(lia) P) as (l & Pl & H & E).
  exists l. split_and!; [done| |].
  - cbn [app] in H. rewrite <- (take_drop n (waiting evs)) in H at 1. by apply app_inv_head in H.
  - unfold tlpi_readn. cbn [r_evs app] in *. rewrite length_take in E. exact E.
Qed.

(** A descriptor that takes at least a byte of what is written, unless it is interrupted. *)
Definition takes (evs : list wevent) : Prop := Forall (fun e => match e with Takes k => k <> O | WInterrupted => True | WFailed => False end) evs.
Lemma tlpi_writen_loop_spec fuel n bs evs pieces : (if bs is [] then 1 <= fuel else length evs + 2 <= fuel)%nat -> takes evs ->
  exists evs' ps, concat ps = bs /\ Forall (fun p => p <> []) ps /\ takes evs' /\
    tlpi_writen_loop fuel n bs (Wio evs pieces) = Ret (Z.of_nat n) (Wio evs' (pieces ++ ps)).
Proof.
  revert bs evs pieces. induction fuel as [|fuel IH]; intros bs evs pieces Hf T; [destruct bs; lia|].
  destruct bs as [|c bs]; [exists evs, []; rewrite app_nil_r; by split_and!|]. cbn [tlpi_writen_loop].
  destruct T as [|[k| |] evs Hk T]; cbn [length] in Hf.
  - destruct (IH [] [] (pieces ++ [c :: bs])) as (evs' & ps & H1 & H2 & H3 & H4); [lia|apply Forall_nil_2|].
    exists evs', ([c :: bs] ++ ps). rewrite concat_app, H1. cbn [concat app]. rewrite !app_nil_r. split_and!; [done|by constructor|done|].
    unfold mbind, M_bind, wr. cbn [w_evs w_pieces]. rewrite <- app_assoc in H4. cbn [length] in *. by rewrite drop_ge by (cbn; lia).
  - destruct k as [|k]; [done|]. destruct (IH (drop (S (Nat.min k (length bs))) (c :: bs)) evs (pieces ++ [take (S k) (c :: bs)])) as (evs' & ps & H1 & H2 & H3 & H4).
    { destruct (drop _ _); lia. } { done. }
    exists evs', ([take (S k) (c :: bs)] ++ ps). rewrite concat_app, H1. split_and!; [|by constructor|done|].
    + cbn [concat take drop app]. rewrite app_nil_r. f_equal. destruct (Nat.le_gt_cases k (length bs)).
      * rewrite Nat.min_l by lia. apply take_drop.
      * rewrite Nat.min_r by lia. rewrite take_ge, drop_ge by lia. apply app_nil_r.
    + unfold mbind, M_bind, wr. cbn [w_evs w_pieces Nat.min length]. by rewrite app_assoc.
  - destruct (IH (c :: bs) evs pieces) as (evs' & ps & H); [lia|done|]. by exists evs', ps.
  - done.
Qed.
Lemma tlpi_writen_spec bs evs pieces : takes evs ->
  exists evs' ps, concat ps = bs /\ Forall (fun p => p <> []) ps /\ takes evs' /\ tlpi_writen bs (Wio evs pieces) = Ret (Z.of_nat (length bs)) (Wio evs' (pieces ++ ps)).
Proof. intros T. apply tlpi_writen_loop_spec; [|done]. cbn [w_evs]. destruct bs; lia. Qed.
