(* ===== verification/GetNum.v ===== *)
(** Numeric command-line arguments: [src/tlpi-dist/lib/get_num.c]. *)
From S2P Require Import Prelude CStr.

(** ** [strtol] with a base, an end pointer and [errno] *)

Definition digit_val (c : Z) : Z :=
  if isdigit c then c - 48 else if (97 <=? c) && (c <=? 122) then c - 87 else if (65 <=? c) && (c <=? 90) then c - 55 else 36.
Fixpoint base_digits (base : Z) (acc : Z) (seen : bool) (s : list Z) : (Z * bool) * list Z :=
  match s with
  | c :: s' => if digit_val c <? base then base_digits base (acc * base + digit_val c) true s' else ((acc, seen), s)
  | [] => ((acc, seen), [])
  end.
(** After [0x] must come a hexadecimal digit, or the number is the zero. *)
Definition hex_prefix (s : list Z) : option (list Z) :=
  match s with
  | 48 :: x :: c :: s' => if ((x =? 120) || (x =? 88)) && (digit_val c <? 16) then Some (c :: s') else None
  | _ => None
  end.
(** The base in force and where its digits begin. *)
Definition radix (base : Z) (s : list Z) : Z * list Z :=
  if (base =? 0) || (base =? 16) then
    match hex_prefix s with
    | Some s' => (16, s')
    | None => (if base =? 16 then 16 else if bool_decide (head s = Some 48) then 8 else 10, s)
    end
  else (base, s).
(** Value, whether it was out of range ([errno] is [ERANGE]), and what follows it. *)
Definition strtol (s : list Z) (base : Z) : (Z * bool) * list Z :=
  let t := skip_space s in
  let '(neg, t) := match t with 45 :: t' => (true, t') | 43 :: t' => (false, t') | _ => (false, t) end in
  let '(b, t) := radix base t in
  let '((v, seen), rest) := base_digits b 0 false t in
  if negb seen then ((0, false), s) else
  let v := if neg then - v else v in
  ((Z.max LONG_MIN (Z.min LONG_MAX v), (v <? LONG_MIN) || (LONG_MAX <? v)), rest).

(** ** get_num.c *)

Definition GN_NONNEG : Z := 1.
Definition GN_GT_0 : Z := 2.
Definition GN_ANY_BASE : Z := 64.
Definition GN_BASE_8 : Z := 128.
Definition GN_BASE_16 : Z := 256.
Definition INT_MAX : Z := 2 ^ 31 - 1.
Definition INT_MIN : Z := - 2 ^ 31.
Definition has (flags f : Z) : bool := negb (Z.land flags f =? 0).

(** The state is what has been written to the standard error. *)
Definition errput (bs : list Z) : M (list Z) unit := modify (fun o => o ++ bs).
Definition gnFail {A} (fname : string) (msg : string) (arg : option (list Z)) (name : option (list Z)) : M (list Z) A :=
  errput (bytes fname ++ bytes " error") ;;
  match name with Some nm => errput (bytes " (in " ++ nm ++ bytes ")") | None => mret tt end ;;
  errput (bytes ": " ++ bytes msg ++ [NEWLINE]) ;;
  match arg with Some (c :: a) => errput (bytes "        offending text: " ++ (c :: a) ++ [NEWLINE]) | _ => mret tt end ;;
  die (Exits 1).

Definition getNum (fname : string) (arg : option (list Z)) (flags : Z) (name : option (list Z)) : M (list Z) Z :=
  match arg with
  | None | Some [] => gnFail fname "null or empty string" arg name
  | Some a =>
      let base := if has flags GN_ANY_BASE then 0 else if has flags GN_BASE_8 then 8 else if has flags GN_BASE_16 then 16 else 10 in
      let '((res, erange), endptr) := strtol a base in
      if erange then gnFail fname "strtol() failed" arg name else
      if negb (bool_decide (endptr = [])) then gnFail fname "nonnumeric characters" arg name else
      if has flags GN_NONNEG && (res <? 0) then gnFail fname "negative value not allowed" arg name else
      if has flags GN_GT_0 && (res <=? 0) then gnFail fname "value must be > 0" arg name else
      mret res
  end.
Definition getLong (arg : option (list Z)) (flags : Z) (name : option (list Z)) : M (list Z) Z := getNum "getLong" arg flags name.
Definition getInt (arg : option (list Z)) (flags : Z) (name : option (list Z)) : M (list Z) Z :=
  res ← getNum "getInt" arg flags name;
  if (INT_MAX <? res) || (res <? INT_MIN) then gnFail "getInt" "integer out of range" arg name else mret res.

(** ** Conversion of decimal numerals *)

Lemma digit_val_digit c : isdigit c = true -> digit_val c = c - 48 /\ digit_val c <? 10 = true.
Proof. intros H. unfold digit_val. rewrite H. apply isdigit_range in H. split; [done|]. apply Z.ltb_lt. lia. Qed.
Lemma base_digits_10 s acc seen : Forall (fun c => isdigit c = true) s -> base_digits 10 acc seen s = ((digits_value acc s, match s with [] => seen | _ => true end), []).
Proof.
  intros H. revert acc seen. induction H as [|c s Hc _ IH]; intros acc seen; cbn [base_digits digits_value]; [done|].
  destruct (digit_val_digit c Hc) as [Hv Hb]. rewrite Hb, Hv, Hc, IH. by destruct s.
Qed.
Lemma sign_of_digit {A} c (s : list Z) (f : list Z -> A) (g : list Z -> A) (h : A) : isdigit c = true ->
  match c :: s with 45 :: t' => f t' | 43 :: t' => g t' | _ => h end = h.
Proof.
  intros H%isdigit_range. destruct c as [|p|p]; try done. do 6 (try destruct p as [p|p|]); try done; lia.
Qed.
Lemma udec_head n : 0 <= n -> exists c s, udec n = c :: s /\ isdigit c = true /\ Forall (fun c => isdigit c = true) (c :: s).
Proof.
  intros Hn. pose proof (udec_isdigit n Hn) as H. pose proof (udec_length_pos n) as Hl. destruct (udec n) as [|c s]; [cbn in Hl; lia|].
  exists c, s. split_and!; [done|by apply Forall_cons in H as [? _]|done].
Qed.
Lemma strtol_dec v : LONG_MIN <= v <= LONG_MAX -> strtol (dec v) 10 = ((v, false), []).
Proof.
  intros Hv. unfold strtol, dec. destruct (Z.ltb_spec v 0) as [Hs|Hs].
  - destruct (udec_head (- v) ltac:(lia)) as (c & s & E & Hc & Hf). cbn [skip_space isspace orb andb].
    change (isspace 45) with false. cbn iota. unfold radix. change ((10 =? 0) || (10 =? 16)) with false. cbn iota.
    rewrite (base_digits_10 (udec (- v)) 0 false) by (by rewrite E). rewrite udec_value by lia. rewrite E. cbn [negb].
    rewrite Z.opp_involutive. bfalse (v <? LONG_MIN). bfalse (LONG_MAX <? v). repeat f_equal. lia.
  - destruct (udec_head v Hs) as (c & s & E & Hc & Hf). pose proof (udec_value v Hs) as Hval. rewrite E in *. rewrite skip_space_digit by done.
    rewrite (sign_of_digit c s (fun t => (true, t)) (fun t => (false, t)) (false, c :: s) Hc).
    unfold radix. change ((10 =? 0) || (10 =? 16)) with false. cbn iota.
    rewrite (base_digits_10 (c :: s) 0 false Hf), Hval. cbn [negb]. bfalse (v <? LONG_MIN). bfalse (LONG_MAX <? v). repeat f_equal. lia.
Qed.

(** ** The numerals *)

Definition horner (b acc : Z) (ds : list Z) : Z := foldl (fun acc c => acc * b + digit_val c) acc ds.
(** The base [b] of the digits [ds] after the prefix [pre], for the base that was asked for; 0 asks for
    the base to be taken from the numeral. *)
Inductive prefix_base : Z -> list Z -> list Z -> Z -> Prop :=
  | PB_fixed base ds : base <> 0 -> prefix_base base [] ds base
  | PB_hex base x ds : base = 0 \/ base = 16 -> x = 120 \/ x = 88 -> prefix_base base [48; x] ds 16
  | PB_octal ds : head ds = Some 48 -> prefix_base 0 [] ds 8
  | PB_decimal ds : head ds <> Some 48 -> prefix_base 0 [] ds 10.
(** White space, a sign, a prefix and digits. *)
Definition numeral (base : Z) (a : list Z) (v : Z) : Prop :=
  exists sp sg pre ds b, a = sp ++ sg ++ pre ++ ds /\ Forall (fun c => isspace c = true) sp /\ (sg = [] \/ sg = [43] \/ sg = [45]) /\
    prefix_base base pre ds b /\ ds <> [] /\ Forall (fun c => digit_val c < b) ds /\ v = if bool_decide (sg = [45]) then - horner b 0 ds else horner b 0 ds.

Lemma base_digits_all b ds acc seen : Forall (fun c => digit_val c < b) ds ->
  base_digits b acc seen ds = ((horner b acc ds, match ds with [] => seen | _ => true end), []).
Proof.
  intros H. revert acc seen. induction H as [|c ds Hc _ IH]; intros acc seen; cbn [base_digits]; [done|]. btrue (digit_val c <? b). rewrite IH. by destruct ds.
Qed.
Lemma base_digits_inv b t acc seen v sn : base_digits b acc seen t = ((v, sn), []) -> Forall (fun c => digit_val c < b) t.
Proof.
  revert acc seen. induction t as [|c t IH]; intros acc seen; [by constructor|]. cbn [base_digits]. destruct (digit_val c <? b) eqn:E; [|done].
  intros H. bsimp. constructor; [done|by eapply IH].
Qed.
Lemma hex_prefix_eq s : hex_prefix s =
  match s with
  | z :: x :: c :: s' => if (z =? 48) && ((x =? 120) || (x =? 88)) && (digit_val c <? 16) then Some (c :: s') else None
  | _ => None
  end.
Proof.
  unfold hex_prefix. destruct s as [|z [|x [|c s]]]; try (destruct z as [|p|p]; try done; do 6 (try destruct p as [p|p|]); done). done.
Qed.
Definition sign_split (t : list Z) : bool * list Z :=
  match t with c :: t' => if c =? 45 then (true, t') else if c =? 43 then (false, t') else (false, t) | [] => (false, []) end.
Lemma sign_split_eq t : match t with 45 :: t' => (true, t') | 43 :: t' => (false, t') | _ => (false, t) end = sign_split t.
Proof. destruct t as [|c t]; [done|]. destruct c as [|p|p]; try done; do 6 (try destruct p as [p|p|]); done. Qed.

(** The characters of numerals. *)
Lemma digit_val_small c b : b <= 16 -> digit_val c < b -> isspace c = false /\ c <> 45 /\ c <> 43 /\ c <> 120 /\ c <> 88.
Proof.
  intros Hb Hc. assert (Hn : forall d, digit_val d = 36 \/ digit_val d = 33 -> c <> d) by (intros d Hd ->; lia).
  split; [|split_and!; apply Hn; vm_compute; auto]. destruct (isspace c) eqn:E; [|done]. exfalso. unfold isspace in E. unfold digit_val, isdigit in Hc.
  repeat case_match; bsimp; lia.
Qed.
Lemma prefix_base_small base pre ds b : base ∈ [0; 8; 10; 16] -> prefix_base base pre ds b -> b <= 16.
Proof. intros Hb H. set_unfold in Hb. destruct H; lia. Qed.

Lemma radix_prefix base pre ds b : base ∈ [0; 8; 10; 16] -> prefix_base base pre ds b -> ds <> [] -> Forall (fun c => digit_val c < b) ds -> radix base (pre ++ ds) = (b, ds).
Proof.
  intros Hb H Hne F. assert (Hnox : pre = [] -> b <= 16 -> hex_prefix ds = None).
  { intros _ H16. rewrite hex_prefix_eq. destruct ds as [|z [|x [|c ds]]]; try done. apply Forall_cons in F as [_ F]. apply Forall_cons in F as [Hx _].
    destruct (digit_val_small x b H16 Hx) as (_ & _ & _ & H1 & H2). bfalse (x =? 120). bfalse (x =? 88). cbn [orb]. by rewrite andb_false_r. }
  unfold radix. destruct H as [base ds Hz|base x ds Hz Hx|ds Hh|ds Hh]; cbn [app].
  - set_unfold in Hb. destruct (base =? 16) eqn:E; bsimp; [subst; rewrite Hnox by (done || lia); by destruct (16 =? 0)|]. bfalse (base =? 0). done.
  - destruct ds as [|c ds]; [done|]. apply Forall_cons in F as [Hc _]. rewrite hex_prefix_eq. change (48 =? 48) with true.
    assert (Hx' : (x =? 120) || (x =? 88) = true) by (destruct Hx as [-> | ->]; done). rewrite Hx'. btrue (digit_val c <? 16). destruct Hz as [-> | ->]; done.
  - change ((0 =? 0) || (0 =? 16)) with true. cbn iota. rewrite Hnox by (done || lia). change (0 =? 16) with false. cbn iota. by rewrite bool_decide_true.
  - change ((0 =? 0) || (0 =? 16)) with true. cbn iota. rewrite Hnox by (done || lia). change (0 =? 16) with false. cbn iota. by rewrite bool_decide_false.
Qed.
Lemma radix_inv base t b ds : base ∈ [0; 8; 10; 16] -> radix base t = (b, ds) -> exists pre, t = pre ++ ds /\ prefix_base base pre ds b.
Proof.
  intros Hb. unfold radix. destruct ((base =? 0) || (base =? 16)) eqn:E.
  - rewrite hex_prefix_eq. assert (Hnone : (if base =? 16 then 16 else if bool_decide (head t = Some 48) then 8 else 10, t) = (b, ds) -> exists pre, t = pre ++ ds /\ prefix_base base pre ds b).
    { intros [= <- <-]. exists []. split; [done|]. apply orb_prop in E. destruct (base =? 16) eqn:E16; bsimp; [subst; by apply PB_fixed|]. assert (base = 0) as -> by (destruct E; bsimp; lia).
      case_bool_decide; by constructor. }
    destruct t as [|z [|x [|c t]]]; try exact Hnone. destruct ((z =? 48) && ((x =? 120) || (x =? 88)) && (digit_val c <? 16)) eqn:Eh; [|exact Hnone].
    intros [= <- <-]. apply andb_prop in Eh as [[Hz%Z.eqb_eq Hx%orb_prop]%andb_prop _]. subst z. apply orb_prop in E. exists [48; x]. split; [done|].
    apply PB_hex; [destruct E as [E|E]; apply Z.eqb_eq in E; auto|destruct Hx as [E'|E']; apply Z.eqb_eq in E'; auto].
  - intros [= <- <-]. exists []. split; [done|]. apply PB_fixed. bsimp. done.
Qed.
Lemma skip_space_split a : exists sp, a = sp ++ skip_space a /\ Forall (fun c => isspace c = true) sp.
Proof.
  induction a as [|c a (sp & Ha & F)]; [by exists []|]. cbn [skip_space]. destruct (isspace c) eqn:E; [|by exists []].
  exists (c :: sp). split; [cbn; by rewrite <- Ha|by constructor].
Qed.
Lemma skip_space_all sp u : Forall (fun c => isspace c = true) sp -> (forall c, head u = Some c -> isspace c = false) -> skip_space (sp ++ u) = u.
Proof.
  intros F Hu. induction F as [|c sp Hc F IH]; cbn [app skip_space]; [|by rewrite Hc]. destruct u as [|c u]; [done|]. cbn [skip_space]. by rewrite (Hu c eq_refl).
Qed.

(** [strtol] takes the whole of an argument exactly when it is a numeral of a [long]. *)
Lemma numeral_head base pre ds b c : base ∈ [0; 8; 10; 16] -> prefix_base base pre ds b -> ds <> [] -> Forall (fun c => digit_val c < b) ds -> head (pre ++ ds) = Some c ->
  isspace c = false /\ c <> 45 /\ c <> 43.
Proof.
  intros Hb Hp Hne F Hc. pose proof (prefix_base_small _ _ _ _ Hb Hp) as H16.
  assert (Hd : forall d, head ds = Some d -> isspace d = false /\ d <> 45 /\ d <> 43).
  { destruct ds as [|d ds]; [done|]. intros ? [= <-]. apply Forall_cons in F as [Fd _]. destruct (digit_val_small d b H16 Fd) as (? & ? & ? & _). done. }
  destruct Hp; cbn [app head] in Hc; [by apply Hd|by injection Hc as <-|by apply Hd|by apply Hd].
Qed.
Lemma strtol_numeral base a v : base ∈ [0; 8; 10; 16] -> a <> [] ->
  strtol a base = ((v, false), []) <-> numeral base a v /\ LONG_MIN <= v <= LONG_MAX.
Proof.
  intros Hb Ha. unfold strtol. rewrite sign_split_eq. split.
  - destruct (skip_space_split a) as (sp & Esp & Fsp). destruct (sign_split (skip_space a)) as [neg t] eqn:Es.
    assert (Hsg : exists sg, skip_space a = sg ++ t /\ (sg = [] \/ sg = [43] \/ sg = [45]) /\ neg = bool_decide (sg = [45])).
    { unfold sign_split in Es. destruct (skip_space a) as [|c u]; [injection Es as <- <-; exists []; by auto|].
      destruct (c =? 45) eqn:E1; bsimp; [injection Es as <- <-; exists [45]; subst; auto|]. destruct (c =? 43) eqn:E2; bsimp; injection Es as <- <-; [exists [43]; subst; auto|exists []; auto]. }
    destruct Hsg as (sg & Esg & Hsg & ->). destruct (radix base t) as [b ds] eqn:Er. destruct (radix_inv base t b ds Hb Er) as (pre & Epre & Hpre).
    destruct (base_digits b 0 false ds) as [[w seen] rest] eqn:Ed. destruct seen; cbn [negb]; [|by intros [= _ ->]].
    intros [= Hv Hrange ->]. pose proof (base_digits_inv _ _ _ _ _ _ Ed) as F. rewrite (base_digits_all b ds 0 false F) in Ed. injection Ed as Ew Es'. subst w.
    assert (Hne : ds <> []) by (by destruct ds). bsimp. set (x := if bool_decide (sg = [45]) then - horner b 0 ds else horner b 0 ds) in *.
    assert (v = x) as -> by lia. split; [|lia]. exists sp, sg, pre, ds, b. split_and!; try done. by rewrite <- Epre, <- Esg.
  - intros [(sp & sg & pre & ds & b & -> & Fsp & Hsg & Hpre & Hne & F & Hv) Hr].
    pose proof (fun c => numeral_head base pre ds b c Hb Hpre Hne F) as Hhead.
    rewrite skip_space_all; [|done|].
    2: { intros c. destruct Hsg as [-> | [-> | ->]]; cbn [app head]; [intros Hc; by apply Hhead|intros [= <-]; done|intros [= <-]; done]. }
    assert (Es : sign_split (sg ++ pre ++ ds) = (bool_decide (sg = [45]), pre ++ ds)).
    { destruct Hsg as [-> | [-> | ->]]; [|done|done]. cbn [app]. unfold sign_split. destruct (pre ++ ds) as [|c u]; [done|].
      destruct (Hhead c eq_refl) as (_ & H1 & H2). bfalse (c =? 45). by bfalse (c =? 43). }
    rewrite Es, (radix_prefix base pre ds b Hb Hpre Hne F), (base_digits_all b ds 0 false F). destruct ds as [|d ds]; [done|]. cbn [negb]. rewrite <- Hv.
    bfalse (v <? LONG_MIN). bfalse (LONG_MAX <? v). repeat f_equal. lia.
Qed.

(** The tests a result passes. *)
Definition allowed (flags v : Z) : Prop := (has flags GN_NONNEG = true -> 0 <= v) /\ (has flags GN_GT_0 = true -> 0 < v).
Definition base_of (flags : Z) : Z := if has flags GN_ANY_BASE then 0 else if has flags GN_BASE_8 then 8 else if has flags GN_BASE_16 then 16 else 10.

Lemma base_of_range flags : base_of flags ∈ [0; 8; 10; 16].
Proof. unfold base_of. repeat case_match; set_solver. Qed.
Lemma numeral_nonempty base a v : numeral base a v -> a <> [].
Proof. intros (sp & sg & pre & ds & b & -> & _ & _ & _ & Hne & _). intros H. by apply app_eq_nil in H as [_ [_ [_ ?]%app_eq_nil]%app_eq_nil]. Qed.
Lemma numeral_unique base a v w : base ∈ [0; 8; 10; 16] -> numeral base a v -> numeral base a w -> LONG_MIN <= v <= LONG_MAX -> LONG_MIN <= w <= LONG_MAX -> v = w.
Proof.
  intros Hb Hv Hw Rv Rw. pose proof (numeral_nonempty _ _ _ Hv) as Ha. assert (E1 : strtol a base = ((v, false), [])) by (by apply strtol_numeral).
  assert (E2 : strtol a base = ((w, false), [])) by (by apply strtol_numeral). congruence.
Qed.
Lemma gnFail_exits {A} fname msg arg name o : exists o', gnFail (A := A) fname msg arg name o = Exit (Exits 1) o'.
Proof. unfold gnFail, errput, modify, mbind, M_bind. destruct name, arg as [[|]|]; cbn; by eexists. Qed.
Lemma getNum_cases fname arg flags name o :
  (exists a v, arg = Some a /\ a <> [] /\ strtol a (base_of flags) = ((v, false), []) /\ allowed flags v /\ getNum fname arg flags name o = Ret v o) \/
  ((forall a v, arg = Some a -> a <> [] -> strtol a (base_of flags) = ((v, false), []) -> ~ allowed flags v) /\
   exists o', getNum fname arg flags name o = Exit (Exits 1) o').
Proof.
  unfold getNum. fold (base_of flags). destruct arg as [[|c a]|]; [right; split; [naive_solver|apply gnFail_exits]| |right; split; [done|apply gnFail_exits]].
  destruct (strtol (c :: a) (base_of flags)) as [[v er] rest] eqn:E. destruct er; [right; split; [intros; simplify_eq; congruence|apply gnFail_exits]|].
  destruct (decide (rest = [])) as [->|Hr].
  2: { rewrite bool_decide_false by done. right. split; [intros; simplify_eq; congruence|apply gnFail_exits]. }
  rewrite bool_decide_true by done. cbn [negb]. destruct (has flags GN_NONNEG && (v <? 0)) eqn:E1.
  { bsimp. right. split; [|apply gnFail_exits]. intros ? v' [= <-] _ E' [H1 _]. rewrite E in E'. injection E' as <-. specialize (H1 H). lia. }
  destruct (has flags GN_GT_0 && (v <=? 0)) eqn:E2.
  { bsimp. right. split; [|apply gnFail_exits]. intros ? v' [= <-] _ E' [_ H1]. rewrite E in E'. injection E' as <-. specialize (H1 H). lia. }
  left. exists (c :: a), v. split_and!; try done. split; intros H; rewrite H in *; cbn in *; bsimp; lia.
Qed.

Lemma base_digits_stop s c r acc seen : Forall (fun c => isdigit c = true) s -> digit_val c <? 10 = false ->
  base_digits 10 acc seen (s ++ c :: r) = ((digits_value acc s, match s with [] => seen | _ => true end), c :: r).
Proof.
  intros H Hc. revert acc seen. induction H as [|d s Hd _ IH]; intros acc seen; cbn [base_digits digits_value app]; [by rewrite Hc|].
  destruct (digit_val_digit d Hd) as [Hv Hb]. rewrite Hb, Hv, Hd, IH. by destruct s.
Qed.
(** A number ends where its digits do. *)
Lemma strtol_dec_stop v c r : 0 <= v <= LONG_MAX -> digit_val c <? 10 = false -> strtol (dec v ++ c :: r) 10 = ((v, false), c :: r).
Proof.
  intros Hv Hc. unfold strtol. rewrite dec_nonneg by lia.
  destruct (udec_head v ltac:(lia)) as (d & s & E & Hd & Hf). pose proof (udec_value v ltac:(lia)) as Hval. rewrite E in *.
  rewrite skip_space_digit by done. cbn [app].
  rewrite (sign_of_digit d (s ++ c :: r) (fun t => (true, t)) (fun t => (false, t)) (false, d :: s ++ c :: r) Hd).
  unfold radix. change ((10 =? 0) || (10 =? 16)) with false. cbn iota.
  change (d :: s ++ c :: r) with ((d :: s) ++ c :: r). rewrite (base_digits_stop (d :: s) c r 0 false Hf Hc), Hval. cbn [negb].
  assert (LONG_MIN <= 0) by (unfold LONG_MIN; lia). bfalse (v <? LONG_MIN). bfalse (LONG_MAX <? v). repeat f_equal. lia.
Qed.
