(* ===== verification/InetSockets.v ===== *)
(** Creating Internet sockets: [src/tlpi-dist/sockets/inet_sockets.c], and the two loops of
    [is_seqnum_sv.c] and [is_seqnum_cl.c] that do the same without it. *)
From S2P Require Import Prelude CStr.

(** ** Sockets *)

Inductive sock := Created | Bound (len : Z) | Listening (len : Z) | Connected.
(** An address that [getaddrinfo] returned, with what the calls on it are going to answer. *)
Record addr := Addr { a_len : Z; a_socket : bool; a_reuse : bool; a_bind : bool; a_connect : bool }.
(** The open sockets, the lists of addresses allocated and not freed, [errno]. *)
Record inet := Inet { i_socks : gmap Z sock; i_lists : Z; i_errno : Z }.
Definition set_socks (f : gmap Z sock -> gmap Z sock) (s : inet) : inet := Inet (f (i_socks s)) (i_lists s) (i_errno s).
Definition add_list (d : Z) (s : inet) : inet := Inet (i_socks s) (i_lists s + d) (i_errno s).
Definition set_errno (e : Z) (s : inet) : inet := Inet (i_socks s) (i_lists s) e.
Definition ENOSYS : Z := 38.

(** A kernel gives a new socket a descriptor that is not in use, at least zero. *)
Class SockKernel := {
  newfd : gmap Z sock -> Z;
  newfd_fresh : forall m, m !! newfd m = None;
  newfd_nonneg : forall m, 0 <= newfd m
}.

Section Sockets.
Context {K : SockKernel}.

Definition k_socket (a : addr) : M inet Z := fun s =>
  if a_socket a then let fd := newfd (i_socks s) in Ret fd (set_socks (<[fd := Created]>) s) else Ret (-1) s.
Definition k_mark (ok : bool) (fd : Z) (x : sock) : M inet Z := fun s =>
  if ok then Ret 0 (set_socks (<[fd := x]>) s) else Ret (-1) s.
Definition k_close (fd : Z) : M inet unit := modify (set_socks (delete fd)).
(** [getaddrinfo]: none: it fails. *)
Definition getaddrinfo (gai : option (list addr)) : M inet (option (list addr)) := fun s =>
  match gai with Some l => Ret (Some l) (add_list 1 s) | None => Ret None s end.
Definition freeaddrinfo : M inet unit := modify (add_list (-1)).

(** ** inet_sockets.c *)

(** The loop of [inetConnect]: the last [sfd], or [rp == NULL]. *)
Fixpoint connect_loop (l : list addr) : M inet (option Z) :=
  match l with
  | [] => mret None
  | a :: l' =>
      sfd ← k_socket a;
      if sfd =? -1 then connect_loop l' else
      c ← k_mark (a_connect a) sfd Connected;
      if negb (c =? -1) then mret (Some sfd) else
      k_close sfd ;; connect_loop l'
  end.
Definition inetConnect (gai : option (list addr)) : M inet Z :=
  s ← getaddrinfo gai;
  match s with
  | None => modify (set_errno ENOSYS) ;; mret (-1)
  | Some result =>
      sfd ← connect_loop result;
      freeaddrinfo ;;
      mret (match sfd with None => -1 | Some fd => fd end)
  end.

(** The loop of [inetPassiveSocket]: it returns -1 at once, or finds a socket and its address, or none. *)
Inductive passive := Fails | NoAddress | Found (fd : Z) (a : addr).
Fixpoint bind_loop (doListen : bool) (l : list addr) : M inet passive :=
  match l with
  | [] => mret NoAddress
  | a :: l' =>
      sfd ← k_socket a;
      if sfd =? -1 then bind_loop doListen l' else
      if doListen && negb (a_reuse a) then k_close sfd ;; freeaddrinfo ;; mret Fails else
      b ← k_mark (a_bind a) sfd (Bound (a_len a));
      if b =? 0 then mret (Found sfd a) else
      k_close sfd ;; bind_loop doListen l'
  end.
(** [addrlen] is returned beside the descriptor where it is stored. *)
Definition inetPassiveSocket (gai : option (list addr)) (doListen : bool) (listen_ok : bool) : M inet (Z * option Z) :=
  s ← getaddrinfo gai;
  match s with
  | None => mret (-1, None)
  | Some result =>
      r ← bind_loop doListen result;
      match r with
      | Fails => mret (-1, None)
      | NoAddress => freeaddrinfo ;; mret (-1, None)
      | Found sfd a =>
          if doListen then
            x ← k_mark listen_ok sfd (Listening (a_len a));
            if x =? -1 then freeaddrinfo ;; mret (-1, None)
            else freeaddrinfo ;; mret (sfd, Some (a_len a))
          else freeaddrinfo ;; mret (sfd, Some (a_len a))
      end
  end.
Definition inetListen (gai : option (list addr)) (listen_ok : bool) : M inet (Z * option Z) := inetPassiveSocket gai true listen_ok.
Definition inetBind (gai : option (list addr)) : M inet (Z * option Z) := inetPassiveSocket gai false true.

(** [inetAddressStr]: the names that [getnameinfo] finds, cut to the caller's buffer; none: it fails. *)
Definition inetAddressStr (names : option (list Z * list Z)) (addrStrLen : Z) : list Z :=
  take (Z.to_nat (addrStrLen - 1))
    match names with
    | Some (host, service) => bytes "(" ++ host ++ bytes ", " ++ service ++ bytes ")"
    | None => bytes "(?UNKNOWN?)"
    end.

(** ** The programs that do it themselves *)

(** [is_seqnum_sv.c]: failures end the program. *)
Fixpoint sv_bind_loop (l : list addr) : M inet (option (Z * addr)) :=
  match l with
  | [] => mret None
  | a :: l' =>
      lfd ← k_socket a;
      if lfd =? -1 then sv_bind_loop l' else
      if negb (a_reuse a) then die (Err_sys "setsockopt") else
      b ← k_mark (a_bind a) lfd (Bound (a_len a));
      if b =? 0 then mret (Some (lfd, a)) else
      k_close lfd ;; sv_bind_loop l'
  end.
Definition sv_listen (gai : option (list addr)) (listen_ok : bool) : M inet Z :=
  s ← getaddrinfo gai;
  match s with
  | None => die (Err_sys "getaddrinfo")
  | Some result =>
      r ← sv_bind_loop result;
      match r with
      | None => die (Err_quit "Could not bind socket to any address")
      | Some (lfd, a) =>
          x ← k_mark listen_ok lfd (Listening (a_len a));
          if x =? -1 then die (Err_sys "listen") else freeaddrinfo ;; mret lfd
      end
  end.
(** [is_seqnum_cl.c] *)
Definition cl_connect (gai : option (list addr)) : M inet Z :=
  s ← getaddrinfo gai;
  match s with
  | None => die (Err_sys "getaddrinfo")
  | Some result =>
      cfd ← connect_loop result;
      match cfd with
      | None => die (Err_quit "Could not connect socket to any address")
      | Some fd => freeaddrinfo ;; mret fd
      end
  end.

(** ** What the loops compute *)

(** The first address that can be used, before one whose options cannot be set. *)
Fixpoint first_bound (doListen : bool) (l : list addr) : option (option addr) :=
  match l with
  | [] => None
  | a :: l' => if negb (a_socket a) then first_bound doListen l' else if doListen && negb (a_reuse a) then Some None
               else if a_bind a then Some (Some a) else first_bound doListen l'
  end.
Definition connectable (l : list addr) : bool := existsb (fun a => a_socket a && a_connect a) l.

Lemma set_socks_set f g s : set_socks f (set_socks g s) = set_socks (f ∘ g) s.
Proof. done. Qed.
Lemma set_socks_same f s : f (i_socks s) = i_socks s -> set_socks f s = s.
Proof. destruct s. unfold set_socks. cbn. by intros ->. Qed.
Lemma close_new s x : set_socks (delete (newfd (i_socks s)) ∘ <[newfd (i_socks s) := x]>) s = s.
Proof. apply set_socks_same. cbn. apply delete_insert_id, newfd_fresh. Qed.
Lemma socket_ok a s : a_socket a = true -> k_socket a s = Ret (newfd (i_socks s)) (set_socks (<[newfd (i_socks s) := Created]>) s).
Proof. unfold k_socket. by intros ->. Qed.
Lemma socket_fails a s : a_socket a = false -> k_socket a s = Ret (-1) s.
Proof. unfold k_socket. by intros ->. Qed.
Lemma newfd_test m : newfd m =? -1 = false.
Proof. apply Z.eqb_neq. pose proof (newfd_nonneg m). lia. Qed.
Lemma mark_new s fd x y : k_mark true fd y (set_socks (<[fd := x]>) s) = Ret 0 (set_socks (<[fd := y]>) s).
Proof. unfold k_mark, set_socks. cbn. by rewrite insert_insert_eq. Qed.

Lemma connect_loop_spec l s : connect_loop l s =
  if connectable l then Ret (Some (newfd (i_socks s))) (set_socks (<[newfd (i_socks s) := Connected]>) s) else Ret None s.
Proof.
  induction l as [|a l IH]; [done|]. cbn [connect_loop connectable existsb]. destruct (a_socket a) eqn:Ea; cbn [andb].
  - rewrite (bind_ret _ _ _ _ _ (socket_ok a s Ea)), newfd_test. destruct (a_connect a); cbn [orb].
    + by rewrite (bind_ret _ _ _ _ _ (mark_new s _ Created Connected)).
    + rewrite bind_ret with (a := -1) (s' := set_socks (<[newfd (i_socks s) := Created]>) s) by done. cbn [negb Z.eqb]. change (-1 =? -1) with true. cbn [negb].
      rewrite bind_ret with (a := tt) (s' := s); [exact IH|]. unfold k_close, modify. by rewrite set_socks_set, close_new.
  - rewrite (bind_ret _ _ _ _ _ (socket_fails a s Ea)). exact IH.
Qed.

Lemma bind_loop_spec d l s : bind_loop d l s =
  match first_bound d l with
  | None => Ret NoAddress s
  | Some None => Ret Fails (add_list (-1) s)
  | Some (Some a) => Ret (Found (newfd (i_socks s)) a) (set_socks (<[newfd (i_socks s) := Bound (a_len a)]>) s)
  end.
Proof.
  induction l as [|a l IH]; [done|]. cbn [bind_loop first_bound]. destruct (a_socket a) eqn:Ea; cbn [negb].
  - rewrite (bind_ret _ _ _ _ _ (socket_ok a s Ea)), newfd_test.
    assert (Hc : forall x, k_close (newfd (i_socks s)) (set_socks (<[newfd (i_socks s) := x]>) s) = Ret tt s).
    { intros x. unfold k_close, modify. by rewrite set_socks_set, close_new. }
    destruct (d && negb (a_reuse a)); [by rewrite (bind_ret _ _ _ _ _ (Hc _))|]. destruct (a_bind a).
    + by rewrite (bind_ret _ _ _ _ _ (mark_new s _ Created _)).
    + rewrite bind_ret with (a := -1) (s' := set_socks (<[newfd (i_socks s) := Created]>) s) by done. change (-1 =? 0) with false. cbn iota.
      by rewrite (bind_ret _ _ _ _ _ (Hc _)).
  - rewrite (bind_ret _ _ _ _ _ (socket_fails a s Ea)). exact IH.
Qed.
Lemma sv_bind_loop_spec l s : sv_bind_loop l s =
  match first_bound true l with
  | None => Ret None s
  | Some None => Exit (Err_sys "setsockopt") (set_socks (<[newfd (i_socks s) := Created]>) s)
  | Some (Some a) => Ret (Some (newfd (i_socks s), a)) (set_socks (<[newfd (i_socks s) := Bound (a_len a)]>) s)
  end.
Proof.
  induction l as [|a l IH]; [done|]. cbn [sv_bind_loop first_bound]. destruct (a_socket a) eqn:Ea; cbn [negb].
  - rewrite (bind_ret _ _ _ _ _ (socket_ok a s Ea)), newfd_test. cbn [andb]. destruct (negb (a_reuse a)); [done|]. destruct (a_bind a).
    + by rewrite (bind_ret _ _ _ _ _ (mark_new s _ Created _)).
    + rewrite bind_ret with (a := -1) (s' := set_socks (<[newfd (i_socks s) := Created]>) s) by done. change (-1 =? 0) with false. cbn iota.
      rewrite bind_ret with (a := tt) (s' := s); [exact IH|]. unfold k_close, modify. by rewrite set_socks_set, close_new.
  - rewrite (bind_ret _ _ _ _ _ (socket_fails a s Ea)). exact IH.
Qed.

Lemma add_list_back s : add_list (-1) (add_list 1 s) = s.
Proof. destruct s. unfold add_list. cbn. f_equal. lia. Qed.
Lemma add_list_socks d f s : add_list d (set_socks f s) = set_socks f (add_list d s).
Proof. done. Qed.

Lemma inetPassiveSocket_spec gai d lok s : let fd := newfd (i_socks s) in
  inetPassiveSocket gai d lok s =
  match gai ≫= first_bound d with
  | Some (Some a) =>
      if d && negb lok then Ret (-1, None) (set_socks (<[fd := Bound (a_len a)]>) s)
      else Ret (fd, Some (a_len a)) (set_socks (<[fd := if d then Listening (a_len a) else Bound (a_len a)]>) s)
  | _ => Ret (-1, None) s
  end.
Proof.
  intros fd. unfold inetPassiveSocket. destruct gai as [l|]; [|done]. rewrite bind_ret with (a := Some l) (s' := add_list 1 s) by done.
  unfold mbind at 1, M_bind at 1. rewrite bind_loop_spec. cbn [option_bind mbind]. change (option_bind _ _ (first_bound d) (Some l)) with (first_bound d l).
  destruct (first_bound d l) as [[a|]|].
  - change (newfd (i_socks (add_list 1 s))) with fd. destruct d; cbn [andb].
    + destruct lok; cbn [negb].
      * rewrite (bind_ret _ _ _ _ _ (mark_new _ fd _ _)). change (0 =? -1) with false. cbn iota.
        unfold freeaddrinfo, modify, mbind, M_bind. by rewrite add_list_socks, add_list_back.
      * unfold freeaddrinfo, modify, mbind, M_bind, k_mark. change (-1 =? -1) with true. cbn iota. cbn beta. by rewrite add_list_socks, add_list_back.
    + unfold freeaddrinfo, modify, mbind, M_bind. by rewrite add_list_socks, add_list_back.
  - by rewrite add_list_back.
  - unfold freeaddrinfo, modify, mbind, M_bind. by rewrite add_list_back.
Qed.
Lemma inetConnect_spec gai s : inetConnect gai s =
  match gai with
  | None => Ret (-1) (set_errno ENOSYS s)
  | Some l => if connectable l then Ret (newfd (i_socks s)) (set_socks (<[newfd (i_socks s) := Connected]>) s) else Ret (-1) s
  end.
Proof.
  unfold inetConnect. destruct gai as [l|]; [|done]. rewrite bind_ret with (a := Some l) (s' := add_list 1 s) by done.
  unfold mbind at 1, M_bind at 1. rewrite connect_loop_spec. destruct (connectable l); unfold freeaddrinfo, modify, mbind, M_bind.
  - by rewrite add_list_socks, add_list_back.
  - by rewrite add_list_back.
Qed.
End Sockets.

(** The lowest descriptor not in use, as POSIX requires, is such a kernel. *)
Definition lowest (m : gmap Z sock) : Z :=
  default 0 (snd <$> list_find (fun n => m !! n = None) (seqZ 0 (Z.of_nat (size m) + 1))).
Lemma lowest_free m : m !! lowest m = None /\ 0 <= lowest m.
Proof.
  unfold lowest. destruct (list_find _ _) as [[i n]|] eqn:E; cbn.
  - apply list_find_Some in E as (Hl & Hn & _). split; [done|]. apply lookup_seqZ in Hl as [-> _]. lia.
  - exfalso. apply list_find_None in E. rewrite Forall_forall in E.
    assert (Hs : list_to_set (seqZ 0 (Z.of_nat (size m) + 1)) ⊆ dom m).
    { intros n Hn%elem_of_list_to_set. apply elem_of_dom. destruct (m !! n) eqn:En; [done|]. by apply E in Hn. }
    apply subseteq_size in Hs. rewrite size_dom, size_list_to_set in Hs by apply NoDup_seqZ. rewrite length_seqZ in Hs. lia.
Qed.
#[export, refine] Instance posix_sockets : SockKernel := {| newfd := lowest |}.
Proof. all: intros m; apply lowest_free. Defined.
