(* ===== verification/SeqNum.v ===== *)
(** The sequence number services of [src/tlpi-dist]: over stream sockets,
    [sockets/is_seqnum_sv.c] and [is_seqnum_v2_sv.c] with the client [is_seqnum_cl.c], and over
    FIFOs, [pipes/fifo_seqnum_server.c] with [fifo_seqnum_client.c]. *)
From S2P Require Import Prelude CStr LineRead GetNum.

Definition INT_LEN : Z := 30.

(** A sequence given out: its start, its length, and the bytes that went to the client. *)
Record grant := Grant { g_start : Z; g_len : Z; g_sent : list Z }.

(** ** is_seqnum_sv.c *)

(** [seqNum], the buffer [reqLenStr], and how many connections are open. *)
Record server := Server { sv_seq : Z; sv_line : list Z; sv_open : Z }.
Definition opened (d : Z) : M server unit := modify (fun s => Server (sv_seq s) (sv_line s) (sv_open s + d)).
(** A connection, with what the client is going to send and what [write] to it is going to do. *)
Inductive conn := AcceptError | Client (evs : list revent) (w : wevent).

Definition sv_init (arg : option (list Z)) : M (list Z) Z :=
  match arg with
  | Some a => n ← getInt (Some a) 0 (Some (bytes "init-seq-num")); mret (uwrap 32 n)
  | None => mret 0
  end.
(** [readLine(cfd, reqLenStr, INT_LEN)] *)
Definition sv_readLine (evs : list revent) : M server Z := fun s =>
  match readLine INT_LEN (Rio evs (Some (sv_line s))) with
  | Ret n r => Ret n (Server (sv_seq s) (default [] (r_user r)) (sv_open s))
  | Exit e _ => Exit e s
  end.
Definition snprintf (n : Z) (text : list Z) : list Z := take (Z.to_nat (n - 1)) text.
Definition written (w : wevent) (bs : list Z) : list Z := match w with Takes k => take k bs | _ => [] end.

Definition serve (c : conn) : M server (option grant) :=
  match c with
  | AcceptError => mret None
  | Client evs w =>
      opened 1 ;;
      n ← sv_readLine evs;
      if n <=? 0 then opened (-1) ;; mret None else
      s ← get;
      let reqLen := atoi (sv_line s) in
      if reqLen <=? 0 then opened (-1) ;; mret None else
      let seqNumStr := snprintf INT_LEN (dec (swrap 32 (sv_seq s)) ++ [NEWLINE]) in
      let sent := written w seqNumStr in
      modify (fun s => Server (uwrap 32 (sv_seq s + reqLen)) (sv_line s) (sv_open s)) ;;
      opened (-1) ;;
      mret (Some (Grant (sv_seq s) reqLen sent))
  end.

(** The iterative server: the connections it handles, one after the other. *)
Fixpoint handle {S C} (serve : C -> M S (option grant)) (cs : list C) : M S (list grant) :=
  match cs with
  | [] => mret []
  | c :: cs' =>
      g ← serve c;
      gs ← handle serve cs';
      mret (match g with Some g => g :: gs | None => gs end)
  end.
Definition is_seqnum_sv : list conn -> M server (list grant) := handle serve.

(** ** is_seqnum_v2_sv.c *)

(** Here the buffer is a variable of the loop's block and holds anything. *)
Record server2 := Server2 { sv2_seq : Z; sv2_open : Z }.
Definition opened_v2 (d : Z) : M server2 unit := modify (fun s => Server2 (sv2_seq s) (sv2_open s + d)).
Definition v2_readLine (evs : list revent) (junk : list Z) : M server2 (Z * list Z) := fun s =>
  match readLine INT_LEN (Rio evs (Some junk)) with
  | Ret n r => Ret (n, default [] (r_user r)) s
  | Exit e _ => Exit e s
  end.
Definition serve_v2 (jc : list Z * conn) : M server2 (option grant) :=
  match jc.2 with
  | AcceptError => mret None
  | Client evs w =>
      opened_v2 1 ;;
      r ← v2_readLine evs jc.1;
      if r.1 <=? 0 then opened_v2 (-1) ;; mret None else
      let reqLen := atoi r.2 in
      if reqLen <=? 0 then opened_v2 (-1) ;; mret None else
      s ← get;
      let seqNumStr := snprintf INT_LEN (dec (swrap 32 (sv2_seq s)) ++ [NEWLINE]) in
      let sent := written w seqNumStr in
      modify (fun s => Server2 (uwrap 32 (sv2_seq s + reqLen)) (sv2_open s)) ;;
      opened_v2 (-1) ;;
      mret (Some (Grant (sv2_seq s) reqLen sent))
  end.
Definition is_seqnum_v2_sv : list (list Z * conn) -> M server2 (list grant) := handle serve_v2.

(** ** is_seqnum_cl.c, after it is connected *)

Record client := Cl { cl_sent : list Z; cl_evs : list revent; cl_out : list Z }.
Definition cl_write (bs : list Z) (w : wevent) : M client Z := fun s =>
  match w with
  | Takes k => Ret (Z.of_nat (Nat.min k (length bs))) (Cl (cl_sent s ++ take k bs) (cl_evs s) (cl_out s))
  | _ => Ret (-1) s
  end.
Definition cl_readLine (junk : list Z) : M client (Z * list Z) := fun s =>
  match readLine INT_LEN (Rio (cl_evs s) (Some junk)) with
  | Ret n r => Ret (n, default [] (r_user r)) (Cl (cl_sent s) (r_evs r) (cl_out s))
  | Exit e _ => Exit e s
  end.
Definition cl_print (bs : list Z) : M client unit := modify (fun s => Cl (cl_sent s) (cl_evs s) (cl_out s ++ bs)).
Definition is_seqnum_cl (arg : option (list Z)) (w1 w2 : wevent) (junk : list Z) : M client unit :=
  let reqLenStr := default (bytes "1") arg in
  n1 ← cl_write reqLenStr w1;
  if negb (n1 =? Z.of_nat (length reqLenStr)) then die (Err_quit "Partial/failed write (reqLenStr)") else
  n2 ← cl_write [NEWLINE] w2;
  if negb (n2 =? 1) then die (Err_quit "Partial/failed write (newline)") else
  r ← cl_readLine junk;
  if r.1 =? -1 then die (Err_sys "readLine") else
  if r.1 =? 0 then die (Err_quit "Unexpected EOF from server") else
  cl_print (bytes "Sequence number: " ++ cstr r.2) ;;
  die (Exits 0).

(** ** fifo_seqnum_server.c *)

Record request := Request { req_pid : Z; req_seqLen : Z }.
(** A read of the server's FIFO finds a request whole or not; whether the client's FIFO
    can be opened, and what [write] to it is going to do. *)
Inductive fifo_event := FifoPartial | FifoRequest (req : request) (can_open : bool) (write_ok : bool).
Definition resp_bytes (z : Z) : list Z := map (fun i => (uwrap 32 z / 256 ^ i) mod 256) [0; 1; 2; 3].
(** The state is [seqNum]; signed overflow has no meaning in C. *)
Definition fifo_serve (e : fifo_event) : M Z (option grant) := fun seqNum =>
  match e with
  | FifoPartial => Ret None seqNum
  | FifoRequest req can_open write_ok =>
      if negb can_open then Ret None seqNum else
      let sent := if write_ok then resp_bytes seqNum else [] in
      let seqNum' := seqNum + req_seqLen req in
      if (INT_MAX <? seqNum') || (seqNum' <? INT_MIN) then Exit (Undefined "seqNum += req.seqLen") seqNum
      else Ret (Some (Grant seqNum (req_seqLen req) sent)) seqNum'
  end.
Definition fifo_seqnum_server : list fifo_event -> M Z (list grant) := handle fifo_serve.

(** What [mkfifo] answers. *)
Inductive mkfifo_result := MkOk | MkExists | MkFails.
(** The start of the server: its FIFO is made or there already, and opened for reading and for
    writing, so that it never ends. *)
Definition SERVER_FIFO : list Z := bytes "/tmp/seqnum_sv".
Definition fifo_server_start (mk : mkfifo_result) (rd_ok wr_ok signal_ok : bool) : M (gset (list Z)) unit :=
  (match mk with
   | MkOk => modify (union {[SERVER_FIFO]})
   | MkExists => mret tt
   | MkFails => die (Err_sys "mkfifo")
   end) ;;
  if negb rd_ok then die (Err_sys "open") else
  if negb wr_ok then die (Err_sys "open") else
  if negb signal_ok then die (Err_sys "signal") else mret tt.

(** ** fifo_seqnum_client.c *)

(** The FIFOs in the file system, the requests written to the server, the standard output and error. *)
Record fclient := FClient { fc_fifos : gset (list Z); fc_sent : list request; fc_out : list Z; fc_err : list Z }.
Definition set_fifos (f : gset (list Z) -> gset (list Z)) (s : fclient) : fclient := FClient (f (fc_fifos s)) (fc_sent s) (fc_out s) (fc_err s).
Definition client_fifo (pid : Z) : list Z := bytes "/tmp/seqnum_cl." ++ dec pid.
Definition removeFifo (pid : Z) : fclient -> fclient := set_fifos (fun X => X ∖ {[client_fifo pid]}).
(** A function registered with [atexit] runs when the program ends. *)
Definition at_exit {S A} (f : S -> S) (m : M S A) : M S A := fun s =>
  match m s with Exit e s' => Exit e (f s') | Ret a s' => Ret a s' end.

(** The request it sends. *)
Definition fifo_request (pid : Z) (arg : option (list Z)) : M (list Z) request :=
  match arg with
  | Some a => n ← getInt (Some a) GN_GT_0 (Some (bytes "seq-len")); mret (Request pid n)
  | None => mret (Request pid 1)
  end.
(** [sv_ok], [wr_ok], [own_ok]: the server's FIFO can be opened and written, its own can be opened; [resp]: the answer, if it arrives whole. *)
Definition fifo_client (pid : Z) (arg : option (list Z)) (mk : mkfifo_result) (atexit_ok sv_ok wr_ok own_ok : bool) (resp : option Z) : M fclient unit :=
  (match mk with
   | MkOk => modify (set_fifos (union {[client_fifo pid]}))
   | MkExists => mret tt
   | MkFails => die (Err_sys "mkfifo")
   end) ;;
  if negb atexit_ok then die (Err_sys "atexit") else
  at_exit (removeFifo pid) (
    req ← zoom fc_err (fun e s => FClient (fc_fifos s) (fc_sent s) (fc_out s) e) (fifo_request pid arg);
    if negb sv_ok then die (Err_sys "open") else
    if negb wr_ok then die (Err_quit "Can't write to server") else
    modify (fun s => FClient (fc_fifos s) (fc_sent s ++ [req]) (fc_out s) (fc_err s)) ;;
    if negb own_ok then die (Err_sys "open") else
    match resp with
    | None => die (Err_quit "Can't read response from server")
    | Some n =>
        modify (fun s => FClient (fc_fifos s) (fc_sent s) (fc_out s ++ dec n ++ [NEWLINE]) (fc_err s)) ;;
        die (Exits 0)
    end).
