(* ===== verification/SeqNumSpec.v ===== *)
(** What a sequence number service promises ([SeqService]): each grant starts where
    the one before it ended, modulo [2^32].  The servers of [SeqNum] are instances; that
    grants never overlap follows from the promise alone. *)
From S2P Require Import Prelude CStr LineRead GetNum SeqNum.

Definition W : Z := 2 ^ 32.

(** [serve] handles a client from the states of [ok]; [good] clients keep to the protocol. *)
Class SeqService {S C} (serve : C -> M S (option grant)) (ok : S -> Prop) (counter : S -> Z) (good : C -> Prop) : Prop := {
  service_step : forall c s, ok s -> good c ->
    match serve c s with
    | Ret None s' => ok s' /\ counter s' = counter s
    | Ret (Some g) s' => ok s' /\ g_start g = counter s /\ 0 < g_len g /\ counter s' mod W = (counter s + g_len g) mod W
    | Exit _ _ => True
    end
}.

(** Grants that follow each other from [seq] to [final]. *)
Fixpoint consecutive (seq : Z) (gs : list grant) (final : Z) : Prop :=
  match gs with
  | [] => final mod W = seq mod W
  | g :: gs' => g_start g mod W = seq mod W /\ 0 < g_len g /\ consecutive (seq + g_len g) gs' final
  end.
Definition total (gs : list grant) : Z := foldr (fun g n => g_len g + n) 0 gs.
(** No number belongs to two of them. *)
Definition disjoint_grants (gs : list grant) : Prop :=
  forall i j g h x y, (i < j)%nat -> gs !! i = Some g -> gs !! j = Some h -> 0 <= x < g_len g -> 0 <= y < g_len h ->
    (g_start g + x) mod W <> (g_start h + y) mod W.

Lemma consecutive_cong a b gs f : a mod W = b mod W -> consecutive a gs f -> consecutive b gs f.
Proof.
  revert a b. induction gs as [|g gs IH]; intros a b E; cbn; [congruence|]. intros (H1 & H2 & H3). split_and!; [congruence|done|].
  eapply IH; [|exact H3]. by rewrite Zplus_mod, E, <- Zplus_mod.
Qed.
Lemma total_nonneg seq gs f : consecutive seq gs f -> 0 <= total gs.
Proof. revert seq. induction gs as [|g gs IH]; intros seq; cbn; [lia|]. intros (_ & H & Hc). specialize (IH _ Hc). unfold total in *. lia. Qed.
Lemma consecutive_offset seq gs f j h : consecutive seq gs f -> gs !! j = Some h ->
  exists o, 0 <= o /\ 0 < g_len h /\ o + g_len h <= total gs /\ g_start h mod W = (seq + o) mod W.
Proof.
  revert seq j. induction gs as [|g gs IH]; intros seq j; [done|]. cbn [consecutive total foldr]. intros (H1 & H2 & H3) Hj. destruct j as [|j].
  - injection Hj as <-. exists 0. rewrite Z.add_0_r. pose proof (total_nonneg _ _ _ H3). unfold total in *. split_and!; (done || lia).
  - destruct (IH _ _ H3 Hj) as (o & ? & ? & ? & E). exists (g_len g + o). rewrite E, Z.add_assoc. unfold total in *. split_and!; (done || lia).
Qed.
Lemma mod_neq a d : 0 < d < W -> a mod W <> (a + d) mod W.
Proof.
  intros Hd E. assert (Hz : d mod W = 0).
  { replace d with ((a + d) - a) by lia. rewrite Zminus_mod, <- E, Z.sub_diag. done. }
  rewrite Z.mod_small in Hz by lia. lia.
Qed.
Lemma consecutive_disjoint seq gs f : consecutive seq gs f -> total gs <= W -> disjoint_grants gs.
Proof.
  revert seq. induction gs as [|g gs IH]; intros seq H Ht i j a b x y Hij Hi Hj Hx Hy; [done|]. pose proof H as (H1 & H2 & H3).
  cbn [total foldr] in Ht. fold (total gs) in Ht. destruct j as [|j]; [lia|]. destruct i as [|i].
  - injection Hi as ->. destruct (consecutive_offset _ _ _ _ _ H3 Hj) as (o & Ho & _ & Hl & E).
    rewrite (Zplus_mod (g_start a)), H1, <- Zplus_mod, (Zplus_mod (g_start b)), E, <- Zplus_mod.
    replace (seq + g_len a + o + y) with (seq + x + (g_len a + o + y - x)) by lia. apply mod_neq. lia.
  - apply (IH _ H3 ltac:(lia) i j a b); (done || lia).
Qed.

Section Service.
Context {S C} (serve : C -> M S (option grant)) (ok : S -> Prop) (counter : S -> Z) (good : C -> Prop) `{!SeqService serve ok counter good}.

Lemma handle_consecutive cs s gs s' : ok s -> Forall good cs -> handle serve cs s = Ret gs s' ->
  ok s' /\ consecutive (counter s) gs (counter s').
Proof.
  intros Hs G. revert s gs Hs. induction G as [|c cs Hc G IH]; intros s gs Hs; cbn [handle].
  { intros [= <- <-]. done. }
  unfold mbind at 1, M_bind at 1. pose proof (service_step c s Hs Hc) as H. destruct (serve c s) as [g s1|]; [|done].
  unfold mbind at 1, M_bind at 1. destruct (handle serve cs s1) as [gs1 s2|] eqn:E; [|done]. intros [= <- <-]. destruct g as [g|].
  - destruct H as (Ok1 & Hg & Hl & Hn). destruct (IH s1 gs1 Ok1 E) as [Ok2 Hc2]. split; [done|]. cbn [consecutive].
    split_and!; [by rewrite Hg|done|]. by eapply consecutive_cong.
  - destruct H as [Ok1 Hn]. rewrite <- Hn. by apply IH.
Qed.
End Service.

(** ** The servers *)

(** What [readLine] does with any descriptor, whatever its buffer holds: the value returned, the
    characters stored, whether the null byte was; or that it waits for ever. *)
Record line_read := LineRead { lr_ret : Z; lr_text : list Z; lr_nul : bool; lr_evs : list revent; lr_waits : bool }.
Fixpoint line_ref (fuel m : nat) (acc : list Z) (evs : list revent) : line_read :=
  match fuel with
  | O => LineRead 0 acc false evs false
  | S fuel =>
      match sread 1 evs with
      | (REintr, l) => line_ref fuel m acc l
      | (RError, l) => LineRead (-1) acc false l false
      | (RBlocks, l) => LineRead (-1) acc false l true
      | (Got [], l) => LineRead (Z.of_nat (length acc)) acc (negb (length acc =? 0)%nat) l false
      | (Got (ch :: _), l) =>
          let acc' := take m (acc ++ [ch]) in
          if ch =? NEWLINE then LineRead (Z.of_nat (length acc')) acc' true l false else line_ref fuel m acc' l
      end
  end.
Definition lr_buf (x : line_read) (ub : list Z) : list Z := poke (lr_text x ++ if lr_nul x then [NUL] else []) ub.

Lemma sread_weight k evs : (1 <= k)%nat -> evs <> [] -> (sread k evs).1 <> RBlocks -> (weight (sread k evs).2 < weight evs)%nat.
Proof.
  intros Hk Hn Hb. unfold weight. destruct evs as [|[bs| | |] l]; cbn; [done| |lia|lia|done]. destruct (drop k bs) as [|x r] eqn:E; cbn; [lia|].
  pose proof (f_equal length (take_drop k bs)) as H. rewrite E, length_app in H. cbn in H. assert (k <= length bs)%nat.
  { destruct (Nat.le_gt_cases (length bs) k); [|lia]. by rewrite drop_ge in E. } rewrite length_take in H. lia.
Qed.
Lemma readLine_loop_ref fuel m acc evs ub : (weight evs < fuel)%nat -> (length acc <= m)%nat -> (m < length ub)%nat ->
  let x := line_ref fuel m acc evs in
  let y := readLine_loop fuel (Z.of_nat m + 1) (length acc) (Rio evs (Some (poke acc ub))) in
  (if lr_waits x then exists s', y = Exit Loops s' else y = Ret (lr_ret x) (Rio (lr_evs x) (Some (lr_buf x ub)))) /\
  (length (lr_text x) <= m)%nat /\ (lr_ret x = -1 \/ lr_ret x = Z.of_nat (length (lr_text x)) /\ (lr_text x <> [] -> lr_nul x = true)).
Proof.
  intros Hf Ha Hm. revert acc evs Hf Ha. induction fuel as [|fuel IH]; intros acc evs Hf Ha; [lia|]. cbn [readLine_loop line_ref].
  destruct (sread 1 evs) as [r l] eqn:E. cbn zeta. rewrite (bind_ret _ _ _ _ _ (rd_run 1 (Rio evs (Some (poke acc ub))) r l E)). cbn [r_user].
  assert (Hw : evs <> [] -> r <> RBlocks -> (weight l < fuel)%nat).
  { intros Hne Hr. pose proof (sread_weight 1 evs ltac:(lia) Hne) as Hw. rewrite E in Hw. cbn [fst snd] in Hw. specialize (Hw Hr). lia. }
  destruct r as [[|ch bs]| | |]; cbn [lr_ret lr_text lr_nul lr_evs lr_waits lr_buf].
  - destruct acc as [|c acc]; [by split_and!; [|cbn; lia|right]|]. cbn [length Nat.eqb negb]. change (S (length acc)) with (length (c :: acc)) in *.
    rewrite (bind_ret _ _ _ _ _ (store_poke (c :: acc) [NUL] ub l ltac:(cbn [length] in *; lia))). by split_and!; [| |right].
  - assert (Hne : evs <> []) by (intros ->; cbn in E; simplify_eq). specialize (Hw Hne ltac:(done)).
    replace (Z.of_nat m + 1 - 1) with (Z.of_nat m) by lia. destruct (store_fits m acc ch ub l Ha ltac:(lia)) as [Hst Hlen].
    rewrite (bind_ret _ _ _ _ _ Hst), Hlen. assert (Hacc : (length (take m (acc ++ [ch])) <= m)%nat) by (rewrite length_take; lia).
    destruct (ch =? NEWLINE); [|by apply IH]. cbn [lr_ret lr_text lr_nul lr_evs lr_waits lr_buf].
    rewrite (bind_ret _ _ _ _ _ (store_poke (take m (acc ++ [ch])) [NUL] ub l ltac:(cbn [length]; lia))). by split_and!; [| |right].
  - assert (Hne : evs <> []) by (intros ->; cbn in E; simplify_eq). by apply IH; [apply Hw|].
  - unfold lr_buf. cbn [lr_text lr_nul]. rewrite app_nil_r. by split_and!; [| |left].
  - split_and!; [by eexists|done|by left].
Qed.
(** Reading a line from it never ends: there is no newline before the peer falls silent. *)
Fixpoint stalls (evs : list revent) : bool :=
  match evs with
  | [] | Bytes [] :: _ | Failed :: _ => false
  | Bytes bs :: l => if existsb (fun c => c =? NEWLINE) bs then false else stalls l
  | Interrupted :: l => stalls l
  | Silent :: _ => true
  end.
Lemma stalls_cons ch bs l : stalls (Bytes (ch :: bs) :: l) = if ch =? NEWLINE then false else stalls (match bs with [] => l | _ => Bytes bs :: l end).
Proof. cbn [stalls existsb]. destruct (ch =? NEWLINE); [done|]. by destruct bs. Qed.
Lemma line_ref_waits fuel m acc evs : (weight evs < fuel)%nat -> lr_waits (line_ref fuel m acc evs) = stalls evs.
Proof.
  revert acc evs. induction fuel as [|fuel IH]; intros acc evs Hf; [lia|]. unfold weight in *.
  destruct evs as [|[[|ch bs]| | |] l]; cbn [line_ref sread stalls take drop]; try done; [|apply IH; cbn in Hf; lia].
  pose proof (stalls_cons ch bs l) as Hs. cbn [stalls] in Hs. rewrite Hs. destruct (ch =? NEWLINE); [done|]. destruct bs as [|b bs]; apply IH; cbn in Hf |- *; lia.
Qed.
Definition line29 (evs : list revent) : line_read := line_ref (S (weight evs)) 29 [] evs.
Lemma readLine_ref evs ub : length ub = 30%nat ->
  let x := line29 evs in let y := readLine INT_LEN (Rio evs (Some ub)) in
  (if stalls evs then exists s', y = Exit Loops s' else y = Ret (lr_ret x) (Rio (lr_evs x) (Some (lr_buf x ub)))) /\
  (length (lr_text x) <= 29)%nat /\ (lr_ret x = -1 \/ lr_ret x = Z.of_nat (length (lr_text x)) /\ (lr_text x <> [] -> lr_nul x = true)).
Proof.
  intros Hub. rewrite <- (line_ref_waits (S (weight evs)) 29 [] evs) by lia. apply (readLine_loop_ref (S (weight evs)) 29 [] evs ub); cbn; lia.
Qed.
Lemma lr_buf_length evs ub : length ub = 30%nat -> length (lr_buf (line29 evs) ub) = 30%nat.
Proof.
  intros Hub. destruct (readLine_ref evs ub Hub) as (_ & H & _). unfold lr_buf, poke. rewrite !length_app, length_drop.
  destruct (lr_nul _); cbn [length]; lia.
Qed.

(** The number in a line does not depend on what follows its null byte. *)
Lemma digits_value_nul s b1 b2 acc : digits_value acc (s ++ 0 :: b1) = digits_value acc (s ++ 0 :: b2).
Proof. revert acc. induction s as [|c s IH]; intros acc; cbn [app digits_value]; [done|]. destruct (isdigit c); [apply IH|done]. Qed.
Lemma skip_space_nul s : exists t, forall b, skip_space (s ++ 0 :: b) = t ++ 0 :: b.
Proof.
  induction s as [|c s [t IH]]; [by exists []|]. cbn [app skip_space]. destruct (isspace c); [by exists t|by exists (c :: s)].
Qed.
Lemma atoi_nul s b1 b2 : atoi (s ++ 0 :: b1) = atoi (s ++ 0 :: b2).
Proof.
  unfold atoi, strtol10. destruct (skip_space_nul s) as [t Ht]. rewrite !Ht. do 3 f_equal. destruct t as [|c t]; [done|]. cbn [app].
  pose proof (digits_value_nul t b1 b2 0) as H1. pose proof (digits_value_nul (c :: t) b1 b2 0) as H2. cbn [app] in H2.
  destruct c as [|p|p]; try done. do 6 (try destruct p as [p|p|]); try done; by rewrite ?H1.
Qed.

Lemma serve_run evs w s : length (sv_line s) = 30%nat -> stalls evs = false ->
  let x := line29 evs in let line := lr_buf x (sv_line s) in let k := atoi line in
  serve (Client evs w) s =
  if (lr_ret x <=? 0) || (k <=? 0) then Ret None (Server (sv_seq s) line (sv_open s))
  else Ret (Some (Grant (sv_seq s) k (written w (snprintf INT_LEN (dec (swrap 32 (sv_seq s)) ++ [NEWLINE])))))
           (Server (uwrap 32 (sv_seq s + k)) line (sv_open s)).
Proof.
  intros Hl Hst. destruct (readLine_ref evs (sv_line s) Hl) as (E & _). rewrite Hst in E. cbn zeta. set (x := line29 evs) in *.
  destruct s as [q l o]. cbn [sv_line sv_seq sv_open] in *. unfold serve.
  rewrite bind_ret with (a := tt) (s' := Server q l (o + 1)) by done.
  rewrite bind_ret with (a := lr_ret x) (s' := Server q (lr_buf x l) (o + 1)).
  2: { unfold sv_readLine. cbn [sv_line sv_seq sv_open]. by rewrite E. }
  assert (Hc : forall q l, opened (-1) (Server q l (o + 1)) = Ret tt (Server q l o)).
  { intros q' l'. unfold opened, modify. cbn. do 2 f_equal. lia. }
  destruct (lr_ret x <=? 0); cbn [orb]; [by rewrite (bind_ret _ _ _ _ _ (Hc _ _))|].
  rewrite bind_ret with (a := Server q (lr_buf x l) (o + 1)) (s' := Server q (lr_buf x l) (o + 1)) by done. cbn [sv_line sv_seq].
  destruct (atoi (lr_buf x l) <=? 0); [by rewrite (bind_ret _ _ _ _ _ (Hc _ _))|].
  rewrite bind_ret with (a := tt) (s' := Server (uwrap 32 (q + atoi (lr_buf x l))) (lr_buf x l) (o + 1)) by done.
  by rewrite (bind_ret _ _ _ _ _ (Hc _ _)).
Qed.
Lemma serve_stalled evs w s : length (sv_line s) = 30%nat -> stalls evs = true ->
  serve (Client evs w) s = Exit Loops (Server (sv_seq s) (sv_line s) (sv_open s + 1)).
Proof.
  intros Hl Hst. destruct (readLine_ref evs (sv_line s) Hl) as (E & _). rewrite Hst in E. destruct E as [s' E]. unfold serve.
  rewrite bind_ret with (a := tt) (s' := Server (sv_seq s) (sv_line s) (sv_open s + 1)) by done. apply bind_exit. unfold sv_readLine. cbn [sv_line]. by rewrite E.
Qed.
Lemma serve_v2_run junk evs w s : length junk = 30%nat -> stalls evs = false ->
  let x := line29 evs in let k := atoi (lr_buf x junk) in
  serve_v2 (junk, Client evs w) s =
  if (lr_ret x <=? 0) || (k <=? 0) then Ret None s
  else Ret (Some (Grant (sv2_seq s) k (written w (snprintf INT_LEN (dec (swrap 32 (sv2_seq s)) ++ [NEWLINE])))))
           (Server2 (uwrap 32 (sv2_seq s + k)) (sv2_open s)).
Proof.
  intros Hl Hst. destruct (readLine_ref evs junk Hl) as (E & _). rewrite Hst in E. cbn zeta. set (x := line29 evs) in *.
  destruct s as [q o]. cbn [sv2_seq sv2_open] in *. unfold serve_v2. cbn [fst snd].
  rewrite bind_ret with (a := tt) (s' := Server2 q (o + 1)) by done.
  rewrite bind_ret with (a := (lr_ret x, lr_buf x junk)) (s' := Server2 q (o + 1)) by (unfold v2_readLine; by rewrite E). cbn [fst snd].
  assert (Hc : forall q, opened_v2 (-1) (Server2 q (o + 1)) = Ret tt (Server2 q o)).
  { intros q'. unfold opened_v2, modify. cbn. do 2 f_equal. lia. }
  destruct (lr_ret x <=? 0); cbn [orb]; [by rewrite (bind_ret _ _ _ _ _ (Hc _))|].
  destruct (atoi (lr_buf x junk) <=? 0); [by rewrite (bind_ret _ _ _ _ _ (Hc _))|].
  rewrite bind_ret with (a := Server2 q (o + 1)) (s' := Server2 q (o + 1)) by done. cbn [sv2_seq].
  rewrite bind_ret with (a := tt) (s' := Server2 (uwrap 32 (q + atoi (lr_buf x junk))) (o + 1)) by done.
  by rewrite (bind_ret _ _ _ _ _ (Hc _)).
Qed.
Lemma serve_v2_stalled junk evs w s : length junk = 30%nat -> stalls evs = true ->
  serve_v2 (junk, Client evs w) s = Exit Loops (Server2 (sv2_seq s) (sv2_open s + 1)).
Proof.
  intros Hl Hst. destruct (readLine_ref evs junk Hl) as (E & _). rewrite Hst in E. destruct E as [s' E]. unfold serve_v2. cbn [fst snd].
  rewrite bind_ret with (a := tt) (s' := Server2 (sv2_seq s) (sv2_open s + 1)) by done. apply bind_exit. unfold v2_readLine. by rewrite E.
Qed.
Lemma line_number evs b1 b2 : length b1 = 30%nat -> length b2 = 30%nat -> 0 < lr_ret (line29 evs) ->
  atoi (lr_buf (line29 evs) b1) = atoi (lr_buf (line29 evs) b2).
Proof.
  intros H1 H2 Hr. destruct (readLine_ref evs b1 H1) as (_ & _ & [H|[H Hn]]); [lia|]. unfold lr_buf, poke.
  rewrite Hn by (intros E; rewrite E in H; cbn [length] in H; lia). rewrite <- !app_assoc. apply atoi_nul.
Qed.

(** ** Instances *)

Definition sv_ok (s : server) : Prop := length (sv_line s) = 30%nat.
Lemma uwrap_W z : uwrap 32 z mod W = z mod W.
Proof. unfold uwrap, W. by rewrite Z.mod_mod. Qed.
#[export] Instance is_seqnum_service : SeqService serve sv_ok sv_seq (fun _ => True).
Proof.
  split. intros c s Hok _. destruct c as [|evs w]; [done|]. destruct (stalls evs) eqn:Est; [by rewrite serve_stalled|].
  rewrite serve_run by done. cbn zeta. pose proof (lr_buf_length evs (sv_line s) Hok) as Hb.
  destruct (_ || _) eqn:E; [done|]. bsimp. split_and!; [done|done|cbn [g_len]; lia|]. cbn [sv_seq g_len]. apply uwrap_W.
Qed.
#[export] Instance is_seqnum_v2_service : SeqService serve_v2 (fun _ => True) sv2_seq (fun c => length c.1 = 30%nat).
Proof.
  split. intros [junk [|evs w]] s _ Hj; [done|]. destruct (stalls evs) eqn:Est; [by rewrite serve_v2_stalled|]. rewrite serve_v2_run by done. cbn zeta.
  destruct (_ || _) eqn:E; [done|]. bsimp. split_and!; [done|done|cbn [g_len]; lia|]. cbn [sv2_seq g_len]. apply uwrap_W.
Qed.
(** The FIFO server does not look at the length asked for. *)
Definition good_request (e : fifo_event) : Prop := match e with FifoRequest req _ _ => 0 < req_seqLen req | FifoPartial => True end.
#[export] Instance fifo_seqnum_service : SeqService fifo_serve (fun _ => True) id good_request.
Proof.
  split. intros [|req o w] s _ Hg; [done|]. cbn. destruct o; [|done]. cbn. by destruct (_ || _).
Qed.
