(* ===== verification/SeqNumTheorems.v ===== *)
(** The theorems on line reading, numeric arguments, sockets and the sequence number
    services of [src/tlpi-dist]. *)
From S2P Require Import Prelude CStr LineRead GetNum InetSockets SeqNum SeqNumSpec.

(** ** Reading lines *)

(** A sequence of calls, each with a buffer of its own of the size given, and the text
    that each returns. *)
Fixpoint line_calls (ns : list Z) : M rio (list (Z * list Z)) :=
  match ns with
  | [] => mret []
  | n :: ns' =>
      modify (fun s => Rio (r_evs s) (Some (replicate (Z.to_nat n) 170))) ;;
      r ← readLine n;
      s ← get;
      l ← line_calls ns';
      mret ((r, take (Z.to_nat r) (default [] (r_user s))) :: l)
  end.
Fixpoint buf_calls (ns : list Z) : M (ReadLineBuf * rio) (list (Z * list Z)) :=
  match ns with
  | [] => mret []
  | n :: ns' =>
      modify (fun '(b, s) => (b, Rio (r_evs s) (Some (replicate (Z.to_nat n) 170)))) ;;
      r ← readLineBuf n;
      s ← get;
      l ← buf_calls ns';
      mret ((r, take (Z.to_nat r) (default [] (r_user s.2))) :: l)
  end.
(** What they should return: the lines of the input, cut to the sizes. *)
Fixpoint lines_of (ns : list Z) (bs : list Z) : list (Z * list Z) :=
  match ns with
  | [] => []
  | n :: ns' =>
      let L := first_line bs in
      (Z.of_nat (length (take (Z.to_nat n) L)), take (Z.to_nat n) L) :: lines_of ns' (drop (length L) bs)
  end.
(** And what the calls of [readLineBuf] return when reads are interrupted: -1 for a call that meets an
    interruption, while the part of the line before it is lost, and the lines for the others. *)
Fixpoint broken_lines (ns : list Z) (l : list (option Z)) : list (Z * list Z) :=
  match ns with
  | [] => []
  | n :: ns' =>
      let '(L, l') := line_items [] l in
      (match L with Some L => (Z.of_nat (length (take (Z.to_nat n) L)), take (Z.to_nat n) L) | None => (-1, []) end) :: broken_lines ns' l'
  end.
Lemma broken_lines_all ns bs : broken_lines ns (map Some bs) = lines_of ns bs.
Proof. revert bs. induction ns as [|n ns IH]; intros bs; [done|]. cbn [broken_lines lines_of]. rewrite line_items_all. cbn [app]. by rewrite IH. Qed.

Lemma take_poke bs ub : (length bs <= length ub)%nat -> take (length bs) (poke bs ub) = bs.
Proof. intros. unfold poke. by rewrite take_app_length. Qed.
Lemma take_terminated st ub : take (length st) (terminated st ub) = st.
Proof. destruct st as [|c st]; [done|]. cbn [terminated]. unfold poke. rewrite <- app_assoc. by rewrite take_app_length. Qed.
Lemma line_calls_spec int ns evs u : Forall (fun n => 1 <= n) ns -> plain int evs ->
  exists s, line_calls (map (Z.add 1) ns) (Rio evs u) = Ret (lines_of ns (waiting evs)) s.
Proof.
  intros H. revert evs u. induction H as [|n ns Hn _ IH]; intros evs u P; [by eexists|]. cbn [line_calls map lines_of].
  rewrite bind_ret with (a := tt) (s' := Rio evs (Some (replicate (Z.to_nat (1 + n)) 170))) by done.
  destruct (readLine_spec int (replicate (Z.to_nat (1 + n)) 170) (1 + n) evs) as (evs' & P' & Hw & E); [rewrite length_replicate; lia|done|].
  rewrite (bind_ret _ _ _ _ _ E). replace (1 + n - 1) with n in * by lia.
  set (st := take (Z.to_nat n) (first_line (waiting evs))) in *. set (ub := terminated st _). unfold get at 1.
  rewrite bind_ret with (a := Rio evs' (Some ub)) (s' := Rio evs' (Some ub)) by done.
  destruct (IH evs' (Some ub) P') as [s Es]. rewrite (bind_ret _ _ _ _ _ Es). exists s. cbn [r_user default from_option id]. subst ub. by rewrite Nat2Z.id, take_terminated, Hw.
Qed.
Lemma buf_calls_spec ns b evs u : Forall (fun n => 1 <= n) ns -> rlb_ok b -> plain true evs ->
  exists s, buf_calls ns (b, Rio evs u) = Ret (broken_lines ns (map Some (pending b) ++ items evs)) s.
Proof.
  intros H. revert b evs u. induction H as [|n ns Hn _ IH]; intros b evs u B P; [by eexists|]. cbn [buf_calls broken_lines].
  rewrite bind_ret with (a := tt) (s' := (b, Rio evs (Some (replicate (Z.to_nat n) 170)))) by done.
  destruct (readLineBuf_spec (replicate (Z.to_nat n) 170) n b evs) as (b' & evs' & u' & B' & P' & Hw & E); [rewrite length_replicate; lia|done|done|].
  destruct (line_items [] _) as [[L|] l']; cbn [fst snd] in *; rewrite (bind_ret _ _ _ _ _ E).
  - set (st := take (Z.to_nat n) L) in *. set (ub := poke st _). rewrite bind_ret with (a := (b', Rio evs' (Some ub))) (s' := (b', Rio evs' (Some ub))) by done.
    destruct (IH b' evs' (Some ub) B' P') as [s Es]. rewrite (bind_ret _ _ _ _ _ Es). exists s. cbn [r_user snd default from_option id].
    subst ub. rewrite Nat2Z.id, take_poke, Hw; [done|]. subst st. rewrite length_take, length_replicate. lia.
  - rewrite bind_ret with (a := (b', Rio evs' u')) (s' := (b', Rio evs' u')) by done. destruct (IH b' evs' u' B' P') as [s Es]. rewrite (bind_ret _ _ _ _ _ Es). exists s. by rewrite Hw.
Qed.

(** C22: on input that comes to its end without an error, and where no read is interrupted, [readLineBuf] is [readLine] with a buffer: on the same bytes, whatever pieces the reads
    deliver them in, any sequence of calls returns the same lines, those of the input cut to the sizes asked
    for ([readLine] needs a byte more for its terminating null).  Interruptions do not change what [readLine] returns; a
    call of [readLineBuf] that one of its reads interrupts returns -1 and loses the part of the line before the
    interruption, and the calls after it return the lines of what follows. *)
Theorem readLineBuf_equals_readLine ns evs1 evs2 junk u :
  Forall (fun n => 1 <= n) ns -> plain true evs1 -> plain true evs2 -> waiting evs1 = waiting evs2 -> length junk = RL_MAX_BUF ->
  exists s1 s2,
    line_calls (map (Z.add 1) ns) (Rio evs1 u) = Ret (lines_of ns (waiting evs1)) s1 /\
    buf_calls ns (readLineBufInit junk, Rio evs2 u) = Ret (broken_lines ns (items evs2)) s2 /\
    (Interrupted ∉ evs2 -> broken_lines ns (items evs2) = lines_of ns (waiting evs1)).
Proof.
  intros Hn P1 P2 Hw Hj. destruct (line_calls_spec true ns evs1 u Hn P1) as [s1 E1].
  destruct (buf_calls_spec ns (readLineBufInit junk) evs2 u Hn) as [s2 E2]; [by split_and!|done|]. exists s1, s2. split_and!; [done|exact E2|].
  intros Hni. rewrite items_plain, broken_lines_all, Hw; [done|]. apply Forall_forall. intros e He. unfold plain in P2. rewrite Forall_forall in P2. specialize (P2 e He). by destruct e.
Qed.
Lemma readLineBuf_equals_readLine_witness :
  exists s1 s2,
    line_calls (map (Z.add 1) [3; 1; 5]) (Rio [Bytes [97; 98]; Interrupted; Bytes [10; 99]; Bytes [100; 10; 101]] None) = Ret (lines_of [3; 1; 5] [97; 98; 10; 99; 100; 10; 101]) s1 /\
    buf_calls [3; 1; 5] (readLineBufInit (replicate 10 0), Rio [Bytes [97; 98; 10; 99; 100]; Interrupted; Bytes [10; 101]] None) = Ret [(3, [97; 98; 10]); (-1, []); (1, [10])] s2.
Proof.
  destruct (readLineBuf_equals_readLine [3; 1; 5] [Bytes [97; 98]; Interrupted; Bytes [10; 99]; Bytes [100; 10; 101]]
    [Bytes [97; 98; 10; 99; 100]; Interrupted; Bytes [10; 101]] (replicate 10 0) None) as (s1 & s2 & E1 & E2 & _).
  - repeat constructor; lia.
  - by repeat constructor.
  - by repeat constructor.
  - reflexivity.
  - reflexivity.
  - exists s1, s2. split; [exact E1|exact E2].
Defined.
Example lines_of_sample : lines_of [3; 1; 5] [97; 98; 10; 99; 100; 10; 101] = [(3, [97; 98; 10]); (1, [99]); (1, [101])].
Proof. reflexivity. Qed.

(** An interrupted [readLineBuf] returns an error and the part of the line it had is lost;
    [readLine] goes on. *)
Theorem readLineBuf_interrupted : exists b s s',
  readLineBuf 5 (readLineBufInit (replicate 10 0), Rio [Bytes [97; 98]; Interrupted; Bytes [99; 10]] (Some [0; 0; 0; 0; 0])) = Ret (-1) (b, s) /\
  pending b ++ waiting (r_evs s) = [99; 10] /\
  readLine 5 (Rio [Bytes [97; 98]; Interrupted; Bytes [99; 10]] (Some [0; 0; 0; 0; 0])) = Ret 4 s' /\ r_user s' = Some [97; 98; 99; 10; 0].
Proof. vm_compute. do 3 eexists. split_and!; reflexivity. Qed.

(** ** Blocks *)

(** What [writen] writes, in however many pieces and with whatever interruptions, [readn]
    reads back. *)
Theorem writen_readn_roundtrip bs wevs pieces revs rest ub :
  takes wevs -> plain true revs -> waiting revs = bs ++ rest -> (length bs <= length ub)%nat ->
  exists wevs' ps, tlpi_writen bs (Wio wevs pieces) = Ret (Z.of_nat (length bs)) (Wio wevs' (pieces ++ ps)) /\ concat ps = bs /\
  exists revs', tlpi_readn (length bs) (Rio revs (Some ub)) = Ret (Z.of_nat (length bs)) (Rio revs' (Some (poke bs ub))) /\ waiting revs' = rest.
Proof.
  intros T P Hw Hub. destruct (tlpi_writen_spec bs wevs pieces T) as (wevs' & ps & H1 & _ & _ & E1). exists wevs', ps. split_and!; [done|done|].
  destruct (tlpi_readn_spec true ub (length bs) revs Hub P) as (revs' & _ & H2 & E2). exists revs'. rewrite Hw in *.
  rewrite drop_app_length in H2. rewrite length_app, Nat.min_l, take_app_length in E2 by lia. by split.
Qed.

(** ** Numeric arguments *)

(** C27: [getInt] returns exactly the values of the numerals it is meant to accept: the whole argument is white space,
    a sign, a prefix and digits, all but the digits optional, in the base that the flags name (10 without
    a flag, 8, 16 with or without 0x, or any, which the prefix 0 or 0x tells), the value fits an [int], and the flags
    allow it.  For every other argument, and for none, it ends the program with status 1. *)
Theorem getInt_accepts_exactly arg flags name o :
  (forall v o', getInt arg flags name o = Ret v o' <->
     o' = o /\ exists a, arg = Some a /\ numeral (base_of flags) a v /\ INT_MIN <= v <= INT_MAX /\ allowed flags v) /\
  ((exists v, getInt arg flags name o = Ret v o) \/ exists o', getInt arg flags name o = Exit (Exits 1) o').
Proof.
  assert (Hcases : (exists a v, arg = Some a /\ numeral (base_of flags) a v /\ INT_MIN <= v <= INT_MAX /\ allowed flags v /\ getInt arg flags name o = Ret v o) \/
    ((forall a v, arg = Some a -> numeral (base_of flags) a v -> INT_MIN <= v <= INT_MAX -> ~ allowed flags v) /\ exists o', getInt arg flags name o = Exit (Exits 1) o')).
  { unfold getInt. destruct (getNum_cases "getInt" arg flags name o) as [(a & v & -> & Ha & Es & Hal & E)|[Hno [o' E]]].
    - rewrite (bind_ret _ _ _ _ _ E). pose proof Es as Hn. apply (strtol_numeral _ _ _ (base_of_range flags) Ha) in Hn as [Hn Hlr]. destruct (_ || _) eqn:Er.
      + right. split; [|apply gnFail_exits]. intros a' v' [= <-] Hn' Hv' _. assert (v' = v) as ->; [|unfold INT_MIN, INT_MAX in *; apply orb_prop in Er; destruct Er; bsimp; lia].
        apply (numeral_unique (base_of flags) a); (done || apply base_of_range || unfold INT_MIN, INT_MAX, LONG_MIN, LONG_MAX in *; lia).
      + left. exists a, v. bsimp. by split_and!.
    - right. split; [|exists o'; by apply bind_exit]. intros a v -> Hn Hv Hal. apply (Hno a v eq_refl); [by apply numeral_nonempty in Hn| |done].
      apply strtol_numeral; [apply base_of_range|by apply numeral_nonempty in Hn|]. split; [done|]. unfold INT_MIN, INT_MAX, LONG_MIN, LONG_MAX in *. lia. }
  destruct Hcases as [(a & v & -> & Hn & Hv & Hal & E)|[Hno [o1 E]]]; rewrite E.
  - split; [|left; by exists v]. intros v' o'. split.
    + intros [= <- <-]. split; [done|]. by exists a.
    + intros (-> & a' & [= <-] & Hn' & Hv' & _). do 1 f_equal.
      apply (numeral_unique (base_of flags) a); (done || apply base_of_range || unfold INT_MIN, INT_MAX, LONG_MIN, LONG_MAX in *; lia).
  - split; [|right; by exists o1]. intros v o'. split; [done|]. intros (_ & a & -> & Hn & Hv & Hal). by destruct (Hno a v eq_refl Hn Hv).
Qed.
Example getInt_samples :
  getInt (Some (bytes "0x1F")) GN_ANY_BASE None [] = Ret 31 [] /\
  getInt (Some (bytes "-12")) 0 None [] = Ret (-12) [] /\
  getInt (Some (bytes "  +017")) GN_ANY_BASE None [] = Ret 15 [] /\
  getInt (Some (bytes "ff")) GN_BASE_16 None [] = Ret 255 [] /\
  (exists o, getInt (Some (bytes "08")) GN_ANY_BASE None [] = Exit (Exits 1) o) /\
  (exists o, getInt (Some (bytes "12abc")) 0 None [] = Exit (Exits 1) o) /\
  (exists o, getInt (Some (bytes "2147483648")) 0 None [] = Exit (Exits 1) o) /\
  (exists o, getInt (Some (bytes "99999999999999999999")) 0 None [] = Exit (Exits 1) o).
Proof. vm_compute. split_and!; repeat (by eexists || reflexivity). Qed.

(** ** Sockets *)

Section SocketTheorems.
Context {K : SockKernel}.

(** [inetListen] tries the addresses in order.  On success one new socket is open, listening
    at the first address that works; the program [is_seqnum_sv], which has the loop in
    its [main], then gets the same socket, and ends in the cases in which [inetListen] returns -1.
    After a failure no socket is left open, except that a failing [listen] leaves its
    socket, bound and not closed; the list of addresses is always freed. *)
Theorem inetListen_outcome gai lok s :
  exists r addrlen s', inetListen gai lok s = Ret (r, addrlen) s' /\ i_lists s' = i_lists s /\ i_errno s' = i_errno s /\
  match gai ≫= first_bound true with
  | Some (Some a) =>
      i_socks s !! newfd (i_socks s) = None /\
      if lok then
        r = newfd (i_socks s) /\ 0 <= r /\ addrlen = Some (a_len a) /\ i_socks s' = <[r := Listening (a_len a)]> (i_socks s) /\ sv_listen gai lok s = Ret r s'
      else r = -1 /\ i_socks s' = <[newfd (i_socks s) := Bound (a_len a)]> (i_socks s) /\ exists s'', sv_listen gai lok s = Exit (Err_sys "listen") s''
  | _ => r = -1 /\ s' = s /\ exists e s'', sv_listen gai lok s = Exit e s''
  end.
Proof.
  unfold inetListen. rewrite inetPassiveSocket_spec. unfold sv_listen. destruct gai as [l|]; cbn [mbind option_bind].
  2: by exists (-1), None, s; split_and!; try done; exists (Err_sys "getaddrinfo"), s.
  rewrite (bind_ret (getaddrinfo (Some l)) _ s (Some l) (add_list 1 s)) by done. unfold mbind, M_bind. rewrite sv_bind_loop_spec.
  change (option_bind _ _ (first_bound true) (Some l)) with (first_bound true l).
  destruct (first_bound true l) as [[a|]|].
  - pose proof (newfd_fresh (i_socks s)) as Hf. pose proof (newfd_nonneg (i_socks s)) as Hp.
    destruct lok; cbn [negb andb]; do 3 eexists; (split; [done|]); (split_and!; try done).
    + rewrite mark_new. change (0 =? -1) with false. cbn beta iota. unfold freeaddrinfo, modify. by rewrite add_list_socks, add_list_back.
    + eexists. done.
  - exists (-1), None, s. split_and!; try done. by do 2 eexists.
  - exists (-1), None, s. split_and!; try done. by do 2 eexists.
Qed.
(** [inetConnect]: a socket connected to the first address that works, or nothing left behind. *)
Theorem inetConnect_outcome gai s :
  exists r s', inetConnect gai s = Ret r s' /\ i_lists s' = i_lists s /\
  match gai with
  | Some l => if connectable l then i_socks s !! r = None /\ 0 <= r /\ i_socks s' = <[r := Connected]> (i_socks s) /\ cl_connect gai s = Ret r s'
              else r = -1 /\ i_socks s' = i_socks s /\ exists e s'', cl_connect gai s = Exit e s''
  | None => r = -1 /\ i_socks s' = i_socks s /\ i_errno s' = ENOSYS /\ exists e s'', cl_connect gai s = Exit e s''
  end.
Proof.
  rewrite inetConnect_spec. unfold cl_connect. destruct gai as [l|]; [|by do 2 eexists; split_and!; try done; do 2 eexists].
  rewrite (bind_ret (getaddrinfo (Some l)) _ s (Some l) (add_list 1 s)) by done. unfold mbind, M_bind. rewrite connect_loop_spec. destruct (connectable l).
  - do 2 eexists. split; [done|]. split_and!; [done|apply newfd_fresh|apply newfd_nonneg|done|]. unfold freeaddrinfo, modify. by rewrite add_list_socks, add_list_back.
  - do 2 eexists. split_and!; try done. by do 2 eexists.
Qed.
End SocketTheorems.
Lemma inetListen_outcome_witness :
  exists r addrlen s', inetListen (Some [Addr 16 false true true true; Addr 28 true true false true; Addr 16 true true true true]) true (Inet {[0 := Connected]} 0 0) = Ret (r, addrlen) s' /\
    r = 1 /\ addrlen = Some 16 /\ i_socks s' = {[0 := Connected; 1 := Listening 16]}.
Proof.
  destruct (inetListen_outcome (Some [Addr 16 false true true true; Addr 28 true true false true; Addr 16 true true true true]) true (Inet {[0 := Connected]} 0 0))
    as (r & al & s' & E & _ & _ & _ & Hr & _ & Ha & Hs & _).
  exists r, al, s'. split_and!; [exact E|rewrite Hr; reflexivity|exact Ha|]. rewrite Hs, Hr. reflexivity.
Defined.

(** ** The services *)

Lemma written_prefix w bs : written w bs `prefix_of` bs.
Proof. destruct w as [k| |]; cbn; [exists (drop k bs); by rewrite take_drop|apply prefix_nil..]. Qed.
Lemma take_prefix {A} n (l : list A) : take n l `prefix_of` l.
Proof. exists (drop n l). by rewrite take_drop. Qed.
Definition reply (seq : Z) : list Z := dec (swrap 32 seq) ++ [NEWLINE].

Definition conn_stalls (c : conn) : bool := match c with AcceptError => false | Client evs _ => stalls evs end.
(** The connections before the first one that stays open and silent. *)
Fixpoint before_stall (cs : list conn) : list conn :=
  match cs with [] => [] | c :: cs' => if conn_stalls c then [] else c :: before_stall cs' end.

Lemma serve_total c s : sv_ok s -> conn_stalls c = false -> exists g s', serve c s = Ret g s' /\ sv_ok s' /\ sv_open s' = sv_open s /\
  match g with Some g => g_sent g `prefix_of` reply (g_start g) | None => True end.
Proof.
  intros Hok Hst. destruct c as [|evs w]; [by do 2 eexists|]. rewrite serve_run by done. cbn zeta. pose proof (lr_buf_length evs (sv_line s) Hok) as Hb.
  destruct (_ || _); do 2 eexists; (split; [done|]); (split_and!; try done). cbn [g_sent g_start]. etrans; [apply written_prefix|apply take_prefix].
Qed.
(** Where the server is after the connections [cs]: at the end of them, or waiting for the first one that is silent. *)
Definition stops {S A} (cs : list conn) (x : outcome S A) (final : S -> Prop) (stuck : S -> Prop) : Prop :=
  if existsb conn_stalls cs then exists s', x = Exit Loops s' /\ stuck s' else exists a s', x = Ret a s' /\ final s'.
Lemma handle_total cs s : sv_ok s -> exists gs s', handle serve (before_stall cs) s = Ret gs s' /\ sv_open s' = sv_open s /\
  Forall (fun g => g_sent g `prefix_of` reply (g_start g)) gs /\
  stops cs (handle serve cs s) (eq s') (fun s2 => sv_seq s2 = sv_seq s' /\ sv_open s2 = sv_open s + 1).
Proof.
  unfold stops. revert s. induction cs as [|c cs IH]; intros s Hok; cbn [handle before_stall existsb]; [by exists [], s; split_and!; try done; eexists _, _|].
  destruct (conn_stalls c) eqn:Hst; cbn [orb].
  - exists [], s. split_and!; try done. destruct c as [|evs w]; [done|]. eexists. split; [apply bind_exit, serve_stalled; done|]. by split.
  - destruct (serve_total c s Hok Hst) as (g & s1 & E & Ok1 & Ho & Hg). cbn [handle]. rewrite !(bind_ret _ _ _ _ _ E).
    destruct (IH s1 Ok1) as (gs & s2 & E2 & Ho2 & Hgs & Hs). rewrite (bind_ret _ _ _ _ _ E2).
    do 2 eexists. split; [done|]. split; [congruence|]. split; [destruct g; [by constructor|done]|]. rewrite <- Ho. destruct (existsb conn_stalls cs).
    + destruct Hs as (s3 & E3 & Hs). rewrite (bind_exit _ _ _ _ _ E3). by exists s3.
    + destruct Hs as (gs3 & s3 & E3 & Hs). rewrite (bind_ret _ _ _ _ _ E3). by eexists _, s3.
Qed.
Lemma handle_v2 cs junks s o : sv_ok s -> length junks = length cs -> Forall (fun j => length j = 30%nat) junks ->
  exists gs s' s2, handle serve (before_stall cs) s = Ret gs s' /\ handle serve_v2 (zip junks (before_stall cs)) (Server2 (sv_seq s) o) = Ret gs s2 /\
    sv2_seq s2 = sv_seq s' /\ sv2_open s2 = o /\
    stops cs (handle serve_v2 (zip junks cs) (Server2 (sv_seq s) o)) (eq s2) (fun s3 => sv2_seq s3 = sv2_seq s2 /\ sv2_open s3 = o + 1).
Proof.
  unfold stops. intros Hok Hl HJ. revert cs s Hok Hl. induction HJ as [|j js Hj _ IH]; intros [|c cs] s Hok Hl; try done; cbn [handle before_stall existsb].
  { exists [], s, (Server2 (sv_seq s) o). split_and!; try done. by eexists _, _. }
  destruct (conn_stalls c) eqn:Hst; cbn [orb zip zip_with handle].
  { exists [], s, (Server2 (sv_seq s) o). split_and!; try done. destruct c as [|evs w]; [done|]. eexists. split; [apply bind_exit, serve_v2_stalled; done|]. by split. }
  assert (Hc : exists g s1, serve c s = Ret g s1 /\ sv_ok s1 /\ serve_v2 (j, c) (Server2 (sv_seq s) o) = Ret g (Server2 (sv_seq s1) o)).
  { destruct c as [|evs w]; [by exists None, s|]. rewrite serve_run, serve_v2_run by done. cbn zeta. pose proof (lr_buf_length evs (sv_line s) Hok) as Hb.
    destruct (lr_ret (line29 evs) <=? 0) eqn:Er; cbn [orb]; [by do 2 eexists|]. bsimp.
    rewrite (line_number evs j (sv_line s)) by done. destruct (_ <=? 0); by do 2 eexists. }
  destruct Hc as (g & s1 & E1 & Ok1 & E2). rewrite (bind_ret _ _ _ _ _ E1), !(bind_ret _ _ _ _ _ E2).
  destruct (IH cs s1 Ok1 ltac:(by injection Hl)) as (gs & s' & s2 & F1 & F2 & Hs & Ho & Hst2). rewrite (bind_ret _ _ _ _ _ F1), (bind_ret _ _ _ _ _ F2).
  do 3 eexists. split_and!; try done. destruct (existsb conn_stalls cs).
  - destruct Hst2 as (s3 & E3 & Hs3). rewrite (bind_exit _ _ _ _ _ E3). by exists s3.
  - destruct Hst2 as (gs3 & s3 & E3 & Hs3). rewrite (bind_ret _ _ _ _ _ E3). by eexists _, s3.
Qed.

(** C23: the server handles its clients one after the other, whatever they send, up to the first one that stays
    connected and sends no line: for that one it waits for ever, with the connection open, and serves nobody
    after it.  Of the clients before it, which are all of them if there is none such, it closes every
    connection and it stays inside its buffers; the sequences it gives out follow one another modulo
    [2^32], so that no number is given out twice as long as not more than [2^32] are; and
    the second version of the server gives out the same, closes the same connections and waits for the same client. *)
Theorem seqnum_grants_disjoint cs s :
  length (sv_line s) = 30%nat ->
  exists gs s', is_seqnum_sv (before_stall cs) s = Ret gs s' /\ sv_open s' = sv_open s /\
    stops cs (is_seqnum_sv cs s) (eq s') (fun s2 => sv_seq s2 = sv_seq s' /\ sv_open s2 = sv_open s + 1) /\
    consecutive (sv_seq s) gs (sv_seq s') /\ (total gs <= W -> disjoint_grants gs) /\
    Forall (fun g => g_sent g `prefix_of` reply (g_start g)) gs /\
    forall junks o, length junks = length cs -> Forall (fun j => length j = 30%nat) junks ->
      exists s2, is_seqnum_v2_sv (zip junks (before_stall cs)) (Server2 (sv_seq s) o) = Ret gs s2 /\ sv2_seq s2 = sv_seq s' /\ sv2_open s2 = o /\
        stops cs (is_seqnum_v2_sv (zip junks cs) (Server2 (sv_seq s) o)) (eq s2) (fun s3 => sv2_seq s3 = sv2_seq s2 /\ sv2_open s3 = o + 1).
Proof.
  intros Hok. destruct (handle_total cs s Hok) as (gs & s' & E & Ho & Hg & Hst). exists gs, s'.
  destruct (handle_consecutive serve sv_ok sv_seq (fun _ => True) (before_stall cs) s gs s' Hok ltac:(by apply Forall_true) E) as [_ Hc].
  split_and!; try done.
  - by eapply consecutive_disjoint.
  - intros junks o Hl HJ. destruct (handle_v2 cs junks s o Hok Hl HJ) as (gs2 & s1 & s2 & E1 & E2 & Hs & Ho2 & Hst2). rewrite E in E1. injection E1 as <- <-. by exists s2.
Qed.
Definition sample_conns : list conn :=
  [Client [Bytes (bytes "7"); Bytes [NEWLINE]] (Takes 30); AcceptError; Client [Failed] (Takes 30); Client [Bytes (bytes "-3" ++ [NEWLINE])] (Takes 30);
   Client [Bytes (bytes "12" ++ [NEWLINE])] WFailed; Client [Bytes (bytes "12"); Silent] (Takes 30); Client [Bytes (bytes "3" ++ [NEWLINE])] (Takes 30)].
Lemma seqnum_grants_disjoint_witness :
  exists gs s' s2, is_seqnum_sv (before_stall sample_conns) (Server 4294967290 (replicate 30 0) 3) = Ret gs s' /\ sv_open s' = 3 /\ disjoint_grants gs /\
    gs = [Grant 4294967290 7 (bytes "-6" ++ [NEWLINE]); Grant 1 12 []] /\
    is_seqnum_sv sample_conns (Server 4294967290 (replicate 30 0) 3) = Exit Loops s2 /\ sv_open s2 = 4.
Proof.
  destruct (seqnum_grants_disjoint sample_conns (Server 4294967290 (replicate 30 0) 3) eq_refl) as (gs & s' & E & Ho & (s2 & E2 & _ & Ho2) & _ & Hd & _).
  assert (Hg : gs = [Grant 4294967290 7 (bytes "-6" ++ [NEWLINE]); Grant 1 12 []]) by (vm_compute in E; by injection E as <- _).
  exists gs, s', s2. split_and!; [exact E|exact Ho| |exact Hg|exact E2|exact Ho2]. apply Hd. rewrite Hg. vm_compute. discriminate.
Defined.

Lemma first_line_app s b : Forall (fun c => c <> NEWLINE) s -> first_line (s ++ NEWLINE :: b) = s ++ [NEWLINE].
Proof.
  induction 1 as [|c s Hc _ IH]; [done|]. cbn [app first_line]. destruct (Z.eqb_spec c NEWLINE); [done|]. by rewrite IH.
Qed.
Lemma dec_no_newline n : Forall (fun c => c <> NEWLINE) (dec n).
Proof.
  assert (Hu : forall m, 0 <= m -> Forall (fun c => c <> NEWLINE) (udec m)).
  { intros m Hm. eapply Forall_impl; [by apply udec_isdigit|]. intros c ?%isdigit_range. unfold NEWLINE. lia. }
  unfold dec. destruct (Z.ltb_spec n 0); [constructor; [done|]|]; apply Hu; lia.
Qed.
Lemma dec_length_11 n : - 2 ^ 31 <= n < 2 ^ 32 -> (length (dec n) <= 11)%nat.
Proof.
  intros Hn. unfold dec. destruct (Z.ltb_spec n 0); cbn [length].
  - assert (length (udec (- n)) <= 10)%nat; [|lia]. apply digs_length; [lia| |lia]. change (10 ^ Z.of_nat 10) with 10000000000. lia.
  - assert (length (udec n) <= 10)%nat; [|lia]. apply digs_length; [lia| |lia]. change (10 ^ Z.of_nat 10) with 10000000000. lia.
Qed.
Lemma dec_nonul_all n : nonul (dec n).
Proof.
  unfold dec. destruct (Z.ltb_spec n 0); [constructor; [done|]|]; eapply Forall_impl; try (apply udec_isdigit; lia); intros c ?%isdigit_range; lia.
Qed.
Lemma swrap32_range n : - 2 ^ 31 <= swrap 32 n < 2 ^ 31.
Proof. unfold swrap. change (2 ^ 32) with 4294967296. change (2 ^ (32 - 1)) with 2147483648. pose proof (Z.mod_pos_bound n 4294967296). destruct (_ <? _) eqn:E; bsimp; lia. Qed.
Lemma atoi_line k b : 0 <= k <= INT_MAX -> atoi (dec k ++ NEWLINE :: b) = k.
Proof.
  intros Hk. unfold atoi. change (strtol10 (dec k ++ NEWLINE :: b)) with (atol (replicate 0 SPACE ++ dec k ++ NEWLINE :: b)).
  rewrite atol_dec; [|unfold LONG_MAX, INT_MAX in *; lia|done]. apply swrap_small; unfold INT_MAX in *; lia.
Qed.
(** A short line arrives as it was sent. *)
Lemma readLine_short int n ub evs : - 2 ^ 31 <= n < 2 ^ 32 -> length ub = 30%nat -> plain int evs -> waiting evs = dec n ++ [NEWLINE] ->
  exists evs', readLine INT_LEN (Rio evs (Some ub)) = Ret (Z.of_nat (length (dec n)) + 1) (Rio evs' (Some (poke ((dec n ++ [NEWLINE]) ++ [NUL]) ub))).
Proof.
  intros Hn Hub P Hw. destruct (readLine_spec int ub INT_LEN evs ltac:(unfold INT_LEN; lia) P) as (evs' & _ & _ & E).
  rewrite Hw, (first_line_app (dec n) []) in E by apply dec_no_newline. pose proof (dec_length_11 n Hn).
  assert (Hlen : length (dec n ++ [NEWLINE]) = S (length (dec n))) by (rewrite length_app; cbn; lia).
  rewrite take_ge in E by (rewrite Hlen; change (Z.to_nat (INT_LEN - 1)) with 29%nat; lia). rewrite terminated_ne in E by (by destruct (dec n)).
  exists evs'. rewrite E. f_equal. rewrite Hlen. lia.
Qed.
Lemma take_all_ge {A} n (l : list A) : (length l <= n)%nat -> take n l = l.
Proof. apply take_ge. Qed.
Lemma reply_short seq : (length (reply seq) <= 12)%nat.
Proof. unfold reply. rewrite length_app. pose proof (dec_length_11 (swrap 32 seq)). pose proof (swrap32_range seq). cbn. lia. Qed.

(** A session.  The client that asks for [k] numbers sends the numeral and a newline; in whatever
    pieces the server reads them it gives out the [k] numbers from its counter on and advances the
    counter; in whatever pieces the client reads the answer, it prints the counter's value (as a
    signed number) and exits with status 0. *)
Theorem seqnum_session k seq line o evs n0 n1 n2 ans junk :
  1 <= k <= INT_MAX -> 0 <= seq < W -> length line = 30%nat -> length junk = 30%nat ->
  plain true evs -> waiting evs = dec k ++ [NEWLINE] -> (12 <= n0)%nat ->
  (12 <= n1)%nat -> (1 <= n2)%nat -> plain true ans -> waiting ans = reply seq ->
  (exists line', serve (Client evs (Takes n0)) (Server seq line o) = Ret (Some (Grant seq k (reply seq))) (Server (uwrap 32 (seq + k)) line' o)) /\
  (exists ans', is_seqnum_cl (Some (dec k)) (Takes n1) (Takes n2) junk (Cl [] ans []) =
    Exit (Exits 0) (Cl (dec k ++ [NEWLINE]) ans' (bytes "Sequence number: " ++ reply seq))).
Proof.
  intros Hk Hs Hl Hj P Hw H0 H1 H2 Pa Ha. assert (Hk' : - 2 ^ 31 <= k < 2 ^ 32) by (unfold INT_MAX in *; lia). pose proof (dec_length_11 k Hk') as Hlk. split.
  - destruct (readLine_short true k line evs Hk' Hl P Hw) as (evs' & E). exists (poke ((dec k ++ [NEWLINE]) ++ [NUL]) line).
    destruct (readLine_ref evs line Hl) as (E' & _). rewrite E in E'. destruct (stalls evs) eqn:Est; [by destruct E'|]. injection E' as Er _ Eb. rewrite serve_run by done. cbn [sv_line sv_seq sv_open].
    rewrite <- Er, <- Eb. unfold poke. rewrite <- !app_assoc. cbn [app]. rewrite atoi_line by lia. bfalse (Z.of_nat (length (dec k)) + 1 <=? 0). bfalse (k <=? 0). cbn [orb].
    do 2 f_equal. unfold snprintf, written. fold (reply seq). pose proof (reply_short seq). rewrite (take_ge (reply seq)) by (change (Z.to_nat (INT_LEN - 1)) with 29%nat; lia).
    by rewrite take_all_ge by lia.
  - pose proof (swrap32_range seq) as Hr. destruct (readLine_short true (swrap 32 seq) junk ans ltac:(lia) Hj Pa Ha) as (ans' & E). exists ans'.
    unfold is_seqnum_cl. cbn [default from_option id].
    rewrite bind_ret with (a := Z.of_nat (length (dec k))) (s' := Cl (dec k) ans []).
    2: { cbn. rewrite Nat.min_r, take_all_ge by lia. done. }
    rewrite Z.eqb_refl. cbn [negb]. rewrite bind_ret with (a := 1) (s' := Cl (dec k ++ [NEWLINE]) ans []).
    2: { destruct n2; [lia|]. cbn. by rewrite Nat.min_0_r, take_nil. }
    change (1 =? 1) with true. cbn [negb].
    rewrite bind_ret with (a := (Z.of_nat (length (dec (swrap 32 seq))) + 1, poke ((dec (swrap 32 seq) ++ [NEWLINE]) ++ [NUL]) junk)) (s' := Cl (dec k ++ [NEWLINE]) ans' []).
    2: { unfold cl_readLine. cbn [cl_evs]. by rewrite E. }
    cbn [fst snd]. bfalse (Z.of_nat (length (dec (swrap 32 seq))) + 1 =? -1). bfalse (Z.of_nat (length (dec (swrap 32 seq))) + 1 =? 0).
    unfold poke. fold (reply seq). rewrite <- (app_assoc (reply seq)). cbn [app]. rewrite cstr_app; [done|].
    apply nonul_app. split; [apply dec_nonul_all|by constructor].
Qed.
Lemma seqnum_session_witness :
  exists ans', is_seqnum_cl (Some (bytes "25")) (Takes 30) (Takes 1) (replicate 30 0) (Cl [] [Bytes (bytes "10"); Interrupted; Bytes (bytes "0" ++ [NEWLINE])] []) =
    Exit (Exits 0) (Cl (bytes "25" ++ [NEWLINE]) ans' (bytes "Sequence number: " ++ bytes "100" ++ [NEWLINE])).
Proof.
  refine (proj2 (seqnum_session 25 100 (replicate 30 0) 0 [Bytes (bytes "2"); Bytes (bytes "5" ++ [NEWLINE])] 30 30 1
    [Bytes (bytes "10"); Interrupted; Bytes (bytes "0" ++ [NEWLINE])] (replicate 30 0) _ _ _ _ _ _ _ _ _ _ _)); try reflexivity; try (unfold INT_MAX, W; lia).
  - by repeat constructor.
  - by repeat constructor.
Defined.

(** The FIFO service: as long as its clients ask for positive lengths and its counter does
    not overflow, no number is given out twice. *)
Theorem fifo_grants_disjoint es seq gs seq' :
  Forall good_request es -> fifo_seqnum_server es seq = Ret gs seq' -> consecutive seq gs seq' /\ (total gs <= W -> disjoint_grants gs).
Proof.
  intros G E. destruct (handle_consecutive fifo_serve (fun _ => True) id good_request es seq gs seq' I G E) as [_ Hc].
  split; [done|]. by eapply consecutive_disjoint.
Qed.
(** Nothing makes the FIFO server refuse other lengths: after a negative one numbers are given out again. *)
Theorem fifo_negative_length : exists gs s,
  fifo_seqnum_server [FifoRequest (Request 1 5) true true; FifoRequest (Request 2 (-5)) true true; FifoRequest (Request 3 5) true true] 0 = Ret gs s /\
  ~ disjoint_grants gs.
Proof.
  do 2 eexists. split; [vm_compute; reflexivity|]. intros H.
  apply (H 0%nat 2%nat (Grant 0 5 [0; 0; 0; 0]) (Grant 0 5 [0; 0; 0; 0]) 0 0); (done || lia || reflexivity).
Qed.
(** Clients of the FIFO service ask for positive lengths. *)
Theorem fifo_client_good pid arg o o' req : fifo_request pid arg o = Ret req o' -> 0 < req_seqLen req.
Proof.
  unfold fifo_request. destruct arg as [a|]; [|by intros [= <- _]]. unfold getInt.
  destruct (getNum_cases "getInt" (Some a) GN_GT_0 (Some (bytes "seq-len")) o) as [(? & v & _ & _ & _ & [_ Hv] & E)|[_ [o1 E]]].
  - unfold mbind, M_bind. rewrite E. destruct (_ || _).
    + destruct (gnFail_exits (A := Z) "getInt" "integer out of range" (Some a) (Some (bytes "seq-len")) o) as [o1 ->]. done.
    + intros [= <- _]. by apply Hv.
  - unfold mbind, M_bind. by rewrite E.
Qed.

(** However the client of the FIFO service ends, once [atexit] has worked its FIFO is gone, it has sent at most one request, for a positive
    length, and if it exits with status 0 it has printed the number it got. *)
Theorem fifo_client_cleans_up pid arg mk sv_ok wr_ok own_ok resp s :
  mk <> MkFails ->
  exists e s', fifo_client pid arg mk true sv_ok wr_ok own_ok resp s = Exit e s' /\ client_fifo pid ∉ fc_fifos s' /\
    (fc_sent s' = fc_sent s \/ exists req, fc_sent s' = fc_sent s ++ [req] /\ req_pid req = pid /\ 0 < req_seqLen req) /\
    (e = Exits 0 -> exists n, resp = Some n /\ fc_out s' = fc_out s ++ dec n ++ [NEWLINE]).
Proof.
  intros Hmk. unfold fifo_client. set (s1 := match mk with MkOk => set_fifos (union {[client_fifo pid]}) s | _ => s end).
  rewrite bind_ret with (a := tt) (s' := s1) by (by destruct mk). cbn [negb].
  assert (Hs1 : fc_sent s1 = fc_sent s /\ fc_out s1 = fc_out s) by (by destruct mk). destruct Hs1 as [Hs1 Ho1]. unfold at_exit, zoom.
  unfold mbind at 1, M_bind at 1. destruct (fifo_request pid arg (fc_err s1)) as [req o|e o] eqn:Er.
  2: { do 2 eexists. split; [done|]. split; [cbn; set_solver|]. split; [left; exact Hs1|]. intros ->.
    exfalso. unfold fifo_request in Er. destruct arg as [a|]; [|done]. unfold getInt in Er.
    destruct (getNum_cases "getInt" (Some a) GN_GT_0 (Some (bytes "seq-len")) (fc_err s1)) as [(? & v & _ & _ & _ & _ & E)|[_ [o1 E]]]; unfold mbind, M_bind in Er; rewrite E in Er; [|done].
    destruct (_ || _); [|done]. destruct (gnFail_exits (A := Z) "getInt" "integer out of range" (Some a) (Some (bytes "seq-len")) (fc_err s1)) as [o1 E1]. rewrite E1 in Er. done. }
  assert (Hreq : 0 < req_seqLen req /\ req_pid req = pid).
  { split; [|unfold fifo_request in Er; destruct arg; [|by injection Er as <-]; unfold mbind, M_bind in Er; destruct (getInt _ _ _ _); [|done]; by injection Er as <-].
    revert Er. unfold fifo_request. destruct arg as [a|]; [|by intros [= <- _]]. unfold getInt.
    destruct (getNum_cases "getInt" (Some a) GN_GT_0 (Some (bytes "seq-len")) (fc_err s1)) as [(? & v & _ & _ & _ & [_ Hv] & E)|[_ [o1 E]]]; unfold mbind, M_bind; rewrite E; [|done].
    destruct (_ || _); [destruct (gnFail_exits (A := Z) "getInt" "integer out of range" (Some a) (Some (bytes "seq-len")) (fc_err s1)) as [o1 ->]; done|]. intros [= <- _]. by apply Hv. }
  destruct Hreq as [H1 H2]. destruct sv_ok; cbn [negb]; [|do 2 eexists; split_and!; [done|cbn; set_solver|left; exact Hs1|done]].
  destruct wr_ok; cbn [negb]; [|do 2 eexists; split_and!; [done|cbn; set_solver|left; exact Hs1|done]].
  unfold modify at 1. unfold mbind at 1, M_bind at 1. destruct own_ok; cbn [negb].
  2: { do 2 eexists. split_and!; [done|cbn; set_solver|right; exists req; cbn; by rewrite Hs1|done]. }
  destruct resp as [n|]; do 2 eexists; split_and!; try done; try (cbn; set_solver); try (right; exists req; cbn; by rewrite Hs1).
  intros _. exists n. cbn. by rewrite Ho1.
Qed.
