(* ===== verification/OpenServer.v ===== *)
(** The open servers of [src/apue2e]: the daemon [opend], in its two versions with [poll] and
    [select], the server [opend.fe] that its client starts itself, and the function [csopen] by which clients get
    descriptors from them. *)
From S2P Require Import Prelude CStr ReadN FdPass CallArgs.

(** ** Requests: [opend/request.c], [opend.fe/request.c], [opend.fe/cliargs.c] *)

(** [open] gives a descriptor or an error number; whether a client can be written to. *)
Class OpenEnv := {
  k_open : list Z -> Z -> Z + Z;      (* inl: the error number *)
  strerror : Z -> list Z;
  cl_writable : Z -> bool
}.
(** The server's variables, what was sent to its clients, and the descriptors it has open
    for files. *)
Record opend := Opend {
  od_errmsg : list Z; od_pathname : list Z; od_oflag : Z;
  od_sent : list (Z * (list Z * option Z)); od_files : gset Z
}.
Definition CL_OPEN : list Z := bytes "open".

Section Requests.
Context `{E : OpenEnv}.

Definition od_sendmsg (to : Z) (bs : list Z) (d : option Z) : M opend Z := fun s =>
  if cl_writable to then Ret (Z.of_nat (length bs)) (Opend (od_errmsg s) (od_pathname s) (od_oflag s) (od_sent s ++ [(to, (bs, d))]) (od_files s))
  else Ret (-1) s.
Definition od_write (to : Z) (bs : list Z) : M opend Z := od_sendmsg to bs None.
(** [sprintf(errmsg, ...)], an array of [MAXLINE] bytes. *)
Definition od_error (m : list Z) : M opend unit := fun s =>
  if MAXLINE <=? Z.of_nat (length m) then Exit (Undefined "sprintf past the end of errmsg") s
  else Ret tt (Opend m (od_pathname s) (od_oflag s) (od_sent s) (od_files s)).
Definition reply_error (to : Z) : M opend unit := fun s =>
  match send_err od_sendmsg od_write true to (-1) (od_errmsg s) s with
  | Ret _ s' => Ret tt s'
  | Exit e s' => Exit e s'
  end.

Definition cli_args (argv : list (list Z)) : M opend Z :=
  match argv with
  | [a0; a1; a2] =>
      if negb (bool_decide (a0 = CL_OPEN)) then od_error (bytes "usage: <pathname> <oflag>" ++ [NEWLINE]) ;; mret (-1) else
      modify (fun s => Opend (od_errmsg s) a1 (atoi a2) (od_sent s) (od_files s)) ;; mret 0
  | _ => od_error (bytes "usage: <pathname> <oflag>" ++ [NEWLINE]) ;; mret (-1)
  end.

(** ["%*.*s"] with width and precision [n]. *)
Definition fmt_ns (n : nat) (buf : list Z) : list Z :=
  let t := cstr (take n buf) in replicate (n - length t) SPACE ++ t.
(** [open(pathname, oflag)], the answer and [close]; [failed] is the routine that ends the
    server when the descriptor cannot be sent. *)
Definition set_files (f : gset Z -> gset Z) (s : opend) : opend := Opend (od_errmsg s) (od_pathname s) (od_oflag s) (od_sent s) (f (od_files s)).
Definition open_and_send (failed : fatal) (clifd : Z) : M opend unit :=
  s ← get;
  match k_open (od_pathname s) (od_oflag s) with
  | inl errno =>
      od_error (bytes "can't open " ++ od_pathname s ++ bytes ": " ++ strerror errno ++ [NEWLINE]) ;;
      reply_error clifd
  | inr newfd =>
      modify (set_files (union {[newfd]})) ;;
      r ← send_fd od_sendmsg true clifd newfd;
      if r <? 0 then die failed else
      modify (set_files (fun fs => fs ∖ {[newfd]}))
  end.

(** [opend/request.c] *)
Definition request (buf : list Z) (clifd uid : Z) : M opend unit :=
  if negb (bool_decide (last buf = Some 0)) then
    od_error (bytes "request from uid " ++ dec uid ++ bytes " not null terminated: " ++ fmt_ns (length buf) buf ++ [NEWLINE]) ;;
    reply_error clifd
  else
    r ← buf_args buf cli_args;
    if r <? 0 then reply_error clifd
    else open_and_send (Err_sys "send_fd error") clifd.
(** [opend.fe/request.c] *)
Definition request_fe (buf : list Z) (fd : Z) : M opend unit :=
  if negb (bool_decide (last buf = Some 0)) then
    od_error (bytes "request not null terminated: " ++ fmt_ns (length buf) buf ++ [NEWLINE]) ;;
    reply_error fd
  else
    r ← buf_args buf cli_args;
    if r <? 0 then reply_error fd
    else open_and_send (Err_sys "send_fd error") fd.
(** [read(fd, buf, MAXLINE)] of the servers, with the bytes that are waiting on the stream. *)
Definition server_read (waiting : list Z) : list Z := take (Z.to_nat MAXLINE) waiting.
(** [main] of [opend.fe]: what is waiting on the standard input at each read, an error being none. *)
Fixpoint opend_fe (reads : list (option (list Z))) : M opend unit :=
  match reads with
  | [] => die Loops
  | None :: _ => die (Err_sys "read error on stream pipe")
  | Some w :: reads' =>
      match server_read w with
      | [] => die (Exits 0)
      | buf => request_fe buf 1 ;; opend_fe reads'
      end
  end.
End Requests.

(** ** [csopen]: [open/open.c], [open.fe/open.c] *)

(** [sprintf(buf, " %d", oflag)] into ten bytes, and the message for [writev]. *)
Definition csopen_request (name : list Z) (oflag : Z) : option (list Z) :=
  let buf := [SPACE] ++ dec oflag in
  if 10 <=? Z.of_nat (length buf) then None else Some (CL_OPEN ++ [SPACE] ++ name ++ buf ++ [0]).
(** [writev_ok]: it takes the whole message. *)
Definition csopen (name : list Z) (oflag : Z) (writev_ok : bool) (fuel : nat) : M pipe Z :=
  match csopen_request name oflag with
  | None => die (Undefined "sprintf past the end of buf")
  | Some _ =>
      if negb writev_ok then die (Err_sys "writev error") else
      recv_fd pipe_recvmsg pipe_user true fuel
  end.

(** ** Clients: [opend/client.c] *)

Record Client := MkClient { fd : Z; uid : Z }.
Definition NALLOC : nat := 10.

(** New entries come with a [uid] that nobody set; [malloc] succeeds. *)
Definition client_alloc (l : list Client) : list Client := l ++ replicate NALLOC (MkClient (-1) 0).
Fixpoint free_entry (l : list Client) : option nat :=
  match l with
  | [] => None
  | c :: l' => if fd c =? -1 then Some O else S <$> free_entry l'
  end.
Definition client_add (f u : Z) (l : list Client) : nat * list Client :=
  let l := match l with [] => client_alloc [] | _ => l end in
  match free_entry l with
  | Some i => (i, <[i := MkClient f u]> l)
  | None =>
      let l' := client_alloc l in
      match free_entry l' with
      | Some i => (i, <[i := MkClient f u]> l')
      | None => (O, l')
      end
  end.
Fixpoint entry_of (f : Z) (l : list Client) : option nat :=
  match l with
  | [] => None
  | c :: l' => if fd c =? f then Some O else S <$> entry_of f l'
  end.
Definition client_del (f : Z) (l : list Client) : option (list Client) :=
  match entry_of f l with
  | Some i => Some (alter (fun c => MkClient (-1) (uid c)) i l)
  | None => None
  end.

(** ** The loops *)

(** A kernel gives an accepted connection a descriptor that is not in use, below the
    limit [open_max()], or none. *)
Class AcceptKernel := {
  open_max : Z;
  accept_fd : gset Z -> option Z;
  accept_fresh : forall X f, accept_fd X = Some f -> f ∉ X;
  accept_range : forall X f, accept_fd X = Some f -> 0 <= f < open_max
}.
(** What is there when the server wakes up: perhaps a client to accept, with its uid (or an
    accept that is going to fail), the bytes that are waiting on the descriptors that are ready
    (none where reading is going to fail), and those whose client has hung up, with or without
    bytes that are still unread. *)
Record round := Round { rd_accept : option (option Z); rd_ready : gmap Z (option (list Z)); rd_hup : gset Z }.

(** [for (i = ...; i <= maxi; i++)] *)
Fixpoint each {S} (body : nat -> M S unit) (l : list nat) : M S unit :=
  match l with [] => mret tt | i :: l' => body i ;; each body l' end.

Section Loops.
Context {H : Type} (handler : list Z -> Z -> Z -> M H unit) `{K : AcceptKernel}.
Context (listenfd : Z).

(** [loop] with [select]; [ls_world] is the state that [request] works on. *)
Record select_state := Sel { sl_clients : list Client; sl_maxi : Z; sl_maxfd : Z; sl_allset : gset Z; sl_world : H }.
Definition select0 (h : H) : select_state := Sel [] (-1) listenfd {[listenfd]} h.

(** [FD_SET] for a descriptor that the set has no room for writes behind it. *)
Definition FD_SETSIZE : Z := 1024.
Definition select_accept (a : option Z) : M select_state unit := fun s =>
  match a, accept_fd (sl_allset s) with
  | None, _ | _, None => Exit (Err_sys "serv_accept error") s
  | Some u, Some clifd =>
      let '(i, l) := client_add clifd u (sl_clients s) in
      if FD_SETSIZE <=? clifd then Exit (Undefined "FD_SET past the end of allset") s else
      Ret tt (Sel l (Z.max (sl_maxi s) (Z.of_nat i)) (Z.max (sl_maxfd s) clifd) ({[clifd]} ∪ sl_allset s) (sl_world s))
  end.
Definition select_client (ready : gmap Z (option (list Z))) (i : nat) : M select_state unit := fun s =>
  match sl_clients s !! i with
  | None => Exit (Undefined "client outside the array") s
  | Some c =>
      let clifd := fd c in
      if clifd <? 0 then Ret tt s else
      match ready !! clifd with
      | None => Ret tt s
      | Some None => Exit (Err_sys "read error on fd %d") s
      | Some (Some waiting) =>
          match server_read waiting with
          | [] =>
              match client_del clifd (sl_clients s) with
              | None => Exit (Err_quit "can't find client entry for fd %d") s
              | Some l => Ret tt (Sel l (sl_maxi s) (sl_maxfd s) (sl_allset s ∖ {[clifd]}) (sl_world s))
              end
          | buf =>
              match handler buf clifd (uid c) (sl_world s) with
              | Ret _ w => Ret tt (Sel (sl_clients s) (sl_maxi s) (sl_maxfd s) (sl_allset s) w)
              | Exit e w => Exit e (Sel (sl_clients s) (sl_maxi s) (sl_maxfd s) (sl_allset s) w)
              end
          end
      end
  end.
(** One turn: [select] reports the members of [allset] that are ready; one whose client has hung up is
    ready too, and reading from it returns what is still unread, then 0. *)
Definition readable (r : round) : gmap Z (option (list Z)) := rd_ready r ∪ gset_to_gmap (Some []) (rd_hup r).
Definition select_turn (r : round) : M select_state unit := fun s =>
  match rd_accept r with
  | Some a => select_accept a s
  | None =>
      let rset := filter (fun p => p.1 ∈ sl_allset s) (readable r) in
      each (select_client rset) (seq 0 (Z.to_nat (sl_maxi s + 1))) s
  end.

(** [loop] with [poll].  The array [pollfd] comes from [malloc]: what it holds in the
    beginning is anything. *)
Record revents := Rev { POLLIN : bool; POLLHUP : bool }.
Definition NoEvents : revents := Rev false false.
Record pollfd := Pfd { p_fd : Z; p_revents : revents }.
Record poll_state := Pol { pl_clients : list Client; pl_fds : list pollfd; pl_maxi : Z; pl_world : H }.

Definition set_pfd (i : nat) (f : pollfd -> pollfd) (l : list pollfd) : option (list pollfd) :=
  match l !! i with Some _ => Some (alter f i l) | None => None end.
Definition poll0 (mem : list pollfd) (h : H) : option poll_state :=
  fds ← set_pfd 0 (fun p => Pfd listenfd (p_revents p)) mem;
  Some (Pol (client_add listenfd 0 []).2 fds 0 h).

(** [poll]: it sets the [revents] of the first [maxi + 1] entries. *)
Definition answers (r : round) (f : Z) : revents :=
  if f <? 0 then NoEvents
  else if f =? listenfd then Rev (bool_decide (is_Some (rd_accept r))) false
  else Rev (bool_decide (is_Some (rd_ready r !! f))) (bool_decide (f ∈ rd_hup r)).
Fixpoint poll_fds (n : nat) (r : round) (l : list pollfd) : list pollfd :=
  match n, l with
  | S n', p :: l' => Pfd (p_fd p) (answers r (p_fd p)) :: poll_fds n' r l'
  | _, _ => l
  end.
(** The descriptors in use. *)
Definition live (l : list Client) : gset Z := list_to_set (filter (fun f => f <> -1) (map fd l)).

Definition poll_accept (a : option Z) : M poll_state unit := fun s =>
  match a, accept_fd (live (pl_clients s)) with
  | None, _ | _, None => Exit (Err_sys "serv_accept error") s
  | Some u, Some clifd =>
      let '(i, l) := client_add clifd u (pl_clients s) in
      match set_pfd i (fun p => Pfd clifd (p_revents p)) (pl_fds s) with
      | None => Exit (Undefined "pollfd outside the array") s
      | Some fds => Ret tt (Pol l fds (Z.max (pl_maxi s) (Z.of_nat i)) (pl_world s))
      end
  end.
Definition poll_hungup (i : nat) (clifd : Z) : M poll_state unit := fun s =>
  match client_del clifd (pl_clients s), set_pfd i (fun p => Pfd (-1) (p_revents p)) (pl_fds s) with
  | None, _ => Exit (Err_quit "can't find client entry for fd %d") s
  | _, None => Exit (Undefined "pollfd outside the array") s
  | Some l, Some fds => Ret tt (Pol l fds (pl_maxi s) (pl_world s))
  end.
Definition poll_client (r : round) (i : nat) : M poll_state unit := fun s =>
  match pl_clients s !! i, pl_fds s !! i with
  | None, _ => Exit (Undefined "client outside the array") s
  | Some c, None => if fd c <? 0 then Ret tt s else Exit (Undefined "pollfd outside the array") s
  | Some c, Some p =>
      let clifd := fd c in
      if clifd <? 0 then Ret tt s else
      if POLLHUP (p_revents p) then poll_hungup i clifd s else
      if POLLIN (p_revents p) then
        match rd_ready r !! clifd with
        | None => Exit Loops s                (* [read] waits for data *)
        | Some None => Exit (Err_sys "read error on fd %d") s
        | Some (Some waiting) =>
            match server_read waiting with
            | [] => poll_hungup i clifd s
            | buf =>
                match handler buf clifd (uid c) (pl_world s) with
                | Ret _ w => Ret tt (Pol (pl_clients s) (pl_fds s) (pl_maxi s) w)
                | Exit e w => Exit e (Pol (pl_clients s) (pl_fds s) (pl_maxi s) w)
                end
            end
        end
      else Ret tt s
  end.
Definition poll_turn (r : round) : M poll_state unit :=
  modify (fun s => Pol (pl_clients s) (poll_fds (Z.to_nat (pl_maxi s + 1)) r (pl_fds s)) (pl_maxi s) (pl_world s)) ;;
  s ← get;
  (match pl_fds s with
   | p :: _ => if POLLIN (p_revents p) then match rd_accept r with Some a => poll_accept a | None => die Loops end else mret tt
   | [] => die (Undefined "pollfd outside the array")
   end) ;;
  s ← get;
  each (poll_client r) (seq 1 (Z.to_nat (pl_maxi s))).
End Loops.
