(* ===== verification/OpenLoop.v ===== *)
(** The loop of the open server as it is meant, on a finite map from slots to clients, and that
    the loops of [src/apue2e/opend/loop.select.c] and [loop.poll.c] implement it. *)
From S2P Require Import Prelude CStr FdPass CallArgs OpenServer.

(** ** The table of clients *)

Definition ent (l : list Client) (i : nat) : option (Z * Z) :=
  match l !! i with Some c => if fd c =? -1 then None else Some (fd c, uid c) | None => None end.
Definition table_ok (l : list Client) : Prop := Forall (fun c => fd c = -1 \/ 0 <= fd c) l.

Lemma free_entry_Some l i : free_entry l = Some i ->
  (exists c, l !! i = Some c /\ fd c = -1) /\ forall j, (j < i)%nat -> is_Some (ent l j).
Proof.
  revert i. induction l as [|c l IH]; intros i; [done|]. cbn [free_entry]. destruct (fd c =? -1) eqn:E.
  - intros [= <-]. bsimp. split; [by exists c|lia].
  - intros (k & Hk & ->)%fmap_Some. destruct (IH k Hk) as [H1 H2]. split; [done|]. intros [|j] Hj; [|apply H2; lia].
    unfold ent. cbn. rewrite E. done.
Qed.
Lemma free_entry_None l j : free_entry l = None -> (j < length l)%nat -> is_Some (ent l j).
Proof.
  revert j. induction l as [|c l IH]; intros j; cbn [free_entry length]; [lia|]. destruct (fd c =? -1) eqn:E; [done|]. intros H%fmap_None Hj.
  destruct j as [|j]; [unfold ent; cbn; by rewrite E|apply IH; [done|lia]].
Qed.
Lemma free_entry_alloc l : free_entry l = None -> free_entry (client_alloc l) = Some (length l).
Proof.
  unfold client_alloc. induction l as [|c l IH]; cbn [free_entry app length]; [done|]. destruct (fd c =? -1); [done|]. intros H%fmap_None. by rewrite IH.
Qed.
Lemma ent_alloc l j : ent (client_alloc l) j = ent l j.
Proof.
  unfold ent, client_alloc. destruct (decide (j < length l)%nat) as [Hj|Hj]; [by rewrite lookup_app_l by lia|].
  rewrite lookup_app_r, (lookup_ge_None_2 l) by lia. destruct (replicate _ _ !! _) as [c|] eqn:E; [|done]. apply lookup_replicate in E as [-> _]. done.
Qed.
Lemma alloc_ok l : table_ok l -> table_ok (client_alloc l).
Proof. intros H. apply Forall_app. split; [done|]. by apply Forall_replicate; left. Qed.
Lemma ent_insert l i f u j : (i < length l)%nat -> 0 <= f -> ent (<[i := MkClient f u]> l) j = if decide (j = i) then Some (f, u) else ent l j.
Proof.
  intros Hi Hf. unfold ent. destruct (decide (j = i)) as [->|Hj].
  - rewrite list_lookup_insert_eq by lia. cbn. by bfalse (f =? -1).
  - by rewrite list_lookup_insert_ne by done.
Qed.
Lemma ent_none_free l i c : l !! i = Some c -> fd c = -1 -> ent l i = None.
Proof. intros H E. unfold ent. by rewrite H, E. Qed.

Definition added (f u : Z) (l : list Client) (i : nat) (l' : list Client) : Prop :=
  table_ok l' /\ ent l i = None /\ (forall j, (j < i)%nat -> is_Some (ent l j)) /\
  (forall j, ent l' j = if decide (j = i) then Some (f, u) else ent l j) /\ (i < length l')%nat /\ (length l <= length l')%nat.
Lemma added_at f u l l0 i : 0 <= f -> table_ok l -> (forall j, ent l j = ent l0 j) -> (length l0 <= length l)%nat -> free_entry l = Some i -> added f u l0 i (<[i := MkClient f u]> l).
Proof.
  intros Hf Hok He Hl E. destruct (free_entry_Some l i E) as [(c & Hc & Hfd) Hb]. assert (Hi : (i < length l)%nat) by (by apply lookup_lt_Some in Hc).
  split_and!.
  - apply Forall_insert; [done|by right].
  - rewrite <- He. by eapply ent_none_free.
  - intros j Hj. rewrite <- He. by apply Hb.
  - intros j. rewrite ent_insert, He by done. done.
  - by rewrite length_insert.
  - rewrite length_insert. lia.
Qed.
Lemma client_add_spec f u l : 0 <= f -> table_ok l -> added f u l (client_add f u l).1 (client_add f u l).2.
Proof.
  intros Hf Hok. unfold client_add. set (l1 := match l with [] => client_alloc [] | _ => l end).
  assert (Ok1 : table_ok l1) by (destruct l; [by apply alloc_ok|done]). assert (He1 : forall j, ent l1 j = ent l j) by (destruct l; [apply ent_alloc|done]).
  assert (Hl1 : (length l <= length l1)%nat) by (destruct l; cbn; lia).
  destruct (free_entry l1) as [i|] eqn:E; [cbn; by apply added_at|]. rewrite (free_entry_alloc l1 E). cbn.
  apply added_at; [done|by apply alloc_ok|intros j; by rewrite ent_alloc|unfold client_alloc; rewrite length_app; lia|by apply free_entry_alloc].
Qed.

Definition distinct (e : nat -> option (Z * Z)) : Prop := forall i j f u v, e i = Some (f, u) -> e j = Some (f, v) -> i = j.
Lemma entry_of_Some f l i : entry_of f l = Some i -> exists c, l !! i = Some c /\ fd c = f.
Proof.
  revert i. induction l as [|c l IH]; intros i; cbn [entry_of]; [done|]. destruct (fd c =? f) eqn:E; [intros [= <-]; bsimp; by exists c|].
  intros (k & Hk & ->)%fmap_Some. by apply IH.
Qed.
Lemma entry_of_found f l i c : l !! i = Some c -> fd c = f -> is_Some (entry_of f l).
Proof.
  revert i. induction l as [|d l IH]; intros i; [done|]. intros Hi Hf. cbn [entry_of]. destruct (fd d =? f) eqn:E; [done|].
  destruct i as [|i]; [injection Hi as ->; bsimp; done|]. apply fmap_is_Some. by eapply IH.
Qed.
Lemma client_del_spec f u l i : distinct (ent l) -> ent l i = Some (f, u) -> table_ok l ->
  exists l', client_del f l = Some l' /\ table_ok l' /\ length l' = length l /\ forall j, ent l' j = if decide (j = i) then None else ent l j.
Proof.
  intros D Hi Hok. assert (Hc : exists c, l !! i = Some c /\ fd c = f /\ f <> -1 /\ uid c = u).
  { unfold ent in Hi. destruct (l !! i) as [c|]; [|done]. destruct (fd c =? -1) eqn:E; [done|]. injection Hi as <- <-. bsimp. by exists c. }
  destruct Hc as (c & Hc & Hf & Hne & Hu). destruct (entry_of_found f l i c Hc Hf) as [k Hk]. destruct (entry_of_Some f l k Hk) as (d & Hd & Hfd).
  assert (k = i) as ->.
  { apply (D k i f (uid d) u); [|done]. unfold ent. rewrite Hd, Hfd. by bfalse (f =? -1). }
  unfold client_del. rewrite Hk. eexists. split; [done|]. split_and!.
  - apply Forall_alter; [done|]. intros. by left.
  - by rewrite length_alter.
  - intros j. unfold ent. destruct (decide (j = i)) as [->|Hj]; [by rewrite list_lookup_alter_eq, Hc|by rewrite list_lookup_alter_ne].
Qed.

(** ** The loop as it is meant *)

Definition fds (T : gmap nat (Z * Z)) : gset Z := list_to_set (map (fun p => p.2.1) (map_to_list T)).
Lemma elem_of_fds T f : f ∈ fds T <-> exists i u, T !! i = Some (f, u).
Proof.
  unfold fds. rewrite elem_of_list_to_set, list_elem_of_fmap. split.
  - intros ([i [g u]] & -> & H%elem_of_map_to_list). by exists i, u.
  - intros (i & u & H). exists (i, (f, u)). split; [done|]. by apply elem_of_map_to_list.
Qed.
(** The first slot that is free. *)
Definition least (T : gmap nat (Z * Z)) : nat := default 0%nat (snd <$> list_find (fun i => T !! i = None) (seq 0 (S (size T)))).
Lemma least_unique T i : T !! i = None -> (forall j, (j < i)%nat -> is_Some (T !! j)) -> least T = i.
Proof.
  intros Hi Hb. unfold least. assert (Hs : (i <= size T)%nat).
  { assert (H : list_to_set (seq 0 i) ⊆ dom T) by (intros j Hj%elem_of_list_to_set%elem_of_seq; apply elem_of_dom, Hb; lia).
    apply subseteq_size in H. rewrite size_dom, size_list_to_set, length_seq in H by apply NoDup_seq. done. }
  rewrite (proj2 (list_find_Some _ _ i i)); [done|]. split_and!; [apply lookup_seq; lia|done|].
  intros j y [-> Hj]%lookup_seq Hlt Hn. destruct (Hb j Hlt) as [x Hx]. cbn in Hn. congruence.
Qed.
(** What is there to read from the clients in [X]. *)
Definition ready_of (X : gset Z) (r : round) : gmap Z (option (list Z)) := filter (fun p => p.1 ∈ X) (readable r).
(** The round in which nothing is left to read from the clients that have hung up. *)
Definition lose_unread (r : round) : round := Round (rd_accept r) (gset_to_gmap (Some []) (rd_hup r) ∪ rd_ready r) (rd_hup r).

Lemma lookup_restrict {A} (X : gset Z) (m : gmap Z A) f : filter (fun p => p.1 ∈ X) m !! f = if decide (f ∈ X) then m !! f else None.
Proof.
  destruct (decide (f ∈ X)) as [Hf|Hf].
  - destruct (m !! f) as [x|] eqn:E; [by apply map_lookup_filter_Some_2|]. apply map_lookup_filter_None. by left.
  - apply map_lookup_filter_None. right. by intros x _.
Qed.

Section Simulation.
Context {H : Type} (handler : list Z -> Z -> Z -> M H unit) `{K : AcceptKernel} (listenfd : Z).

(** Slots with descriptor and uid of the clients, how many slots were in use, the world. *)
Record abs := Abs { ab_tab : gmap nat (Z * Z); ab_n : nat; ab_world : H }.
Definition abs0 (h : H) : abs := Abs ∅ 0 h.
Definition abs_accept (a : option Z) : M abs unit := fun s =>
  match a, accept_fd ({[listenfd]} ∪ fds (ab_tab s)) with
  | None, _ | _, None => Exit (Err_sys "serv_accept error") s
  | Some u, Some f => let i := least (ab_tab s) in Ret tt (Abs (<[i := (f, u)]> (ab_tab s)) (Nat.max (ab_n s) (S i)) (ab_world s))
  end.
Definition abs_client (ready : gmap Z (option (list Z))) (i : nat) : M abs unit := fun s =>
  match ab_tab s !! i with
  | None => Ret tt s
  | Some (f, u) =>
      match ready !! f with
      | None => Ret tt s
      | Some None => Exit (Err_sys "read error on fd %d") s
      | Some (Some waiting) =>
          match server_read waiting with
          | [] => Ret tt (Abs (delete i (ab_tab s)) (ab_n s) (ab_world s))
          | buf =>
              match handler buf f u (ab_world s) with
              | Ret _ w => Ret tt (Abs (ab_tab s) (ab_n s) w)
              | Exit e w => Exit e (Abs (ab_tab s) (ab_n s) w)
              end
          end
      end
  end.
(** A new client is accepted first; then the clients that were there before are served. *)
Definition abs_round (r : round) : M abs unit := fun s =>
  let ready := ready_of (fds (ab_tab s)) r in
  ((match rd_accept r with Some a => abs_accept a | None => mret tt end) ;;
   s ← get;
   each (abs_client ready) (seq 0 (ab_n s))) s.

(** Every descriptor belongs to one client and is not the server's own. *)
Record abs_inv (a : abs) : Prop := AbsInv {
  ai_distinct : distinct (fun i => ab_tab a !! i);
  ai_entry : forall i f u, ab_tab a !! i = Some (f, u) -> 0 <= f < open_max /\ f <> listenfd /\ (i < ab_n a)%nat
}.

(** Runs that end alike, in related states. *)
Definition same_run {A B} (wa : A -> H) (wb : B -> H) (R : A -> B -> Prop) (x : outcome A unit) (y : outcome B unit) : Prop :=
  match x, y with
  | Ret _ a, Ret _ b => R a b
  | Exit e a, Exit e' b => e = e' /\ wa a = wb b
  | _, _ => False
  end.
Lemma same_bind {A B} wa wb (R Q : A -> B -> Prop) (m1 : M A unit) (m2 : M B unit) k1 k2 a b :
  same_run wa wb R (m1 a) (m2 b) -> (forall a b, R a b -> same_run wa wb Q (k1 tt a) (k2 tt b)) -> same_run wa wb Q ((m1 ≫= k1) a) ((m2 ≫= k2) b).
Proof.
  intros H1 H2. unfold mbind, M_bind. destruct (m1 a) as [[] a'|e a'], (m2 b) as [[] b'|e' b']; cbn in H1; try done. by apply H2.
Qed.
Lemma same_each {A B} wa wb (R : A -> B -> Prop) b1 b2 l a b :
  (forall i a b, i ∈ l -> R a b -> same_run wa wb R (b1 i a) (b2 i b)) -> R a b -> same_run wa wb R (each b1 l a) (each b2 l b).
Proof.
  intros Hb. revert a b. induction l as [|i l IH]; intros a b HR; cbn [each]; [done|].
  apply (same_bind wa wb R R); [apply Hb; [by left|done]|]. intros a' b' HR'. apply IH; [|done]. intros j a1 b1' Hj. apply Hb. by right.
Qed.

Lemma fresh_entry a f : accept_fd ({[listenfd]} ∪ fds (ab_tab a)) = Some f -> 0 <= f < open_max /\ f <> listenfd /\ forall i u, ab_tab a !! i <> Some (f, u).
Proof.
  intros E. pose proof (accept_fresh _ _ E) as Hn. split_and!; [by eapply accept_range|by eapply accept_range|set_solver|].
  intros i u Hi. apply Hn, elem_of_union. right. apply elem_of_fds. by exists i, u.
Qed.
Lemma accept_inv a f u i : abs_inv a -> accept_fd ({[listenfd]} ∪ fds (ab_tab a)) = Some f ->
  abs_inv (Abs (<[i := (f, u)]> (ab_tab a)) (Nat.max (ab_n a) (S i)) (ab_world a)).
Proof.
  intros [D En] E. destruct (fresh_entry a f E) as (Hr & Hl & Hf). split; cbn.
  - intros j k g v w. rewrite !lookup_insert. repeat case_decide; intros; simplify_eq; try done; [by destruct (Hf k w)|by destruct (Hf j v)|by eapply D].
  - intros j g v. rewrite lookup_insert. case_decide; [intros; simplify_eq; split_and!; try done; lia|]. intros Hj. destruct (En _ _ _ Hj) as (? & ? & ?). split_and!; (done || lia).
Qed.
Lemma delete_inv a i : abs_inv a -> abs_inv (Abs (delete i (ab_tab a)) (ab_n a) (ab_world a)).
Proof.
  intros [D En]. split; cbn.
  - intros j k g v w. rewrite !lookup_delete. repeat case_decide; try done. apply D.
  - intros j g v. rewrite lookup_delete. case_decide; [done|]. apply En.
Qed.
Lemma world_inv a w : abs_inv a -> abs_inv (Abs (ab_tab a) (ab_n a) w).
Proof. by intros [D En]. Qed.

(** ** The loop with [select] *)

(** A round of the world as turns of this loop: after accepting a client it calls
    [select] again, which reports the others. *)
Definition select_round (r : round) : M (select_state (H := H)) unit := fun s =>
  let ready := ready_of (sl_allset s ∖ {[listenfd]}) r in
  ((match rd_accept r with Some a => select_turn handler (Round (Some a) ready ∅) | None => mret tt end) ;;
   select_turn handler (Round None ready ∅)) s.

Record rep_sel (a : abs) (s : select_state) : Prop := RepSel {
  rs_inv : abs_inv a;
  rs_tab : forall i, ent (sl_clients s) i = ab_tab a !! i;
  rs_ok : table_ok (sl_clients s);
  rs_n : Z.of_nat (ab_n a) = sl_maxi s + 1 /\ (ab_n a <= length (sl_clients s))%nat;
  rs_set : sl_allset s = {[listenfd]} ∪ fds (ab_tab a);
  rs_world : ab_world a = sl_world s
}.
Lemma fds_insert T i f u : T !! i = None -> fds (<[i := (f, u)]> T) = {[f]} ∪ fds T.
Proof.
  intros Hn. apply set_eq. intros g. rewrite elem_of_union, elem_of_singleton, !elem_of_fds. split.
  - intros (j & v & Hj). rewrite lookup_insert in Hj. case_decide; simplify_eq; [by left|]. right. by exists j, v.
  - intros [->|(j & v & Hj)]; [exists i, u; by rewrite lookup_insert_eq|]. exists j, v. rewrite lookup_insert_ne; [done|congruence].
Qed.
Lemma fds_delete T i f u : distinct (fun i => T !! i) -> T !! i = Some (f, u) -> fds (delete i T) = fds T ∖ {[f]}.
Proof.
  intros D Hi. apply set_eq. intros g. rewrite elem_of_difference, elem_of_singleton, !elem_of_fds. split.
  - intros (j & v & Hj). rewrite lookup_delete in Hj. case_decide as Hd; [done|]. split; [by exists j, v|]. intros ->. apply Hd. by apply (D i j f u v).
  - intros [(j & v & Hj) Hne]. exists j, v. rewrite lookup_delete_ne; [done|congruence].
Qed.
Lemma ent_entry l i f u : ent l i = Some (f, u) -> exists c, l !! i = Some c /\ fd c = f /\ uid c = u.
Proof. unfold ent. destruct (l !! i) as [c|]; [|done]. destruct (fd c =? -1); [done|]. intros [= <- <-]. by exists c. Qed.
Lemma ent_free l i c : l !! i = Some c -> ent l i = None -> fd c = -1.
Proof. unfold ent. intros ->. destruct (fd c =? -1) eqn:E; [|done]. by bsimp. Qed.

Lemma sel_accept a s x ready : open_max <= FD_SETSIZE -> rep_sel a s -> same_run ab_world sl_world rep_sel (abs_accept x a) (select_turn handler (Round (Some x) ready ∅) s).
Proof.
  intros Hmax [I Ht Hok [Hn Hl] Hs Hw]. unfold select_turn, select_accept, abs_accept. cbn [rd_accept]. rewrite Hs.
  destruct x as [u|]; [|done]. destruct (accept_fd _) as [f|] eqn:E; [|done]. destruct (fresh_entry a f E) as (Hr & _ & _).
  destruct (client_add_spec f u (sl_clients s) ltac:(lia) Hok) as (Ok' & Hf & Hb & He & Hi & Hl').
  destruct (client_add f u (sl_clients s)) as [i l']. cbn [fst snd] in *. bfalse (FD_SETSIZE <=? f).
  assert (Hli : least (ab_tab a) = i) by (apply least_unique; [by rewrite <- Ht|intros j Hj; rewrite <- Ht; by apply Hb]).
  cbn zeta. rewrite Hli. split; cbn [ab_tab ab_n ab_world sl_clients sl_maxi sl_allset sl_world].
  - by apply accept_inv.
  - intros j. rewrite He, lookup_insert. repeat case_decide; done || congruence.
  - done.
  - split; lia.
  - rewrite fds_insert by (by rewrite <- Ht). set_solver.
  - done.
Qed.
Lemma sel_client n a s ready i : (i < n)%nat -> rep_sel a s /\ ab_n a = n ->
  forall rset, (forall f, f ∈ fds (ab_tab a) -> rset !! f = ready !! f) ->
  same_run ab_world sl_world (fun a' s' => (rep_sel a' s' /\ ab_n a' = n) /\ fds (ab_tab a') ⊆ fds (ab_tab a)) (abs_client ready i a) (select_client handler rset i s).
Proof.
  intros Hi [[I Ht Hok [Hn Hl] Hs Hw] Hna] rset Hr. unfold abs_client, select_client.
  destruct (sl_clients s !! i) as [c|] eqn:Ec; [|apply lookup_ge_None in Ec; lia].
  destruct (ab_tab a !! i) as [[f u]|] eqn:Ei.
  - pose proof (Ht i) as Hti. rewrite Ei in Hti. destruct (ent_entry _ _ _ _ Hti) as (c' & Ec' & Hf & Hu). rewrite Ec in Ec'. injection Ec' as <-. rewrite Hf, Hu.
    destruct (ai_entry a I _ _ _ Ei) as (Hrange & _ & _). bfalse (f <? 0). rewrite Hr by (apply elem_of_fds; by exists i, u).
    destruct (ready !! f) as [[w0|]|]; [|by split|by split]. destruct (server_read w0) as [|b bs].
    + destruct (client_del_spec f u (sl_clients s) i) as (l' & -> & Ok' & Hl' & He'); [|done|done|].
      { intros j k g v w. rewrite !Ht. apply (ai_distinct a I). }
      split; [|cbn; rewrite (fds_delete _ _ _ _ (ai_distinct a I) Ei); set_solver].
      split; [|done]. split; cbn [ab_tab ab_n ab_world sl_clients sl_maxi sl_allset sl_world].
      * by apply delete_inv.
      * intros j. rewrite He', lookup_delete. repeat case_decide; done || congruence.
      * done.
      * split; lia.
      * rewrite (fds_delete _ _ _ _ (ai_distinct a I) Ei), Hs. destruct (ai_entry a I _ _ _ Ei) as (_ & Hne & _). set_solver.
      * done.
    + rewrite Hw. destruct (handler _ _ _ _) as [[] w|e w]; [|done]. split; [|done]. split; [|done]. split; try done. by apply world_inv.
  - pose proof (Ht i) as Hti. rewrite Ei in Hti. pose proof (ent_free _ _ _ Ec Hti) as Hf. rewrite Hf. change (-1 <? 0) with true. cbn iota. by split.
Qed.
Lemma allset_clients a X : abs_inv a -> X = {[listenfd]} ∪ fds (ab_tab a) -> X ∖ {[listenfd]} = fds (ab_tab a).
Proof.
  intros I ->. apply set_eq. intros f. rewrite elem_of_difference, elem_of_union, elem_of_singleton. split; [tauto|].
  intros Hf. split; [by right|]. apply elem_of_fds in Hf as (i & u & Hi). by destruct (ai_entry a I _ _ _ Hi) as (_ & ? & _).
Qed.
Lemma sel_serve a s ready : rep_sel a s -> same_run ab_world sl_world rep_sel ((s ← get; each (abs_client ready) (seq 0 (ab_n s))) a) (select_turn handler (Round None ready ∅) s).
Proof.
  intros Hrep. unfold mbind, M_bind, get, select_turn. cbn [rd_accept rd_ready].
  unfold readable. cbn [rd_ready rd_hup]. rewrite gset_to_gmap_empty, map_union_empty. set (rset := filter _ ready). assert (Hr : forall f, f ∈ fds (ab_tab a) -> rset !! f = ready !! f).
  { intros f Hf. unfold rset. rewrite lookup_restrict, decide_True; [done|]. rewrite (rs_set a s Hrep). set_solver. }
  replace (Z.to_nat (sl_maxi s + 1)) with (ab_n a) by (destruct Hrep as [_ _ _ [Hn _] _ _]; lia).
  pose (R := fun a' s' => (rep_sel a' s' /\ ab_n a' = ab_n a) /\ fds (ab_tab a') ⊆ fds (ab_tab a)).
  assert (HR : same_run ab_world sl_world R (each (abs_client ready) (seq 0 (ab_n a)) a) (each (select_client handler rset) (seq 0 (ab_n a)) s)).
  { apply same_each; [|by split]. intros i a1 s1 Hi [H1 H2]. apply elem_of_seq in Hi.
    pose proof (sel_client (ab_n a) a1 s1 ready i ltac:(lia) H1 rset ltac:(set_solver)) as Hs.
    destruct (abs_client ready i a1) as [[] a2|], (select_client handler rset i s1) as [[] s2|]; cbn in Hs |- *; try done. destruct Hs as [H3 H4]. split; [done|set_solver]. }
  destruct (each _ _ a) as [[] a2|], (each _ _ s) as [[] s2|]; cbn in HR |- *; try done. by destruct HR as [[? _] _].
Qed.
Lemma sel_round a s r : open_max <= FD_SETSIZE -> rep_sel a s -> same_run ab_world sl_world rep_sel (abs_round r a) (select_round r s).
Proof.
  intros Hmax Hrep. unfold abs_round, select_round. rewrite (allset_clients a (sl_allset s) (rs_inv a s Hrep) (rs_set a s Hrep)).
  eapply same_bind.
  - destruct (rd_accept r) as [x|]; [by apply sel_accept|]. exact Hrep.
  - intros a1 s1 H1. by apply sel_serve.
Qed.

(** ** The loop with [poll] *)

(** The array [client] begins with the entry of the server's own descriptor. *)
Definition own : Client := MkClient listenfd 0.
Definition slot_fd (T : gmap nat (Z * Z)) (i : nat) : Z := match T !! i with Some (f, _) => f | None => -1 end.
Record rep_fds (a : abs) (l : list Client) (p0 : pollfd) (q : list pollfd) : Prop := RepFds {
  rf_inv : abs_inv a;
  rf_tab : forall i, ent l i = ab_tab a !! i;
  rf_ok : table_ok l;
  rf_n : (ab_n a <= length l)%nat;
  rf_own : p_fd p0 = listenfd;
  rf_slots : forall i, (i < ab_n a)%nat -> exists e, q !! i = Some e /\ p_fd e = slot_fd (ab_tab a) i;
  rf_len : Z.of_nat (S (length q)) = open_max
}.
Inductive rep_pol : abs -> poll_state -> Prop :=
  | RepPol a l p0 q : rep_fds a l p0 q -> (forall i e, (ab_n a <= i)%nat -> q !! i = Some e -> p_revents e = NoEvents) ->
      rep_pol a (Pol (own :: l) (p0 :: q) (Z.of_nat (ab_n a)) (ab_world a)).

(** While a round is handled: what [poll] reported for the clients of [F]; the one that came since has nothing reported. *)
Definition reported (r : round) (F : gset Z) (f : Z) : revents :=
  if decide (f ∈ F) then Rev (bool_decide (is_Some (rd_ready r !! f))) (bool_decide (f ∈ rd_hup r)) else NoEvents.
Inductive rep_mid (r : round) (F : gset Z) : abs -> poll_state -> Prop :=
  | RepMid a l p0 q : rep_fds a l p0 q -> (forall i e, (ab_n a <= i)%nat -> q !! i = Some e -> p_revents e = NoEvents) ->
      (forall i e f u, ab_tab a !! i = Some (f, u) -> q !! i = Some e -> p_revents e = reported r F f) ->
      rep_mid r F a (Pol (own :: l) (p0 :: q) (Z.of_nat (ab_n a)) (ab_world a)).

Lemma live_table l : table_ok l -> forall f, f ∈ live l <-> exists i u, ent l i = Some (f, u).
Proof.
  intros Hok f. unfold live. rewrite elem_of_list_to_set, list_elem_of_filter, list_elem_of_fmap. split.
  - intros [Hne (c & -> & Hc)]. apply list_elem_of_lookup in Hc as [i Hi]. exists i, (uid c). unfold ent. rewrite Hi. by bfalse (fd c =? -1).
  - intros (i & u & Hi). destruct (ent_entry _ _ _ _ Hi) as (c & Hc & <- & _). split.
    + unfold ent in Hi. rewrite Hc in Hi. destruct (fd c =? -1) eqn:E; [done|]. by bsimp.
    + exists c. split; [done|]. by eapply list_elem_of_lookup_2.
Qed.
Lemma live_own a l : 0 <= listenfd -> table_ok l -> (forall i, ent l i = ab_tab a !! i) -> live (own :: l) = {[listenfd]} ∪ fds (ab_tab a).
Proof.
  intros Hl Hok Ht. apply set_eq. intros f. rewrite elem_of_union, elem_of_singleton, elem_of_fds.
  assert (Hc : live (own :: l) = {[listenfd]} ∪ live l) by (unfold live, own; cbn [map fd]; rewrite filter_cons_True by lia; done).
  rewrite Hc, elem_of_union, elem_of_singleton, live_table by done. by setoid_rewrite Ht.
Qed.
Lemma client_add_own f u l : 0 <= listenfd -> 0 <= f -> table_ok l -> exists i l', client_add f u (own :: l) = (S i, own :: l') /\ added f u l i l'.
Proof.
  intros Hl Hf Hok. unfold client_add. cbn [free_entry]. change (fd own) with listenfd. bfalse (listenfd =? -1).
  destruct (free_entry l) as [i|] eqn:E; cbn [fmap option_fmap option_map].
  - exists i, (<[i := MkClient f u]> l). split; [done|]. by apply added_at.
  - change (client_alloc (own :: l)) with (own :: client_alloc l). cbn [free_entry]. change (fd own) with listenfd. bfalse (listenfd =? -1).
    rewrite (free_entry_alloc l E). cbn [fmap option_fmap option_map]. do 2 eexists. split; [done|].
    apply added_at; [done|by apply alloc_ok|intros j; by rewrite ent_alloc|unfold client_alloc; rewrite length_app; lia|by apply free_entry_alloc].
Qed.
Lemma client_del_own f l : f <> listenfd -> client_del f (own :: l) = cons own <$> client_del f l.
Proof. intros Hf. unfold client_del. cbn [entry_of]. change (fd own) with listenfd. bfalse (listenfd =? f). by destruct (entry_of f l). Qed.

(** The array [pollfd] is long enough: the slots before a free one have distinct descriptors. *)
Lemma slot_in_array a f : abs_inv a -> 0 <= listenfd < open_max -> accept_fd ({[listenfd]} ∪ fds (ab_tab a)) = Some f ->
  forall i, (forall j, (j < i)%nat -> is_Some (ab_tab a !! j)) -> Z.of_nat i + 2 <= open_max.
Proof.
  intros I Hl E i Hi. destruct (fresh_entry a f E) as (Hr & Hfl & Hff). set (L := listenfd :: f :: map (slot_fd (ab_tab a)) (seq 0 i)).
  assert (Hslot : forall j, (j < i)%nat -> exists u, ab_tab a !! j = Some (slot_fd (ab_tab a) j, u)).
  { intros j Hj. destruct (Hi j Hj) as [[g u] Hg]. exists u. unfold slot_fd. by rewrite Hg. }
  assert (HN : NoDup L).
  { apply NoDup_cons. split.
    { rewrite elem_of_cons, list_elem_of_fmap. intros [?|(j & Hj & Hin%elem_of_seq)]; [done|]. destruct (Hslot j ltac:(lia)) as [u Hu].
      destruct (ai_entry a I _ _ _ Hu) as (_ & ? & _). congruence. }
    apply NoDup_cons. split.
    { rewrite list_elem_of_fmap. intros (j & Hj & Hin%elem_of_seq). destruct (Hslot j ltac:(lia)) as [u Hu]. apply (Hff j u). congruence. }
    apply NoDup_fmap_2_strong; [|apply NoDup_seq]. intros j k [_ Hj]%elem_of_seq [_ Hk]%elem_of_seq Ejk.
    destruct (Hslot j ltac:(lia)) as [u Hu], (Hslot k ltac:(lia)) as [v Hv]. rewrite Ejk in Hu. exact (ai_distinct a I j k _ u v Hu Hv). }
  assert (HS : L ⊆+ seqZ 0 open_max).
  { apply NoDup_submseteq; [done|]. intros g. rewrite elem_of_seqZ. unfold L. rewrite !elem_of_cons, list_elem_of_fmap.
    intros [->|[->|(j & -> & Hin%elem_of_seq)]]; [lia|lia|]. destruct (Hslot j ltac:(lia)) as [u Hu]. destruct (ai_entry a I _ _ _ Hu) as (? & _ & _). lia. }
  apply submseteq_length in HS. unfold L in HS. cbn [length] in HS. rewrite length_map, length_seq, length_seqZ in HS. lia.
Qed.

Lemma lookup_poll_fds n r q i : poll_fds listenfd n r q !! i =
  match q !! i with Some e => Some (if decide (i < n)%nat then Pfd (p_fd e) (answers listenfd r (p_fd e)) else e) | None => None end.
Proof.
  revert q i. induction n as [|n IH]; intros q i; cbn [poll_fds].
  - destruct (q !! i); [|done]. by rewrite decide_False by lia.
  - destruct q as [|e q]; [done|]. destruct i as [|i]; [done|]. cbn. rewrite IH. destruct (q !! i); [|done]. repeat case_decide; (done || lia).
Qed.
Lemma length_poll_fds n r q : length (poll_fds listenfd n r q) = length q.
Proof. revert q. induction n as [|n IH]; intros [|e q]; cbn; auto. Qed.

(** After [poll]: nothing is reported for free slots either. *)
Lemma poll_reports a l p0 q r : rep_fds a l p0 q -> (forall i e, (ab_n a <= i)%nat -> q !! i = Some e -> p_revents e = NoEvents) ->
  let q' := poll_fds listenfd (ab_n a) r q in
  rep_fds a l (Pfd listenfd (answers listenfd r listenfd)) q' /\ (forall i e, (ab_n a <= i)%nat -> q' !! i = Some e -> p_revents e = NoEvents) /\
  (forall i e f u, ab_tab a !! i = Some (f, u) -> q' !! i = Some e -> p_revents e = reported r (fds (ab_tab a)) f) /\
  (forall i e, ab_tab a !! i = None -> q' !! i = Some e -> p_revents e = NoEvents).
Proof.
  intros [I Ht Hok Hn Ho Hsl Hlen] Hnew q'.
  assert (Hq : forall i e, q' !! i = Some e -> (i < ab_n a)%nat -> p_revents e = answers listenfd r (slot_fd (ab_tab a) i)).
  { intros i e Hi Hlt. unfold q' in Hi. rewrite lookup_poll_fds in Hi. destruct (Hsl i Hlt) as (e0 & He0 & Hf0). rewrite He0, decide_True in Hi by done.
    injection Hi as <-. cbn. by rewrite Hf0. }
  assert (Hge : forall i e, (ab_n a <= i)%nat -> q' !! i = Some e -> p_revents e = NoEvents).
  { intros i e Hi He. unfold q' in He. rewrite lookup_poll_fds in He. destruct (q !! i) as [e0|] eqn:E0; [|done]. rewrite decide_False in He by lia.
    injection He as <-. by eapply Hnew. }
  split_and!; [split; try done| | |]; try done.
  - intros i Hi. destruct (Hsl i Hi) as (e & He & Hf). exists (Pfd (p_fd e) (answers listenfd r (p_fd e))). unfold q'. rewrite lookup_poll_fds, He, decide_True by done. done.
  - unfold q'. by rewrite length_poll_fds.
  - intros i e f u Hi He. destruct (ai_entry a I _ _ _ Hi) as (Hr & Hne & Hlt). rewrite (Hq i e He Hlt). unfold slot_fd. rewrite Hi. unfold answers, reported.
    bfalse (f <? 0). bfalse (f =? listenfd). rewrite decide_True; [done|]. apply elem_of_fds. by exists i, u.
  - intros i e Hi He. destruct (decide (i < ab_n a)%nat) as [Hlt|Hlt]; [|apply (Hge i e); [lia|done]]. rewrite (Hq i e He Hlt). unfold slot_fd. by rewrite Hi.
Qed.
Lemma lookup_ready F r f : ready_of F (lose_unread r) !! f = if decide (f ∈ F) then (if decide (f ∈ rd_hup r) then Some (Some []) else rd_ready r !! f) else None.
Proof.
  unfold ready_of, readable. rewrite lookup_restrict. destruct (decide (f ∈ F)); [|done]. cbn [lose_unread rd_ready rd_hup]. destruct (decide (f ∈ rd_hup r)).
  - apply lookup_union_Some_l, lookup_union_Some_l. by apply lookup_gset_to_gmap_Some.
  - rewrite lookup_union_l, lookup_union_r by (by apply lookup_gset_to_gmap_None). done.
Qed.

Lemma set_pfd_S i g p0 q e : q !! i = Some e -> set_pfd (S i) g (p0 :: q) = Some (p0 :: alter g i q).
Proof. intros E. unfold set_pfd. change ((p0 :: q) !! S i) with (q !! i). by rewrite E. Qed.
Lemma pol_accept a l p0 q x r : 0 <= listenfd < open_max -> rep_fds a l p0 q -> (forall i e, (ab_n a <= i)%nat -> q !! i = Some e -> p_revents e = NoEvents) ->
  (forall i e f u, ab_tab a !! i = Some (f, u) -> q !! i = Some e -> p_revents e = reported r (fds (ab_tab a)) f) ->
  (forall i e, ab_tab a !! i = None -> q !! i = Some e -> p_revents e = NoEvents) ->
  same_run ab_world pl_world (rep_mid r (fds (ab_tab a))) (abs_accept x a) (poll_accept x (Pol (own :: l) (p0 :: q) (Z.of_nat (ab_n a)) (ab_world a))).
Proof.
  intros Hl [I Ht Hok Hn Ho Hsl Hlen] Hge Hrep Hfree. unfold poll_accept, abs_accept. cbn [pl_clients pl_fds pl_maxi pl_world].
  rewrite (live_own a l) by (done || lia). destruct x as [u|]; [|done]. destruct (accept_fd _) as [f|] eqn:E; [|done]. destruct (fresh_entry a f E) as (Hr & Hfl & Hff).
  destruct (client_add_own f u l ltac:(lia) ltac:(lia) Hok) as (i & l' & -> & Ok' & Hi & Hb & He & Hil & Hll).
  assert (Hbt : forall j, (j < i)%nat -> is_Some (ab_tab a !! j)) by (intros j Hj; rewrite <- Ht; by apply Hb).
  rewrite (least_unique (ab_tab a) i) by (done || by rewrite <- Ht). pose proof (slot_in_array a f I Hl E i Hbt) as Hcap.
  destruct (lookup_lt_is_Some_2 q i) as [e Hq]; [lia|]. rewrite (set_pfd_S _ _ _ _ e Hq).
  assert (Hlt : forall j, (j < i)%nat -> (j < ab_n a)%nat) by (intros j Hj; destruct (Hbt j Hj) as [[g v] Hg]; by destruct (ai_entry a I _ _ _ Hg) as (_ & _ & ?)).
  cbn zeta. set (q' := alter _ i q). set (a' := Abs (<[i := (f, u)]> (ab_tab a)) (Nat.max (ab_n a) (S i)) (ab_world a)).
  assert (Hq' : forall j, j <> i -> q' !! j = q !! j) by (intros j Hj; unfold q'; by rewrite list_lookup_alter_ne).
  assert (Hqi : q' !! i = Some (Pfd f (p_revents e))) by (unfold q'; by rewrite list_lookup_alter_eq, Hq).
  assert (Hti : ab_tab a !! i = None) by (by rewrite <- Ht).
  replace (Z.max (Z.of_nat (ab_n a)) (Z.of_nat (S i))) with (Z.of_nat (ab_n a')) by (cbn; lia). apply (RepMid r (fds (ab_tab a)) a' l' p0 q').
  - split; cbn [ab_tab ab_n a']; try done.
    + by apply accept_inv.
    + intros j. rewrite He, lookup_insert. repeat case_decide; done || congruence.
    + lia.
    + intros j Hj. destruct (decide (j = i)) as [->|Hji].
      * eexists. split; [exact Hqi|]. unfold slot_fd. by rewrite lookup_insert_eq.
      * rewrite Hq' by done. unfold slot_fd. rewrite lookup_insert_ne by done. apply Hsl. destruct (decide (j < i)%nat); [by apply Hlt|lia].
    + unfold q'. by rewrite length_alter.
  - cbn [ab_n a']. intros j d Hj Hd. rewrite Hq' in Hd by lia. apply (Hge j d); [lia|done].
  - cbn [ab_tab a']. intros j d g v Hj Hd. destruct (decide (j = i)) as [->|Hji].
    + rewrite lookup_insert_eq in Hj. injection Hj as <- <-. rewrite Hqi in Hd. injection Hd as <-. cbn. unfold reported. rewrite decide_False; [by apply (Hfree i e)|].
      intros (k & w & Hk)%elem_of_fds. by apply (Hff k w).
    + rewrite lookup_insert_ne in Hj by done. rewrite Hq' in Hd by done. by apply (Hrep j d g v).
Qed.

Lemma pol_hungup r F a l p0 q i f u : rep_fds a l p0 q -> (forall i e, (ab_n a <= i)%nat -> q !! i = Some e -> p_revents e = NoEvents) ->
  (forall i e f u, ab_tab a !! i = Some (f, u) -> q !! i = Some e -> p_revents e = reported r F f) -> ab_tab a !! i = Some (f, u) ->
  exists s', poll_hungup (S i) f (Pol (own :: l) (p0 :: q) (Z.of_nat (ab_n a)) (ab_world a)) = Ret tt s' /\ rep_mid r F (Abs (delete i (ab_tab a)) (ab_n a) (ab_world a)) s'.
Proof.
  intros [I Ht Hok Hn Ho Hsl Hlen] Hge Hrep Hi. destruct (ai_entry a I _ _ _ Hi) as (Hr & Hfl & Hin).
  unfold poll_hungup. cbn [pl_clients pl_fds pl_maxi pl_world]. rewrite client_del_own by done.
  destruct (client_del_spec f u l i) as (l' & -> & Ok' & Hl' & He'); [intros j k g v w; rewrite !Ht; apply (ai_distinct a I)|by rewrite Ht|done|].
  cbn [fmap option_fmap option_map]. destruct (Hsl i Hin) as (e & He & Hf). rewrite (set_pfd_S _ _ _ _ e He).
  eexists. split; [done|]. set (q' := alter _ i q).
  assert (Hq' : forall j, j <> i -> q' !! j = q !! j) by (intros j Hj; unfold q'; by rewrite list_lookup_alter_ne).
  apply (RepMid r F (Abs (delete i (ab_tab a)) (ab_n a) (ab_world a)) l' p0 q').
  - split; cbn [ab_tab ab_n]; try done.
    + by apply delete_inv.
    + intros j. rewrite He', lookup_delete. repeat case_decide; done || congruence.
    + lia.
    + intros j Hj. unfold slot_fd. destruct (decide (j = i)) as [->|Hji].
      * rewrite lookup_delete_eq. unfold q'. rewrite list_lookup_alter_eq, He. by eexists.
      * rewrite lookup_delete_ne, Hq' by done. by apply Hsl.
    + unfold q'. by rewrite length_alter.
  - cbn [ab_n]. intros j d Hj Hd. rewrite Hq' in Hd by lia. by apply (Hge j d).
  - cbn [ab_tab]. intros j d g v Hj Hd. rewrite lookup_delete in Hj. case_decide; [done|]. rewrite Hq' in Hd by done. by apply (Hrep j d g v).
Qed.
Lemma pol_client r F n a s i : (i < n)%nat -> rep_mid r F a s /\ ab_n a = n ->
  same_run ab_world pl_world (fun a' s' => rep_mid r F a' s' /\ ab_n a' = n) (abs_client (ready_of F (lose_unread r)) i a) (poll_client handler r (S i) s).
Proof.
  intros Hi [Hm Hna]. destruct Hm as [a l p0 q Hf Hge Hrep]. pose proof Hf as [I Ht Hok Hn Ho Hsl Hlen].
  unfold abs_client, poll_client. cbn [pl_clients pl_fds pl_world]. change ((own :: l) !! S i) with (l !! i). change ((p0 :: q) !! S i) with (q !! i).
  destruct (l !! i) as [c|] eqn:Ec; [|apply lookup_ge_None in Ec; lia]. destruct (Hsl i ltac:(lia)) as (e & He & Hfd). rewrite He.
  destruct (ab_tab a !! i) as [[f u]|] eqn:Ei; pose proof (Ht i) as Hti; rewrite Ei in Hti.
  2: { rewrite (ent_free _ _ _ Ec Hti). change (-1 <? 0) with true. cbn iota. by split; [apply RepMid|]. }
  destruct (ent_entry _ _ _ _ Hti) as (c' & Ec' & Hcf & Hcu). rewrite Ec in Ec'. injection Ec' as <-. rewrite Hcf, Hcu.
  destruct (ai_entry a I _ _ _ Ei) as (Hr & Hfl & _). bfalse (f <? 0). rewrite (Hrep i e f u Ei He), lookup_ready. unfold reported.
  destruct (pol_hungup r F a l p0 q i f u Hf Hge Hrep Ei) as (s' & Es & Hs).
  destruct (decide (f ∈ F)); cbn [POLLHUP POLLIN NoEvents]; [|by split; [apply RepMid|]].
  destruct (decide (f ∈ rd_hup r)); [rewrite bool_decide_true by done|rewrite bool_decide_false by done].
  { unfold server_read. rewrite take_nil, Es. by split. }
  destruct (rd_ready r !! f) as [[w0|]|] eqn:Er; [rewrite bool_decide_true by done; destruct (server_read w0) as [|b bs]|rewrite bool_decide_true by done|rewrite bool_decide_false by (by intros [? ?])].
  - rewrite Es. by split.
  - destruct (handler (b :: bs) f u (ab_world a)) as [[] w|ex w]; [|done]. split; [|done].
    apply (RepMid r F (Abs (ab_tab a) (ab_n a) w) l p0 q); [|done|done]. split; try done. by apply world_inv.
  - done.
  - by split; [apply RepMid|].
Qed.

Lemma mid_pol r F a s : rep_mid r F a s -> rep_pol a s.
Proof. intros [a' l p0 q H1 H2 _]. by apply RepPol. Qed.
Lemma seq_each_S {T} (body : nat -> M T unit) k n s : each body (seq (S k) n) s = each (fun i => body (S i)) (seq k n) s.
Proof. revert k s. induction n as [|n IH]; intros k s; [done|]. cbn [seq each]. unfold mbind, M_bind. destruct (body (S k) s) as [[] s'|]; [apply IH|done]. Qed.
Lemma pol_serve r F a s : rep_mid r F a s ->
  same_run ab_world pl_world rep_pol ((s ← get; each (abs_client (ready_of F (lose_unread r))) (seq 0 (ab_n s))) a) ((s ← get; each (poll_client handler r) (seq 1 (Z.to_nat (pl_maxi s)))) s).
Proof.
  intros Hm. unfold mbind, M_bind, get. replace (Z.to_nat (pl_maxi s)) with (ab_n a) by (destruct Hm; cbn; lia). rewrite seq_each_S.
  assert (HR : same_run ab_world pl_world (fun a' s' => rep_mid r F a' s' /\ ab_n a' = ab_n a) (each (abs_client (ready_of F (lose_unread r))) (seq 0 (ab_n a)) a)
    (each (fun i => poll_client handler r (S i)) (seq 0 (ab_n a)) s)).
  { apply same_each; [|by split]. intros i a1 s1 Hi H1. apply elem_of_seq in Hi. apply pol_client; [lia|done]. }
  destruct (each _ _ a) as [[] a2|], (each _ _ s) as [[] s2|]; cbn in HR |- *; try done. destruct HR as [HR _]. by apply mid_pol in HR.
Qed.
Lemma pol_round a s r : 0 <= listenfd < open_max -> rep_pol a s -> same_run ab_world pl_world rep_pol (abs_round (lose_unread r) a) (poll_turn handler listenfd r s).
Proof.
  intros Hl Hrep. destruct Hrep as [a l p0 q Hf Hge]. unfold poll_turn. rewrite bind_ret with (a := tt)
    (s' := Pol (own :: l) (Pfd listenfd (answers listenfd r listenfd) :: poll_fds listenfd (ab_n a) r q) (Z.of_nat (ab_n a)) (ab_world a)).
  2: { unfold modify. cbn [pl_clients pl_fds pl_maxi pl_world]. replace (Z.to_nat (Z.of_nat (ab_n a) + 1)) with (S (ab_n a)) by lia. cbn [poll_fds]. by rewrite (rf_own _ _ _ _ Hf). }
  destruct (poll_reports a l p0 q r Hf Hge) as (H1 & H2 & H3 & H4). set (q' := poll_fds _ _ _ _) in *.
  unfold get at 1. unfold mbind at 1, M_bind at 1. cbn [pl_fds p_revents]. unfold abs_round. cbn [lose_unread rd_accept].
  assert (Hans : answers listenfd r listenfd = Rev (bool_decide (is_Some (rd_accept r))) false).
  { unfold answers. bfalse (listenfd <? 0). by rewrite Z.eqb_refl. }
  rewrite Hans in *. cbn [POLLIN]. apply (same_bind ab_world pl_world (rep_mid r (fds (ab_tab a)))).
  - destruct (rd_accept r) as [x|].
    + rewrite bool_decide_true by done. by apply pol_accept.
    + rewrite bool_decide_false by (by intros [? ?]). by apply RepMid.
  - intros a1 s1 Hm. by apply pol_serve.
Qed.

(** ** Runs *)

Fixpoint rounds {S} (turn : round -> M S unit) (rs : list round) : M S unit :=
  match rs with [] => mret tt | r :: rs' => turn r ;; rounds turn rs' end.
Lemma same_rounds {A B} wa wb (R : A -> B -> Prop) t1 t2 rs a b :
  (forall r a b, R a b -> same_run wa wb R (t1 r a) (t2 r b)) -> R a b -> same_run wa wb R (rounds t1 rs a) (rounds t2 rs b).
Proof.
  intros Ht. revert a b. induction rs as [|r rs IH]; intros a b HR; cbn [rounds]; [done|]. apply (same_bind wa wb R); [by apply Ht|]. intros a' b' HR'. by apply IH.
Qed.
Lemma abs0_inv h : abs_inv (abs0 h).
Proof. split; cbn; [intros i j f u v|intros i f u]; rewrite lookup_empty; done. Qed.
Lemma sel0 h : rep_sel (abs0 h) (select0 listenfd h).
Proof.
  split; cbn [abs0 select0 ab_tab ab_n ab_world sl_clients sl_maxi sl_allset sl_world]; try done.
  - by constructor.
  - change (fds ∅) with (∅ : gset Z). set_solver.
Qed.
Lemma pol0 mem h : 0 <= listenfd < open_max -> Z.of_nat (length mem) = open_max -> Forall (fun p => p_revents p = NoEvents) (tail mem) ->
  exists s, poll0 listenfd mem h = Some s /\ rep_pol (abs0 h) s.
Proof.
  intros Hl Hm Hz. destruct mem as [|p0 q]; [cbn in Hm; lia|]. cbn [tail] in Hz. eexists. split; [done|].
  change (Pol _ _ 0 h) with (Pol (own :: replicate 9 (MkClient (-1) 0)) (Pfd listenfd (p_revents p0) :: q) (Z.of_nat (ab_n (abs0 h))) (ab_world (abs0 h))).
  apply RepPol; [split|]; cbn [abs0 ab_tab ab_n].
  - apply abs0_inv.
  - intros i. rewrite lookup_empty. unfold ent. destruct (_ !! i) as [c|] eqn:E; [|done]. by apply lookup_replicate in E as [-> _].
  - apply Forall_replicate. by left.
  - lia.
  - done.
  - lia.
  - done.
  - intros i e _ He. rewrite Forall_lookup in Hz. by apply (Hz i).
Qed.
End Simulation.
