(* ===== verification/OpenTheorems.v ===== *)
(** The theorems on the open servers of [src/apue2e]. *)
From S2P Require Import Prelude CStr ReadN FdPass CallArgs OpenServer OpenLoop.

(** ** A client and its server *)

Section Request.
Context `{E : OpenEnv}.

Definition add_sent (msgs : list (Z * (list Z * option Z))) (s : opend) : opend :=
  Opend (od_errmsg s) (od_pathname s) (od_oflag s) (od_sent s ++ msgs) (od_files s).
Lemma od_sendmsg_ok to bs d s : cl_writable to = true -> od_sendmsg to bs d s = Ret (Z.of_nat (length bs)) (add_sent [(to, (bs, d))] s).
Proof. unfold od_sendmsg. by intros ->. Qed.
Lemma add_sent_add m1 m2 s : add_sent m2 (add_sent m1 s) = add_sent (m1 ++ m2) s.
Proof. unfold add_sent. cbn. by rewrite <- app_assoc. Qed.
Lemma reply_error_ok to s : cl_writable to = true -> od_errmsg s <> [] ->
  reply_error to s = Ret tt (add_sent [(to, (od_errmsg s, None)); (to, ([0; 1], None))] s).
Proof.
  intros Hw Hm. unfold reply_error, send_err. set (m := od_errmsg s) in *. assert (Hl : 0 < Z.of_nat (length m)) by (destruct m; [done|cbn; lia]).
  btrue (0 <? Z.of_nat (length m)). assert (Hwr : writen (od_write to) m s = Ret (Z.of_nat (length m)) (add_sent [(to, (m, None))] s)).
  { apply writen_once; [done|]. by apply od_sendmsg_ok. }
  rewrite (bind_ret _ _ _ _ _ Hwr), Z.eqb_refl. cbn [negb]. change (0 <=? -1) with false. cbn iota. unfold send_fd. change (-1 <? 0) with true. cbn iota.
  unfold mbind, M_bind. rewrite od_sendmsg_ok by done. rewrite add_sent_add. done.
Qed.
Lemma open_fails failed to s errno : k_open (od_pathname s) (od_oflag s) = inl errno -> cl_writable to = true ->
  let msg := bytes "can't open " ++ od_pathname s ++ bytes ": " ++ strerror errno ++ [NEWLINE] in
  Z.of_nat (length msg) < MAXLINE ->
  open_and_send failed to s = Ret tt (add_sent [(to, (msg, None)); (to, ([0; 1], None))] (Opend msg (od_pathname s) (od_oflag s) (od_sent s) (od_files s))).
Proof.
  intros Ho Hw msg Hl. unfold open_and_send. unfold get at 1. unfold mbind at 1, M_bind at 1. rewrite Ho. fold msg.
  rewrite bind_ret with (a := tt) (s' := Opend msg (od_pathname s) (od_oflag s) (od_sent s) (od_files s)); [by apply reply_error_ok|].
  unfold od_error. by bfalse (MAXLINE <=? Z.of_nat (length msg)).
Qed.
Lemma open_fails_long failed to s errno : k_open (od_pathname s) (od_oflag s) = inl errno ->
  MAXLINE <= Z.of_nat (length (bytes "can't open " ++ od_pathname s ++ bytes ": " ++ strerror errno ++ [NEWLINE])) ->
  exists s', open_and_send failed to s = Exit (Undefined "sprintf past the end of errmsg") s'.
Proof.
  intros Ho Hl. unfold open_and_send. unfold get at 1. unfold mbind at 1, M_bind at 1. rewrite Ho. unfold od_error, mbind, M_bind. rewrite (proj2 (Z.leb_le _ _)) by done. by eexists.
Qed.
Lemma open_works failed to s nfd : k_open (od_pathname s) (od_oflag s) = inr nfd -> 0 <= nfd -> nfd ∉ od_files s -> cl_writable to = true ->
  open_and_send failed to s = Ret tt (add_sent [(to, ([0; 0], Some nfd))] s).
Proof.
  intros Ho Hn Hf Hw. unfold open_and_send. unfold get at 1. unfold mbind at 1, M_bind at 1. rewrite Ho.
  rewrite bind_ret with (a := tt) (s' := set_files (union {[nfd]}) s) by done.
  rewrite bind_ret with (a := 0) (s' := add_sent [(to, ([0; 0], Some nfd))] (set_files (union {[nfd]}) s)).
  2: { unfold send_fd. bfalse (nfd <? 0). cbn [negb]. unfold mbind, M_bind. by rewrite od_sendmsg_ok. }
  change (0 <? 0) with false. cbn iota. unfold modify, add_sent, set_files. cbn. do 2 f_equal. set_solver.
Qed.

Lemma dec_token n : 0 <= n -> token (dec n).
Proof.
  intros Hn. split; [intros Hd; pose proof (dec_length_pos n Hn) as Hl; rewrite Hd in Hl; cbn in Hl; lia|].
  eapply Forall_impl; [by apply dec_isdigit|]. intros c ?%isdigit_range. unfold white. split; [|lia]. bfalse (c =? 32). bfalse (c =? 9). by bfalse (c =? 10).
Qed.
(** The request of [csopen] is what [cli_args] reads. *)
Lemma csopen_request_ok name oflag : token name -> 0 <= oflag < 10 ^ 8 ->
  exists req, csopen_request name oflag = Some req /\ last req = Some 0 /\
  forall s, buf_args req cli_args s = Ret 0 (Opend (od_errmsg s) name oflag (od_sent s) (od_files s)).
Proof.
  intros Hn Ho. unfold csopen_request. assert (Hl : (length (dec oflag) <= 8)%nat) by (apply dec_length_le; [exact Ho|lia]).
  rewrite (proj2 (Z.leb_gt _ _)) by (cbn [app length]; lia).
  eexists. split; [done|]. split.
  - rewrite !app_assoc. by rewrite last_snoc.
  - intros s. unfold buf_args.
    replace (CL_OPEN ++ [SPACE] ++ name ++ ([SPACE] ++ dec oflag) ++ [0]) with (CL_OPEN ++ [32] ++ line_of [name] ++ dec oflag ++ [0]).
    2: { unfold line_of. cbn [map concat]. rewrite app_nil_r, <- !app_assoc. done. }
    assert (Hcmd : token CL_OPEN) by (split; [done|]; apply Forall_forall; intros c Hc; unfold CL_OPEN in Hc; cbn in Hc; set_unfold; naive_solver).
    rewrite (buf_argv_cmd CL_OPEN [name] (dec oflag) Hcmd); [|exact (proj2 (Forall_singleton token name) Hn)|apply dec_token; lia|cbn; lia]. cbn [app]. unfold cli_args.
    rewrite bool_decide_true by done. cbn [negb]. unfold modify, mbind, M_bind. do 2 f_equal. change (dec oflag) with (fmt_w 0 oflag). rewrite atoi_fmt_w; [done|lia].
Qed.

Definition open_error (name : list Z) (errno : Z) : list Z := bytes "can't open " ++ name ++ bytes ": " ++ strerror errno ++ [NEWLINE].
(** What the server has sent to a client arrives there, cut anywhere. *)
Definition client_gets (name : list Z) (oflag : Z) (msgs : list (list Z * option Z)) (ret : Z) (text : list Z) : Prop :=
  forall l fuel user, delivers (Pipe msgs [] []) l -> (length l <= fuel)%nat ->
  recv_result l (csopen name oflag true fuel (Pipe msgs l user)) ret (Pipe msgs [] (user ++ text)).
Definition errmsg_overflows (x : outcome opend unit) : Prop := exists s', x = Exit (Undefined "sprintf past the end of errmsg") s'.
(** Both servers answer the request alike, and keep no descriptor of the file. *)
Definition served (req : list Z) (clifd u : Z) (s : opend) (msgs : list (list Z * option Z)) : Prop :=
  exists s', request req clifd u s = Ret tt s' /\ request_fe req clifd s = Ret tt s' /\ od_files s' = od_files s /\
  od_sent s' = od_sent s ++ map (pair clifd) msgs.

(** A request that fills the buffer and is not terminated overflows [errmsg]. *)
Lemma unterminated_overflows buf clifd u s : 0 <= u -> length buf = Z.to_nat MAXLINE -> nonul buf ->
  errmsg_overflows (request buf clifd u s) /\ errmsg_overflows (request_fe buf clifd s).
Proof.
  intros Hu Hl Hn. assert (Hlast : last buf <> Some 0).
  { intros (l & ->)%last_Some. apply nonul_app in Hn as [_ Hn]. by apply Forall_cons in Hn as [? _]. }
  assert (Hf : length (fmt_ns (length buf) buf) = length buf).
  { unfold fmt_ns. rewrite take_ge by lia. rewrite cstr_id by done. by rewrite Nat.sub_diag. }
  split; [unfold request|unfold request_fe]; rewrite bool_decide_false by done; cbn [negb]; unfold mbind, M_bind, od_error;
    (rewrite (proj2 (Z.leb_le _ _)); [by eexists|]); rewrite !length_app, Hf, Hl; rewrite ?Nat2Z.inj_add, Z2Nat.id by done; cbn [length]; lia.
Qed.
(** The bytes of a request that the server's [read] does not cut off at the end. *)
Lemma csopen_request_shape name oflag req : token name -> 0 <= oflag -> csopen_request name oflag = Some req -> exists t, req = t ++ [0] /\ nonul t.
Proof.
  intros Hn Ho. unfold csopen_request. case_match; [done|]. intros [= <-]. exists (CL_OPEN ++ [SPACE] ++ name ++ [SPACE] ++ dec oflag). split; [by rewrite <- !app_assoc|].
  repeat (apply nonul_app; split); try by repeat constructor.
  - destruct Hn as [_ Hn]. eapply Forall_impl; [exact Hn|]. by intros c [_ ?].
  - destruct (dec_token oflag Ho) as [_ Hd]. eapply Forall_impl; [exact Hd|]. by intros c [_ ?].
Qed.
Lemma server_read_all w : Z.of_nat (length w) <= MAXLINE -> server_read w = w.
Proof. intros Hw. unfold server_read. apply take_ge. lia. Qed.
Lemma server_read_cut t : MAXLINE < Z.of_nat (length (t ++ [0])) -> nonul t -> length (server_read (t ++ [0])) = Z.to_nat MAXLINE /\ nonul (server_read (t ++ [0])).
Proof.
  rewrite length_app. cbn [length]. intros Hl Ht. unfold server_read. rewrite take_app_le by lia. split; [rewrite length_take; lia|]. by apply Forall_take.
Qed.

Lemma request_parsed req name oflag clifd u s : last req = Some 0 ->
  (forall s, buf_args req cli_args s = Ret 0 (Opend (od_errmsg s) name oflag (od_sent s) (od_files s))) ->
  request req clifd u s = open_and_send (Err_sys "send_fd error") clifd (Opend (od_errmsg s) name oflag (od_sent s) (od_files s)) /\
  request_fe req clifd s = open_and_send (Err_sys "send_fd error") clifd (Opend (od_errmsg s) name oflag (od_sent s) (od_files s)).
Proof.
  intros Hl Hb. unfold request, request_fe. rewrite bool_decide_true by done. cbn [negb]. rewrite (bind_ret _ _ _ _ _ (Hb s)). done.
Qed.
Lemma open_error_nonul name errno : token name -> nonul (strerror errno) -> nonul (open_error name errno).
Proof.
  intros [_ Hn] He. unfold open_error. repeat (apply nonul_app; split); try done; try (by repeat constructor).
  eapply Forall_impl; [exact Hn|]. by intros c [_ ?].
Qed.

(** C24: [csopen] works like [open], as far as the buffers go.  For a name without white space whose request of
    [open], name and flags fits the [MAXLINE] bytes that the servers read, it returns, while the client stays connected, the very descriptor that the
    server got from [open] with the name and the flags of the client; when that fails, and
    the message with the reason fits [errmsg], -1 after this message has been printed.  On the way the answer may be cut
    anywhere; a cut between its null byte and its status byte ends the client with an error.  The server keeps no descriptor of the
    file, and both servers answer alike.  A longer request arrives without its null byte, and a message that is
    too long is written past the end of [errmsg]: then the behaviour of the servers is undefined. *)
Theorem csopen_end_to_end name oflag clifd u s :
  token name -> 0 <= oflag < 10 ^ 8 -> 0 <= u -> cl_writable clifd = true ->
  exists req, csopen_request name oflag = Some req /\
  let buf := server_read req in
  if MAXLINE <? Z.of_nat (length req) then errmsg_overflows (request buf clifd u s) /\ errmsg_overflows (request_fe buf clifd s)
  else match k_open name oflag with
  | inr nfd => 0 <= nfd -> nfd ∉ od_files s -> exists msgs, served buf clifd u s msgs /\ client_gets name oflag msgs nfd []
  | inl errno =>
      if MAXLINE <=? Z.of_nat (length (open_error name errno)) then errmsg_overflows (request buf clifd u s) /\ errmsg_overflows (request_fe buf clifd s)
      else nonul (strerror errno) -> exists msgs, served buf clifd u s msgs /\ client_gets name oflag msgs (-1) (open_error name errno)
  end.
Proof.
  intros Hn Ho Hu Hw. destruct (csopen_request_ok name oflag Hn Ho) as (req & Er & Hl & Hb). exists req. split; [done|]. cbn zeta.
  destruct (MAXLINE <? Z.of_nat (length req)) eqn:Elen; bsimp.
  { destruct (csopen_request_shape name oflag req Hn ltac:(lia) Er) as (t & -> & Ht). destruct (server_read_cut t) as [H1 H2]; [lia|done|]. by apply unterminated_overflows. }
  rewrite server_read_all by lia. unfold served. destruct (request_parsed req name oflag clifd u s Hl Hb) as [E1 E2]. rewrite E1, E2. clear E1 E2.
  destruct (k_open name oflag) as [errno|nfd] eqn:Ek.
  - destruct (MAXLINE <=? Z.of_nat (length (open_error name errno))) eqn:Ee; bsimp.
    { pose proof (open_fails_long (Err_sys "send_fd error") clifd (Opend (od_errmsg s) name oflag (od_sent s) (od_files s)) errno Ek Ee) as H. by split. }
    intros He. rewrite (open_fails _ clifd (Opend (od_errmsg s) name oflag (od_sent s) (od_files s)) errno) by done.
    exists [(open_error name errno, None); ([0; 1], None)]. split; [eexists; by split_and!|].
    intros l fuel user Hd Hfu. unfold csopen. rewrite Er. cbn [negb].
    apply (recv_delivered (Pipe [(open_error name errno, None); ([0; 1], None)] [] []) (open_error name errno) 1); try done; [|by apply open_error_nonul].
    cbn. by rewrite app_nil_r.
  - intros Hp Hf. rewrite (open_works _ clifd (Opend (od_errmsg s) name oflag (od_sent s) (od_files s)) nfd) by done.
    exists [([0; 0], Some nfd)]. split; [eexists; by split_and!|].
    intros l fuel user Hd Hfu. unfold csopen. rewrite Er. cbn [negb].
    apply (recv_delivered (Pipe [([0; 0], Some nfd)] [] []) [] 0); try done. constructor.
Qed.
End Request.

(** A system with one file, for the witnesses. *)
#[local] Instance sample_env : OpenEnv := {|
  k_open := fun name _ => if decide (name = bytes "/etc/motd") then inr 7 else inl 2;
  strerror := fun _ => bytes "No such file or directory";
  cl_writable := fun _ => true |}.
Lemma token_dec w : w <> [] -> forallb (fun c => negb (white c) && negb (c =? 0)) w = true -> token w.
Proof. intros Hw Hb. split; [done|]. apply Forall_forall. intros c Hc. apply list_elem_of_In in Hc. rewrite forallb_forall in Hb. specialize (Hb c Hc). by bsimp. Qed.
Lemma csopen_end_to_end_witness : exists req msgs,
  csopen_request (bytes "/etc/motd") 0 = Some req /\ served (server_read req) 5 100 (Opend [] [] 0 [] ∅) msgs /\
  client_gets (bytes "/etc/motd") 0 msgs 7 [].
Proof.
  destruct (csopen_end_to_end (bytes "/etc/motd") 0 5 100 (Opend [] [] 0 [] ∅)) as (req & Er & H); [by apply token_dec|lia|lia|done|].
  pose proof Er as Er'. vm_compute in Er'. injection Er' as <-. cbn zeta in H. rewrite (proj2 (Z.ltb_ge _ _)) in H by (by vm_compute).
  change (k_open (bytes "/etc/motd") 0) with (inr 7 : Z + Z) in H. destruct H as (msgs & H1 & H2); [lia|set_solver|]. by eexists _, msgs.
Defined.

(** A name with a space in it is not opened: the words are arguments. *)
Example csopen_space : exists s', request (default [] (csopen_request (bytes "my file") 0)) 5 100 (Opend [] [] 0 [] ∅) = Ret tt s' /\
  od_sent s' = [(5, (bytes "usage: <pathname> <oflag>" ++ [NEWLINE], None)); (5, ([0; 1], None))].
Proof. vm_compute. by eexists. Qed.
(** ** The loops *)

Section LoopTheorems.
Context `{E : OpenEnv} `{K : AcceptKernel}.

(** The clients of the two versions, slot by slot. *)
Definition same_clients (p : poll_state) (s : select_state (H := opend)) : Prop :=
  pl_world p = sl_world s /\ forall i, ent (tail (pl_clients p)) i = ent (sl_clients s) i.

(** No client that has hung up has bytes that are still unread. *)
Definition no_unread (r : round) : Prop := forall f, f ∈ rd_hup r -> rd_ready r !! f = None \/ rd_ready r !! f = Some (Some []).
Lemma readable_lose_unread r : no_unread r -> readable (lose_unread r) = readable r.
Proof.
  intros Hr. apply map_eq. intros f. unfold readable, lose_unread. cbn [rd_ready rd_hup]. rewrite !lookup_union, lookup_gset_to_gmap.
  destruct (decide (f ∈ rd_hup r)) as [Hf|Hf].
  - rewrite option_guard_True by done. destruct (Hr f Hf) as [-> | ->]; done.
  - rewrite option_guard_False by done. by destruct (rd_ready r !! f).
Qed.
Lemma select_lose_unread listenfd rs s : Forall no_unread rs ->
  rounds (select_round request listenfd) (map lose_unread rs) s = rounds (select_round request listenfd) rs s.
Proof.
  intros F. revert s. induction F as [|r rs Hr F IH]; intros s; [done|]. cbn [map rounds]. unfold mbind, M_bind.
  assert (E1 : select_round request listenfd (lose_unread r) s = select_round request listenfd r s).
  { unfold select_round, ready_of. by rewrite readable_lose_unread. }
  rewrite E1. by destruct (select_round request listenfd r s).
Qed.
Lemma rounds_map {S} (t : round -> M S unit) g rs s : rounds t (map g rs) s = rounds (fun r => t (g r)) rs s.
Proof. revert s. induction rs as [|r rs IH]; intros s; [done|]. cbn [map rounds]. unfold mbind, M_bind. by destruct (t (g r) s). Qed.

(** C25: the version of the daemon with [poll] does what the one with [select] does when nothing is left to read from the
    clients that have hung up: it drops what a client has sent before it closed, which the version with [select]
    still serves.  Where no client that has hung up has unread bytes, the two do the same: from
    the same connections, requests and hangups they accept the same clients in the same slots, handle the same
    requests in the same order and send the same answers, or end with the same error.  Conditions are that the
    array of [poll] starts out with no events reported in it, and that the process can have no more
    descriptors than an [fd_set] has room for.  (Where a client is
    accepted the version with [select] serves the others in its next turn.) *)
Theorem open_loops_equivalent listenfd mem h rs :
  0 <= listenfd < open_max -> open_max <= FD_SETSIZE -> Z.of_nat (length mem) = open_max -> Forall (fun p => p_revents p = NoEvents) (tail mem) ->
  exists p0, poll0 listenfd mem h = Some p0 /\
    let same rs' := same_run pl_world sl_world same_clients (rounds (poll_turn request listenfd) rs p0) (rounds (select_round request listenfd) rs' (select0 listenfd h)) in
    same (map lose_unread rs) /\ (Forall no_unread rs -> same rs).
Proof.
  intros Hl Hmax Hm Hz. destruct (pol0 listenfd mem h Hl Hm Hz) as (p0 & E0 & R0). exists p0. split; [done|]. cbn zeta.
  pose proof (same_rounds ab_world pl_world (rep_pol listenfd) (fun r => abs_round request listenfd (lose_unread r)) (poll_turn request listenfd) rs (abs0 h) p0 (fun r a b => pol_round request listenfd a b r Hl) R0) as Hp.
  pose proof (same_rounds ab_world sl_world (rep_sel listenfd) (abs_round request listenfd) (select_round request listenfd) (map lose_unread rs) (abs0 h) (select0 listenfd h)
    (fun r a b => sel_round request listenfd a b r Hmax) (sel0 listenfd h)) as Hs. rewrite rounds_map in Hs.
  assert (G : same_run pl_world sl_world same_clients (rounds (poll_turn request listenfd) rs p0) (rounds (select_round request listenfd) (map lose_unread rs) (select0 listenfd h))).
  { destruct (rounds (fun r => abs_round request listenfd (lose_unread r)) rs (abs0 h)) as [[] a|e a], (rounds (poll_turn _ _) rs p0) as [[] p|e1 p]; cbn in Hp; try done;
      destruct (rounds (select_round _ _) _ _) as [[] s|e2 s]; cbn in Hs |- *; try done.
    - destruct Hp as [a l q0 q Hf _]. split; [by rewrite <- (rs_world _ _ _ Hs)|]. intros i. cbn. by rewrite (rf_tab _ _ _ _ _ Hf), (rs_tab _ _ _ Hs).
    - destruct Hp as [<- Hp], Hs as [<- Hs]. split; [done|congruence]. }
  split; [exact G|]. intros F. by rewrite <- (select_lose_unread listenfd rs (select0 listenfd h) F).
Qed.
End LoopTheorems.

(** A kernel with sixteen descriptors, the first three in use. *)
Definition lowest_of (X : gset Z) : option Z := snd <$> list_find (fun f => f ∉ X) (seqZ 3 13).
#[local, refine] Instance sample_kernel : AcceptKernel := {| open_max := 16; accept_fd := lowest_of |}.
Proof.
  - intros X f. unfold lowest_of. intros ([i g] & Hg & ->)%fmap_Some. by apply list_find_Some in Hg as (_ & ? & _).
  - intros X f. unfold lowest_of. intros ([i g] & Hg & ->)%fmap_Some. apply list_find_Some in Hg as (Hg & _ & _). apply lookup_seqZ in Hg. cbn. lia.
Defined.
Definition sample_rounds : list round :=
  [Round (Some (Some 100)) ∅ ∅; Round (Some (Some 200)) {[4 := Some (default [] (csopen_request (bytes "/etc/motd") 0))]} ∅;
   Round None {[5 := Some (bytes "open x 0" ++ [0])]} {[4]}].
Lemma open_loops_equivalent_witness : exists p0,
  poll0 3 (replicate 16 (Pfd 0 NoEvents)) (Opend [] [] 0 [] ∅) = Some p0 /\
  same_run pl_world sl_world same_clients (rounds (poll_turn request 3) sample_rounds p0) (rounds (select_round request 3) sample_rounds (select0 3 (Opend [] [] 0 [] ∅))) /\
  match rounds (poll_turn request 3) sample_rounds p0 with Ret _ p => map fst (od_sent (pl_world p)) = [4; 5; 5] | Exit _ _ => False end.
Proof.
  destruct (open_loops_equivalent 3 (replicate 16 (Pfd 0 NoEvents)) (Opend [] [] 0 [] ∅) sample_rounds) as (p0 & E0 & _ & H); [cbn; lia|by vm_compute|done|by apply (Forall_replicate _ 15)|].
  exists p0. split_and!; [exact E0| |].
  - apply H. repeat (apply Forall_cons; split); [set_solver|set_solver| |constructor]. intros f Hf. cbn in Hf. apply elem_of_singleton in Hf as ->. by left.
  - vm_compute in E0. injection E0 as <-. vm_compute. reflexivity.
Defined.

(** A client that sends a request and closes the connection is answered by the version with [select] and not by the one with [poll]. *)
Theorem hungup_request_dropped :
  let h := Opend [] [] 0 [] ∅ in
  let rs := [Round (Some (Some 100)) ∅ ∅; Round None {[4 := Some (default [] (csopen_request (bytes "/etc/motd") 0))]} {[4]}] in
  (exists p0 p, poll0 3 (replicate 16 (Pfd 0 NoEvents)) h = Some p0 /\ rounds (poll_turn request 3) rs p0 = Ret tt p /\ od_sent (pl_world p) = []) /\
  (exists s, rounds (select_round request 3) rs (select0 3 h) = Ret tt s /\ od_sent (sl_world s) = [(4, ([0; 0], Some 7))]).
Proof.
  cbn zeta. split.
  - do 2 eexists. split_and!; [reflexivity|vm_compute; reflexivity|reflexivity].
  - eexists. split; [vm_compute; reflexivity|reflexivity].
Qed.

(** What [malloc] left in the array counts: the [revents] of a slot used for the first time is
    tested before any [poll] has set it, and a new client may be taken for one that has hung up. *)
Theorem poll_stale_revents : exists p0 p,
  poll0 3 (replicate 16 (Pfd 0 (Rev false true))) (Opend [] [] 0 [] ∅) = Some p0 /\
  poll_turn request 3 (Round (Some (Some 100)) ∅ ∅) p0 = Ret tt p /\ Forall (fun c => fd c = -1) (tail (pl_clients p)).
Proof. do 2 eexists. split_and!; [reflexivity|vm_compute; reflexivity|]. by repeat constructor. Qed.
