(* ===== verification/CallSession.v ===== *)
(** The terminal session of [src/apue2e/call] once it is connected: [loop.poll.c],
    [escape.c], and the file transfers [take.c], [put.c], [takeput.c]. *)
From S2P Require Import Prelude CStr ReadN FdPass CallArgs LineRead.

(** ** State *)

(** Keys typed and not yet read; what reads from the remote are going to find; how many bytes the
    line still takes before it drops; what has been written to it and to the standard
    output; the local files; how much the disk still takes; the streams open; the buffer of [rem_read]; the variables [bol],
    [src] and [dst]. *)
Record session := Session {
  keys : list Z; rem_evs : list revent; line_room : nat;
  to_rem : list Z; out : list Z;
  files : gmap (list Z) (list Z); disk : nat; streams : Z;
  rem_buf : list Z; bol : bool; src : list Z; dst : list Z
}.
Definition set_keys (x : list Z) (s : session) := Session x (rem_evs s) (line_room s) (to_rem s) (out s) (files s) (disk s) (streams s) (rem_buf s) (bol s) (src s) (dst s).
Definition set_rem (x : list revent) (b : list Z) (s : session) := Session (keys s) x (line_room s) (to_rem s) (out s) (files s) (disk s) (streams s) b (bol s) (src s) (dst s).
Definition set_line (n : nat) (x : list Z) (s : session) := Session (keys s) (rem_evs s) n x (out s) (files s) (disk s) (streams s) (rem_buf s) (bol s) (src s) (dst s).
Definition set_out (x : list Z) (s : session) := Session (keys s) (rem_evs s) (line_room s) (to_rem s) x (files s) (disk s) (streams s) (rem_buf s) (bol s) (src s) (dst s).
Definition set_files (x : gmap (list Z) (list Z)) (d : nat) (s : session) := Session (keys s) (rem_evs s) (line_room s) (to_rem s) (out s) x d (streams s) (rem_buf s) (bol s) (src s) (dst s).
Definition set_streams (x : Z) (s : session) := Session (keys s) (rem_evs s) (line_room s) (to_rem s) (out s) (files s) (disk s) x (rem_buf s) (bol s) (src s) (dst s).
Definition set_bol (x : bool) (s : session) := Session (keys s) (rem_evs s) (line_room s) (to_rem s) (out s) (files s) (disk s) (streams s) (rem_buf s) x (src s) (dst s).
Definition set_args (x y : list Z) (s : session) := Session (keys s) (rem_evs s) (line_room s) (to_rem s) (out s) (files s) (disk s) (streams s) (rem_buf s) (bol s) x y.

(** Characters of the terminal, and whether a file can be created. *)
Class Terminal := { VSUSP : Z; VEOF : Z; creatable : list Z -> bool }.
Definition escapec : Z := 126.
Definition CTRLA : Z := 1.
Definition CR : Z := 13.

Section Session.
Context `{T : Terminal}.
Abbreviation MS := (M session).

Definition sget {A} (f : session -> A) : MS A := fun s => Ret (f s) s.
(** [read(STDIN_FILENO, &c, 1)]: the character, or none at the end of the input. *)
Definition read_key : MS (option Z) := fun s =>
  match keys s with [] => Ret None s | c :: l => Ret (Some c) (set_keys l s) end.
Definition print (bs : list Z) : MS unit := modify (fun s => set_out (out s ++ bs) s).
(** [write(remfd, bs, n)] *)
Definition write_rem (bs : list Z) : MS Z := fun s =>
  let n := Nat.min (line_room s) (length bs) in
  Ret (Z.of_nat n) (set_line (line_room s - n) (to_rem s ++ take n bs) s).
Definition send (bs : list Z) : MS unit :=
  n ← write_rem bs;
  if negb (n =? Z.of_nat (length bs)) then die (Err_sys "write error") else mret tt.

(** ** takeput.c *)

Definition take_put_args (argv : list (list Z)) : MS Z :=
  match argv with
  | [a] => modify (set_args a a) ;; mret 0
  | [a; b] => modify (set_args a b) ;; mret 0
  | _ => mret (-1)
  end.
(** What the user types goes to [cmdargs] as long as it has room. *)
Fixpoint prompt_loop (fuel : nat) (cmdargs : list Z) : MS (list Z) :=
  match fuel with
  | O => die Loops
  | S fuel =>
      k ← read_key;
      match k with
      | None => mret cmdargs
      | Some c =>
          if c =? NEWLINE then mret cmdargs else
          prompt_loop fuel (if Z.of_nat (length cmdargs) <? MAXLINE - 2 then cmdargs ++ [c] else cmdargs)
      end
  end.
Definition prompt_read (prompt : string) (userfunc : list (list Z) -> MS Z) : MS Z :=
  print (bytes prompt) ;;
  s ← get;
  cmdargs ← prompt_loop (S (length (keys s))) [];
  buf_args (cmdargs ++ [0]) userfunc.

(** ** take.c *)

Definition rem_read : MS Z := fun s =>
  match rem_buf s with
  | c :: l => Ret (Z.land c 127) (set_rem (rem_evs s) l s)
  | [] =>
      match sread (Z.to_nat MAXLINE) (rem_evs s) with
      | (Got [], evs) => Ret 0 (set_rem evs [] s)
      | (Got (c :: l), evs) => Ret (Z.land c 127) (set_rem evs l s)
      | (RBlocks, evs) => Exit Loops (set_rem evs [] s)
      | (_, evs) => Exit (Err_sys "read error") (set_rem evs [] s)
      end
  end.
(** The characters that are still to come bound the turns of the loops. *)
Definition to_come (s : session) : nat := S (weight (rem_evs s) + length (rem_buf s)).
(** The echo of the command line; false: the line has dropped. *)
Fixpoint skip_echo (fuel : nat) : MS bool :=
  match fuel with
  | O => die Loops
  | S fuel =>
      c ← rem_read;
      if c =? 0 then mret false else
      if c =? NEWLINE then mret true else skip_echo fuel
  end.
(** [putc(c, fpout)]; false: an error. *)
Definition putc (c : Z) : MS bool := fun s =>
  match disk s with
  | O => Ret false s
  | S d => Ret true (set_files (<[dst s := default [] (files s !! dst s) ++ [c]]> (files s)) d s)
  end.
Fixpoint take_loop (fuel : nat) (linecnt : Z) : MS bool :=
  match fuel with
  | O => die Loops
  | S fuel =>
      c ← rem_read;
      if (c =? 0) || (c =? CTRLA) then mret true else
      if c =? CR then take_loop fuel linecnt else
      let linecnt := if c =? NEWLINE then linecnt + 1 else linecnt in
      when (c =? NEWLINE) (print ([CR] ++ dec linecnt)) ;;
      ok ← putc c;
      if ok : bool then take_loop fuel linecnt else mret false
  end.
Definition take_cmd (name : list Z) : list Z := bytes "cat " ++ name ++ bytes "; echo " ++ [CTRLA; CR].
Definition session_take : MS unit :=
  r ← prompt_read "~[take] " take_put_args;
  if r <? 0 then print (bytes "usage: [take] <sourcefile> <destfile>" ++ [NEWLINE; CR]) else
  s ← get;
  if negb (creatable (dst s)) then mret tt else
  modify (fun s => set_streams (streams s + 1) (set_files (<[dst s := []]> (files s)) (disk s) s)) ;;
  let cmd := take_cmd (src s) in
  (if MAXLINE <=? Z.of_nat (length cmd) then die (Undefined "sprintf past the end of cmd") else mret tt) ;;
  send cmd ;;
  modify (fun s => set_rem (rem_evs s) [] s) ;;
  n ← sget to_come;
  up ← skip_echo n;
  if negb up then mret tt else
  n ← sget to_come;
  ok ← take_loop n 0;
  when ok (modify (fun s => set_streams (streams s - 1) s)) ;;     (* [fclose] is not called after [ferror] *)
  write_rem [NEWLINE] ;; mret tt.

(** ** put.c *)

Definition put_cmd (name : list Z) : list Z := bytes "stty -echo; cat >" ++ name ++ bytes "; stty echo" ++ [CR].
Fixpoint put_loop (text : list Z) (linecnt : Z) : MS unit :=
  match text with
  | [] => mret tt
  | c :: text' =>
      n ← write_rem [c];
      if negb (n =? 1) then mret tt else
      let linecnt := if c =? NEWLINE then linecnt + 1 else linecnt in
      when (c =? NEWLINE) (print ([CR] ++ dec linecnt)) ;;
      put_loop text' linecnt
  end.
Definition session_put : MS unit :=
  r ← prompt_read "~[put] " take_put_args;
  if r <? 0 then print (bytes "usage: [put] <sourcefile> <destfile>" ++ [NEWLINE; CR]) else
  s ← get;
  match files s !! src s with
  | None => mret tt
  | Some text =>
      modify (fun s => set_streams (streams s + 1) s) ;;
      let cmd := put_cmd (dst s) in
      (if MAXLINE <=? Z.of_nat (length cmd) then die (Undefined "sprintf past the end of cmd") else mret tt) ;;
      send cmd ;;
      put_loop text 0 ;;
      write_rem [VEOF] ;;
      write_rem [NEWLINE] ;;
      modify (fun s => set_streams (streams s - 1) s)
  end.

(** ** escape.c *)

Definition doescape : MS Z :=
  k ← read_key;
  match k with
  | None => die (Err_sys "read error from stdin")
  | Some c =>
      if c =? escapec then mret escapec else
      if c =? 46 then print (bytes "~." ++ [NEWLINE; CR]) ;; mret (-1) else
      if c =? VSUSP then mret 0 else           (* suspended and resumed *)
      if c =? 35 then mret 0 else              (* a break is sent *)
      if c =? 116 then session_take ;; mret 0 else
      if c =? 112 then session_put ;; mret 0 else
      mret (schar c)
  end.

(** ** loop.poll.c *)

(** What [poll] reports; none: it fails. *)
Record polled := Polled { in0 : bool; hup0 : bool; in1 : bool; hup1 : bool }.
Inductive next := Again | Break.
(** A character from the keyboard; [next] after it where the escape ends the turn. *)
Definition from_keys : MS (option next) :=
  k ← read_key;
  match k with
  | None => die (Err_sys "read error from stdin")
  | Some c =>
      b ← sget bol;
      let copy c :=
        modify (set_bol ((c =? CR) || (c =? NEWLINE))) ;;
        n ← write_rem [c];
        if negb (n =? 1) then die (Err_sys "write error") else mret None in
      if (c =? escapec) && b then
        n ← doescape;
        if n <? 0 then mret (Some Break) else
        if n =? 0 then mret (Some Again) else copy (n mod 256)
      else copy c
  end.
Definition BUFFSIZE : Z := 512.
Definition from_remote : MS (option next) := fun s =>
  match sread (Z.to_nat BUFFSIZE) (rem_evs s) with
  | (Got (c :: l), evs) => Ret None (set_out (out s ++ c :: l) (set_rem evs (rem_buf s) s))
  | (RBlocks, evs) => Exit Loops (set_rem evs (rem_buf s) s)
  | (_, evs) => Ret (Some Break) (set_rem evs (rem_buf s) s)
  end.
Definition or_else (test : bool) (m : MS (option next)) (k : MS next) : MS next :=
  if test then (r ← m; match r with Some x => mret x | None => k end) else k.
Definition turn (p : polled) : MS next :=
  or_else (in0 p) from_keys (
  if hup0 p then mret Break else
  or_else (in1 p) from_remote (
  if hup1 p then mret Break else mret Again)).
Fixpoint loop (ps : list (option polled)) : MS unit :=
  match ps with
  | [] => die Loops
  | None :: _ => die (Err_sys "poll error")
  | Some p :: ps' =>
      x ← turn p;
      match x with Break => mret tt | Again => loop ps' end
  end.

(** ** What the functions do *)

Definition unread (s : session) : list Z := rem_buf s ++ waiting (rem_evs s).
Lemma rem_read_spec s c rest : plain false (rem_evs s) -> unread s = c :: rest ->
  exists evs' b', rem_read s = Ret (Z.land c 127) (set_rem evs' b' s) /\ plain false evs' /\ b' ++ waiting evs' = rest /\ (S (weight evs' + length b') <= weight (rem_evs s) + length (rem_buf s))%nat.
Proof.
  intros P Hu. unfold unread in Hu. unfold rem_read. destruct (rem_buf s) as [|c' b] eqn:Eb.
  - pose proof (plain_sread false (Z.to_nat MAXLINE) (rem_evs s) ltac:(unfold MAXLINE; lia) P) as H. destruct (sread _ (rem_evs s)) as [[bs| | |] evs']; [|by destruct H|done|done].
    destruct H as (P' & Hw & _ & Hwt & Hnil). cbn [app] in Hu. rewrite Hw in Hu. destruct bs as [|d bs].
    { destruct (Hnil eq_refl) as [_ ->]. done. }
    injection Hu as -> Hr. exists evs', bs. split_and!; try done. cbn [length] in *. lia.
  - injection Hu as -> Hr. exists (rem_evs s), b. split_and!; try done. cbn [length]. lia.
Qed.
Lemma to_come_set evs b s : to_come (set_rem evs b s) = S (weight evs + length b).
Proof. done. Qed.

Lemma skip_echo_spec e fuel s rest : plain false (rem_evs s) -> unread s = e ++ NEWLINE :: rest ->
  Forall (fun c => Z.land c 127 <> 0 /\ Z.land c 127 <> NEWLINE) e -> (weight (rem_evs s) + length (rem_buf s) < fuel)%nat ->
  exists evs' b', skip_echo fuel s = Ret true (set_rem evs' b' s) /\ plain false evs' /\ b' ++ waiting evs' = rest.
Proof.
  intros P Hu F. revert fuel s P Hu. induction F as [|c e [H1 H2] _ IH]; intros fuel s P Hu Hf; (destruct fuel as [|fuel]; [lia|]); cbn [skip_echo].
  - destruct (rem_read_spec s NEWLINE rest P Hu) as (evs' & b' & E & P' & Hu' & Hw). rewrite (bind_ret _ _ _ _ _ E).
    change (Z.land NEWLINE 127 =? 0) with false. change (Z.land NEWLINE 127 =? NEWLINE) with true. by exists evs', b'.
  - destruct (rem_read_spec s c (e ++ NEWLINE :: rest) P Hu) as (evs' & b' & E & P' & Hu' & Hw). rewrite (bind_ret _ _ _ _ _ E).
    bfalse (Z.land c 127 =? 0). bfalse (Z.land c 127 =? NEWLINE).
    destruct (IH fuel (set_rem evs' b' s) P' Hu' ltac:(unfold set_rem, set_files, set_out in *; cbn [rem_evs rem_buf disk]; lia)) as (evs2 & b2 & E2 & P2 & Hu2). by exists evs2, b2.
Qed.

(** The text of a remote file as it arrives in the local one. *)
Definition received_text (text : list Z) : list Z := filter (fun c => c <> CR) (map (fun c => Z.land c 127) text).
(** Everything but the input from the remote, the output and the local files. *)
Definition same_rest (s s' : session) : Prop :=
  keys s' = keys s /\ line_room s' = line_room s /\ to_rem s' = to_rem s /\ streams s' = streams s /\ bol s' = bol s /\ src s' = src s /\ dst s' = dst s.
Lemma take_loop_spec text fuel n s rest : plain false (rem_evs s) -> unread s = text ++ CTRLA :: rest ->
  Forall (fun c => Z.land c 127 <> 0 /\ Z.land c 127 <> CTRLA) text -> (weight (rem_evs s) + length (rem_buf s) < fuel)%nat -> (length text <= disk s)%nat ->
  exists s', take_loop fuel n s = Ret true s' /\ same_rest s s' /\
    files s' = match received_text text with [] => files s | t => <[dst s := default [] (files s !! dst s) ++ t]> (files s) end.
Proof.
  intros P Hu F. revert fuel n s P Hu. induction F as [|c text [H1 H2] _ IH]; intros fuel n s P Hu Hf Hd; (destruct fuel as [|fuel]; [lia|]); cbn [take_loop].
  - destruct (rem_read_spec s CTRLA rest P Hu) as (evs' & b' & E & _). rewrite (bind_ret _ _ _ _ _ E).
    change (Z.land CTRLA 127 =? 0) with false. change (Z.land CTRLA 127 =? CTRLA) with true. cbn [orb]. eexists. split; [done|]. by split_and!.
  - destruct (rem_read_spec s c (text ++ CTRLA :: rest) P Hu) as (evs' & b' & E & P' & Hu' & Hw). rewrite (bind_ret _ _ _ _ _ E).
    bfalse (Z.land c 127 =? 0). bfalse (Z.land c 127 =? CTRLA). cbn [orb]. unfold received_text. cbn [map]. set (d := Z.land c 127) in *. clearbody d. cbn [length] in Hd.
    destruct (d =? CR) eqn:Ecr; bsimp.
    + rewrite filter_cons_False by (by intros ?). fold (received_text text).
      destruct (IH fuel n (set_rem evs' b' s) P' Hu' ltac:(unfold set_rem, set_files, set_out in *; cbn [rem_evs rem_buf disk]; lia) ltac:(unfold set_rem, set_files, set_out in *; cbn [rem_evs rem_buf disk]; lia)) as (s' & Es & Hr & Hfi). exists s'. split_and!; [done| |exact Hfi]. exact Hr.
    + rewrite filter_cons_True by done. fold (received_text text). set (n' := if d =? NEWLINE then n + 1 else n).
      assert (Hp : exists o, when (d =? NEWLINE) (print ([CR] ++ dec n')) (set_rem evs' b' s) = Ret tt (set_out o (set_rem evs' b' s))).
      { destruct (d =? NEWLINE); [by eexists|]. exists (out s). by destruct s. }
      destruct Hp as [o Hp]. rewrite (bind_ret _ _ _ _ _ Hp). destruct (disk s) as [|k] eqn:Ek; [lia|].
      set (s1 := set_files (<[dst s := default [] (files s !! dst s) ++ [d]]> (files s)) k (set_out o (set_rem evs' b' s))).
      rewrite bind_ret with (a := true) (s' := s1). 2: { unfold putc. cbn. by rewrite Ek. }
      destruct (IH fuel n' s1 P' Hu' ltac:(unfold s1, set_rem, set_files, set_out; cbn [rem_evs rem_buf disk]; lia) ltac:(unfold s1, set_rem, set_files, set_out; cbn [rem_evs rem_buf disk]; lia)) as (s' & Es & Hr & Hfi). exists s'. split_and!; [done|exact Hr|]. rewrite Hfi. cbn [files dst s1 set_files set_out set_rem].
      destruct (received_text text) as [|t ts]; [done|]. rewrite lookup_insert_eq, insert_insert_eq. cbn [default from_option id]. by rewrite <- app_assoc.
Qed.

Lemma prompt_loop_spec line fuel acc ks s : keys s = line ++ NEWLINE :: ks -> Forall (fun c => c <> NEWLINE) line -> (length line < fuel)%nat ->
  Z.of_nat (length acc + length line) <= MAXLINE - 2 -> prompt_loop fuel acc s = Ret (acc ++ line) (set_keys ks s).
Proof.
  intros Hk F. revert fuel acc s Hk. induction F as [|c line Hc _ IH]; intros fuel acc s Hk Hf Hl; (destruct fuel as [|fuel]; [lia|]); cbn [prompt_loop].
  - rewrite bind_ret with (a := Some NEWLINE) (s' := set_keys ks s). 2: { unfold read_key. by rewrite Hk. }
    change (NEWLINE =? NEWLINE) with true. by rewrite app_nil_r.
  - rewrite bind_ret with (a := Some c) (s' := set_keys (line ++ NEWLINE :: ks) s). 2: { unfold read_key. by rewrite Hk. }
    cbn [length] in *. bfalse (c =? NEWLINE). btrue (Z.of_nat (length acc) <? MAXLINE - 2).
    rewrite IH; [by rewrite <- app_assoc|done|lia|rewrite length_app; cbn [length]; lia].
Qed.
Lemma token_no_newline w : token w -> Forall (fun c => c <> NEWLINE) w.
Proof. intros [_ F]. eapply Forall_impl; [exact F|]. intros c [Hw _] ->. by vm_compute in Hw. Qed.
Lemma prompt_two prompt a b ks s : keys s = (a ++ SPACE :: b) ++ NEWLINE :: ks -> token a -> token b -> Z.of_nat (length a + length b) < MAXLINE - 2 ->
  prompt_read prompt take_put_args s = Ret 0 (set_args a b (set_keys ks (set_out (out s ++ bytes prompt) s))).
Proof.
  intros Hk Ha Hb Hl. unfold prompt_read. rewrite bind_ret with (a := tt) (s' := set_out (out s ++ bytes prompt) s) by done.
  unfold get at 1. unfold mbind at 1, M_bind at 1. cbn [keys set_out].
  rewrite (bind_ret _ _ _ _ _ (prompt_loop_spec (a ++ SPACE :: b) (S (length (keys s))) [] ks (set_out (out s ++ bytes prompt) s) Hk
    ltac:(apply Forall_app; split; [by apply token_no_newline|constructor; [done|by apply token_no_newline]])
    ltac:(rewrite Hk, !length_app; cbn [length]; lia) ltac:(rewrite length_app; cbn [length]; lia))).
  cbn [app]. unfold buf_args. replace ((a ++ SPACE :: b) ++ [0]) with (a ++ [32] ++ line_of [] ++ b ++ [0]) by (rewrite <- app_assoc; done).
  rewrite (buf_argv_cmd a [] b Ha (Forall_nil_2 _) Hb) by (cbn; lia). done.
Qed.
Lemma send_ok bs s : (length bs <= line_room s)%nat -> send bs s = Ret tt (set_line (line_room s - length bs) (to_rem s ++ bs) s).
Proof.
  intros H. unfold send, write_rem, mbind, M_bind. rewrite Nat.min_r, Z.eqb_refl by lia. cbn [negb]. by rewrite take_ge by lia.
Qed.

(** The command [~t] of a session.  For a remote host that echoes the command, sends
    the file and a control-A, in whatever pieces: the local file ends up holding the text of the remote
    one (seven-bit characters, returns left out), the remote has been sent the [cat] command and a final
    newline, no other file has changed and no stream is left open. *)
Theorem take_gets_file a b ks e text rest s :
  keys s = (a ++ SPACE :: b) ++ NEWLINE :: ks -> token a -> token b -> Z.of_nat (length a + length b) < MAXLINE - 20 ->
  creatable b = true -> (length (take_cmd a) < line_room s)%nat -> (length text <= disk s)%nat ->
  plain false (rem_evs s) -> waiting (rem_evs s) = e ++ NEWLINE :: text ++ CTRLA :: rest ->
  Forall (fun c => Z.land c 127 <> 0 /\ Z.land c 127 <> NEWLINE) e -> Forall (fun c => Z.land c 127 <> 0 /\ Z.land c 127 <> CTRLA) text ->
  exists s', session_take s = Ret tt s' /\ keys s' = ks /\ files s' = <[b := received_text text]> (files s) /\
    to_rem s' = to_rem s ++ take_cmd a ++ [NEWLINE] /\ streams s' = streams s.
Proof.
  intros Hk Ha Hb Hl Hc Hroom Hdisk P Hw Fe Ft. unfold session_take. rewrite (bind_ret _ _ _ _ _ (prompt_two "~[take] " a b ks s Hk Ha Hb ltac:(lia))).
  change (0 <? 0) with false. cbn iota. unfold get at 1. unfold mbind at 1, M_bind at 1. cbn [dst src set_args]. rewrite Hc. cbn [negb].
  set (s1 := set_args a b _). rewrite bind_ret with (a := tt) (s' := set_streams (streams s1 + 1) (set_files (<[b := []]> (files s1)) (disk s1) s1)) by done.
  assert (Hcmd : Z.of_nat (length (take_cmd a)) < MAXLINE).
  { unfold take_cmd. rewrite !length_app. change (length (bytes "cat ")) with 4%nat. change (length (bytes "; echo ")) with 7%nat. cbn [length]. lia. }
  bfalse (MAXLINE <=? Z.of_nat (length (take_cmd a))). rewrite bind_mret. set (s2 := set_streams _ _).
  rewrite (bind_ret _ _ _ _ _ (send_ok (take_cmd a) s2 ltac:(unfold s2, s1, set_streams, set_files, set_args, set_keys, set_out; cbn [line_room]; lia))).
  set (s3 := set_line _ _ s2). rewrite bind_ret with (a := tt) (s' := set_rem (rem_evs s3) [] s3) by done. set (s4 := set_rem _ [] s3).
  rewrite bind_ret with (a := to_come s4) (s' := s4) by done.
  destruct (skip_echo_spec e (to_come s4) s4 (text ++ CTRLA :: rest)) as (evs5 & b5 & E5 & P5 & U5); [exact P|exact Hw|done|unfold to_come; lia|].
  rewrite (bind_ret _ _ _ _ _ E5). cbn [negb]. set (s5 := set_rem evs5 b5 s4). rewrite bind_ret with (a := to_come s5) (s' := s5) by done.
  destruct (take_loop_spec text (to_come s5) 0 s5 rest P5 U5 Ft) as (s6 & E6 & (K1 & K2 & K3 & K4 & _) & Hf6); [unfold to_come; lia|exact Hdisk|].
  rewrite (bind_ret _ _ _ _ _ E6). cbn [when]. rewrite bind_ret with (a := tt) (s' := set_streams (streams s6 - 1) s6) by done.
  unfold mbind, M_bind, write_rem. eexists. split; [done|]. unfold set_line, set_streams. cbn [keys files to_rem streams line_room].
  rewrite K1, K2, K3, K4, Hf6. cbn [keys to_rem streams files dst line_room s5 s4 s3 s2 s1 set_rem set_line set_streams set_files set_args set_keys set_out].
  split_and!; [done| | |lia].
  - rewrite lookup_insert_eq. cbn [default from_option id app]. destruct (received_text text); [done|]. by rewrite insert_insert_eq.
  - cbn [length]. rewrite Nat.min_r by lia. by rewrite take_ge, app_assoc by (cbn; lia).
Qed.

Lemma write_rem_ok bs s : (length bs <= line_room s)%nat -> write_rem bs s = Ret (Z.of_nat (length bs)) (set_line (line_room s - length bs) (to_rem s ++ bs) s).
Proof. intros H. unfold write_rem. rewrite Nat.min_r by lia. by rewrite take_ge by lia. Qed.
Lemma put_loop_spec text n s : (length text <= line_room s)%nat ->
  exists o, put_loop text n s = Ret tt (set_out o (set_line (line_room s - length text) (to_rem s ++ text) s)).
Proof.
  revert n s. induction text as [|c text IH]; intros n s Hl; cbn [put_loop length] in *.
  { exists (out s). rewrite app_nil_r, Nat.sub_0_r. by destruct s. }
  rewrite (bind_ret _ _ _ _ _ (write_rem_ok [c] s ltac:(cbn; lia))). cbn [length]. change (Z.of_nat 1 =? 1) with true. cbn [negb]. set (n' := if c =? NEWLINE then n + 1 else n).
  set (s1 := set_line _ _ s). assert (Hp : exists o, when (c =? NEWLINE) (print ([CR] ++ dec n')) s1 = Ret tt (set_out o s1)).
  { destruct (c =? NEWLINE); [by eexists|]. exists (out s). by destruct s. }
  destruct Hp as [o Hp]. rewrite (bind_ret _ _ _ _ _ Hp).
  destruct (IH n' (set_out o s1)) as [o' E]; [unfold s1, set_out, set_line; cbn [line_room]; lia|]. exists o'. rewrite E.
  unfold s1, set_out, set_line. cbn. do 2 f_equal; [lia|by rewrite <- app_assoc].
Qed.
(** The command [~p]: the remote is sent the command that reads the file, the file's bytes, the end-of-file character
    and a newline. *)
Theorem put_sends_file a b ks text s :
  keys s = (a ++ SPACE :: b) ++ NEWLINE :: ks -> token a -> token b -> Z.of_nat (length a + length b) < MAXLINE - 30 ->
  files s !! a = Some text -> (length (put_cmd b) + length text + 2 <= line_room s)%nat ->
  exists s', session_put s = Ret tt s' /\ keys s' = ks /\ files s' = files s /\ to_rem s' = to_rem s ++ put_cmd b ++ text ++ [VEOF; NEWLINE] /\ streams s' = streams s.
Proof.
  intros Hk Ha Hb Hl Hf Hroom. unfold session_put. rewrite (bind_ret _ _ _ _ _ (prompt_two "~[put] " a b ks s Hk Ha Hb ltac:(lia))).
  change (0 <? 0) with false. cbn iota. set (s1 := set_args a b _). rewrite bind_ret with (a := s1) (s' := s1) by done.
  change (files s1 !! src s1) with (files s !! a). rewrite Hf. change (dst s1) with b. rewrite bind_ret with (a := tt) (s' := set_streams (streams s1 + 1) s1) by done.
  assert (Hcmd : Z.of_nat (length (put_cmd b)) < MAXLINE).
  { unfold put_cmd. rewrite !length_app. change (length (bytes "stty -echo; cat >")) with 17%nat. change (length (bytes "; stty echo")) with 11%nat. cbn [length]. lia. }
  bfalse (MAXLINE <=? Z.of_nat (length (put_cmd b))). rewrite bind_mret. set (s2 := set_streams _ _). assert (Hr2 : line_room s2 = line_room s) by done.
  rewrite (bind_ret _ _ _ _ _ (send_ok (put_cmd b) s2 ltac:(lia))). set (s3 := set_line _ _ s2). assert (Hr3 : line_room s3 = (line_room s - length (put_cmd b))%nat) by done.
  destruct (put_loop_spec text 0 s3 ltac:(lia)) as [o E]. rewrite (bind_ret _ _ _ _ _ E). set (s4 := set_out o _).
  assert (Hr4 : line_room s4 = (line_room s - length (put_cmd b) - length text)%nat) by done.
  rewrite (bind_ret _ _ _ _ _ (write_rem_ok [VEOF] s4 ltac:(cbn [length]; lia))). set (s5 := set_line _ _ s4).
  assert (Hr5 : line_room s5 = (line_room s - length (put_cmd b) - length text - 1)%nat) by done.
  rewrite (bind_ret _ _ _ _ _ (write_rem_ok [NEWLINE] s5 ltac:(cbn [length]; lia))). eexists. split; [done|].
  split; [reflexivity|]. split; [reflexivity|]. split.
  - match goal with |- to_rem ?x = _ => change (to_rem x) with ((((to_rem s ++ put_cmd b) ++ text) ++ [VEOF]) ++ [NEWLINE]) end. by rewrite <- !app_assoc.
  - match goal with |- streams ?x = _ => change (streams x) with (streams s + 1 - 1) end. lia.
Qed.

(** ** Copying *)

(** Keys that are no escapes: no tilde at the beginning of a line. *)
Fixpoint ordinary (b : bool) (ks : list Z) : Prop :=
  match ks with [] => True | c :: ks' => ~ (c = escapec /\ b = true) /\ ordinary ((c =? CR) || (c =? NEWLINE)) ks' end.
Definition keyed (p : polled) : nat := if in0 p then 1 else 0.
Definition answered (p : polled) : nat := if in1 p then 1 else 0.
Definition quiet (p : polled) : Prop := hup0 p = false /\ hup1 p = false.
Lemma from_keys_copy c ks s : keys s = c :: ks -> ~ (c = escapec /\ bol s = true) -> (1 <= line_room s)%nat ->
  from_keys s = Ret None (set_line (line_room s - 1) (to_rem s ++ [c]) (set_bol ((c =? CR) || (c =? NEWLINE)) (set_keys ks s))).
Proof.
  intros Hk He Hr. unfold from_keys. rewrite bind_ret with (a := Some c) (s' := set_keys ks s). 2: { unfold read_key. by rewrite Hk. }
  rewrite bind_ret with (a := bol s) (s' := set_keys ks s) by done.
  assert (Ht : (c =? escapec) && bol s = false) by (destruct (Z.eqb_spec c escapec), (bol s); tauto). rewrite Ht.
  set (b := (c =? CR) || (c =? NEWLINE)). rewrite bind_ret with (a := tt) (s' := set_bol b (set_keys ks s)) by done.
  set (s1 := set_bol b _). assert (Hr1 : line_room s1 = line_room s) by done. rewrite (bind_ret _ _ _ _ _ (write_rem_ok [c] s1 ltac:(cbn [length]; lia))). done.
Qed.
Lemma from_remote_copy bs evs s : rem_evs s = Bytes bs :: evs -> bs <> [] -> Z.of_nat (length bs) <= BUFFSIZE ->
  from_remote s = Ret None (set_out (out s ++ bs) (set_rem evs (rem_buf s) s)).
Proof.
  intros He Hb Hl. unfold from_remote. rewrite He. cbn [sread]. rewrite take_ge, drop_ge by lia. by destruct bs.
Qed.

(** In a session without escapes everything is copied both ways, in whatever order keys and
    answers come; it ends when the remote hangs up. *)
Theorem session_copies ps ks chunks s :
  Forall quiet ps -> keys s = ks -> ordinary (bol s) ks -> length ks = sum_list_with keyed ps -> (length ks <= line_room s)%nat ->
  rem_evs s = map Bytes chunks -> Forall (fun bs => bs <> [] /\ Z.of_nat (length bs) <= BUFFSIZE) chunks -> length chunks = sum_list_with answered ps ->
  exists s', loop (map Some ps ++ [Some (Polled false false true true)]) s = Ret tt s' /\
    to_rem s' = to_rem s ++ ks /\ out s' = out s ++ concat chunks /\ keys s' = [] /\ files s' = files s.
Proof.
  intros Q. revert ks chunks s. induction Q as [|p ps [Q1 Q2] _ IH]; intros ks chunks s Hk Ho Hn Hr He F Hm; cbn [map app loop sum_list_with] in *.
  - destruct ks; [|cbn in Hn; lia]. destruct chunks; [|cbn in Hm; lia]. cbn in He. exists (set_rem [] (rem_buf s) s).
    rewrite !app_nil_r. split_and!; try done. unfold turn, or_else, from_remote, mbind, M_bind. cbn [in0 in1 hup0 hup1]. by rewrite He.
  - set (s1 := if in0 p then match ks with c :: ks' => set_line (line_room s - 1) (to_rem s ++ [c]) (set_bol ((c =? CR) || (c =? NEWLINE)) (set_keys ks' s)) | [] => s end else s).
    set (ks1 := if in0 p then tail ks else ks).
    assert (Hs1 : forall k, or_else (in0 p) from_keys k s = k s1 /\ keys s1 = ks1 /\ ordinary (bol s1) ks1 /\ (length ks1 <= line_room s1)%nat /\ to_rem s1 ++ ks1 = to_rem s ++ ks /\
      rem_evs s1 = rem_evs s /\ out s1 = out s /\ files s1 = files s /\ length ks1 = sum_list_with keyed ps).
    { intros k. unfold s1, ks1, keyed in *. destruct (in0 p); [|split_and!; try done; lia]. destruct ks as [|c ks']; [cbn in Hn; lia|]. cbn [tail ordinary length] in *. destruct Ho as [Hesc Ho].
      split_and!; try done; try lia.
      - unfold or_else. rewrite (bind_ret _ _ _ _ _ (from_keys_copy c ks' s Hk Hesc ltac:(lia))). done.
      - cbn. lia.
      - cbn. by rewrite <- app_assoc. }
    set (s2 := if in1 p then match chunks with bs :: cs => set_out (out s1 ++ bs) (set_rem (map Bytes cs) (rem_buf s1) s1) | [] => s1 end else s1).
    set (ch2 := if in1 p then tail chunks else chunks).
    destruct (Hs1 (mret Again)) as (_ & K1 & K2 & K3 & K4 & K5 & K6 & K7 & K8).
    assert (Hs2 : forall k, or_else (in1 p) from_remote k s1 = k s2 /\ keys s2 = ks1 /\ bol s2 = bol s1 /\ line_room s2 = line_room s1 /\ to_rem s2 = to_rem s1 /\
      rem_evs s2 = map Bytes ch2 /\ out s2 ++ concat ch2 = out s ++ concat chunks /\ files s2 = files s /\ length ch2 = sum_list_with answered ps /\
      Forall (fun bs => bs <> [] /\ Z.of_nat (length bs) <= BUFFSIZE) ch2).
    { intros k. unfold s2, ch2, answered in *. destruct (in1 p); [|split_and!; try done; (congruence || lia)]. destruct F as [|bs cs [Hb1 Hb2] F]; [cbn in Hm; lia|]. cbn [tail map length] in *.
      split_and!; try done; try lia.
      - unfold or_else. assert (Hb : Z.of_nat (length bs) <= BUFFSIZE) by done. rewrite (bind_ret _ _ _ _ _ (from_remote_copy bs (map Bytes cs) s1 ltac:(congruence) Hb1 Hb)). done.
      - cbn. by rewrite <- app_assoc, K6. }
    destruct (Hs2 (mret Again)) as (_ & L1 & L2 & L3 & L4 & L5 & L6 & L7 & L8 & L9).
    destruct (IH ks1 ch2 s2) as (s' & E & E1 & E2 & E3 & E4); [done|by rewrite L2|done|lia|done|done|done|].
    exists s'. split_and!; [|by rewrite E1, L4|by rewrite E2|done|congruence].
    unfold turn. unfold mbind at 1, M_bind at 1. rewrite (proj1 (Hs1 _)), Q1, (proj1 (Hs2 _)), Q2. exact E.
Qed.
End Session.

#[local] Instance sample_terminal : Terminal := {| VSUSP := 26; VEOF := 4; creatable := fun _ => true |}.
Lemma take_gets_file_witness : exists s',
  session_take (Session (bytes "notes copy" ++ [10]) [Bytes (bytes "cat no"); Bytes (bytes "tes" ++ [13; 10] ++ bytes "one" ++ [13]); Bytes ([10] ++ bytes "two" ++ [1; 36])]
    100 [] [] ∅ 50 0 [] true [] []) = Ret tt s' /\ files s' = {[bytes "copy" := bytes "one" ++ [10] ++ bytes "two"]}.
Proof.
  destruct (take_gets_file (bytes "notes") (bytes "copy") [] (bytes "cat notes" ++ [13]) (bytes "one" ++ [13; 10] ++ bytes "two") [36]
    (Session (bytes "notes copy" ++ [10]) [Bytes (bytes "cat no"); Bytes (bytes "tes" ++ [13; 10] ++ bytes "one" ++ [13]); Bytes ([10] ++ bytes "two" ++ [1; 36])]
    100 [] [] ∅ 50 0 [] true [] [])) as (s' & E & _ & Hf & _).
  - reflexivity.
  - split; [done|]. by repeat constructor.
  - split; [done|]. by repeat constructor.
  - done.
  - done.
  - cbn. lia.
  - cbn. lia.
  - by repeat constructor.
  - reflexivity.
  - repeat constructor; by vm_compute.
  - repeat constructor; by vm_compute.
  - exists s'. split; [exact E|]. rewrite Hf. reflexivity.
Defined.

(** A tilde and a character above 127 end the session: the character, returned as a negative
    [char], is taken for the sign to stop. *)
Theorem escape_high_character `{T : Terminal} c s : 128 <= c < 256 -> keys s = escapec :: [c] -> bol s = true -> VSUSP <> c ->
  exists s', turn (Polled true false false false) s = Ret Break s'.
Proof.
  intros Hc Hk Hb Hv. assert (Hs : schar c = c - 256).
  { unfold schar, swrap. change (2 ^ 8) with 256. change (2 ^ (8 - 1)) with 128. rewrite Z.mod_small by lia. by bfalse (c <? 128). }
  assert (Hd : doescape (set_keys [c] s) = Ret (c - 256) (set_keys [] (set_keys [c] s))).
  { unfold doescape. rewrite bind_ret with (a := Some c) (s' := set_keys [] (set_keys [c] s)) by done. unfold escapec.
    bfalse (c =? 126). bfalse (c =? 46). bfalse (c =? VSUSP). bfalse (c =? 35). bfalse (c =? 116). bfalse (c =? 112). by rewrite Hs. }
  unfold turn, or_else, from_keys. cbn [in0]. exists (set_keys [] (set_keys [c] s)).
  rewrite bind_ret with (a := Some Break) (s' := set_keys [] (set_keys [c] s)); [done|].
  rewrite bind_ret with (a := Some escapec) (s' := set_keys [c] s) by (unfold read_key; by rewrite Hk).
  rewrite bind_ret with (a := true) (s' := set_keys [c] s) by (unfold sget; cbn [bol set_keys]; by rewrite Hb).
  change ((escapec =? escapec) && true) with true. cbn iota. rewrite (bind_ret _ _ _ _ _ Hd). by btrue (c - 256 <? 0).
Qed.
(** When the line drops during the echo the local file stays open, and empty. *)
Theorem take_dropped_leaks : exists s',
  session_take (Session (bytes "notes copy" ++ [10]) [Bytes (bytes "cat no")] 100 [] [] {[bytes "copy" := bytes "old"]} 50 0 [] true [] []) = Ret tt s' /\
  streams s' = 1 /\ files s' = {[bytes "copy" := []]}.
Proof. eexists. split; [vm_compute; reflexivity|]. split; reflexivity. Qed.
