(* ===== verification/JobQueue.v ===== *)
(** The job queue of [src/apue2e/threads/rwlock.c], a doubly linked list under a
    reader-writer lock.  Every function holds the lock from beginning to end, so each is one step. *)
From S2P Require Import Prelude.

(** ** Data *)

Abbreviation ptr := (option nat).   (* none: NULL *)
Record job := Job { j_next : ptr; j_prev : ptr; j_id : Z }.
(** The jobs that exist, wherever they are linked, and the queue. *)
Record queue := Queue { q_head : ptr; q_tail : ptr; heap : gmap nat job }.
Definition set_head (p : ptr) (q : queue) : queue := Queue p (q_tail q) (heap q).
Definition set_tail (p : ptr) (q : queue) : queue := Queue (q_head q) p (heap q).
Definition set_next (p : ptr) (j : job) : job := Job p (j_prev j) (j_id j).
Definition set_prev (p : ptr) (j : job) : job := Job (j_next j) p (j_id j).
(** [p->...]: there is none when the pointer is null or the job does not exist. *)
Definition deref (p : ptr) (q : queue) : option job := a ← p; heap q !! a.
Definition update (p : ptr) (f : job -> job) (q : queue) : option queue :=
  a ← p; _ ← heap q !! a; Some (Queue (q_head q) (q_tail q) (alter f a (heap q))).

(** ** Operations *)

Definition queue_init (h : gmap nat job) : queue := Queue None None h.
Definition job_insert (jp : nat) (q : queue) : option queue :=
  q ← update (Some jp) (set_next (q_head q)) q;
  q ← update (Some jp) (set_prev None) q;
  q ← (match q_head q with
       | Some _ => update (q_head q) (set_prev (Some jp)) q
       | None => Some (set_tail (Some jp) q)
       end);
  Some (set_head (Some jp) q).
Definition job_append (jp : nat) (q : queue) : option queue :=
  q ← update (Some jp) (set_next None) q;
  q ← update (Some jp) (set_prev (q_tail q)) q;
  q ← (match q_tail q with
       | Some _ => update (q_tail q) (set_next (Some jp)) q
       | None => Some (set_head (Some jp) q)
       end);
  Some (set_tail (Some jp) q).
Definition job_remove (jp : nat) (q : queue) : option queue :=
  if decide (Some jp = q_head q) then
    j ← deref (Some jp) q;
    let q := set_head (j_next j) q in
    Some (if decide (q_tail q = Some jp) then set_tail None q else q)
  else if decide (Some jp = q_tail q) then
    j ← deref (Some jp) q;
    let q := set_tail (j_prev j) q in
    Some (if decide (q_head q = Some jp) then set_head None q else q)
  else
    j ← deref (Some jp) q;
    q ← update (j_prev j) (set_next (j_next j)) q;
    update (j_next j) (set_prev (j_prev j)) q.
(** none: a pointer that leads nowhere; the number of jobs bounds the loop where the
    list has no cycle. *)
Fixpoint find_from (fuel : nat) (p : ptr) (id : Z) (q : queue) : option ptr :=
  match fuel, p with
  | _, None => Some None
  | O, Some _ => None
  | S fuel, Some a =>
      j ← heap q !! a;
      if j_id j =? id then Some (Some a) else find_from fuel (j_next j) id q
  end.
(** Where the read lock is not given, the answer is a null pointer, whatever the queue holds. *)
Definition job_find (rdlock_ok : bool) (id : Z) (q : queue) : option ptr :=
  if rdlock_ok then find_from (S (size (heap q))) (q_head q) id q else Some None.

(** ** Lists *)

(** What the pointers of a job are, if it exists. *)
Definition nx (h : gmap nat job) (a : nat) : option ptr := j_next <$> h !! a.
Definition pv (h : gmap nat job) (a : nat) : option ptr := j_prev <$> h !! a.
Definition idof (h : gmap nat job) (a : nat) : option Z := j_id <$> h !! a.
Definition alive (h : gmap nat job) (a : nat) : Prop := is_Some (h !! a).

Lemma nx_set_next p a h b : nx (alter (set_next p) a h) b = if decide (a = b) then (fun _ => p) <$> nx h b else nx h b.
Proof. unfold nx. destruct (decide (a = b)) as [->|Hn]; [rewrite lookup_alter_eq|by rewrite lookup_alter_ne]. by destruct (h !! b). Qed.
Lemma nx_set_prev p a h b : nx (alter (set_prev p) a h) b = nx h b.
Proof. unfold nx. destruct (decide (a = b)) as [->|Hn]; [rewrite lookup_alter_eq|by rewrite lookup_alter_ne]. by destruct (h !! b). Qed.
Lemma pv_set_prev p a h b : pv (alter (set_prev p) a h) b = if decide (a = b) then (fun _ => p) <$> pv h b else pv h b.
Proof. unfold pv. destruct (decide (a = b)) as [->|Hn]; [rewrite lookup_alter_eq|by rewrite lookup_alter_ne]. by destruct (h !! b). Qed.
Lemma pv_set_next p a h b : pv (alter (set_next p) a h) b = pv h b.
Proof. unfold pv. destruct (decide (a = b)) as [->|Hn]; [rewrite lookup_alter_eq|by rewrite lookup_alter_ne]. by destruct (h !! b). Qed.
Lemma id_set_next p a h b : idof (alter (set_next p) a h) b = idof h b.
Proof. unfold idof. destruct (decide (a = b)) as [->|Hn]; [rewrite lookup_alter_eq|by rewrite lookup_alter_ne]. by destruct (h !! b). Qed.
Lemma id_set_prev p a h b : idof (alter (set_prev p) a h) b = idof h b.
Proof. unfold idof. destruct (decide (a = b)) as [->|Hn]; [rewrite lookup_alter_eq|by rewrite lookup_alter_ne]. by destruct (h !! b). Qed.
Lemma alive_alter f a h b : alive (alter f a h) b <-> alive h b.
Proof. unfold alive. destruct (decide (a = b)) as [->|Hn]; [rewrite lookup_alter_eq|by rewrite lookup_alter_ne]. by rewrite fmap_is_Some. Qed.
Lemma nx_alive h a : alive h a -> is_Some (nx h a). Proof. unfold nx. by intros [j ->]. Qed.
Lemma pv_alive h a : alive h a -> is_Some (pv h a). Proof. unfold pv. by intros [j ->]. Qed.
Lemma update_some a f q : alive (heap q) a -> update (Some a) f q = Some (Queue (q_head q) (q_tail q) (alter f a (heap q))).
Proof. intros [j Hj]. unfold update. cbn. by rewrite Hj. Qed.
Ltac fields := repeat first [rewrite nx_set_next|rewrite nx_set_prev|rewrite pv_set_next|rewrite pv_set_prev|rewrite id_set_next|rewrite id_set_prev].

Definition joined (h : gmap nat job) (a b : nat) : Prop := nx h a = Some (Some b) /\ pv h b = Some (Some a).
Fixpoint linked (h : gmap nat job) (l : list nat) : Prop :=
  match l with
  | [] => True
  | a :: l' => alive h a /\ linked h l' /\ match l' with [] => True | b :: _ => joined h a b end
  end.
(** The queue holds the jobs [l]; [clean]: the last one points nowhere. *)
Record holds (q : queue) (l : list nat) : Prop := Holds {
  ho_nodup : NoDup l;
  ho_head : q_head q = head l;
  ho_tail : q_tail q = last l;
  ho_linked : linked (heap q) l
}.
Definition clean (q : queue) (l : list nat) : Prop := match last l with Some a => nx (heap q) a = Some None | None => True end.

Lemma chained_app h l1 l2 : linked h (l1 ++ l2) <-> linked h l1 /\ linked h l2 /\
  match last l1, head l2 with Some a, Some b => joined h a b | _, _ => True end.
Proof.
  induction l1 as [|a l1 IH]; cbn [app linked last head]; [tauto|]. destruct l1 as [|b l1].
  - cbn [app linked last]. destruct l2 as [|c l2]; cbn [linked head]; tauto.
  - cbn [app] in *. rewrite IH. change (last (a :: b :: l1)) with (last (b :: l1)). cbn [linked]. tauto.
Qed.
Lemma linked_alive h l a : linked h l -> a ∈ l -> alive h a.
Proof. induction l as [|b l IH]; [by intros _ ?%not_elem_of_nil|]. cbn. intros (H1 & H2 & _) [->|Ha]%elem_of_cons; auto. Qed.
(** A list is linked as it was when what is read of its jobs is. *)
Lemma chained_ext h h' l : NoDup l -> linked h l -> (forall a, alive h a -> alive h' a) ->
  (forall a, a ∈ l -> last l <> Some a -> nx h' a = nx h a) -> (forall a, a ∈ tail l -> pv h' a = pv h a) -> linked h' l.
Proof.
  induction l as [|a l IH]; [done|]. intros [Ha ND]%NoDup_cons. cbn [linked tail]. intros (H1 & H2 & H3) He Hn Hp. split_and!.
  - by apply He.
  - destruct l as [|b l]; [done|]. apply IH; [done|done|done|..].
    + intros c Hc Hl. apply Hn; [by right|done].
    + intros c Hc. apply Hp. by right.
  - destruct l as [|b l]; [done|]. unfold joined. rewrite (Hp b) by left. rewrite Hn; [done|by left|]. intros Hl. apply Ha. by apply last_Some_elem_of.
Qed.

(** The job [jp] becomes the head: the heap of [job_insert]. *)
Lemma job_insert_ok jp q l : holds q l -> jp ∉ l -> alive (heap q) jp ->
  exists q', job_insert jp q = Some q' /\ holds q' (jp :: l) /\ (clean q l -> clean q' (jp :: l)) /\
    (forall a, alive (heap q) a -> alive (heap q') a) /\ (forall a, idof (heap q') a = idof (heap q) a).
Proof.
  intros [ND Hh Ht Hl] Hn Hj. unfold job_insert. rewrite update_some by done. cbn [mbind option_bind]. rewrite update_some by (cbn [heap]; by rewrite alive_alter).
  cbn [mbind option_bind q_head q_tail heap]. rewrite Hh. destruct (nx_alive _ _ Hj) as [pj Hpj]. destruct l as [|b l]; cbn [head].
  - eexists. split; [done|]. split_and!; cbn [heap set_head set_tail].
    + split; cbn [q_head q_tail heap set_head set_tail]; [by apply NoDup_singleton|done|done|]. cbn. by rewrite !alive_alter.
    + intros _. unfold clean. cbn [last heap set_head set_tail]. fields. by rewrite decide_True, Hpj.
    + intros a. by rewrite !alive_alter.
    + intros a. by fields.
  - assert (Hb : alive (heap q) b) by (apply (linked_alive _ _ _ Hl); by left). assert (Hjb : jp <> b) by (intros ->; apply Hn; by left).
    rewrite update_some by (cbn [heap]; by rewrite !alive_alter). cbn [mbind option_bind]. eexists. split; [done|]. cbn [heap set_head].
    set (h3 := alter _ b _). assert (Hnx : forall a, nx h3 a = if decide (jp = a) then Some (Some b) else nx (heap q) a).
    { intros a. unfold h3. fields. case_decide; [subst; by rewrite Hpj|done]. }
    assert (Hpv : forall a, pv h3 a = if decide (b = a) then Some (Some jp) else if decide (jp = a) then Some None else pv (heap q) a).
    { intros a. unfold h3. fields. destruct (pv_alive _ _ Hb) as [x Hx], (pv_alive _ _ Hj) as [y Hy]. repeat case_decide; subst; rewrite ?Hx, ?Hy; done. }
    assert (Hal : forall a, alive h3 a <-> alive (heap q) a) by (intros a; unfold h3; by rewrite !alive_alter).
    split_and!.
    + split; cbn [q_head q_tail heap set_head]; [by apply NoDup_cons|done|by rewrite Ht|]. change (linked h3 ([jp] ++ b :: l)). apply chained_app.
      split; [cbn; by rewrite Hal|]. split; [|split; [rewrite Hnx; by rewrite decide_True|rewrite Hpv; by rewrite decide_True]].
      apply (chained_ext (heap q)); [done|done|intros a; apply Hal|intros a Ha _; rewrite Hnx, decide_False; [done|set_solver]|].
      intros a Ha. cbn [tail] in Ha. apply NoDup_cons in ND as [Hbl _]. rewrite Hpv, !decide_False; [done|set_solver|set_solver].
    + unfold clean. change (last (jp :: b :: l)) with (last (b :: l)). cbn [heap set_head]. destruct (last (b :: l)) as [t|] eqn:El; [|done].
      intros Hc. rewrite Hnx, decide_False; [done|]. intros ->. apply Hn. by apply last_Some_elem_of.
    + intros a. apply Hal.
    + intros a. unfold h3. by fields.
Qed.

Lemma job_append_ok jp q l : holds q l -> jp ∉ l -> alive (heap q) jp ->
  exists q', job_append jp q = Some q' /\ holds q' (l ++ [jp]) /\ clean q' (l ++ [jp]) /\
    (forall a, alive (heap q) a -> alive (heap q') a) /\ (forall a, idof (heap q') a = idof (heap q) a).
Proof.
  intros [ND Hh Ht Hl] Hn Hj. unfold job_append. rewrite update_some by done. cbn [mbind option_bind]. rewrite update_some by (cbn [heap]; by rewrite alive_alter).
  cbn [mbind option_bind q_head q_tail heap]. rewrite Ht. destruct (nx_alive _ _ Hj) as [pj Hpj], (pv_alive _ _ Hj) as [vj Hvj]. destruct (last l) as [t|] eqn:El.
  - assert (Htl : t ∈ l) by (by apply last_Some_elem_of). assert (Hta : alive (heap q) t) by (by apply (linked_alive _ _ _ Hl)). assert (Hjt : jp <> t) by (by intros ->).
    rewrite update_some by (cbn [heap]; by rewrite !alive_alter). cbn [mbind option_bind]. eexists. split; [done|]. cbn [heap set_tail].
    destruct (nx_alive _ _ Hta) as [pt Hpt]. set (h3 := alter _ t _). assert (Hnx : forall a, nx h3 a = if decide (t = a) then Some (Some jp) else if decide (jp = a) then Some None else nx (heap q) a).
    { intros a. unfold h3. fields. repeat case_decide; subst; rewrite ?Hpt, ?Hpj; done. }
    assert (Hpv : forall a, pv h3 a = if decide (jp = a) then Some (Some t) else pv (heap q) a).
    { intros a. unfold h3. fields. repeat case_decide; subst; rewrite ?Hvj; done. }
    assert (Hal : forall a, alive h3 a <-> alive (heap q) a) by (intros a; unfold h3; by rewrite !alive_alter).
    split_and!.
    + split; cbn [q_head q_tail heap set_tail]; [apply NoDup_app; split_and!; [done|set_solver|by apply NoDup_singleton]|rewrite Hh; by destruct l|by rewrite last_snoc|].
      change (linked h3 (l ++ [jp])). apply chained_app. split; [|split; [cbn; by rewrite Hal|]].
      * apply (chained_ext (heap q)); [done|done|intros a; apply Hal| |].
        -- intros a Ha Hla. rewrite Hnx, !decide_False; [done|set_solver|congruence].
        -- intros a Ha. assert (a ∈ l) by (destruct l; [done|by right]). rewrite Hpv, decide_False; [done|set_solver].
      * rewrite El. cbn [head]. split; [rewrite Hnx; by rewrite decide_True|rewrite Hpv; by rewrite decide_True].
    + unfold clean. rewrite last_snoc. cbn [heap set_tail]. change (nx h3 jp = Some None). rewrite Hnx, decide_False, decide_True by done. done.
    + intros a. apply Hal.
    + intros a. unfold h3. by fields.
  - destruct l as [|b l]; [|by apply last_None in El]. eexists. split; [done|]. cbn [heap set_head set_tail app]. split_and!.
    + split; cbn [q_head q_tail heap set_head set_tail]; [by apply NoDup_singleton|done|done|]. cbn. by rewrite !alive_alter.
    + unfold clean. cbn [last heap set_head set_tail]. fields. by rewrite decide_True, Hpj.
    + intros a. by rewrite !alive_alter.
    + intros a. by fields.
Qed.

(** Removing works on a clean queue; it leaves a queue that is not clean when the tail goes and others stay. *)
Lemma job_remove_head jp q l : holds q (jp :: l) -> (l = [] -> clean q (jp :: l)) ->
  exists q', job_remove jp q = Some q' /\ holds q' l /\ (clean q (jp :: l) -> clean q' l) /\ heap q' = heap q.
Proof.
  intros [ND Hh Ht Hl] Hc. unfold job_remove. rewrite Hh. cbn [head]. rewrite decide_True by done.
  destruct (linked_alive _ _ jp Hl ltac:(by left)) as [j Hj]. unfold deref. cbn [mbind option_bind]. rewrite Hj. cbn [mbind option_bind].
  assert (Hn : nx (heap q) jp = Some (j_next j)) by (unfold nx; by rewrite Hj). cbn [linked] in Hl. destruct Hl as (_ & Hl & Hjn).
  apply NoDup_cons in ND as [Hnin ND]. eexists. split; [done|]. cbn [q_tail set_head]. rewrite Ht.
  destruct l as [|b l].
  - rewrite decide_True by done. specialize (Hc eq_refl). unfold clean in Hc. cbn [last] in Hc. rewrite Hn in Hc. injection Hc as Hc. split_and!; try done.
  - change (last (jp :: b :: l)) with (last (b :: l)). rewrite decide_False. 2: { intros He. apply Hnin. by apply last_Some_elem_of. }
    destruct Hjn as [Hjn _]. rewrite Hn in Hjn. injection Hjn as Hjn. split_and!; try done.
Qed.
Lemma job_remove_later jp q l1 l2 : holds q (l1 ++ jp :: l2) -> l1 <> [] ->
  exists q', job_remove jp q = Some q' /\ holds q' (l1 ++ l2) /\ (l2 <> [] -> clean q (l1 ++ jp :: l2) -> clean q' (l1 ++ l2)) /\
    (forall a, alive (heap q) a -> alive (heap q') a) /\ (forall a, idof (heap q') a = idof (heap q) a).
Proof.
  intros [ND Hh Ht Hl] Hne. unfold job_remove. pose proof ND as (ND1 & Hd & [Hj2 ND2]%NoDup_cons)%NoDup_app.
  rewrite decide_False. 2: { rewrite Hh. destruct l1 as [|x l1]; [done|]. cbn. intros [= ->]. apply (Hd x); left. }
  destruct (linked_alive _ _ jp Hl ltac:(set_solver)) as [j Hj]. assert (Hn : nx (heap q) jp = Some (j_next j)) by (unfold nx; by rewrite Hj).
  assert (Hp : pv (heap q) jp = Some (j_prev j)) by (unfold pv; by rewrite Hj).
  unfold deref. cbn [mbind option_bind]. rewrite Hj. cbn [mbind option_bind].
  pose proof Hl as (Hl1 & Hl2 & Hjoin)%chained_app. destruct (last l1) as [p|] eqn:Elp; [|by apply last_None in Elp]. cbn [head] in Hjoin. destruct Hjoin as [Hpn Hpp].
  rewrite Hp in Hpp. injection Hpp as Hpp. assert (Hpl : p ∈ l1) by (by apply last_Some_elem_of).
  destruct l2 as [|b l2].
  - rewrite Ht, last_snoc, decide_True by done. cbn [q_head set_tail]. rewrite decide_False.
    2: { rewrite Hh. destruct l1 as [|x l1]; [done|]. cbn. intros [= ->]. apply (Hd jp); left. }
    eexists. split; [done|]. rewrite app_nil_r. split_and!; try done. split; cbn [q_head q_tail heap set_tail]; [done|rewrite Hh; by destruct l1|congruence|done].
  - assert (Hlast : last (l1 ++ jp :: b :: l2) = last (b :: l2)) by (rewrite last_app; cbn; by destruct (last (b :: l2)) eqn:E; [|apply last_None in E]).
    rewrite decide_False. 2: { rewrite Ht, Hlast. intros He. symmetry in He. apply last_Some_elem_of in He. done. }
    cbn [linked] in Hl2. destruct Hl2 as (_ & Hl2 & [Hnb Hpb]). rewrite Hn in Hnb. injection Hnb as Hnb.
    assert (Hpa : alive (heap q) p) by (apply (linked_alive _ _ _ Hl); set_solver). assert (Hba : alive (heap q) b) by (apply (linked_alive _ _ _ Hl); set_solver).
    rewrite Hpp, Hnb. rewrite update_some by done. cbn [mbind option_bind]. rewrite update_some by (cbn [heap]; by rewrite alive_alter).
    eexists. split; [done|]. cbn [q_head q_tail heap]. set (h3 := alter _ b _).
    assert (Hnx : forall a, nx h3 a = if decide (p = a) then Some (Some b) else nx (heap q) a).
    { intros a. unfold h3. fields. case_decide; [subst; by rewrite Hpn|done]. }
    assert (Hpv : forall a, pv h3 a = if decide (b = a) then Some (Some p) else pv (heap q) a).
    { intros a. unfold h3. fields. case_decide; [subst; by rewrite Hpb|done]. }
    assert (Hal : forall a, alive h3 a <-> alive (heap q) a) by (intros a; unfold h3; by rewrite !alive_alter).
    assert (Hlast' : last (l1 ++ b :: l2) = last (b :: l2)) by (rewrite last_app; by destruct (last (b :: l2)) eqn:E; [|apply last_None in E]).
    assert (Hbn : b ∉ l1) by (intros Hb; apply (Hd b Hb); set_solver).
    split_and!.
    + split; cbn [q_head q_tail heap].
      * apply NoDup_app. split_and!; [done| |done]. intros x Hx. specialize (Hd x Hx). set_solver.
      * rewrite Hh. by destruct l1.
      * by rewrite Ht, Hlast, Hlast'.
      * apply chained_app. split; [|split].
        -- apply (chained_ext (heap q)); [done|done|intros a; apply Hal| |].
           ++ intros a Ha Hla. rewrite Hnx, decide_False; [done|congruence].
           ++ intros a Ha. assert (a ∈ l1) by (destruct l1 as [|x l1]; [by apply not_elem_of_nil in Ha|cbn in Ha; by right]). rewrite Hpv, decide_False; [done|by intros ->].
        -- apply (chained_ext (heap q)); [done|done|intros a; apply Hal| |].
           ++ intros a Ha _. rewrite Hnx, decide_False; [done|]. intros ->. apply (Hd a Hpl). set_solver.
           ++ intros a Ha. cbn in Ha. apply NoDup_cons in ND2 as [Hb2 _]. rewrite Hpv, decide_False; [done|]. by intros ->.
        -- rewrite Elp. cbn [head]. split; [rewrite Hnx; by rewrite decide_True|rewrite Hpv; by rewrite decide_True].
    + intros _. unfold clean. rewrite Hlast, Hlast'. cbn [heap]. destruct (last (b :: l2)) as [t|] eqn:Et; [|done]. intros Hc. rewrite Hnx, decide_False; [done|].
      intros ->. apply (Hd t Hpl). apply last_Some_elem_of in Et. set_solver.
    + intros a. apply Hal.
    + intros a. unfold h3. by fields.
Qed.

(** ** Finding *)

Definition first_with (id : Z) (h : gmap nat job) (l : list nat) : ptr := snd <$> list_find (fun a => idof h a = Some id) l.
Lemma find_from_ok fuel l id q : linked (heap q) l -> clean q l -> (length l <= fuel)%nat -> find_from fuel (head l) id q = Some (first_with id (heap q) l).
Proof.
  revert fuel. induction l as [|a l IH]; intros fuel Hl Hc Hf; [by destruct fuel|]. destruct fuel as [|fuel]; [cbn in Hf; lia|]. cbn [head find_from].
  cbn [linked] in Hl. destruct Hl as ([j Hj] & Hl & Hn). rewrite Hj. cbn [mbind option_bind]. unfold first_with. cbn [list_find].
  assert (Hio : idof (heap q) a = Some (j_id j)) by (unfold idof; by rewrite Hj).
  destruct (Z.eqb_spec (j_id j) id) as [Hid|Hid]; [rewrite decide_True by congruence; done|]. rewrite decide_False by congruence.
  assert (Hnx : j_next j = head l).
  { destruct l as [|b l]; [|destruct Hn as [Hn _]; unfold nx in Hn; rewrite Hj in Hn; by injection Hn].
    unfold clean in Hc. cbn [last] in Hc. unfold nx in Hc. rewrite Hj in Hc. by injection Hc. }
  rewrite Hnx, IH; [|done|destruct l; [done|exact Hc]|cbn in Hf; lia]. unfold first_with. by destruct (list_find _ l) as [[? ?]|].
Qed.
Lemma holds_size q l : holds q l -> (length l <= size (heap q))%nat.
Proof.
  intros [ND _ _ Hl]. rewrite <- size_dom, <- (size_list_to_set (C := gset nat) l) by done. apply subseteq_size. intros a Ha%elem_of_list_to_set.
  apply elem_of_dom. by apply (linked_alive _ _ _ Hl).
Qed.

(** ** The queue as a list *)

Inductive op := Insert (a : nat) | Append (a : nat) | Remove (a : nat) | Find (rdlock_ok : bool) (id : Z).
Definition step (o : op) (q : queue) : option (queue * ptr) :=
  match o with
  | Insert a => (fun q => (q, None)) <$> job_insert a q
  | Append a => (fun q => (q, None)) <$> job_append a q
  | Remove a => (fun q => (q, None)) <$> job_remove a q
  | Find rdlock_ok id => (fun r => (q, r)) <$> job_find rdlock_ok id q
  end.
Fixpoint steps (ops : list op) (q : queue) : option (queue * list ptr) :=
  match ops with
  | [] => Some (q, [])
  | o :: ops' => '(q1, r) ← step o q; '(q2, rs) ← steps ops' q1; Some (q2, r :: rs)
  end.
Definition spec_step (h : gmap nat job) (o : op) (l : list nat) : list nat * ptr :=
  match o with
  | Insert a => (a :: l, None)
  | Append a => (l ++ [a], None)
  | Remove a => (filter (fun x => x <> a) l, None)
  | Find rdlock_ok id => (l, if rdlock_ok then first_with id h l else None)
  end.
Fixpoint spec_steps (h : gmap nat job) (ops : list op) (l : list nat) : list nat * list ptr :=
  match ops with
  | [] => (l, [])
  | o :: ops' => let '(l1, r) := spec_step h o l in let '(l2, rs) := spec_steps h ops' l1 in (l2, r :: rs)
  end.
(** Callers add jobs that exist and are not in the queue, and remove jobs that are in it, but not
    the last one as long as there are others. *)
Definition fits (h : gmap nat job) (o : op) (l : list nat) : Prop :=
  match o with
  | Insert a | Append a => a ∉ l /\ alive h a
  | Remove a => a ∈ l /\ (last l = Some a -> l = [a])
  | Find _ _ => True
  end.
Fixpoint all_fit (h : gmap nat job) (ops : list op) (l : list nat) : Prop :=
  match ops with [] => True | o :: ops' => fits h o l /\ all_fit h ops' (spec_step h o l).1 end.

Lemma filter_out (a : nat) l1 l2 : NoDup (l1 ++ a :: l2) -> filter (fun x => x <> a) (l1 ++ a :: l2) = l1 ++ l2.
Proof.
  intros (_ & Hd & [H2 _]%NoDup_cons)%NoDup_app. rewrite filter_app, filter_cons_False by (intros H; by apply H).
  assert (Hid : forall l : list nat, a ∉ l -> filter (fun x => x <> a) l = l).
  { intros l. induction l as [|b l IH]; [done|]. intros [? ?]%not_elem_of_cons. rewrite filter_cons_True by congruence. by rewrite IH. }
  rewrite !Hid; [done|done|]. intros Ha. apply (Hd a Ha). by left.
Qed.
Lemma first_with_ext id h h' l : (forall a, idof h' a = idof h a) -> first_with id h' l = first_with id h l.
Proof. intros He. unfold first_with. f_equal. apply list_find_ext. intros a. by rewrite He. Qed.
Lemma op_ok h o q l : holds q l -> clean q l -> (forall a, alive h a -> alive (heap q) a) -> (forall a, idof (heap q) a = idof h a) -> fits h o l ->
  exists q', step o q = Some (q', (spec_step h o l).2) /\ holds q' (spec_step h o l).1 /\ clean q' (spec_step h o l).1 /\
    (forall a, alive h a -> alive (heap q') a) /\ (forall a, idof (heap q') a = idof h a).
Proof.
  intros Hq Hc Ha Hi Hf. destruct o as [a|a|a|[] id]; cbn [fits step spec_step fst snd] in *.
  - destruct Hf as [Hn Hal]. destruct (job_insert_ok a q l Hq Hn (Ha a Hal)) as (q' & -> & H1 & H2 & H3 & H4). exists q'. cbn. split_and!; auto. intros b. by rewrite H4.
  - destruct Hf as [Hn Hal]. destruct (job_append_ok a q l Hq Hn (Ha a Hal)) as (q' & -> & H1 & H2 & H3 & H4). exists q'. cbn. split_and!; auto. intros b. by rewrite H4.
  - destruct Hf as [(l1 & l2 & ->)%list_elem_of_split Hlast]. rewrite filter_out by apply Hq. destruct l1 as [|x l1].
    + destruct (job_remove_head a q l2 Hq ltac:(done)) as (q' & -> & H1 & H2 & H3). exists q'. cbn. rewrite H3. split_and!; auto.
    + assert (H2ne : l2 <> []). { intros ->. rewrite last_snoc in Hlast. specialize (Hlast eq_refl). cbn in Hlast. by destruct l1. }
      destruct (job_remove_later a q (x :: l1) l2 Hq ltac:(done)) as (q' & -> & H1 & H2 & H3 & H4). exists q'. cbn. split_and!; auto. intros b. by rewrite H4.
  - exists q. unfold job_find. rewrite (ho_head _ _ Hq), (find_from_ok _ l) by (apply Hq || done || (pose proof (holds_size q l Hq); lia)).
    cbn. rewrite (first_with_ext id h (heap q)) by done. split_and!; auto.
  - exists q. cbn. split_and!; auto.
Qed.

(** C26: The queue is a list: every sequence of insertions at either end, removals and searches, made by
    threads in any order, gives the results of the same operations on a list, as long as the last
    of several jobs is not removed; a search that does not get the read lock finds nothing. *)
Theorem job_queue_refines_list h ops :
  all_fit h ops [] ->
  exists q, steps ops (queue_init h) = Some (q, (spec_steps h ops []).2) /\ holds q (spec_steps h ops []).1.
Proof.
  assert (G : forall l q, holds q l -> clean q l -> (forall a, alive h a -> alive (heap q) a) -> (forall a, idof (heap q) a = idof h a) -> all_fit h ops l ->
    exists q', steps ops q = Some (q', (spec_steps h ops l).2) /\ holds q' (spec_steps h ops l).1).
  { induction ops as [|o ops IH]; intros l q Hq Hc Ha Hi Hf; [by exists q|]. destruct Hf as [Hf Hr]. cbn [steps spec_steps].
    destruct (op_ok h o q l Hq Hc Ha Hi Hf) as (q1 & -> & H1 & H2 & H3 & H4). destruct (spec_step h o l) as [l1 r]. cbn [fst snd mbind option_bind] in *.
    destruct (IH l1 q1 H1 H2 H3 H4 Hr) as (q2 & -> & H5). destruct (spec_steps h ops l1) as [l2 rs]. by exists q2. }
  apply G; [split; try done; apply NoDup_nil_2|done|done|done].
Qed.
Definition three_jobs : gmap nat job := {[1%nat := Job None None 10; 2%nat := Job None None 20; 3%nat := Job None None 30]}.
Lemma job_queue_refines_list_witness : exists q,
  steps [Append 1; Append 2; Insert 3; Remove 1; Find true 20; Find true 10; Find false 20] (queue_init three_jobs) = Some (q, [None; None; None; None; Some 2%nat; None; None]) /\ holds q [3%nat; 2%nat].
Proof.
  apply (job_queue_refines_list three_jobs [Append 1; Append 2; Insert 3; Remove 1; Find true 20; Find true 10; Find false 20]).
  cbn. split_and!; try (by eexists); try done; try set_solver.
Defined.
(** Removing the last of several jobs does not reset the pointer to it: when the others are removed too, it is in
    the queue again. *)
Theorem removed_job_comes_back : exists q r,
  steps [Append 1; Append 2; Remove 2; Remove 1; Find true 20] (queue_init three_jobs) = Some (q, r) /\ last r = Some (Some 2%nat) /\ q_head q = Some 2%nat /\ q_tail q = None.
Proof. do 2 eexists. split; [vm_compute; reflexivity|]. done. Qed.
