(* ===== verification/Bpf.v ===== *)
(** Seccomp filters: programs for the kernel's packet filter machine, which it runs at every
    system call.  The instructions are those that the programs under
    [src/tlpi-dist/seccomp] use; how they are checked when they are
    installed, how they run and how several filters are combined is described in seccomp(2) and
    in the kernel's documentation of socket filters. *)
From S2P Require Import Prelude.

(** ** Instructions *)

Record sock_filter := SockFilter { code : Z; jt : Z; jf : Z; k : Z }.
#[global] Instance sock_filter_eq_dec : EqDecision sock_filter. Proof. solve_decision. Defined.
Definition BPF_STMT (c x : Z) : sock_filter := SockFilter c 0 0 x.
Definition BPF_JUMP (c x t f : Z) : sock_filter := SockFilter c t f x.

Definition BPF_LD : Z := 0.
Definition BPF_ALU : Z := 4.
Definition BPF_JMP : Z := 5.
Definition BPF_RET : Z := 6.
Definition BPF_W : Z := 0.
Definition BPF_ABS : Z := 32.
Definition BPF_ADD : Z := 0.
Definition BPF_JA : Z := 0.
Definition BPF_JEQ : Z := 16.
Definition BPF_JGT : Z := 32.
Definition BPF_JGE : Z := 48.
Definition BPF_JSET : Z := 64.
Definition BPF_K : Z := 0.
Declare Scope bpf_scope.
Delimit Scope bpf_scope with bpf.
Infix ".|" := Z.lor (at level 40, left associativity) : bpf_scope.

(** What an instruction code stands for. *)
Inductive cmp := CEq | CGt | CGe | CSet.
Inductive op := OLoad | OAdd | OJump | OCond (c : cmp) | ORet.
Definition decode (c : Z) : option op :=
  if c =? (BPF_LD .| BPF_W .| BPF_ABS)%bpf then Some OLoad
  else if c =? (BPF_ALU .| BPF_ADD .| BPF_K)%bpf then Some OAdd
  else if c =? (BPF_JMP .| BPF_JA)%bpf then Some OJump
  else if c =? (BPF_JMP .| BPF_JEQ .| BPF_K)%bpf then Some (OCond CEq)
  else if c =? (BPF_JMP .| BPF_JGT .| BPF_K)%bpf then Some (OCond CGt)
  else if c =? (BPF_JMP .| BPF_JGE .| BPF_K)%bpf then Some (OCond CGe)
  else if c =? (BPF_JMP .| BPF_JSET .| BPF_K)%bpf then Some (OCond CSet)
  else if c =? (BPF_RET .| BPF_K)%bpf then Some ORet
  else None.
Definition holds (c : cmp) (a x : Z) : bool :=
  match c with CEq => a =? x | CGt => x <? a | CGe => x <=? a | CSet => negb (Z.land a x =? 0) end.

(** ** What a filter sees of a system call *)

Record seccomp_data := SeccompData { nr : Z; arch : Z; instruction_pointer : Z; args : list Z }.
Definition u32 (z : Z) : Z := z mod 2 ^ 32.
Definition u64 (z : Z) : Z := z mod 2 ^ 64.
Definition low (z : Z) : Z := u32 z.
Definition high (z : Z) : Z := u64 z / 2 ^ 32.
(** Offsets of the members, and the word at an offset on a little-endian machine. *)
Definition off_nr : Z := 0.
Definition off_arch : Z := 4.
Definition off_ip : Z := 8.
Definition off_args (i : Z) : Z := 16 + 8 * i.
Definition sizeof_data : Z := 64.
Definition word (d : seccomp_data) (off : Z) : Z :=
  if off =? off_nr then u32 (nr d)
  else if off =? off_arch then u32 (arch d)
  else
    let x := if off / 8 =? 1 then instruction_pointer d else nth (Z.to_nat (off / 8 - 2)) (args d) 0 in
    if off mod 8 =? 0 then low x else high x.

(** ** Running and checking *)

(** The accumulator [a] has 32 bits. Running past the end is no result. *)
Fixpoint bpf_run (fuel : nat) (d : seccomp_data) (p : list sock_filter) (a : Z) : option Z :=
  match fuel, p with
  | S fuel', i :: p' =>
      match decode (code i) with
      | Some OLoad => bpf_run fuel' d p' (word d (k i))
      | Some OAdd => bpf_run fuel' d p' (u32 (a + k i))
      | Some OJump => bpf_run fuel' d (drop (Z.to_nat (k i)) p') a
      | Some (OCond c) => bpf_run fuel' d (drop (Z.to_nat (if holds c a (k i) then jt i else jf i)) p') a
      | Some ORet => Some (k i)
      | None => None
      end
  | _, _ => None
  end.
Definition bpf (p : list sock_filter) (d : seccomp_data) : option Z := bpf_run (length p) d p 0.

Definition BPF_MAXINSNS : Z := 4096.
(** Loads are of words inside [seccomp_data], jumps end inside the program, and its
    last instruction returns. *)
Fixpoint check_from (p : list sock_filter) : bool :=
  match p with
  | [] => false
  | i :: p' =>
      let inside t := (0 <=? t) && (t <? Z.of_nat (length p')) in
      match decode (code i) with
      | Some OLoad => (0 <=? k i) && (k i <? sizeof_data) && (k i mod 4 =? 0) && check_from p'
      | Some OAdd => check_from p'
      | Some OJump => inside (k i) && check_from p'
      | Some (OCond _) => inside (jt i) && inside (jf i) && check_from p'
      | Some ORet => match p' with [] => true | _ => check_from p' end
      | None => false
      end
  end.
Definition bpf_check (p : list sock_filter) : bool := (Z.of_nat (length p) <=? BPF_MAXINSNS) && check_from p.

(** ** Return values, and several filters *)

Definition SECCOMP_RET_KILL_PROCESS : Z := 0x80000000.
Definition SECCOMP_RET_KILL : Z := 0.
Definition SECCOMP_RET_TRAP : Z := 0x30000.
Definition SECCOMP_RET_ERRNO : Z := 0x50000.
Definition SECCOMP_RET_USER_NOTIF : Z := 0x7fc00000.
Definition SECCOMP_RET_TRACE : Z := 0x7ff00000.
Definition SECCOMP_RET_LOG : Z := 0x7ffc0000.
Definition SECCOMP_RET_ALLOW : Z := 0x7fff0000.
(** The action of a return value, as the kernel compares them: the smaller takes
    precedence, the most recent filter if they are equal. *)
Definition action (v : Z) : Z := let m := Z.land v 0xffff0000 in if m <? 2 ^ 31 then m else m - 2 ^ 32.
(** [fs]: the most recent filter first. *)
Definition seccomp_run (fs : list (list sock_filter)) (d : seccomp_data) : option Z :=
  foldl (fun r f => v ← r; x ← bpf f d; Some (if action x <? action v then x else v)) (Some SECCOMP_RET_ALLOW) fs.

(** The filters of a process, which never lose one, and whether it has given up gaining
    privileges, without which it may install none. *)
Record sec := Sec { filters : list (list sock_filter); no_new_privs : bool }.
Definition set_no_new_privs : sec -> sec := fun s => Sec (filters s) true.
(** [seccomp(SECCOMP_SET_MODE_FILTER, ...)]; none: it fails. *)
Definition seccomp_install (p : list sock_filter) (s : sec) : option sec :=
  if no_new_privs s && bpf_check p then Some (Sec (p :: filters s) true) else None.

(** A filter that has been accepted gives an answer to every system call. *)
Lemma check_drop p n : check_from p = true -> (n < length p)%nat -> check_from (drop n p) = true.
Proof.
  revert p. induction n as [|n IH]; intros p Hp Hn; [by rewrite drop_0|]. destruct p as [|i p]; [done|]. cbn [drop length] in *. apply IH; [|lia].
  cbn [check_from] in Hp. destruct (decode (code i)) as [[| | |c|]|]; bsimp; try done. destruct p; [cbn in Hn; lia|done].
Qed.
Lemma checked_runs fuel d p a : check_from p = true -> (length p <= fuel)%nat -> is_Some (bpf_run fuel d p a).
Proof.
  revert p a. induction fuel as [|fuel IH]; intros p a Hp Hl; [destruct p; [done|cbn in Hl; lia]|]. destruct p as [|i p]; [done|]. cbn [length bpf_run check_from] in *.
  assert (Hgo : forall n b, (n < length p)%nat -> check_from p = true -> is_Some (bpf_run fuel d (drop n p) b)) by (intros n b Hn Hc; apply IH; [by apply check_drop|rewrite length_drop; lia]).
  destruct (decode (code i)) as [[| | |c|]|]; bsimp; try done.
  - apply IH; [done|lia].
  - apply IH; [done|lia].
  - apply Hgo; [lia|done].
  - destruct (holds c a (k i)); apply Hgo; try done; lia.
Qed.
Lemma bpf_answers p d : bpf_check p = true -> is_Some (bpf p d).
Proof. intros H. apply andb_true_iff in H as [_ H]. by apply checked_runs. Qed.
Lemma filters_answer fs d : Forall (fun p => bpf_check p = true) fs -> is_Some (seccomp_run fs d).
Proof.
  unfold seccomp_run. generalize SECCOMP_RET_ALLOW as v. intros v H. revert v. induction H as [|p fs Hp _ IH]; intros v; [done|].
  cbn [foldl]. destruct (bpf_answers p d Hp) as [x Hx]. cbn. rewrite Hx. cbn. apply IH.
Qed.
