(* ===== verification/SeccompFilters.v ===== *)
(** The filters that the programs under [src/tlpi-dist/seccomp] install, instruction by
    instruction, and what each of them decides about every system call. *)
From S2P Require Import Prelude Bpf.
Local Open Scope bpf_scope.

Definition AUDIT_ARCH_X86_64 : Z := 0xC000003E.
Definition AUDIT_ARCH_AARCH64 : Z := 0xC00000B7.
Definition AUDIT_ARCH_I386 : Z := 0x40000003.
Definition X32_SYSCALL_BIT : Z := 0x40000000.
Definition O_WRONLY : Z := 1.
Definition O_RDWR : Z := 2.
Definition O_CREAT : Z := 64.
Definition ENOTSUP : Z := 95.
(** Numbers of system calls on x86-64. *)
Definition NR_open_x86 : Z := 2.
Definition NR_lseek : Z := 8.
Definition NR_mkdir : Z := 83.
Definition NR_getppid : Z := 110.
Definition NR_openat_x86 : Z := 257.

Definition load (off : Z) : sock_filter := BPF_STMT (BPF_LD .| BPF_W .| BPF_ABS) off.
Definition ret (v : Z) : sock_filter := BPF_STMT (BPF_RET .| BPF_K) v.
Definition jeq (x t f : Z) : sock_filter := BPF_JUMP (BPF_JMP .| BPF_JEQ .| BPF_K) x t f.
Definition jge (x t f : Z) : sock_filter := BPF_JUMP (BPF_JMP .| BPF_JGE .| BPF_K) x t f.
Definition jgt (x t f : Z) : sock_filter := BPF_JUMP (BPF_JMP .| BPF_JGT .| BPF_K) x t f.
Definition jset (x t f : Z) : sock_filter := BPF_JUMP (BPF_JMP .| BPF_JSET .| BPF_K) x t f.

(** ** The filters *)

(** The machine the program is compiled for: the value of [arch] where the source knows
    it, and the numbers of [open], where there is one, and [openat]. *)
Inductive machine := X86_64 | AArch64 | OtherMachine (has_open : option Z) (openat : Z).
Definition audit_arch (m : machine) : option Z := match m with X86_64 => Some AUDIT_ARCH_X86_64 | AArch64 => Some AUDIT_ARCH_AARCH64 | _ => None end.
Definition NR_open (m : machine) : option Z := match m with X86_64 => Some NR_open_x86 | AArch64 => None | OtherMachine o _ => o end.
Definition NR_openat (m : machine) : Z := match m with X86_64 => NR_openat_x86 | AArch64 => 56 | OtherMachine _ n => n end.
(** The lines that the preprocessor keeps. *)
Definition if_some {A} (o : option A) (f : A -> list sock_filter) : list sock_filter := match o with Some x => f x | None => [] end.
Definition if_x86 (m : machine) (l : list sock_filter) : list sock_filter := match m with X86_64 => l | _ => [] end.
Definition check_machine (m : machine) : list sock_filter :=
  [load off_arch] ++ if_some (audit_arch m) (fun x => [jeq x 1 0]) ++ [ret SECCOMP_RET_KILL_PROCESS; load off_nr] ++
  if_x86 m [jge X32_SYSCALL_BIT 0 1; ret SECCOMP_RET_KILL_PROCESS].

Definition deny_open_filter (m : machine) : list sock_filter :=
  check_machine m ++ if_some (NR_open m) (fun x => [jeq x 2 0]) ++
  [jeq (NR_openat m) 1 0; ret SECCOMP_RET_ALLOW; ret SECCOMP_RET_KILL_PROCESS].

Definition control_open_filter (m : machine) : list sock_filter :=
  check_machine m ++
  if_some (NR_open m) (fun x => [jeq x 0 2; load (off_args 1); BPF_JUMP (BPF_JMP .| BPF_JA) 3 0 0]) ++
  [jeq (NR_openat m) 1 0; ret SECCOMP_RET_ALLOW; load (off_args 2);
   jset O_CREAT 0 1; ret SECCOMP_RET_KILL_PROCESS;
   jset (O_WRONLY .| O_RDWR) 0 1; ret (SECCOMP_RET_ERRNO .| ENOTSUP);
   ret SECCOMP_RET_ALLOW].

Definition deny_syscall_filter (syscallNum : Z) : list sock_filter :=
  [load off_nr; jeq (u32 syscallNum) 1 0; ret SECCOMP_RET_ALLOW; ret SECCOMP_RET_KILL_PROCESS].

Definition X86_64_CHECK_ARCH_AND_LOAD_SYSCALL_NR : list sock_filter :=
  [load off_arch; jeq AUDIT_ARCH_X86_64 0 2; load off_nr; jge X32_SYSCALL_BIT 0 1; ret SECCOMP_RET_KILL_PROCESS].

Definition arg64_filter : list sock_filter :=
  [load off_arch; jeq AUDIT_ARCH_X86_64 0 2; load off_nr; jge X32_SYSCALL_BIT 0 1; ret SECCOMP_RET_KILL_PROCESS;
   jeq NR_lseek 1 0; ret SECCOMP_RET_ALLOW;
   load (off_args 1 + 4); jeq 0 1 0; ret (SECCOMP_RET_ERRNO .| 2);
   load (off_args 1); jgt 1000 0 1; ret (SECCOMP_RET_ERRNO .| 1);
   ret SECCOMP_RET_ALLOW].

Definition logging_filter : list sock_filter :=
  [load off_arch; jeq AUDIT_ARCH_X86_64 0 2; load off_nr; jge X32_SYSCALL_BIT 0 1; ret SECCOMP_RET_KILL_PROCESS; ret SECCOMP_RET_LOG].

Definition perf_filter : list sock_filter :=
  [load off_arch; jeq AUDIT_ARCH_X86_64 0 2; load off_nr; jge X32_SYSCALL_BIT 0 1; ret SECCOMP_RET_KILL_PROCESS;
   jeq NR_openat_x86 1 0; ret SECCOMP_RET_ALLOW; ret SECCOMP_RET_KILL_PROCESS].

Definition trap_filter : list sock_filter :=
  [load off_arch; jeq AUDIT_ARCH_X86_64 1 0; ret SECCOMP_RET_KILL; load off_nr;
   jge X32_SYSCALL_BIT 0 1; ret SECCOMP_RET_KILL_PROCESS;
   jeq NR_getppid 0 1; ret SECCOMP_RET_TRAP; ret SECCOMP_RET_ALLOW].

Definition NR_mq_notify_x86_64 : Z := 244.
Definition NR_mq_notify_i386 : Z := 281.
Definition NR_mq_notify_x32 : Z := 527.
Definition multiarch_filter : list sock_filter :=
  [load off_arch; jeq AUDIT_ARCH_X86_64 0 5; load off_nr;
   jeq NR_mq_notify_x86_64 0 1; ret (SECCOMP_RET_ERRNO .| NR_mq_notify_x86_64);
   jeq (NR_mq_notify_x32 + X32_SYSCALL_BIT) 0 5; ret (SECCOMP_RET_ERRNO .| NR_mq_notify_x32);
   jeq AUDIT_ARCH_I386 0 4; load off_nr;
   jeq NR_mq_notify_i386 0 1; ret (SECCOMP_RET_ERRNO .| NR_mq_notify_i386);
   ret SECCOMP_RET_ALLOW; ret SECCOMP_RET_KILL_PROCESS].

(** [seccomp_unotify_mkdir.c] and [seccomp_unotify_openat.c], by the system call they watch. *)
Definition notify_filter (nr : Z) : list sock_filter :=
  X86_64_CHECK_ARCH_AND_LOAD_SYSCALL_NR ++ [jeq nr 0 1; ret SECCOMP_RET_USER_NOTIF; ret SECCOMP_RET_ALLOW].
Definition mkdir_filter : list sock_filter := notify_filter NR_mkdir.
Definition openat_filter : list sock_filter := notify_filter NR_openat_x86.
(** [installFilter2]: the last entry is put in afterwards. *)
Definition filter2 (secondFilter : Z) : list sock_filter :=
  let filter := X86_64_CHECK_ARCH_AND_LOAD_SYSCALL_NR ++ [jeq NR_mkdir 1 0; ret SECCOMP_RET_ALLOW; SockFilter 0 0 0 0] in
  <[(length filter - 1)%nat := if secondFilter =? SECCOMP_RET_ERRNO then ret (SECCOMP_RET_ERRNO .| ENOTSUP) else ret SECCOMP_RET_TRACE]> filter.

(** [create_filter] of [seccomp_bench.c]: as many copies of an instruction as asked for.
    The length goes into an [unsigned short]. *)
Definition create_filter (instr : Z) (icnt : Z) : M (list Z) (list sock_filter) :=
  instruction ←
    (if instr =? 97 then mret (BPF_STMT (BPF_ALU .| BPF_ADD .| BPF_K) 1)
     else if instr =? 106 then mret (jeq 0 0 0)
     else if instr =? 108 then mret (load 0)
     else die (Exits 1));
  let fsize := icnt + 1 in
  if fsize <? 0 then die (Err_sys "calloc")
  else if icnt <? 0 then die (Undefined "filter[-1]")
  else mret (take (Z.to_nat (fsize mod 2 ^ 16)) (replicate (Z.to_nat icnt) instruction ++ [ret SECCOMP_RET_ALLOW])).

(** ** Installing *)

Definition prctl_no_new_privs (ok : bool) : M sec unit := if ok then modify set_no_new_privs else die (Err_sys "prctl").
Definition install_filter (p : list sock_filter) : M sec unit := fun s =>
  match seccomp_install p s with Some s' => Ret tt s' | None => Exit (Err_sys "seccomp") s end.

(** ** What they decide *)

(** Only calls of the x86-64 interface get as far as [v]. *)
Definition if_x86_64 (d : seccomp_data) (v : Z) : Z :=
  if (u32 (arch d) =? AUDIT_ARCH_X86_64) && (u32 (nr d) <? X32_SYSCALL_BIT) then v else SECCOMP_RET_KILL_PROCESS.
Definition arg (d : seccomp_data) (i : nat) : Z := nth i (args d) 0.

Lemma high_low z : (high z = 0 <-> u64 z < 2 ^ 32) /\ (high z = 0 -> low z = u64 z).
Proof.
  unfold high, low, u32, u64. pose proof (Z.mod_pos_bound z (2 ^ 64) ltac:(lia)) as H. set (x := z mod 2 ^ 64) in *.
  assert (E : z mod 2 ^ 32 = x mod 2 ^ 32) by (unfold x; rewrite (Z.mod_mod_divide z (2 ^ 64) (2 ^ 32)); [done|by exists (2 ^ 32)]).
  rewrite E. pose proof (Z.div_small_iff x (2 ^ 32) ltac:(lia)) as Hd. split; [lia|]. intros H0. apply Z.mod_small. lia.
Qed.

(** Execution of one instruction. *)
Section Steps.
Context (n : nat) (d : seccomp_data) (p : list sock_filter) (a : Z).
Lemma run_loads off : bpf_run (S n) d (load off :: p) a = bpf_run n d p (word d off).
Proof. reflexivity. Qed.
Lemma run_return v : bpf_run (S n) d (ret v :: p) a = Some v.
Proof. reflexivity. Qed.
Lemma run_jeq x t f : bpf_run (S n) d (jeq x t f :: p) a = if a =? x then bpf_run n d (drop (Z.to_nat t) p) a else bpf_run n d (drop (Z.to_nat f) p) a.
Proof. change (bpf_run (S n) d (jeq x t f :: p) a) with (bpf_run n d (drop (Z.to_nat (if a =? x then t else f)) p) a). by destruct (a =? x). Qed.
Lemma run_jge x t f : bpf_run (S n) d (jge x t f :: p) a = if x <=? a then bpf_run n d (drop (Z.to_nat t) p) a else bpf_run n d (drop (Z.to_nat f) p) a.
Proof. change (bpf_run (S n) d (jge x t f :: p) a) with (bpf_run n d (drop (Z.to_nat (if x <=? a then t else f)) p) a). by destruct (x <=? a). Qed.
Lemma run_jgt x t f : bpf_run (S n) d (jgt x t f :: p) a = if x <? a then bpf_run n d (drop (Z.to_nat t) p) a else bpf_run n d (drop (Z.to_nat f) p) a.
Proof. change (bpf_run (S n) d (jgt x t f :: p) a) with (bpf_run n d (drop (Z.to_nat (if x <? a then t else f)) p) a). by destruct (x <? a). Qed.
Lemma run_jset x t f : bpf_run (S n) d (jset x t f :: p) a = if Z.land a x =? 0 then bpf_run n d (drop (Z.to_nat f) p) a else bpf_run n d (drop (Z.to_nat t) p) a.
Proof. change (bpf_run (S n) d (jset x t f :: p) a) with (bpf_run n d (drop (Z.to_nat (if negb (Z.land a x =? 0) then t else f)) p) a). by destruct (Z.land a x =? 0). Qed.
Lemma run_ja x : bpf_run (S n) d (BPF_JUMP (BPF_JMP .| BPF_JA) x 0 0 :: p) a = bpf_run n d (drop (Z.to_nat x) p) a.
Proof. reflexivity. Qed.
End Steps.
(** All of a filter: a case for each way through it. *)
Ltac bpf_exec := repeat first
  [ rewrite run_loads | rewrite run_return | rewrite run_ja
  | rewrite run_jeq | rewrite run_jge | rewrite run_jgt | rewrite run_jset
  | progress cbn [Z.to_nat Pos.to_nat Pos.iter_op Nat.add drop]
  | match goal with |- context [bpf_run _ _ (drop (Z.to_nat ?x) _)] => let y := eval vm_compute in (Z.to_nat x) in change (Z.to_nat x) with y; cbn [drop] end
  | match goal with |- (if ?b then _ else _) = _ => destruct b eqn:? end ].

Lemma word_nr d : word d off_nr = u32 (nr d). Proof. reflexivity. Qed.
Lemma word_arch d : word d off_arch = u32 (arch d). Proof. reflexivity. Qed.
Lemma word_arg1 d : word d (off_args 1) = low (arg d 1) /\ word d (off_args 1 + 4) = high (arg d 1). Proof. split; reflexivity. Qed.
Lemma word_arg2 d : word d (off_args 2) = low (arg d 2). Proof. reflexivity. Qed.
(** Compare with what is expected, case by case. *)
Ltac bpf_cases := rewrite ?word_nr, ?word_arch, ?word_arg2 in *; f_equal; repeat case_match; bsimp; try reflexivity; exfalso; lia.

Lemma arg64_decides d : bpf arg64_filter d = Some (if_x86_64 d
  (if u32 (nr d) =? NR_lseek then
     let offset := u64 (arg d 1) in
     if 2 ^ 32 <=? offset then SECCOMP_RET_ERRNO .| 2 else if 1000 <? offset then SECCOMP_RET_ERRNO .| 1 else SECCOMP_RET_ALLOW
   else SECCOMP_RET_ALLOW)).
Proof.
  unfold if_x86_64. pose proof (high_low (arg d 1)) as [Hh Hl]. destruct (word_arg1 d) as [E1 E2]. unfold bpf, arg64_filter. cbn [length].
  bpf_exec; rewrite ?E1, ?E2 in *; clear E1 E2; bpf_cases.
Qed.

(** The open filters: calls are judged by the flags of [open] or [openat]. *)
Definition is_machine (m : machine) (d : seccomp_data) : bool :=
  match audit_arch m with Some x => u32 (arch d) =? x | None => false end &&
  match m with X86_64 => u32 (nr d) <? X32_SYSCALL_BIT | _ => true end.
Definition is_open (m : machine) (d : seccomp_data) : bool := match NR_open m with Some x => u32 (nr d) =? x | None => false end.
Definition is_openat (m : machine) (d : seccomp_data) : bool := u32 (nr d) =? NR_openat m.

Lemma deny_open_decides m d : bpf (deny_open_filter m) d = Some
  (if is_machine m d && negb (is_open m d || is_openat m d) then SECCOMP_RET_ALLOW else SECCOMP_RET_KILL_PROCESS).
Proof.
  unfold is_machine, is_open, is_openat. destruct m as [| |o n]; [| |by destruct o];
    unfold bpf, deny_open_filter, check_machine; cbn [if_some if_x86 audit_arch NR_open app length]; bpf_exec; bpf_cases.
Qed.
Definition judge_flags (flags : Z) : Z :=
  if negb (Z.land (low flags) O_CREAT =? 0) then SECCOMP_RET_KILL_PROCESS
  else if negb (Z.land (low flags) (O_WRONLY .| O_RDWR) =? 0) then SECCOMP_RET_ERRNO .| ENOTSUP
  else SECCOMP_RET_ALLOW.
Lemma control_open_decides m d : bpf (control_open_filter m) d = Some
  (if is_machine m d then
     if is_open m d then judge_flags (arg d 1) else if is_openat m d then judge_flags (arg d 2) else SECCOMP_RET_ALLOW
   else SECCOMP_RET_KILL_PROCESS).
Proof.
  unfold is_machine, is_open, is_openat, judge_flags. destruct (word_arg1 d) as [E1 _]. destruct m as [| |o n]; [| |by destruct o];
    unfold bpf, control_open_filter, check_machine; cbn [if_some if_x86 audit_arch NR_open app length]; bpf_exec; rewrite ?E1 in *; clear E1; bpf_cases.
Qed.

Lemma deny_syscall_decides n d : bpf (deny_syscall_filter n) d = Some (if u32 (nr d) =? u32 n then SECCOMP_RET_KILL_PROCESS else SECCOMP_RET_ALLOW).
Proof. unfold bpf, deny_syscall_filter. cbn [length]. bpf_exec; bpf_cases. Qed.
Lemma logging_decides d : bpf logging_filter d = Some (if_x86_64 d SECCOMP_RET_LOG).
Proof. unfold if_x86_64, bpf, logging_filter. cbn [length]. bpf_exec; bpf_cases. Qed.
Lemma perf_decides d : bpf perf_filter d = Some (if_x86_64 d (if u32 (nr d) =? NR_openat_x86 then SECCOMP_RET_KILL_PROCESS else SECCOMP_RET_ALLOW)).
Proof. unfold if_x86_64, bpf, perf_filter. cbn [length]. bpf_exec; bpf_cases. Qed.
Lemma trap_decides d : bpf trap_filter d = Some
  (if u32 (arch d) =? AUDIT_ARCH_X86_64 then
     if u32 (nr d) <? X32_SYSCALL_BIT then if u32 (nr d) =? NR_getppid then SECCOMP_RET_TRAP else SECCOMP_RET_ALLOW else SECCOMP_RET_KILL_PROCESS
   else SECCOMP_RET_KILL).
Proof. unfold bpf, trap_filter. cbn [length]. bpf_exec; bpf_cases. Qed.
Lemma multiarch_decides d : bpf multiarch_filter d = Some
  (if u32 (arch d) =? AUDIT_ARCH_X86_64 then
     if u32 (nr d) =? NR_mq_notify_x86_64 then SECCOMP_RET_ERRNO .| NR_mq_notify_x86_64
     else if u32 (nr d) =? NR_mq_notify_x32 + X32_SYSCALL_BIT then SECCOMP_RET_ERRNO .| NR_mq_notify_x32 else SECCOMP_RET_ALLOW
   else if u32 (arch d) =? AUDIT_ARCH_I386 then
     if u32 (nr d) =? NR_mq_notify_i386 then SECCOMP_RET_ERRNO .| NR_mq_notify_i386 else SECCOMP_RET_ALLOW
   else SECCOMP_RET_KILL_PROCESS).
Proof. unfold bpf, multiarch_filter. cbn [length]. bpf_exec; bpf_cases. Qed.
Lemma notify_decides n d : bpf (notify_filter n) d = Some (if_x86_64 d (if u32 (nr d) =? n then SECCOMP_RET_USER_NOTIF else SECCOMP_RET_ALLOW)).
Proof. unfold if_x86_64, bpf, notify_filter. cbn [X86_64_CHECK_ARCH_AND_LOAD_SYSCALL_NR app length]. bpf_exec; bpf_cases. Qed.
Lemma filter2_decides f d : bpf (filter2 f) d = Some (if_x86_64 d
  (if u32 (nr d) =? NR_mkdir then if f =? SECCOMP_RET_ERRNO then SECCOMP_RET_ERRNO .| ENOTSUP else SECCOMP_RET_TRACE else SECCOMP_RET_ALLOW)).
Proof.
  unfold if_x86_64, bpf, filter2. rewrite length_insert. cbn [X86_64_CHECK_ARCH_AND_LOAD_SYSCALL_NR app length Nat.sub]. cbn [insert list_insert].
  destruct (f =? SECCOMP_RET_ERRNO); bpf_exec; bpf_cases.
Qed.
