(* ===== verification/SeccompNotify.v ===== *)
(** Supervisors of [src/tlpi-dist/seccomp]: [seccomp_unotify_mkdir.c] and
    [seccomp_unotify_openat.c], which execute system calls for a target process that is blocked
    in them, and [seccomp_functions.c], which reads the path name from the
    target's memory while anything may happen to the target. *)
From S2P Require Import Prelude CStr Bpf SeccompFilters.

Definition PATH_MAX : Z := 4096.
Definition EINVAL : Z := 22.
Definition EOPNOTSUPP : Z := 95.
Definition GTP_BAD_READ : Z := -1.
Definition GTP_ID_NOT_VALID : Z := -2.
Definition GTP_BAD_PATH : Z := -3.

(** ** What happens to the target between two calls of the supervisor *)

(** Its memory is changed, by another thread or through a shared mapping; a signal handler
    interrupts the system call it is blocked in; it ends, and another process may
    get its process ID. *)
Definition memory : Type := Z -> list Z.   (* the bytes that can be read from an address on *)
Inductive event := EMem (m : memory) | EInterrupt | EExit (other : option memory).
(** The events before a call of the supervisor, and whether the call finds no error of its own. *)
Record turn := Turn { t_before : list event; t_ok : bool }.

Record notif := Notif { n_id : Z; n_data : seccomp_data }.
Record resp := Resp { r_id : Z; r_error : Z; r_val : Z; r_flags : Z }.
Definition SECCOMP_USER_NOTIF_FLAG_CONTINUE : Z := 1.

(** [s_valid]: the target is blocked in the call that is handled; [s_fds]: descriptors the supervisor has
    opened and not closed; [s_path]: its buffer; [s_made]: the directories it has asked for;
    [s_added]: descriptors that it has put into the target; [s_sent]: responses that were accepted. *)
Record sup := Sup {
  s_valid : bool; s_alive : bool; s_mem : memory; s_other : option memory; s_script : list turn;
  s_fds : Z; s_path : list Z; s_made : list (list Z * Z); s_added : list (Z * Z); s_sent : list resp
}.
Definition set_target (v al : bool) (m : memory) (o : option memory) (s : sup) : sup :=
  Sup v al m o (s_script s) (s_fds s) (s_path s) (s_made s) (s_added s) (s_sent s).
Definition set_script (l : list turn) (s : sup) : sup :=
  Sup (s_valid s) (s_alive s) (s_mem s) (s_other s) l (s_fds s) (s_path s) (s_made s) (s_added s) (s_sent s).
Definition add_fds (n : Z) (s : sup) : sup :=
  Sup (s_valid s) (s_alive s) (s_mem s) (s_other s) (s_script s) (s_fds s + n) (s_path s) (s_made s) (s_added s) (s_sent s).
Definition set_path (p : list Z) (s : sup) : sup :=
  Sup (s_valid s) (s_alive s) (s_mem s) (s_other s) (s_script s) (s_fds s) p (s_made s) (s_added s) (s_sent s).
Definition log_made (p : list Z) (mode : Z) (s : sup) : sup :=
  Sup (s_valid s) (s_alive s) (s_mem s) (s_other s) (s_script s) (s_fds s) (s_path s) (s_made s ++ [(p, mode)]) (s_added s) (s_sent s).
Definition log_added (fd newfd : Z) (s : sup) : sup :=
  Sup (s_valid s) (s_alive s) (s_mem s) (s_other s) (s_script s) (s_fds s) (s_path s) (s_made s) (s_added s ++ [(fd, newfd)]) (s_sent s).
Definition log_sent (r : resp) (s : sup) : sup :=
  Sup (s_valid s) (s_alive s) (s_mem s) (s_other s) (s_script s) (s_fds s) (s_path s) (s_made s) (s_added s) (s_sent s ++ [r]).

Definition happens (s : sup) (e : event) : sup :=
  match e with
  | EMem m => if s_alive s then set_target (s_valid s) true m (s_other s) s else s
  | EInterrupt => set_target false (s_alive s) (s_mem s) (s_other s) s
  | EExit o => set_target false false (s_mem s) (if s_alive s then o else s_other s) s
  end.
(** The time of one call. *)
Definition tock (s : sup) : sup := match s_script s with [] => s | t :: l => foldl happens (set_script l s) (t_before t) end.
Definition tick_ok (s : sup) : bool := match s_script s with [] => true | t :: _ => t_ok t end.
Definition tick : M sup bool := fun s => Ret (tick_ok s) (tock s).

(** ** seccomp_functions.c *)

(** [SECCOMP_IOCTL_NOTIF_ID_VALID] *)
Definition cookieIsValid : M sup bool :=
  ok ← tick;
  s ← get;
  mret (ok && s_valid s).

(** A descriptor of [/proc/PID/mem] stands for the process that had the PID when it was opened. *)
Inductive memfd := OfTarget | OfOther.
Definition open_mem : M sup (option memfd) :=
  ok ← tick;
  s ← get;
  if negb ok then mret None
  else if s_alive s then modify (add_fds 1) ;; mret (Some OfTarget)
  else match s_other s with Some _ => modify (add_fds 1) ;; mret (Some OfOther) | None => mret None end.
Definition close_mem : M sup unit := modify (add_fds (-1)).
(** The number of bytes read, or -1; they are put into the buffer. *)
Definition pread_mem (h : memfd) (len : Z) (addr : Z) : M sup Z :=
  ok ← tick;
  s ← get;
  if negb ok then mret (-1) else
  let bs := match h with
            | OfTarget => if s_alive s then s_mem s addr else []
            | OfOther => match s_other s with Some m => m addr | None => [] end
            end in
  let got := take (Z.to_nat len) bs in
  modify (set_path (poke got (s_path s))) ;;
  mret (Z.of_nat (length got)).
Definition strnlen (b : list Z) (n : Z) : Z := Z.of_nat (length (cstr (take (Z.to_nat n) b))).

Definition getTargetPathname (req : notif) (argNum : nat) (len : Z) : M sup Z :=
  h ← open_mem;
  match h with
  | None => mret GTP_BAD_READ
  | Some h =>
      v ← cookieIsValid;
      if negb v then close_mem ;; mret GTP_ID_NOT_VALID else
      nread ← pread_mem h len (arg (n_data req) argNum);
      close_mem ;;
      if nread <=? 0 then mret GTP_BAD_READ else
      v ← cookieIsValid;
      if negb v then mret GTP_ID_NOT_VALID else
      s ← get;
      if strnlen (s_path s) nread <? nread then mret 0 else mret GTP_BAD_PATH
  end.

(** ** Responses *)

(** [SECCOMP_IOCTL_NOTIF_SEND]: an error is reported on the terminal and otherwise ignored. *)
Definition send_response (r : resp) : M sup unit :=
  ok ← tick;
  s ← get;
  if ok && s_valid s then modify (log_sent r) else mret tt.

Definition has_prefix (pre p : list Z) : bool := bool_decide (take (length pre) (cstr p) = pre).

Section Mkdir.
(** [mkdir_errno]: the error of the supervisor's own [mkdir], if there is one. *)
Context (mkdir_errno : list Z -> Z -> option Z).

(** The delay asked for on the command line, with its two checks. *)
Definition delay (delaySecs : Z) : M sup unit :=
  if 0 <? delaySecs then
    v ← cookieIsValid;
    (if negb v then die (Exits 1) else mret tt) ;;
    v ← cookieIsValid;
    if negb v then die (Exits 1) else mret tt
  else mret tt.
Definition mkdir_response (req : notif) (pathStatus : Z) : M sup resp :=
  s ← get;
  let path := cstr (s_path s) in
  let answer error val flags := Resp (n_id req) error val flags in
  if negb (pathStatus =? 0) then mret (answer (- EINVAL) 0 0)
  else if has_prefix (bytes "/tmp/") path then
    tick ;;
    modify (log_made path (arg (n_data req) 1)) ;;
    match mkdir_errno path (arg (n_data req) 1) with
    | None => mret (answer 0 (Z.of_nat (length path)) 0)
    | Some e => mret (answer (- e) 0 0)
    end
  else if has_prefix (bytes "./") path then mret (answer 0 0 SECCOMP_USER_NOTIF_FLAG_CONTINUE)
  else mret (answer (- EOPNOTSUPP) 0 0).
(** One notification; whether the loop goes on. *)
Definition handle_mkdir (delaySecs : Z) (req : notif) : M sup bool :=
  (if negb (nr (n_data req) =? NR_mkdir) then die (Exits 1) else mret tt) ;;
  delay delaySecs ;;
  pathStatus ← getTargetPathname req 0 PATH_MAX;
  r ← mkdir_response req pathStatus;
  send_response r ;;
  s ← get;
  mret (negb (bool_decide (cstr (s_path s) = bytes "/bye"))).
End Mkdir.

Section Openat.
(** [openat_result]: the descriptor or the error of the supervisor's own [openat]. *)
Context (openat_result : Z -> list Z -> Z -> Z -> Z + Z).

Definition openat_response (req : notif) (pathStatus : Z) : M sup resp :=
  s ← get;
  let path := cstr (s_path s) in
  let answer error val := Resp (n_id req) error val 0 in
  if negb (pathStatus =? 0) then mret (answer (- EINVAL) 0) else
  tick ;;
  match openat_result (arg (n_data req) 0) path (arg (n_data req) 2) (arg (n_data req) 3) with
  | inl fd =>
      modify (add_fds 1) ;;
      ok ← tick;
      s ← get;
      (if negb (ok && s_valid s) then die (Err_sys "SECCOMP_IOCTL_NOTIF_ADDFD") else mret tt) ;;
      modify (log_added fd (42 + fd)) ;;
      modify (add_fds (-1)) ;;
      mret (answer 0 (42 + fd))
  | inr e => mret (answer (- e) 0)
  end.
Definition handle_openat (req : notif) : M sup unit :=
  (if negb (nr (n_data req) =? NR_openat_x86) then die (Exits 1) else mret tt) ;;
  pathStatus ← getTargetPathname req 1 PATH_MAX;
  r ← openat_response req pathStatus;
  send_response r.
End Openat.

(** ** The loops *)

(** What [SECCOMP_IOCTL_NOTIF_RECV] finds: a signal, an error, or a notification, with the target's memory at that
    time and what is going to happen. *)
Inductive recv := RIntr | RError | RNotif (n : notif) (m : memory) (script : list turn).
Definition blocked (m : memory) (script : list turn) (s : sup) : sup := set_script script (set_target true true m None s).
(** The loops of [handleNotifications]; the list ends where nothing more comes. *)
Section Loops.
Context (mkdir_errno : list Z -> Z -> option Z) (openat_result : Z -> list Z -> Z -> Z -> Z + Z).
Fixpoint handleNotifications_mkdir (delaySecs : Z) (l : list recv) : M sup unit :=
  match l with
  | [] => mret tt
  | RIntr :: l' => handleNotifications_mkdir delaySecs l'
  | RError :: _ => die (Err_sys "ioctl-SECCOMP_IOCTL_NOTIF_RECV")
  | RNotif n m script :: l' =>
      modify (blocked m script) ;;
      go ← handle_mkdir mkdir_errno delaySecs n;
      if go : bool then handleNotifications_mkdir delaySecs l' else die (Exits 1)
  end.
Fixpoint handleNotifications_openat (l : list recv) : M sup unit :=
  match l with
  | [] => mret tt
  | RIntr :: l' => handleNotifications_openat l'
  | RError :: _ => die (Err_sys "ioctl-SECCOMP_IOCTL_NOTIF_RECV")
  | RNotif n m script :: l' =>
      modify (blocked m script) ;;
      handle_openat openat_result n ;;
      handleNotifications_openat l'
  end.
End Loops.

(** [allocSeccompNotifBuffers]: the sizes the kernel reports, that of the response in the headers the
    program was compiled with, and which sizes [malloc] can provide; the sizes of the two buffers, if they exist. *)
Definition allocSeccompNotifBuffers (sizes : option (Z * Z)) (sizeof_resp : Z) (malloc : Z -> bool) : M sup (Z * option Z) :=
  match sizes with
  | None => die (Err_sys "seccomp-SECCOMP_GET_NOTIF_SIZES")
  | Some (req_size, kernel_resp) =>
      (if negb (malloc req_size) then die (Err_sys "malloc-seccomp_notif") else mret tt) ;;
      let resp_size := if kernel_resp <? sizeof_resp then sizeof_resp else kernel_resp in
      mret (req_size, if malloc resp_size then Some resp_size else None)
  end.

(** ** What the supervisor can rely on *)

(** The memories that the target gets before its call is interrupted or it ends. *)
Fixpoint mems_until (es : list event) : list memory :=
  match es with
  | EMem m :: es' => m :: mems_until es'
  | _ => []
  end.
Definition events (script : list turn) : list event := concat (map t_before script).

Section Memory.
(** The memories the target has while it is blocked. *)
Context (H : list memory).
Definition blocked_in (es : list event) : Prop := Forall (fun m => m ∈ H) (mems_until es).
Definition sup_ok (s : sup) : Prop := s_valid s = true -> s_alive s = true /\ s_mem s ∈ H /\ blocked_in (events (s_script s)).
(** [s'] comes later than [s]. *)
Definition later (s s' : sup) : Prop :=
  (s_valid s' = true -> s_valid s = true) /\ (s_alive s' = true -> s_alive s = true) /\
  s_fds s' = s_fds s /\ s_path s' = s_path s /\ s_made s' = s_made s /\ s_added s' = s_added s /\ s_sent s' = s_sent s.
Lemma later_trans s1 s2 s3 : later s1 s2 -> later s2 s3 -> later s1 s3.
Proof. intros (?&?&?&?&?&?&?) (?&?&?&?&?&?&?). unfold later. split_and!; auto; congruence. Qed.
Lemma happens_later s e : later s (happens s e).
Proof. destruct e as [m| |o]; cbn; [destruct (s_alive s) eqn:E| |]; by split_and!. Qed.

Lemma happens_all rest es s : (s_valid s = true -> s_alive s = true /\ s_mem s ∈ H /\ blocked_in (es ++ rest)) ->
  let s' := foldl happens s es in (s_valid s' = true -> s_alive s' = true /\ s_mem s' ∈ H /\ blocked_in rest) /\ later s s' /\ s_script s' = s_script s.
Proof.
  revert s. induction es as [|e es IH]; intros s I; cbn zeta; [by split_and!|]. cbn [foldl].
  assert (I1 : s_valid (happens s e) = true -> s_alive (happens s e) = true /\ s_mem (happens s e) ∈ H /\ blocked_in (es ++ rest)).
  { destruct e as [m| |o]; cbn [happens]; [|done|done]. intros Hv. destruct I as (Ha & _ & Hb); [by destruct (s_alive s)|]. rewrite Ha.
    cbn [app] in Hb. unfold blocked_in in Hb. cbn [mems_until] in Hb. by apply Forall_cons in Hb as [? ?]. }
  destruct (IH _ I1) as (I2 & L & Es). split; [done|]. split; [eapply later_trans; [apply happens_later|done]|]. rewrite Es. destruct e as [m| |o]; cbn; [by destruct (s_alive s)|done|done].
Qed.
Lemma tock_ok s : sup_ok s -> sup_ok (tock s) /\ later s (tock s).
Proof.
  intros I. unfold tock. destruct (s_script s) as [|t l] eqn:El; [by split_and!|].
  destruct (happens_all (events l) (t_before t) (set_script l s)) as (I1 & L & Es); [intros Hv; destruct (I Hv) as (? & ? & Hb); by rewrite El in Hb|].
  split; [|done]. intros Hv. rewrite Es. by apply I1.
Qed.

(** A null byte among the first [n] bytes: the string ends there. *)
Lemma strnlen_found got b : (strnlen (poke got b) (Z.of_nat (length got)) <? Z.of_nat (length got)) = true -> cstr (poke got b) = cstr got.
Proof.
  unfold strnlen, poke. rewrite Nat2Z.id, take_app_length. intros Hlt. bsimp. generalize (drop (length got) b) as rest. intros rest. assert (Hl : (length (cstr got) < length got)%nat) by lia. clear Hlt.
  induction got as [|c got IH]; [cbn in Hl; lia|]. cbn in *. destruct (c =? 0); [done|]. cbn in Hl. rewrite IH; [done|lia].
Qed.

(** *** The calls *)

Lemma add_fds_ok z s : sup_ok (add_fds z s) <-> sup_ok s. Proof. done. Qed.
Lemma set_path_ok p s : sup_ok (set_path p s) <-> sup_ok s. Proof. done. Qed.
Lemma open_mem_spec s : exists h : option memfd, open_mem s = Ret h (match h with Some _ => add_fds 1 (tock s) | None => tock s end) /\
  (h = Some OfOther -> s_alive (tock s) = false).
Proof.
  unfold open_mem, mbind, M_bind, tick, get, modify, mret, M_ret. destruct (tick_ok s); cbn [negb]; [|by exists None].
  destruct (s_alive (tock s)); [by exists (Some OfTarget)|]. destruct (s_other (tock s)); [by exists (Some OfOther)|by exists None].
Qed.
Lemma cookie_spec s : exists v : bool, cookieIsValid s = Ret v (tock s) /\ (v = true -> s_valid (tock s) = true).
Proof. eexists. split; [reflexivity|]. by intros [_ ?]%andb_true_iff. Qed.
Lemma pread_spec h len addr s : exists nread got, pread_mem h len addr s = Ret nread (if nread <=? 0 then if nread <? 0 then tock s else set_path (poke got (s_path (tock s))) (tock s) else set_path (poke got (s_path (tock s))) (tock s)) /\
  (0 < nread -> nread = Z.of_nat (length got) /\ (h = OfTarget -> s_alive (tock s) = true -> got = take (Z.to_nat len) (s_mem (tock s) addr))).
Proof.
  unfold pread_mem, mbind, M_bind, tick, get, modify, mret, M_ret. destruct (tick_ok s); cbn [negb]; [|exists (-1), []; split; [done|lia]].
  eexists _, _. split; [set (got := take _ _); assert (Hn : 0 <= Z.of_nat (length got)) by lia; bfalse (Z.of_nat (length got) <? 0); by destruct (_ <=? 0)|].
  intros _. split; [done|]. intros -> Ha. by rewrite Ha.
Qed.

Definition same_logs (s s' : sup) : Prop := s_fds s' = s_fds s /\ s_made s' = s_made s /\ s_added s' = s_added s /\ s_sent s' = s_sent s.
Lemma later_logs s s' : later s s' -> same_logs s s'.
Proof. intros (_ & _ & ? & _ & ? & ? & ?). by split_and!. Qed.

(** If it reports success the buffer holds a string that was in the memory of the target
    at the address given while the target was blocked; never one of another process.
    No descriptor stays open. *)
Definition gtp_result (n : notif) (i : nat) (len : Z) (s : sup) (st : Z) (s' : sup) : Prop :=
  sup_ok s' /\ same_logs s s' /\ (st = 0 -> exists m, m ∈ H /\ cstr (s_path s') = cstr (take (Z.to_nat len) (m (arg (n_data n) i)))).
Lemma gtp_fails n i len s st s' : sup_ok s' -> same_logs s s' -> st <> 0 -> gtp_result n i len s st s'.
Proof. intros. by split_and!. Qed.
Lemma gtp_sound n i len s : sup_ok s -> exists st s', getTargetPathname n i len s = Ret st s' /\ gtp_result n i len s st s'.
Proof.
  intros I0. destruct (tock_ok s I0) as [I1 L1]. unfold getTargetPathname. destruct (open_mem_spec s) as (h & E1 & Hh). run E1.
  destruct h as [h|]; [|eexists _, _; split; [reflexivity|]; apply gtp_fails; [done|by apply later_logs|done]].
  set (s1 := add_fds 1 (tock s)) in *. destruct (tock_ok s1 I1) as [I2 L2]. destruct (cookie_spec s1) as (v1 & E2 & Hv1). run E2. set (s2 := tock s1) in *.
  assert (Hfds : s_fds s2 = s_fds s + 1) by (destruct L1 as (_&_&?&_), L2 as (_&_&?&_); cbn in *; congruence).
  assert (Hlogs : s_made s2 = s_made s /\ s_added s2 = s_added s /\ s_sent s2 = s_sent s) by (destruct L1 as (_&_&_&_&?&?&?), L2 as (_&_&_&_&?&?&?); cbn in *; split_and!; congruence).
  destruct v1; cbn [negb]; [|eexists _, _; split; [reflexivity|]; apply gtp_fails; [done|split_and!; cbn; try tauto; lia|done]].
  assert (Ht : h = OfTarget).
  { destruct h; [done|]. specialize (Hv1 eq_refl). destruct (I2 Hv1) as (Ia & _). destruct L2 as (_ & La & _). specialize (La Ia). cbn in La. by rewrite Hh in La. }
  subst h. destruct (pread_spec OfTarget len (arg (n_data n) i) s2) as (nread & got & E3 & Hp). run E3. destruct (tock_ok s2 I2) as [I3 L3].
  assert (Hfds3 : s_fds (tock s2) = s_fds s + 1) by (destruct L3 as (_&_&?&_); congruence).
  assert (Hlogs3 : s_made (tock s2) = s_made s /\ s_added (tock s2) = s_added s /\ s_sent (tock s2) = s_sent s) by (destruct L3 as (_&_&_&_&?&?&?); split_and!; destruct Hlogs as (?&?&?); congruence).
  destruct (nread <=? 0) eqn:En; bsimp.
  { eexists _, _. split; [reflexivity|]. apply gtp_fails; [by destruct (nread <? 0)| |done]. destruct (nread <? 0); split_and!; cbn; try tauto; lia. }
  destruct (Hp En) as [-> Hgot]. set (s3 := add_fds (-1) (set_path (poke got (s_path (tock s2))) (tock s2))).
  rewrite (bind_ret close_mem _ _ tt s3 eq_refl). destruct (cookie_spec s3) as (v2 & E4 & Hv2). run E4.
  destruct (tock_ok s3 I3) as [I4 L4]. assert (Hl : same_logs s (tock s3)).
  { destruct L4 as (_&_&Hf&_&?&?&?). destruct Hlogs3 as (?&?&?). split_and!; cbn in *; try congruence. rewrite Hf. lia. }
  destruct v2; cbn [negb]; [|eexists _, _; split; [reflexivity|]; by apply gtp_fails].
  rewrite (bind_ret get _ (tock s3) (tock s3) (tock s3) eq_refl). assert (Hpath : s_path (tock s3) = poke got (s_path (tock s2))) by (destruct L4 as (_&_&_&->&_); done). rewrite Hpath.
  destruct (strnlen _ _ <? _) eqn:Es; [|eexists _, _; split; [reflexivity|]; by apply gtp_fails].
  eexists _, _. split; [reflexivity|]. split; [done|]. split; [done|]. intros _. specialize (Hv2 eq_refl).
  destruct L4 as (Lv & La & _). specialize (Lv Hv2). cbn in Lv. destruct (I3 Lv) as (Ia & Im & _). exists (s_mem (tock s2)). split; [done|].
  rewrite Hpath. rewrite (strnlen_found got _ Es), Hgot; [done|done|done].
Qed.
End Memory.
