(* ===== verification/SeccompBlob.v ===== *)
(** Filters in files: [dump_seccomp_filter.c], which writes a filter of another process to a
    file, and [seccomp_launch.c], which installs filters from files and then executes a program. *)
From S2P Require Import Prelude CStr FileIO ReadN PrintQueue PrintNet Bpf SeccompFilters.

(** [struct sock_filter] in memory: eight bytes. *)
Definition enc_filter (f : sock_filter) : list Z := le_bytes 2 (code f) ++ le_bytes 1 (jt f) ++ le_bytes 1 (jf f) ++ le_bytes 4 (k f).
Definition dec_filter (b : list Z) : sock_filter :=
  SockFilter (le_val (take 2 b)) (le_val (take 1 (drop 2 b))) (le_val (take 1 (drop 3 b))) (le_val (take 4 (drop 4 b))).
Definition SIZEOF_FILTER : Z := 8.
Definition enc_prog (p : list sock_filter) : list Z := concat (map enc_filter p).
Fixpoint dec_prog (n : nat) (b : list Z) : list sock_filter :=
  match n with O => [] | S n' => dec_filter b :: dec_prog n' (drop 8 b) end.
(** Each member fits its type. *)
Definition filter_fits (f : sock_filter) : Prop := 0 <= code f < 2 ^ 16 /\ 0 <= jt f < 2 ^ 8 /\ 0 <= jf f < 2 ^ 8 /\ 0 <= k f < 2 ^ 32.

(** ** dump_seccomp_filter.c *)

(** What the calls on the process find: [attach]: it can be attached to and waited for;
    [admin]: the capability is there. *)
Definition fetchFilter (attach waits admin : bool) (target : sec) (filterIndex : nat) : M (gmap (list Z) (list Z)) (list sock_filter) :=
  if negb attach then die (Exits 1) else
  if negb waits then die (Err_sys "waitpid") else
  if negb admin then die (Exits 1) else
  match filters target !! filterIndex with
  | None => die (Exits 1)
  | Some p => mret p
  end.
(** [written]: how much of it [write] takes, if it works. *)
Definition dumpFilter (pathname : list Z) (opens : bool) (written : option nat) (closes : bool) (p : list sock_filter) : M (gmap (list Z) (list Z)) unit :=
  if negb opens then die (Err_sys "open") else
  modify (insert pathname []) ;;
  match written with
  | None => die (Err_sys "write")
  | Some n =>
      modify (insert pathname (take n (enc_prog p))) ;;
      if closes then mret tt else die (Err_sys "close")
  end.
Definition dump_main (attach waits admin opens closes : bool) (written : option nat) (target : sec) (dump_file : list Z) (filterIndex : nat) : M (gmap (list Z) (list Z)) unit :=
  p ← fetchFilter attach waits admin target filterIndex;
  dumpFilter dump_file opens written closes p ;;
  die (Exits 0).

(** ** seccomp_launch.c *)

(** Its system calls. The filters it has installed act on those that follow. *)
Inductive lcall := LPrctl | LOpen (path : list Z) | LFstat | LMalloc (size : Z) | LRead (size : Z) | LClose | LSeccomp (len : Z) | LExecve (prog : list Z).   (* prog contains a slash: execvp makes one call *)
(** [l_stdin]: the contents of the file that is its standard input; [l_exec]: the program it has become. *)
Record launcher := Launcher { l_sec : sec; l_files : gmap (list Z) (list Z); l_stdin : list Z; noNewPrivsAlreadySet : bool; l_exec : option (list Z) }.
Definition set_sec (x : sec) (s : launcher) : launcher := Launcher x (l_files s) (l_stdin s) (noNewPrivsAlreadySet s) (l_exec s).
Definition set_already (s : launcher) : launcher := Launcher (l_sec s) (l_files s) (l_stdin s) true (l_exec s).

Section Launch.
(** What a filter sees of each of the calls. *)
Context (call_data : lcall -> seccomp_data).

(** What the filters in force make of a call (none: it is carried out): without being carried out it fails, or, for an error
    number of 0, returns 0; without a listener or a tracer it fails; every other action ends the process with [SIGSYS]. *)
Definition carried_out (v : Z) : bool := (action v =? SECCOMP_RET_ALLOW) || (action v =? SECCOMP_RET_LOG).
Definition filtered (c : lcall) : M launcher (option Z) := fun s =>
  match seccomp_run (filters (l_sec s)) (call_data c) with
  | None => Exit (Undefined "a filter without an answer") s
  | Some v =>
      if carried_out v then Ret None s
      else if action v =? SECCOMP_RET_ERRNO then Ret (Some (if Z.land v 0xffff =? 0 then 0 else -1)) s
      else if (action v =? SECCOMP_RET_USER_NOTIF) || (action v =? SECCOMP_RET_TRACE) then Ret (Some (-1)) s
      else Exit (Err_dump "SIGSYS") s
  end.
Definition syscall {A} (c : lcall) (run : M launcher A) (returns : Z -> M launcher A) : M launcher A :=
  r ← filtered c;
  match r with None => run | Some z => returns z end.

(** [got]: how many bytes [read] returns, if not all; [prctl_ok], [malloc_ok], [close_ok]: those calls work. *)
Definition loadFilter (prctl_ok malloc_ok close_ok : bool) (got : option Z) (filterPathname : list Z) : M launcher unit :=
  s ← get;
  (if noNewPrivsAlreadySet s then mret tt
   else syscall LPrctl
     (if prctl_ok then modify (fun s => set_already (set_sec (set_no_new_privs (l_sec s)) s)) else die (Err_sys "prctl"))
     (fun z => if z =? 0 then modify set_already else die (Err_sys "prctl"))) ;;
  blob ← syscall (LOpen filterPathname)
    (s ← get; match l_files s !! filterPathname with None => die (Err_sys "open") | Some blob => mret blob end)
    (fun z => if z =? -1 then die (Err_sys "open") else s ← get; mret (l_stdin s));
  syscall LFstat (mret tt) (fun z => if z =? -1 then die (Err_sys "fstat") else die (Undefined "sb.st_size")) ;;
  let filterSize := swrap 32 (Z.of_nat (length blob)) in
  (if negb (uwrap 64 filterSize mod SIZEOF_FILTER =? 0) then die (Exits 1) else mret tt) ;;
  syscall (LMalloc filterSize) (if malloc_ok then mret tt else die (Err_sys "malloc")) (fun _ => die (Err_sys "malloc")) ;;
  nread ← syscall (LRead filterSize) (mret (default filterSize got)) mret;
  (if negb (nread =? filterSize) then die (Exits 1) else mret tt) ;;
  syscall LClose (if close_ok then mret tt else die (Err_sys "close")) (fun z => if z =? -1 then die (Err_sys "close") else mret tt) ;;
  let len := (uwrap 64 filterSize / SIZEOF_FILTER) mod 2 ^ 16 in
  syscall (LSeccomp len)
    (s ← get;
     match seccomp_install (dec_prog (Z.to_nat len) blob) (l_sec s) with
     | None => die (Err_sys "seccomp")
     | Some x => modify (set_sec x)
     end)
    (fun z => if z =? -1 then die (Err_sys "seccomp") else mret tt).
(** The options, when the calls work as far as the filters let them pass. *)
Fixpoint load_all (fs : list (list Z)) : M launcher unit :=
  match fs with
  | [] => mret tt
  | f :: fs' => loadFilter true true true None f ;; load_all fs'
  end.
(** [exec_ok]: the program can be executed. *)
Definition launch (exec_ok : bool) (fs : list (list Z)) (prog : option (list Z)) : M launcher unit :=
  load_all fs ;;
  match prog with
  | None => die (Exits 1)
  | Some p =>
      if bool_decide (fs = []) && bool_decide (p = bytes "--help") then die (Exits 1) else
      syscall (LExecve p)
        (if exec_ok then modify (fun s => Launcher (l_sec s) (l_files s) (l_stdin s) (noNewPrivsAlreadySet s) (Some p)) else die (Err_sys "execve"))
        (fun _ => die (Err_sys "execve"))
  end.
End Launch.

(** ** Round trip *)

Lemma enc_filter_length f : length (enc_filter f) = 8%nat.
Proof. unfold enc_filter. by rewrite !length_app, !le_bytes_length. Qed.
Lemma le_one n x : le_val (le_bytes n x) = x \/ ~ (0 <= x < 256 ^ Z.of_nat n).
Proof. destruct (decide (0 <= x < 256 ^ Z.of_nat n)); [left|by right]. rewrite le_val_bytes. by apply Z.mod_small. Qed.
Lemma dec_enc_filter f rest : filter_fits f -> dec_filter (enc_filter f ++ rest) = f.
Proof.
  intros (H1 & H2 & H3 & H4). destruct f as [c t e x]. cbn [code jt jf k] in *. unfold dec_filter, enc_filter. cbn [code jt jf k]. rewrite <- !app_assoc.
  pose proof (le_bytes_length 2 c) as L1. pose proof (le_bytes_length 1 t) as L2. pose proof (le_bytes_length 1 e) as L3. pose proof (le_bytes_length 4 x) as L4.
  destruct (le_one 2 c) as [E1|?]; [|cbn in *; lia]. destruct (le_one 1 t) as [E2|?]; [|cbn in *; lia]. destruct (le_one 1 e) as [E3|?]; [|cbn in *; lia]. destruct (le_one 4 x) as [E4|?]; [|cbn in *; lia].
  set (a := le_bytes 2 c) in *. set (b := le_bytes 1 t) in *. set (g := le_bytes 1 e) in *. set (h := le_bytes 4 x) in *. clearbody a b g h.
  destruct a as [|a1 [|a2 [|]]]; try done. destruct b as [|b1 [|]]; try done. destruct g as [|g1 [|]]; try done. destruct h as [|h1 [|h2 [|h3 [|h4 [|]]]]]; try done.
  cbn [app take drop]. rewrite take_0. congruence.
Qed.
Lemma dec_enc_prog p rest : Forall filter_fits p -> dec_prog (length p) (enc_prog p ++ rest) = p.
Proof.
  intros H. induction H as [|f p Hf _ IH]; [done|]. change (enc_prog (f :: p)) with (enc_filter f ++ enc_prog p). rewrite <- app_assoc. cbn [length dec_prog].
  rewrite (dec_enc_filter f _ Hf). f_equal. rewrite drop_app_ge by (rewrite enc_filter_length; lia). by rewrite enc_filter_length.
Qed.
Lemma enc_prog_length p : length (enc_prog p) = (8 * length p)%nat.
Proof. induction p as [|f p IH]; [done|]. change (enc_prog (f :: p)) with (enc_filter f ++ enc_prog p). rewrite length_app, enc_filter_length, IH. cbn [length]. lia. Qed.

(** A filter that lets all calls of the launcher pass. *)
Definition lets_pass (call_data : lcall -> seccomp_data) (p : list sock_filter) : Prop := forall c, exists v, bpf p (call_data c) = Some v /\ carried_out v = true.

Section LaunchProofs.
Context (call_data : lcall -> seccomp_data).

Lemma run_passes fs c : Forall (lets_pass call_data) fs -> exists v, seccomp_run fs (call_data c) = Some v /\ carried_out v = true.
Proof.
  unfold seccomp_run. assert (G : forall v, carried_out v = true -> Forall (lets_pass call_data) fs ->
    exists w, foldl (fun r f => v ← r; x ← bpf f (call_data c); Some (if action x <? action v then x else v)) (Some v) fs = Some w /\ carried_out w = true).
  { induction fs as [|p fs IH]; intros v Hv F; [by exists v|]. apply Forall_cons in F as [Hp F]. cbn [foldl]. destruct (Hp c) as (x & Hx & Cx). cbn. rewrite Hx. cbn. apply IH; [by case_match|done]. }
  intros F. by apply G.
Qed.
Lemma syscall_passes {A} c (run : M launcher A) k s : Forall (lets_pass call_data) (filters (l_sec s)) -> syscall call_data c run k s = run s.
Proof.
  intros F. unfold syscall. rewrite (bind_ret (filtered call_data c) _ s None s); [done|]. unfold filtered. destruct (run_passes _ c F) as (v & -> & ->). done.
Qed.

Lemma loadFilter_dumped s f p : l_files s !! f = Some (enc_prog p) -> Forall filter_fits p -> bpf_check p = true -> (noNewPrivsAlreadySet s = true -> no_new_privs (l_sec s) = true) ->
  Forall (lets_pass call_data) (filters (l_sec s)) ->
  exists s', loadFilter call_data true true true None f s = Ret tt s' /\ filters (l_sec s') = p :: filters (l_sec s) /\ l_files s' = l_files s /\ noNewPrivsAlreadySet s' = true /\ no_new_privs (l_sec s') = true.
Proof.
  intros Hf Hp Hc Hn F. assert (Hl : Z.of_nat (length p) <= 4096) by (unfold bpf_check, BPF_MAXINSNS in Hc; bsimp; lia). unfold loadFilter. rewrite (bind_ret get _ s s s eq_refl).
  set (s1 := if noNewPrivsAlreadySet s then s else set_already (set_sec (set_no_new_privs (l_sec s)) s)).
  rewrite (bind_ret _ _ s tt s1) by (unfold s1; destruct (noNewPrivsAlreadySet s); [done|]; by rewrite syscall_passes).
  assert (H1 : no_new_privs (l_sec s1) = true /\ filters (l_sec s1) = filters (l_sec s) /\ l_files s1 = l_files s /\ noNewPrivsAlreadySet s1 = true) by (unfold s1; destruct (noNewPrivsAlreadySet s) eqn:E; auto). clearbody s1. destruct H1 as (Hn1 & Hf1 & Hl1 & Hd1).
  assert (F1 : Forall (lets_pass call_data) (filters (l_sec s1))) by (by rewrite Hf1).
  rewrite (bind_ret _ _ s1 (enc_prog p) s1) by (rewrite syscall_passes by done; rewrite (bind_ret get _ s1 s1 s1 eq_refl); by rewrite Hl1, Hf).
  rewrite (bind_ret _ _ s1 tt s1) by (by rewrite syscall_passes). cbn zeta.
  rewrite enc_prog_length. assert (Hsz : swrap 32 (Z.of_nat (8 * length p)) = 8 * Z.of_nat (length p)).
  { unfold swrap. rewrite Z.mod_small by lia. btrue (Z.of_nat (8 * length p) <? 2 ^ (32 - 1)). lia. }
  rewrite Hsz. assert (Hu : uwrap 64 (8 * Z.of_nat (length p)) = Z.of_nat (length p) * 8) by (unfold uwrap; rewrite Z.mod_small by lia; lia). rewrite Hu. unfold SIZEOF_FILTER.
  rewrite Z.mod_mul, Z.div_mul by lia. rewrite Z.eqb_refl. cbn [negb]. rewrite (bind_ret (mret tt) _ s1 tt s1 eq_refl).
  rewrite (bind_ret _ _ s1 tt s1) by (by rewrite syscall_passes). rewrite (bind_ret _ _ s1 (8 * Z.of_nat (length p)) s1) by (by rewrite syscall_passes).
  rewrite Z.eqb_refl. cbn [negb]. rewrite (bind_ret (mret tt) _ s1 tt s1 eq_refl). rewrite (bind_ret _ _ s1 tt s1) by (by rewrite syscall_passes).
  rewrite syscall_passes by done. rewrite (bind_ret get _ s1 s1 s1 eq_refl). rewrite Z.mod_small, Nat2Z.id by lia.
  pose proof (dec_enc_prog p [] Hp) as Hd. rewrite app_nil_r in Hd. rewrite Hd. unfold seccomp_install. rewrite Hn1, Hc. cbn [andb].
  eexists. split; [reflexivity|]. cbn. rewrite Hf1. by split_and!.
Qed.

Definition accepted (p : list sock_filter) : Prop := Forall filter_fits p /\ bpf_check p = true.
Lemma load_all_dumped fs ps s : Forall2 (fun f p => l_files s !! f = Some (enc_prog p)) fs ps -> Forall accepted ps -> (noNewPrivsAlreadySet s = true -> no_new_privs (l_sec s) = true) ->
  Forall (lets_pass call_data) ps -> Forall (lets_pass call_data) (filters (l_sec s)) ->
  exists s', load_all call_data fs s = Ret tt s' /\ filters (l_sec s') = rev ps ++ filters (l_sec s).
Proof.
  intros H. remember (l_files s) as files eqn:Ef. revert s Ef. induction H as [|f p fs ps Hf _ IH]; intros s Ef Hp Hn Lp Ls; [by exists s|].
  apply Forall_cons in Hp as [[Hfit Hc] Hp]. apply Forall_cons in Lp as [Lp0 Lp]. rewrite Ef in Hf. destruct (loadFilter_dumped s f p Hf Hfit Hc Hn Ls) as (s1 & E1 & Hs1 & Hf1 & Hd1 & Hn1). cbn [load_all]. run E1.
  destruct (IH s1) as (s2 & E2 & Hs2); [congruence|done|done|done|rewrite Hs1; by constructor|]. exists s2. split; [exact E2|]. rewrite Hs2, Hs1. cbn [rev]. by rewrite <- app_assoc.
Qed.
End LaunchProofs.

(** All filters of a process, each to a file of its own, the most recent first. *)
Fixpoint dump_all (target : sec) (names : list (list Z)) (i : nat) (files : gmap (list Z) (list Z)) : gmap (list Z) (list Z) :=
  match names with
  | [] => files
  | f :: names' =>
      let size := (8 * length (default [] (filters target !! i)))%nat in
      dump_all target names' (S i) (match dump_main true true true true true (Some size) target f i files with Ret _ s | Exit _ s => s end)
  end.
Lemma dump_one target f i p files : filters target !! i = Some p ->
  dump_main true true true true true (Some (8 * length p)%nat) target f i files = Exit (Exits 0) (<[f := enc_prog p]> files).
Proof.
  intros Hp. unfold dump_main, fetchFilter. cbn [negb]. rewrite Hp. rewrite (bind_ret (mret p) _ files p files eq_refl). unfold dumpFilter. cbn [negb].
  unfold mbind, M_bind, modify, die. cbn. rewrite take_ge by (rewrite enc_prog_length; lia). by rewrite insert_insert_eq.
Qed.
Lemma dump_all_files target names ps i files : drop i (filters target) = ps -> length names = length ps -> NoDup names ->
  Forall2 (fun f p => dump_all target names i files !! f = Some (enc_prog p)) names ps /\ forall f, f ∉ names -> dump_all target names i files !! f = files !! f.
Proof.
  revert ps i files. induction names as [|f names IH]; intros ps i files Hd Hl Hn; [by destruct ps|]. destruct ps as [|p ps]; [done|]. apply NoDup_cons in Hn as [Hf Hn].
  assert (Hi : filters target !! i = Some p) by (rewrite <- (Nat.add_0_r i), <- lookup_drop, Hd; done).
  assert (Hd' : drop (S i) (filters target) = ps) by (replace (S i) with (i + 1)%nat by lia; rewrite <- drop_drop, Hd; done).
  cbn [dump_all]. rewrite Hi. cbn [default from_option id]. rewrite (dump_one target f i p files Hi). destruct (IH ps (S i) (<[f := enc_prog p]> files) Hd' ltac:(by injection Hl) Hn) as [H1 H2]. split.
  - constructor; [|done]. rewrite H2 by done. apply lookup_insert_eq.
  - intros g Hg. apply not_elem_of_cons in Hg as [Hg1 Hg2]. rewrite H2 by done. by rewrite lookup_insert_ne.
Qed.

(** C30: dumping and loading give back the filters of a process: if each of its filters is dumped
    to a file, and all of them let the launcher's own system calls pass, up to the execution of the program (a
    filter that is installed acts on the calls of the launcher that follow), then a program launched with these
    files, the oldest first, is executed under the same filters, and every system call of it is treated the same. *)
Theorem filter_dump_launch call_data target names files stdin prog (Hp : Forall accepted (filters target)) (Hl : length names = length (filters target)) (Hn : NoDup names)
    (Hc : Forall (lets_pass call_data) (filters target)) (Hg : prog <> bytes "--help") :
  exists s', launch call_data true (rev names) (Some prog) (Launcher (Sec [] false) (dump_all target names 0 files) stdin false None) = Ret tt s' /\ l_exec s' = Some prog /\
    filters (l_sec s') = filters target /\ forall d, is_Some (seccomp_run (filters (l_sec s')) d) /\ seccomp_run (filters (l_sec s')) d = seccomp_run (filters target) d.
Proof.
  destruct (dump_all_files target names (filters target) 0 files (drop_0 _) Hl Hn) as [Hf _].
  destruct (load_all_dumped call_data (rev names) (rev (filters target)) (Launcher (Sec [] false) (dump_all target names 0 files) stdin false None)) as (s' & E & Hs); [|by apply Forall_rev|done|by apply Forall_rev|done|].
  - cbn [l_files]. by apply Forall2_reverse in Hf; rewrite !rev_alt in *.
  - cbn [l_sec filters] in Hs. rewrite rev_involutive, app_nil_r in Hs. exists (Launcher (l_sec s') (l_files s') (l_stdin s') (noNewPrivsAlreadySet s') (Some prog)). split.
    + unfold launch. run E. rewrite (bool_decide_false (prog = _)) by done. rewrite andb_false_r. rewrite syscall_passes; [done|by rewrite Hs].
    + split; [done|]. split; [done|]. intros d. cbn [l_sec]. rewrite Hs. split; [|done]. apply filters_answer. eapply Forall_impl; [exact Hp|]. by intros p [_ ?].
Qed.

(** The calls of the launcher on x86-64. *)
Definition x86_call (c : lcall) : seccomp_data :=
  SeccompData (match c with LPrctl => 157 | LOpen _ => 257 | LFstat => 5 | LMalloc _ => 12 | LRead _ => 0 | LClose => 3 | LSeccomp _ => 317 | LExecve _ => 59 end) AUDIT_ARCH_X86_64 0 [].
(** Two filters, dumped and loaded. *)
Lemma filter_dump_launch_witness : exists s', launch x86_call true (rev [bytes "a"; bytes "b"]) (Some (bytes "/bin/ls"))
    (Launcher (Sec [] false) (dump_all (Sec [logging_filter; deny_syscall_filter 42] true) [bytes "a"; bytes "b"] 0 ∅) [] false None) = Ret tt s' /\
  filters (l_sec s') = [logging_filter; deny_syscall_filter 42] /\ l_exec s' = Some (bytes "/bin/ls").
Proof.
  destruct (filter_dump_launch x86_call (Sec [logging_filter; deny_syscall_filter 42] true) [bytes "a"; bytes "b"] ∅ [] (bytes "/bin/ls")) as (s' & E & Hx & Hf & _).
  - repeat constructor; vm_compute; done.
  - reflexivity.
  - apply NoDup_cons. split; [|apply NoDup_singleton]. intros H%list_elem_of_singleton. vm_compute in H. discriminate.
  - repeat (apply Forall_cons; split); [intros []; eexists; (split; [vm_compute; reflexivity|reflexivity])..|constructor].
  - discriminate.
  - exists s'. split; [exact E|]. split; [exact Hf|exact Hx].
Defined.
(** A filter that does not allow [execve] is installed, and then ends the launcher instead of the program being executed; one that does not
    allow [openat] ends it at the next filter. *)
Example launcher_filters_itself : exists s1 s2,
  launch x86_call true [bytes "a"] (Some (bytes "/bin/ls")) (Launcher (Sec [] false) {[bytes "a" := enc_prog (deny_syscall_filter 59)]} [] false None) = Exit (Err_dump "SIGSYS") s1 /\
  launch x86_call true [bytes "a"; bytes "b"] (Some (bytes "/bin/ls"))
    (Launcher (Sec [] false) {[bytes "a" := enc_prog (deny_syscall_filter 257); bytes "b" := enc_prog logging_filter]} [] false None) = Exit (Err_dump "SIGSYS") s2.
Proof. do 2 eexists. split; vm_compute; reflexivity. Qed.
