(* ===== verification/SeccompTheorems.v ===== *)
(** What the seccomp filters decide, and what a target can make its supervisor do. *)
From S2P Require Import Prelude CStr Bpf SeccompFilters SeccompNotify.

(** ** The mkdir supervisor *)

Definition state_of {S A} (o : outcome S A) : S := match o with Ret _ s | Exit _ s => s end.
(** The memories a target has from a notification on while it is blocked in the call. *)
Definition mems (m : memory) (script : list turn) : list memory := m :: mems_until (events script).
Lemma blocked_ok m script s : sup_ok (mems m script) (blocked m script s).
Proof. intros _. split_and!; [done|by constructor|]. apply Forall_forall. intros m' Hm. by constructor. Qed.

Section Mkdir.
Context (mkdir_errno : list Z -> Z -> option Z).

(** The answer to a path name, if one was read, and the directories asked for. *)
Definition mkdir_answer (n : notif) (p : option (list Z)) : resp * list (list Z * Z) :=
  let mode := arg (n_data n) 1 in
  match p with
  | None => (Resp (n_id n) (- EINVAL) 0 0, [])
  | Some p =>
      if has_prefix (bytes "/tmp/") p then
        (match mkdir_errno p mode with None => Resp (n_id n) 0 (Z.of_nat (length p)) 0 | Some e => Resp (n_id n) (- e) 0 0 end, [(p, mode)])
      else if has_prefix (bytes "./") p then (Resp (n_id n) 0 0 SECCOMP_USER_NOTIF_FLAG_CONTINUE, [])
      else (Resp (n_id n) (- EOPNOTSUPP) 0 0, [])
  end.

Lemma delay_spec H d s : sup_ok H s ->
  (exists s', delay d s = Ret tt s' /\ sup_ok H s' /\ same_logs s s') \/ (exists s', delay d s = Exit (Exits 1) s' /\ same_logs s s').
Proof.
  intros I. unfold delay. destruct (0 <? d); [|left; exists s; by split_and!].
  destruct (tock_ok H s I) as [I1 L1]. destruct (cookie_spec s) as (v & E & _). run E. destruct v; cbn [negb]; [|right; eexists; split; [reflexivity|by apply later_logs]].
  rewrite (bind_ret (mret tt) _ _ tt (tock s) eq_refl). destruct (tock_ok H _ I1) as [I2 L2]. destruct (cookie_spec (tock s)) as (v & E2 & _). run E2.
  pose proof (later_logs _ _ (later_trans _ _ _ L1 L2)). destruct v; cbn [negb]; [left|right]; eexists; by split_and!.
Qed.
Lemma cstr_twice b : cstr (cstr b) = cstr b.
Proof. apply cstr_id, cstr_nonul. Qed.
Lemma response_spec H n st s : sup_ok H s -> let p := if st =? 0 then Some (cstr (s_path s)) else None in
  exists s', mkdir_response mkdir_errno n st s = Ret (mkdir_answer n p).1 s' /\ sup_ok H s' /\
    s_fds s' = s_fds s /\ s_made s' = s_made s ++ (mkdir_answer n p).2 /\ s_sent s' = s_sent s /\ s_path s' = s_path s.
Proof.
  intros I p. unfold mkdir_response. rewrite (bind_ret get _ s s s eq_refl). subst p. unfold mkdir_answer. destruct (st =? 0); cbn [negb]; [|exists s; split; [done|]; split_and!; try done; by rewrite app_nil_r].
  destruct (has_prefix (bytes "/tmp/") (cstr (s_path s))) eqn:Ep.
  - destruct (tock_ok H s I) as [I1 (_ & _ & Hf & Hp & Hm & _ & Hs)]. rewrite (bind_ret tick _ _ (tick_ok s) (tock s) eq_refl). rewrite (bind_ret (modify _) _ _ tt _ eq_refl).
    destruct (mkdir_errno _ _); eexists; (split; [reflexivity|]); cbn; split_and!; try done; by rewrite Hm.
  - destruct (has_prefix (bytes "./") (cstr (s_path s))); exists s; (split; [done|]); split_and!; try done; by rewrite app_nil_r.
Qed.
Lemma send_spec H r s : sup_ok H s -> exists s', send_response r s = Ret tt s' /\ s_fds s' = s_fds s /\ s_made s' = s_made s /\ s_path s' = s_path s /\
  (s_sent s' = s_sent s ++ [r] \/ s_sent s' = s_sent s).
Proof.
  intros I. destruct (tock_ok H s I) as [_ (_ & _ & Hf & Hp & Hm & _ & Hs)]. unfold send_response, mbind, M_bind, tick, get. destruct (_ && _); eexists; (split; [reflexivity|]); cbn; rewrite ?Hs; auto.
Qed.

(** [p]: what was read; if something was, it was in the memory of the blocked target. *)
Definition read_from (l : list memory) (n : notif) (i : nat) (p : option (list Z)) : Prop :=
  match p with Some q => exists m, m ∈ l /\ q = cstr (take (Z.to_nat PATH_MAX) (m (arg (n_data n) i))) | None => True end.
Lemma handle_mkdir_spec d n m script s0 : let o := handle_mkdir mkdir_errno d n (blocked m script s0) in let s := state_of o in
  s_fds s = s_fds s0 /\
  ((s_made s = s_made s0 /\ s_sent s = s_sent s0) \/
   nr (n_data n) = NR_mkdir /\ exists p, read_from (mems m script) n 0 p /\ s_made s = s_made s0 ++ (mkdir_answer n p).2 /\
     (s_sent s = s_sent s0 ++ [(mkdir_answer n p).1] \/ s_sent s = s_sent s0)).
Proof.
  intros o. pose proof (blocked_ok m script s0) as I0. subst o. unfold handle_mkdir. destruct (nr (n_data n) =? NR_mkdir) eqn:En; cbn [negb]; [|cbn; auto]. bsimp.
  rewrite (bind_ret (mret tt) _ _ tt _ eq_refl). destruct (delay_spec _ d _ I0) as [(s1 & E1 & I1 & Hf1 & Hm1 & _ & Hs1)|(s1 & E1 & Hf1 & Hm1 & _ & Hs1)]; [|rewrite (bind_exit _ _ _ _ _ E1); cbn; auto].
  run E1. destruct (gtp_sound _ n 0 PATH_MAX s1 I1) as (st & s2 & E2 & I2 & (Hf2 & Hm2 & _ & Hs2) & Hr). run E2.
  destruct (response_spec _ n st s2 I2) as (s3 & E3 & I3 & Hf3 & Hm3 & Hs3 & Hp3). run E3. set (p := if st =? 0 then Some (cstr (s_path s2)) else None) in *.
  destruct (send_spec _ (mkdir_answer n p).1 s3 I3) as (s4 & E4 & Hf4 & Hm4 & Hp4 & Hs4). run E4. rewrite (bind_ret get _ s4 s4 s4 eq_refl). cbn [state_of mret M_ret].
  cbn in Hf1, Hm1, Hs1. split; [congruence|]. right. split; [done|]. exists p. split; [|split; [congruence|destruct Hs4; [left|right]; congruence]].
  unfold p. destruct (st =? 0) eqn:Est; [|done]. bsimp. by destruct (Hr Est) as (m' & ? & ?); exists m'.
Qed.

(** A directory that was asked for, a response that was sent: some notification justifies it. *)
Definition justified_made (l : list recv) (pm : list Z * Z) : Prop :=
  exists n m script, RNotif n m script ∈ l /\ has_prefix (bytes "/tmp/") pm.1 = true /\ pm.2 = arg (n_data n) 1 /\ read_from (mems m script) n 0 (Some pm.1).
Definition justified_sent (l : list recv) (r : resp) : Prop :=
  exists n m script p, RNotif n m script ∈ l /\ nr (n_data n) = NR_mkdir /\ read_from (mems m script) n 0 p /\ r = (mkdir_answer n p).1.
Lemma justified_more l e : (forall pm, justified_made l pm -> justified_made (e :: l) pm) /\ (forall r, justified_sent l r -> justified_sent (e :: l) r).
Proof.
  split; [intros pm (n & m & sc & ? & ?)|intros r (n & m & sc & p & ? & ?)]; [exists n, m, sc|exists n, m, sc, p]; (split; [by constructor|done]).
Qed.
Lemma answer_made n p pm : pm ∈ (mkdir_answer n p).2 -> p = Some pm.1 /\ has_prefix (bytes "/tmp/") pm.1 = true /\ pm.2 = arg (n_data n) 1.
Proof.
  destruct p as [p|]; unfold mkdir_answer; [|by intros ?%not_elem_of_nil]. destruct (has_prefix (bytes "/tmp/") p) eqn:E; [|destruct (has_prefix (bytes "./") p); by intros ?%not_elem_of_nil].
  cbn [snd]. intros ->%list_elem_of_singleton. done.
Qed.

Definition supervisor_safe (l : list recv) (s0 s : sup) : Prop :=
  s_fds s = s_fds s0 /\ (exists made, s_made s = s_made s0 ++ made /\ Forall (justified_made l) made) /\
  (exists sent, s_sent s = s_sent s0 ++ sent /\ Forall (justified_sent l) sent).
Lemma safe_refl l s0 s : s_fds s = s_fds s0 -> s_made s = s_made s0 -> s_sent s = s_sent s0 -> supervisor_safe l s0 s.
Proof. intros H1 H2 H3. unfold supervisor_safe. rewrite H2, H3. split; [done|]. split; exists []; by rewrite app_nil_r. Qed.
Lemma safe_trans e l s0 s1 s2 : supervisor_safe (e :: l) s0 s1 -> supervisor_safe l s1 s2 -> supervisor_safe (e :: l) s0 s2.
Proof.
  intros (F1 & (a1 & A1 & G1) & (b1 & B1 & K1)) (F2 & (a2 & A2 & G2) & (b2 & B2 & K2)). destruct (justified_more l e) as [J1 J2].
  split; [congruence|]. split; [exists (a1 ++ a2)|exists (b1 ++ b2)]; rewrite app_assoc.
  - split; [congruence|]. apply Forall_app. split; [done|]. eapply Forall_impl; eauto.
  - split; [congruence|]. apply Forall_app. split; [done|]. eapply Forall_impl; eauto.
Qed.
Lemma handle_safe d n m script l s0 : supervisor_safe (RNotif n m script :: l) s0 (state_of (handle_mkdir mkdir_errno d n (blocked m script s0))).
Proof.
  destruct (handle_mkdir_spec d n m script s0) as [Hf [[Hm Hs]|(Hn & p & Hp & Hm & Hs)]]; [by apply safe_refl|]. split; [done|]. split.
  - eexists. split; [exact Hm|]. apply Forall_forall. intros pm Hin. destruct (answer_made n p pm Hin) as (-> & ? & ?). exists n, m, script. split_and!; try done. constructor.
  - destruct Hs as [Hs|Hs]; [|exists []; by rewrite app_nil_r]. eexists. split; [exact Hs|]. apply Forall_singleton. exists n, m, script, p. split_and!; try done. constructor.
Qed.
Lemma loop_safe d l s0 : supervisor_safe l s0 (state_of (handleNotifications_mkdir mkdir_errno d l s0)).
Proof.
  revert s0. induction l as [|[| |n m script] l IH]; intros s0; cbn [handleNotifications_mkdir].
  - by apply safe_refl.
  - eapply safe_trans; [by apply (safe_refl _ s0 s0)|apply IH].
  - by apply safe_refl.
  - rewrite (bind_ret (modify _) _ _ tt _ eq_refl). pose proof (handle_safe d n m script l s0) as Hh. unfold mbind, M_bind. destruct (handle_mkdir _ _ _ _) as [go s1|e s1]; cbn [state_of] in Hh; [|done].
    destruct go; [|done]. eapply safe_trans; [exact Hh|apply IH].
Qed.
End Mkdir.

(** ** A session that nothing disturbs *)

Definition quiet (s : sup) : Prop := s_script s = [] /\ s_valid s = true /\ s_alive s = true /\ length (s_path s) = Z.to_nat PATH_MAX.
Lemma quiet_tock s : quiet s -> tock s = s /\ tick_ok s = true.
Proof. intros (H & _). unfold tock, tick_ok. by rewrite H. Qed.
Lemma quiet_cookie s : quiet s -> cookieIsValid s = Ret true s.
Proof.
  intros Q. destruct (quiet_tock s Q) as [Ht Ho]. destruct Q as (_ & Hv & _). unfold cookieIsValid. rewrite (bind_ret tick _ s true s) by (unfold tick; congruence).
  rewrite (bind_ret get _ s s s eq_refl). by rewrite Hv.
Qed.
(** What is fetched from a memory with the string [p] in it. *)
Definition fetched (p junk : list Z) : list Z := take (Z.to_nat PATH_MAX) (p ++ NUL :: junk).
Lemma fetched_short p junk : nonul p -> Z.of_nat (length p) < PATH_MAX -> cstr (fetched p junk) = p /\ (length p < length (fetched p junk))%nat.
Proof.
  intros Hn Hl. unfold fetched. rewrite take_app_ge by (unfold PATH_MAX in *; lia). set (k := (Z.to_nat PATH_MAX - length p)%nat). assert (Hk : k <> 0%nat) by (unfold k, PATH_MAX in *; lia).
  destruct k as [|k]; [done|]. cbn [take]. split; [by apply cstr_app|]. rewrite length_app. cbn [length]. lia.
Qed.
Lemma fetched_long p junk : nonul p -> PATH_MAX <= Z.of_nat (length p) -> fetched p junk = take (Z.to_nat PATH_MAX) p /\ cstr (fetched p junk) = fetched p junk /\ length (fetched p junk) = Z.to_nat PATH_MAX.
Proof.
  intros Hn Hl. unfold fetched. rewrite take_app_le by (unfold PATH_MAX in *; lia). split; [done|]. split; [|rewrite length_take; unfold PATH_MAX in *; lia].
  apply cstr_id. unfold nonul in *. by apply Forall_take.
Qed.
Lemma quiet_gtp n i s p junk : quiet s -> s_mem s (arg (n_data n) i) = p ++ NUL :: junk -> nonul p ->
  exists s', getTargetPathname n i PATH_MAX s = Ret (if Z.of_nat (length p) <? PATH_MAX then 0 else GTP_BAD_PATH) s' /\ quiet s' /\ same_logs s s' /\
    cstr (s_path s') = (if Z.of_nat (length p) <? PATH_MAX then p else take (Z.to_nat PATH_MAX) p).
Proof.
  intros Q Hm Hn. destruct (quiet_tock s Q) as [Ht Ho]. pose proof Q as (Hsc & Hv & Ha & Hlen). unfold getTargetPathname.
  rewrite (bind_ret open_mem _ s (Some OfTarget) (add_fds 1 s)) by (unfold open_mem, mbind, M_bind, tick, get; rewrite Ht, Ho; cbn [negb]; by rewrite Ha).
  assert (Q1 : quiet (add_fds 1 s)) by done. rewrite (bind_ret _ _ _ _ _ (quiet_cookie _ Q1)). cbn [negb]. set (got := fetched p junk).
  assert (Hg : got = fetched p junk) by done. assert (Hgl : (length got <= Z.to_nat PATH_MAX)%nat) by (rewrite Hg; unfold fetched; rewrite length_take; lia).
  assert (Hg0 : 0 < Z.of_nat (length got)) by (rewrite Hg; unfold fetched; rewrite length_take, length_app; cbn [length]; unfold PATH_MAX; lia).
  set (s2 := set_path (poke got (s_path s)) (add_fds 1 s)). assert (Hp : length (poke got (s_path s)) = Z.to_nat PATH_MAX) by (unfold poke; rewrite length_app, length_drop; lia).
  rewrite (bind_ret (pread_mem _ _ _) _ _ (Z.of_nat (length got)) s2).
  2:{ unfold pread_mem, mbind, M_bind, tick, get. destruct (quiet_tock _ Q1) as [-> ->]. cbn [negb add_fds s_alive s_mem]. rewrite Ha, Hm. done. }
  set (s3 := add_fds (-1) s2). rewrite (bind_ret close_mem _ s2 tt s3 eq_refl). bfalse (Z.of_nat (length got) <=? 0). assert (Q3 : quiet s3) by done.
  rewrite (bind_ret _ _ _ _ _ (quiet_cookie _ Q3)). cbn [negb]. rewrite (bind_ret get _ s3 s3 s3 eq_refl). change (s_path s3) with (poke got (s_path s)).
  assert (Hlogs : same_logs s s3) by (split_and!; cbn; try done; lia).
  unfold strnlen. rewrite Nat2Z.id. unfold poke at 1. rewrite take_app_length. destruct (Z.of_nat (length p) <? PATH_MAX) eqn:El; bsimp.
  - destruct (fetched_short p junk Hn El) as [Hc Hl]. rewrite <- Hg in Hc, Hl. rewrite Hc. btrue (Z.of_nat (length p) <? Z.of_nat (length got)). exists s3. split_and!; try done.
    change (s_path s3) with (poke got (s_path s)). rewrite <- Hc. apply strnlen_found. unfold strnlen, poke. rewrite Nat2Z.id, take_app_length, Hc. by apply Z.ltb_lt; lia.
  - destruct (fetched_long p junk Hn El) as (Ht' & Hc & Hl). rewrite <- Hg in Hc, Hl, Ht'. rewrite Hc. bfalse (Z.of_nat (length got) <? Z.of_nat (length got)). exists s3. split_and!; try done.
    change (s_path s3) with (poke got (s_path s)). unfold poke. rewrite drop_ge by lia. rewrite app_nil_r. congruence.
Qed.

Section Session.
Context (mkdir_errno : list Z -> Z -> option Z).

(** A call of [mkdir] by the target: the notification, the path name and what follows it in memory. *)
Record call := Call { call_notif : notif; call_path : list Z; call_junk : list Z }.
Definition call_event (c : call) : recv := RNotif (call_notif c) (fun _ => call_path c ++ NUL :: call_junk c) [].
Definition call_ok (c : call) : Prop := nr (n_data (call_notif c)) = NR_mkdir /\ nonul (call_path c).
(** The answer; a path name that does not fit is not valid. *)
Definition call_answer (c : call) : resp * list (list Z * Z) :=
  mkdir_answer mkdir_errno (call_notif c) (if Z.of_nat (length (call_path c)) <? PATH_MAX then Some (call_path c) else None).
Definition is_bye (c : call) : bool := bool_decide (call_path c = bytes "/bye").
(** The calls that are answered: the supervisor ends after the path name [/bye]. *)
Fixpoint until_bye (l : list call) : list call :=
  match l with [] => [] | c :: l' => c :: if is_bye c then [] else until_bye l' end.

Lemma quiet_delay d s : quiet s -> delay d s = Ret tt s.
Proof.
  intros Q. unfold delay. destruct (0 <? d); [|done]. rewrite (bind_ret _ _ _ _ _ (quiet_cookie s Q)). cbn [negb]. rewrite (bind_ret (mret tt) _ s tt s eq_refl).
  by rewrite (bind_ret _ _ _ _ _ (quiet_cookie s Q)).
Qed.
Lemma quiet_response n st s : quiet s -> let p := if st =? 0 then Some (cstr (s_path s)) else None in
  exists s', mkdir_response mkdir_errno n st s = Ret (mkdir_answer mkdir_errno n p).1 s' /\ quiet s' /\ s_path s' = s_path s /\
    s_fds s' = s_fds s /\ s_made s' = s_made s ++ (mkdir_answer mkdir_errno n p).2 /\ s_sent s' = s_sent s.
Proof.
  intros Q p. destruct (quiet_tock s Q) as [Ht Ho]. unfold mkdir_response. rewrite (bind_ret get _ s s s eq_refl). subst p. unfold mkdir_answer.
  destruct (st =? 0); cbn [negb]; [|exists s; split; [done|]; split_and!; try done; by rewrite app_nil_r].
  destruct (has_prefix (bytes "/tmp/") (cstr (s_path s))) eqn:Ep.
  - rewrite (bind_ret tick _ _ true s) by (unfold tick; congruence). rewrite (bind_ret (modify _) _ _ tt _ eq_refl). destruct (mkdir_errno _ _); eexists; (split; [reflexivity|]); by split_and!.
  - destruct (has_prefix (bytes "./") (cstr (s_path s))); exists s; (split; [done|]); split_and!; try done; by rewrite app_nil_r.
Qed.
Lemma quiet_handle d c s : call_ok c -> length (s_path s) = Z.to_nat PATH_MAX ->
  exists s', handle_mkdir mkdir_errno d (call_notif c) (blocked (fun _ => call_path c ++ NUL :: call_junk c) [] s) = Ret (negb (is_bye c)) s' /\
    length (s_path s') = Z.to_nat PATH_MAX /\ s_fds s' = s_fds s /\ s_made s' = s_made s ++ (call_answer c).2 /\ s_sent s' = s_sent s ++ [(call_answer c).1].
Proof.
  intros [Hn Hp] Hl. destruct c as [n p junk]. cbn [call_notif call_path call_junk] in *. set (s0 := blocked _ [] s). assert (Q0 : quiet s0) by (by split_and!).
  unfold handle_mkdir. btrue (nr (n_data n) =? NR_mkdir). cbn [negb]. rewrite (bind_ret (mret tt) _ s0 tt s0 eq_refl), (bind_ret _ _ _ _ _ (quiet_delay d s0 Q0)).
  destruct (quiet_gtp n 0 s0 p junk Q0 eq_refl Hp) as (s1 & E1 & Q1 & (Hf1 & Hm1 & _ & Hs1) & Hc). run E1.
  set (st := if Z.of_nat (length p) <? PATH_MAX then 0 else GTP_BAD_PATH) in *. destruct (quiet_response n st s1 Q1) as (s2 & E2 & Q2 & Hp2 & Hf2 & Hm2 & Hs2). run E2.
  assert (Ea : (if st =? 0 then Some (cstr (s_path s1)) else None) = (if Z.of_nat (length p) <? PATH_MAX then Some p else None)) by (unfold st; rewrite Hc; by destruct (Z.of_nat (length p) <? PATH_MAX)).
  rewrite Ea in *. change (mkdir_answer mkdir_errno n _) with (call_answer (Call n p junk)) in *. set (r := (call_answer (Call n p junk)).1) in *.
  destruct (quiet_tock s2 Q2) as [Ht2 Ho2]. pose proof Q2 as (_ & Hv2 & _ & Hl2).
  rewrite (bind_ret (send_response r) _ s2 tt (log_sent r s2)) by (unfold send_response, mbind, M_bind, tick, get; rewrite Ht2, Ho2; cbn; by rewrite Hv2).
  rewrite (bind_ret get _ _ (log_sent r s2) _ eq_refl). exists (log_sent r s2). cbn [log_sent s_path s_fds s_made s_sent]. cbn in Hf1, Hm1, Hs1. split_and!; try congruence.
  cbn [mret M_ret]. f_equal. f_equal. unfold is_bye. cbn [call_path]. rewrite Hp2, Hc. apply bool_decide_ext. destruct (Z.of_nat (length p) <? PATH_MAX) eqn:El; [done|]. bsimp.
  split; intros Hx; exfalso; [apply (f_equal length) in Hx; rewrite length_take in Hx|subst p]; unfold PATH_MAX in *; cbn in *; lia.
Qed.

Lemma session_loop d l s : Forall call_ok l -> length (s_path s) = Z.to_nat PATH_MAX ->
  exists s', handleNotifications_mkdir mkdir_errno d (map call_event l) s = (if existsb is_bye l then Exit (Exits 1) s' else Ret tt s') /\
    s_fds s' = s_fds s /\ s_sent s' = s_sent s ++ map (fun c => (call_answer c).1) (until_bye l) /\ s_made s' = s_made s ++ concat (map (fun c => (call_answer c).2) (until_bye l)).
Proof.
  intros Hl. revert s. induction Hl as [|c l Hc _ IH]; intros s Hp; [exists s; split; [done|]; by rewrite !app_nil_r|].
  cbn [map handleNotifications_mkdir call_event existsb until_bye]. rewrite (bind_ret (modify _) _ _ tt _ eq_refl). destruct (quiet_handle d c s Hc Hp) as (s1 & E & Hp1 & Hf & Hm & Hs). run E.
  destruct (is_bye c); cbn [negb orb].
  - exists s1. cbn [map concat]. rewrite !app_nil_r. by split_and!.
  - destruct (IH s1 Hp1) as (s2 & E2 & Hf2 & Hs2 & Hm2). exists s2. split; [exact E2|]. cbn [map concat]. rewrite Hf2, Hs2, Hm2, Hf, Hs, Hm, <- !app_assoc. by split_and!.
Qed.
End Session.

(** ** One filter, and two *)

Lemma run_one p d v : bpf p d = Some v -> v = SECCOMP_RET_ALLOW \/ action v < action SECCOMP_RET_ALLOW -> seccomp_run [p] d = Some v.
Proof.
  intros H Hv. unfold seccomp_run. cbn [foldl]. cbn. rewrite H. cbn. f_equal. destruct Hv as [->|Hv]; [by destruct (_ <? _)|]. by btrue (action v <? action SECCOMP_RET_ALLOW).
Qed.
Lemma installs p : bpf_check p = true -> (prctl_no_new_privs true ;; install_filter p) (Sec [] false) = Ret tt (Sec [p] true).
Proof. intros H. rewrite (bind_ret (prctl_no_new_privs true) _ (Sec [] false) tt (Sec [] true) eq_refl). unfold install_filter, seccomp_install. cbn [no_new_privs andb]. by rewrite H. Qed.
Lemma open_filters_checked m : bpf_check (deny_open_filter m) = true /\ bpf_check (control_open_filter m) = true.
Proof. destruct m as [| |[]]; by split. Qed.

(** The action taken on a call, with the data of the return value. *)
Inductive verdict := Killed | Fails (errno : Z) | Allowed.
Definition verdict_of (v : Z) : option verdict :=
  if v =? SECCOMP_RET_KILL_PROCESS then Some Killed
  else if action v =? SECCOMP_RET_ERRNO then Some (Fails (Z.land v 0xffff))
  else if v =? SECCOMP_RET_ALLOW then Some Allowed else None.
Definition flags_verdict (flags : Z) : verdict :=
  if Z.testbit flags 6 then Killed else if Z.testbit flags 0 || Z.testbit flags 1 then Fails ENOTSUP else Allowed.
Lemma low_bits z i : 0 <= i < 32 -> Z.testbit (low z) i = Z.testbit z i.
Proof. intros. unfold low, u32. by apply Z.mod_pow2_bits_low; lia. Qed.
Lemma land_pow2 x i : 0 <= i -> (Z.land x (2 ^ i) =? 0) = negb (Z.testbit x i).
Proof.
  intros Hi. destruct (Z.testbit x i) eqn:E; cbn [negb].
  - apply Z.eqb_neq. intros H0. assert (H : Z.testbit (Z.land x (2 ^ i)) i = true) by (rewrite Z.land_spec, E; by rewrite Z.pow2_bits_true). by rewrite H0, Z.bits_0 in H.
  - apply Z.eqb_eq, Z.bits_inj'. intros j Hj. rewrite Z.land_spec, Z.bits_0, Z.pow2_bits_eqb by done. destruct (Z.eqb_spec i j); [subst; by rewrite E|by rewrite andb_false_r].
Qed.
Lemma judge_verdict flags : verdict_of (judge_flags flags) = Some (flags_verdict flags).
Proof.
  unfold judge_flags, flags_verdict. change O_CREAT with (2 ^ 6). rewrite land_pow2, low_bits, negb_involutive by lia. destruct (Z.testbit flags 6); [done|].
  assert (E : (Z.land (low flags) (Z.lor O_WRONLY O_RDWR) =? 0) = negb (Z.testbit flags 0 || Z.testbit flags 1)).
  { rewrite Z.land_lor_distr_r. change O_WRONLY with (2 ^ 0). change O_RDWR with (2 ^ 1). rewrite <- (low_bits flags 0), <- (low_bits flags 1) by lia.
    rewrite negb_orb, <- (land_pow2 (low flags) 0), <- (land_pow2 (low flags) 1) by lia. set (a := Z.land _ (2 ^ 0)). set (b := Z.land _ (2 ^ 1)).
    destruct (Z.eqb_spec (Z.lor a b) 0) as [H0|H0]; symmetry; [apply Z.lor_eq_0_iff in H0 as [-> ->]; done|].
    apply andb_false_iff. destruct (Z.eqb_spec a 0) as [Ha|]; [right|by left]. apply Z.eqb_neq. intros Hb. apply H0. by rewrite Ha, Hb. }
  rewrite E, negb_involutive. by destruct (_ || _).
Qed.
Lemma judge_action flags : judge_flags flags = SECCOMP_RET_ALLOW \/ action (judge_flags flags) < action SECCOMP_RET_ALLOW.
Proof. unfold judge_flags. repeat case_match; try (by left); right; vm_compute; done. Qed.

(** C28: The filters that [seccomp_deny_open.c] and [seccomp_control_open.c] install are accepted by the kernel,
    for whatever machine they are compiled, and decide every system call as intended: calls of
    another architecture or of the x32 interface kill the process; the first filter kills it on [open]
    and [openat] and allows all else; the second one kills it if the flags of the
    call contain [O_CREAT], lets the call fail with [ENOTSUP] if they ask for writing and
    allows it otherwise. *)
Theorem open_filters_decide m d :
  let denies := deny_open_filter m in
  let controls := control_open_filter m in
  (prctl_no_new_privs true ;; install_filter denies) (Sec [] false) = Ret tt (Sec [denies] true) /\
  (prctl_no_new_privs true ;; install_filter controls) (Sec [] false) = Ret tt (Sec [controls] true) /\
  (seccomp_run [denies] d ≫= verdict_of) = Some (if is_machine m d && negb (is_open m d || is_openat m d) then Allowed else Killed) /\
  (seccomp_run [controls] d ≫= verdict_of) = Some
    (if is_machine m d then
       if is_open m d then flags_verdict (arg d 1) else if is_openat m d then flags_verdict (arg d 2) else Allowed
     else Killed).
Proof.
  cbv zeta. destruct (open_filters_checked m) as [C1 C2]. split; [by apply installs|]. split; [by apply installs|]. split.
  - rewrite (run_one _ _ _ (deny_open_decides m d)); destruct (is_machine m d && _); cbn [mbind option_bind]; try done; [by left|right; vm_compute; done].
  - rewrite (run_one _ _ _ (control_open_decides m d)); repeat case_match; cbn [mbind option_bind]; try apply judge_verdict; try apply judge_action; try done; [by left|right; vm_compute; done].
Qed.

(** [seccomp_arg64.c]: an offset is a signed number; a negative one has its high bits set. *)
Theorem arg64_offsets d offset : u32 (arch d) = AUDIT_ARCH_X86_64 -> u32 (nr d) = NR_lseek -> arg d 1 = offset -> - 2 ^ 63 <= offset < 2 ^ 63 ->
  (seccomp_run [arg64_filter] d ≫= verdict_of) = Some (if 1000 <? offset then Fails (if offset <? 2 ^ 32 then 1 else 2) else if offset <? 0 then Fails 2 else Allowed).
Proof.
  intros Ha Hn <- Ho. rewrite (run_one _ _ _ (arg64_decides d)).
  2:{ unfold if_x86_64. cbv zeta. repeat case_match; try (by left); right; vm_compute; done. }
  unfold if_x86_64. rewrite Ha, Hn. rewrite !Z.eqb_refl. cbn [andb]. change (NR_lseek <? X32_SYSCALL_BIT) with true. cbn iota zeta. unfold u64. destruct (Z.ltb_spec (arg d 1) 0) as [Hneg|Hpos].
  - replace (arg d 1 mod 2 ^ 64) with (arg d 1 + 2 ^ 64) by (apply Z.mod_unique with (-1); lia). btrue (2 ^ 32 <=? arg d 1 + 2 ^ 64). by bfalse (1000 <? arg d 1).
  - rewrite Z.mod_small by lia. destruct (Z.leb_spec (2 ^ 32) (arg d 1)).
    + btrue (1000 <? arg d 1). by bfalse (arg d 1 <? 2 ^ 32).
    + btrue (arg d 1 <? 2 ^ 32). by destruct (1000 <? arg d 1).
Qed.

(** With a second filter: an error takes precedence over the notification, the notification over tracing. *)
Theorem second_filter_precedence f d : u32 (arch d) = AUDIT_ARCH_X86_64 -> u32 (nr d) = NR_mkdir ->
  seccomp_run [filter2 f; mkdir_filter] d = Some (if f =? SECCOMP_RET_ERRNO then Z.lor SECCOMP_RET_ERRNO ENOTSUP else SECCOMP_RET_USER_NOTIF).
Proof.
  intros Ha Hn. unfold seccomp_run, mkdir_filter. cbn [foldl]. cbn [mbind option_bind]. rewrite filter2_decides, notify_decides. unfold if_x86_64. rewrite Ha, Hn, !Z.eqb_refl. change (NR_mkdir <? X32_SYSCALL_BIT) with true. cbn [andb].
  cbn [mbind option_bind]. by destruct (f =? SECCOMP_RET_ERRNO).
Qed.

(** ** The supervisors *)

(** C29: whatever a target does to its memory, and whenever it is interrupted, ends or has its process ID
    reused, the supervisor of [seccomp_unotify_mkdir.c] asks only for directories under the
    prefix [/tmp/] whose name stood in the memory of the target before it was interrupted or ended (never what the
    target wrote after an interruption, nor the memory of another process with its ID);
    every response that is accepted is the one that the documentation gives for a path name so read,
    or the error for one that could not be read, and no descriptor is left open. *)
Theorem mkdir_supervisor_safe mkdir_errno d l s0 :
  let s := state_of (handleNotifications_mkdir mkdir_errno d l s0) in
  s_fds s = s_fds s0 /\
  (exists made, s_made s = s_made s0 ++ made /\ Forall (fun pm => exists n m script m', RNotif n m script ∈ l /\ m' ∈ mems m script /\
     pm.1 = cstr (take (Z.to_nat PATH_MAX) (m' (arg (n_data n) 0))) /\ has_prefix (bytes "/tmp/") pm.1 = true /\ pm.2 = arg (n_data n) 1) made) /\
  (exists sent, s_sent s = s_sent s0 ++ sent /\ Forall (fun r => exists n m script p, RNotif n m script ∈ l /\ nr (n_data n) = NR_mkdir /\
     read_from (mems m script) n 0 p /\ r = (mkdir_answer mkdir_errno n p).1) sent).
Proof.
  intros s. destruct (loop_safe mkdir_errno d l s0) as (Hf & (made & Hm & Jm) & (sent & Hs & Js)). split; [done|]. split; [exists made|by exists sent]. split; [done|].
  eapply Forall_impl; [exact Jm|]. intros pm (n & m & script & Hin & Hp & Hmode & (m' & Hm' & Hread)). by exists n, m, script, m'.
Qed.

(** A session of [seccomp_unotify_mkdir.c] that nothing disturbs: the target's calls of [mkdir] cause notifications, and
    each is answered as documented, up to the path name [/bye], after which the supervisor ends; path names
    of [PATH_MAX] bytes or more are answered with an error. *)
Theorem mkdir_session mkdir_errno d l s (Hl : Forall call_ok l) (Hp : length (s_path s) = Z.to_nat PATH_MAX) :
  Forall (fun c => u32 (arch (n_data (call_notif c))) = AUDIT_ARCH_X86_64 -> seccomp_run [mkdir_filter] (n_data (call_notif c)) = Some SECCOMP_RET_USER_NOTIF) l /\
  exists s', handleNotifications_mkdir mkdir_errno d (map call_event l) s = (if existsb is_bye l then Exit (Exits 1) s' else Ret tt s') /\
    s_sent s' = s_sent s ++ map (fun c => (call_answer mkdir_errno c).1) (until_bye l) /\
    s_made s' = s_made s ++ concat (map (fun c => (call_answer mkdir_errno c).2) (until_bye l)).
Proof.
  split.
  - eapply Forall_impl; [exact Hl|]. intros c [Hn _] Ha. apply run_one; [|right; vm_compute; done]. unfold mkdir_filter. rewrite notify_decides. unfold if_x86_64. rewrite Ha, Hn. done.
  - destruct (session_loop mkdir_errno d l s Hl Hp) as (s' & E & _ & Hs & Hm). by exists s'.
Qed.

(** The supervisor of [seccomp_unotify_openat.c] when nothing disturbs the call. *)
Theorem openat_supervised openat_result n s p junk fd : quiet s -> nr (n_data n) = NR_openat_x86 -> s_mem s (arg (n_data n) 1) = p ++ NUL :: junk -> nonul p -> Z.of_nat (length p) < PATH_MAX ->
  openat_result (arg (n_data n) 0) p (arg (n_data n) 2) (arg (n_data n) 3) = inl fd ->
  exists s', handle_openat openat_result n s = Ret tt s' /\ s_fds s' = s_fds s /\ s_added s' = s_added s ++ [(fd, 42 + fd)] /\ s_sent s' = s_sent s ++ [Resp (n_id n) 0 (42 + fd) 0].
Proof.
  intros Q Hn Hm Hp Hl Ho. unfold handle_openat. rewrite Hn, Z.eqb_refl. cbn [negb]. rewrite (bind_ret (mret tt) _ s tt s eq_refl).
  destruct (quiet_gtp n 1 s p junk Q Hm Hp) as (s1 & E1 & Q1 & (Hf & _ & Ha & Hs) & Hc). replace (Z.of_nat (length p) <? PATH_MAX) with true in * by (symmetry; by apply Z.ltb_lt). run E1.
  assert (Er : openat_response openat_result n 0 s1 = Ret (Resp (n_id n) 0 (42 + fd) 0) (add_fds (-1) (log_added fd (42 + fd) (add_fds 1 s1)))).
  { unfold openat_response. rewrite (bind_ret get _ s1 s1 s1 eq_refl). change (negb (0 =? 0)) with false. cbn iota. rewrite Hc, Ho. destruct (quiet_tock s1 Q1) as [Ht Hok].
    rewrite (bind_ret tick _ s1 true s1) by (unfold tick; congruence). set (s2 := add_fds 1 s1). rewrite (bind_ret (modify (add_fds 1)) _ s1 tt s2 eq_refl). assert (Q2 : quiet s2) by done. destruct (quiet_tock s2 Q2) as [Ht2 Hok2].
    rewrite (bind_ret tick _ s2 true s2) by (unfold tick; congruence). rewrite (bind_ret get _ s2 s2 s2 eq_refl). destruct Q2 as (_ & Hv & _). rewrite Hv. cbn [andb negb]. rewrite (bind_ret (mret tt) _ s2 tt s2 eq_refl). done. }
  run Er. set (s3 := add_fds (-1) _). assert (Q3 : quiet s3) by done. destruct (quiet_tock s3 Q3) as [Ht3 Hok3]. pose proof Q3 as (_ & Hv3 & _).
  exists (log_sent (Resp (n_id n) 0 (42 + fd) 0) s3). split.
  - unfold send_response. rewrite (bind_ret tick _ s3 true s3) by (unfold tick; congruence). rewrite (bind_ret get _ s3 s3 s3 eq_refl). by rewrite Hv3.
  - unfold s3. cbn. rewrite Ha, Hs. split_and!; try done. lia.
Qed.
(** If the target's call is interrupted while the supervisor opens the file, the supervisor ends, with the
    descriptor open. *)
Example openat_interrupted_ends_supervisor : exists n s, s_valid s = true /\
  match handle_openat (fun _ _ _ _ => inl 5) n s with Exit (Err_sys m) s' => m = "SECCOMP_IOCTL_NOTIF_ADDFD" /\ s_fds s' = 1 | _ => False end.
Proof.
  exists (Notif 1 (SeccompData NR_openat_x86 AUDIT_ARCH_X86_64 0 [0; 0; 0; 0])).
  exists (blocked (fun _ => bytes "/tmp/a" ++ [NUL]) (replicate 4 (Turn [] true) ++ [Turn [EInterrupt] true]) (Sup false false (fun _ => []) None [] 0 (replicate 16 0) [] [] [])).
  split; [done|]. vm_compute. done.
Qed.
(** A name that leads out of [/tmp] by [..] has the prefix. *)
Example supervisor_leaves_tmp : call_answer (fun _ _ => None) (Call (Notif 1 (SeccompData NR_mkdir AUDIT_ARCH_X86_64 0 [0; 448])) (bytes "/tmp/../etc/x") []) =
  (Resp 1 0 13 0, [(bytes "/tmp/../etc/x", 448)]).
Proof. vm_compute. done. Qed.
(** A missing buffer for responses goes unnoticed. *)
Example resp_buffer_unchecked s : allocSeccompNotifBuffers (Some (80, 24)) 24 (fun size => size =? 80) s = Ret (80, None) s.
Proof. done. Qed.

(** ** seccomp_bench.c *)

Lemma bench_check i n : (i = BPF_STMT (Z.lor (Z.lor BPF_ALU BPF_ADD) BPF_K) 1 \/ i = jeq 0 0 0 \/ i = load 0) ->
  check_from (replicate n i ++ [ret SECCOMP_RET_ALLOW]) = true /\ check_from (replicate n i) = false /\ forall d a, bpf_run (S n) d (replicate n i ++ [ret SECCOMP_RET_ALLOW]) a = Some SECCOMP_RET_ALLOW.
Proof.
  intros Hi. induction n as [|n (IH1 & IH2 & IH3)]; [done|]. change (replicate (S n) i) with (i :: replicate n i). cbn [app].
  assert (Hl : Z.of_nat (length (replicate n i ++ [ret SECCOMP_RET_ALLOW])) = Z.of_nat n + 1) by (rewrite length_app, length_replicate; cbn; lia). set (rest := replicate n i ++ _) in *.
  destruct Hi as [->|[->| ->]]; cbn [check_from]; [change (decode (code (BPF_STMT _ 1))) with (Some OAdd)|change (decode (code (jeq 0 0 0))) with (Some (OCond CEq)); change (jt (jeq 0 0 0)) with 0; change (jf (jeq 0 0 0)) with 0|change (decode (code (load 0))) with (Some OLoad)]; cbn iota; rewrite IH1, IH2.
  - split_and!; [done|done|]. intros d a. apply IH3.
  - split_and!; [|apply andb_false_r|].
    + rewrite Hl. btrue (0 <? Z.of_nat n + 1). done.
    + intros d a. rewrite run_jeq. destruct (a =? 0); apply IH3.
  - split_and!; [done|apply andb_false_r|]. intros d a. apply IH3.
Qed.
(** The benchmark's filters are accepted exactly if they have at most 4096 instructions, however many are asked for, and allow everything. *)
Theorem bench_filters instr icnt o p o' : 0 <= icnt -> create_filter instr icnt o = Ret p o' ->
  bpf_check p = (icnt <? BPF_MAXINSNS) /\ (icnt < BPF_MAXINSNS -> forall d, bpf p d = Some SECCOMP_RET_ALLOW).
Proof.
  intros Hi H. unfold create_filter in H. set (m := if instr =? 97 then _ else _) in H. assert (Hm : (exists i, (i = BPF_STMT (Z.lor (Z.lor BPF_ALU BPF_ADD) BPF_K) 1 \/ i = jeq 0 0 0 \/ i = load 0) /\ m o = Ret i o) \/ m o = Exit (Exits 1) o).
  { unfold m. destruct (instr =? 97); [left; eexists; by split; [left|]|]. destruct (instr =? 106); [left; eexists; by split; [right; left|]|]. destruct (instr =? 108); [left; eexists; by split; [right; right|]|by right]. }
  destruct Hm as [(i & Hin & Em)|Em]; [|by rewrite (bind_exit _ _ _ _ _ Em) in H]. rewrite (bind_ret _ _ _ _ _ Em) in H. clearbody m. cbn zeta in H.
  replace (icnt + 1 <? 0) with false in H by (symmetry; apply Z.ltb_ge; lia). replace (icnt <? 0) with false in H by (symmetry; apply Z.ltb_ge; lia). injection H as <- _.
  destruct (bench_check i (Z.to_nat icnt) Hin) as (C1 & _ & R). destruct (Z.ltb_spec icnt BPF_MAXINSNS) as [Hlt|Hge]; unfold BPF_MAXINSNS in *.
  - rewrite Z.mod_small by lia. rewrite take_ge by (rewrite length_app, length_replicate; cbn; lia). split.
    + unfold bpf_check, BPF_MAXINSNS. rewrite C1, length_app, length_replicate. cbn [length]. by btrue (Z.of_nat (Z.to_nat icnt + 1) <=? 4096).
    + intros _ d. unfold bpf. rewrite length_app, length_replicate. cbn [length]. rewrite Nat.add_1_r. apply R.
  - split; [|lia]. pose proof (Z.mod_pos_bound (icnt + 1) (2 ^ 16) ltac:(lia)) as Hb. set (n := (icnt + 1) mod 2 ^ 16) in *. unfold bpf_check, BPF_MAXINSNS. apply andb_false_iff. destruct (Z.leb_spec n 4096) as [Hn|Hn]; [right|left].
    + rewrite take_app_le by (rewrite length_replicate; lia). rewrite take_replicate. by apply bench_check.
    + apply Z.leb_gt. rewrite length_take, length_app, length_replicate. cbn [length]. assert (n <= icnt + 1) by (apply Z.mod_le; lia). lia.
Qed.

(** Three calls; the second ends the supervisor. *)
Definition sample_call (p : string) : call := Call (Notif 7 (SeccompData NR_mkdir AUDIT_ARCH_X86_64 0 [4096; 448])) (bytes p) [].
Definition sample_sup : sup := Sup false false (fun _ => []) None [] 0 (replicate (Z.to_nat PATH_MAX) 0) [] [] [].
Lemma mkdir_session_witness : exists s', handleNotifications_mkdir (fun _ _ => None) 0 (map call_event [sample_call "/tmp/a"; sample_call "/bye"; sample_call "./b"]) sample_sup = Exit (Exits 1) s' /\
  s_sent s' = [Resp 7 0 6 0; Resp 7 (- EOPNOTSUPP) 0 0] /\ s_made s' = [(bytes "/tmp/a", 448)].
Proof.
  assert (Hok : Forall call_ok [sample_call "/tmp/a"; sample_call "/bye"; sample_call "./b"]) by (repeat constructor; vm_compute; done).
  destruct (proj2 (mkdir_session (fun _ _ => None) 0 _ sample_sup Hok ltac:(apply length_replicate))) as (s' & E & Hs & Hm).
  exists s'. split; [exact E|]. rewrite Hs, Hm. vm_compute. split; reflexivity.
Defined.
