(* ===== verification/Getopt.v ===== *)
(** [getopt(3)] for the option strings the programs of [src/tlpi-dist] use: letters, [:] after those
    that take an argument, [+] in front when the options end at the first operand.  Without [+]
    operands and options may be mixed and the operands are moved behind. *)
From S2P Require Import Prelude CStr.

Definition COLON : Z := 58.
Definition PLUS : Z := 43.
Definition MINUS : Z := 45.
Definition QUESTION : Z := 63.

(** Whether a letter is an option, and whether it takes an argument. *)
Fixpoint opt_kind (c : Z) (optstring : list Z) : option bool :=
  match optstring with
  | [] => None
  | x :: rest => if (x =? c) && negb (c =? COLON) then Some (bool_decide (head rest = Some COLON)) else opt_kind c rest
  end.

(** The letters of one word: what [getopt] returns with [optarg] for each, and the
    option that wants the next word. *)
Fixpoint cluster (optstring cs : list Z) : list (Z * list Z) * option Z :=
  match cs with
  | [] => ([], None)
  | c :: cs' =>
      match opt_kind c optstring with
      | None => let '(l, w) := cluster optstring cs' in ((QUESTION, []) :: l, w)
      | Some false => let '(l, w) := cluster optstring cs' in ((c, []) :: l, w)
      | Some true => match cs' with [] => ([], Some c) | _ => ([(c, cs')], None) end
      end
  end.

Section Getopt.
Context (plus : bool) (optstring : list Z).

(** All results of [getopt] on the words after the program's name, and the operands. *)
Fixpoint getopt_words (argv : list (list Z)) : list (Z * list Z) * list (list Z) :=
  match argv with
  | [] => ([], [])
  | a :: rest =>
      if bool_decide (a = [MINUS; MINUS]) then ([], rest) else
      match a with
      | 45 :: ((_ :: _) as cs) =>
          match cluster optstring cs with
          | (l, None) => let '(l', ops) := getopt_words rest in (l ++ l', ops)
          | (l, Some c) =>
              match rest with
              | [] => (l ++ [(QUESTION, [])], [])
              | arg :: rest' => let '(l', ops) := getopt_words rest' in (l ++ (c, arg) :: l', ops)
              end
          end
      | _ => if plus then ([], argv) else let '(l, ops) := getopt_words rest in (l, a :: ops)
      end
  end.
End Getopt.
(** [optstring] as the source writes it. *)
Definition getopt_tlpi (optstring : list Z) (argv : list (list Z)) : list (Z * list Z) * list (list Z) :=
  match optstring with
  | 43 :: o => getopt_words true o (tail argv)
  | o => getopt_words false o (tail argv)
  end.

(** ** Command lines in the usual form: each option in a word of its own, its argument in the next, operands last *)

Definition operand (w : list Z) : Prop := match w with 45 :: _ => False | _ => True end.
Lemma operand_word w : operand w -> forall {A} (f : list Z -> A) (d : A), w <> [MINUS; MINUS] /\
  match w with 45 :: ((_ :: _) as cs) => f cs | _ => d end = d.
Proof.
  intros H A f d. split; [by intros ->|]. destruct w as [|c w]; [done|].
  destruct c as [|p|p]; try done. repeat (destruct p as [p|p|]; try done).
Qed.
Lemma getopt_operands plus optstring ops : Forall operand ops -> getopt_words plus optstring ops = ([], ops).
Proof.
  induction 1 as [|w ops Hw _ IH]; [done|]. cbn [getopt_words].
  rewrite bool_decide_false by (by apply (operand_word w Hw (fun _ => tt) tt)).
  rewrite (proj2 (operand_word w Hw _ _)). by rewrite IH; destruct plus.
Qed.
Lemma getopt_flag plus optstring c rest : opt_kind c optstring = Some false -> c <> MINUS ->
  getopt_words plus optstring ([MINUS; c] :: rest) = ((c, []) :: (getopt_words plus optstring rest).1, (getopt_words plus optstring rest).2).
Proof.
  intros Hk Hc. cbn [getopt_words]. rewrite bool_decide_false by congruence. unfold MINUS. cbn [cluster]. rewrite Hk.
  by destruct (getopt_words plus optstring rest).
Qed.
Lemma getopt_arg plus optstring c arg rest : opt_kind c optstring = Some true -> c <> MINUS ->
  getopt_words plus optstring ([MINUS; c] :: arg :: rest) = ((c, arg) :: (getopt_words plus optstring rest).1, (getopt_words plus optstring rest).2).
Proof.
  intros Hk Hc. cbn [getopt_words]. rewrite bool_decide_false by congruence. unfold MINUS. cbn [cluster]. rewrite Hk.
  by destruct (getopt_words plus optstring rest).
Qed.
