(* ===== verification/NsCapable.v ===== *)
(** Which capabilities a process has in a namespace: [src/tlpi-dist/namespaces/ns_capable.c].

    The program opens the user namespaces of a process and of a target, walks from the target towards
    the initial user namespace with [NS_GET_PARENT], and prints what the rules of user_namespaces(7)
    say.  The kernel's namespaces, its [/proc] files and libcap are parameters. *)
From S2P Require Import Prelude CStr GetNum.

Definition EPERM : Z := 1.
Definition ENOENT : Z := 2.
Definition EBADF : Z := 9.
Definition EINVAL : Z := 22.
Definition EMFILE : Z := 24.
Definition ENOTTY : Z := 25.
Definition CLONE_NEWUSER : Z := 268435456.
Definition CLONE_NEWPID : Z := 536870912.

(** What a pathname leads to: a namespace or a file with contents. *)
Inductive node := NsNode (n : Z) | FileNode (contents : list Z).

(** The kernel: pathnames, the namespaces (identity as [fstat] tells it, type, parent, owning user
    namespace, user ID of the creator), which of them the caller may see (the descendants of its own), descriptors, and
    libcap's text of a process's capability sets.  User namespaces are nested at most 32 deep. *)
Class NsKernel := {
  k_path : list Z -> option node;
  ns_stat : Z -> Z * Z;
  file_stat : list Z -> Z * Z;
  ns_kind : Z -> Z;
  ns_up : Z -> option Z;
  ns_userns : Z -> Z;
  ns_owner : Z -> Z;
  ns_visible : Z -> bool;
  ns_level : Z -> nat;
  fd_limit : nat;
  k_newfd : gset Z -> option Z;
  cap_get_pid : Z -> option Z;
  cap_to_text : Z -> option (list Z);
  ns_stat_inj : forall a b, ns_stat a = ns_stat b -> a = b;
  ns_up_user : forall a b, ns_kind a = CLONE_NEWUSER -> ns_up a = Some b -> ns_kind b = CLONE_NEWUSER;
  ns_userns_user : forall a, ns_kind (ns_userns a) = CLONE_NEWUSER;
  ns_up_level : forall a b, ns_up a = Some b -> (ns_level b < ns_level a)%nat;
  ns_scope : forall a b, ns_up a = Some b -> ns_visible b = true -> ns_visible a = true;
  ns_level_max : forall a, (ns_level a <= 32)%nat;
  ns_owner_range : forall a, 0 <= ns_owner a < 2 ^ 32;
  k_newfd_fresh : forall X f, k_newfd X = Some f -> f ∉ X /\ 0 <= f;
  k_newfd_room : forall X, (size X < fd_limit)%nat -> is_Some (k_newfd X)
}.

(** The process: its descriptors and what it has written to the standard output. *)
Record nsproc := NsProc { np_fds : gmap Z node; np_out : list Z }.
Definition with_fds (f : gmap Z node -> gmap Z node) (s : nsproc) : nsproc := NsProc (f (np_fds s)) (np_out s).
Definition printf (bs : list Z) : M nsproc unit := modify (fun s => NsProc (np_fds s) (np_out s ++ bs)).

Section NsCapable.
Context `{K : NsKernel}.

(** ** System calls *)

(** A descriptor for [nd], or the error number. *)
Definition k_open_node (nd : node) : M nsproc (Z + Z) := fun s =>
  match k_newfd (dom (np_fds s)) with
  | Some f => Ret (inr f) (with_fds (insert f nd) s)
  | None => Ret (inl EMFILE) s
  end.
Definition k_open (path : list Z) : M nsproc (Z + Z) :=
  match k_path path with Some nd => k_open_node nd | None => mret (inl ENOENT) end.
Definition k_close (fd : Z) : M nsproc bool := fun s =>
  match np_fds s !! fd with
  | Some _ => Ret true (with_fds (delete fd) s)
  | None => Ret false s
  end.
Definition k_fstat (fd : Z) : M nsproc (option (Z * Z)) := fun s =>
  Ret (match np_fds s !! fd with
       | Some (NsNode n) => Some (ns_stat n)
       | Some (FileNode c) => Some (file_stat c)
       | None => None
       end) s.
(** The namespace a descriptor is for, or the error of an [ioctl] on it. *)
Definition ns_of (fd : Z) (s : nsproc) : Z + Z :=
  match np_fds s !! fd with
  | Some (NsNode n) => inr n
  | Some (FileNode _) => inl ENOTTY
  | None => inl EBADF
  end.
Definition ioctl_nstype (fd : Z) : M nsproc (Z + Z) := fun s =>
  Ret (match ns_of fd s with inr n => inr (ns_kind n) | inl e => inl e end) s.
Definition ioctl_userns (fd : Z) : M nsproc (Z + Z) := fun s =>
  match ns_of fd s with
  | inr n => if ns_visible (ns_userns n) then k_open_node (NsNode (ns_userns n)) s else Ret (inl EPERM) s
  | inl e => Ret (inl e) s
  end.
Definition ioctl_parent (fd : Z) : M nsproc (Z + Z) := fun s =>
  match ns_of fd s with
  | inr n =>
      if (ns_kind n =? CLONE_NEWUSER) || (ns_kind n =? CLONE_NEWPID) then
        match ns_up n with
        | Some p => if ns_visible p then k_open_node (NsNode p) s else Ret (inl EPERM) s
        | None => Ret (inl EPERM) s
        end
      else Ret (inl EINVAL) s
  | inl e => Ret (inl e) s
  end.
Definition ioctl_owner_uid (fd : Z) : M nsproc (Z + Z) := fun s =>
  Ret (match ns_of fd s with
       | inr n => if ns_kind n =? CLONE_NEWUSER then inr (ns_owner n) else inl EINVAL
       | inl e => inl e
       end) s.

(** ** The functions of the program *)

Definition display_process_capabilities (pid : Z) : M nsproc unit :=
  match cap_get_pid pid with
  | None => die (Err_sys "cap_get_proc")
  | Some caps =>
      match cap_to_text caps with
      | None => die (Err_sys "cap_to_text")
      | Some cap_string => printf (bytes "    Capabilities: " ++ cap_string ++ [NEWLINE])
      end
  end.

(** [sscanf(line, "Uid: %*d %d %*d %*d", &uid)] on a line that begins with [Uid:]; [None]: [uid]
    is not assigned.  The last two conversions assign nothing. *)
Definition scan_d (s : list Z) : option (Z * list Z) :=
  let t := skip_space s in
  let '((v, _), rest) := strtol t 10 in
  if decide (rest = t) then None else Some (swrap 32 v, rest).
Definition scan_uid (line : list Z) : option Z :=
  match scan_d (drop 4 line) with
  | None => None
  | Some (_, rest) => fst <$> scan_d rest
  end.
(** [strstr(line, "Uid:") == line] *)
Definition at_start (w line : list Z) : bool := bool_decide (take (length w) line = w).

Fixpoint euid_scan (fuel : nat) (fp : Z) (text : list Z) : M nsproc Z :=
  match fuel with
  | O => die Loops
  | S fuel =>
      match text with
      | [] => die (Exits 1)
      | _ =>
          let '(line, rest) := fgets 1023 text in
          if at_start (bytes "Uid:") (cstr line) then
            match scan_uid (cstr line) with
            | None => die (Undefined "uid is not initialised")
            | Some uid => k_close fp ;; mret (uwrap 32 uid)
            end
          else euid_scan fuel fp rest
      end
  end.
Definition proc_path (pid : Z) (file : string) : list Z := bytes "/proc/" ++ dec pid ++ bytes file.
(** Every call of [fgets] takes at least one byte: the length is fuel enough. *)
Definition euid_of_process (pid : Z) : M nsproc Z :=
  r ← k_open (proc_path pid "/status");
  match r with
  | inl _ => die (Err_sys "fopen-/proc/PID/status")
  | inr fp =>
      s ← get;
      match np_fds s !! fp with
      | Some (FileNode text) => euid_scan (S (length text)) fp text
      | _ => die (Exits 1)
      end
  end.

Definition ns_equal (nsfd1 nsfd2 : Z) : M nsproc bool :=
  sb1 ← k_fstat nsfd1;
  match sb1 with
  | None => die (Err_sys "fstat-nsfd1")
  | Some sb1 =>
      sb2 ← k_fstat nsfd2;
      match sb2 with
      | None => die (Err_sys "fstat-nsfd2")
      | Some sb2 => mret ((sb1.1 =? sb2.1) && (sb1.2 =? sb2.2))
      end
  end.
Definition ns_type (ns_fd : Z) : M nsproc Z :=
  r ← ioctl_nstype ns_fd;
  match r with inl _ => die (Err_sys "ioctl-NS_GET_NSTYPE") | inr t => mret t end.
Definition owning_userns_of (ns_fd : Z) : M nsproc Z :=
  r ← ioctl_userns ns_fd;
  match r with inl _ => die (Err_sys "ioctl-NS_GET_USERNS") | inr fd => mret fd end.
Definition uid_of_userns (userns_fd : Z) : M nsproc Z :=
  r ← ioctl_owner_uid userns_fd;
  match r with inl _ => die (Err_sys "ioctl-NS_GET_OWNER_UID") | inr uid => mret (swrap 32 uid) end.
(** [if (close(fd) == -1) errExit(msg)] *)
Definition close_or (msg : string) (fd : Z) : M nsproc unit :=
  ok ← k_close fd; if (ok : bool) then mret tt else die (Err_sys msg).

Fixpoint ancestor_loop (fuel : nat) (source_userns target_userns child : Z) : M nsproc Z :=
  match fuel with
  | O => die Loops
  | S fuel =>
      r ← ioctl_parent child;
      match r with
      | inl errno =>
          if negb (errno =? EPERM) then die (Err_sys "ioctl-NS_GET_PARENT") else
          when (negb (child =? target_userns)) (close_or "close(child)" child) ;;
          mret (-1)
      | inr parent =>
          eq ← ns_equal parent source_userns;
          if (eq : bool) then close_or "close(parent)" parent ;; mret child
          else
            when (negb (child =? target_userns)) (close_or "close(child) [loop]" child) ;;
            ancestor_loop fuel source_userns target_userns parent
      end
  end.
(** One turn for each level of nesting, and one for the initial namespace. *)
Definition is_ancestor_userns (source_userns target_userns : Z) : M nsproc Z :=
  ancestor_loop 33 source_userns target_userns target_userns.

Definition userns_from_pid (pid : Z) : M nsproc Z :=
  r ← k_open (proc_path pid "/ns/user");
  match r with inl _ => die (Err_sys "open-pid-userns") | inr fd => mret fd end.
Definition get_userns_from (arg : list Z) : M nsproc Z :=
  if isdigit (hd 0 arg) then userns_from_pid (atoi arg) else
  r ← k_open arg;
  match r with
  | inl _ => die (Err_sys "open-ns-file")
  | inr ns =>
      t ← ns_type ns;
      if t =? CLONE_NEWUSER then mret ns else
      userns ← owning_userns_of ns;
      close_or "close-ns" ns ;;
      mret userns
  end.

Definition msg_in (pid : Z) : list Z :=
  bytes "PID " ++ dec pid ++ bytes " is in the target namespace. Subject to LSM checks, it has the" ++ [NEWLINE] ++
  bytes "capabilities that are in its sets, which are:" ++ [NEWLINE; NEWLINE].
Definition msg_not_ancestor (pid : Z) : list Z :=
  bytes "PID " ++ dec pid ++ bytes " is not in an ancestor user namespace." ++ [NEWLINE] ++
  bytes "Therefore, it has no capabilities in the target namespace." ++ [NEWLINE].
Definition msg_ancestor (pid : Z) : list Z := bytes "PID " ++ dec pid ++ bytes " is in an ancestor user namespace".
Definition msg_owner (is_owner : bool) : list Z :=
  (if is_owner then bytes " and its effective UID matches" else bytes ", but its effective UID does not match") ++ [NEWLINE].
Definition msg_child : list Z := bytes "the owner of the immediate child user namespace of that ancestor namespace." ++ [NEWLINE].
Definition msg_all : list Z :=
  bytes "Therefore, subject to LSM checks, it has all capabilities in the target" ++ [NEWLINE] ++ bytes "namespace!" ++ [NEWLINE].
Definition msg_only : list Z :=
  bytes "Therefore, subject to LSM checks, it has only the capabilities that are in its" ++ [NEWLINE] ++
  bytes "sets, which are:" ++ [NEWLINE; NEWLINE].

Definition ns_main (argv : list (list Z)) : M nsproc unit :=
  match argv with
  | [_; a1; a2] =>
      let pid := atoi a1 in
      source_userns ← userns_from_pid pid;
      target_userns ← get_userns_from a2;
      eq ← ns_equal source_userns target_userns;
      (if (eq : bool) then
         printf (msg_in pid) ;;
         display_process_capabilities pid
       else
         child_userns ← is_ancestor_userns source_userns target_userns;
         if child_userns =? -1 then printf (msg_not_ancestor pid)
         else
           euid ← euid_of_process pid;
           owner ← uid_of_userns child_userns;
           let is_owner := euid =? uwrap 32 owner in
           printf (msg_ancestor pid) ;;
           printf (msg_owner is_owner) ;;
           printf msg_child ;;
           (if is_owner then printf msg_all
            else printf msg_only ;; display_process_capabilities pid) ;;
           when (negb (child_userns =? target_userns)) (close_or "close-child_userns" child_userns)) ;;
      close_or "close-target_userns" target_userns ;;
      close_or "close-source_userns" source_userns ;;
      die (Exits 0)
  | _ => die (Exits 1)
  end.
End NsCapable.

(** * The verdicts are those of the rules of user_namespaces(7) *)

Section Rules.
Context `{K : NsKernel}.

(** ** The rules *)

(** A process with the effective capabilities [eff] and the effective user ID [euid], in the user
    namespace [home], has the capability [c] in a user namespace: as a member; as the owner of a
    child of its namespace; or because it has it in the parent. *)
Inductive has_cap (eff : Z -> Prop) (home euid c : Z) : Z -> Prop :=
  | hc_member : eff c -> has_cap eff home euid c home
  | hc_owner n : ns_up n = Some home -> ns_owner n = euid -> has_cap eff home euid c n
  | hc_down n m : ns_up n = Some m -> has_cap eff home euid c m -> has_cap eff home euid c n.

Definition up (a b : Z) : Prop := ns_up a = Some b.
Lemma up_level a b : rtc up a b -> (ns_level b <= ns_level a)%nat.
Proof. induction 1 as [|a b c H _ IH]; [done|]. apply ns_up_level in H. lia. Qed.

Lemma has_cap_above eff home euid c n : has_cap eff home euid c n -> rtc up n home.
Proof.
  induction 1 as [H|n H _|n m H _ IH]; [apply rtc_refl|by apply rtc_once|].
  by eapply rtc_l.
Qed.
Lemma has_cap_below eff home euid c n m : rtc up n m -> has_cap eff home euid c m -> has_cap eff home euid c n.
Proof. induction 1 as [|n k m H _ IH]; [done|]. intros Hm. eapply hc_down; [exact H|]. by apply IH. Qed.
Lemma has_cap_cases eff home euid c t :
  has_cap eff home euid c t -> eff c \/ exists n, rtc up t n /\ up n home /\ ns_owner n = euid.
Proof.
  induction 1 as [H|n H Ho|n m H _ IH]; [by left|right; exists n; split_and!; [apply rtc_refl|done|done]|].
  destruct IH as [?|(k & H1 & H2 & H3)]; [by left|]. right. exists k. split_and!; try done. by eapply rtc_l.
Qed.

(** The namespace on the way from [t] up to [src] that is a child of [src]. *)
Fixpoint chain_child (fuel : nat) (src t : Z) : option Z :=
  match fuel with
  | O => None
  | S fuel =>
      match ns_up t with
      | Some p => if decide (p = src) then Some t else chain_child fuel src p
      | None => None
      end
  end.
Lemma chain_child_sound fuel src t n : chain_child fuel src t = Some n -> rtc up t n /\ up n src.
Proof.
  revert t. induction fuel as [|fuel IH]; intros t; cbn; [done|]. destruct (ns_up t) as [p|] eqn:E; [|done].
  destruct (decide (p = src)) as [->|]; [intros [= ->]; split; [apply rtc_refl|done]|].
  intros [H1 H2]%IH. split; [|done]. by eapply rtc_l.
Qed.
Lemma chain_child_complete fuel src t n :
  (ns_level t < fuel)%nat -> rtc up t n -> up n src -> chain_child fuel src t = Some n.
Proof.
  intros Hf H Hn. revert fuel Hf. induction H as [n|t p n H Hr IH]; intros [|fuel] Hf; cbn; try lia.
  - unfold up in Hn. rewrite Hn. by rewrite decide_True.
  - pose proof H as H'. unfold up in H'. rewrite H'. rewrite decide_False; [apply IH; [done|]; apply ns_up_level in H; lia|].
    intros ->. apply up_level in Hr. apply ns_up_level in Hn. lia.
Qed.
Lemma chain_child_none fuel src t :
  (ns_level t < fuel)%nat -> t <> src -> chain_child fuel src t = None -> ~ rtc up t src.
Proof.
  intros Hf Hne HN [?|(n & H1 & H2)]%rtc_inv_r; [done|].
  by rewrite (chain_child_complete fuel src t n Hf H1 H2) in HN.
Qed.

(** Whoever sees a namespace sees those below it. *)
Lemma seen_below a b : rtc up a b -> ns_visible b = true -> ns_visible a = true.
Proof. induction 1 as [|a b c H _ IH]; [done|]. intros Hc. eapply ns_scope; [exact H|]. by apply IH. Qed.
Lemma chain_child_hidden fuel src c p :
  ns_visible src = true -> ns_up c = Some p -> ns_visible p = false -> chain_child fuel src c = None.
Proof.
  intros Hs Hu Hp. destruct (chain_child fuel src c) as [n|] eqn:E; [|done]. apply chain_child_sound in E as [H1 H2].
  assert (rtc up p src) as Hr; [|by rewrite (seen_below _ _ Hr Hs) in Hp].
  apply rtc_inv in H1 as [->|(k & Hk & H1)]; unfold up in *; simplify_eq; [apply rtc_refl|by eapply rtc_r].
Qed.

(** What the rules give in the three situations the program tells apart. *)
Lemma cap_member eff home euid c : has_cap eff home euid c home <-> eff c.
Proof.
  split; [|by apply hc_member]. intros [?|(n & H1 & H2 & _)]%has_cap_cases; [done|].
  apply up_level in H1. apply ns_up_level in H2. lia.
Qed.
Lemma cap_owner fuel eff home euid c t n :
  chain_child fuel home t = Some n -> ns_owner n = euid -> has_cap eff home euid c t.
Proof.
  intros [H1 H2]%chain_child_sound Ho. eapply has_cap_below; [exact H1|]. by apply hc_owner.
Qed.
Lemma cap_not_owner fuel eff home euid c t n :
  (ns_level t < fuel)%nat -> chain_child fuel home t = Some n -> ns_owner n <> euid -> has_cap eff home euid c t <-> eff c.
Proof.
  intros Hf Hc Ho. split.
  - intros [?|(k & H1 & H2 & H3)]%has_cap_cases; [done|].
    rewrite (chain_child_complete fuel home t k Hf H1 H2) in Hc. congruence.
  - intros He. apply chain_child_sound in Hc as [H1 H2]. eapply has_cap_below; [|by apply hc_member].
    by eapply rtc_r.
Qed.

(** ** The calls *)

Implicit Types s : nsproc.
Notation room n s := (size (np_fds s) + n <= fd_limit)%nat.

Lemma open_node_run nd s : room 1 s -> exists f,
  np_fds s !! f = None /\ 0 <= f /\ k_open_node nd s = Ret (inr f) (NsProc (<[f := nd]> (np_fds s)) (np_out s)).
Proof.
  intros Hr. unfold k_open_node. destruct (k_newfd_room (dom (np_fds s))) as [f E]; [rewrite size_dom; lia|].
  rewrite E. destruct (k_newfd_fresh _ _ E) as [H1 H2]. exists f. split_and!; [by apply not_elem_of_dom|done|done].
Qed.
Lemma nsclose_run msg fd nd s : np_fds s !! fd = Some nd -> close_or msg fd s = Ret tt (NsProc (delete fd (np_fds s)) (np_out s)).
Proof. intros H. unfold close_or, k_close, mbind, M_bind. by rewrite H. Qed.
Lemma ns_equal_run a b x y s :
  np_fds s !! a = Some (NsNode x) -> np_fds s !! b = Some (NsNode y) -> ns_equal a b s = Ret (bool_decide (x = y)) s.
Proof.
  intros Ha Hb. unfold ns_equal, k_fstat, mbind, M_bind. rewrite Ha, Hb. unfold mret, M_ret. f_equal.
  apply eq_iff_eq_true. rewrite andb_true_iff, !Z.eqb_eq, bool_decide_eq_true. split; [|by intros ->].
  intros [H1 H2]. apply ns_stat_inj. by apply injective_projections.
Qed.
Lemma parent_none_run fd n s :
  np_fds s !! fd = Some (NsNode n) -> ns_kind n = CLONE_NEWUSER -> ns_up n = None -> ioctl_parent fd s = Ret (inl EPERM) s.
Proof. intros H Hk Hu. unfold ioctl_parent, ns_of. by rewrite H, Hk, Hu. Qed.
Lemma parent_hidden_run fd n p s :
  np_fds s !! fd = Some (NsNode n) -> ns_kind n = CLONE_NEWUSER -> ns_up n = Some p -> ns_visible p = false ->
  ioctl_parent fd s = Ret (inl EPERM) s.
Proof. intros H Hk Hu Hv. unfold ioctl_parent, ns_of. by rewrite H, Hk, Hu, Hv. Qed.
Lemma parent_some_run fd n p s :
  np_fds s !! fd = Some (NsNode n) -> ns_kind n = CLONE_NEWUSER -> ns_up n = Some p -> ns_visible p = true ->
  ioctl_parent fd s = k_open_node (NsNode p) s.
Proof. intros H Hk Hu Hv. unfold ioctl_parent, ns_of. by rewrite H, Hk, Hu, Hv. Qed.

(** ** The walk *)

(** The descriptor [fd] is for the namespace [n], and beside it the descriptors are those of [base],
    where [tgt] is one. *)
Definition holding (base : gmap Z node) (tgt fd n : Z) (fds : gmap Z node) : Prop :=
  0 <= fd /\ (fd = tgt /\ fds = base /\ base !! tgt = Some (NsNode n) \/
             base !! fd = None /\ fds = <[fd := NsNode n]> base).
Lemma holding_lookup base tgt fd n fds : holding base tgt fd n fds -> fds !! fd = Some (NsNode n).
Proof. intros [_ [(-> & -> & H)|[_ ->]]]; [done|by rewrite lookup_insert_eq]. Qed.
Lemma holding_base base tgt fd n fds k nd : holding base tgt fd n fds -> base !! k = Some nd -> fds !! k = Some nd.
Proof. intros [_ [(-> & -> & _)|[H ->]]] Hk; [done|]. rewrite lookup_insert_ne; [done|congruence]. Qed.
Lemma holding_size base tgt fd n fds : holding base tgt fd n fds -> (size fds <= S (size base))%nat.
Proof. intros [_ [(-> & -> & _)|[H ->]]]; [lia|]. by rewrite map_size_insert_None. Qed.
(** Letting go of it. *)
Lemma holding_close msg base tgt fd n fds out nd : base !! tgt = Some nd -> holding base tgt fd n fds ->
  when (negb (fd =? tgt)) (close_or msg fd) (NsProc fds out) = Ret tt (NsProc base out).
Proof.
  intros Ht H. pose proof (holding_lookup _ _ _ _ _ H) as Hl. destruct H as [_ [(-> & -> & _)|[Hn ->]]].
  - by rewrite Z.eqb_refl.
  - destruct (Z.eqb_spec fd tgt) as [->|]; [congruence|]. cbn [negb when].
    rewrite (nsclose_run msg fd _ (NsProc (<[fd := NsNode n]> base) out) Hl). cbn [np_fds np_out]. by rewrite delete_insert_id.
Qed.
(** [close_or] of a descriptor that [holding] has put beside a state. *)
Lemma nsclose_new msg fds f nd out : fds !! f = None ->
  close_or msg f (NsProc (<[f := nd]> fds) out) = Ret tt (NsProc fds out).
Proof.
  intros H. rewrite (nsclose_run msg f nd) by apply lookup_insert_eq. cbn [np_fds np_out]. by rewrite delete_insert_id.
Qed.

Lemma ancestor_loop_run src sfd tgt base fuel : forall c child s,
  ns_visible src = true ->
  base !! sfd = Some (NsNode src) -> is_Some (base !! tgt) -> (size base + 2 <= fd_limit)%nat ->
  (ns_level c < fuel)%nat -> ns_kind c = CLONE_NEWUSER -> holding base tgt child c (np_fds s) ->
  match chain_child fuel src c with
  | Some n => exists fd fds, ancestor_loop fuel sfd tgt child s = Ret fd (NsProc fds (np_out s)) /\ holding base tgt fd n fds
  | None => ancestor_loop fuel sfd tgt child s = Ret (-1) (NsProc base (np_out s))
  end.
Proof.
  induction fuel as [|fuel IH]; intros c child [fds out] Hv Hs [nd Ht] Hr Hl Hk Hh; [lia|]. cbn [np_fds np_out] in *.
  pose proof (holding_lookup _ _ _ _ _ Hh) as Hc. pose proof (holding_size _ _ _ _ _ Hh) as Hsz.
  destruct (ns_up c) as [p|] eqn:Hu; [destruct (ns_visible p) eqn:Hp|].
  - cbn [chain_child ancestor_loop]. rewrite Hu.
    destruct (open_node_run (NsNode p) (NsProc fds out)) as (f & Hf & Hf0 & Ho); [cbn [np_fds]; lia|]. cbn [np_fds np_out] in Hf, Ho.
    rewrite <- (parent_some_run child c p (NsProc fds out) Hc Hk Hu Hp) in Ho. run Ho.
    pose proof (holding_base _ _ _ _ _ _ _ Hh Hs) as Hs'.
    run (ns_equal_run f sfd p src (NsProc (<[f := NsNode p]> fds) out) (lookup_insert_eq _ _ _) ltac:(cbn [np_fds]; rewrite lookup_insert_ne by congruence; exact Hs')).
    case_decide as Hps; [rewrite bool_decide_true by done|rewrite bool_decide_false by done].
    + run (nsclose_new "close(parent)" fds f (NsNode p) out Hf). by exists child, fds.
    + assert (when (negb (child =? tgt)) (close_or "close(child) [loop]" child) (NsProc (<[f := NsNode p]> fds) out)
                 = Ret tt (NsProc (<[f := NsNode p]> base) out) /\ base !! f = None) as [Hw Hbf].
      { destruct Hh as [_ [(-> & -> & _)|[Hn ->]]]; [by rewrite Z.eqb_refl|].
        destruct (Z.eqb_spec child tgt) as [->|]; [congruence|]. cbn [negb when].
        assert (f <> child) by (intros ->; by rewrite lookup_insert_eq in Hf).
        rewrite lookup_insert_ne in Hf by done. split; [|done].
        rewrite (nsclose_run _ child (NsNode c)) by (cbn [np_fds]; by rewrite lookup_insert_ne, lookup_insert_eq).
        cbn [np_fds np_out]. by rewrite insert_insert_ne, delete_insert_id by (done || by rewrite lookup_insert_ne). }
      run Hw. apply (IH p f (NsProc (<[f := NsNode p]> base) out)); try done.
      * apply ns_up_level in Hu. lia.
      * by eapply ns_up_user.
      * split; [done|]. by right.
  - rewrite (chain_child_hidden _ _ _ _ Hv Hu Hp). cbn [ancestor_loop].
    run (parent_hidden_run child c p (NsProc fds out) Hc Hk Hu Hp). change (EPERM =? EPERM) with true. cbn [negb].
    by run (holding_close "close(child)" base tgt child c fds out nd Ht Hh).
  - cbn [chain_child ancestor_loop]. rewrite Hu.
    run (parent_none_run child c (NsProc fds out) Hc Hk Hu). change (EPERM =? EPERM) with true. cbn [negb].
    by run (holding_close "close(child)" base tgt child c fds out nd Ht Hh).
Qed.

(** ** The effective user ID *)

Definition TAB : Z := 9.
(** The part of a status file that matters: lines that are not the record looked for, that record, the rest. *)
Definition uid_line (r e sv f : Z) : list Z :=
  bytes "Uid:" ++ [TAB] ++ dec r ++ [TAB] ++ dec e ++ [TAB] ++ dec sv ++ [TAB] ++ dec f.
Definition status_text (pre : list (list Z)) (r e sv f : Z) (rest : list Z) : list Z :=
  concat (map (fun l => l ++ [NEWLINE]) pre) ++ uid_line r e sv f ++ NEWLINE :: rest.
Definition other_line (l : list Z) : Prop :=
  nonul l /\ Forall (fun b => b <> NEWLINE) l /\ (length l < 1023)%nat /\ at_start (bytes "Uid:") (l ++ [NEWLINE]) = false.
Definition id32 (v : Z) : Prop := 0 <= v < 2 ^ 32.

Lemma wrap_round v : id32 v -> uwrap 32 (swrap 32 v) = v.
Proof.
  intros H. unfold id32, uwrap, swrap in *. rewrite (Z.mod_small v) by done. case_match; bsimp; [by apply Z.mod_small|].
  replace (v - 2 ^ 32) with (v + (-1) * 2 ^ 32) by lia. rewrite Z.mod_add by lia. by apply Z.mod_small.
Qed.
Lemma scan_d_dec v c r : id32 v -> digit_val c <? 10 = false -> scan_d (TAB :: dec v ++ c :: r) = Some (swrap 32 v, c :: r).
Proof.
  intros H Hc. unfold scan_d. cbn [skip_space]. change (isspace TAB) with true. cbn iota.
  destruct (udec_head v ltac:(unfold id32 in H; lia)) as (d & l & E & Hd & Hf). rewrite <- dec_nonneg in E by (unfold id32 in H; lia).
  rewrite skip_space_digit by (by rewrite E). rewrite strtol_dec_stop by (done || (unfold id32, LONG_MAX in *; lia)).
  rewrite decide_False; [done|]. rewrite E. intros Heq. apply (f_equal length) in Heq. cbn in Heq. rewrite length_app in Heq. cbn in Heq. lia.
Qed.
Lemma scan_uid_line r e sv f b : id32 r -> id32 e -> scan_uid (uid_line r e sv f ++ b) = Some (swrap 32 e).
Proof.
  intros Hr He. unfold scan_uid, uid_line. rewrite <- !app_assoc. cbn [bytes app drop].
  rewrite (scan_d_dec r TAB) by done. cbn iota beta. by rewrite (scan_d_dec e TAB).
Qed.
Lemma id32_dec v : id32 v -> nonul (dec v) /\ Forall (fun b => b <> NEWLINE) (dec v) /\ (length (dec v) <= 10)%nat.
Proof.
  intros H. unfold id32 in H. split_and!; [apply dec_nonul; lia| |apply dec_length_le; lia].
  eapply Forall_impl; [apply dec_isdigit; lia|]. intros x Hx%isdigit_range. unfold NEWLINE. lia.
Qed.
Lemma uid_line_ok r e sv f : id32 r -> id32 e -> id32 sv -> id32 f ->
  nonul (uid_line r e sv f) /\ Forall (fun b => b <> NEWLINE) (uid_line r e sv f) /\ (length (uid_line r e sv f) < 1023)%nat.
Proof.
  intros (R1 & R2 & R3)%id32_dec (E1 & E2 & E3)%id32_dec (S1 & S2 & S3)%id32_dec (F1 & F2 & F3)%id32_dec.
  unfold uid_line, nonul in *. rewrite !Forall_app. split_and!; try done; try by repeat constructor.
  rewrite !length_app. cbn. lia.
Qed.

Lemma cstr_fgets l : nonul l -> cstr (l ++ [NEWLINE]) = l ++ [NEWLINE].
Proof. intros H. apply cstr_id, nonul_app. split; [done|]. by repeat constructor. Qed.
Lemma euid_scan_run pre r e sv f rest fp nd s : forall fuel,
  Forall other_line pre -> id32 r -> id32 e -> id32 sv -> id32 f -> np_fds s !! fp = Some nd -> (length pre < fuel)%nat ->
  euid_scan fuel fp (status_text pre r e sv f rest) s = Ret e (NsProc (delete fp (np_fds s)) (np_out s)).
Proof.
  unfold status_text. induction pre as [|l pre IH]; intros [|fuel] Hp Hr He Hs Hf Hfp Hfu; cbn [length] in Hfu; try lia; cbn [euid_scan map concat].
  - destruct (uid_line_ok r e sv f Hr He Hs Hf) as (N1 & N2 & N3). cbn [app].
    rewrite (fgets_line 1023 (uid_line r e sv f) rest N2 N3).
    destruct (uid_line r e sv f ++ NEWLINE :: rest) as [|x l] eqn:E; [by destruct (uid_line r e sv f)|]. clear E.
    rewrite cstr_fgets by done. rewrite scan_uid_line by done.
    replace (at_start (bytes "Uid:") (uid_line r e sv f ++ [NEWLINE])) with true by done.
    unfold k_close, mbind, M_bind. rewrite Hfp. unfold with_fds, mret, M_ret. by rewrite wrap_round.
  - apply Forall_cons in Hp as [(L1 & L2 & L3 & L4) Hp]. rewrite <- !app_assoc. cbn [app].
    rewrite (fgets_line 1023 l _ L2 L3). rewrite cstr_fgets, L4 by done.
    assert (euid_scan fuel fp (concat (map (fun l => l ++ [NEWLINE]) pre) ++ uid_line r e sv f ++ NEWLINE :: rest) s = Ret e (NsProc (delete fp (np_fds s)) (np_out s))) as E by (apply IH; (done || lia)).
    destruct l; exact E.
Qed.
Lemma euid_run pid pre r e sv f rest s :
  k_path (proc_path pid "/status") = Some (FileNode (status_text pre r e sv f rest)) ->
  Forall other_line pre -> id32 r -> id32 e -> id32 sv -> id32 f -> room 1 s ->
  euid_of_process pid s = Ret e s.
Proof.
  intros Hk Hp Hr He Hs Hf Hroom. unfold euid_of_process, k_open. rewrite Hk.
  destruct (open_node_run (FileNode (status_text pre r e sv f rest)) s Hroom) as (fd & H1 & H2 & Ho). run Ho.
  rewrite (bind_ret get _ _ _ _ eq_refl). cbn [np_fds]. rewrite lookup_insert_eq.
  rewrite (euid_scan_run pre r e sv f rest fd (FileNode (status_text pre r e sv f rest))); try done.
  - cbn [np_fds np_out]. rewrite delete_insert_id by done. by destruct s.
  - cbn [np_fds]. apply lookup_insert_eq.
  - unfold status_text. rewrite length_app.
    assert (length pre <= length (concat (map (fun l => l ++ [NEWLINE]) pre)))%nat; [|lia].
    clear. induction pre as [|l pre IH]; cbn; [lia|]. rewrite !length_app. cbn. lia.
Qed.

(** ** The arguments *)

(** The user namespace an argument is for: that of a process, a user namespace itself, or the owner of another namespace. *)
Definition names_userns (arg : list Z) (t : Z) : Prop :=
  if isdigit (hd 0 arg) then k_path (proc_path (atoi arg) "/ns/user") = Some (NsNode t) /\ ns_kind t = CLONE_NEWUSER
  else exists n, k_path arg = Some (NsNode n) /\
       (ns_kind n = CLONE_NEWUSER /\ t = n \/ ns_kind n <> CLONE_NEWUSER /\ t = ns_userns n /\ ns_visible t = true).
Lemma names_userns_kind arg t : names_userns arg t -> ns_kind t = CLONE_NEWUSER.
Proof.
  unfold names_userns. destruct (isdigit _); [by intros [_ ?]|].
  intros (n & _ & [[? ->]|(_ & -> & _)]); [done|apply ns_userns_user].
Qed.

Lemma userns_from_pid_run pid n s : k_path (proc_path pid "/ns/user") = Some (NsNode n) -> room 1 s -> exists f,
  np_fds s !! f = None /\ 0 <= f /\ userns_from_pid pid s = Ret f (NsProc (<[f := NsNode n]> (np_fds s)) (np_out s)).
Proof.
  intros Hk Hr. destruct (open_node_run (NsNode n) s Hr) as (f & H1 & H2 & Ho). exists f. split_and!; try done.
  unfold userns_from_pid, k_open. rewrite Hk. by run Ho.
Qed.
Lemma get_userns_run arg t s : names_userns arg t -> room 2 s -> exists f,
  np_fds s !! f = None /\ 0 <= f /\ get_userns_from arg s = Ret f (NsProc (<[f := NsNode t]> (np_fds s)) (np_out s)).
Proof.
  unfold names_userns, get_userns_from. intros Hn Hr. destruct (isdigit (hd 0 arg)).
  { destruct Hn as [Hn _]. apply userns_from_pid_run; [done|lia]. }
  destruct Hn as (n & Hk & Hn). unfold k_open. rewrite Hk.
  destruct (open_node_run (NsNode n) s) as (f & H1 & H2 & Ho); [lia|].
  destruct Hn as [[Hu ->]|(Hu & -> & Hv)].
  - exists f. split_and!; try done. run Ho. unfold ns_type, ioctl_nstype, ns_of, mbind, M_bind. cbn [np_fds].
    by rewrite lookup_insert_eq, Hu.
  - destruct (open_node_run (NsNode (ns_userns n)) (NsProc (<[f := NsNode n]> (np_fds s)) (np_out s))) as (g & G1 & G2 & Go).
    { cbn [np_fds]. rewrite map_size_insert_None by done. lia. }
    cbn [np_fds np_out] in *. assert (g <> f) by (intros ->; by rewrite lookup_insert_eq in G1).
    rewrite lookup_insert_ne in G1 by done. exists g. split_and!; try done. run Ho.
    assert (Ht : ns_type f (NsProc (<[f := NsNode n]> (np_fds s)) (np_out s)) = Ret (ns_kind n) (NsProc (<[f := NsNode n]> (np_fds s)) (np_out s))).
    { unfold ns_type, ioctl_nstype, ns_of, mbind, M_bind. cbn [np_fds]. by rewrite lookup_insert_eq. }
    run Ht. bfalse (ns_kind n =? CLONE_NEWUSER).
    assert (Hw : owning_userns_of f (NsProc (<[f := NsNode n]> (np_fds s)) (np_out s)) = Ret g (NsProc (<[g := NsNode (ns_userns n)]> (<[f := NsNode n]> (np_fds s))) (np_out s))).
    { unfold owning_userns_of, ioctl_userns, ns_of, mbind, M_bind. cbn [np_fds]. by rewrite lookup_insert_eq, Hv, Go. }
    run Hw. rewrite insert_insert_ne by done. by run (nsclose_new "close-ns" (<[g := NsNode (ns_userns n)]> (np_fds s)) f (NsNode n) (np_out s) ltac:(by rewrite lookup_insert_ne)).
Qed.

(** ** The verdict *)

Inductive verdict := Member | NotAncestor | OwnerOfChild | NotOwner.
Definition report (pid : Z) (caps : list Z) (v : verdict) : list Z :=
  let sets := bytes "    Capabilities: " ++ caps ++ [NEWLINE] in
  match v with
  | Member => msg_in pid ++ sets
  | NotAncestor => msg_not_ancestor pid
  | OwnerOfChild => msg_ancestor pid ++ msg_owner true ++ msg_child ++ msg_all
  | NotOwner => msg_ancestor pid ++ msg_owner false ++ msg_child ++ msg_only ++ sets
  end.
(** What a report tells of a process of [home] with [euid] in [t] is so. *)
Definition verdict_right (home euid t : Z) (v : verdict) : Prop :=
  match v with
  | Member => home = t /\ forall eff c, has_cap eff home euid c t <-> eff c
  | NotAncestor => ~ rtc up t home /\ forall eff c, ~ has_cap eff home euid c t
  | OwnerOfChild => home <> t /\ rtc up t home /\ forall eff c, has_cap eff home euid c t
  | NotOwner => home <> t /\ rtc up t home /\ forall eff c, has_cap eff home euid c t <-> eff c
  end.
Definition verdict_of (home euid t : Z) : verdict :=
  if decide (home = t) then Member else
  match chain_child 33 home t with
  | None => NotAncestor
  | Some n => if ns_owner n =? euid then OwnerOfChild else NotOwner
  end.
Lemma verdict_of_right home euid t : verdict_right home euid t (verdict_of home euid t).
Proof.
  assert (Hl : (ns_level t < 33)%nat) by (pose proof (ns_level_max t); lia).
  unfold verdict_of. case_decide as Ht; [subst; split; [done|intros; apply cap_member]|].
  destruct (chain_child 33 home t) as [n|] eqn:E.
  - pose proof (chain_child_sound _ _ _ _ E) as [H1 H2]. assert (rtc up t home) by (by eapply rtc_r).
    destruct (Z.eqb_spec (ns_owner n) euid); split_and!; try done; intros eff c; [by eapply cap_owner|by eapply cap_not_owner].
  - assert (~ rtc up t home) by (by apply (chain_child_none 33)). split; [done|]. by intros eff c ?%has_cap_above.
Qed.

Lemma printf_run bs s : printf bs s = Ret tt (NsProc (np_fds s) (np_out s ++ bs)).
Proof. done. Qed.
Lemma display_run pid cs caps s : cap_get_pid pid = Some cs -> cap_to_text cs = Some caps ->
  display_process_capabilities pid s = Ret tt (NsProc (np_fds s) (np_out s ++ bytes "    Capabilities: " ++ caps ++ [NEWLINE])).
Proof. intros H1 H2. unfold display_process_capabilities. by rewrite H1, H2. Qed.
Lemma uid_of_userns_run fd n s : np_fds s !! fd = Some (NsNode n) -> ns_kind n = CLONE_NEWUSER ->
  uid_of_userns fd s = Ret (swrap 32 (ns_owner n)) s.
Proof. intros H Hk. unfold uid_of_userns, ioctl_owner_uid, ns_of, mbind, M_bind. by rewrite H, Hk. Qed.
Lemma under_kind t n : rtc up t n -> ns_kind t = CLONE_NEWUSER -> ns_kind n = CLONE_NEWUSER.
Proof. induction 1 as [|a b c H _ IH]; [done|]. intros Ha. apply IH. by eapply ns_up_user. Qed.

(** Every parameter of a run in which nothing is refused. *)
Record situation (argv : list (list Z)) (home euid t : Z) (caps : list Z) (s : nsproc) : Prop := {
  st_args : exists a0 a1 a2 cs, argv = [a0; a1; a2] /\
    k_path (proc_path (atoi a1) "/ns/user") = Some (NsNode home) /\ names_userns a2 t /\
    cap_get_pid (atoi a1) = Some cs /\ cap_to_text cs = Some caps /\
    exists pre r sv f rest, k_path (proc_path (atoi a1) "/status") = Some (FileNode (status_text pre r euid sv f rest)) /\
      Forall other_line pre /\ id32 r /\ id32 sv /\ id32 f;
  st_euid : id32 euid;
  st_seen : ns_visible home = true;
  st_room : (size (np_fds s) + 4 <= fd_limit)%nat
}.

Lemma ns_main_run argv home euid t caps s : situation argv home euid t caps s ->
  exists a1, argv !! 1%nat = Some a1 /\
  ns_main argv s = Exit (Exits 0) (NsProc (np_fds s) (np_out s ++ report (atoi a1) caps (verdict_of home euid t))).
Proof.
  intros [(a0 & a1 & a2 & cs & -> & Hhome & Ht & Hcap & Htext & pre & r & sv & f & rest & Hst & Hpre & Hr & Hsv & Hf) He Hv Hroom].
  exists a1. split; [done|]. unfold ns_main.
  destruct (userns_from_pid_run _ home s Hhome) as (sfd & S1 & S2 & Sr); [lia|]. run Sr.
  set (b1 := <[sfd := NsNode home]> (np_fds s)). assert (Z1 : size b1 = S (size (np_fds s))) by (by apply map_size_insert_None).
  destruct (get_userns_run a2 t (NsProc b1 (np_out s)) Ht) as (tfd & T1 & T2 & Tr); [cbn [np_fds]; lia|]. run Tr. cbn [np_fds np_out] in *.
  set (b2 := <[tfd := NsNode t]> b1). assert (Z2 : size b2 = S (S (size (np_fds s)))) by (rewrite <- Z1; by apply map_size_insert_None).
  assert (tfd <> sfd) by (intros ->; unfold b1 in T1; by rewrite lookup_insert_eq in T1).
  assert (Hs2 : b2 !! sfd = Some (NsNode home)) by (unfold b2, b1; by rewrite lookup_insert_ne, lookup_insert_eq).
  assert (Ht2 : b2 !! tfd = Some (NsNode t)) by (by apply lookup_insert_eq).
  run (ns_equal_run sfd tfd home t (NsProc b2 (np_out s)) Hs2 Ht2).
  assert (Hend : forall (m : M nsproc unit) out', m (NsProc b2 (np_out s)) = Ret tt (NsProc b2 out') ->
    (m ;; close_or "close-target_userns" tfd ;; close_or "close-source_userns" sfd ;; die (Exits 0)) (NsProc b2 (np_out s))
    = (Exit (Exits 0) (NsProc (np_fds s) out') : outcome nsproc unit)).
  { intros m out' Hm. run Hm. run (nsclose_new "close-target_userns" b1 tfd (NsNode t) out' T1).
    by run (nsclose_new "close-source_userns" (np_fds s) sfd (NsNode home) out' S1). }
  unfold verdict_of. case_decide as Heq; [rewrite bool_decide_true by done|rewrite bool_decide_false by done]; apply Hend.
  { run (printf_run (msg_in (atoi a1)) (NsProc b2 (np_out s))). rewrite (display_run _ cs caps) by done. cbn [np_fds np_out]. by rewrite <- app_assoc. }
  assert (Hh : holding b2 tfd tfd t b2) by (split; [done|]; by left).
  pose proof (ancestor_loop_run home sfd tfd b2 33 t tfd (NsProc b2 (np_out s)) Hv Hs2 (mk_is_Some _ _ Ht2) ltac:(lia)
    ltac:(pose proof (ns_level_max t); lia) (names_userns_kind _ _ Ht) Hh) as Hloop.
  change (ancestor_loop 33 sfd tfd tfd) with (is_ancestor_userns sfd tfd) in Hloop. cbn [np_out] in Hloop.
  destruct (chain_child 33 home t) as [n|] eqn:Ec; [|by run Hloop].
  destruct Hloop as (fd & fds & Hl & Hh2). run Hl. apply chain_child_sound in Ec as [Ec1 Ec2].
  assert (0 <= fd) by apply Hh2. bfalse (fd =? -1). pose proof (holding_size _ _ _ _ _ Hh2).
  run (euid_run _ pre r euid sv f rest (NsProc fds (np_out s)) Hst Hpre Hr He Hsv Hf ltac:(cbn [np_fds]; lia)).
  run (uid_of_userns_run fd n (NsProc fds (np_out s)) (holding_lookup _ _ _ _ _ Hh2) (under_kind _ _ Ec1 (names_userns_kind _ _ Ht))).
  rewrite wrap_round by apply ns_owner_range. rewrite (Z.eqb_sym euid).
  do 3 (rewrite (bind_ret _ _ _ _ _ (printf_run _ _)); cbn [np_fds np_out]).
  destruct (ns_owner n =? euid).
  - rewrite (bind_ret _ _ _ _ _ (printf_run _ _)); cbn [np_fds np_out].
    rewrite (holding_close _ b2 tfd fd n fds _ _ Ht2 Hh2). unfold report. by rewrite <- !app_assoc.
  - assert (Hm : forall out, (printf msg_only ;; display_process_capabilities (atoi a1)) (NsProc fds out)
      = Ret tt (NsProc fds ((out ++ msg_only) ++ bytes "    Capabilities: " ++ caps ++ [NEWLINE]))).
    { intros out. run (printf_run msg_only (NsProc fds out)). by rewrite (display_run _ cs caps). }
    rewrite (bind_ret _ _ _ _ _ (Hm _)). rewrite (holding_close _ b2 tfd fd n fds _ _ Ht2 Hh2). unfold report. by rewrite <- !app_assoc.
Qed.

(** C31: [ns_capable PID target], run where no call is refused and in whose scope the namespace of the
    process lies, prints one of its four reports and exits with status 0 and the descriptors
    it had; and the report is right by the rules of user_namespaces(7): told that it has the
    capabilities of its sets, the process has in the target's user namespace just those; told that it
    has all, it has every one; told that it has none, it has none. *)
Theorem ns_capable_verdict argv home euid t caps s : situation argv home euid t caps s ->
  exists a1 v, argv !! 1%nat = Some a1 /\ verdict_right home euid t v /\
  ns_main argv s = Exit (Exits 0) (NsProc (np_fds s) (np_out s ++ report (atoi a1) caps v)).
Proof.
  intros H. destruct (ns_main_run _ _ _ _ _ _ H) as (a1 & Ha & Hrun).
  exists a1, (verdict_of home euid t). split_and!; [done|apply verdict_of_right|done].
Qed.

(** [is_ancestor_userns]: the loop always ends, whatever the descriptors are for. *)
Lemma ancestor_loop_ends fuel sfd tgt child s s' :
  (forall n, np_fds s !! child = Some (NsNode n) -> (ns_level n < fuel)%nat) -> (0 < fuel)%nat ->
  ancestor_loop fuel sfd tgt child s <> Exit Loops s'.
Proof.
  revert child s. induction fuel as [|fuel IH]; intros child s Hc Hf; [lia|]. cbn [ancestor_loop].
  unfold mbind, M_bind at 1. unfold ioctl_parent, ns_of.
  assert (He : forall e s1, (if negb (e =? EPERM) then die (Err_sys "ioctl-NS_GET_PARENT") else
     when (negb (child =? tgt)) (close_or "close(child)" child) ;; mret (-1)) s1 <> Exit Loops s').
  { intros e s1. unfold when, close_or, k_close, mbind, M_bind, mret, M_ret, die. repeat case_match; congruence. }
  destruct (np_fds s !! child) as [[n|]|] eqn:Ec; try apply He. specialize (Hc n eq_refl).
  destruct (_ || _); [|apply He]. destruct (ns_up n) as [p|] eqn:Hu; [|apply He]. destruct (ns_visible p); [|apply He].
  unfold k_open_node. destruct (k_newfd _) as [f|]; [|apply He]. apply ns_up_level in Hu.
  unfold ns_equal, k_fstat, mbind, M_bind, with_fds. cbn [np_fds]. rewrite lookup_insert_eq.
  destruct (match _ !! sfd with Some _ => _ | None => _ end) as [sb2|]; [|done]. cbn [mret M_ret].
  unfold mret, M_ret. destruct (_ && _).
  - unfold close_or, k_close, mbind, M_bind, mret, M_ret, die. repeat case_match; congruence.
  - unfold when. destruct (negb (child =? tgt)) eqn:Et.
    + unfold close_or, k_close, mbind, M_bind. cbn [np_fds]. destruct (<[f := NsNode p]> (np_fds s) !! child); [|done].
      unfold mret, M_ret. apply IH; [|lia]. unfold with_fds. cbn [np_fds]. intros m Hm. apply lookup_delete_Some in Hm as [_ Hm].
      rewrite lookup_insert_eq in Hm. simplify_eq. lia.
    + unfold mret, M_ret. apply IH; [|lia]. cbn [np_fds]. intros m Hm. rewrite lookup_insert_eq in Hm. simplify_eq. lia.
Qed.
End Rules.

(** The walk up from a target ends for every state of the descriptors. *)
Lemma is_ancestor_ends `{K : NsKernel} sfd tgt s s' : is_ancestor_userns sfd tgt s <> Exit Loops s'.
Proof. apply ancestor_loop_ends; [|lia]. intros n _. pose proof (ns_level_max n). lia. Qed.

(** ** A system

    The user namespaces 0, 1 within it and 2 within 1; the network namespace 3 belongs to 2; process 5 is in 0. *)
Module NsDemo.
Definition newfd (X : gset Z) : option Z := head (filter (fun f => f ∉ X) (seqZ 0 64)).
Lemma newfd_fresh X f : newfd X = Some f -> f ∉ X /\ 0 <= f.
Proof. intros H. apply head_Some_elem_of, list_elem_of_filter in H as [H1 H2]. apply elem_of_seqZ in H2. split; [done|lia]. Qed.
Lemma newfd_room X : (size X < 64)%nat -> is_Some (newfd X).
Proof.
  intros Hs. unfold newfd. destruct (filter (fun f => f ∉ X) (seqZ 0 64)) as [|f l] eqn:E; [|by eexists].
  exfalso. assert (Hsub : list_to_set (C := gset Z) (seqZ 0 64) ⊆ X).
  { intros f Hf. apply elem_of_list_to_set in Hf. destruct (decide (f ∈ X)); [done|].
    assert (f ∈ @nil Z) as [] % not_elem_of_nil. rewrite <- E. by apply list_elem_of_filter. }
  apply subseteq_size in Hsub. rewrite size_list_to_set in Hsub by apply NoDup_seqZ. rewrite length_seqZ in Hsub. lia.
Qed.
Definition parent (n : Z) : option Z := if n =? 1 then Some 0 else if n =? 2 then Some 1 else None.
Definition level (n : Z) : nat := if n =? 1 then 1 else if n =? 2 then 2 else 0.
Definition kind (n : Z) : Z := if n =? 3 then 1073741824 else CLONE_NEWUSER.
Definition owner (n : Z) : Z := if n =? 1 then 1000 else 0.
Definition status : list Z := status_text [bytes "Name: sh"] 1000 1000 1000 1000 (bytes "Gid: 0" ++ [NEWLINE]).
Definition path (p : list Z) : option node :=
  if bool_decide (p = bytes "/proc/5/ns/user") then Some (NsNode 0)
  else if bool_decide (p = bytes "/proc/5/status") then Some (FileNode status)
  else if bool_decide (p = bytes "/net") then Some (NsNode 3) else None.
#[local] Obligation Tactic := idtac.
#[local] Program Instance kernel : NsKernel := {|
  k_path := path; ns_stat n := (4, n); file_stat c := (9, Z.of_nat (length c)); ns_kind := kind; ns_up := parent;
  ns_userns _ := 2; ns_owner := owner; ns_visible _ := true; ns_level := level; fd_limit := 64; k_newfd := newfd;
  cap_get_pid _ := Some 0; cap_to_text _ := Some (bytes "=") |}.
Next Obligation. by intros a b [=]. Qed.
Next Obligation. unfold kind, parent. intros a b Ha Hb. repeat case_match; simplify_eq; done. Qed.
Next Obligation. done. Qed.
Next Obligation. unfold level, parent. intros a b H. repeat case_match; simplify_eq; bsimp; subst; try lia; done. Qed.
Next Obligation. done. Qed.
Next Obligation. unfold level. intros a. repeat case_match; lia. Qed.
Next Obligation. unfold owner. intros a. case_match; lia. Qed.
Next Obligation. apply newfd_fresh. Qed.
Next Obligation. apply newfd_room. Qed.
Definition argv : list (list Z) := [bytes "ns_capable"; bytes "5"; bytes "/net"].
Lemma demo_situation : situation argv 0 1000 2 (bytes "=") (NsProc ∅ []).
Proof.
  split; [|unfold id32; lia|done|by vm_compute; lia].
  exists (bytes "ns_capable"), (bytes "5"), (bytes "/net"), 0. split_and!; try done.
  - unfold names_userns. change (isdigit (hd 0 (bytes "/net"))) with false. cbn iota. exists 3. split; [done|]. by right.
  - exists [bytes "Name: sh"], 1000, 1000, 1000, (bytes "Gid: 0" ++ [NEWLINE]). split; [by vm_compute|]. split_and!; try (unfold id32; lia).
    constructor; [|constructor]. split_and!; [by repeat constructor|by repeat constructor|cbn; lia|by vm_compute].
Qed.
End NsDemo.

#[local] Existing Instance NsDemo.kernel.
Lemma ns_capable_verdict_witness : exists a1 v, NsDemo.argv !! 1%nat = Some a1 /\ verdict_right 0 1000 2 v /\
  ns_main NsDemo.argv (NsProc ∅ []) = Exit (Exits 0) (NsProc ∅ (report (atoi a1) (bytes "=") v)).
Proof. apply (ns_capable_verdict NsDemo.argv 0 1000 2 (bytes "=") (NsProc ∅ [])). exact NsDemo.demo_situation. Defined.
