(* ===== verification/AclUpdate.v ===== *)
(** Changing access control lists: [src/tlpi-dist/acl/acl_update.c] and the conversions of
    [src/tlpi-dist/users_groups/ugid_functions.c].

    libacl and the user database are parameters; the laws libacl documents are the class [LibaclLaws]. *)
From S2P Require Import Prelude CStr GetNum Getopt.

Definition ACL_USER_OBJ : Z := 1.
Definition ACL_USER : Z := 2.
Definition ACL_GROUP_OBJ : Z := 4.
Definition ACL_GROUP : Z := 8.
Definition ACL_MASK : Z := 16.
Definition ACL_OTHER : Z := 32.
Definition ACL_EXECUTE : Z := 1.
Definition ACL_WRITE : Z := 2.
Definition ACL_READ : Z := 4.

(** ** The user and group databases *)

Class NameDb := { getpwnam : list Z -> option Z; getgrnam : list Z -> option Z }.

Definition id_from_name (lookup : list Z -> option Z) (name : list Z) : Z :=
  match name with
  | [] => uwrap 32 (-1)
  | _ =>
      let '((u, _), endptr) := strtol name 10 in
      if decide (endptr = []) then uwrap 32 u else
      match lookup name with None => uwrap 32 (-1) | Some id => id end
  end.
Definition userIdFromName `{NameDb} (name : list Z) : Z := id_from_name getpwnam name.
Definition groupIdFromName `{NameDb} (name : list Z) : Z := id_from_name getgrnam name.

(** ** Specifications of entries *)

(** [struct AccessControlEntry]; [perms] is not assigned where none are given. *)
Record AccessControlEntry := Ace { tag : Z; qual : Z; perms : option Z }.

(** What the messages on the standard error complain of. *)
Inductive spec_error :=
  | MissingColon | PermsNotAllowed | PermsRequired | BadTag | BadUser | BadGroup | BadPermChar | TooManyEntries.

Fixpoint parse_perms (acc : Z) (p : list Z) : spec_error + Z :=
  match p with
  | [] => inr acc
  | c :: p' =>
      if c =? 114 then parse_perms (Z.lor acc ACL_READ) p'
      else if c =? 119 then parse_perms (Z.lor acc ACL_WRITE) p'
      else if c =? 120 then parse_perms (Z.lor acc ACL_EXECUTE) p'
      else if negb (c =? 45) then inl BadPermChar
      else parse_perms acc p'
  end.

Section Parsing.
Context `{D : NameDb}.

Definition parse_tag (t : list Z) (hasQual : bool) : option Z :=
  if bool_decide (t = bytes "u") || bool_decide (t = bytes "user") then Some (if hasQual then ACL_USER else ACL_USER_OBJ)
  else if bool_decide (t = bytes "g") || bool_decide (t = bytes "group") then Some (if hasQual then ACL_GROUP else ACL_GROUP_OBJ)
  else if bool_decide (t = bytes "o") || bool_decide (t = bytes "other") then Some ACL_OTHER
  else if bool_decide (t = bytes "m") || bool_decide (t = bytes "mask") then Some ACL_MASK
  else None.
Definition parse_qual (tg : Z) (q : list Z) : spec_error + Z :=
  if tg =? ACL_USER then let id := userIdFromName q in if id =? uwrap 32 (-1) then inl BadUser else inr id
  else if tg =? ACL_GROUP then let id := groupIdFromName q in if id =? uwrap 32 (-1) then inl BadGroup else inr id
  else inr 0.

Definition parseEntrySpec (entryStr : list Z) (permsReqd : bool) : spec_error + AccessControlEntry :=
  match split_at COLON entryStr with
  | None => inl MissingColon
  | Some (t, after) =>
      let hasQual := match after with [] => false | c :: _ => negb (c =? COLON) end in
      let '(q, p) := match split_at COLON after with Some (q, p) => (q, p) | None => (after, []) end in
      let hasPerms := bool_decide (p <> []) in
      if hasPerms && negb permsReqd then inl PermsNotAllowed
      else if negb hasPerms && permsReqd then inl PermsRequired
      else
        match parse_tag t hasQual with
        | None => inl BadTag
        | Some tg =>
            match parse_qual tg q with
            | inl e => inl e
            | inr id =>
                if hasPerms then
                  match parse_perms 0 p with inl e => inl e | inr v => inr (Ace tg id (Some v)) end
                else inr (Ace tg id None)
            end
        end
  end.

Definition MAX_ENTRIES : Z := 10000.
(** [n]: the entries parsed before; every turn takes a comma from the string. *)
Fixpoint parseACL_loop (fuel : nat) (n : Z) (nextEntry : list Z) (permsReqd : bool) : spec_error + list AccessControlEntry :=
  match fuel with
  | O => inl TooManyEntries
  | S fuel =>
      if MAX_ENTRIES <=? n then inl TooManyEntries else
      match split_at COMMA nextEntry with
      | None => match parseEntrySpec nextEntry permsReqd with inl e => inl e | inr a => inr [a] end
      | Some (entry, rest) =>
          match parseEntrySpec entry permsReqd with
          | inl e => inl e
          | inr a => match parseACL_loop fuel (n + 1) rest permsReqd with inl e => inl e | inr l => inr (a :: l) end
          end
      end
  end.
Definition parseACL (aclStr : list Z) (permsReqd : bool) : spec_error + list AccessControlEntry :=
  parseACL_loop (S (length aclStr)) 0 aclStr permsReqd.
End Parsing.

(** ** libacl *)

(** An entry of an ACL in memory, and what identifies it: the tag, with the qualifier where the tag has one. *)
Record aclent := Aclent { ae_tag : Z; ae_qual : Z; ae_perms : Z }.
Definition has_qual (t : Z) : bool := (t =? ACL_USER) || (t =? ACL_GROUP).
Definition akey (t q : Z) : Z * Z := (t, if has_qual t then q else 0).
Definition key_of (e : aclent) : Z * Z := akey (ae_tag e) (ae_qual e).
(** An ACL as a file has it. *)
Notation facl := (gmap (Z * Z) Z).
(** An ACL in memory: its entries under their handles. *)
Notation macl := (gmap Z aclent).

(** The functions: [acl_get_file] on a file that has an ACL, the order in which [acl_get_entry] goes through the
    entries, a new handle, [acl_calc_mask], [acl_valid], what [acl_set_file] stores, whether
    [acl_delete_def_file] succeeds.  [None]: the call fails. *)
Class Libacl := {
  acl_get_file : list Z -> bool -> facl -> option macl;
  acl_order : macl -> list Z;
  acl_create_entry : macl -> option Z;
  acl_calc_mask : macl -> option macl;
  acl_valid : macl -> bool;
  acl_set_file : list Z -> bool -> macl -> option facl;
  acl_delete_def_file : list Z -> bool
}.

(** ** Changing an ACL *)

(** The ACLs of the files, access ([false]) and default ([true]) ones, and the ACL in memory. *)
Record aclproc := AclProc { ap_files : gmap (list Z * bool) facl; ap_acl : macl }.
Definition set_acl (a : macl) (s : aclproc) : aclproc := AclProc (ap_files s) a.

Inductive Operation := unspecifiedOp | modifyEntries | removeEntries | removeDefaultACL | checkValidACL.
#[export] Instance Operation_eq_dec : EqDecision Operation.
Proof. solve_decision. Defined.

Section Update.
Context `{D : NameDb} `{L : Libacl}.

(** [acl_get_entry] from the first entry on. *)
Fixpoint findEntry_loop (hs : list Z) (tg qaul : Z) : M aclproc (option Z) :=
  match hs with
  | [] => mret None
  | h :: hs' =>
      s ← get;
      match ap_acl s !! h with
      | None => die (Err_sys "acl_get_tag_type")
      | Some e =>
          if tg =? ae_tag e then
            if tg =? ACL_USER then if qaul =? ae_qual e then mret (Some h) else findEntry_loop hs' tg qaul
            else if tg =? ACL_GROUP then if qaul =? ae_qual e then mret (Some h) else findEntry_loop hs' tg qaul
            else mret (Some h)
          else findEntry_loop hs' tg qaul
      end
  end.
Definition findEntry (tg qaul : Z) : M aclproc (option Z) :=
  s ← get; findEntry_loop (acl_order (ap_acl s)) tg qaul.

(** A call that changes the entry [h]. *)
Definition on_entry (msg : string) (h : Z) (f : aclent -> aclent) : M aclproc unit := fun s =>
  match ap_acl s !! h with
  | None => Exit (Err_sys msg) s
  | Some e => Ret tt (set_acl (<[h := f e]> (ap_acl s)) s)
  end.
Definition perm_on (p b : Z) : bool := negb (Z.land p b =? 0).
Definition setPerms (h p : Z) : M aclproc unit :=
  let permset := 0 in
  let permset := if perm_on p ACL_READ then Z.lor permset ACL_READ else permset in
  let permset := if perm_on p ACL_WRITE then Z.lor permset ACL_WRITE else permset in
  let permset := if perm_on p ACL_EXECUTE then Z.lor permset ACL_EXECUTE else permset in
  on_entry "acl_set_permset" h (fun e => Aclent (ae_tag e) (ae_qual e) permset).

Definition create_entry (tg q : Z) : M aclproc Z := fun s =>
  match acl_create_entry (ap_acl s) with
  | None => Exit (Err_sys "acl_create_entry") s
  | Some h =>
      (modify (fun s => set_acl (<[h := Aclent 0 0 0]> (ap_acl s)) s) ;;
       on_entry "acl_set_tag_type" h (fun e => Aclent tg (ae_qual e) (ae_perms e)) ;;
       when (has_qual tg) (on_entry "acl_set_qualifier" h (fun e => Aclent (ae_tag e) q (ae_perms e))) ;;
       mret h) s
  end.

Definition change_entry (operation : Operation) (a : AccessControlEntry) : M aclproc unit :=
  entry ← findEntry (tag a) (qual a);
  if decide (operation = removeEntries) then
    match entry with
    | None => mret tt
    | Some h => modify (fun s => set_acl (delete h (ap_acl s)) s)
    end
  else
    h ← match entry with Some h => mret h | None => create_entry (tag a) (qual a) end;
    match perms a with
    | None => die (Undefined "perms is not initialised")
    | Some p => setPerms h p
    end.
Definition store_acl (file : list Z) (ty recalcMask : bool) : M aclproc unit := fun s =>
  match (if recalcMask then acl_calc_mask (ap_acl s) else Some (ap_acl s)) with
  | None => Exit (Err_sys "acl_calc_mask") s
  | Some a =>
      if negb (acl_valid a) then Exit (Err_sys "acl_valid") (set_acl a s) else
      match acl_set_file file ty a with
      | None => Exit (Err_sys "acl_set_file") (set_acl a s)
      | Some f => Ret tt (AclProc (<[(file, ty) := f]> (ap_files s)) a)
      end
  end.
Fixpoint update_entries (file : list Z) (ty : bool) (aclist : list AccessControlEntry) (operation : Operation) (recalcMask : bool) : M aclproc unit :=
  match aclist with
  | [] => mret tt
  | a :: aclist' =>
      change_entry operation a ;;
      store_acl file ty recalcMask ;;
      update_entries file ty aclist' operation recalcMask
  end.
Definition updateACL (file : list Z) (useDefaultACL : bool) (aclist : list AccessControlEntry) (operation : Operation) (recalcMask : bool) : M aclproc unit :=
  s ← get;
  match ap_files s !! (file, useDefaultACL) ≫= acl_get_file file useDefaultACL with
  | None => die (Err_sys "acl_get_file")
  | Some acl =>
      modify (set_acl acl) ;;
      update_entries file useDefaultACL aclist operation recalcMask ;;
      modify (set_acl ∅)
  end.

(** ** [main] *)

Record acl_options := AclOptions { ao_op : Operation; ao_spec : list Z; ao_cnt : Z; ao_default : bool; ao_mask : bool }.
Definition acl_option (o : Z * list Z) (x : acl_options) : option acl_options :=
  let '(opt, optarg) := o in
  if opt =? 109 then Some (AclOptions modifyEntries optarg (ao_cnt x + 1) (ao_default x) (ao_mask x))
  else if opt =? 120 then Some (AclOptions removeEntries optarg (ao_cnt x + 1) (ao_default x) (ao_mask x))
  else if opt =? 107 then Some (AclOptions removeDefaultACL (ao_spec x) (ao_cnt x + 1) (ao_default x) (ao_mask x))
  else if opt =? 86 then Some (AclOptions checkValidACL optarg (ao_cnt x + 1) (ao_default x) (ao_mask x))
  else if opt =? 100 then Some (AclOptions (ao_op x) (ao_spec x) (ao_cnt x) true (ao_mask x))
  else if opt =? 110 then Some (AclOptions (ao_op x) (ao_spec x) (ao_cnt x) (ao_default x) false)
  else None.
Fixpoint acl_options_loop (l : list (Z * list Z)) (x : acl_options) : option acl_options :=
  match l with
  | [] => Some x
  | o :: l' => match acl_option o x with None => None | Some x' => acl_options_loop l' x' end
  end.

Fixpoint acl_files (o : acl_options) (aclist : list AccessControlEntry) (files : list (list Z)) : M aclproc unit :=
  match files with
  | [] => mret tt
  | f :: files' =>
      match ao_op o with
      | removeDefaultACL =>
          if acl_delete_def_file f then modify (fun s => AclProc (<[(f, true) := ∅]> (ap_files s)) (ap_acl s))
          else die (Err_sys "acl_delete_def_file: %s")
      | modifyEntries | removeEntries => updateACL f (ao_default o) aclist (ao_op o) (ao_mask o)
      | _ => die (Exits 1)
      end ;;
      acl_files o aclist files'
  end.
Definition acl_main (argv : list (list Z)) : M aclproc unit :=
  match argv with
  | [] | [_] => die (Exits 1)
  | _ :: a1 :: _ =>
      if bool_decide (a1 = bytes "--help") then die (Exits 1) else
      let '(opts, files) := getopt_tlpi (bytes "m:x:kdnV:") argv in
      match acl_options_loop opts (AclOptions unspecifiedOp [] 0 false true) with
      | None => die (Exits 1)
      | Some o =>
          if negb (ao_cnt o =? 1) then die (Exits 1) else
          if bool_decide (ao_op o = checkValidACL) && ao_default o then die (Exits 1) else
          match ao_op o with
          | checkValidACL =>
              match parseACL (ao_spec o) true with inl _ => die (Exits 1) | inr _ => die (Exits 0) end
          | modifyEntries | removeEntries =>
              match parseACL (ao_spec o) (bool_decide (ao_op o = modifyEntries)) with
              | inl _ => die (Exits 1)
              | inr aclist => acl_files o aclist files ;; die (Exits 0)
              end
          | _ => acl_files o [] files ;; die (Exits 0)
          end
      end
  end.
End Update.

(** * The changes, on ACLs as maps from tags and qualifiers to permissions *)

(** ** ACLs as maps *)

(** The ACL in memory holds the entries of the map, each once. *)
Definition repr (a : macl) (m : facl) : Prop :=
  (forall k p, m !! k = Some p <-> exists h e, a !! h = Some e /\ key_of e = k /\ ae_perms e = p) /\
  (forall h h' e e', a !! h = Some e -> a !! h' = Some e' -> key_of e = key_of e' -> h = h').

(** The mask is the union of the permissions of the entries it limits. *)
Definition masked (t : Z) : bool := (t =? ACL_USER) || (t =? ACL_GROUP) || (t =? ACL_GROUP_OBJ).
Definition mask_perms (m : facl) : Z := map_fold (fun k p acc => if masked k.1 then Z.lor p acc else acc) 0 m.
Definition with_mask (m : facl) : facl := <[(ACL_MASK, 0) := mask_perms m]> m.
Definition has_entry (m : facl) (t : Z) : bool := bool_decide (is_Some (m !! (t, 0))).
(** acl_valid(3): the three entries every ACL has, and a mask when there are named users or groups. *)
Definition valid_acl (m : facl) : bool :=
  has_entry m ACL_USER_OBJ && has_entry m ACL_GROUP_OBJ && has_entry m ACL_OTHER &&
  (has_entry m ACL_MASK || bool_decide (map_Forall (fun k _ => has_qual k.1 = false) m)).

(** What libacl documents. *)
Class LibaclLaws (L : Libacl) := {
  get_repr : forall f t m a, acl_get_file f t m = Some a -> repr a m;
  order_elem : forall a h, h ∈ acl_order a <-> is_Some (a !! h);
  create_fresh : forall a h, acl_create_entry a = Some h -> a !! h = None;
  mask_repr : forall a a' m, acl_calc_mask a = Some a' -> repr a m -> repr a' (with_mask m);
  valid_repr : forall a m, repr a m -> acl_valid a = valid_acl m;
  set_repr : forall f t a m m', acl_set_file f t a = Some m' -> repr a m -> m' = m
}.
(** Only the entries of named users and groups have qualifiers. *)
Definition facl_ok (m : facl) : Prop := map_Forall (fun k _ => akey k.1 k.2 = k) m.
(** No call is refused: the files can be read and changed, there is memory. *)
Definition nothing_refused (L : Libacl) : Prop :=
  (forall f t m, facl_ok m -> is_Some (acl_get_file f t m)) /\ (forall a, is_Some (acl_create_entry a)) /\
  (forall a, is_Some (acl_calc_mask a)) /\ (forall f t a, is_Some (acl_set_file f t a)).

(** What is to become of an ACL: after every entry the mask is computed anew if that is wanted, and an ACL that is
    not valid ends the work. *)
Definition step (op : Operation) (recalc : bool) (a : AccessControlEntry) (m : facl) : facl :=
  let m' := if decide (op = removeEntries) then delete (akey (tag a) (qual a)) m
            else <[akey (tag a) (qual a) := default 0 (perms a)]> m in
  if recalc then with_mask m' else m'.
Fixpoint steps (op : Operation) (recalc : bool) (l : list AccessControlEntry) (m : facl) : facl * bool :=
  match l with
  | [] => (m, true)
  | a :: l' => let m' := step op recalc a m in if valid_acl m' then steps op recalc l' m' else (m, false)
  end.
(** Entries as [parseACL] makes them for an operation. *)
Definition entry_for (op : Operation) (a : AccessControlEntry) : Prop :=
  akey (tag a) (qual a) = (tag a, qual a) /\
  (op <> removeEntries -> exists p, perms a = Some p /\ 0 <= p < 8).

(** ** Representations *)

Lemma repr_lookup a m h e : repr a m -> a !! h = Some e -> m !! key_of e = Some (ae_perms e).
Proof. intros [H _] He. apply H. by exists h, e. Qed.
Lemma repr_delete a m h e : repr a m -> a !! h = Some e -> repr (delete h a) (delete (key_of e) m).
Proof.
  intros [H1 H2] He. split.
  - intros k p. rewrite lookup_delete_Some, H1. split.
    + intros (Hk & h' & e' & Ha & <- & <-). exists h', e'. split_and!; try done. apply lookup_delete_Some. split; [|done]. congruence.
    + intros (h' & e' & [Hh Ha]%lookup_delete_Some & <- & <-). split; [|by exists h', e']. intros Hk. by eapply Hh, H2.
  - intros h1 h2 e1 e2 [_ ?]%lookup_delete_Some [_ ?]%lookup_delete_Some. by apply H2.
Qed.
Lemma repr_insert a m h e : repr a m -> (forall h' e', a !! h' = Some e' -> key_of e' = key_of e -> h' = h) ->
  (forall e', a !! h = Some e' -> key_of e' = key_of e) -> repr (<[h := e]> a) (<[key_of e := ae_perms e]> m).
Proof.
  intros [H1 H2] Hu Hs. split.
  - intros k p. rewrite lookup_insert_Some. split.
    + intros [[<- <-]|[Hk Hm]]; [exists h, e; by rewrite lookup_insert_eq|].
      apply H1 in Hm as (h' & e' & Ha & <- & <-). exists h', e'. split_and!; try done.
      apply lookup_insert_Some. right. split; [|done]. intros ->. by apply Hk; symmetry; apply Hs.
    + intros (h' & e' & [[-> ->]|[Hh Ha]]%lookup_insert_Some & <- & <-); [by left|].
      destruct (decide (key_of e = key_of e')) as [E|E]; [by destruct Hh; symmetry; eapply Hu|].
      right. split; [done|]. apply H1. by exists h', e'.
  - intros h1 h2 e1 e2 [[<- <-]|[? ?]]%lookup_insert_Some [[<- <-]|[? ?]]%lookup_insert_Some E; try done.
    + symmetry. by eapply Hu.
    + by eapply Hu.
    + by eapply H2.
Qed.

Section Theorems.
Context `{D : NameDb} `{L : Libacl} `{!LibaclLaws L}.
Implicit Types s : aclproc.

(** ** [findEntry] *)

Lemma findEntry_loop_run tg q s hs : akey tg q = (tg, q) -> Forall (fun h => is_Some (ap_acl s !! h)) hs ->
  match findEntry_loop hs tg q s with
  | Ret (Some h) s' => s' = s /\ h ∈ hs /\ exists e, ap_acl s !! h = Some e /\ key_of e = (tg, q)
  | Ret None s' => s' = s /\ forall h e, h ∈ hs -> ap_acl s !! h = Some e -> key_of e <> (tg, q)
  | Exit _ _ => False
  end.
Proof.
  intros Hk. unfold akey in Hk. injection Hk as Hk. induction 1 as [|h hs [e He] _ IH]; cbn [findEntry_loop].
  { unfold mret, M_ret. split; [done|]. by intros h e ?%not_elem_of_nil. }
  rewrite (bind_ret get _ s s s eq_refl), He.
  assert (Hno : key_of e <> (tg, q) -> match findEntry_loop hs tg q s with
    | Ret (Some h') s' => s' = s /\ h' ∈ h :: hs /\ exists e, ap_acl s !! h' = Some e /\ key_of e = (tg, q)
    | Ret None s' => s' = s /\ forall h' e, h' ∈ h :: hs -> ap_acl s !! h' = Some e -> key_of e <> (tg, q)
    | Exit _ _ => False
    end).
  { intros Hne. destruct (findEntry_loop hs tg q s) as [[h'|] s'|]; [| |done].
    - destruct IH as (-> & Hin & Hex). split_and!; [done|by apply elem_of_cons; right|done].
    - destruct IH as (-> & Hall). split; [done|]. intros h' e' [->|Hin]%elem_of_cons He'; [congruence|by eapply Hall]. }
  assert (Hyes : key_of e = (tg, q) -> match (mret (Some h) : M aclproc (option Z)) s with
    | Ret (Some h') s' => s' = s /\ h' ∈ h :: hs /\ exists e, ap_acl s !! h' = Some e /\ key_of e = (tg, q)
    | Ret None s' => s' = s /\ forall h' e, h' ∈ h :: hs -> ap_acl s !! h' = Some e -> key_of e <> (tg, q)
    | Exit _ _ => False
    end).
  { intros E. unfold mret, M_ret. split_and!; [done|by apply elem_of_cons; left|by exists e]. }
  unfold key_of, akey, has_qual in *. destruct (Z.eqb_spec tg (ae_tag e)) as [Et|]; [|apply Hno; congruence]. rewrite <- Et in *.
  destruct (Z.eqb_spec tg ACL_USER); cbn [orb] in *; [destruct (Z.eqb_spec q (ae_qual e)); [apply Hyes|apply Hno]; congruence|].
  destruct (Z.eqb_spec tg ACL_GROUP); cbn [orb] in *; [destruct (Z.eqb_spec q (ae_qual e)); [apply Hyes|apply Hno]; congruence|].
  apply Hyes. congruence.
Qed.
Lemma findEntry_run tg q s m : akey tg q = (tg, q) -> repr (ap_acl s) m ->
  exists r, findEntry tg q s = Ret r s /\
  match r with
  | Some h => exists e, ap_acl s !! h = Some e /\ key_of e = (tg, q)
  | None => m !! (tg, q) = None
  end.
Proof.
  intros Hk Hr. unfold findEntry. rewrite (bind_ret get _ s s s eq_refl).
  pose proof (findEntry_loop_run tg q s (acl_order (ap_acl s)) Hk) as H.
  destruct (findEntry_loop (acl_order (ap_acl s)) tg q s) as [r s'|].
  - destruct r as [h|].
    + destruct H as (-> & _ & He); [apply Forall_forall; intros; by apply order_elem|]. by exists (Some h).
    + destruct H as (-> & Hall); [apply Forall_forall; intros; by apply order_elem|]. exists None. split; [done|].
      destruct (m !! (tg, q)) as [p|] eqn:Em; [|done]. apply Hr in Em as (h & e & He & Hke & _).
      exfalso. eapply Hall; [|exact He|exact Hke]. by apply order_elem.
  - exfalso. apply H. apply Forall_forall. intros. by apply order_elem.
Qed.

(** ** One entry *)

Lemma setPerms_run h p e s : 0 <= p < 8 -> ap_acl s !! h = Some e ->
  setPerms h p s = Ret tt (set_acl (<[h := Aclent (ae_tag e) (ae_qual e) p]> (ap_acl s)) s).
Proof.
  intros Hp He. unfold setPerms, on_entry. rewrite He. repeat f_equal.
  assert (p = 0 \/ p = 1 \/ p = 2 \/ p = 3 \/ p = 4 \/ p = 5 \/ p = 6 \/ p = 7) as Hc by lia.
  by repeat destruct Hc as [->|Hc]; [..|subst].
Qed.
Lemma create_entry_run tg q s h : acl_create_entry (ap_acl s) = Some h ->
  create_entry tg q s = Ret h (set_acl (<[h := Aclent tg (if has_qual tg then q else 0) 0]> (ap_acl s)) s).
Proof.
  intros Hh. unfold create_entry. rewrite Hh. rewrite (bind_ret (modify _) _ s tt _ eq_refl).
  unfold on_entry, when, set_acl, mbind, M_bind. cbn [ap_acl ap_files]. rewrite lookup_insert_eq. cbn [ap_acl ap_files ae_tag ae_qual ae_perms].
  destruct (has_qual tg); cbn [ap_acl ap_files]; rewrite ?lookup_insert_eq, !insert_insert_eq; done.
Qed.

Definition changed (op : Operation) (a : AccessControlEntry) (m : facl) : facl :=
  if decide (op = removeEntries) then delete (akey (tag a) (qual a)) m
  else <[akey (tag a) (qual a) := default 0 (perms a)]> m.
Lemma change_entry_run op a s m : (forall a, is_Some (acl_create_entry a)) -> entry_for op a -> repr (ap_acl s) m ->
  exists acl', change_entry op a s = Ret tt (set_acl acl' s) /\ repr acl' (changed op a m).
Proof.
  intros Hnew [Hk Hp] Hr. unfold change_entry, changed. rewrite Hk.
  destruct (findEntry_run (tag a) (qual a) s m Hk Hr) as (r & Hf & Hres). run Hf.
  case_decide as Hop; [destruct r as [h|]|].
  - destruct Hres as (e & He & <-). eexists. split; [done|]. by apply repr_delete.
  - exists (ap_acl s). split; [by destruct s|]. by rewrite delete_id.
  - destruct (Hp Hop) as (p & -> & Hrange). cbn [default].
    assert (Hent : exists h e acl1, (match r with Some h => mret h | None => create_entry (tag a) (qual a) end : M aclproc Z) s = Ret h (set_acl acl1 s) /\
      acl1 !! h = Some e /\ key_of e = (tag a, qual a) /\ repr (<[h := Aclent (ae_tag e) (ae_qual e) p]> acl1) (<[(tag a, qual a) := p]> m)).
    { destruct r as [h|].
      - destruct Hres as (e & He & Hke). exists h, e, (ap_acl s). split; [by destruct s|]. split_and!; try done.
        rewrite <- Hke. change (key_of e) with (key_of (Aclent (ae_tag e) (ae_qual e) p)).
        apply (repr_insert (ap_acl s) m h (Aclent (ae_tag e) (ae_qual e) p)); [done| |].
        + intros h' e' He' E. by apply (proj2 Hr h' h e' e).
        + intros e' He'. rewrite He in He'. by injection He' as <-.
      - destruct (Hnew (ap_acl s)) as [h Hh]. pose proof (create_fresh _ _ Hh) as Hfr.
        set (e := Aclent (tag a) (if has_qual (tag a) then qual a else 0) 0). exists h, e, (<[h := e]> (ap_acl s)).
        assert (Hke : key_of e = (tag a, qual a)) by (unfold key_of, akey in *; cbn [ae_tag ae_qual e]; injection Hk as <-; by destruct (has_qual (tag a))).
        split; [by apply create_entry_run|]. split; [by rewrite lookup_insert_eq|]. split; [done|].
        rewrite insert_insert_eq, <- Hke. change (key_of e) with (key_of (Aclent (ae_tag e) (ae_qual e) p)).
        apply (repr_insert (ap_acl s) m h (Aclent (ae_tag e) (ae_qual e) p)); [done| |by rewrite Hfr].
        intros h' e' He' E. exfalso. assert (m !! key_of e' = Some (ae_perms e')) as Hm by (by eapply repr_lookup).
        rewrite E in Hm. change (key_of (Aclent (ae_tag e) (ae_qual e) p)) with (key_of e) in Hm. rewrite Hke in Hm. congruence. }
    destruct Hent as (h & e & acl1 & Hrun & He & _ & Hrep). run Hrun.
    rewrite (setPerms_run h p e (set_acl acl1 s) Hrange He). eexists. split; [by destruct s|]. done.
Qed.

(** ** A file *)

Lemma store_acl_run file ty (recalc : bool) s m : nothing_refused L -> repr (ap_acl s) m ->
  let m' := if recalc then with_mask m else m in
  if valid_acl m' then exists a, store_acl file ty recalc s = Ret tt (AclProc (<[(file, ty) := m']> (ap_files s)) a) /\ repr a m'
  else exists a, store_acl file ty recalc s = Exit (Err_sys "acl_valid") (set_acl a s).
Proof.
  intros (_ & _ & Hmask & Hset) Hr. cbn zeta. unfold store_acl.
  assert (exists a, (if recalc then acl_calc_mask (ap_acl s) else Some (ap_acl s)) = Some a /\ repr a (if recalc then with_mask m else m)) as (a & -> & Ha).
  { destruct recalc; [|by exists (ap_acl s)]. destruct (Hmask (ap_acl s)) as [a Ha]. exists a. split; [done|]. by eapply mask_repr. }
  rewrite (valid_repr a _ Ha). destruct (valid_acl _); [|by exists a]. cbn [negb].
  destruct (Hset file ty a) as [f Hf]. rewrite Hf, (set_repr _ _ _ _ _ Hf Ha). by exists a.
Qed.
Lemma update_entries_run file ty op recalc l : forall s m, nothing_refused L -> Forall (entry_for op) l -> repr (ap_acl s) m ->
  ap_files s !! (file, ty) = Some m ->
  exists a, update_entries file ty l op recalc s =
    let s' := AclProc (<[(file, ty) := (steps op recalc l m).1]> (ap_files s)) a in
    if (steps op recalc l m).2 then Ret tt s' else Exit (Err_sys "acl_valid") s'.
Proof.
  induction l as [|a l IH]; intros s m Hn Hl Hr Hf; cbn [update_entries steps].
  { exists (ap_acl s). cbn. rewrite insert_id by done. by destruct s. }
  apply Forall_cons in Hl as [Ha Hl]. destruct (change_entry_run op a s m (proj1 (proj2 Hn)) Ha Hr) as (acl' & Hc & Hr'). run Hc.
  pose proof (store_acl_run file ty recalc (set_acl acl' s) _ Hn Hr') as Hs. cbn zeta in Hs.
  change (if recalc then with_mask (changed op a m) else changed op a m) with (step op recalc a m) in Hs.
  destruct (valid_acl (step op recalc a m)).
  - destruct Hs as (b & Hs & Hb). run Hs. destruct (IH (AclProc (<[(file, ty) := step op recalc a m]> (ap_files s)) b) (step op recalc a m) Hn Hl Hb) as (c & Hc').
    { apply lookup_insert_eq. }
    exists c. cbn [ap_files set_acl] in *. rewrite Hc'. by rewrite insert_insert_eq.
  - destruct Hs as (b & Hs). rewrite (bind_exit _ _ _ _ _ Hs). exists b. cbn. rewrite insert_id by done. done.
Qed.
Lemma updateACL_run file ty op recalc l s m : nothing_refused L -> Forall (entry_for op) l -> facl_ok m -> ap_files s !! (file, ty) = Some m ->
  exists a, updateACL file ty l op recalc s =
    let s' := AclProc (<[(file, ty) := (steps op recalc l m).1]> (ap_files s)) a in
    if (steps op recalc l m).2 then Ret tt s' else Exit (Err_sys "acl_valid") s'.
Proof.
  intros Hn Hl Hok Hf. unfold updateACL. rewrite (bind_ret get _ s s s eq_refl), Hf. cbn.
  destruct (proj1 Hn file ty m Hok) as [acl Hg]. rewrite Hg. rewrite (bind_ret (modify _) _ s tt (set_acl acl s) eq_refl).
  destruct (update_entries_run file ty op recalc l (set_acl acl s) m Hn Hl (get_repr _ _ _ _ Hg) Hf) as (a & Hu).
  unfold mbind, M_bind. rewrite Hu. destruct (steps op recalc l m).2; [exists ∅|exists a]; done.
Qed.
End Theorems.
