(* ===== verification/AclParse.v ===== *)
(** ACL specifications: what is printed in their form is read back; and the command line of [acl_update]. *)
From S2P Require Import Prelude CStr GetNum Getopt AclUpdate.

(** ** Printing *)

Definition tag_letter (t : Z) : Z :=
  if (t =? ACL_USER_OBJ) || (t =? ACL_USER) then 117
  else if (t =? ACL_GROUP_OBJ) || (t =? ACL_GROUP) then 103
  else if t =? ACL_OTHER then 111 else 109.
Definition perm_text (p : Z) : list Z :=
  [if perm_on p ACL_READ then 114 else 45; if perm_on p ACL_WRITE then 119 else 45; if perm_on p ACL_EXECUTE then 120 else 45].
Definition print_entry (a : AccessControlEntry) : list Z :=
  tag_letter (tag a) :: COLON :: (if has_qual (tag a) then dec (qual a) else []) ++
  match perms a with Some p => COLON :: perm_text p | None => [] end.
Fixpoint print_acl (l : list AccessControlEntry) : list Z :=
  match l with
  | [] => []
  | [a] => print_entry a
  | a :: l' => print_entry a ++ COMMA :: print_acl l'
  end.

Definition acl_tag (t : Z) : Prop := t ∈ [ACL_USER_OBJ; ACL_USER; ACL_GROUP_OBJ; ACL_GROUP; ACL_MASK; ACL_OTHER].
(** Entries that a specification can name, with permissions or without. *)
Definition well_formed (permsReqd : bool) (a : AccessControlEntry) : Prop :=
  acl_tag (tag a) /\ (if has_qual (tag a) then 0 <= qual a < 2 ^ 32 - 1 else qual a = 0) /\
  (if permsReqd then exists p, perms a = Some p /\ 0 <= p < 8 else perms a = None).

(** ** One entry *)

Lemma perm_text_parse p : 0 <= p < 8 -> parse_perms 0 (perm_text p) = inr p.
Proof.
  intros Hp. assert (p = 0 \/ p = 1 \/ p = 2 \/ p = 3 \/ p = 4 \/ p = 5 \/ p = 6 \/ p = 7) as Hc by lia.
  by repeat destruct Hc as [->|Hc]; [..|subst].
Qed.
Lemma perm_text_chars p c : c ∈ perm_text p -> c ∈ [114; 119; 120; 45].
Proof.
  unfold perm_text. rewrite !elem_of_cons, elem_of_nil. intros H. destruct (perm_on p ACL_READ), (perm_on p ACL_WRITE), (perm_on p ACL_EXECUTE); intuition.
Qed.
Lemma id_from_dec lookup q : 0 <= q < 2 ^ 32 - 1 -> id_from_name lookup (dec q) = q.
Proof.
  intros Hq. unfold id_from_name. pose proof (dec_length_pos q ltac:(lia)) as Hl.
  rewrite strtol_dec by (unfold LONG_MIN, LONG_MAX; lia). destruct (dec q); [cbn in Hl; lia|].
  rewrite decide_True by done. unfold uwrap. apply Z.mod_small. lia.
Qed.

Section Parse.
Context `{D : NameDb}.

Lemma parse_letter t hq : acl_tag t -> (hq = has_qual t) -> parse_tag [tag_letter t] hq = Some t.
Proof.
  intros Ht ->. unfold acl_tag in Ht. rewrite !elem_of_cons, elem_of_nil in Ht.
  repeat destruct Ht as [->|Ht]; try done.
Qed.
Lemma parse_qual_dec t q : acl_tag t -> (if has_qual t then 0 <= q < 2 ^ 32 - 1 else q = 0) ->
  parse_qual t (if has_qual t then dec q else []) = inr q.
Proof.
  intros Ht Hq. unfold acl_tag in Ht. rewrite !elem_of_cons, elem_of_nil in Ht. unfold parse_qual, userIdFromName, groupIdFromName.
  repeat destruct Ht as [->|Ht]; try done;
  lazymatch type of Hq with if has_qual ?t then _ else _ => let b := eval vm_compute in (has_qual t) in change (has_qual t) with b in * end;
  cbn iota in *; try (by subst q);
  cbn [Z.eqb]; rewrite ?id_from_dec by done; (destruct (Z.eqb_spec q (uwrap 32 (-1))) as [E|]; [change (uwrap 32 (-1)) with (2 ^ 32 - 1) in E; lia|done]).
Qed.
Lemma has_qual_seen t q rest : (if has_qual t then 0 <= q < 2 ^ 32 - 1 else q = 0) ->
  (match rest with [] => True | c :: _ => c = COLON end) ->
  match (if has_qual t then dec q else []) ++ rest with [] => false | c :: _ => negb (c =? COLON) end = has_qual t.
Proof.
  intros Hq Hr. destruct (has_qual t).
  - pose proof (dec_length_pos q ltac:(lia)) as Hl. pose proof (dec_isdigit q ltac:(lia)) as Hd.
    destruct (dec q) as [|c l]; [cbn in Hl; lia|]. apply Forall_cons in Hd as [Hc%isdigit_range _]. cbn [app].
    assert (c <> COLON) by (unfold COLON; lia). by bfalse (c =? COLON).
  - destruct rest as [|c rest]; [done|]. by subst.
Qed.
Lemma qual_no c t q : isdigit c = false -> (if has_qual t then 0 <= q < 2 ^ 32 - 1 else q = 0) -> c ∉ (if has_qual t then dec q else []).
Proof. intros Hc Hq. destruct (has_qual t); [apply dec_not_in; [lia|done]|apply not_elem_of_nil]. Qed.

Lemma parse_print_entry pr a : well_formed pr a -> parseEntrySpec (print_entry a) pr = inr a.
Proof.
  destruct a as [t q ps]. intros (Ht & Hq & Hp). cbn [tag qual perms] in *. unfold parseEntrySpec, print_entry. cbn [tag qual perms].
  change (tag_letter t :: COLON :: ?x) with ([tag_letter t] ++ COLON :: x). rewrite split_at_found.
  2: { unfold acl_tag in Ht. rewrite !elem_of_cons, elem_of_nil in Ht. rewrite list_elem_of_singleton. by repeat destruct Ht as [->|Ht]. }
  rewrite has_qual_seen; [|done|by destruct ps].
  destruct pr.
  - destruct Hp as (p & -> & Hr). rewrite split_at_found by (by apply qual_no).
    rewrite bool_decide_true by done. cbn [andb negb]. rewrite parse_letter, parse_qual_dec by done. by rewrite perm_text_parse.
  - subst ps. rewrite app_nil_r. rewrite split_at_none by (by apply qual_no). rewrite bool_decide_false by (intros H; by apply H).
    cbn [andb negb]. by rewrite parse_letter, parse_qual_dec.
Qed.
Lemma print_entry_comma pr a : well_formed pr a -> COMMA ∉ print_entry a.
Proof.
  destruct a as [t q ps]. intros (Ht & Hq & Hp). cbn [tag qual perms] in *. unfold print_entry. cbn [tag qual perms].
  rewrite !elem_of_cons, elem_of_app. intros [H|[H|[H|H]]]; [|done|by eapply qual_no; [| |exact H]|].
  - unfold acl_tag in Ht. rewrite !elem_of_cons, elem_of_nil in Ht. by repeat destruct Ht as [->|Ht].
  - destruct ps as [p|]; [|by apply not_elem_of_nil in H]. apply elem_of_cons in H as [H|H]; [done|].
    apply perm_text_chars in H. rewrite !elem_of_cons, elem_of_nil in H. by repeat destruct H as [H|H].
Qed.

(** ** Whole specifications *)

Lemma parse_print_loop pr l : forall fuel n, l <> [] -> Forall (well_formed pr) l -> 0 <= n -> n + Z.of_nat (length l) <= MAX_ENTRIES ->
  (length l <= fuel)%nat -> parseACL_loop fuel n (print_acl l) pr = inr l.
Proof.
  induction l as [|a l IH]; intros [|fuel] n Hne Hw Hn Hm Hf; cbn [length] in *; try done; try lia. cbn [parseACL_loop].
  apply Forall_cons in Hw as [Ha Hw]. bfalse (MAX_ENTRIES <=? n). destruct l as [|b l].
  - cbn [print_acl]. by rewrite split_at_none, (parse_print_entry pr) by (done || by eapply print_entry_comma).
  - change (print_acl (a :: b :: l)) with (print_entry a ++ COMMA :: print_acl (b :: l)).
    rewrite split_at_found by (by eapply print_entry_comma). rewrite (parse_print_entry pr) by done.
    rewrite IH; try done; cbn [length] in *; lia.
Qed.
Lemma print_acl_length l : (length l <= S (length (print_acl l)))%nat.
Proof.
  induction l as [|a [|b l] IH]; cbn [length]; [lia|lia|].
  change (print_acl (a :: b :: l)) with (print_entry a ++ COMMA :: print_acl (b :: l)). rewrite length_app. cbn [length] in *. lia.
Qed.
Lemma parse_print pr l : l <> [] -> Forall (well_formed pr) l -> Z.of_nat (length l) <= MAX_ENTRIES -> parseACL (print_acl l) pr = inr l.
Proof.
  intros. apply parse_print_loop; try done. apply print_acl_length.
Qed.
Lemma well_formed_entry pr op a : well_formed pr a -> pr = bool_decide (op <> removeEntries) -> entry_for op a.
Proof.
  intros (_ & Hq & Hp) ->. split; [unfold akey; destruct (has_qual (tag a)); [done|by rewrite Hq]|].
  intros Hop. rewrite bool_decide_true in Hp by done. done.
Qed.
End Parse.

(** ** The program *)

(** [acl_update [-d] [-n] -m|-x acl file] *)
Definition acl_argv (prog : list Z) (op : Operation) (d n : bool) (l : list AccessControlEntry) (file : list Z) : list (list Z) :=
  prog :: (if d then [[MINUS; 100]] else []) ++ (if n then [[MINUS; 110]] else []) ++
  [[MINUS; if decide (op = removeEntries) then 120 else 109]; print_acl l; file].

Section Program.
Context `{D : NameDb} `{L : Libacl} `{!LibaclLaws L}.

Lemma acl_getopt prog op d n l file : operand file -> op = modifyEntries \/ op = removeEntries ->
  let '(opts, files) := getopt_tlpi (bytes "m:x:kdnV:") (acl_argv prog op d n l file) in
  files = [file] /\ acl_options_loop opts (AclOptions unspecifiedOp [] 0 false true) = Some (AclOptions op (print_acl l) 1 d (negb n)).
Proof.
  intros Hf Hop. unfold acl_argv, getopt_tlpi. cbn [bytes Ascii.N_of_ascii tail].
  change (getopt_words false _) with (getopt_words false (bytes "m:x:kdnV:")).
  assert (E : getopt_words false (bytes "m:x:kdnV:") [[MINUS; if decide (op = removeEntries) then 120 else 109]; print_acl l; file]
    = ([(if decide (op = removeEntries) then 120 else 109, print_acl l)], [file])).
  { rewrite getopt_arg; [rewrite getopt_operands by (by constructor; [|constructor]); done| |]; by case_decide. }
  destruct d, n; cbn [app]; rewrite ?(getopt_flag false (bytes "m:x:kdnV:") 100), ?(getopt_flag false (bytes "m:x:kdnV:") 110), E by done;
    destruct Hop as [-> | ->]; done.
Qed.

Lemma acl_main_run prog op d n l file s m :
  nothing_refused L -> op = modifyEntries \/ op = removeEntries -> l <> [] -> Z.of_nat (length l) <= MAX_ENTRIES ->
  Forall (well_formed (bool_decide (op = modifyEntries))) l -> operand file -> facl_ok m -> ap_files s !! (file, d) = Some m ->
  exists a, acl_main (acl_argv prog op d n l file) s =
    Exit (if (steps op (negb n) l m).2 then Exits 0 else Err_sys "acl_valid")
         (AclProc (<[(file, d) := (steps op (negb n) l m).1]> (ap_files s)) a).
Proof.
  intros Hn Hop Hl Hlen Hw Hf Hok Hm. pose proof (acl_getopt prog op d n l file Hf Hop) as Ho.
  destruct (updateACL_run file d op (negb n) l s m Hn) as (a & Hu); [|done|done|].
  { eapply Forall_impl; [exact Hw|]. intros x Hx. eapply well_formed_entry; [exact Hx|]. by destruct Hop as [-> | ->]. }
  exists a. unfold acl_main. destruct (getopt_tlpi _ _) as [opts files]. destruct Ho as [-> Ho].
  assert (Hone : forall A (x y : A), match acl_argv prog op d n l file with [] | [_] => x | _ :: a1 :: _ => if bool_decide (a1 = bytes "--help") then x else y end = y).
  { intros A x y. destruct d, n, Hop as [-> | ->]; done. }
  assert (Hrun : (acl_files (AclOptions op (print_acl l) 1 d (negb n)) l [file] ;; die (Exits 0)) s =
    (Exit (if (steps op (negb n) l m).2 then Exits 0 else Err_sys "acl_valid") (AclProc (<[(file, d) := (steps op (negb n) l m).1]> (ap_files s)) a) : outcome aclproc unit)).
  { cbn [acl_files ao_op ao_default ao_mask]. unfold mbind, M_bind. destruct Hop as [-> | ->]; rewrite Hu; cbn zeta; by destruct (steps _ _ _ _).2. }
  transitivity ((acl_files (AclOptions op (print_acl l) 1 d (negb n)) l [file] ;; die (Exits 0)) s : outcome aclproc unit); [|exact Hrun].
  etransitivity; [apply (f_equal (fun f => f s)), Hone|]. rewrite Ho. cbn [ao_cnt ao_op ao_default ao_spec].
  change (1 =? 1) with true. cbn [negb]. destruct Hop as [-> | ->]; cbn [bool_decide]; rewrite parse_print by done; done.
Qed.

(** C32: [acl_update -m acl file] and [-x acl file], with [-d] and [-n] or without, on a specification written from a
    list of entries, when the C library refuses nothing: the file's ACL (the default one with [-d]) becomes the one that
    inserting or deleting the entries one after the other makes of it, the mask being the union of what it limits after each (unless [-n]);
    the program succeeds unless an ACL on the way is not valid, and then the entries before stay done. *)
Theorem acl_update_refines prog op d n l file s m :
  nothing_refused L -> op = modifyEntries \/ op = removeEntries -> l <> [] -> Z.of_nat (length l) <= MAX_ENTRIES ->
  Forall (well_formed (bool_decide (op = modifyEntries))) l -> operand file -> facl_ok m -> ap_files s !! (file, d) = Some m ->
  exists a, acl_main (acl_argv prog op d n l file) s =
    Exit (if (steps op (negb n) l m).2 then Exits 0 else Err_sys "acl_valid")
         (AclProc (<[(file, d) := (steps op (negb n) l m).1]> (ap_files s)) a).
Proof. apply acl_main_run. Qed.

(** An ACL with fewer than the three entries is not valid. *)
Lemma first_step_invalid recalc a : valid_acl (step modifyEntries recalc a ∅) = false.
Proof.
  unfold step. rewrite decide_False by done. set (k := akey (tag a) (qual a)). set (p := default 0 (perms a)).
  assert (H : forall t, t <> ACL_MASK -> has_entry (if recalc then with_mask (<[k := p]> ∅) else <[k := p]> ∅) t = true -> k = (t, 0)).
  { intros t Ht H. unfold has_entry in H. apply bool_decide_eq_true in H as [x H].
    destruct recalc; [unfold with_mask in H; rewrite lookup_insert_ne in H by congruence|];
      by apply lookup_insert_Some in H as [[H _]|[_ H]]; [|rewrite lookup_empty in H]. }
  apply not_true_is_false. unfold valid_acl. rewrite !andb_true_iff. intros [[[H1 H2] _] _].
  apply H in H1; [|done]. apply H in H2; [|done]. rewrite H1 in H2. done.
Qed.
(** On a directory without a default ACL [acl_update -d -m] always fails, also for a specification that
    is a valid ACL: it demands validity after the first entry. *)
Lemma default_acl_never_created prog n l file s :
  nothing_refused L -> l <> [] -> Z.of_nat (length l) <= MAX_ENTRIES ->
  Forall (well_formed true) l -> operand file -> ap_files s !! (file, true) = Some ∅ ->
  exists a, acl_main (acl_argv prog modifyEntries true n l file) s = Exit (Err_sys "acl_valid") (AclProc (ap_files s) a).
Proof.
  intros Hn Hl Hlen Hw Hf Hm.
  destruct (acl_main_run prog modifyEntries true n l file s ∅ Hn (or_introl eq_refl) Hl Hlen Hw Hf (map_Forall_empty _) Hm) as (a & Ha).
  destruct l as [|e l]; [done|]. cbn [steps] in Ha. rewrite first_step_invalid in Ha. exists a. rewrite Ha. cbn [fst snd]. by rewrite insert_id.
Qed.
End Program.

(** ** A C library that satisfies the laws *)

Module AclDemo.
Definition handle (k : Z * Z) : Z := Zpos (encode k).
#[export] Instance handle_inj : Inj (=) (=) handle.
Proof. intros k k' [= H]. by apply encode_inj. Qed.
Definition load (m : facl) : macl := kmap handle (map_imap (fun k p => Some (Aclent k.1 k.2 p)) m).
Definition store (a : macl) : facl := list_to_map (map (fun he => (key_of he.2, ae_perms he.2)) (map_to_list a)).
Lemma load_lookup m h e : load m !! h = Some e <-> exists k p, h = handle k /\ m !! k = Some p /\ e = Aclent k.1 k.2 p.
Proof.
  unfold load. rewrite lookup_kmap_Some by apply _. setoid_rewrite map_lookup_imap. split.
  - intros (k & -> & H). destruct (m !! k) as [p|] eqn:E; [|done]. injection H as <-. by exists k, p.
  - intros (k & p & -> & H & ->). exists k. split; [done|]. by rewrite H.
Qed.
Lemma load_repr m : facl_ok m -> repr (load m) m.
Proof.
  intros Hok. assert (Hkey : forall k p, m !! k = Some p -> key_of (Aclent k.1 k.2 p) = k) by (intros k p H; by apply (Hok k p)).
  split.
  - intros k p. split.
    + intros H. exists (handle k), (Aclent k.1 k.2 p). split_and!; [|by eapply Hkey|done]. apply load_lookup. by exists k, p.
    + intros (h & e & (k' & p' & -> & H & ->)%load_lookup & Hk & <-). rewrite (Hkey _ _ H) in Hk. by subst.
  - intros h h' e e' (k & p & -> & H & ->)%load_lookup (k' & p' & -> & H' & ->)%load_lookup E.
    rewrite (Hkey _ _ H), (Hkey _ _ H') in E. by subst.
Qed.
Lemma repr_ok a m : repr a m -> facl_ok m.
Proof.
  intros [H _] k p Hk. apply H in Hk as (h & e & _ & <- & _). unfold key_of, akey. by destruct (has_qual (ae_tag e)) eqn:E; cbn; rewrite E.
Qed.
Lemma store_repr a m : repr a m -> store a = m.
Proof.
  intros [H1 H2]. apply map_eq. intros k. apply option_eq. intros p. rewrite H1. unfold store.
  assert (Hin : forall k p, (k, p) ∈ map (fun he => (key_of he.2, ae_perms he.2)) (map_to_list a) <-> exists h e, a !! h = Some e /\ key_of e = k /\ ae_perms e = p).
  { intros k' p'. rewrite list_elem_of_fmap. split.
    - intros ([h e] & [= -> ->] & Hel%elem_of_map_to_list). by exists h, e.
    - intros (h & e & He & <- & <-). exists (h, e). split; [done|]. by apply elem_of_map_to_list. }
  split.
  - intros H%elem_of_list_to_map_2. by apply Hin.
  - intros H. apply elem_of_list_to_map_1'; [|by apply Hin]. intros q Hq. apply Hin in Hq as (h' & e' & He' & Hk' & <-).
    destruct H as (h & e & He & Hk & <-). assert (h = h') as -> by (eapply H2; [done|done|congruence]). congruence.
Qed.
Lemma with_mask_ok m : facl_ok m -> facl_ok (with_mask m).
Proof. intros H. by apply map_Forall_insert_2. Qed.

Definition lib : Libacl := {|
  acl_get_file _ _ m := if bool_decide (facl_ok m) then Some (load m) else None;
  acl_order a := (map_to_list a).*1;
  acl_create_entry a := Some (fresh (dom a));
  acl_calc_mask a := Some (load (with_mask (store a)));
  acl_valid a := valid_acl (store a);
  acl_set_file _ _ a := Some (store a);
  acl_delete_def_file _ := true |}.
Lemma lib_laws : LibaclLaws lib.
Proof.
  constructor; cbn.
  - intros _ _ m a. case_bool_decide; [|done]. intros [= <-]. by apply load_repr.
  - intros a h. rewrite list_elem_of_fmap. split.
    + intros ([h' e] & -> & He%elem_of_map_to_list). by exists e.
    + intros [e He]. exists (h, e). split; [done|]. by apply elem_of_map_to_list.
  - intros a h [= <-]. apply not_elem_of_dom, is_fresh.
  - intros a a' m [= <-] H. rewrite (store_repr a m H). by apply load_repr, with_mask_ok, (repr_ok a).
  - intros a m H. by rewrite (store_repr a m H).
  - intros _ _ a m m' [= <-] H. by apply store_repr.
Qed.
Lemma lib_willing : nothing_refused lib.
Proof. split_and!; cbn; try (intros; by eexists). intros _ _ m Hm. rewrite bool_decide_true by done. by eexists. Qed.
Definition names : NameDb := {| getpwnam _ := None; getgrnam _ := None |}.
(** The ACL of a file with mode 0644, and a specification for it. *)
Definition m644 : facl := {[ (ACL_USER_OBJ, 0) := 6; (ACL_GROUP_OBJ, 0) := 4; (ACL_OTHER, 0) := 4 ]}.
Definition spec : list AccessControlEntry := [Ace ACL_USER 1000 (Some 7); Ace ACL_OTHER 0 (Some 0)].
Lemma spec_ok : Forall (well_formed true) spec.
Proof.
  repeat constructor; cbn; try lia; try (by unfold acl_tag; cbn; rewrite !elem_of_cons; auto); try (by eexists; split; [done|lia]).
Qed.
Lemma m644_ok : facl_ok m644.
Proof. refine (bool_decide_unpack _ _). by vm_compute. Qed.
End AclDemo.

Lemma acl_update_refines_witness :
  exists a, @acl_main AclDemo.names AclDemo.lib (acl_argv (bytes "acl_update") modifyEntries false false AclDemo.spec (bytes "f")) (AclProc {[ (bytes "f", false) := AclDemo.m644 ]} ∅) =
    Exit (if (steps modifyEntries true AclDemo.spec AclDemo.m644).2 then Exits 0 else Err_sys "acl_valid")
         (AclProc (<[(bytes "f", false) := (steps modifyEntries true AclDemo.spec AclDemo.m644).1]> {[ (bytes "f", false) := AclDemo.m644 ]}) a) /\
  (steps modifyEntries true AclDemo.spec AclDemo.m644).2 = true.
Proof.
  destruct (@acl_update_refines AclDemo.names AclDemo.lib AclDemo.lib_laws (bytes "acl_update") modifyEntries false false AclDemo.spec (bytes "f")
    (AclProc {[ (bytes "f", false) := AclDemo.m644 ]} ∅) AclDemo.m644 AclDemo.lib_willing (or_introl eq_refl) ltac:(done) ltac:(vm_compute; done)
    AclDemo.spec_ok I AclDemo.m644_ok ltac:(apply lookup_insert_eq)) as (a & H).
  exists a. split; [exact H|]. by vm_compute.
Defined.
