(* ===== verification/UsernsExec.v ===== *)
(** Running a command in new namespaces: [src/tlpi-dist/namespaces/userns_child_exec.c], with
    [update_map] and [proc_setgroups_write] of [userns_functions.c] and [modifyCapSetting] and
    [printSecbits] of [src/tlpi-dist/cap/cap_functions.c].

    The kernel's decisions on credentials and map files and libcap's tables are parameters. *)
From S2P Require Import Prelude CStr GetNum Getopt NsCapable.

(** ** Credentials *)

(** Capability sets as [cap_t] has them. *)
Record capsets := Capsets { cs_p : gset Z; cs_e : gset Z; cs_i : gset Z }.
Inductive capset := CAP_EFFECTIVE | CAP_PERMITTED | CAP_INHERITABLE.
Record creds := Creds {
  cr_uids : (Z * Z) * Z; cr_egid : Z; cr_caps : capsets; cr_bound : gset Z; cr_amb : gset Z; cr_sec : Z
}.
Definition with_amb (a : gset Z) (c : creds) : creds := Creds (cr_uids c) (cr_egid c) (cr_caps c) (cr_bound c) a (cr_sec c).
Definition with_bound (b : gset Z) (c : creds) : creds := Creds (cr_uids c) (cr_egid c) (cr_caps c) b (cr_amb c) (cr_sec c).
Definition with_sec (b : Z) (c : creds) : creds := Creds (cr_uids c) (cr_egid c) (cr_caps c) (cr_bound c) (cr_amb c) b.

(** The system calls on credentials, [None] or [false] for an error, and libcap. *)
Class CredKernel := {
  cap_last_cap : Z;
  k_capset : creds -> capsets -> option creds;
  k_amb_raise : creds -> Z -> bool;
  k_amb_lower : creds -> Z -> bool;
  k_bound_drop : creds -> Z -> bool;
  k_set_securebits : creds -> Z -> bool;
  k_setresuid : creds -> Z -> Z -> Z -> option creds;
  cap_from_name : list Z -> option Z;
  cap_from_text : list Z -> option capsets;
  cap_text : capsets -> option (list Z)
}.

Definition SECBIT_NOROOT : Z := 1.
Definition SECBIT_NOROOT_LOCKED : Z := 2.
Definition SECBIT_NO_SETUID_FIXUP : Z := 4.
Definition SECBIT_NO_SETUID_FIXUP_LOCKED : Z := 8.
Definition SECBIT_KEEP_CAPS : Z := 16.
Definition SECBIT_KEEP_CAPS_LOCKED : Z := 32.
Definition SECBIT_NO_CAP_AMBIENT_RAISE : Z := 64.
Definition SECBIT_NO_CAP_AMBIENT_RAISE_LOCKED : Z := 128.

(** The flags in the order of [secbitInfoList] of [printSecbits], with the letters. *)
Definition secbitInfoList : list (Z * list Z * Z) :=
  [ (SECBIT_NO_CAP_AMBIENT_RAISE, bytes "NO_CAP_AMBIENT_RAISE", 97);
    (SECBIT_NO_CAP_AMBIENT_RAISE_LOCKED, bytes "NO_CAP_AMBIENT_RAISE_LOCKED", 65);
    (SECBIT_KEEP_CAPS, bytes "KEEP_CAPS", 107);
    (SECBIT_KEEP_CAPS_LOCKED, bytes "KEEP_CAPS_LOCKED", 75);
    (SECBIT_NOROOT, bytes "NOROOT", 114);
    (SECBIT_NOROOT_LOCKED, bytes "NOROOT_LOCKED", 82);
    (SECBIT_NO_SETUID_FIXUP, bytes "NO_SETUID_FIXUP", 115);
    (SECBIT_NO_SETUID_FIXUP_LOCKED, bytes "NO_SETUID_FIXUP_LOCKED", 83) ].
Definition bit_on (bits f : Z) : bool := negb (Z.land bits f =? 0).
Fixpoint secbit_names (secbits : Z) (printed : Z) (l : list (Z * list Z * Z)) : list Z :=
  match l with
  | [] => []
  | (f, name, _) :: l' =>
      if bit_on secbits f then (if 0 <? printed then bytes ", " else []) ++ name ++ secbit_names secbits (printed + 1) l'
      else secbit_names secbits printed l'
  end.
Definition printSecbits (secbits : Z) (verbose : bool) : list Z :=
  if verbose then bytes "[" ++ secbit_names secbits 0 secbitInfoList ++ bytes "]"
  else map (fun x => if bit_on secbits x.1.1 then x.2 else 45) secbitInfoList.

(** ** The child's options *)

(** [struct option_list] *)
Record option_list := OptionList { ol_opt : Z; ol_val : option (list Z) }.
(** The process: credentials and standard output. *)
Record childp := Childp { cp_cred : creds; cp_out : list Z }.
Definition set_cred (c : creds) (s : childp) : childp := Childp c (cp_out s).

Section Options.
Context `{K : CredKernel}.

Definition add_to (f : capset) (c : Z) (x : capsets) : capsets :=
  match f with
  | CAP_EFFECTIVE => Capsets (cs_p x) ({[c]} ∪ cs_e x) (cs_i x)
  | CAP_PERMITTED => Capsets ({[c]} ∪ cs_p x) (cs_e x) (cs_i x)
  | CAP_INHERITABLE => Capsets (cs_p x) (cs_e x) ({[c]} ∪ cs_i x)
  end.
Definition take_from (f : capset) (c : Z) (x : capsets) : capsets :=
  match f with
  | CAP_EFFECTIVE => Capsets (cs_p x) (cs_e x ∖ {[c]}) (cs_i x)
  | CAP_PERMITTED => Capsets (cs_p x ∖ {[c]}) (cs_e x) (cs_i x)
  | CAP_INHERITABLE => Capsets (cs_p x) (cs_e x) (cs_i x ∖ {[c]})
  end.
(** [cap_get_proc], [cap_set_flag], [cap_set_proc]; [setting] is [CAP_SET] when true. *)
Definition modifyCapSetting (flag : capset) (capability : Z) (setting : bool) : M childp Z := fun s =>
  let caps := cr_caps (cp_cred s) in
  if negb ((0 <=? capability) && (capability <=? cap_last_cap)) then Ret (-1) s else
  let caps := if setting then add_to flag capability caps else take_from flag capability caps in
  match k_capset (cp_cred s) caps with
  | None => Ret (-1) s
  | Some c => Ret 0 (set_cred c s)
  end.
(** [prctl(PR_CAP_AMBIENT, ...)], which gives 0 or -1. *)
Definition ambient_raise (c : Z) : M childp Z := fun s =>
  if k_amb_raise (cp_cred s) c then Ret 0 (set_cred (with_amb ({[c]} ∪ cr_amb (cp_cred s)) (cp_cred s)) s) else Ret (-1) s.
Definition ambient_lower (c : Z) : M childp Z := fun s =>
  if k_amb_lower (cp_cred s) c then Ret 0 (set_cred (with_amb (cr_amb (cp_cred s) ∖ {[c]}) (cp_cred s)) s) else Ret (-1) s.
Definition bounding_drop (c : Z) : M childp Z := fun s =>
  if k_bound_drop (cp_cred s) c then Ret 0 (set_cred (with_bound (cr_bound (cp_cred s) ∖ {[c]}) (cp_cred s)) s) else Ret (-1) s.

Fixpoint raise_caps (doAmbient : bool) (cs : list Z) : M childp unit :=
  match cs with
  | [] => mret tt
  | c :: cs' =>
      modifyCapSetting CAP_INHERITABLE c true ;;
      (if doAmbient then ambient_raise c ;; mret tt else mret tt) ;;
      raise_caps doAmbient cs'
  end.
Definition raiseInheritableAndAmbientCaps (doAmbient : bool) : M childp unit :=
  raise_caps doAmbient (seqZ 0 (cap_last_cap + 1)).

(** The letters before the operator, whether one of them is bad, the operator and what follows. *)
Fixpoint find_op (s : list Z) : (list Z * bool) * list Z :=
  match s with
  | [] => (([], false), [])
  | c :: s' =>
      if (c =? 43) || (c =? 45) then (([], false), s)
      else let '((l, bad), r) := find_op s' in ((c :: l, negb (bool_decide (c ∈ bytes "peiba")) || bad), r)
  end.
Fixpoint modify_sets (plus : bool) (cap : Z) (sets : list Z) : M childp unit :=
  match sets with
  | [] => mret tt
  | p :: sets' =>
      (if (p =? 112) || (p =? 105) || (p =? 101) then
         let flag := if p =? 112 then CAP_PERMITTED else if p =? 101 then CAP_EFFECTIVE else CAP_INHERITABLE in
         r ← modifyCapSetting flag cap plus;
         if r =? -1 then die (Exits 1) else mret tt
       else if p =? 98 then
         if plus : bool then die (Exits 1) else
         r ← bounding_drop cap; if r =? -1 then die (Err_sys "-X: PR_CAPBSET_DROP") else mret tt
       else if p =? 97 then
         r ← (if plus : bool then ambient_raise cap else ambient_lower cap);
         if r =? -1 then die (Err_sys "-X: PR_CAP_AMBIENT") else mret tt
       else die (Exits 1)) ;;
      modify_sets plus cap sets'
  end.
Definition modify_individual_capability (optval : list Z) : M childp unit :=
  match find_op optval with
  | ((sets, bad_cap), op :: name) =>
      if bool_decide (name = []) || bad_cap then die (Exits 1) else
      match cap_from_name name with
      | None => die (Exits 1)
      | Some cap => modify_sets (op =? 43) cap sets
      end
  | _ => die (Exits 1)
  end.

Fixpoint parse_securebits (secbits : Z) (s : list Z) : option Z :=
  match s with
  | [] => Some secbits
  | c :: s' =>
      if c =? 97 then parse_securebits (Z.lor secbits SECBIT_NO_CAP_AMBIENT_RAISE) s'
      else if c =? 65 then parse_securebits (Z.lor secbits SECBIT_NO_CAP_AMBIENT_RAISE_LOCKED) s'
      else if c =? 107 then parse_securebits (Z.lor secbits SECBIT_KEEP_CAPS) s'
      else if c =? 75 then parse_securebits (Z.lor secbits SECBIT_KEEP_CAPS_LOCKED) s'
      else if c =? 114 then parse_securebits (Z.lor secbits SECBIT_NOROOT) s'
      else if c =? 82 then parse_securebits (Z.lor secbits SECBIT_NOROOT_LOCKED) s'
      else if c =? 115 then parse_securebits (Z.lor secbits SECBIT_NO_SETUID_FIXUP) s'
      else if c =? 83 then parse_securebits (Z.lor secbits SECBIT_NO_SETUID_FIXUP_LOCKED) s'
      else if c =? 48 then parse_securebits 0 s'
      else None
  end.
Definition set_securebits (optval : list Z) : M childp unit :=
  match parse_securebits 0 optval with
  | None => die (Exits 1)
  | Some bits => fun s =>
      if k_set_securebits (cp_cred s) bits then Ret tt (set_cred (with_sec bits (cp_cred s)) s)
      else Exit (Err_sys "prctl-PR_SET_SECUREBITS") s
  end.
Definition setresuid (msg : string) (r e sv : Z) : M childp unit := fun s =>
  match k_setresuid (cp_cred s) (uwrap 32 r) (uwrap 32 e) (uwrap 32 sv) with
  | None => Exit (Err_sys msg) s
  | Some c => Ret tt (set_cred c s)
  end.
Definition set_process_uids (optval : list Z) : M childp unit :=
  match split_at COMMA optval with
  | None => die (Exits 1)
  | Some (a, rest) =>
      match split_at COMMA rest with
      | None => die (Exits 1)
      | Some (b, c) => setresuid "-S failed (setresuid)" (atoi a) (atoi b) (atoi c)
      end
  end.
Definition display_creds_and_caps (str : list Z) : M childp unit := fun s =>
  let c := cp_cred s in
  let out := cp_out s ++ str ++ bytes "eUID = " ++ dec (cr_uids c).1.2 ++ bytes "; eGID = " ++ dec (cr_egid c) ++ bytes ";  " in
  match cap_text (cr_caps c) with
  | None => Exit (Err_sys "cap_to_text") (Childp c out)
  | Some t => Ret tt (Childp c (out ++ bytes "capabilities: " ++ t ++ [NEWLINE]))
  end.

(** [opts->opt_list[j].val] of an option that has one. *)
Definition val (o : option_list) : list Z := default [] (ol_val o).
Definition perform_option (display_cnt : Z) (o : option_list) : M childp unit :=
  let c := ol_opt o in
  if c =? 65 then raiseInheritableAndAmbientCaps true
  else if c =? 98 then set_securebits (val o)
  else if c =? 100 then display_creds_and_caps (take 19 (bytes "[-d " ++ dec (display_cnt + 1) ++ bytes "] "))
  else if c =? 73 then raiseInheritableAndAmbientCaps false
  else if c =? 115 then setresuid "setresuid" (atoi (val o)) (atoi (val o)) (atoi (val o))
  else if c =? 83 then set_process_uids (val o)
  else if c =? 119 then mret tt
  else if c =? 120 then
    match cap_from_text (val o) with
    | None => die (Err_sys "-x: cap_from_text")
    | Some caps => fun s =>
        match k_capset (cp_cred s) caps with
        | None => Exit (Err_sys "-x: cap_set_proc()") s
        | Some cr => Ret tt (set_cred cr s)
        end
    end
  else if c =? 88 then modify_individual_capability (val o)
  else mret tt.
Fixpoint perform_repeatable_options (display_cnt : Z) (opts : list option_list) : M childp unit :=
  match opts with
  | [] => mret tt
  | o :: opts' =>
      perform_option display_cnt o ;;
      perform_repeatable_options (if ol_opt o =? 100 then display_cnt + 1 else display_cnt) opts'
  end.
End Options.

(** ** The command line *)

Definition CLONE_NEWCGROUP : Z := 33554432.
Definition CLONE_NEWIPC : Z := 134217728.
Definition CLONE_NEWNS : Z := 131072.
Definition CLONE_NEWNET : Z := 1073741824.
Definition CLONE_NEWUTS : Z := 67108864.
Definition MAX_OPT : Z := 100.

Record cmd_options := CmdOptions {
  co_argv : list (list Z); co_flags : Z; create_root_mappings : bool; deny_setgroups : bool; co_verbose : bool;
  uid_map : option (list Z); gid_map : option (list Z); projid_map : option (list Z); opt_list : list option_list
}.
Definition opts0 : cmd_options := CmdOptions [] 0 false true false None None None [].
Definition with_flag (f : Z) (o : cmd_options) : cmd_options :=
  CmdOptions (co_argv o) (Z.lor (co_flags o) f) (create_root_mappings o) (deny_setgroups o) (co_verbose o) (uid_map o) (gid_map o) (projid_map o) (opt_list o).
Definition command_option (x : Z * list Z) (o : cmd_options) : option cmd_options :=
  let '(opt, optarg) := x in
  let '(CmdOptions av fl rt dn vb um gm pm ol) := o in
  if opt =? 67 then Some (with_flag CLONE_NEWCGROUP o)
  else if opt =? 105 then Some (with_flag CLONE_NEWIPC o)
  else if opt =? 109 then Some (with_flag CLONE_NEWNS o)
  else if opt =? 110 then Some (with_flag CLONE_NEWNET o)
  else if opt =? 112 then Some (with_flag CLONE_NEWPID o)
  else if opt =? 117 then Some (with_flag CLONE_NEWUTS o)
  else if opt =? 85 then Some (with_flag CLONE_NEWUSER o)
  else if opt =? 77 then Some (CmdOptions av fl rt dn vb (Some optarg) gm pm ol)
  else if opt =? 71 then Some (CmdOptions av fl rt dn vb um (Some optarg) pm ol)
  else if opt =? 80 then Some (CmdOptions av fl rt dn vb um gm (Some optarg) ol)
  else if opt =? 114 then Some (CmdOptions av fl true dn vb um gm pm ol)
  else if opt =? 68 then Some (CmdOptions av fl rt false vb um gm pm ol)
  else if opt =? 118 then Some (CmdOptions av fl rt dn true um gm pm ol)
  else if bool_decide (opt ∈ bytes "IAbsdxXw") then
    if MAX_OPT <=? Z.of_nat (length ol) then None else
    let v := if bool_decide (opt ∈ bytes "sSxXwb") then Some optarg else None in
    Some (CmdOptions av fl rt dn vb um gm pm (ol ++ [OptionList opt v]))
  else None.
Fixpoint command_options_loop (l : list (Z * list Z)) (o : cmd_options) : option cmd_options :=
  match l with
  | [] => Some o
  | x :: l' => match command_option x o with None => None | Some o' => command_options_loop l' o' end
  end.
(** [None]: a message and [exit(EXIT_FAILURE)]. *)
Definition parse_command_options (argv : list (list Z)) : option cmd_options :=
  let '(l, operands) := getopt_tlpi (bytes "+CimnuUM:G:P:rDvpAIs:b:S:dx:X:w:") argv in
  match command_options_loop l opts0 with
  | None => None
  | Some o =>
      let some x := bool_decide (x <> @None (list Z)) in
      if ((some (uid_map o) || some (gid_map o) || some (projid_map o) || create_root_mappings o) && negb (bit_on (co_flags o) CLONE_NEWUSER))
         || (create_root_mappings o && (some (uid_map o) || some (gid_map o))) then None
      else
        match operands with
        | [] => None
        | _ => Some (CmdOptions operands (co_flags o) (create_root_mappings o) (deny_setgroups o) (co_verbose o) (uid_map o) (gid_map o) (projid_map o) (opt_list o))
        end
  end.

(** ** Map files *)

(** The files of [/proc/PID], as the kernel takes what is written to them: [open] gives an error number or
    not, [write] a count; both may depend on what has been written before. *)
Class ProcKernel := {
  k_open_errno : list (list Z * list Z) -> list Z -> option Z;
  k_write_count : list (list Z * list Z) -> list Z -> list Z -> Z;
  k_getuid : Z;
  k_getgid : Z
}.
(** What was written to which file, in order. *)
Notation plog := (list (list Z * list Z)).

Section Maps.
Context `{P : ProcKernel}.

Definition newlines (mapping : list Z) : list Z := map (fun c => if c =? COMMA then NEWLINE else c) mapping.
Definition update_map (mapping map_file : list Z) : M plog Z := fun s =>
  match k_open_errno s map_file with
  | Some _ => Ret (-1) s
  | None =>
      let bs := newlines mapping in
      let n := k_write_count s map_file bs in
      if negb (n =? Z.of_nat (length bs)) then Ret (-1) s else Ret 0 (s ++ [(map_file, bs)])
  end.
Definition proc_setgroups_write (child_pid : Z) (str : list Z) : M plog Z := fun s =>
  let path := proc_path child_pid "/setgroups" in
  match k_open_errno s path with
  | Some e => if e =? ENOENT then Ret 0 s else Ret (-1) s
  | None => if k_write_count s path str =? -1 then Ret (-1) s else Ret 0 (s ++ [(path, str)])
  end.
(** [if (call == -1) errExit(msg)] *)
Definition or_exit (msg : string) (m : M plog Z) : M plog unit := r ← m; if r =? -1 then die (Err_sys msg) else mret tt.
Definition root_map (id : Z) : list Z := take 99 (bytes "0 " ++ dec id ++ bytes " 1").

Definition update_child_maps (opts : cmd_options) (child_pid : Z) : M plog unit :=
  (if bool_decide (uid_map opts <> None) || create_root_mappings opts then
     let m := if create_root_mappings opts then root_map k_getuid else default [] (uid_map opts) in
     or_exit "update_map: uid_map" (update_map m (proc_path child_pid "/uid_map"))
   else mret tt) ;;
  (if bool_decide (gid_map opts <> None) || create_root_mappings opts then
     (if deny_setgroups opts then or_exit "proc_setgroups_write" (proc_setgroups_write child_pid (bytes "deny")) else mret tt) ;;
     let m := if create_root_mappings opts then root_map k_getgid else default [] (gid_map opts) in
     or_exit "update_map: gid_map" (update_map m (proc_path child_pid "/gid_map"))
   else mret tt) ;;
  match projid_map opts with
  | Some m => or_exit "update_map: projid_map" (update_map m (proc_path child_pid "/projid_map"))
  | None => mret tt
  end.
End Maps.

(** ** Parent and child

    [update_child_maps] as the list of its writes, so that the child can act between them. *)
Inductive map_op := MapWrite (mapping file : list Z) (msg : string) | DenySetgroups (pid : Z).

Section System.
Context `{K : CredKernel} `{P : ProcKernel}.
Context (opts : cmd_options) (child_pid : Z) (cr0 : creds) (execvp : list (list Z) -> bool).

Definition run_op (op : map_op) : M plog unit :=
  match op with
  | MapWrite m f msg => or_exit msg (update_map m f)
  | DenySetgroups pid => or_exit "proc_setgroups_write" (proc_setgroups_write pid (bytes "deny"))
  end.
Definition map_ops : list map_op :=
  (if bool_decide (uid_map opts <> None) || create_root_mappings opts
   then [MapWrite (if create_root_mappings opts then root_map k_getuid else default [] (uid_map opts)) (proc_path child_pid "/uid_map") "update_map: uid_map"] else []) ++
  (if bool_decide (gid_map opts <> None) || create_root_mappings opts
   then (if deny_setgroups opts then [DenySetgroups child_pid] else []) ++
        [MapWrite (if create_root_mappings opts then root_map k_getgid else default [] (gid_map opts)) (proc_path child_pid "/gid_map") "update_map: gid_map"] else []) ++
  (match projid_map opts with Some m => [MapWrite m (proc_path child_pid "/projid_map") "update_map: projid_map"] | None => [] end).
Fixpoint run_ops (l : list map_op) : M plog unit :=
  match l with [] => mret tt | op :: l' => run_op op ;; run_ops l' end.

(** The parent after [clone]: map files still to be written; waiting for the child; gone. *)
Inductive pstate := PMaps (rest : list map_op) | PWaiting | PExited (e : fatal).
(** The child: at the start of [childFunc]; in [read]; after the end of file; running the command with its
    credentials; gone. *)
Inductive cstate := CStart | CReading | CReady | CExec (s : childp) | CEnded.
(** Both, with what has been written to [/proc] and who has the write end of the pipe open. *)
Record usys := Usys { us_log : plog; us_parent : pstate; us_child : cstate; us_pw : bool; us_cw : bool }.

Inductive ustep : usys -> usys -> Prop :=
  | u_map log log' op rest c pw cw : run_op op log = Ret tt log' ->
      ustep (Usys log (PMaps (op :: rest)) c pw cw) (Usys log' (PMaps rest) c pw cw)
  | u_map_fails log log' op rest c pw cw e : run_op op log = Exit e log' ->       (* its descriptors are closed *)
      ustep (Usys log (PMaps (op :: rest)) c pw cw) (Usys log' (PExited e) c false cw)
  | u_close log c pw cw : ustep (Usys log (PMaps []) c pw cw) (Usys log PWaiting c false cw)
  | u_wait log pw cw : ustep (Usys log PWaiting CEnded pw cw) (Usys log (PExited (Exits 0)) CEnded false cw)
  | u_child_close log p pw cw : ustep (Usys log p CStart pw cw) (Usys log p CReading pw false)
  | u_eof log p : ustep (Usys log p CReading false false) (Usys log p CReady false false)
  | u_exec log p pw cw s : perform_repeatable_options 0 (opt_list opts) (Childp cr0 []) = Ret tt s -> execvp (co_argv opts) = true ->
      ustep (Usys log p CReady pw cw) (Usys log p (CExec s) pw cw)
  | u_exec_fails log p pw cw s : perform_repeatable_options 0 (opt_list opts) (Childp cr0 []) = Ret tt s -> execvp (co_argv opts) = false ->
      ustep (Usys log p CReady pw cw) (Usys log p CEnded pw cw)
  | u_options_fail log p pw cw s e : perform_repeatable_options 0 (opt_list opts) (Childp cr0 []) = Exit e s ->
      ustep (Usys log p CReady pw cw) (Usys log p CEnded pw cw)
  | u_command_ends log p pw cw s : ustep (Usys log p (CExec s) pw cw) (Usys log p CEnded pw cw).
(** [clone] has copied the descriptors. *)
Definition ustart (log : plog) : usys := Usys log (PMaps map_ops) CStart true true.
End System.

(** * What the program guarantees *)

(** ** The order of the parent's writes and the child's command *)

Section Order.
Context `{K : CredKernel} `{P : ProcKernel}.
Context (opts : cmd_options) (child_pid : Z) (cr0 : creds) (execvp : list (list Z) -> bool).
Notation step := (ustep opts cr0 execvp).

(** The writes are those of [update_child_maps]. *)
Lemma seq_ext {S} (m m' k k' : M S unit) s : (forall s, m s = m' s) -> (forall s, k s = k' s) -> (m ;; k) s = (m' ;; k') s.
Proof. intros Hm Hk. unfold mbind, M_bind. rewrite Hm. by destruct (m' s). Qed.
Lemma run_ops_app l1 l2 s : run_ops (l1 ++ l2) s = (run_ops l1 ;; run_ops l2) s.
Proof.
  revert s. induction l1 as [|op l1 IH]; intros s; [done|]. cbn [app run_ops]. unfold mbind, M_bind in *.
  destruct (run_op op s); [by rewrite IH|done].
Qed.
Lemma run_ops_one op s : run_ops [op] s = run_op op s.
Proof. cbn [run_ops]. unfold mbind, M_bind. by destruct (run_op op s) as [[]|]. Qed.
Lemma update_child_maps_ops s : update_child_maps opts child_pid s = run_ops (map_ops opts child_pid) s.
Proof.
  unfold update_child_maps, map_ops. rewrite run_ops_app. apply seq_ext; [|intros s1; rewrite run_ops_app; apply seq_ext].
  - intros s'. destruct (_ || _); [by rewrite run_ops_one|done].
  - intros s'. destruct (_ || _); [|done]. rewrite run_ops_app. apply seq_ext.
    + intros s2. destruct (deny_setgroups opts); [by rewrite run_ops_one|done].
    + intros s2. by rewrite run_ops_one.
  - intros s'. destruct (projid_map opts); [by rewrite run_ops_one|done].
Qed.

(** Whether the child has got past the pipe. *)
Definition past_pipe (c : cstate) : bool := match c with CStart | CReading => false | _ => true end.

(** The invariant of the runs from [log0]. *)
Definition usys_ok (log0 : plog) (st : usys) : Prop :=
  match us_parent st with
  | PMaps rest => us_pw st = true /\ run_ops (map_ops opts child_pid) log0 = run_ops rest (us_log st)
  | PWaiting => us_pw st = false /\ run_ops (map_ops opts child_pid) log0 = Ret tt (us_log st)
  | PExited e => us_pw st = false /\
      (e = Exits 0 /\ us_child st = CEnded /\ run_ops (map_ops opts child_pid) log0 = Ret tt (us_log st) \/
       run_ops (map_ops opts child_pid) log0 = Exit e (us_log st))
  end /\
  us_cw st = (match us_child st with CStart => true | _ => false end) /\
  (past_pipe (us_child st) = true -> us_pw st = false).

Lemma usys_start log0 : usys_ok log0 (ustart opts child_pid log0).
Proof. by repeat split. Qed.
(** A step of the child leaves the parent's part of the invariant as it is. *)
Ltac child_moves p Hp Hpast :=
  destruct p; split_and!; try done; try apply Hp; try (intros; by apply Hpast);
  right; destruct Hp as [_ [(_ & ? & _)|?]]; done.
Lemma usys_step log0 st st' : usys_ok log0 st -> step st st' -> usys_ok log0 st'.
Proof.
  intros (Hp & Hc & Hpast) Hs. destruct Hs as [log log' op rest c pw cw Hop|log log' op rest c pw cw e Hop|log c pw cw|log pw cw|log p pw cw|log p|log p pw cw s H1 H2|log p pw cw s H1 H2|log p pw cw s e H|log p pw cw s];
    unfold usys_ok in *; cbn [us_parent us_pw us_log us_child us_cw past_pipe] in *.
  - destruct Hp as [-> Hp]. split_and!; [done| |done|done]. rewrite Hp. cbn [run_ops]. by rewrite (bind_ret _ _ _ _ _ Hop).
  - destruct Hp as [-> Hp]. split_and!; [done| |done|done]. right. rewrite Hp. cbn [run_ops]. by rewrite (bind_exit _ _ _ _ _ Hop).
  - destruct Hp as [-> Hp]. by split_and!.
  - destruct Hp as [-> Hp]. split_and!; [done| |done|done]. by left.
  - child_moves p Hp Hpast.
  - child_moves p Hp Hpast.
  - child_moves p Hp Hpast.
  - child_moves p Hp Hpast.
  - child_moves p Hp Hpast.
  - child_moves p Hp Hpast.
Qed.
Lemma usys_reach log0 st : rtc step (ustart opts child_pid log0) st -> usys_ok log0 st.
Proof.
  intros H. pose proof (usys_start log0) as H0. induction H as [|x y z Hxy _ IH]; [done|]. apply IH. by eapply usys_step.
Qed.

(** A state in which nothing can happen is one in which both have ended. *)
Lemma usys_stuck log0 st : usys_ok log0 st -> (forall st', ~ step st st') -> us_child st = CEnded /\ exists e, us_parent st = PExited e.
Proof.
  destruct st as [log p c pw cw]. intros (Hp & Hc & Hpast) Hno. cbn [us_parent us_pw us_log us_child us_cw] in *.
  assert (Hpar : p = PWaiting \/ exists e, p = PExited e).
  { destruct p as [[|op rest]| |e]; [|exfalso; destruct (run_op op log) as [[] log'|e log'] eqn:E; eapply Hno; [by eapply u_map|by eapply u_map_fails]|by left|by right; eexists].
    exfalso. eapply Hno. apply u_close. }
  assert (pw = false) as -> by (destruct Hpar as [->|[e ->]]; apply Hp).
  destruct c as [| | |s|].
  - exfalso. eapply Hno. apply u_child_close.
  - exfalso. subst cw. eapply Hno. apply u_eof.
  - exfalso. destruct (perform_repeatable_options 0 (opt_list opts) (Childp cr0 [])) as [[] s|e s] eqn:E; [destruct (execvp (co_argv opts)) eqn:Ex|];
      eapply Hno; [by eapply u_exec|by eapply u_exec_fails|by eapply u_options_fail].
  - exfalso. eapply Hno. apply u_command_ends.
  - split; [done|]. destruct Hpar as [->|?]; [|done]. exfalso. eapply Hno. apply u_wait.
Qed.

Definition usys_left (st : usys) : nat :=
  (match us_parent st with PMaps rest => length rest + 2 | PWaiting => 1 | PExited _ => 0 end +
   match us_child st with CStart => 4 | CReading => 3 | CReady => 2 | CExec _ => 1 | CEnded => 0 end)%nat.
Lemma usys_left_step st st' : step st st' -> (usys_left st' < usys_left st)%nat.
Proof. destruct 1; unfold usys_left; cbn [us_parent us_child length]; lia. Qed.
Lemma usys_left_run n st st' : nsteps step n st st' -> (n + usys_left st' <= usys_left st)%nat.
Proof. induction 1 as [|n x y z H _ IH]; [lia|]. apply usys_left_step in H. lia. Qed.

(** C33: however parent and child are scheduled, the child gets past its [read] of the pipe only after the parent has
    written all the map files in the order of [update_child_maps], or has failed doing so and is gone; no run has more steps than
    the map files and the stages of the two processes; and a run that can go no further has ended: child and
    parent are gone, neither waits for the other. *)
Theorem userns_child_waits log0 n st : nsteps step n (ustart opts child_pid log0) st ->
  (past_pipe (us_child st) = true ->
     update_child_maps opts child_pid log0 = Ret tt (us_log st) \/
     exists e, us_parent st = PExited e /\ update_child_maps opts child_pid log0 = Exit e (us_log st)) /\
  (n <= length (map_ops opts child_pid) + 6)%nat /\
  ((forall st', ~ step st st') -> us_child st = CEnded /\ exists e, us_parent st = PExited e).
Proof.
  intros H. assert (Hok : usys_ok log0 st) by (apply usys_reach, rtc_nsteps; by exists n). split_and!.
  - intros Hp. rewrite update_child_maps_ops. destruct Hok as (Hpar & _ & Hpast). specialize (Hpast Hp).
    destruct (us_parent st) as [rest| |e]; destruct Hpar as [Hpw Hpar]; [congruence|by left|].
    destruct Hpar as [(_ & _ & ?)|?]; [by left|right; by exists e].
  - apply usys_left_run in H. change (usys_left (ustart opts child_pid log0)) with (length (map_ops opts child_pid) + 2 + 4)%nat in H. lia.
  - by eapply usys_stuck.
Qed.
End Order.

(** ** Capabilities *)

Definition CAP_SETPCAP : Z := 8.
(** capabilities(7): what [capset(2)] allows and does, and when an ambient capability may be raised. *)
Class CredLaws (K : CredKernel) := {
  capset_allowed : forall c x, is_Some (k_capset c x) <->
    cs_p x ⊆ cs_p (cr_caps c) /\ cs_e x ⊆ cs_p x /\ cs_i x ⊆ cs_i (cr_caps c) ∪ cr_bound c /\
    (CAP_SETPCAP ∈ cs_e (cr_caps c) \/ cs_i x ⊆ cs_i (cr_caps c) ∪ cs_p (cr_caps c));
  capset_does : forall c x c', k_capset c x = Some c' ->
    c' = Creds (cr_uids c) (cr_egid c) x (cr_bound c) (cr_amb c ∩ cs_p x ∩ cs_i x) (cr_sec c);
  ambient_allowed : forall c n, k_amb_raise c n = true <->
    n ∈ cs_p (cr_caps c) /\ n ∈ cs_i (cr_caps c) /\ bit_on (cr_sec c) SECBIT_NO_CAP_AMBIENT_RAISE = false
}.
(** Sets that the kernel keeps: effective and ambient capabilities are permitted, ambient ones inheritable. *)
Definition creds_ok (c : creds) : Prop :=
  cs_e (cr_caps c) ⊆ cs_p (cr_caps c) /\ cr_amb c ⊆ cs_p (cr_caps c) /\ cr_amb c ⊆ cs_i (cr_caps c).

Section Caps.
Context `{K : CredKernel} `{!CredLaws K}.
Implicit Types c : creds.

(** Whether a capability can become inheritable. *)
Definition inheritable (c : creds) (n : Z) : Prop :=
  n ∈ cr_bound c /\ (CAP_SETPCAP ∈ cs_e (cr_caps c) \/ n ∈ cs_p (cr_caps c)).
#[local] Instance inheritable_dec c n : Decision (inheritable c n).
Proof. unfold inheritable. apply _. Defined.
(** The credentials once one capability has been tried. *)
Definition raised (doAmbient : bool) (c : creds) (n : Z) : creds :=
  let i := if decide (inheritable c n) then {[n]} ∪ cs_i (cr_caps c) else cs_i (cr_caps c) in
  let a := if decide (doAmbient = true /\ n ∈ cs_p (cr_caps c) /\ n ∈ i /\ bit_on (cr_sec c) SECBIT_NO_CAP_AMBIENT_RAISE = false)
           then {[n]} ∪ cr_amb c else cr_amb c in
  Creds (cr_uids c) (cr_egid c) (Capsets (cs_p (cr_caps c)) (cs_e (cr_caps c)) i) (cr_bound c) a (cr_sec c).

Lemma inheritable_capset c n : creds_ok c -> n ∉ cs_i (cr_caps c) ->
  (is_Some (k_capset c (add_to CAP_INHERITABLE n (cr_caps c))) <-> inheritable c n).
Proof.
  intros (He & _ & _) Hn. rewrite capset_allowed. cbn [add_to cs_p cs_e cs_i]. unfold inheritable. set_solver.
Qed.
Lemma creds_eta c : Creds (cr_uids c) (cr_egid c) (Capsets (cs_p (cr_caps c)) (cs_e (cr_caps c)) (cs_i (cr_caps c))) (cr_bound c) (cr_amb c) (cr_sec c) = c.
Proof. by destruct c as [? ? []]. Qed.

Lemma raise_one c n out : creds_ok c -> 0 <= n <= cap_last_cap ->
  exists r, modifyCapSetting CAP_INHERITABLE n true (Childp c out) = Ret r (Childp (raised false c n) out).
Proof.
  intros Hok Hn. unfold modifyCapSetting. cbn [cp_cred]. btrue ((0 <=? n) && (n <=? cap_last_cap)). cbn [negb].
  unfold raised. rewrite (decide_False (P := false = true /\ _)) by (by intros [? _]).
  destruct (k_capset c (add_to CAP_INHERITABLE n (cr_caps c))) as [c'|] eqn:E.
  - exists 0. unfold set_cred. cbn [cp_out]. do 2 f_equal. rewrite (capset_does _ _ _ E). cbn [add_to cs_p cs_e cs_i].
    destruct (Hok) as (_ & Ha & Hi). f_equal; [|set_solver].
    case_decide as Hd; [done|]. f_equal. destruct (decide (n ∈ cs_i (cr_caps c))); [set_solver|].
    destruct Hd. apply inheritable_capset; [done|done|by eexists].
  - exists (-1). do 2 f_equal. case_decide as Hd; [|by rewrite creds_eta].
    destruct (decide (n ∈ cs_i (cr_caps c))) as [Hin|Hin].
    + rewrite <- (creds_eta c) at 1. do 2 f_equal. set_solver.
    + apply inheritable_capset in Hd as [? Hd]; [congruence|done|done].
Qed.

Lemma raised_ok b c n : creds_ok c -> creds_ok (raised b c n).
Proof.
  intros (He & Ha & Hi). unfold creds_ok, raised. cbn. split_and!; [done| |]; repeat case_decide; set_solver.
Qed.
Lemma raise_step (b : bool) c n out : creds_ok c -> 0 <= n <= cap_last_cap -> forall k : M childp unit,
  (modifyCapSetting CAP_INHERITABLE n true ;; (if b then ambient_raise n ;; mret tt else mret tt) ;; k) (Childp c out) = k (Childp (raised b c n) out).
Proof.
  intros Hok Hn k. destruct (raise_one c n out Hok Hn) as [r Hr]. rewrite (bind_ret _ _ _ _ _ Hr).
  destruct b; [|done].
  assert (exists r, ambient_raise n (Childp (raised false c n) out) = Ret r (Childp (raised true c n) out)) as [r2 Hr2].
  2: { assert (Hseq : (ambient_raise n ;; mret tt) (Childp (raised false c n) out) = (Ret tt (Childp (raised true c n) out) : outcome childp unit)) by (by rewrite (bind_ret _ _ _ _ _ Hr2)).
       by rewrite (bind_ret _ _ _ _ _ Hseq). }
  unfold ambient_raise. cbn [cp_cred]. destruct (k_amb_raise (raised false c n) n) eqn:E.
  - exists 0. apply ambient_allowed in E. unfold raised in *. cbn in E. unfold set_cred, with_amb. cbn [cp_out cr_uids cr_egid cr_caps cr_bound cr_amb cr_sec].
    rewrite (decide_False (P := false = true /\ _)) by (by intros [? _]). do 3 f_equal. by rewrite decide_True.
  - exists (-1). replace (raised true c n) with (raised false c n); [done|]. unfold raised. f_equal.
    rewrite decide_False by (by intros [? _]). rewrite decide_False; [done|].
    intros (_ & H). assert (true = false) as [=]. rewrite <- E. symmetry. by apply ambient_allowed.
Qed.
Lemma raise_caps_fold b l : forall c out, creds_ok c -> Forall (fun n => 0 <= n <= cap_last_cap) l ->
  raise_caps b l (Childp c out) = Ret tt (Childp (foldl (raised b) c l) out).
Proof.
  induction l as [|n l IH]; intros c out Hok Hl; [done|]. apply Forall_cons in Hl as [Hn Hl]. cbn [raise_caps foldl].
  rewrite raise_step by done. apply IH; [by apply raised_ok|done].
Qed.

(** What stays as it is while capabilities are raised. *)
Lemma raised_same b c l : let c' := foldl (raised b) c l in
  cs_p (cr_caps c') = cs_p (cr_caps c) /\ cs_e (cr_caps c') = cs_e (cr_caps c) /\ cr_bound c' = cr_bound c /\ cr_sec c' = cr_sec c /\
  cr_uids c' = cr_uids c /\ cr_egid c' = cr_egid c.
Proof. cbn zeta. revert c. induction l as [|n l IH]; intros c; [done|]. cbn [foldl]. destruct (IH (raised b c n)) as (-> & -> & -> & -> & -> & ->). done. Qed.
Lemma raised_inheritable b l : forall c n, n ∈ cs_i (cr_caps (foldl (raised b) c l)) <-> n ∈ cs_i (cr_caps c) \/ n ∈ l /\ inheritable c n.
Proof.
  induction l as [|m l IH]; intros c n; cbn [foldl]; [set_solver|]. rewrite IH, elem_of_cons.
  assert (Hsame : inheritable (raised b c m) n <-> inheritable c n) by done. rewrite Hsame.
  assert (Hi : n ∈ cs_i (cr_caps (raised b c m)) <-> n ∈ cs_i (cr_caps c) \/ n = m /\ inheritable c n); [|rewrite Hi; tauto].
  unfold raised. cbn. case_decide; [|naive_solver]. rewrite elem_of_union, elem_of_singleton. naive_solver.
Qed.
Lemma raised_ambient l : forall c n, bit_on (cr_sec c) SECBIT_NO_CAP_AMBIENT_RAISE = false ->
  (n ∈ cr_amb (foldl (raised true) c l) <-> n ∈ cr_amb c \/ n ∈ l /\ n ∈ cs_p (cr_caps c) /\ (n ∈ cs_i (cr_caps c) \/ inheritable c n)).
Proof.
  induction l as [|m l IH]; intros c n Hsec; cbn [foldl]; [set_solver|]. rewrite IH by done. rewrite elem_of_cons.
  assert (Hsame : inheritable (raised true c m) n <-> inheritable c n) by done. rewrite Hsame.
  assert (Hi : n ∈ cs_i (cr_caps (raised true c m)) <-> n ∈ cs_i (cr_caps c) \/ n = m /\ inheritable c n).
  { unfold raised. cbn. case_decide; [|naive_solver]. rewrite elem_of_union, elem_of_singleton. naive_solver. }
  assert (Ha : n ∈ cr_amb (raised true c m) <-> n ∈ cr_amb c \/ n = m /\ n ∈ cs_p (cr_caps c) /\ (n ∈ cs_i (cr_caps c) \/ inheritable c n)).
  { unfold raised. cbn. case_decide as H1; case_decide as H2; rewrite ?elem_of_union, ?elem_of_singleton in *; naive_solver. }
  rewrite Hi, Ha. change (cs_p (cr_caps (raised true c m))) with (cs_p (cr_caps c)). tauto.
Qed.

(** The option [-A]: every capability that the process has permitted, and that its bounding set allows, becomes
    inheritable and ambient; permitted, effective and bounding sets and the identifiers stay as they are. *)
Lemma raise_all_exact c out : creds_ok c -> bit_on (cr_sec c) SECBIT_NO_CAP_AMBIENT_RAISE = false ->
  exists c', raiseInheritableAndAmbientCaps true (Childp c out) = Ret tt (Childp c' out) /\
  (forall n, n ∈ cs_i (cr_caps c') <-> n ∈ cs_i (cr_caps c) \/ 0 <= n <= cap_last_cap /\ inheritable c n) /\
  (forall n, n ∈ cr_amb c' <-> n ∈ cr_amb c \/ 0 <= n <= cap_last_cap /\ n ∈ cs_p (cr_caps c) /\ (n ∈ cs_i (cr_caps c) \/ n ∈ cr_bound c)) /\
  cs_p (cr_caps c') = cs_p (cr_caps c) /\ cs_e (cr_caps c') = cs_e (cr_caps c) /\ cr_bound c' = cr_bound c /\ cr_uids c' = cr_uids c.
Proof.
  intros Hok Hsec. exists (foldl (raised true) c (seqZ 0 (cap_last_cap + 1))). split.
  { apply raise_caps_fold; [done|]. apply Forall_forall. intros n Hn%elem_of_seqZ. lia. }
  assert (Hin : forall n, n ∈ seqZ 0 (cap_last_cap + 1) <-> 0 <= n <= cap_last_cap) by (intros n; rewrite elem_of_seqZ; lia).
  destruct (raised_same true c (seqZ 0 (cap_last_cap + 1))) as (-> & -> & -> & _ & -> & _). split_and!; try done.
  - intros n. by rewrite raised_inheritable, Hin.
  - intros n. rewrite raised_ambient, Hin by done. unfold inheritable. naive_solver.
Qed.
End Caps.

(** ** Options *)

(** The letters that [printSecbits] prints for a set of flags, given to [-b], set these flags. *)
Lemma securebits_print_parse b : 0 <= b < 256 -> parse_securebits 0 (filter (fun c => c <> 45) (printSecbits b false)) = Some b.
Proof.
  intros Hb. assert (H : Forall (fun b => parse_securebits 0 (filter (fun c => c <> 45) (printSecbits b false)) = Some b) (seqZ 0 256)).
  { refine (bool_decide_unpack _ _). by vm_compute. }
  rewrite Forall_forall in H. apply H, elem_of_seqZ. lia.
Qed.

(** [-S] is among the letters of the option string and is documented, but the switch has no case for it. *)
Lemma option_S_refused v o : command_option (83, v) o = None.
Proof. by destruct o. Qed.
(** [-X] without a set does nothing. *)
Lemma option_X_without_sets `{K : CredKernel} name cap s : name <> [] -> cap_from_name name = Some cap ->
  modify_individual_capability (43 :: name) s = Ret tt s.
Proof.
  intros Hn Hc. unfold modify_individual_capability. change (find_op (43 :: name)) with (([] : list Z, false), 43 :: name). cbn iota beta.
  rewrite bool_decide_false by done. cbn [orb]. by rewrite Hc.
Qed.

Lemma command_option_cnt x o o' : command_option x o = Some o' ->
  Z.of_nat (length (opt_list o)) <= MAX_OPT -> Z.of_nat (length (opt_list o')) <= MAX_OPT.
Proof.
  destruct x as [opt v], o as [av fl rt dn vb um gm pm ol]. unfold command_option, with_flag. cbn [opt_list co_argv co_flags create_root_mappings deny_setgroups co_verbose uid_map gid_map projid_map].
  intros H Hl. repeat case_match; simplify_eq; try done; cbn [opt_list]; bsimp; rewrite length_app; cbn [length]; lia.
Qed.
(** Options that are accepted: the table of repeatable options is not overrun, maps are for a new user namespace, the root
    mappings exclude explicit ones, and there is a command. *)
Lemma parse_command_sound argv o : parse_command_options argv = Some o ->
  Z.of_nat (length (opt_list o)) <= MAX_OPT /\ co_argv o <> [] /\
  (is_Some (uid_map o) \/ is_Some (gid_map o) \/ is_Some (projid_map o) \/ create_root_mappings o = true -> bit_on (co_flags o) CLONE_NEWUSER = true) /\
  (create_root_mappings o = true -> uid_map o = None /\ gid_map o = None).
Proof.
  unfold parse_command_options. destruct (getopt_tlpi _ argv) as [l ops]. destruct (command_options_loop l opts0) as [o1|] eqn:E; [|done].
  assert (Hcnt : Z.of_nat (length (opt_list o1)) <= MAX_OPT).
  { assert (Z.of_nat (length (opt_list opts0)) <= MAX_OPT) as H0 by done. revert H0 E. generalize opts0. clear. induction l as [|x l IH]; intros o H0; cbn; [by intros [= <-]|].
    destruct (command_option x o) as [o'|] eqn:Ex; [|done]. apply IH. by eapply command_option_cnt. }
  destruct (_ || _) eqn:Eb; [done|]. destruct ops as [|w ops]; [done|]. intros [= <-]. cbn [opt_list co_argv uid_map gid_map projid_map create_root_mappings co_flags].
  apply orb_false_iff in Eb as [E1 E2]. split_and!; [done|done| |].
  - intros H. apply andb_false_iff in E1 as [E1|E1]; [|by apply negb_false_iff in E1]. exfalso.
    rewrite !orb_false_iff, !bool_decide_eq_false in E1. destruct E1 as [[[E3 E4] E5] E6].
    destruct H as [[? H]|[[? H]|[[? H]|H]]]; [apply E3|apply E4|apply E5|]; congruence.
  - intros H. rewrite H in E2. cbn in E2. rewrite orb_false_iff, !bool_decide_eq_false in E2. destruct E2 as [E3 E4].
    split; [destruct (uid_map o1)|destruct (gid_map o1)]; try done; exfalso; [by apply E3|by apply E4].
Qed.

(** ** A system *)

Module UsernsDemo.
Definition no_caps : creds := Creds ((0, 0), 0) 0 (Capsets ∅ ∅ ∅) ∅ ∅ 0.
#[local] Instance cred : CredKernel := {|
  cap_last_cap := 40; k_capset _ _ := None; k_amb_raise _ _ := false; k_amb_lower _ _ := true; k_bound_drop _ _ := false;
  k_set_securebits _ _ := false; k_setresuid _ _ _ _ := None; cap_from_name _ := None; cap_from_text _ := None; cap_text _ := None |}.
Definition proc (refused : bool) : ProcKernel := {|
  k_open_errno _ _ := if refused then Some EPERM else None; k_write_count _ _ bs := Z.of_nat (length bs); k_getuid := 1000; k_getgid := 100 |}.
Definition opts : cmd_options := CmdOptions [bytes "id"] CLONE_NEWUSER true true false None None None [].
Lemma opts_parsed : parse_command_options [bytes "userns_child_exec"; bytes "-Ur"; bytes "id"] = Some opts.
Proof. by vm_compute. Qed.
Definition written : plog :=
  [(bytes "/proc/7/uid_map", bytes "0 1000 1"); (bytes "/proc/7/setgroups", bytes "deny"); (bytes "/proc/7/gid_map", bytes "0 100 1")].
Lemma demo_run : nsteps (@ustep cred (proc false) opts no_caps (fun _ => true)) 7 (@ustart (proc false) opts 7 [])
  (Usys written PWaiting (CExec (Childp no_caps [])) false false).
Proof.
  eapply nsteps_l; [by apply u_child_close|]. do 3 (eapply nsteps_l; [apply u_map; vm_compute; reflexivity|]).
  eapply nsteps_l; [apply u_close|]. eapply nsteps_l; [apply u_eof|]. eapply nsteps_l; [by eapply u_exec|]. apply nsteps_O.
Qed.
(** Where the map file of the child may not be written the parent ends, and the child runs the command all the same. *)
Lemma child_runs_without_maps : exists st s, rtc (@ustep cred (proc true) opts no_caps (fun _ => true)) (@ustart (proc true) opts 7 []) st /\
  us_log st = [] /\ us_parent st = PExited (Err_sys "update_map: uid_map") /\ us_child st = CExec s.
Proof.
  exists (Usys [] (PExited (Err_sys "update_map: uid_map")) (CExec (Childp no_caps [])) false false), (Childp no_caps []). split; [|done].
  eapply rtc_l; [by apply u_child_close|]. eapply rtc_l; [eapply u_map_fails; vm_compute; reflexivity|].
  eapply rtc_l; [apply u_eof|]. eapply rtc_l; [by eapply u_exec|]. apply rtc_refl.
Qed.
End UsernsDemo.

Lemma userns_child_waits_witness :
  @update_child_maps (UsernsDemo.proc false) UsernsDemo.opts 7 [] = Ret tt UsernsDemo.written /\ (7 <= 3 + 6)%nat.
Proof.
  destruct (@userns_child_waits UsernsDemo.cred (UsernsDemo.proc false) UsernsDemo.opts 7 UsernsDemo.no_caps (fun _ => true) [] 7 _ UsernsDemo.demo_run) as (H1 & H2 & _).
  split; [|exact H2]. destruct (H1 eq_refl) as [H|(e & H & _)]; [exact H|discriminate H].
Defined.
