(* ===== verification/PidFile.v ===== *)
(** One instance of a daemon: [createPidFile] of [src/tlpi-dist/filelock/create_pid_file.c] with [lockRegion] of
    [region_locking.c], and [already_running] of [src/apue2e/daemons/single.c] with [lockfile] of [lockfile.c].

    Any number of processes execute them, one system call at a time and in any order; each call may fail. *)
From S2P Require Import Prelude CStr FileIO.

(** The name of the PID file leads to an inode or to none; the contents of inodes and who has a write lock on one. *)
Record pkern := Pkern { pk_dir : option Z; pk_text : gmap Z (list Z); pk_lock : gmap Z Z; pk_new : Z }.

(** The two functions. *)
Inductive variant := CreatePidFile (cloexec : bool) | AlreadyRunning.
(** Where a process is: before the call given in the name, on the inode that its descriptor is for. *)
Inductive pfpc :=
  | PfOpen | PfGetfd (i : Z) | PfSetfd (i : Z) | PfLock (i : Z) | PfTruncate (i : Z) | PfWrite (i : Z)
  | PfRuns (i : Z)                  (* the function has returned: this is the instance *)
  | PfRefused                       (* told that another instance runs *)
  | PfFailed.                       (* ended by an error *)

(** [open(pidFile, O_RDWR | O_CREAT, ...)] *)
Definition open_pid_file (k : pkern) : Z * pkern :=
  match pk_dir k with
  | Some i => (i, k)
  | None => (pk_new k, Pkern (Some (pk_new k)) (<[pk_new k := []]> (pk_text k)) (pk_lock k) (pk_new k + 1))
  end.
(** [fcntl(fd, F_SETLK, ...)] for a write lock on the whole file: [lockReg] with start 0 and length 0. *)
Definition lockRegion (pid i : Z) (k : pkern) : option pkern :=
  match pk_lock k !! i with
  | Some q => if q =? pid then Some k else None
  | None => Some (Pkern (pk_dir k) (pk_text k) (<[i := pid]> (pk_lock k)) (pk_new k))
  end.
Definition set_text (i : Z) (f : list Z -> list Z) (k : pkern) : pkern := Pkern (pk_dir k) (alter f i (pk_text k)) (pk_lock k) (pk_new k).

(** The next call of a process, [ok] unless it fails for a reason of its own. *)
Definition createPidFile (cloexec : bool) (pid : Z) (ok : bool) (pc : pfpc) (k : pkern) : option (pfpc * pkern) :=
  match pc with
  | PfOpen => if negb ok then Some (PfFailed, k) else let '(i, k') := open_pid_file k in Some (if cloexec then PfGetfd i else PfLock i, k')
  | PfGetfd i => Some (if ok then PfSetfd i else PfFailed, k)
  | PfSetfd i => Some (if ok then PfLock i else PfFailed, k)
  | PfLock i =>
      if negb ok then Some (PfFailed, k) else
      match lockRegion pid i k with
      | Some k' => Some (PfTruncate i, k')
      | None => Some (PfRefused, k)
      end
  | PfTruncate i => if negb ok then Some (PfFailed, k) else Some (PfWrite i, set_text i (fun _ => []) k)
  | PfWrite i =>
      if negb ok then Some (PfFailed, k)
      else Some (PfRuns i, set_text i (fun t => write_at t 0 (dec pid ++ [NEWLINE])) k)
  | PfRuns _ | PfRefused | PfFailed => None
  end.
(** [lockfile]: the same request *)
Definition lockfile (pid i : Z) (k : pkern) : option pkern := lockRegion pid i k.
(** Whether the truncation and the writing succeed is not looked at; the null byte is written too. *)
Definition already_running (pid : Z) (ok : bool) (pc : pfpc) (k : pkern) : option (pfpc * pkern) :=
  match pc with
  | PfOpen => if negb ok then Some (PfFailed, k) else let '(i, k') := open_pid_file k in Some (PfLock i, k')
  | PfLock i =>
      if negb ok then Some (PfFailed, k) else
      match lockfile pid i k with
      | Some k' => Some (PfTruncate i, k')
      | None => Some (PfRefused, k)
      end
  | PfTruncate i => Some (PfWrite i, if ok then set_text i (fun _ => []) k else k)
  | PfWrite i => Some (PfRuns i, if ok then set_text i (fun t => write_at t 0 (dec pid ++ [0])) k else k)
  | PfGetfd _ | PfSetfd _ | PfRuns _ | PfRefused | PfFailed => None
  end.
Definition pf_call (v : variant) : Z -> bool -> pfpc -> pkern -> option (pfpc * pkern) :=
  match v with CreatePidFile cloexec => createPidFile cloexec | AlreadyRunning => already_running end.

(** Processes and the kernel. *)
Record psys := Psys { ps_kern : pkern; ps_procs : gmap Z (variant * pfpc) }.
(** The end of a process takes its locks away. *)
Definition release (pid : Z) (k : pkern) : pkern := Pkern (pk_dir k) (pk_text k) (filter (fun '(_, q) => q <> pid) (pk_lock k)) (pk_new k).
(** The caller is responsible for deleting the file before it ends. *)
Definition unlink_pid_file (k : pkern) : pkern := Pkern None (pk_text k) (pk_lock k) (pk_new k).

Inductive pf_step (deleting : bool) : psys -> psys -> Prop :=
  | pf_start k ps pid v : ps !! pid = None -> pf_step deleting (Psys k ps) (Psys k (<[pid := (v, PfOpen)]> ps))
  | pf_next k k' ps pid v pc pc' ok : ps !! pid = Some (v, pc) -> pf_call v pid ok pc k = Some (pc', k') ->
      pf_step deleting (Psys k ps) (Psys k' (<[pid := (v, pc')]> ps))
  | pf_end k ps pid : is_Some (ps !! pid) -> pf_step deleting (Psys k ps) (Psys (release pid k) (delete pid ps))
  | pf_delete k ps pid v i : deleting = true -> ps !! pid = Some (v, PfRuns i) ->
      pf_step deleting (Psys k ps) (Psys (unlink_pid_file k) ps).
Definition psys0 : psys := Psys (Pkern None ∅ ∅ 0) ∅.

(** ** One instance *)

Definition inode_of (pc : pfpc) : option Z :=
  match pc with
  | PfGetfd i | PfSetfd i | PfLock i | PfTruncate i | PfWrite i | PfRuns i => Some i
  | PfOpen | PfRefused | PfFailed => None
  end.
Definition locked_at (pc : pfpc) : option Z := match pc with PfTruncate i | PfWrite i | PfRuns i => Some i | _ => None end.

(** Everyone works on the inode of the name, and whoever has got past the lock has it; a process that
    [createPidFile] has let run finds its own PID in the file. *)
Definition psys_ok (st : psys) : Prop :=
  (forall pid v pc i, ps_procs st !! pid = Some (v, pc) -> inode_of pc = Some i -> pk_dir (ps_kern st) = Some i /\ is_Some (pk_text (ps_kern st) !! i)) /\
  (forall pid v pc i, ps_procs st !! pid = Some (v, pc) -> locked_at pc = Some i -> pk_lock (ps_kern st) !! i = Some pid) /\
  (forall i, pk_dir (ps_kern st) = Some i -> is_Some (pk_text (ps_kern st) !! i)) /\
  (forall pid c i, ps_procs st !! pid = Some (CreatePidFile c, PfWrite i) -> pk_text (ps_kern st) !! i = Some []) /\
  (forall pid c i, ps_procs st !! pid = Some (CreatePidFile c, PfRuns i) -> pk_text (ps_kern st) !! i = Some (dec pid ++ [NEWLINE])).

Lemma psys_ok_one st p q v w pc pc' i j : psys_ok st -> ps_procs st !! p = Some (v, pc) -> ps_procs st !! q = Some (w, pc') ->
  locked_at pc = Some i -> locked_at pc' = Some j -> p = q.
Proof.
  intros (H1 & H2 & _) Hp Hq Hi Hj. assert (inode_of pc = Some i) as Hi' by (by destruct pc). assert (inode_of pc' = Some j) as Hj' by (by destruct pc').
  destruct (H1 _ _ _ _ Hp Hi') as [E1 _]. destruct (H1 _ _ _ _ Hq Hj') as [E2 _]. assert (i = j) as -> by congruence.
  pose proof (H2 _ _ _ _ Hp Hi). pose proof (H2 _ _ _ _ Hq Hj). congruence.
Qed.

(** A step of one process on its own inode keeps the invariant when it leaves the name, the files' existence
    and the locks and texts of the others alone. *)
Lemma psys_ok_step k k' ps pid v pc' :
  psys_ok (Psys k ps) -> pk_dir k' = pk_dir k ->
  (forall i, is_Some (pk_text k !! i) -> is_Some (pk_text k' !! i)) ->
  (forall i q, q <> pid -> pk_lock k !! i = Some q -> pk_lock k' !! i = Some q) ->
  (forall i q w pc, q <> pid -> ps !! q = Some (w, pc) -> locked_at pc = Some i -> pk_text k' !! i = pk_text k !! i) ->
  (forall i, inode_of pc' = Some i -> pk_dir k = Some i) ->
  (forall i, locked_at pc' = Some i -> pk_lock k' !! i = Some pid) ->
  (forall c i, v = CreatePidFile c -> pc' = PfWrite i -> pk_text k' !! i = Some []) ->
  (forall c i, v = CreatePidFile c -> pc' = PfRuns i -> pk_text k' !! i = Some (dec pid ++ [NEWLINE])) ->
  psys_ok (Psys k' (<[pid := (v, pc')]> ps)).
Proof.
  intros (H1 & H2 & H3 & H4 & H5) Hdir Htext Hlock Hother Hin Hhold Hw Hr. unfold psys_ok in *. cbn [ps_kern ps_procs] in *. rewrite Hdir. split_and!.
  - intros q w pc i [[<- [= <- <-]]|[Hq Hl]]%lookup_insert_Some E; [split; [by apply Hin|by apply Htext, H3, Hin]|].
    destruct (H1 _ _ _ _ Hl E) as [? ?]. split; [done|by apply Htext].
  - intros q w pc i [[<- [= <- <-]]|[Hq Hl]]%lookup_insert_Some E; [by apply Hhold|]. apply Hlock; [done|by eapply H2].
  - intros i E. by apply Htext, H3.
  - intros q c i [[<- [= -> ->]]|[Hq Hl]]%lookup_insert_Some; [by eapply Hw|]. rewrite (Hother i q _ _ ltac:(done) Hl eq_refl). by eapply H4.
  - intros q c i [[<- [= -> ->]]|[Hq Hl]]%lookup_insert_Some; [by eapply Hr|]. rewrite (Hother i q _ _ ltac:(done) Hl eq_refl). by eapply H5.
Qed.

(** What the calls do to the kernel. *)
Lemma lockRegion_some pid i k k' : lockRegion pid i k = Some k' ->
  pk_dir k' = pk_dir k /\ pk_text k' = pk_text k /\ pk_lock k' !! i = Some pid /\ forall j q, q <> pid -> pk_lock k !! j = Some q -> pk_lock k' !! j = Some q.
Proof.
  unfold lockRegion. destruct (pk_lock k !! i) as [q|] eqn:E; [destruct (Z.eqb_spec q pid) as [->|]; [|done]|]; intros [= <-]; cbn; [done|].
  split_and!; [done|done|by rewrite lookup_insert_eq|]. intros j q Hq Hj. rewrite lookup_insert_ne; [done|congruence].
Qed.
Lemma psys_ok_open k ps : psys_ok (Psys k ps) -> forall i k', open_pid_file k = (i, k') ->
  psys_ok (Psys k' ps) /\ pk_dir k' = Some i.
Proof.
  intros Hok i k' E. unfold open_pid_file in E. destruct (pk_dir k) as [j|] eqn:Ed; injection E as <- <-; [by split|]. split; [|done].
  destruct Hok as (H1 & H2 & H3 & H4 & H5). unfold psys_ok in *. cbn [ps_kern ps_procs pk_dir pk_text pk_lock] in *.
  assert (Hno : forall p v pc i, ps !! p = Some (v, pc) -> inode_of pc = Some i -> False).
  { intros p v pc i Hp Hi. destruct (H1 _ _ _ _ Hp Hi) as [H _]. congruence. }
  split_and!.
  - intros p v pc i Hp Hi. by destruct (Hno _ _ _ _ Hp Hi).
  - intros p v pc i Hp Hi. by eapply H2.
  - intros i [= <-]. rewrite lookup_insert_eq. by eexists.
  - intros p c i Hp. by destruct (Hno _ _ _ i Hp).
  - intros p c i Hp. by destruct (Hno _ _ _ i Hp).
Qed.

Lemma set_text_id i k : set_text i (fun t => t) k = k.
Proof.
  destruct k as [d tx l n]. unfold set_text. cbn. f_equal. apply map_eq. intros j.
  destruct (decide (i = j)) as [<-|]; [rewrite lookup_alter_eq; by destruct (tx !! i)|by rewrite lookup_alter_ne].
Qed.
Lemma psys_ok_call k k' ps pid v pc pc' ok : psys_ok (Psys k ps) -> ps !! pid = Some (v, pc) ->
  pf_call v pid ok pc k = Some (pc', k') -> psys_ok (Psys k' (<[pid := (v, pc')]> ps)).
Proof.
  intros Hok Hp Hc. pose proof Hok as (H1 & H2 & H3 & H4 & H5). cbn [ps_kern ps_procs] in *.
  assert (Hquiet : inode_of pc' = inode_of pc \/ inode_of pc' = None -> locked_at pc' = None -> psys_ok (Psys k (<[pid := (v, pc')]> ps))).
  { intros Hi Hl. apply (psys_ok_step k); try done; try (by intros i; rewrite Hl); try (intros; subst; done).
    intros i Hin. destruct Hi as [Hi|Hi]; rewrite Hi in Hin; [|done]. by eapply H1. }
  assert (Hmine : forall i f, locked_at pc = Some i -> locked_at pc' = Some i ->
    (forall c j, v = CreatePidFile c -> pc' = PfWrite j -> f <$> pk_text k !! j = Some []) ->
    (forall c j, v = CreatePidFile c -> pc' = PfRuns j -> f <$> pk_text k !! j = Some (dec pid ++ [NEWLINE])) ->
    psys_ok (Psys (set_text i f k) (<[pid := (v, pc')]> ps))).
  { intros i f Hi Hi' Hw Hr. assert (inode_of pc' = Some i) as Hin by (by destruct pc'). assert (inode_of pc = Some i) as Hin0 by (by destruct pc).
    apply (psys_ok_step k); try done; cbn [set_text pk_text pk_lock].
    - intros j [t Hj]. destruct (decide (i = j)) as [<-|]; [rewrite lookup_alter_eq, Hj|rewrite lookup_alter_ne, Hj by done]; by eexists.
    - intros j q w pc0 Hq Hl Hj. apply lookup_alter_ne. intros <-. apply Hq. symmetry. by eapply (psys_ok_one (Psys k ps)).
    - intros j Hj. rewrite Hin in Hj. injection Hj as <-. by eapply H1.
    - intros j Hj. rewrite Hi' in Hj. injection Hj as <-. by eapply H2.
    - intros c j Hv Hj. subst pc'. cbn in Hi'. injection Hi' as ->. rewrite lookup_alter_eq. by eapply Hw.
    - intros c j Hv Hj. subst pc'. cbn in Hi'. injection Hi' as ->. rewrite lookup_alter_eq. by eapply Hr. }
  assert (Hopened : forall i k1 pc1, open_pid_file k = (i, k1) -> inode_of pc1 = Some i -> locked_at pc1 = None -> psys_ok (Psys k1 (<[pid := (v, pc1)]> ps))).
  { intros i k1 pc1 Eo Hi Hl. destruct (psys_ok_open k ps Hok i k1 Eo) as [Hok1 Hd]. apply (psys_ok_step k1); try done; intros j; rewrite ?Hi, ?Hl; try done.
    all: try (by intros [= <-]). all: intros c Hv ->; done. }
  assert (Hlocked : forall i k1, pc = PfLock i -> lockRegion pid i k = Some k1 -> psys_ok (Psys k1 (<[pid := (v, PfTruncate i)]> ps))).
  { intros i k1 -> El. destruct (lockRegion_some _ _ _ _ El) as (E1 & E2 & E3 & E4). apply (psys_ok_step k); try done.
    - intros j. by rewrite E2.
    - intros. by rewrite E2.
    - intros j [= <-]. by eapply H1.
    - intros j [= <-]. done. }
  assert (Htext : forall i, inode_of pc = Some i -> is_Some (pk_text k !! i)) by (intros i Hi; by eapply H1).
  destruct v as [c|], pc as [|i|i|i|i|i|i| |]; cbn [pf_call createPidFile already_running] in Hc; unfold lockfile in Hc; try done;
    try (match type of Hc with context [open_pid_file k] => destruct (open_pid_file k) as [i0 k0] eqn:Eo end); try (match type of Hc with context [lockRegion pid i k] => destruct (lockRegion pid i k) eqn:El end);
    destruct ok; cbn [negb] in Hc; injection Hc as <- <-; try (by apply Hquiet; [(by left) || (by right)|]); try (by eapply Hlocked); try (destruct c; by eapply Hopened); try (by eapply Hopened).
  - destruct (Htext i eq_refl) as [t Ht]. apply Hmine; try done. intros c' j _ [= <-]. by rewrite Ht.
  - apply Hmine; try done. intros c' j [= <-] [= <-]. rewrite (H4 _ _ _ Hp). cbn [fmap option_fmap option_map]. unfold write_at. cbn [length Nat.sub replicate app take]. by rewrite drop_nil, app_nil_r.
  - by apply Hmine.
  - rewrite <- (set_text_id i k). by apply Hmine.
  - by apply Hmine.
  - rewrite <- (set_text_id i k). by apply Hmine.
Qed.

Lemma psys_ok_reach st : rtc (pf_step false) psys0 st -> psys_ok st.
Proof.
  assert (Hok0 : psys_ok psys0) by (by repeat split; intros).
  intros H. revert Hok0. induction H as [|x y z Hs _ IH]; [done|]. intros Hok. apply IH. clear IH z.
  destruct Hs as [k ps pid v Hn|k k' ps pid v pc pc' ok Hp Hc|k ps pid Hp|k ps pid v i [=]].
  - apply (psys_ok_step k); done.
  - by eapply psys_ok_call.
  - destruct Hok as (H1 & H2 & H3 & H4 & H5). unfold psys_ok in *. cbn [ps_kern ps_procs release pk_dir pk_text pk_lock] in *. split_and!.
    + intros q v pc i [Hq Hl]%lookup_delete_Some. by eapply H1.
    + intros q v pc i [Hq Hl]%lookup_delete_Some Hi. apply map_lookup_filter_Some. split; [by eapply H2|congruence].
    + done.
    + intros q c i [Hq Hl]%lookup_delete_Some. by eapply H4.
    + intros q c i [Hq Hl]%lookup_delete_Some. by eapply H5.
Qed.

(** C34: as long as nobody deletes the PID file, and whatever calls fail and whenever processes start and end, at most one of the processes
    that execute [createPidFile] or [already_running] on it is past the lock; and one that [createPidFile] has let run
    finds in the file its own process ID and nothing else. *)
Theorem pid_file_single_instance st p q v w pc pc' : rtc (pf_step false) psys0 st ->
  ps_procs st !! p = Some (v, pc) -> ps_procs st !! q = Some (w, pc') -> is_Some (locked_at pc) -> is_Some (locked_at pc') ->
  p = q /\
  (forall c i, v = CreatePidFile c -> pc = PfRuns i -> pk_dir (ps_kern st) = Some i /\ pk_text (ps_kern st) !! i = Some (dec p ++ [NEWLINE])).
Proof.
  intros Hr%psys_ok_reach Hp Hq [i Hi] [j Hj]. split; [by eapply psys_ok_one|].
  intros c i' -> ->. destruct Hr as (H1 & _ & _ & _ & H5). split; [by eapply (H1 p)|by eapply H5].
Qed.

(** A process alone is let run. *)
Module PidDemo.
Definition call (pid : Z) (st : psys) : psys :=
  match ps_procs st !! pid with
  | Some (v, pc) => match pf_call v pid true pc (ps_kern st) with Some (pc', k') => Psys k' (<[pid := (v, pc')]> (ps_procs st)) | None => st end
  | None => st
  end.
Definition start (pid : Z) (v : variant) (st : psys) : psys := Psys (ps_kern st) (<[pid := (v, PfOpen)]> (ps_procs st)).
Lemma call_step d pid st v pc pc' k' : ps_procs st !! pid = Some (v, pc) -> pf_call v pid true pc (ps_kern st) = Some (pc', k') -> pf_step d st (call pid st).
Proof. intros H1 H2. destruct st as [k ps]. unfold call. cbn [ps_kern ps_procs] in *. rewrite H1, H2. by eapply pf_next. Qed.
Definition one : psys := call 7 (call 7 (call 7 (call 7 (start 7 (CreatePidFile false) psys0)))).
Lemma one_reach : rtc (pf_step false) psys0 one.
Proof.
  eapply rtc_l; [by apply (pf_start _ _ _ 7 (CreatePidFile false))|]. do 4 (eapply rtc_l; [eapply (call_step _ 7); vm_compute; reflexivity|]). apply rtc_refl.
Qed.
(** With the deletion that the comment asks of the caller: 8 opens the file while 7 runs, 7 deletes it and ends, 8 locks the inode that
    has no name any more, and 9 makes a new file: 8 and 9 both run. *)
Definition before_delete : psys := call 8 (start 8 (CreatePidFile false) one).
Definition deleted : psys := Psys (unlink_pid_file (ps_kern before_delete)) (ps_procs before_delete).
Definition ended : psys := Psys (release 7 (ps_kern deleted)) (delete 7 (ps_procs deleted)).
Definition two : psys := call 9 (call 9 (call 9 (call 9 (start 9 (CreatePidFile false) (call 8 (call 8 (call 8 ended))))))).
Lemma two_instances : rtc (pf_step true) psys0 two /\
  ps_procs two !! 8 = Some (CreatePidFile false, PfRuns 0) /\ ps_procs two !! 9 = Some (CreatePidFile false, PfRuns 1).
Proof.
  split; [|by vm_compute].
  eapply rtc_l; [by apply (pf_start _ _ _ 7 (CreatePidFile false))|]. do 4 (eapply rtc_l; [eapply (call_step _ 7); vm_compute; reflexivity|]).
  eapply rtc_l; [by apply (pf_start _ _ _ 8 (CreatePidFile false))|]. eapply rtc_l; [eapply (call_step _ 8); vm_compute; reflexivity|].
  eapply rtc_l; [by apply (pf_delete _ _ _ 7 (CreatePidFile false) 0)|]. eapply rtc_l; [apply (pf_end _ _ _ 7); vm_compute; by eexists|].
  do 3 (eapply rtc_l; [eapply (call_step _ 8); vm_compute; reflexivity|]).
  eapply rtc_l; [by apply (pf_start _ _ _ 9 (CreatePidFile false))|]. do 4 (eapply rtc_l; [eapply (call_step _ 9); vm_compute; reflexivity|]). apply rtc_refl.
Qed.
End PidDemo.

Lemma pid_file_single_instance_witness : 7 = 7 /\ pk_text (ps_kern PidDemo.one) !! 0 = Some (dec 7 ++ [NEWLINE]).
Proof.
  destruct (pid_file_single_instance PidDemo.one 7 7 (CreatePidFile false) (CreatePidFile false) (PfRuns 0) (PfRuns 0) PidDemo.one_reach) as [H1 H2];
    [vm_compute; reflexivity|vm_compute; reflexivity|eexists; reflexivity|eexists; reflexivity|].
  split; [exact H1|]. exact (proj2 (H2 false 0 eq_refl eq_refl)).
Defined.
