(* ===== verification/Setenv.v ===== *)
(** The environment: [unsetenv] and [setenv] of [src/tlpi-dist/proc/setenv.c].

    [environ] is an array of pointers to strings that ends with a null pointer, as the list of its elements. *)
From S2P Require Import Prelude CStr.

Definition EQUALS : Z := 61.
(** An element of the array: a string or the null pointer. *)
Notation envp := (list (option (list Z))).
(** The array of some strings, with whatever is behind its end. *)
Definition env_array (l : list (list Z)) (j : envp) : envp := map Some l ++ None :: j.

(** [strncmp(s, name, len) == 0 && s[len] == '='] *)
Definition is_entry (name s : list Z) : bool :=
  bool_decide (take (length name) s = name) && bool_decide (s !! length name = Some EQUALS).
(** [for (sp = ep; *sp != NULL; sp++) *sp = *(sp + 1);] from [ep] on. *)
Fixpoint shift (a : envp) : envp :=
  match a with
  | Some _ :: ((y :: _) as a') => y :: shift a'
  | _ => a
  end.
(** The loop of [unsetenv] from [ep] on; an array without an end is read past it. *)
Fixpoint unset_loop (fuel : nat) (name : list Z) (a : envp) : option envp :=
  match fuel, a with
  | O, _ | _, [] => None
  | S fuel, None :: _ => Some a
  | S fuel, Some s :: a' => if is_entry name s then unset_loop fuel name (shift a) else cons (Some s) <$> unset_loop fuel name a'
  end.

(** The process: [environ] and [errno]. *)
Record envproc := EnvProc { environ : envp; env_errno : Z }.
Definition EINVAL_ENV : Z := 22.
Definition bad_name (name : option (list Z)) : bool :=
  match name with None => true | Some n => bool_decide (n = []) || bool_decide (EQUALS ∈ n) end.
Definition set_environ (a : envp) (s : envproc) : envproc := EnvProc a (env_errno s).

Definition unsetenv (name : option (list Z)) : M envproc Z := fun s =>
  if bad_name name then Ret (-1) (EnvProc (environ s) EINVAL_ENV) else
  match unset_loop (S (length (environ s))) (default [] name) (environ s) with
  | None => Exit (Undefined "environ has no end") s
  | Some a => Ret 0 (set_environ a s)
  end.

(** The functions of the C library that [setenv] calls: [getenv] finds the first entry of a name; [putenv] makes
    a string an entry, in the place of an entry of the same name or at the end.  [malloc] and [putenv] may fail, at any call. *)
Class EnvLib := putenv : list Z -> envp -> envp.
Record memory := Memory { malloc_ok : bool; putenv_ok : bool }.
Fixpoint getenv (name : list Z) (a : envp) : option (list Z) :=
  match a with
  | Some s :: a' => if is_entry name s then Some (drop (S (length name)) s) else getenv name a'
  | _ => None
  end.

(** The string [name=value] and [putenv]. *)
Definition put_entry `{EnvLib} (mem : memory) (n v : list Z) : M envproc Z := fun s =>
  if negb (malloc_ok mem) then Ret (-1) s
  else if putenv_ok mem then Ret 0 (set_environ (putenv (n ++ [EQUALS] ++ v) (environ s)) s)
  else Ret (-1) s.
Definition setenv `{EnvLib} (mem : memory) (name value : option (list Z)) (overwrite : Z) : M envproc Z :=
  match value with
  | None => modify (fun s => EnvProc (environ s) EINVAL_ENV) ;; mret (-1)
  | Some v =>
      if bad_name name then modify (fun s => EnvProc (environ s) EINVAL_ENV) ;; mret (-1) else
      let n := default [] name in
      s ← get;
      if bool_decide (getenv n (environ s) <> None) && (overwrite =? 0) then mret 0 else
      unsetenv name ;; put_entry mem n v
  end.

(** ** The environment as a map *)

(** putenv(3), for a name that has no entry yet. *)
Class EnvLaws (L : EnvLib) :=
  putenv_new : forall n v l j, Forall (fun s => is_entry n s = false) l -> EQUALS ∉ n ->
    exists j', putenv (n ++ [EQUALS] ++ v) (env_array l j) = env_array (l ++ [n ++ [EQUALS] ++ v]) j'.

Lemma is_entry_iff name s : is_entry name s = true <-> exists v, s = name ++ [EQUALS] ++ v.
Proof.
  unfold is_entry. rewrite andb_true_iff, !bool_decide_eq_true. split.
  - intros [H1 H2]. exists (drop (S (length name)) s). rewrite <- H1 at 1. cbn [app]. by rewrite take_drop_middle.
  - intros [v ->]. rewrite take_app_length. split; [done|]. rewrite lookup_app_r, Nat.sub_diag by lia. done.
Qed.
(** Names without [=] are told apart by their entries. *)
Lemma is_entry_name n m v : EQUALS ∉ n -> EQUALS ∉ m -> is_entry n (m ++ [EQUALS] ++ v) = bool_decide (n = m).
Proof.
  intros Hn Hm. apply eq_iff_eq_true. rewrite is_entry_iff, bool_decide_eq_true. split; [|intros ->; by eexists].
  intros [w E]. cbn [app] in E. pose proof (split_at_found EQUALS n w Hn) as H1. pose proof (split_at_found EQUALS m v Hm) as H2.
  rewrite E in H2. congruence.
Qed.

Lemma shift_env s l j : shift (Some s :: env_array l j) = env_array l (None :: j).
Proof.
  revert s. induction l as [|t l IH]; intros s; [done|]. unfold env_array in *. cbn [map app].
  change (shift (Some s :: Some t :: ?x)) with (Some t :: shift (Some t :: x)). by rewrite IH.
Qed.
Lemma env_cons s l j : env_array (s :: l) j = Some s :: env_array l j.
Proof. done. Qed.
(** The loop leaves exactly the entries of other names, in their order. *)
Lemma unset_loop_env name fuel : forall l j, (length l < fuel)%nat ->
  exists j', unset_loop fuel name (env_array l j) = Some (env_array (filter (fun s => is_entry name s = false) l) j').
Proof.
  induction fuel as [|fuel IH]; intros l j Hf; [lia|]. destruct l as [|s l]; [by exists j|]. cbn [length] in Hf.
  rewrite env_cons. cbn [unset_loop]. rewrite filter_cons. destruct (is_entry name s) eqn:E.
  - rewrite shift_env, decide_False by done. apply IH. lia.
  - rewrite decide_True by done. destruct (IH l j) as [j' Hj]; [lia|]. exists j'. by rewrite Hj.
Qed.
Lemma getenv_junk n l j j' : getenv n (env_array l j) = getenv n (env_array l j').
Proof. induction l as [|s l IH]; [done|]. rewrite !env_cons. cbn [getenv]. by rewrite IH. Qed.
Lemma getenv_app n l v m j j' : EQUALS ∉ n -> EQUALS ∉ m ->
  getenv n (env_array (l ++ [m ++ [EQUALS] ++ v]) j') = match getenv n (env_array l j) with Some x => Some x | None => if decide (n = m) then Some v else None end.
Proof.
  intros Hn Hm. induction l as [|s l IH].
  - change (env_array ([] ++ [m ++ [EQUALS] ++ v]) j') with (Some (m ++ [EQUALS] ++ v) :: None :: j'). cbn [getenv]. rewrite is_entry_name by done.
    case_bool_decide as E; [subst; rewrite decide_True by done|by rewrite decide_False]. f_equal. cbn [app]. replace (S (length m)) with (length (m ++ [EQUALS])) by (rewrite length_app; cbn; lia). change (m ++ EQUALS :: v) with (m ++ [EQUALS] ++ v). by rewrite app_assoc, drop_app_length.
  - rewrite <- app_comm_cons, !env_cons. cbn [getenv]. by destruct (is_entry n s).
Qed.

(** The value of every name, in an environment with its entries as [l] has them. *)
Definition env_rep (a : envp) (m : gmap (list Z) (list Z)) : Prop :=
  exists l j, a = env_array l j /\ forall n, n <> [] -> EQUALS ∉ n -> getenv n a = m !! n.
Definition good_name (n : list Z) : Prop := n <> [] /\ EQUALS ∉ n.
Lemma good_name_ok n : good_name n -> bad_name (Some n) = false.
Proof. intros [H1 H2]. cbn. by rewrite !bool_decide_false. Qed.
Lemma bad_name_cases name : bad_name name = true \/ exists n, name = Some n /\ good_name n.
Proof.
  destruct name as [n|]; [|by left]. cbn. destruct (decide (n = [])); [left; by rewrite bool_decide_true|]. destruct (decide (EQUALS ∈ n)); [left; by rewrite (bool_decide_true (EQUALS ∈ n)), orb_true_r|].
  right. by exists n.
Qed.

Lemma filter_other n m (l : list (list Z)) j j' : EQUALS ∉ n -> EQUALS ∉ m -> n <> m ->
  getenv m (env_array (filter (fun s => is_entry n s = false) l) j') = getenv m (env_array l j).
Proof.
  intros Hn Hm Hne. induction l as [|s l IH]; [done|]. rewrite filter_cons, env_cons. cbn [getenv]. case_decide as E.
  - rewrite env_cons. cbn [getenv]. by rewrite IH.
  - rewrite IH. apply not_false_is_true, is_entry_iff in E as [v ->]. rewrite is_entry_name, bool_decide_false by done. done.
Qed.
Lemma filter_self n (l : list (list Z)) j : getenv n (env_array (filter (fun s => is_entry n s = false) l) j) = None.
Proof. induction l as [|s l IH]; [done|]. rewrite filter_cons. case_decide as E; [|done]. rewrite env_cons. cbn [getenv]. by rewrite E. Qed.

Lemma unsetenv_run n s m : good_name n -> env_rep (environ s) m ->
  exists l j, unsetenv (Some n) s = Ret 0 (set_environ (env_array l j) s) /\ Forall (fun s => is_entry n s = false) l /\ env_rep (env_array l j) (delete n m).
Proof.
  intros Hg (l & j & El & Hl). exists (filter (fun s => is_entry n s = false) l). unfold unsetenv. rewrite good_name_ok, El by done. change (default [] (Some n)) with n.
  destruct (unset_loop_env n (S (length (env_array l j))) l j) as [j' Hj]; [unfold env_array; rewrite length_app, length_map; lia|].
  exists j'. rewrite Hj. split; [done|]. split.
  - apply Forall_forall. intros s' [H _]%list_elem_of_filter. done.
  - do 2 eexists. split; [done|]. intros k Hk1 Hk2. destruct Hg as [_ Hg]. destruct (decide (n = k)) as [->|].
    + by rewrite lookup_delete_eq, filter_self.
    + rewrite lookup_delete_ne, (filter_other n k l j), <- El by done. by apply Hl.
Qed.

(** ** Calls *)

Inductive env_call := SetEnv (mem : memory) (name value : option (list Z)) (overwrite : Z) | UnsetEnv (name : option (list Z)).
(** What a call returns and makes of the variables. *)
Definition env_spec (c : env_call) (m : gmap (list Z) (list Z)) : Z * gmap (list Z) (list Z) :=
  match c with
  | SetEnv mem (Some n) (Some v) ow =>
      if bad_name (Some n) then (-1, m)
      else if decide (is_Some (m !! n) /\ ow = 0) then (0, m)
      else if malloc_ok mem && putenv_ok mem then (0, <[n := v]> m) else (-1, delete n m)
  | SetEnv _ _ _ _ => (-1, m)
  | UnsetEnv name => if bad_name name then (-1, m) else (0, delete (default [] name) m)
  end.
Fixpoint env_specs (cs : list env_call) (m : gmap (list Z) (list Z)) : list Z * gmap (list Z) (list Z) :=
  match cs with
  | [] => ([], m)
  | c :: cs' => let '(r, m1) := env_spec c m in let '(rs, m2) := env_specs cs' m1 in (r :: rs, m2)
  end.

Section Calls.
Context `{L : EnvLib} `{!EnvLaws L}.
Definition env_run (c : env_call) : M envproc Z :=
  match c with SetEnv mem n v ow => setenv mem n v ow | UnsetEnv n => unsetenv n end.
Fixpoint env_runs (cs : list env_call) : M envproc (list Z) :=
  match cs with [] => mret [] | c :: cs' => r ← env_run c; rs ← env_runs cs'; mret (r :: rs) end.

Lemma setenv_ok mem n v ow s m : good_name n -> env_rep (environ s) m ->
  exists s', setenv mem (Some n) (Some v) ow s = Ret (env_spec (SetEnv mem (Some n) (Some v) ow) m).1 s' /\ env_rep (environ s') (env_spec (SetEnv mem (Some n) (Some v) ow) m).2.
Proof.
  intros Hg Hr. unfold setenv. cbn [env_spec]. rewrite good_name_ok by done. change (default [] (Some n)) with n. rewrite (bind_ret get _ s s s eq_refl).
  pose proof Hr as (l0 & j0 & El0 & Hl0). rewrite (Hl0 n) by apply Hg.
  destruct (bool_decide (m !! n <> None) && (ow =? 0)) eqn:E.
  { bsimp. apply bool_decide_eq_true in H. rewrite decide_True by (split; [by apply not_eq_None_Some|done]). by exists s. }
  rewrite decide_False.
  2: { intros [[x Hx] ->]. rewrite bool_decide_true in E by (by rewrite Hx). done. }
  destruct (unsetenv_run n s m Hg Hr) as (l & j & H1 & H2 & l' & j' & El & H3). run H1. unfold put_entry.
  assert (Hd : env_rep (env_array l j) (delete n m)) by (by exists l', j').
  destruct (malloc_ok mem); cbn [negb andb]; [|by eexists]. destruct (putenv_ok mem); [|by eexists]. cbn [set_environ environ].
  destruct (putenv_new n v l j H2 (proj2 Hg)) as [j2 Hj2]. rewrite Hj2. eexists. split; [done|]. do 2 eexists. split; [done|]. intros k Hk1 Hk2. cbn [environ set_environ fst snd].
  rewrite (getenv_app k l v n j) by (done || apply Hg). rewrite H3 by done. destruct (decide (k = n)) as [->|].
  - by rewrite lookup_delete_eq, lookup_insert_eq.
  - rewrite lookup_delete_ne, lookup_insert_ne by done. by destruct (m !! k).
Qed.
Lemma env_run_ok c s m : env_rep (environ s) m -> exists s', env_run c s = Ret (env_spec c m).1 s' /\ env_rep (environ s') (env_spec c m).2.
Proof.
  intros Hr. destruct c as [mem name value ow|name]; cbn [env_run].
  - destruct value as [v|]; [|cbn; by destruct name; eexists]. destruct (bad_name_cases name) as [Hb|(n & -> & Hg)]; [|by apply setenv_ok].
    unfold setenv. rewrite Hb. destruct name as [n|]; cbn [env_spec]; rewrite ?Hb; by eexists.
  - cbn [env_spec]. destruct (bad_name_cases name) as [Hb|(n & -> & Hg)]; [unfold unsetenv; rewrite Hb; by eexists|].
    destruct (unsetenv_run n s m Hg Hr) as (l & j & H1 & _ & H2). rewrite good_name_ok by done. cbn [default fst snd]. eexists. split; [exact H1|exact H2].
Qed.

(** C35: any sequence of calls of [setenv] and [unsetenv] behaves as insertions and deletions in a map, whatever the
    environment holds at the start, duplicate entries and strings without [=] included, and whatever names and values the
    calls are given: each returns what the map says, the array keeps its end, and [getenv] gives the map's
    values.  A call with a bad name returns -1 and changes nothing; when the memory is short at a call of [setenv] that
    is to change a variable it returns -1 and the variable, with its old value, is gone. *)
Theorem env_calls_refine_map cs s m : env_rep (environ s) m ->
  exists s', env_runs cs s = Ret (env_specs cs m).1 s' /\ env_rep (environ s') (env_specs cs m).2.
Proof.
  revert s m. induction cs as [|c cs IH]; intros s m Hr; cbn [env_runs env_specs]; [by exists s|].
  destruct (env_run_ok c s m Hr) as (s1 & H1 & H2). run H1. destruct (env_spec c m) as [r m1]. cbn [fst snd] in *.
  destruct (IH s1 m1 H2) as (s2 & H3 & H4). run H3. destruct (env_specs cs m1) as [rs m2]. by exists s2.
Qed.
End Calls.

Module EnvDemo.
Fixpoint strings (a : envp) : list (list Z) := match a with Some s :: a' => s :: strings a' | _ => [] end.
Definition lib : EnvLib := fun s a => env_array (strings a ++ [s]) [].
Lemma strings_array l j : strings (env_array l j) = l.
Proof. induction l as [|s l IH]; [done|]. rewrite env_cons. cbn [strings]. by rewrite IH. Qed.
Lemma env_demo_laws : EnvLaws lib.
Proof. intros n v l j _ _. exists []. unfold putenv, lib. by rewrite strings_array. Qed.
Definition ok_mem : memory := Memory true true.
Definition calls : list env_call := [SetEnv ok_mem (Some (bytes "xyz")) (Some (bytes "one")) 1; SetEnv ok_mem (Some (bytes "xyz")) (Some (bytes "two")) 0;
  SetEnv (Memory false true) (Some (bytes "TT")) (Some (bytes "z")) 1; UnsetEnv (Some (bytes "a=b"))].
Definition start : envproc := EnvProc (env_array [bytes "TT=xxxxx"; bytes "TT=y"] []) 0.
Lemma start_rep : env_rep (environ start) {[bytes "TT" := bytes "xxxxx"]}.
Proof.
  exists [bytes "TT=xxxxx"; bytes "TT=y"], []. split; [done|]. intros n Hn Hne.
  assert (Hi : forall v, is_entry n (bytes "TT" ++ [EQUALS] ++ v) = bool_decide (n = bytes "TT")).
  { intros v. apply is_entry_name; [done|]. refine (bool_decide_unpack _ _). by vm_compute. }
  change (environ start) with [Some (bytes "TT" ++ [EQUALS] ++ bytes "xxxxx"); Some (bytes "TT" ++ [EQUALS] ++ bytes "y"); None]. cbn [getenv].
  rewrite !Hi. case_bool_decide as E; [subst; by rewrite lookup_singleton_eq|]. by rewrite lookup_singleton_ne.
Qed.
End EnvDemo.

Lemma env_calls_refine_map_witness : exists s', @env_runs EnvDemo.lib EnvDemo.calls EnvDemo.start = Ret [0; 0; -1; -1] s' /\
  env_rep (environ s') (delete (bytes "TT") (<[bytes "xyz" := bytes "one"]> {[bytes "TT" := bytes "xxxxx"]})).
Proof. exact (@env_calls_refine_map EnvDemo.lib EnvDemo.env_demo_laws EnvDemo.calls EnvDemo.start _ EnvDemo.start_rep). Defined.
