(* ===== verification/TellWait.v ===== *)
(** Synchronisation of parent and child with signals: [src/apue2e/lib/tellwait.c].

    [TELL_WAIT] has been called before [fork]: in both processes the signals are blocked and have the handler [sig_usr].  Each process then
    executes a list of tells and waits.  [TELL_PARENT] and [TELL_CHILD] send the other process its signal; the two waits are the same code. *)
From S2P Require Import Prelude.

Inductive tw_op := Tell | Wait.
(** In [while (sigflag == 0) sigsuspend(&zeromask);]: at the test; after it, before [sigsuspend]; in [sigsuspend]. *)
Inductive tw_pc := AtOp | Tested | Suspended.
(** A process: what it has still to do and where it is, [sigflag], whether the other's signal is pending and whether it is blocked;
    and, for the statements, how often it has been told and has completed a wait. *)
Record twproc := TwProc { tw_ops : list tw_op; tw_pc_of : tw_pc; sigflag : bool; tw_pending : bool; tw_blocked : bool; tw_told : nat; tw_waits : nat }.
(** [sig_usr] *)
Definition sig_usr (p : twproc) : twproc := TwProc (tw_ops p) (tw_pc_of p) true false (tw_blocked p) (tw_told p) (tw_waits p).
(** [kill(pid, SIGUSRn)]: the signal becomes pending. *)
Definition signalled (p : twproc) : twproc := TwProc (tw_ops p) (tw_pc_of p) (sigflag p) true (tw_blocked p) (S (tw_told p)) (tw_waits p).
Definition tw_goto (pc : tw_pc) (p : twproc) : twproc := TwProc (tw_ops p) pc (sigflag p) (tw_pending p) (tw_blocked p) (tw_told p) (tw_waits p).
Definition tw_next (p : twproc) : twproc := TwProc (tail (tw_ops p)) AtOp (sigflag p) (tw_pending p) (tw_blocked p) (tw_told p) (tw_waits p).
(** After the loop: [sigflag = 0] and the signal mask of before [TELL_WAIT]. *)
Definition wait_done (p : twproc) : twproc := TwProc (tail (tw_ops p)) AtOp false (tw_pending p) false (tw_told p) (S (tw_waits p)).

(** A step of a process, and whether it tells the other. *)
Inductive tw_move : twproc -> twproc -> bool -> Prop :=
  | tw_tell p ops : tw_ops p = Tell :: ops -> tw_pc_of p = AtOp -> tw_move p (tw_next p) true
  | tw_test_zero p ops : tw_ops p = Wait :: ops -> tw_pc_of p = AtOp -> sigflag p = false -> tw_move p (tw_goto Tested p) false
  | tw_test_set p ops : tw_ops p = Wait :: ops -> tw_pc_of p = AtOp -> sigflag p = true -> tw_move p (wait_done p) false
  | tw_suspend p : tw_pc_of p = Tested -> tw_move p (tw_goto Suspended p) false
  | tw_wake p : tw_pc_of p = Suspended -> tw_pending p = true -> tw_move p (tw_goto AtOp (sig_usr p)) false
  | tw_deliver p : tw_pc_of p <> Suspended -> tw_pending p = true -> tw_blocked p = false -> tw_move p (sig_usr p) false.
Inductive tw_step : twproc * twproc -> twproc * twproc -> Prop :=
  | tw_parent p p' c t : tw_move p p' t -> tw_step (p, c) (p', if t then signalled c else c)
  | tw_child p c c' t : tw_move c c' t -> tw_step (p, c) (if t then signalled p else p, c').
Definition tw_start (ops : list tw_op) : twproc := TwProc ops AtOp false false true 0 0.

(** ** The first wait *)

(** Until the first wait is over the signals are blocked except in [sigsuspend], so that none gets lost. *)
Definition tw_ok (p : twproc) : Prop :=
  (tw_pc_of p <> AtOp -> exists ops, tw_ops p = Wait :: ops) /\
  (tw_waits p = O -> tw_blocked p = true /\ ((tw_told p > 0)%nat <-> tw_pending p = true \/ sigflag p = true) /\ (tw_pc_of p <> AtOp -> sigflag p = false)) /\
  (tw_pending p = true \/ sigflag p = true \/ (tw_waits p > 0)%nat -> (tw_told p > 0)%nat).

Lemma tw_ok_start ops : tw_ok (tw_start ops).
Proof. split_and!; cbn; try done; [|naive_solver lia]. intros _. split_and!; try done. split; [lia|naive_solver]. Qed.
Lemma tw_ok_signalled p : tw_ok p -> tw_ok (signalled p).
Proof. intros (H1 & H2 & H3). split_and!; cbn; try done; [|lia]. intros H. specialize (H2 H). split_and!; try apply H2. split; [by left|lia]. Qed.
Lemma tw_ok_move p p' t : tw_ok p -> tw_move p p' t -> tw_ok p'.
Proof.
  intros (H1 & H2 & H3) Hm. destruct Hm as [p ops Ho Hp|p ops Ho Hp Hf|p ops Ho Hp Hf|p Hp|p Hp Hpd|p Hp Hpd Hb]; (split; [|split]); cbn.
  - done.
  - intros H. destruct (H2 H) as (? & ? & _). by split_and!.
  - done.
  - by exists ops.
  - intros H. destruct (H2 H) as (? & ? & _). by split_and!.
  - done.
  - done.
  - done.
  - intros _. apply H3. by right; left.
  - intros _. apply H1. by rewrite Hp.
  - intros H. destruct (H2 H) as (? & ? & Hz). split_and!; try done. intros _. apply Hz. by rewrite Hp.
  - done.
  - done.
  - intros H. destruct (H2 H) as (? & E & _). split_and!; try done. split; [by right|]. intros _. apply E. by left.
  - intros _. apply H3. by left.
  - intros H. by apply H1.
  - intros H. destruct (H2 H) as (? & _). congruence.
  - intros _. apply H3. by left.
Qed.
Lemma tw_reach_ok st ops1 ops2 : rtc tw_step (tw_start ops1, tw_start ops2) st -> tw_ok st.1 /\ tw_ok st.2.
Proof.
  assert (H0 : tw_ok (tw_start ops1, tw_start ops2).1 /\ tw_ok (tw_start ops1, tw_start ops2).2) by (split; apply tw_ok_start).
  intros H. revert H0. induction H as [|x y z Hs _ IH]; [done|]. intros [Hp Hc]. apply IH. destruct Hs as [p p' c t Hm|p c c' t Hm]; cbn [fst snd] in *.
  - split; [exact (tw_ok_move _ _ _ Hp Hm)|]. destruct t; [by apply tw_ok_signalled|done].
  - split; [destruct t; [by apply tw_ok_signalled|done]|exact (tw_ok_move _ _ _ Hc Hm)].
Qed.

(** C36: whatever the parent and the child do and however they are scheduled: a wait returns only if the other process has told at least once; and a
    process in its first wait that cannot go on has not been told: no signal is lost, whether it comes before the
    wait, between the test of the flag and [sigsuspend], or after. *)
Theorem tell_wait_first st ops1 ops2 p : rtc tw_step (tw_start ops1, tw_start ops2) st -> p = st.1 \/ p = st.2 ->
  ((tw_waits p > 0)%nat -> (tw_told p > 0)%nat) /\
  (forall ops, tw_ops p = Wait :: ops -> tw_waits p = O -> (forall p' t, ~ tw_move p p' t) -> tw_told p = O).
Proof.
  intros H%tw_reach_ok Hp. assert (tw_ok p) as (H1 & H2 & H3) by (destruct Hp as [-> | ->]; apply H). split.
  - intros Hw. apply H3. by right; right.
  - intros ops Ho Hw Hno. specialize (H2 Hw) as (Hb & Htold & Hflag). destruct (tw_pc_of p) eqn:Epc.
    + exfalso. destruct (sigflag p) eqn:Ef; eapply Hno; [by eapply tw_test_set|by eapply tw_test_zero].
    + exfalso. eapply Hno. by apply tw_suspend.
    + destruct (tw_pending p) eqn:Ep; [exfalso; eapply Hno; by apply tw_wake|]. rewrite Hflag in Htold by done.
      destruct (tw_told p); [done|]. exfalso. destruct Htold as [Ht _]. destruct Ht; [lia|done|done].
Qed.

(** The second wait runs with the mask of before [TELL_WAIT]: a signal that comes after the test of the flag is lost. *)
Lemma second_wait_hangs : exists c p, rtc tw_step (tw_start [Tell; Tell], tw_start [Wait; Wait]) (p, c) /\
  tw_ops p = [] /\ tw_ops c = [Wait] /\ tw_told c = 2%nat /\ tw_waits c = 1%nat /\ forall c' t, ~ tw_move c c' t.
Proof.
  exists (TwProc [Wait] Suspended true false false 2 1), (TwProc [] AtOp false false true 0 0). split_and!; try done.
  - eapply rtc_l; [by apply tw_parent; eapply tw_tell|]. eapply rtc_l; [by apply tw_child; eapply tw_test_zero|].
    eapply rtc_l; [by apply tw_child, tw_suspend|]. eapply rtc_l; [by apply tw_child, tw_wake|].
    eapply rtc_l; [by apply tw_child; eapply tw_test_set|]. eapply rtc_l; [by apply tw_child; eapply tw_test_zero|].
    eapply rtc_l; [by apply tw_parent; eapply tw_tell|]. eapply rtc_l; [by apply tw_child, tw_deliver|].
    eapply rtc_l; [by apply tw_child, tw_suspend|]. apply rtc_refl.
  - intros c' t H. inversion H; simplify_eq; done.
Qed.

Lemma demo_tell_wait : rtc tw_step (tw_start [Tell], tw_start [Wait]) (TwProc [] AtOp false false true 0 0, TwProc [] AtOp false false false 1 1).
Proof.
  eapply rtc_l; [by apply tw_child; eapply tw_test_zero|]. eapply rtc_l; [by apply tw_parent; eapply tw_tell|].
  eapply rtc_l; [by apply tw_child, tw_suspend|]. eapply rtc_l; [by apply tw_child, tw_wake|]. eapply rtc_l; [by apply tw_child; eapply tw_test_set|]. apply rtc_refl.
Qed.
Lemma tell_wait_first_witness : (tw_waits (TwProc [] AtOp false false false 1 1) > 0)%nat /\ (tw_told (TwProc [] AtOp false false false 1 1) > 0)%nat.
Proof.
  assert (H : (tw_waits (TwProc [] AtOp false false false 1 1) > 0)%nat) by (cbn; lia). split; [exact H|].
  exact (proj1 (tell_wait_first _ [Tell] [Wait] (TwProc [] AtOp false false false 1 1) demo_tell_wait (or_intror eq_refl)) H).
Defined.
