(* ===== verification/Tty.v ===== *)
(** Terminal modes: [src/apue2e/lib/ttymodes.c] and [src/tlpi-dist/tty/tty_functions.c].

    What a terminal makes of the attributes it is asked for is a parameter: [tcsetattr] may fail, and it succeeds also when it
    has carried out only a part of the changes, at each call anew. *)
From S2P Require Import Prelude CStr.

(** [struct termios]: the flags, [c_cc[VMIN]] and [c_cc[VTIME]], and the rest. *)
Record termios := Termios { c_iflag : Z; c_oflag : Z; c_cflag : Z; c_lflag : Z; c_vmin : Z; c_vtime : Z; c_other : list Z }.
Definition ISIG : Z := 1.
Definition ICANON : Z := 2.
Definition ECHO : Z := 8.
Definition IEXTEN : Z := 32768.
Definition IGNBRK : Z := 1.
Definition BRKINT : Z := 2.
Definition PARMRK : Z := 8.
Definition INPCK : Z := 16.
Definition ISTRIP : Z := 32.
Definition INLCR : Z := 64.
Definition IGNCR : Z := 128.
Definition ICRNL : Z := 256.
Definition IXON : Z := 1024.
Definition OPOST : Z := 1.
Definition CSIZE : Z := 48.
Definition CS8 : Z := 48.
Definition PARENB : Z := 256.
Definition ors (l : list Z) : Z := foldr Z.lor 0 l.
(** [x & ~ors(l)] *)
Definition clear (x : Z) (l : list Z) : Z := Z.ldiff x (ors l).

(** The terminal: at the [n]-th call, [tcgetattr] works or not, and [tcsetattr] gives the new attributes or fails. *)
Class TtyDev := {
  dev_get : nat -> bool;
  dev_set : nat -> termios -> termios -> option termios
}.
Inductive tty_state := RESET | RAW | CBREAK.
#[export] Instance tty_state_eq_dec : EqDecision tty_state.
Proof. solve_decision. Defined.
(** The terminal's attributes, the number of calls so far, and the static variables. *)
Record ttyproc := TtyProc { tt_attr : termios; tt_calls : nat; save_termios : termios; ttysavefd : Z; ttystate : tty_state; tty_errno : Z }.
Definition EINVAL_TTY : Z := 22.
Definition EIO_TTY : Z := 5.

Section Tty.
Context `{D : TtyDev}.

Definition tcgetattr : M ttyproc (option termios) := fun s =>
  let s' e := TtyProc (tt_attr s) (S (tt_calls s)) (save_termios s) (ttysavefd s) (ttystate s) e in
  if dev_get (tt_calls s) then Ret (Some (tt_attr s)) (s' (tty_errno s)) else Ret None (s' EIO_TTY).
Definition tcsetattr (t : termios) : M ttyproc Z := fun s =>
  match dev_set (tt_calls s) (tt_attr s) t with
  | Some a => Ret 0 (TtyProc a (S (tt_calls s)) (save_termios s) (ttysavefd s) (ttystate s) (tty_errno s))
  | None => Ret (-1) (TtyProc (tt_attr s) (S (tt_calls s)) (save_termios s) (ttysavefd s) (ttystate s) EIO_TTY)
  end.
Definition set_errno (e : Z) : M ttyproc unit := modify (fun s => TtyProc (tt_attr s) (tt_calls s) (save_termios s) (ttysavefd s) (ttystate s) e).
Definition save (t : termios) : M ttyproc unit := modify (fun s => TtyProc (tt_attr s) (tt_calls s) t (ttysavefd s) (ttystate s) (tty_errno s)).
Definition set_state (st : tty_state) (fd : Z) : M ttyproc unit := modify (fun s => TtyProc (tt_attr s) (tt_calls s) (save_termios s) fd st (tty_errno s)).

(** *** ttymodes.c *)

Definition cbreak_attr (buf : termios) : termios :=
  Termios (c_iflag buf) (c_oflag buf) (c_cflag buf) (clear (c_lflag buf) [ECHO; ICANON]) 1 0 (c_other buf).
Definition cbreak_stuck (buf : termios) : bool :=
  negb (negb (Z.land (c_lflag buf) (ors [ECHO; ICANON]) =? 0) || negb (c_vmin buf =? 1) || negb (c_vtime buf =? 0)).
Definition raw_attr (buf : termios) : termios :=
  Termios (clear (c_iflag buf) [BRKINT; ICRNL; INPCK; ISTRIP; IXON]) (clear (c_oflag buf) [OPOST])
          (Z.lor (clear (c_cflag buf) [CSIZE; PARENB]) CS8) (clear (c_lflag buf) [ECHO; ICANON; IEXTEN; ISIG]) 1 0 (c_other buf).
Definition raw_stuck (buf : termios) : bool :=
  negb (negb (Z.land (c_lflag buf) (ors [ECHO; ICANON; IEXTEN; ISIG]) =? 0) || negb (Z.land (c_iflag buf) (ors [BRKINT; ICRNL; INPCK; ISTRIP; IXON]) =? 0)
        || negb (Z.land (c_cflag buf) (ors [CSIZE; PARENB; CS8]) =? CS8) || negb (Z.land (c_oflag buf) OPOST =? 0)
        || negb (c_vmin buf =? 1) || negb (c_vtime buf =? 0)).

(** The two functions differ in the changes, the test whether they were made, and the state. *)
Definition tty_enter (change : termios -> termios) (stuck : termios -> bool) (st : tty_state) (fd : Z) : M ttyproc Z :=
  s ← get;
  if negb (bool_decide (ttystate s = RESET)) then set_errno EINVAL_TTY ;; mret (-1) else
  r ← tcgetattr;
  match r with
  | None => mret (-1)
  | Some buf =>
      save buf ;;
      r ← tcsetattr (change buf);
      if r <? 0 then mret (-1) else
      r ← tcgetattr;
      match r with
      | None =>
          s ← get;
          tcsetattr (save_termios s) ;; set_errno (tty_errno s) ;; mret (-1)
      | Some buf =>
          if negb (stuck buf) then
            s ← get;
            tcsetattr (save_termios s) ;; set_errno EINVAL_TTY ;; mret (-1)
          else set_state st fd ;; mret 0
      end
  end.
Definition tty_cbreak (fd : Z) : M ttyproc Z := tty_enter cbreak_attr cbreak_stuck CBREAK fd.
Definition tty_raw (fd : Z) : M ttyproc Z := tty_enter raw_attr raw_stuck RAW fd.
Definition tty_reset : M ttyproc Z :=
  s ← get;
  if bool_decide (ttystate s = RESET) then mret 0 else
  r ← tcsetattr (save_termios s);
  if r <? 0 then mret (-1) else
  s ← get; set_state RESET (ttysavefd s) ;; mret 0.
Definition tty_atexit : M ttyproc unit :=
  s ← get; if 0 <=? ttysavefd s then tty_reset ;; mret tt else mret tt.
Definition tty_termios : M ttyproc termios := s ← get; mret (save_termios s).

(** *** tty_functions.c: [Ret (r, prevTermios)] *)

Definition ttySet (change : termios -> termios) : M ttyproc (Z * option termios) :=
  r ← tcgetattr;
  match r with
  | None => mret (-1, None)
  | Some t => r ← tcsetattr (change t); mret (if r =? -1 then -1 else 0, Some t)
  end.
Definition ttySetCbreak : M ttyproc (Z * option termios) :=
  ttySet (fun t => Termios (clear (c_iflag t) [ICRNL]) (c_oflag t) (c_cflag t) (Z.lor (clear (c_lflag t) [ICANON; ECHO]) ISIG) 1 0 (c_other t)).
Definition ttySetRaw : M ttyproc (Z * option termios) :=
  ttySet (fun t => Termios (clear (c_iflag t) [BRKINT; ICRNL; IGNBRK; IGNCR; INLCR; INPCK; ISTRIP; IXON; PARMRK]) (clear (c_oflag t) [OPOST])
                           (c_cflag t) (clear (c_lflag t) [ICANON; ISIG; IEXTEN; ECHO]) 1 0 (c_other t)).
End Tty.

(** ** Modes *)

(** A flag is off, by its bit. *)
Definition off (x f : Z) : Prop := Z.land x f = 0.
Lemma land_ors x l : Z.land x (ors l) = 0 -> Forall (off x) l.
Proof.
  intros H. induction l as [|f l IH]; [constructor|]. cbn [ors foldr] in H. fold (ors l) in H. rewrite Z.land_lor_distr_r in H.
  apply Z.lor_eq_0_iff in H as [H1 H2]. constructor; [done|by apply IH].
Qed.
Definition is_cbreak (t : termios) : Prop := Forall (off (c_lflag t)) [ECHO; ICANON] /\ c_vmin t = 1 /\ c_vtime t = 0.
Definition is_raw (t : termios) : Prop :=
  Forall (off (c_lflag t)) [ECHO; ICANON; IEXTEN; ISIG] /\ Forall (off (c_iflag t)) [BRKINT; ICRNL; INPCK; ISTRIP; IXON] /\
  off (c_oflag t) OPOST /\ off (c_cflag t) PARENB /\ Z.land (c_cflag t) CSIZE = CS8 /\ c_vmin t = 1 /\ c_vtime t = 0.
Lemma land_ors_off x l : Forall (off x) l -> Z.land x (ors l) = 0.
Proof. induction 1 as [|f l Hf _ IH]; [apply Z.land_0_r|]. cbn [ors foldr]. fold (ors l). by rewrite Z.land_lor_distr_r, Hf, IH. Qed.
Lemma cbreak_stuck_is t : cbreak_stuck t = true <-> is_cbreak t.
Proof.
  unfold cbreak_stuck. rewrite negb_true_iff, !orb_false_iff, !negb_false_iff, !Z.eqb_eq. split.
  - intros [[H1 H2] H3]. split_and!; [by apply land_ors|done|done].
  - intros (H1 & H2 & H3). split_and!; [by apply land_ors_off|done|done].
Qed.
Lemma raw_stuck_is t : raw_stuck t = true <-> is_raw t.
Proof.
  unfold raw_stuck. rewrite negb_true_iff, !orb_false_iff, !negb_false_iff, !Z.eqb_eq. split.
  - intros [[[[[H1 H2] H3] H4] H5] H6].
    assert (Hc : forall m, Z.land (ors [CSIZE; PARENB; CS8]) m = m -> Z.land (c_cflag t) m = Z.land CS8 m) by (intros m Hm; by rewrite <- H3, <- Z.land_assoc, Hm).
    split_and!; [by apply land_ors|by apply land_ors|done|unfold off; by rewrite (Hc PARENB)|by rewrite (Hc CSIZE)|done|done].
  - intros (H1 & H2 & H3 & H4 & H5 & H6 & H7). split_and!; try done; [by apply land_ors_off|by apply land_ors_off|].
    change (ors [CSIZE; PARENB; CS8]) with (Z.lor CSIZE PARENB). by rewrite Z.land_lor_distr_r, H4, H5.
Qed.
(** The changes ask for these modes. *)
Lemma off_clear x l f : f ∈ l -> off (clear x l) f.
Proof.
  intros Hf. unfold off, clear. apply Z.bits_inj'. intros n Hn. rewrite Z.land_spec, Z.ldiff_spec, Z.bits_0.
  assert (Hb : Z.testbit f n = true -> Z.testbit (ors l) n = true).
  { induction l as [|g l IH]; [by apply not_elem_of_nil in Hf|]. cbn [ors foldr]. fold (ors l). rewrite Z.lor_spec. apply elem_of_cons in Hf as [->|Hf].
    - intros ->. done.
    - intros H. rewrite (IH Hf H). apply orb_true_r. }
  destruct (Z.testbit f n); [|by rewrite andb_false_r]. rewrite Hb by done. by rewrite andb_false_r.
Qed.
Lemma clear_keeps x l m : Z.land m (ors l) = ors l -> Z.ldiff (clear x l) m = Z.ldiff x m.
Proof.
  intros Hm. unfold clear. apply Z.bits_inj'. intros n Hn. rewrite !Z.ldiff_spec. pose proof (f_equal (fun z => Z.testbit z n) Hm) as Hb. cbn beta in Hb. rewrite Z.land_spec in Hb.
  destruct (Z.testbit x n), (Z.testbit m n), (Z.testbit (ors l) n); done.
Qed.
(** The requested attributes differ from the old ones in nothing else. *)
Definition same_but (m x y : Z) : Prop := Z.ldiff x m = Z.ldiff y m.
Definition cbreak_only (t r : termios) : Prop :=
  c_iflag r = c_iflag t /\ c_oflag r = c_oflag t /\ c_cflag r = c_cflag t /\ same_but (Z.lor ECHO ICANON) (c_lflag t) (c_lflag r) /\ c_other r = c_other t.
Definition raw_only (t r : termios) : Prop :=
  same_but (ors [BRKINT; ICRNL; INPCK; ISTRIP; IXON]) (c_iflag t) (c_iflag r) /\ same_but OPOST (c_oflag t) (c_oflag r) /\
  same_but (Z.lor CSIZE PARENB) (c_cflag t) (c_cflag r) /\ same_but (ors [ECHO; ICANON; IEXTEN; ISIG]) (c_lflag t) (c_lflag r) /\ c_other r = c_other t.
Lemma cbreak_attr_is t : is_cbreak (cbreak_attr t) /\ cbreak_only t (cbreak_attr t).
Proof.
  split; [split_and!; [|done|done]; repeat constructor; apply off_clear; rewrite !elem_of_cons; auto|].
  split_and!; try done. unfold same_but. cbn. by rewrite clear_keeps.
Qed.
Lemma raw_attr_is t : is_raw (raw_attr t) /\ raw_only t (raw_attr t).
Proof.
  assert (Hoff : forall x l, Forall (off (clear x l)) l) by (intros x l; apply Forall_forall; intros f Hf; by apply off_clear).
  assert (Hcs : forall x m, Z.land CS8 m = 0 -> off (clear x [CSIZE; PARENB]) m -> Z.land (Z.lor (clear x [CSIZE; PARENB]) CS8) m = 0) by (intros x m H1 H2; by rewrite Z.land_lor_distr_l, H1, H2).
  split.
  - split_and!; try done; [apply Hoff|apply Hoff|apply off_clear; rewrite elem_of_cons; auto| |].
    + apply Hcs; [done|]. apply off_clear; rewrite !elem_of_cons; auto.
    + cbn. rewrite Z.land_lor_distr_l. assert (H : off (clear (c_cflag t) [CSIZE; PARENB]) CSIZE) by (apply off_clear; rewrite !elem_of_cons; auto). by rewrite H.
  - split_and!; try done; unfold same_but; cbn [raw_attr c_iflag c_oflag c_cflag c_lflag c_other]; rewrite ?clear_keeps by done; try done.
    apply Z.bits_inj'. intros n Hn. unfold clear. change (ors [CSIZE; PARENB]) with (Z.lor CSIZE PARENB). change CS8 with CSIZE. repeat rewrite ?Z.ldiff_spec, ?Z.lor_spec.
    by destruct (Z.testbit (c_cflag t) n), (Z.testbit CSIZE n), (Z.testbit PARENB n).
Qed.
#[global] Instance is_cbreak_dec t : Decision (is_cbreak t).
Proof. unfold is_cbreak, off. apply _. Defined.
#[global] Instance is_raw_dec t : Decision (is_raw t).
Proof. unfold is_raw, off. apply _. Defined.

Section TtyTheorems.
Context `{D : TtyDev}.

(** What the functions do on any terminal, by its answers to their calls. *)
Definition refused (t : termios) (s : ttyproc) (o : outcome ttyproc Z) : Prop := exists s', o = Ret (-1) s' /\ tt_attr s' = t /\ ttystate s' = RESET.
Definition resets (t0 : termios) (s : ttyproc) : Prop :=
  exists r s', tty_reset s = Ret r s' /\
  match dev_set (tt_calls s) (tt_attr s) t0 with
  | Some b => r = 0 /\ tt_attr s' = b /\ ttystate s' = RESET
  | None => r = -1 /\ tt_attr s' = tt_attr s /\ ttystate s' = ttystate s
  end.
Definition tty_outcome (mode : termios -> Prop) `{!forall t, Decision (mode t)} (only : termios -> termios -> Prop) (st : tty_state) (fd : Z) (s : ttyproc) (o : outcome ttyproc Z) : Prop :=
  let t0 := tt_attr s in let n := tt_calls s in
  if decide (ttystate s = RESET) then
    exists req, mode req /\ only t0 req /\
    match (if dev_get n then dev_set (1 + n) t0 req else None) with
    | None => refused t0 s o
    | Some a =>
        if decide (dev_get (2 + n) = true /\ mode a) then
          exists s', o = Ret 0 s' /\ tt_attr s' = a /\ ttystate s' = st /\ ttysavefd s' = fd /\ save_termios s' = t0 /\ resets t0 s'
        else refused (default a (dev_set (3 + n) a t0)) s o
    end
  else exists s', o = Ret (-1) s' /\ tt_attr s' = t0 /\ tt_calls s' = n /\ save_termios s' = save_termios s /\ ttystate s' = ttystate s /\ tty_errno s' = EINVAL_TTY.

Definition tick (s : ttyproc) (e : Z) : ttyproc := TtyProc (tt_attr s) (S (tt_calls s)) (save_termios s) (ttysavefd s) (ttystate s) e.
Lemma tcget_ok s : dev_get (tt_calls s) = true -> tcgetattr s = Ret (Some (tt_attr s)) (tick s (tty_errno s)).
Proof. intros H. unfold tcgetattr. by rewrite H. Qed.
Lemma tcget_fails s : dev_get (tt_calls s) = false -> tcgetattr s = Ret None (tick s EIO_TTY).
Proof. intros H. unfold tcgetattr. by rewrite H. Qed.
Lemma tcset_run t s : exists r e, tcsetattr t s =
  Ret r (TtyProc (default (tt_attr s) (dev_set (tt_calls s) (tt_attr s) t)) (S (tt_calls s)) (save_termios s) (ttysavefd s) (ttystate s) e) /\
  r = match dev_set (tt_calls s) (tt_attr s) t with Some _ => 0 | None => -1 end.
Proof. unfold tcsetattr. destruct (dev_set _ _ t); by do 2 eexists. Qed.
Lemma reset_run s : ttystate s <> RESET -> resets (save_termios s) s.
Proof.
  intros Hs. unfold resets, tty_reset. rewrite (bind_ret get _ s s s eq_refl), bool_decide_false by done. destruct (tcset_run (save_termios s) s) as (r & e & E & Hr). run E.
  destruct (dev_set _ _ _) as [b|]; subst r; do 2 eexists; (split; [reflexivity|]); done.
Qed.
Lemma tty_enter_outcome change stuck mode `{!forall t, Decision (mode t)} only st fd s :
  (forall t, stuck t = true <-> mode t) -> (forall t, mode (change t) /\ only t (change t)) -> st <> RESET ->
  tty_outcome mode only st fd s (tty_enter change stuck st fd s).
Proof.
  intros Hmode Hchange Hst. unfold tty_outcome, tty_enter. cbn zeta. rewrite (bind_ret get _ s s s eq_refl). case_decide as Hs.
  2: { rewrite bool_decide_false by done. cbn [negb]. eexists. split; [reflexivity|]. by split_and!. }
  rewrite bool_decide_true by done. cbn [negb]. exists (change (tt_attr s)). destruct (Hchange (tt_attr s)) as [Hm Ho]. split; [done|]. split; [done|].
  destruct (dev_get (tt_calls s)) eqn:E1; [run (tcget_ok s E1)|run (tcget_fails s E1); eexists; split; [reflexivity|]; split; [reflexivity|exact Hs]].
  set (s2 := TtyProc (tt_attr s) (S (tt_calls s)) (tt_attr s) (ttysavefd s) (ttystate s) (tty_errno s)).
  rewrite (bind_ret (save (tt_attr s)) _ (tick s (tty_errno s)) tt s2 eq_refl).
  destruct (tcset_run (change (tt_attr s)) s2) as (r & e & E2 & Hr). run E2. cbn [tt_calls tt_attr s2] in *. change (1 + tt_calls s)%nat with (S (tt_calls s)).
  destruct (dev_set (S (tt_calls s)) (tt_attr s) (change (tt_attr s))) as [a|]; subst r.
  2: { eexists. split; [reflexivity|]. split; [reflexivity|exact Hs]. }
  change (0 <? 0) with false. cbn iota. cbn [default from_option id]. set (s3 := TtyProc a (S (S (tt_calls s))) (save_termios s2) (ttysavefd s2) (ttystate s2) e).
  assert (Hback : forall (f : ttyproc -> Z) e, refused (default a (dev_set (3 + tt_calls s) a (tt_attr s))) s ((s ← get; tcsetattr (save_termios s) ;; set_errno (f s) ;; mret (-1)) (tick s3 e))).
  { intros f e'. rewrite (bind_ret get _ (tick s3 e') (tick s3 e') (tick s3 e') eq_refl). change (save_termios (tick s3 e')) with (tt_attr s).
    destruct (tcset_run (tt_attr s) (tick s3 e')) as (r & e2 & E4 & _). run E4. eexists. split; [reflexivity|]. split; [reflexivity|exact Hs]. }
  destruct (dev_get (tt_calls s3)) eqn:E3; change (tt_calls s3) with (2 + tt_calls s)%nat in E3.
  - run (tcget_ok s3 E3). cbn [tt_attr s3]. destruct (stuck a) eqn:Ea; cbn [negb].
    + rewrite decide_True by (split; [done|by apply Hmode]). eexists. split; [reflexivity|]. cbn [tt_attr ttystate ttysavefd save_termios]. split_and!; try done. by apply reset_run.
    + rewrite decide_False; [apply (Hback (fun _ => EINVAL_TTY))|]. intros [_ Hx]. apply Hmode in Hx. congruence.
  - run (tcget_fails s3 E3). rewrite decide_False; [apply (Hback tty_errno)|]. intros [Hx _]. congruence.
Qed.

(** C37: what [tty_cbreak] and [tty_raw] do on any terminal, whose driver may refuse a change or carry it out in part, at every
    call.  Each asks for attributes that are in its mode and differ from the old ones in nothing else.  If these are set
    and found to be in the mode, it returns 0 and keeps the old attributes, and [tty_reset] asks for these, returning 0 when
    this is not refused; if they cannot be set, it returns -1 with the terminal as before; if they are set only in part, or cannot be read back, it
    returns -1 after asking for the old ones again, whose result it does not look at: the terminal has then what
    the driver made of that.  Out of the state [RESET] it changes nothing.  So with a driver that does what it is asked the
    function returns 0 in the mode, and [tty_reset] restores the attributes exactly. *)
Theorem tty_modes_restore fd s :
  tty_outcome is_cbreak cbreak_only CBREAK fd s (tty_cbreak fd s) /\ tty_outcome is_raw raw_only RAW fd s (tty_raw fd s) /\
  (ttystate s = RESET -> (forall n, dev_get n = true) -> (forall n old t, dev_set n old t = Some t) ->
   (exists s1 s2, tty_cbreak fd s = Ret 0 s1 /\ is_cbreak (tt_attr s1) /\ tty_reset s1 = Ret 0 s2 /\ tt_attr s2 = tt_attr s /\ ttystate s2 = RESET) /\
   (exists s1 s2, tty_raw fd s = Ret 0 s1 /\ is_raw (tt_attr s1) /\ tty_reset s1 = Ret 0 s2 /\ tt_attr s2 = tt_attr s /\ ttystate s2 = RESET)).
Proof.
  pose proof (tty_enter_outcome cbreak_attr cbreak_stuck is_cbreak cbreak_only CBREAK fd s cbreak_stuck_is cbreak_attr_is ltac:(done)) as Hc.
  pose proof (tty_enter_outcome raw_attr raw_stuck is_raw raw_only RAW fd s raw_stuck_is raw_attr_is ltac:(done)) as Hr.
  split; [exact Hc|]. split; [exact Hr|]. intros Hs Hget Hset.
  assert (G : forall mode `{!forall t, Decision (mode t)} only st o, tty_outcome mode only st fd s o ->
    exists s1 s2, o = Ret 0 s1 /\ mode (tt_attr s1) /\ tty_reset s1 = Ret 0 s2 /\ tt_attr s2 = tt_attr s /\ ttystate s2 = RESET).
  { intros mode dec only st o H. unfold tty_outcome in H. cbn zeta in H. rewrite decide_True in H by done. destruct H as (req & Hm & _ & H). rewrite !Hget, Hset in H.
    rewrite decide_True in H by done. destruct H as (s1 & -> & Ha & _ & _ & _ & (r & s2 & E & H)). rewrite Hset in H. destruct H as (-> & H1 & H2). exists s1, s2. by rewrite Ha. }
  split; [exact (G _ _ _ _ _ Hc)|exact (G _ _ _ _ _ Hr)].
Qed.
End TtyTheorems.

Definition tty_start : ttyproc := TtyProc (Termios 0 1 256 11 4 0 []) 0 (Termios 0 0 0 0 0 0 []) (-1) RESET 0.
(** A terminal that does what it is asked. *)
Definition exact_dev : TtyDev := {| dev_get _ := true; dev_set _ _ t := Some t |}.
Lemma tty_modes_restore_witness :
  (exists s1 s2, @tty_cbreak exact_dev 0 tty_start = Ret 0 s1 /\ is_cbreak (tt_attr s1) /\ @tty_reset exact_dev s1 = Ret 0 s2 /\ tt_attr s2 = tt_attr tty_start /\ ttystate s2 = RESET) /\
  (exists s1 s2, @tty_raw exact_dev 0 tty_start = Ret 0 s1 /\ is_raw (tt_attr s1) /\ @tty_reset exact_dev s1 = Ret 0 s2 /\ tt_attr s2 = tt_attr tty_start /\ ttystate s2 = RESET).
Proof. exact (proj2 (proj2 (@tty_modes_restore exact_dev 0 tty_start)) eq_refl (fun _ => eq_refl) (fun _ _ _ => eq_refl)). Defined.
(** One that can do everything except switch off parity: raw mode is refused, and the terminal is as it was. *)
Definition parity_dev : TtyDev := {| dev_get _ := true;
  dev_set _ old t := Some (Termios (c_iflag t) (c_oflag t) (Z.lor (c_cflag t) PARENB) (c_lflag t) (c_vmin t) (c_vtime t) (c_other t)) |}.
Example raw_with_parity : exists s1 s2, @tty_cbreak parity_dev 0 tty_start = Ret 0 s1 /\ c_lflag (tt_attr s1) = 1 /\
  @tty_raw parity_dev 0 tty_start = Ret (-1) s2 /\ tt_attr s2 = tt_attr tty_start.
Proof. do 2 eexists. split; [vm_compute; reflexivity|]. split; [reflexivity|]. split; [vm_compute; reflexivity|reflexivity]. Qed.
