(* ===== verification/Ftw.v ===== *)
(** Descending a file hierarchy: [myftw], [dopath] and [myfunc] of [src/apue2e/file/ftw4.c].

    The functions share one buffer for the path name, of the length that [path_alloc] gives; what the kernel says about path names is a parameter. *)
From S2P Require Import Prelude CStr.

Definition FTW_F : Z := 1.
Definition FTW_D : Z := 2.
Definition FTW_DNR : Z := 3.
Definition FTW_NS : Z := 4.
Definition SLASH : Z := 47.
Definition S_IFMT : Z := 61440.
Definition S_IFSOCK : Z := 49152.
Definition S_IFLNK : Z := 40960.
Definition S_IFREG : Z := 32768.
Definition S_IFBLK : Z := 24576.
Definition S_IFDIR : Z := 16384.
Definition S_IFCHR : Z := 8192.
Definition S_IFIFO : Z := 4096.
Definition S_ISDIR (mode : Z) : bool := Z.land mode S_IFMT =? S_IFDIR.

(** [st_mode] of what a path name leads to, and the names in a directory, which are strings and not empty. *)
Class FtwKernel := {
  k_lstat : list Z -> option Z;
  k_opendir : list Z -> option (list (list Z));
  k_names : forall p l, k_opendir p = Some l -> Forall (fun n => n <> [] /\ nonul n) l
}.
(** The bytes of [fullpath], and the state of the caller's function. *)
Record ftw (U : Type) := Ftw { fullpath : list Z; fw_user : U }.
Arguments Ftw {U} fullpath fw_user.
Arguments fullpath {U} f.
Arguments fw_user {U} f.

Section Walk.
Context `{K : FtwKernel} {U : Type}.
(** The caller's function: path name, [st_mode], type. *)
Context (func : list Z -> Z -> Z -> M U Z).

Definition call_func (mode type : Z) : M (ftw U) Z := fun s =>
  match func (cstr (fullpath s)) mode type (fw_user s) with
  | Ret r u => Ret r (Ftw (fullpath s) u)
  | Exit e u => Exit e (Ftw (fullpath s) u)
  end.
(** Bytes written into the buffer from [ptr] on. *)
Definition write_at (ptr : nat) (bs : list Z) : M (ftw U) unit := fun s =>
  if (ptr + length bs <=? length (fullpath s))%nat then Ret tt (Ftw (take ptr (fullpath s) ++ bs ++ drop (ptr + length bs) (fullpath s)) (fw_user s))
  else Exit (Undefined "write past the end of fullpath") s.
Definition is_dot (n : list Z) : bool := bool_decide (n = bytes ".") || bool_decide (n = bytes "..").
(** The loop over the names; [strcpy(ptr, dirp->d_name)]. *)
Fixpoint names_loop (rec : M (ftw U) Z) (ptr : nat) (ret : Z) (names : list (list Z)) : M (ftw U) Z :=
  match names with
  | [] => mret ret
  | n :: names' =>
      if is_dot n then names_loop rec ptr ret names' else
      write_at ptr (n ++ [NUL]) ;;
      ret ← rec;
      if negb (ret =? 0) then mret ret else names_loop rec ptr ret names'
  end.
Fixpoint dopath (fuel : nat) : M (ftw U) Z :=
  match fuel with
  | O => die Loops
  | S fuel =>
      s ← get;
      match k_lstat (cstr (fullpath s)) with
      | None => call_func 0 FTW_NS
      | Some mode =>
          if negb (S_ISDIR mode) then call_func mode FTW_F else
          ret ← call_func mode FTW_D;
          if negb (ret =? 0) then mret ret else
          s ← get;
          let ptr := length (cstr (fullpath s)) in
          write_at ptr [SLASH] ;;
          let ptr := S ptr in
          write_at ptr [NUL] ;;
          s ← get;
          match k_opendir (cstr (fullpath s)) with
          | None => call_func mode FTW_DNR
          | Some names =>
              ret ← names_loop (dopath fuel) ptr ret names;
              write_at (ptr - 1) [NUL] ;;
              mret ret
          end
      end
  end.
(** The buffer of [len] bytes from [path_alloc], filled by [strncpy]; each level adds a slash and a name to it: its length is fuel enough. *)
Definition myftw (len : Z) (pathname : list Z) : M (ftw U) Z :=
  let n := Z.to_nat len in
  modify (fun s => Ftw (take n (pathname ++ replicate (n - length pathname) NUL)) (fw_user s)) ;;
  write_at (n - 1) [NUL] ;;
  dopath n.
End Walk.

(** [myfunc] with its counters and the messages of [err_ret]. *)
Record counts := Counts { nreg : Z; ndir : Z; nblk : Z; nchr : Z; nfifo : Z; nslink : Z; nsock : Z; messages : list (list Z) }.
Definition myfunc (pathname : list Z) (mode type : Z) : M counts Z := fun c =>
  let '(Counts rg dr bk ch ff sl sk ms) := c in
  if type =? FTW_F then
    let f := Z.land mode S_IFMT in
    if f =? S_IFREG then Ret 0 (Counts (rg + 1) dr bk ch ff sl sk ms)
    else if f =? S_IFBLK then Ret 0 (Counts rg dr (bk + 1) ch ff sl sk ms)
    else if f =? S_IFCHR then Ret 0 (Counts rg dr bk (ch + 1) ff sl sk ms)
    else if f =? S_IFIFO then Ret 0 (Counts rg dr bk ch (ff + 1) sl sk ms)
    else if f =? S_IFLNK then Ret 0 (Counts rg dr bk ch ff (sl + 1) sk ms)
    else if f =? S_IFSOCK then Ret 0 (Counts rg dr bk ch ff sl (sk + 1) ms)
    else if f =? S_IFDIR then Exit (Err_dump "for S_IFDIR for %s") c
    else Ret 0 c
  else if type =? FTW_D then Ret 0 (Counts rg (dr + 1) bk ch ff sl sk ms)
  else if type =? FTW_DNR then Ret 0 (Counts rg dr bk ch ff sl sk (ms ++ [bytes "can't read directory " ++ pathname]))
  else if type =? FTW_NS then Ret 0 (Counts rg dr bk ch ff sl sk (ms ++ [bytes "stat error for " ++ pathname]))
  else Exit (Err_dump "unknown type %d for pathname %s") c.

(** ** The reference *)

Section Reference.
Context `{K : FtwKernel} (len : Z).

(** The calls to be made for [p], path names as they are, without a shared buffer; none: a path name is too long for
    a buffer of [len] bytes. *)
Notation call := ((list Z * Z) * Z)%type.
Fixpoint walk (fuel : nat) (p : list Z) : list (option call) :=
  match fuel with
  | O => []
  | S fuel =>
      match k_lstat p with
      | None => [Some ((p, 0), FTW_NS)]
      | Some mode =>
          if negb (S_ISDIR mode) then [Some ((p, mode), FTW_F)] else
          Some ((p, mode), FTW_D) ::
          if len <=? Z.of_nat (length p) + 1 then [None] else
          match k_opendir (p ++ [SLASH]) with
          | None => [Some ((p ++ [SLASH], mode), FTW_DNR)]
          | Some names =>
              concat (map (fun n => if len <=? Z.of_nat (length (p ++ [SLASH] ++ n)) then [None] else walk fuel (p ++ [SLASH] ++ n))
                          (filter (fun n => is_dot n = false) names))
          end
      end
  end.

(** The calls in order, until one returns something else than 0. *)
Fixpoint visit {U} (func : list Z -> Z -> Z -> M U Z) (l : list (option call)) : M U Z :=
  match l with
  | [] => mret 0
  | None :: _ => die (Undefined "write past the end of fullpath")
  | Some ((p, mode), type) :: l' => r ← func p mode type; if negb (r =? 0) then mret r else visit func l'
  end.
Lemma visit_app {U} (func : list Z -> Z -> Z -> M U Z) l1 l2 u :
  visit func (l1 ++ l2) u = (r ← visit func l1; if negb (r =? 0) then mret r else visit func l2) u.
Proof.
  revert u. induction l1 as [|[[[p m] t]|] l1 IH]; intros u; cbn [visit app]; [done| |done]. unfold mbind, M_bind in *.
  destruct (func p m t u) as [r u'|]; [|done]. destruct (negb (r =? 0)) eqn:E; [unfold mret, M_ret; by rewrite E|]. by rewrite IH.
Qed.
End Reference.

Section Correct.
Context `{K : FtwKernel} {U : Type} (func : list Z -> Z -> Z -> M U Z) (len : Z).

(** A run of the reference, with the buffer that is left. *)
Definition as_ftw (p : list Z -> Prop) (o : outcome U Z) (o' : outcome (ftw U) Z) : Prop :=
  match o, o' with
  | Ret r u, Ret r' s => r' = r /\ fw_user s = u /\ p (fullpath s)
  | Exit e u, Exit e' s => e' = e /\ fw_user s = u
  | _, _ => False
  end.
Lemma as_ftw_impl (P Q : list Z -> Prop) o o' : (forall b, P b -> Q b) -> as_ftw P o o' -> as_ftw Q o o'.
Proof. intros H. unfold as_ftw. repeat case_match; naive_solver. Qed.
(** After [dopath] the buffer holds the path name as before, but for a slash behind a directory that cannot be read. *)
Definition holds_path (p b : list Z) : Prop := Z.of_nat (length b) = len /\ exists rest, b = p ++ NUL :: rest.
Definition left_path (p b : list Z) : Prop := holds_path p b \/ holds_path (p ++ [SLASH]) b.
Lemma holds_cstr p b : nonul p -> holds_path p b -> cstr b = p.
Proof. intros Hp (_ & rest & ->). by apply cstr_app. Qed.
Lemma holds_prefix p q b : holds_path (p ++ q) b -> Z.of_nat (length b) = len /\ exists rest, b = p ++ rest.
Proof. intros (Hl & rest & ->). split; [done|]. exists (q ++ NUL :: rest). by rewrite app_assoc. Qed.

(** A string written behind the first [length p] bytes. *)
Lemma write_string p q b u : Z.of_nat (length b) = len -> (exists rest, b = p ++ rest) ->
  if len <=? Z.of_nat (length (p ++ q)) then write_at (U := U) (length p) (q ++ [NUL]) (Ftw b u) = Exit (Undefined "write past the end of fullpath") (Ftw b u)
  else exists b', write_at (length p) (q ++ [NUL]) (Ftw b u) = Ret tt (Ftw b' u) /\ holds_path (p ++ q) b'.
Proof.
  intros Hl [rest ->]. unfold write_at. cbn [fullpath fw_user]. rewrite !length_app in *. cbn [length]. destruct (len <=? _) eqn:E; bsimp.
  - by rewrite (proj2 (Nat.leb_gt _ _)) by lia.
  - rewrite (proj2 (Nat.leb_le _ _)) by lia. eexists. split; [done|]. rewrite take_app_length, drop_app_ge by lia. split.
    + rewrite !length_app, length_drop. cbn [length]. lia.
    + eexists. rewrite <- !app_assoc. done.
Qed.

Lemma names_loop_visit (rec : M (ftw U) Z) (g : list Z -> list (option ((list Z * Z) * Z))) dir names : forall b u,
  (forall n b u, n ∈ names -> is_dot n = false -> Z.of_nat (length (dir ++ n)) < len -> holds_path (dir ++ n) b -> as_ftw (left_path (dir ++ n)) (visit func (g (dir ++ n)) u) (rec (Ftw b u))) ->
  Z.of_nat (length b) = len -> (exists rest, b = dir ++ rest) ->
  as_ftw (fun b => Z.of_nat (length b) = len /\ exists rest, b = dir ++ rest)
    (visit func (concat (map (fun n => if len <=? Z.of_nat (length (dir ++ n)) then [None] else g (dir ++ n)) (filter (fun n => is_dot n = false) names))) u)
    (names_loop rec (length dir) 0 names (Ftw b u)).
Proof.
  induction names as [|n names IH]; intros b u Hrec Hl Hb; [done|]. cbn [names_loop]. rewrite filter_cons.
  assert (Hrec' : forall n b u, n ∈ names -> is_dot n = false -> Z.of_nat (length (dir ++ n)) < len -> holds_path (dir ++ n) b -> as_ftw (left_path (dir ++ n)) (visit func (g (dir ++ n)) u) (rec (Ftw b u)))
    by (intros m b' u' Hm; apply Hrec; by apply elem_of_cons; right).
  destruct (is_dot n) eqn:Ed; [rewrite decide_False by done; by apply IH|].
  rewrite decide_True by done. cbn [map concat]. rewrite visit_app. pose proof (write_string dir n b u Hl Hb) as Hw.
  destruct (len <=? Z.of_nat (length (dir ++ n))) eqn:El; bsimp; [by rewrite (bind_exit _ _ _ _ _ Hw)|].
  destruct Hw as (b1 & Hw & Hb1). run Hw. pose proof (Hrec n b1 u ltac:(apply elem_of_cons; by left) Ed El Hb1) as H.
  unfold mbind, M_bind. destruct (visit func (g (dir ++ n)) u) as [r u1|e u1], (rec (Ftw b1 u)) as [r' [b2 u2]|e' s']; try done.
  destruct H as (-> & <- & Hp). cbn [fullpath fw_user] in *. assert (Hb2 : Z.of_nat (length b2) = len /\ exists rest, b2 = dir ++ rest).
  { destruct Hp as [Hp|Hp]; [by apply holds_prefix in Hp|]. rewrite <- app_assoc in Hp. by apply holds_prefix in Hp. }
  destruct (negb (r =? 0)) eqn:Er; [done|]. bsimp. subst r. destruct Hb2 as [Hb2 Hb3]. by apply IH.
Qed.
Lemma call_visit q b mode type u P : nonul q -> holds_path q b -> P b -> as_ftw P (visit func [Some ((q, mode), type)] u) (call_func func mode type (Ftw b u)).
Proof.
  intros Hq Hb HP. cbn [visit]. unfold call_func, mbind, M_bind. cbn [fullpath fw_user]. rewrite (holds_cstr q b Hq Hb). destruct (func q mode type u) as [r u'|]; [|done].
  by destruct (Z.eqb_spec r 0) as [->|].
Qed.
Lemma dopath_visit fuel : forall p b u, (Z.to_nat len <= fuel + length p)%nat -> Z.of_nat (length p) < len -> nonul p -> holds_path p b ->
  as_ftw (left_path p) (visit func (walk len fuel p) u) (dopath func fuel (Ftw b u)).
Proof.
  induction fuel as [|fuel IH]; intros p b u Hfuel Hlen Hn Hb; [lia|]. cbn [dopath walk].
  rewrite (bind_ret get _ _ _ _ eq_refl). cbn [fullpath]. rewrite (holds_cstr p b Hn Hb).
  destruct (k_lstat p) as [mode|]; [|by apply call_visit; [| |left]]. destruct (S_ISDIR mode); cbn [negb]; [|by apply call_visit; [| |left]].
  cbn [visit]. destruct (func p mode FTW_D u) as [r u'|e u'] eqn:Ef.
  2: { rewrite (bind_exit _ _ _ _ _ Ef). rewrite (bind_exit (call_func func mode FTW_D) _ (Ftw b u) e (Ftw b u')); [done|]. unfold call_func. cbn. by rewrite (holds_cstr p b Hn Hb), Ef. }
  run Ef. rewrite (bind_ret (call_func func mode FTW_D) _ (Ftw b u) r (Ftw b u')) by (unfold call_func; cbn; by rewrite (holds_cstr p b Hn Hb), Ef).
  destruct (negb (r =? 0)) eqn:Er; [split_and!; [done|done|by left]|]. bsimp. subst r.
  rewrite (bind_ret get _ _ _ _ eq_refl). cbn [fullpath]. rewrite (holds_cstr p b Hn Hb). cbn zeta.
  (* the slash, and the null byte behind it *)
  destruct Hb as (Hbl & rest & ->). assert (Hslash : write_at (U := U) (length p) [SLASH] (Ftw (p ++ NUL :: rest) u') = Ret tt (Ftw ((p ++ [SLASH]) ++ rest) u')).
  { unfold write_at. cbn [fullpath fw_user length]. rewrite length_app in *. cbn [length] in *. rewrite (proj2 (Nat.leb_le _ _)) by lia. rewrite take_app_length, drop_app_ge by lia.
    replace (length p + 1 - length p)%nat with 1%nat by lia. cbn [drop]. by rewrite <- app_assoc. }
  run Hslash. assert (Hbl' : Z.of_nat (length ((p ++ [SLASH]) ++ rest)) = len) by (rewrite !length_app in *; cbn [length] in *; lia).
  pose proof (write_string (p ++ [SLASH]) [] ((p ++ [SLASH]) ++ rest) u' Hbl' ltac:(by eexists)) as Hw. rewrite app_nil_r in Hw. cbn [app] in Hw.
  replace (length (p ++ [SLASH])) with (S (length p)) in Hw by (rewrite length_app; cbn; lia). replace (Z.of_nat (S (length p))) with (Z.of_nat (length p) + 1) in Hw by lia.
  destruct (len <=? Z.of_nat (length p) + 1) eqn:El; bsimp; [by rewrite (bind_exit _ _ _ _ _ Hw)|].
  destruct Hw as (b1 & Hw & Hb1). run Hw. rewrite (bind_ret get _ _ _ _ eq_refl). cbn [fullpath].
  assert (Hns : nonul (p ++ [SLASH])) by (apply nonul_app; split; [done|by repeat constructor]). rewrite (holds_cstr (p ++ [SLASH]) b1 Hns Hb1).
  destruct (k_opendir (p ++ [SLASH])) as [names|] eqn:En; [|by apply call_visit; [| |right]].
  pose proof (k_names _ _ En) as Hnames. rewrite Forall_forall in Hnames.
  opose proof* (names_loop_visit (dopath func fuel) (walk len fuel) (p ++ [SLASH]) names b1 u') as Hloop.
  - intros n b2 u2 Hin Hd Hln Hb2. destruct (Hnames n Hin) as [Hne Hnn]. apply IH; [|done|by apply nonul_app|done]. rewrite !length_app. cbn [length]. destruct n; [done|]. cbn [length]. lia.
  - apply Hb1.
  - destruct Hb1 as (_ & r1 & ->). by exists (NUL :: r1).
  - replace (length (p ++ [SLASH])) with (S (length p)) in Hloop by (rewrite length_app; cbn; lia).
    rewrite (map_ext _ (fun n => if len <=? Z.of_nat (length (p ++ [SLASH] ++ n)) then [None] else walk len fuel (p ++ [SLASH] ++ n))) in Hloop by (intros n; by rewrite <- app_assoc).
    unfold mbind, M_bind. destruct (visit func _ u') as [r u2|e u2], (names_loop _ _ _ _ _) as [r' [b3 u3]|e' s2]; try done.
    destruct Hloop as (-> & <- & Hb3 & rest3 & E3). cbn [fullpath fw_user] in *. cbn [Nat.sub]. rewrite Nat.sub_0_r.
    pose proof (write_string p [] b3 u3 Hb3 ltac:(rewrite E3; rewrite <- app_assoc; by eexists)) as Hw2. rewrite app_nil_r in Hw2. cbn [app] in Hw2. rewrite (proj2 (Z.leb_gt _ _)) in Hw2 by lia.
    destruct Hw2 as (b4 & -> & Hb4). split_and!; [done|done|by left].
Qed.

Lemma myftw_visit pathname s : 1 <= len -> nonul pathname -> let p := take (Z.to_nat (len - 1)) pathname in
  as_ftw (left_path p) (visit func (walk len (Z.to_nat len) p) (fw_user s)) (myftw func len pathname s).
Proof.
  intros Hlen Hn p. unfold myftw. cbn zeta. set (n := Z.to_nat len). set (b := take n (pathname ++ replicate (n - length pathname) NUL)).
  rewrite (bind_ret (modify _) _ s tt (Ftw b (fw_user s)) eq_refl). assert (Hbl : length b = n) by (unfold b; rewrite length_take, length_app, length_replicate; lia).
  assert (Hp : Z.of_nat (length p) < len) by (unfold p; rewrite length_take; lia).
  assert (Hw : write_at (U := U) (n - 1) [NUL] (Ftw b (fw_user s)) = Ret tt (Ftw (take (n - 1) b ++ [NUL]) (fw_user s))).
  { unfold write_at. cbn [fullpath fw_user length]. rewrite (proj2 (Nat.leb_le _ _)) by lia. rewrite drop_ge by lia. by rewrite app_nil_r. }
  run Hw. apply dopath_visit; [lia|done|by apply Forall_take|]. split; [rewrite length_app, length_take; cbn [length]; lia|].
  unfold b. rewrite take_take, Nat.min_l by lia. unfold p. replace (Z.to_nat (len - 1)) with (n - 1)%nat by lia. destruct (decide (n - 1 <= length pathname)%nat) as [Hle|Hgt].
  - rewrite take_app_le by lia. by exists [].
  - rewrite take_app_ge by lia. rewrite (take_ge pathname) by lia. destruct (n - 1 - length pathname)%nat as [|k] eqn:Ek; [lia|].
    destruct (n - length pathname)%nat as [|m] eqn:Em; [lia|]. cbn [replicate take]. exists (take k (replicate m NUL) ++ [NUL]). by rewrite <- app_assoc.
Qed.
End Correct.

(** C38: [myftw], with its one buffer for all path names, in which names are copied behind the path of their directory and cut
    off again, calls the function for exactly the files of the hierarchy, each with its own
    path name, a directory before what is in it, and unreadable directories and files that cannot be examined with their types; it
    stops when the function returns something else than 0, returns that, and leaves the path name in the buffer as it was, but for
    a slash behind an unreadable start.  A start that is longer than the buffer is cut to its length; where a path name met on the
    way does not fit the buffer, the bytes are written behind its end, which has no meaning in C, once the calls before it have been made. *)
Theorem myftw_equals_walk `{K : FtwKernel} {U} (func : list Z -> Z -> Z -> M U Z) len pathname s :
  1 <= len -> nonul pathname -> let p := take (Z.to_nat (len - 1)) pathname in
  as_ftw (left_path len p) (visit func (walk len (Z.to_nat len) p) (fw_user s)) (myftw func len pathname s).
Proof. apply myftw_visit. Qed.

(** ** Counting *)

Definition has_type (f : Z) (v : (list Z * Z) * Z) : bool := (v.2 =? FTW_F) && (Z.land v.1.2 S_IFMT =? f).
Definition count (P : (list Z * Z) * Z -> bool) (l : list ((list Z * Z) * Z)) : Z := Z.of_nat (length (filter (fun v => P v = true) l)).
Lemma count_cons P v l : count P (v :: l) = count P l + (if P v then 1 else 0).
Proof. unfold count. rewrite filter_cons. destruct (P v) eqn:E; [rewrite decide_True by done|rewrite decide_False by done]; cbn [length]; lia. Qed.
(** What [walk] gives a function: files that are no directories, or another type. *)
Definition proper (v : (list Z * Z) * Z) : Prop := v.2 = FTW_F /\ S_ISDIR v.1.2 = false \/ v.2 ∈ [FTW_D; FTW_DNR; FTW_NS].
Definition proper_call (v : option ((list Z * Z) * Z)) : Prop := match v with Some x => proper x | None => True end.
Lemma walk_proper `{K : FtwKernel} len n : forall p, Forall proper_call (walk len n p).
Proof.
  induction n as [|n IH]; intros p; cbn [walk]; [constructor|]. destruct (k_lstat p) as [mode|]; [|apply Forall_singleton; right; cbn; rewrite !elem_of_cons; auto].
  destruct (S_ISDIR mode) eqn:E; cbn [negb]; [|apply Forall_singleton; by left]. constructor; [right; cbn; rewrite !elem_of_cons; auto|]. case_match; [by repeat constructor|].
  destruct (k_opendir _) as [names|]; [|apply Forall_singleton; right; cbn; rewrite !elem_of_cons; auto].
  apply Forall_concat, Forall_fmap, Forall_forall. intros x _. cbn. case_match; [by repeat constructor|apply IH].
Qed.
Ltac one_more := repeat split; first [reflexivity | symmetry; apply Z.add_0_r].
(** [myfunc] counts the files of each type. *)
Lemma myfunc_counts l : Forall proper l -> forall c, exists c', visit myfunc (map Some l) c = Ret 0 c' /\
  nreg c' = nreg c + count (has_type S_IFREG) l /\ nblk c' = nblk c + count (has_type S_IFBLK) l /\ nchr c' = nchr c + count (has_type S_IFCHR) l /\
  nfifo c' = nfifo c + count (has_type S_IFIFO) l /\ nslink c' = nslink c + count (has_type S_IFLNK) l /\ nsock c' = nsock c + count (has_type S_IFSOCK) l /\
  ndir c' = ndir c + count (fun v => v.2 =? FTW_D) l.
Proof.
  induction 1 as [|[[p m] t] l Hv _ IH]; intros c; cbn [visit map]; [exists c; split; [done|]; repeat split; symmetry; apply Z.add_0_r|].
  assert (Hf : exists c1, myfunc p m t c = Ret 0 c1 /\
    nreg c1 = nreg c + (if has_type S_IFREG ((p, m), t) then 1 else 0) /\ nblk c1 = nblk c + (if has_type S_IFBLK ((p, m), t) then 1 else 0) /\
    nchr c1 = nchr c + (if has_type S_IFCHR ((p, m), t) then 1 else 0) /\ nfifo c1 = nfifo c + (if has_type S_IFIFO ((p, m), t) then 1 else 0) /\
    nslink c1 = nslink c + (if has_type S_IFLNK ((p, m), t) then 1 else 0) /\ nsock c1 = nsock c + (if has_type S_IFSOCK ((p, m), t) then 1 else 0) /\
    ndir c1 = ndir c + (if t =? FTW_D then 1 else 0)).
  { destruct c as [rg dr bk ch ff sl sk ms]. unfold myfunc, has_type. cbn [fst snd]. destruct Hv as [[Ht Hd]|Ht]; cbn [fst snd] in *.
    - subst t. unfold S_ISDIR in Hd. change (FTW_F =? FTW_F) with true. change (FTW_F =? FTW_D) with false. cbn [andb]. rewrite Hd.
      generalize (Z.land m S_IFMT). intros f. repeat match goal with |- context [f =? ?x] => destruct (Z.eqb_spec f x); [subst f; eexists; split; [reflexivity|]; one_more|] end.
      eexists; split; [reflexivity|]; one_more.
    - rewrite !elem_of_cons, elem_of_nil in Ht. repeat destruct Ht as [->|Ht]; try done; eexists; (split; [reflexivity|]); one_more. }
  destruct Hf as (c1 & Hf & F1 & F2 & F3 & F4 & F5 & F6 & F7). run Hf. change (0 =? 0) with true. cbn [negb].
  destruct (IH c1) as (c' & Hc & G1 & G2 & G3 & G4 & G5 & G6 & G7). exists c'. split; [done|]. rewrite !count_cons. cbn [snd]. repeat split; lia.
Qed.

(** A path name that does not fit the buffer: nothing stops the write past its end. *)
Module FtwDemo.
#[local] Program Instance kernel : FtwKernel := {|
  k_lstat p := if bool_decide (p = bytes "/a") then Some S_IFDIR else if bool_decide (p = bytes "/a/long") then Some S_IFREG else None;
  k_opendir p := if bool_decide (p = bytes "/a/") then Some [bytes "."; bytes "long"] else None |}.
Next Obligation. intros p l. cbn. case_bool_decide; [|done]. intros [= <-]. by repeat constructor. Qed.
Lemma long_name_overflows : exists s, myftw myfunc 6 (bytes "/a") (Ftw [] (Counts 0 0 0 0 0 0 0 [])) = Exit (Undefined "write past the end of fullpath") s.
Proof. eexists. vm_compute. reflexivity. Qed.
End FtwDemo.

#[local] Existing Instance FtwDemo.kernel.
Lemma myftw_equals_walk_witness :
  walk 12 12 (bytes "/a") = [Some ((bytes "/a", S_IFDIR), FTW_D); Some ((bytes "/a/long", S_IFREG), FTW_F)] /\
  as_ftw (left_path 12 (bytes "/a")) (visit myfunc (walk 12 12 (bytes "/a")) (Counts 0 0 0 0 0 0 0 [])) (myftw myfunc 12 (bytes "/a") (Ftw [] (Counts 0 0 0 0 0 0 0 []))).
Proof.
  split; [vm_compute; reflexivity|].
  refine (myftw_equals_walk myfunc 12 (bytes "/a") (Ftw [] (Counts 0 0 0 0 0 0 0 [])) _ _); [done|by repeat constructor].
Defined.
