(* ===== verification/ErrRoutines.v ===== *)
(** The error routines: [src/apue2e/lib/error.c], [src/apue2e/lib/errorlog.c] and [src/tlpi-dist/lib/error_functions.c].

    The text that the caller's format makes is an argument; [strerror] and the table of error names are parameters. *)
From S2P Require Import Prelude CStr.

Class ErrEnv := { err_text : Z -> list Z; ename : Z -> list Z; MAX_ENAME : Z }.
(** What [stdout] has not yet written, what the terminal shows (both streams go there), the system log, and [errno]. *)
Record eproc := Eproc { ep_pending : list Z; ep_term : list Z; ep_log : list (Z * list Z); ep_errno : Z }.
Definition flush_stdout : M eproc unit := modify (fun s => Eproc [] (ep_term s ++ ep_pending s) (ep_log s) (ep_errno s)).
Definition fputs_stderr (bs : list Z) : M eproc unit := modify (fun s => Eproc (ep_pending s) (ep_term s ++ bs) (ep_log s) (ep_errno s)).
(** [exit] writes what is pending; [abort] and [_exit] do not. *)
Definition exit_stdio (status : Z) : M eproc unit := flush_stdout ;; die (Exits status).

Definition APUE_MAXLINE : Z := 4096.
(** [vsnprintf(buf, n, ...)] *)
Definition snprintf (n : Z) (text : list Z) : list Z := take (Z.to_nat (n - 1)) text.

Section Apue.
Context `{E : ErrEnv}.

(** The line in [buf[MAXLINE]]; none: [strcat] writes the null byte behind the array. *)
Definition err_line (errnoflag : bool) (error : Z) (text : list Z) : option (list Z) :=
  let buf := snprintf APUE_MAXLINE text in
  let buf := if errnoflag then buf ++ snprintf (APUE_MAXLINE - Z.of_nat (length buf)) (bytes ": " ++ err_text error) else buf in
  if APUE_MAXLINE <=? Z.of_nat (length buf) + 1 then None else Some (buf ++ [NEWLINE]).
Definition err_doit (errnoflag : bool) (error : Z) (text : list Z) : M eproc unit :=
  match err_line errnoflag error text with
  | None => die (Undefined "strcat past the end of buf")
  | Some buf => flush_stdout ;; fputs_stderr buf ;; flush_stdout
  end.
Definition err_ret (text : list Z) : M eproc unit := s ← get; err_doit true (ep_errno s) text.
Definition err_sys (text : list Z) : M eproc unit := s ← get; err_doit true (ep_errno s) text ;; exit_stdio 1.
Definition err_exit (error : Z) (text : list Z) : M eproc unit := err_doit true error text ;; exit_stdio 1.
Definition err_dump (text : list Z) : M eproc unit := s ← get; err_doit true (ep_errno s) text ;; die (Err_dump "").
Definition err_msg (text : list Z) : M eproc unit := err_doit false 0 text.
Definition err_quit (text : list Z) : M eproc unit := err_doit false 0 text ;; exit_stdio 1.

(** [errorlog.c]: to the terminal or to [syslog], for which the line is a format: [expand] is what it makes of it. *)
Context (log_to_stderr : bool) (expand : list Z -> option (list Z)).
Definition LOG_ERR : Z := 3.
Definition log_doit (errnoflag : bool) (priority : Z) (text : list Z) : M eproc unit :=
  s ← get;
  match err_line errnoflag (ep_errno s) text with
  | None => die (Undefined "strcat past the end of buf")
  | Some buf =>
      if log_to_stderr then flush_stdout ;; fputs_stderr buf
      else
        match expand buf with
        | None => die (Undefined "conversion without an argument")
        | Some l => modify (fun s => Eproc (ep_pending s) (ep_term s) (ep_log s ++ [(priority, l)]) (ep_errno s))
        end
  end.
Definition log_ret (text : list Z) : M eproc unit := log_doit true LOG_ERR text.
Definition log_sys (text : list Z) : M eproc unit := log_doit true LOG_ERR text ;; exit_stdio 2.
Definition log_msg (text : list Z) : M eproc unit := log_doit false LOG_ERR text.
Definition log_quit (text : list Z) : M eproc unit := log_doit false LOG_ERR text ;; exit_stdio 2.
End Apue.

Section Tlpi.
Context `{E : ErrEnv} (dumpcore : option (list Z)).

(** [EF_DUMPCORE] in the environment *)
Definition terminate (useExit3 : bool) : M eproc unit :=
  if bool_decide (dumpcore <> None) && negb (bool_decide (dumpcore = Some [])) then die (Err_dump "")
  else if useExit3 then exit_stdio 1 else die (Exits 1).
Definition EF_BUF_SIZE : Z := 500.
Definition outputError (useErr : bool) (err : Z) (flushStdout : bool) (text : list Z) : M eproc unit :=
  let userMsg := snprintf EF_BUF_SIZE text in
  let errText := if useErr then snprintf EF_BUF_SIZE (bytes " [" ++ (if (0 <? err) && (err <=? MAX_ENAME) then ename err else bytes "?UNKNOWN?") ++ [SPACE] ++ err_text err ++ bytes "]")
                 else snprintf EF_BUF_SIZE (bytes ":") in
  let buf := snprintf EF_BUF_SIZE (bytes "ERROR" ++ errText ++ [SPACE] ++ userMsg ++ [NEWLINE]) in
  when flushStdout flush_stdout ;; fputs_stderr buf.
Definition errMsg (text : list Z) : M eproc unit := s ← get; outputError true (ep_errno s) true text.
Definition errExit (text : list Z) : M eproc unit := s ← get; outputError true (ep_errno s) true text ;; terminate true.
Definition tlpi_err_exit (text : list Z) : M eproc unit := s ← get; outputError true (ep_errno s) false text ;; terminate false.
Definition errExitEN (errnum : Z) (text : list Z) : M eproc unit := outputError true errnum true text ;; terminate true.
Definition ef_fatal (text : list Z) : M eproc unit := outputError false 0 true text ;; terminate true.
Definition usageErr (text : list Z) : M eproc unit := flush_stdout ;; fputs_stderr (bytes "Usage: ") ;; fputs_stderr text ;; exit_stdio 1.
Definition cmdLineErr (text : list Z) : M eproc unit := flush_stdout ;; fputs_stderr (bytes "Command-line usage error: ") ;; fputs_stderr text ;; exit_stdio 1.
End Tlpi.

(** ** What is shown *)

Section Shown.
Context `{E : ErrEnv}.
Definition full_line (errnoflag : bool) (error : Z) (text : list Z) : list Z := text ++ (if errnoflag then bytes ": " ++ err_text error else []) ++ [NEWLINE].

Lemma err_snprintf_short n t : Z.of_nat (length t) < n -> snprintf n t = t.
Proof. intros H. unfold snprintf. apply take_ge. lia. Qed.
Lemma err_snprintf_long n t : 0 < n -> n <= Z.of_nat (length t) -> Z.of_nat (length (snprintf n t)) = n - 1.
Proof. intros H0 H. unfold snprintf. rewrite length_take. lia. Qed.

(** The line is complete when it and its null byte fit the array, and runs over the end by the null byte in every other case. *)
Lemma err_line_exact errnoflag error text :
  err_line errnoflag error text = if Z.of_nat (length (full_line errnoflag error text)) <? APUE_MAXLINE then Some (full_line errnoflag error text) else None.
Proof.
  unfold err_line, full_line. rewrite !length_app. change (length [NEWLINE]) with 1%nat. set (e := bytes ": " ++ err_text error).
  destruct (Z.ltb_spec (Z.of_nat (length text)) APUE_MAXLINE) as [Ht|Ht].
  - rewrite (err_snprintf_short _ text) by done. destruct errnoflag; cbn [app length].
    + rewrite length_app. destruct (Z.ltb_spec (Z.of_nat (length e)) (APUE_MAXLINE - Z.of_nat (length text))) as [He|He].
      * rewrite err_snprintf_short by done. destruct (Z.ltb_spec (Z.of_nat (length text + (length e + 1))) APUE_MAXLINE).
        -- bfalse (APUE_MAXLINE <=? Z.of_nat (length text + length e) + 1). by rewrite <- app_assoc.
        -- by btrue (APUE_MAXLINE <=? Z.of_nat (length text + length e) + 1).
      * pose proof (err_snprintf_long (APUE_MAXLINE - Z.of_nat (length text)) e ltac:(lia) He) as Hl.
        btrue (APUE_MAXLINE <=? Z.of_nat (length text + length (snprintf (APUE_MAXLINE - Z.of_nat (length text)) e)) + 1).
        by bfalse (Z.of_nat (length text + (length e + 1)) <? APUE_MAXLINE).
    + destruct (Z.ltb_spec (Z.of_nat (length text + (0 + 1))) APUE_MAXLINE).
      * by bfalse (APUE_MAXLINE <=? Z.of_nat (length text) + 1).
      * by btrue (APUE_MAXLINE <=? Z.of_nat (length text) + 1).
  - pose proof (err_snprintf_long APUE_MAXLINE text ltac:(done) Ht) as Hl. rewrite <- app_assoc || idtac.
    destruct errnoflag; cbn [app length].
    + rewrite length_app. replace (APUE_MAXLINE - Z.of_nat (length (snprintf APUE_MAXLINE text))) with 1 by lia. change (snprintf 1 e) with ([] : list Z). cbn [length].
      btrue (APUE_MAXLINE <=? Z.of_nat (length (snprintf APUE_MAXLINE text) + 0) + 1). by bfalse (Z.of_nat (length text + (length e + 1)) <? APUE_MAXLINE).
    + btrue (APUE_MAXLINE <=? Z.of_nat (length (snprintf APUE_MAXLINE text)) + 1). by bfalse (Z.of_nat (length text + (0 + 1)) <? APUE_MAXLINE).
Qed.

(** What the program had printed comes before the message, on the same terminal. *)
Lemma err_sys_shows text s : Z.of_nat (length (full_line true (ep_errno s) text)) < APUE_MAXLINE ->
  err_sys text s = Exit (Exits 1) (Eproc [] (ep_term s ++ ep_pending s ++ full_line true (ep_errno s) text) (ep_log s) (ep_errno s)).
Proof.
  intros H. unfold err_sys, err_doit. rewrite (bind_ret get _ s s s eq_refl), err_line_exact. btrue (Z.of_nat (length (full_line true (ep_errno s) text)) <? APUE_MAXLINE).
  unfold flush_stdout, fputs_stderr, exit_stdio, flush_stdout, modify, die. cbv [mbind M_bind]. cbn. by rewrite ?app_nil_r, <- ?app_assoc.
Qed.
(** A message of [errExit] that is too long loses its end, the newline included. *)
Lemma errExit_shows text s :
  let line := bytes "ERROR" ++ bytes " [" ++ (if (0 <? ep_errno s) && (ep_errno s <=? MAX_ENAME) then ename (ep_errno s) else bytes "?UNKNOWN?") ++ [SPACE] ++ err_text (ep_errno s) ++ bytes "]" ++ [SPACE] ++ text ++ [NEWLINE] in
  Z.of_nat (length line) < EF_BUF_SIZE ->
  errExit None text s = Exit (Exits 1) (Eproc [] (ep_term s ++ ep_pending s ++ line) (ep_log s) (ep_errno s)).
Proof.
  intros line Hl. unfold errExit, outputError. rewrite (bind_ret get _ s s s eq_refl). set (name := if (0 <? ep_errno s) && (ep_errno s <=? MAX_ENAME) then ename (ep_errno s) else bytes "?UNKNOWN?") in *.
  assert (H1 : Z.of_nat (length text) < EF_BUF_SIZE) by (unfold line in Hl; rewrite !length_app in Hl; lia). rewrite (err_snprintf_short _ text) by done.
  rewrite (err_snprintf_short _ (bytes " [" ++ _)) by (unfold line in Hl; rewrite !length_app in *; cbn in *; lia).
  rewrite err_snprintf_short by (unfold line in Hl; rewrite !length_app in *; cbn in *; lia).
  cbn [when]. unfold terminate. rewrite bool_decide_false by (intros H; by apply H).
  unfold flush_stdout, fputs_stderr, exit_stdio, flush_stdout, modify, die. cbv [mbind M_bind]. cbn [andb ep_pending ep_term ep_log ep_errno]. unfold line. by rewrite ?app_nil_r, <- ?app_assoc.
Qed.
End Shown.
