(* ===== verification/Execlp.v ===== *)
(** [execlp] of [src/tlpi-dist/procexec/execlp.c]: the argument vector, the search in [PATH], and scripts.

    What [execve] makes of a file, and whether there is memory for an array, for the copy of a variable of the
    environment and for any other string, are parameters. Only the arrays are tested by the code. *)
From S2P Require Import Prelude CStr.

(** [None]: the program is executed; an error number otherwise. *)
Class ExecEnv := { k_execve : list Z -> option Z; alloc_ok : nat -> bool; dup_ok : list Z -> bool; str_ok : list Z -> bool }.
Definition EACCES_X : Z := 13.
Definition ENOEXEC : Z := 8.
Definition ENOMEM_X : Z := 12.
Definition EFAULT_X : Z := 14.
Definition PATH_SEP : Z := 58.
Definition DIR_SEP : Z := 47.
Definition SHELL_PATH : list Z := bytes "/bin/sh".

(** A pointer in an array; what [realloc] adds has no value yet. *)
Inductive cell := Garbage | Nullp | Ptr (s : list Z).
(** The program that takes the place of the process. *)
Record image := Image { im_path : list Z; im_argv : list (list Z); im_envp : list (list Z) }.
(** [errno], and the files that were tried. *)
Record xproc := Xproc { x_errno : Z; x_tried : list (list Z) }.
Inductive xres := Runs (i : image) | Returns (r : Z).

(** The vector that the kernel reads, up to the null pointer. *)
Fixpoint vector (a : list cell) : option (list (list Z)) :=
  match a with
  | Nullp :: _ => Some []
  | Ptr s :: a' => cons s <$> vector a'
  | Garbage :: _ | [] => None
  end.
Definition cell_of (v : option (list Z)) : cell := match v with Some s => Ptr s | None => Nullp end.

Section Execlp.
Context `{X : ExecEnv}.

Definition execve (path : list Z) (argv envp : list cell) : M xproc (option image) := fun s =>
  match vector argv, vector envp with
  | Some a, Some e =>
      match k_execve path with
      | None => Ret (Some (Image path a e)) (Xproc (x_errno s) (x_tried s ++ [path]))
      | Some err => Ret None (Xproc err (x_tried s ++ [path]))
      end
  | _, _ => Exit (Undefined "a vector without an end") s
  end.

(** [for (j = 0; j <= argc; j++) shArgv[j + 1] = argv[j];] with [n] turns to go. *)
Fixpoint sh_copy (n j : nat) (argv shArgv : list cell) : M xproc (list cell) :=
  match n with
  | O => mret shArgv
  | S n =>
      match argv !! j with
      | None => die (Undefined "read past the end of argv")
      | Some c =>
          if bool_decide (S j < length shArgv)%nat then sh_copy n (S j) argv (<[S j := c]> shArgv)
          else die (Undefined "write past the end of shArgv")
      end
  end.
Definition execShScript (argc : nat) (argv envp : list cell) : M xproc (option image) :=
  shArgv ← sh_copy (S argc) 0 argv (<[0%nat := Ptr SHELL_PATH]> (replicate (S argc) Garbage));
  execve SHELL_PATH shArgv envp.

(** The loop that builds [argv]; [va] are the arguments not yet taken. *)
Fixpoint build_argv (va : list (option (list Z))) (argc : nat) (argv : list cell) : M xproc (option (nat * list cell)) :=
  match argv !! pred argc with
  | Some Nullp => mret (Some (argc, argv))
  | Some (Ptr _) =>
      let grow := bool_decide (length argv <= argc + 1)%nat in
      if grow && negb (alloc_ok (length argv + 100)) then modify (fun s => Xproc ENOMEM_X (x_tried s)) ;; mret None else
      let argv := if grow then argv ++ replicate 100 Garbage else argv in
      match va with
      | [] => die (Undefined "va_arg past the last argument")
      | v :: va' =>
          if bool_decide (argc < length argv)%nat then build_argv va' (S argc) (<[argc := cell_of v]> argv)
          else die (Undefined "write past the end of argv")
      end
  | _ => die (Undefined "argv has no value there")
  end.

(** Both branches try one file; [fndEACCES] is for the search only. *)
Definition attempt (path : list Z) (argc : nat) (argv envp : list cell) : M xproc (option image * Z) :=
  r ← execve path argv envp;
  match r with
  | Some i => mret (Some i, 0)
  | None =>
      s ← get;
      let savedErrno := x_errno s in
      if savedErrno =? ENOEXEC then
        r ← execShScript argc argv envp; mret (r, savedErrno)
      else mret (None, savedErrno)
  end.
Definition pathname_of (prefix filename : list Z) : list Z :=
  (if bool_decide (prefix = []) then bytes "." else prefix) ++ [DIR_SEP] ++ filename.
(** The loop over the prefixes, from [prStart] on: the errors so far in the result. *)
Fixpoint path_loop (fuel : nat) (filename prStart : list Z) (argc : nat) (argv envp : list cell) (fndEACCES : bool) : M xproc (option image * (bool * Z)) :=
  match fuel with
  | O => die Loops
  | S fuel =>
      let '(prefix, rest) := match split_at PATH_SEP prStart with Some (a, b) => (a, Some b) | None => (prStart, None) end in
      let pathname := pathname_of prefix filename in
      if negb (str_ok pathname) then die (Undefined "store through a null pointer") else
      r ← attempt pathname argc argv envp;
      match r with
      | (Some i, _) => mret (Some i, (fndEACCES, 0))
      | (None, savedErrno) =>
          let fndEACCES := (savedErrno =? EACCES_X) || fndEACCES in
          match rest with
          | None => mret (None, (fndEACCES, savedErrno))
          | Some prStart => path_loop fuel filename prStart argc argv envp fndEACCES
          end
      end
  end.
(** [strdup] of a variable: a null pointer where there is no memory. *)
Definition env_cell (v : list Z) : cell := if dup_ok v then Ptr v else Nullp.
(** [va] are all arguments, [arg] first; [PATH] and [environ] are those of the process. *)
Definition execlp (PATH : option (list Z)) (environ : list (list Z)) (filename : list Z) (arg : option (list Z)) (va : list (option (list Z))) : M xproc xres :=
  if negb (alloc_ok 100) then modify (fun s => Xproc ENOMEM_X (x_tried s)) ;; mret (Returns (-1)) else
  b ← build_argv va 1 (<[0%nat := cell_of arg]> (replicate 100 Nullp));
  match b with
  | None => mret (Returns (-1))
  | Some (argc, argv) =>
      if negb (alloc_ok (length environ + 1)) then modify (fun s => Xproc ENOMEM_X (x_tried s)) ;; mret (Returns (-1)) else
      let envp := map env_cell environ ++ [Nullp] in
      r ← (if bool_decide (DIR_SEP ∈ filename) then
             if negb (str_ok filename) then modify (fun s => Xproc EFAULT_X (x_tried s)) ;; mret (None, (false, EFAULT_X)) else
             r ← attempt filename argc argv envp; mret (r.1, (false, r.2))
           else
             let PATH := match PATH with None | Some [] => bytes "." | Some p => p end in
             if negb (str_ok PATH) then die (Undefined "strchr of a null pointer") else
             path_loop (S (length PATH)) filename PATH argc argv envp false);
      match r with
      | (Some i, _) => mret (Runs i)
      | (None, (fndEACCES, savedErrno)) =>
          modify (fun s => Xproc (if fndEACCES : bool then EACCES_X else savedErrno) (x_tried s)) ;; mret (Returns (-1))
      end
  end.

(** ** The search as SUSv3 describes it *)

Fixpoint prefixes (p : list Z) : list (list Z) :=
  match p with
  | [] => [[]]
  | c :: p' => if c =? PATH_SEP then [] :: prefixes p' else match prefixes p' with h :: t => (c :: h) :: t | [] => [[c]] end
  end.
Definition candidates (PATH : option (list Z)) (filename : list Z) : list (list Z) :=
  if bool_decide (DIR_SEP ∈ filename) then [filename]
  else map (fun prefix => pathname_of prefix filename) (prefixes (match PATH with None | Some [] => bytes "." | Some p => p end)).
(** A file that ends the search: it is executed, or has no format the kernel knows. *)
Definition ends (c : list Z) : Prop := k_execve c = None \/ k_execve c = Some ENOEXEC.
#[local] Instance ends_dec c : Decision (ends c) := _.
Definition errors (cs : list (list Z)) : list Z := omap k_execve cs.
Definition search_errno (cs : list (list Z)) : Z :=
  if bool_decide (EACCES_X ∈ errors cs) then EACCES_X else default 0 (last (errors cs)).
(** The variables before the first one whose copy has no memory. *)
Fixpoint copied (environ : list (list Z)) : list (list Z) :=
  match environ with v :: vs => if dup_ok v then v :: copied vs else [] | [] => [] end.
Definition exec_spec (cs args environ : list (list Z)) (s : xproc) (o : outcome xproc xres) : Prop :=
  match list_find ends cs with
  | Some (i, c) =>
      match k_execve c with
      | None => exists e, o = Ret (Runs (Image c args environ)) (Xproc e (x_tried s ++ take (S i) cs))
      | Some e => o = Exit (Undefined "write past the end of shArgv") (Xproc e (x_tried s ++ take (S i) cs))
      end
  | None => o = Ret (Returns (-1)) (Xproc (search_errno cs) (x_tried s ++ cs))
  end.

(** *** The vectors *)

Lemma copied_cells environ : exists junk, map env_cell environ ++ [Nullp] = map Ptr (copied environ) ++ Nullp :: junk.
Proof.
  induction environ as [|v vs [junk IH]]; [by exists []|]. unfold env_cell at 1. cbn. destruct (dup_ok v); [|by eexists].
  exists junk. cbn. by rewrite <- IH.
Qed.
Lemma copied_all environ : (forall v, v ∈ environ -> dup_ok v = true) -> copied environ = environ.
Proof. induction environ as [|v vs IH]; [done|]. intros H. cbn. rewrite H by set_solver. rewrite IH; set_solver. Qed.
Lemma vector_app a junk : vector (map Ptr a ++ Nullp :: junk) = Some a.
Proof. induction a as [|x a IH]; [done|]. cbn. by rewrite IH. Qed.
Lemma build_argv_step v va done junk s : (forall n, alloc_ok n = true) -> done <> [] -> junk <> [] ->
  exists junk', junk' <> [] /\ build_argv (v :: va) (length done) (map Ptr done ++ junk) s = build_argv va (S (length done)) (map Ptr done ++ cell_of v :: junk') s.
Proof.
  intros Hal Hd Hj. cbn [build_argv].
  assert (Hlast : exists x, (map Ptr done ++ junk) !! pred (length done) = Some (Ptr x)).
  { destruct (lookup_lt_is_Some_2 done (pred (length done))) as [x Hx]; [destruct done; [done|cbn; lia]|]. exists x. by rewrite lookup_app_l_Some with (x := Ptr x) by (by rewrite list_lookup_fmap, Hx). }
  destruct Hlast as [x ->]. rewrite Hal, andb_false_r. set (grow := bool_decide (length (map Ptr done ++ junk) <= length done + 1)%nat).
  set (more := if grow then replicate 100 Garbage else []).
  assert (Hm : (if grow then (map Ptr done ++ junk) ++ replicate 100 Garbage else map Ptr done ++ junk) = map Ptr done ++ (junk ++ more)).
  { unfold more. destruct grow; by rewrite ?app_nil_r, <- ?app_assoc. }
  rewrite Hm. destruct junk as [|y junk]; [done|]. exists (junk ++ more). split.
  - unfold more, grow. intros [-> E]%app_nil. rewrite bool_decide_true in E; [done|]. rewrite length_app, length_map. cbn. lia.
  - rewrite bool_decide_true by (rewrite length_app, length_map; cbn; lia). f_equal.
    rewrite <- (length_map Ptr done) at 1. by rewrite <- (Nat.add_0_r (length (map Ptr done))), insert_app_r.
Qed.
Lemma build_argv_end va done junk s : build_argv va (S (length done)) (map Ptr done ++ Nullp :: junk) s = Ret (Some (S (length done), map Ptr done ++ Nullp :: junk)) s.
Proof.
  assert (H : (map Ptr done ++ Nullp :: junk) !! length done = Some Nullp) by (apply list_lookup_middle; by rewrite length_map).
  destruct va; cbn [build_argv pred]; by rewrite H.
Qed.
Lemma build_argv_ok rest : forall done junk s, (forall n, alloc_ok n = true) -> done <> [] -> junk <> [] ->
  exists junk', junk' <> [] /\
    build_argv (map Some rest ++ [None]) (length done) (map Ptr done ++ junk) s = Ret (Some (S (length (done ++ rest)), map Ptr (done ++ rest) ++ Nullp :: junk')) s.
Proof.
  induction rest as [|x rest IH]; intros done junk s Hal Hd Hj.
  - destruct (build_argv_step None [] done junk s Hal Hd Hj) as (junk' & Hj' & E). exists junk'. cbn [map app]. by rewrite E, app_nil_r, build_argv_end.
  - destruct (build_argv_step (Some x) (map Some rest ++ [None]) done junk s Hal Hd Hj) as (junk1 & Hj1 & E).
    destruct (IH (done ++ [x]) junk1 s Hal ltac:(by destruct done) Hj1) as (junk' & Hj' & E'). exists junk'. split; [done|]. cbn [map app]. rewrite E.
    rewrite length_app, Nat.add_comm, map_app, <- !app_assoc in E'. exact E'.
Qed.
(** [shArgv] is too short by one element for every argument vector. *)
Lemma execShScript_overflows argc argv envp s : (argc < length argv)%nat -> execShScript argc argv envp s = Exit (Undefined "write past the end of shArgv") s.
Proof.
  intros Hl. unfold execShScript. apply bind_exit.
  assert (H : forall n j sh, (j + n = S argc)%nat -> length sh = S argc -> (0 < n)%nat -> sh_copy n j argv sh s = Exit (Undefined "write past the end of shArgv") s).
  { induction n as [|n IH]; intros j sh Hn Hsh Hpos; [lia|]. cbn [sh_copy]. destruct (lookup_lt_is_Some_2 argv j ltac:(lia)) as [c ->].
    destruct (decide (S j < length sh)%nat) as [H|H]; [rewrite bool_decide_true by done|by rewrite bool_decide_false].
    apply IH; [lia|by rewrite length_insert|lia]. }
  apply H; [lia|by rewrite length_insert, length_replicate|lia].
Qed.
Lemma attempt_result path args environ argc junk ejunk s : (argc <= length args + length junk)%nat ->
  attempt path argc (map Ptr args ++ Nullp :: junk) (map Ptr environ ++ Nullp :: ejunk) s =
  match k_execve path with
  | None => Ret (Some (Image path args environ), 0) (Xproc (x_errno s) (x_tried s ++ [path]))
  | Some e => if e =? ENOEXEC then Exit (Undefined "write past the end of shArgv") (Xproc e (x_tried s ++ [path])) else Ret (None, e) (Xproc e (x_tried s ++ [path]))
  end.
Proof.
  intros Hl. unfold attempt, execve. cbv [mbind M_bind]. rewrite !vector_app. destruct (k_execve path) as [e|]; [|done]. cbn [get x_errno].
  destruct (e =? ENOEXEC); [|done]. rewrite execShScript_overflows; [done|]. rewrite length_app, length_map. cbn. lia.
Qed.

(** *** The search *)

Lemma prefixes_split p : prefixes p = match split_at PATH_SEP p with Some (a, b) => a :: prefixes b | None => [p] end.
Proof.
  induction p as [|c p IH]; [done|]. cbn. destruct (c =? PATH_SEP); [done|]. rewrite IH. by destruct (split_at PATH_SEP p) as [[a b]|].
Qed.
Lemma split_at_length c p a b : split_at c p = Some (a, b) -> (length b < length p)%nat.
Proof.
  revert a b. induction p as [|x p IH]; [done|]. intros a b. cbn. destruct (x =? c); [intros [= <- <-]; lia|].
  destruct (split_at c p) as [[a' b']|]; [|done]. intros [= <- <-]. specialize (IH _ _ eq_refl). lia.
Qed.
(** The loop without the pointers into [PATH]. *)
Fixpoint try_all (cs : list (list Z)) (argc : nat) (argv envp : list cell) (fnd : bool) (saved : Z) : M xproc (option image * (bool * Z)) :=
  match cs with
  | [] => mret (None, (fnd, saved))
  | c :: cs =>
      r ← attempt c argc argv envp;
      match r with
      | (Some i, _) => mret (Some i, (fnd, 0))
      | (None, e) => try_all cs argc argv envp ((e =? EACCES_X) || fnd) e
      end
  end.
Lemma path_loop_all fuel filename p argc argv envp : (forall x, str_ok x = true) -> forall fnd saved s, (length p < fuel)%nat ->
  path_loop fuel filename p argc argv envp fnd s = try_all (map (fun prefix => pathname_of prefix filename) (prefixes p)) argc argv envp fnd saved s.
Proof.
  intros Hstr. revert p. induction fuel as [|fuel IH]; intros p fnd saved s Hf; [lia|]. cbn [path_loop]. rewrite prefixes_split.
  destruct (split_at PATH_SEP p) as [[a b]|] eqn:E; cbn [map try_all]; rewrite Hstr; cbn [negb]; cbv [mbind M_bind]; destruct (attempt _ _ _ _ s) as [[[i|] e] s'|]; try done.
  apply IH. apply split_at_length in E. lia.
Qed.
Lemma try_all_result args environ argc junk ejunk : (argc <= length args + length junk)%nat -> forall cs fnd saved s,
  let o := try_all cs argc (map Ptr args ++ Nullp :: junk) (map Ptr environ ++ Nullp :: ejunk) fnd saved s in
  match list_find ends cs with
  | Some (i, c) =>
      match k_execve c with
      | None => exists e b, o = Ret (Some (Image c args environ), b) (Xproc e (x_tried s ++ take (S i) cs))
      | Some e => o = Exit (Undefined "write past the end of shArgv") (Xproc e (x_tried s ++ take (S i) cs))
      end
  | None => o = Ret (None, (fnd || bool_decide (EACCES_X ∈ errors cs), default saved (last (errors cs)))) (Xproc (default (x_errno s) (last (errors cs))) (x_tried s ++ cs))
  end.
Proof.
  intros Hl. induction cs as [|c cs IH]; intros fnd saved s.
  - cbn. rewrite app_nil_r, orb_false_r. by destruct s.
  - cbn zeta. cbn [list_find try_all]. cbv [mbind M_bind]. rewrite attempt_result by done. destruct (decide (ends c)) as [He|He].
    + cbn [take]. destruct (k_execve c) as [e|] eqn:Ec; [|by eexists _, _]. destruct He as [He|He]; [congruence|]. rewrite Ec in He. injection He as ->. done.
    + destruct (k_execve c) as [e|] eqn:Ec; [|by destruct He; left]. rewrite (proj2 (Z.eqb_neq e ENOEXEC)) by (intros ->; by destruct He; right).
      specialize (IH ((e =? EACCES_X) || fnd) e (Xproc e (x_tried s ++ [c]))). cbn zeta in IH. cbn [x_tried x_errno] in IH.
      destruct (list_find ends cs) as [[i c']|]; cbn.
      * cbn [take] in *. rewrite <- app_assoc in IH. exact IH.
      * rewrite IH, <- app_assoc. unfold errors. cbn [omap list_omap app]. rewrite Ec. fold (errors cs). rewrite last_cons. f_equal; [|f_equal; by destruct (last (errors cs))].
        f_equal. f_equal; [|by destruct (last (errors cs))]. rewrite (orb_comm (e =? EACCES_X) fnd), <- orb_assoc. f_equal.
        clear IH. destruct (Z.eqb_spec e EACCES_X) as [Heq|Hne]; cbn [orb]; [rewrite Heq; symmetry; apply bool_decide_eq_true; set_solver|]. apply bool_decide_ext. set_solver.
Qed.

(** C39: [execlp] tries the files that the slash in the name or the prefixes in [PATH] give, in their order; the first that can be executed
    is, with the arguments up to the null pointer and the environment of the caller, however many arguments there are; if there is none the
    error is [EACCES] if that was met and the last error otherwise; and a file without a known format makes the attempt
    to give it to the shell write past an array. There is memory for the vectors and for the names of the files; a variable
    whose copy has no memory, which is not tested, silently ends the environment, which otherwise is the caller's. *)
Theorem execlp_search PATH environ filename arg va args s : (forall n, alloc_ok n = true) -> (forall x, str_ok x = true) -> arg :: va = map Some args ++ [None] ->
  exec_spec (candidates PATH filename) args (copied environ) s (execlp PATH environ filename arg va s) /\
  ((forall v, v ∈ environ -> dup_ok v = true) -> copied environ = environ).
Proof.
  intros Hal Hstr Hva. split; [|apply copied_all]. destruct (copied_cells environ) as [ejunk Eenv].
  assert (exists junk, junk <> [] /\ build_argv va 1 (<[0%nat := cell_of arg]> (replicate 100 Nullp)) s = Ret (Some (S (length args), map Ptr args ++ Nullp :: junk)) s) as (junk & Hj & Eb).
  { destruct args as [|a args]; cbn [map app] in Hva; injection Hva as -> ->.
    - exists (replicate 99 Nullp). split; [done|]. apply (build_argv_end [] []).
    - apply (build_argv_ok args [a] (replicate 99 Nullp)); done. }
  assert (Hl : (S (length args) <= length args + length junk)%nat) by (destruct junk; [done|cbn; lia]).
  unfold execlp. rewrite !Hal. cbn [negb]. rewrite Eenv, !Hstr. cbn [negb]. rewrite (bind_ret _ _ _ _ _ Eb). unfold exec_spec, candidates. destruct (bool_decide (DIR_SEP ∈ filename)) eqn:Es.
  - cbv [mbind M_bind]. rewrite attempt_result by done. cbn [list_find]. destruct (decide (ends filename)) as [He|He].
    + cbn [take]. destruct (k_execve filename) as [e|] eqn:Ek; [|by eexists]. destruct He as [He|He]; [congruence|]. rewrite Ek in He. by injection He as ->.
    + cbn [fmap option_fmap option_map]. unfold search_errno, errors. cbn [omap list_omap]. destruct (k_execve filename) as [e|] eqn:Ek; [|by destruct He; left].
      rewrite (proj2 (Z.eqb_neq e ENOEXEC)) by (intros ->; by destruct He; right). cbn.
      destruct (decide (e = EACCES_X)) as [->|]; [done|]. by rewrite bool_decide_false by set_solver.
  - set (p := match PATH with None | Some [] => bytes "." | Some p => p end).
    cbv [mbind M_bind]. rewrite (path_loop_all _ _ _ _ _ _ Hstr _ 0) by lia. set (cs := map _ (prefixes p)).
    assert (Hcs : cs <> []) by (unfold cs; rewrite prefixes_split; by destruct (split_at _ _) as [[]|]).
    pose proof (try_all_result args (copied environ) (S (length args)) junk ejunk Hl cs false 0 s) as H. cbn zeta in H.
    destruct (list_find ends cs) as [[i c]|].
    + destruct (k_execve c); [by rewrite H|]. destruct H as (e & b & ->). by eexists.
    + rewrite H. cbn. unfold search_errno. by destruct (bool_decide _).
Qed.
End Execlp.

Module ExecDemo.
(** [/bin] may not be searched, [/usr/bin/ls] can be executed, and [/opt/run] is a script without a first line. *)
Definition env : ExecEnv := {|
  k_execve p := if bool_decide (p = bytes "/usr/bin/ls") then None else if bool_decide (p = bytes "/opt/run") then Some ENOEXEC else if bool_decide (p = bytes "/bin/ls") then Some EACCES_X else Some 2;
  alloc_ok _ := true; dup_ok v := negb (bool_decide (v = bytes "BIG=1")); str_ok _ := true |}.
#[local] Existing Instance env.
Definition PATH : option (list Z) := Some (bytes "/bin::/usr/bin").
Example runs_ls : execlp PATH [] (bytes "ls") (Some (bytes "ls")) [Some (bytes "-l"); None] (Xproc 0 []) =
  Ret (Runs (Image (bytes "/usr/bin/ls") [bytes "ls"; bytes "-l"] [])) (Xproc 2 [bytes "/bin/ls"; bytes "./ls"; bytes "/usr/bin/ls"]).
Proof. by vm_compute. Qed.
Example script_overflows : execlp PATH [] (bytes "/opt/run") (Some (bytes "run")) [None] (Xproc 0 []) = Exit (Undefined "write past the end of shArgv") (Xproc 8 [bytes "/opt/run"]).
Proof. by vm_compute. Qed.
(** A copy that has no memory ends the environment of the new program. *)
Example environment_cut : execlp PATH [bytes "A=1"; bytes "BIG=1"; bytes "B=2"] (bytes "ls") (Some (bytes "ls")) [None] (Xproc 0 []) =
  Ret (Runs (Image (bytes "/usr/bin/ls") [bytes "ls"] [bytes "A=1"])) (Xproc 2 [bytes "/bin/ls"; bytes "./ls"; bytes "/usr/bin/ls"]).
Proof. by vm_compute. Qed.
End ExecDemo.
Lemma execlp_search_witness : @exec_spec ExecDemo.env (@candidates ExecDemo.PATH (bytes "ls")) [bytes "ls"; bytes "-l"] [bytes "HOME=/"] (Xproc 0 [])
  (@execlp ExecDemo.env ExecDemo.PATH [bytes "HOME=/"] (bytes "ls") (Some (bytes "ls")) [Some (bytes "-l"); None] (Xproc 0 [])).
Proof. exact (proj1 (@execlp_search ExecDemo.env ExecDemo.PATH [bytes "HOME=/"] (bytes "ls") (Some (bytes "ls")) [Some (bytes "-l"); None] [bytes "ls"; bytes "-l"] (Xproc 0 []) (fun _ => eq_refl) (fun _ => eq_refl) eq_refl)). Defined.
