(* ===== verification/ProdCond.v ===== *)
(** Producers and a consumer with a condition variable: [src/tlpi-dist/threads/prod_condvar.c].

    The threads take their steps in any order: each call of the thread library and each access to the shared counter
    is one.  A mutex and a condition variable that are initialised do not fail; creating a thread may.  The counters are
    of type [int]: where one overflows the program has no meaning, and the run ends there. *)
From S2P Require Import Prelude CStr.

(** Where a producer is in its loop. *)
Inductive ppc := PTop | PLock | PInc | PUnlock | PSignal | PEnd.
Record prod := Prod { p_cnt : Z; p_j : Z; p_pc : ppc }.
(** Where [main] is: creating threads for the remaining arguments, before a call or a test, or asleep in [pthread_cond_wait]. *)
Inductive mpc := MCreate (args : list (list Z)) | MLock | MTest | MBlocked | MWoken | MConsume | MUnlock | MExit | MFailed | MOverflow.
(** An [int] that is incremented or added to. *)
Definition int_ok (z : Z) : bool := (- 2 ^ 31 <=? z) && (z <=? 2 ^ 31 - 1).
(** The owner of [mtx] ([None] inside for [main]), the counter, the variables of [main], the producers. *)
Record cvsys := Cv { mtx : option (option nat); avail : Z; m_pc : mpc; totRequired : Z; numConsumed : Z; m_done : bool; prods : list prod }.

Definition set_prod (i : nat) (p : prod) (m : option (option nat)) (a : Z) (s : cvsys) : cvsys :=
  Cv m a (m_pc s) (totRequired s) (numConsumed s) (m_done s) (<[i := p]> (prods s)).
Definition at_main (pc : mpc) (m : option (option nat)) (s : cvsys) : cvsys :=
  Cv m (avail s) pc (totRequired s) (numConsumed s) (m_done s) (prods s).
(** [pthread_cond_signal]: only [main] ever waits. *)
Definition cond_signal (s : cvsys) : cvsys := match m_pc s with MBlocked => at_main MWoken (mtx s) s | _ => s end.
Definition ended (s : cvsys) : bool := match m_pc s with MExit | MFailed | MOverflow => true | _ => false end.

(** The next step of producer [i]; none when it waits for the mutex or is done, or the process has ended. *)
Definition producer (i : nat) (s : cvsys) : option cvsys :=
  if ended s then None else
  match prods s !! i with
  | None => None
  | Some (Prod cnt j pc) =>
      match pc with
      | PTop => Some (set_prod i (Prod cnt j (if j <? cnt then PLock else PEnd)) (mtx s) (avail s) s)
      | PLock => if bool_decide (mtx s = None) then Some (set_prod i (Prod cnt j PInc) (Some (Some i)) (avail s) s) else None
      | PInc => Some (if int_ok (avail s + 1) then set_prod i (Prod cnt j PUnlock) (mtx s) (avail s + 1) s else at_main MOverflow (mtx s) s)
      | PUnlock => Some (set_prod i (Prod cnt j PSignal) None (avail s) s)
      | PSignal => Some (cond_signal (set_prod i (Prod cnt (j + 1) PTop) (mtx s) (avail s) s))
      | PEnd => None
      end
  end.
(** The next step of [main]; [ok] unless [pthread_create] fails. *)
Definition main (ok : bool) (s : cvsys) : option cvsys :=
  match m_pc s with
  | MCreate [] => Some (at_main MLock (mtx s) s)
  | MCreate (arg :: args) =>
      if negb (int_ok (totRequired s + atoi arg)) then Some (at_main MOverflow (mtx s) s)
      else if ok then Some (Cv (mtx s) (avail s) (MCreate args) (totRequired s + atoi arg) (numConsumed s) (m_done s) (prods s ++ [Prod (atoi arg) 0 PTop]))
      else Some (at_main MFailed (mtx s) s)
  | MLock | MWoken => if bool_decide (mtx s = None) then Some (at_main MTest (Some None) s) else None
  | MTest => Some (if avail s =? 0 then at_main MBlocked None s else at_main MConsume (mtx s) s)
  | MConsume =>
      if 0 <? avail s then
        if negb (int_ok (numConsumed s + 1)) then Some (at_main MOverflow (mtx s) s) else
        Some (Cv (mtx s) (avail s - 1) MConsume (totRequired s) (numConsumed s + 1) (totRequired s <=? numConsumed s + 1) (prods s))
      else Some (at_main MUnlock (mtx s) s)
  | MUnlock => Some (at_main (if m_done s then MExit else MLock) None s)
  | MBlocked | MExit | MFailed | MOverflow => None
  end.
(** Steps; the flag is set for a return of [pthread_cond_wait] without a signal. *)
Inductive cv_step : bool -> cvsys -> cvsys -> Prop :=
  | cv_main ok s s' : main ok s = Some s' -> cv_step false s s'
  | cv_prod i s s' : producer i s = Some s' -> cv_step false s s'
  | cv_spurious s : m_pc s = MBlocked -> cv_step true s (at_main MWoken (mtx s) s).
Definition cv_start (args : list (list Z)) : cvsys := Cv None 0 (MCreate args) 0 0 false [].
(** A run with [n] steps, [k] of them returns without a signal. *)
Inductive cv_run (s0 : cvsys) : nat -> nat -> cvsys -> Prop :=
  | cv_run_start : cv_run s0 0 0 s0
  | cv_run_step n k s s' sp : cv_run s0 n k s -> cv_step sp s s' -> cv_run s0 (S n) (if sp : bool then S k else k) s'.

(** ** The invariant *)

Fixpoint zsum {A} (f : A -> Z) (l : list A) : Z := match l with [] => 0 | x :: l => f x + zsum f l end.
Lemma zsum_app {A} (f : A -> Z) l1 l2 : zsum f (l1 ++ l2) = zsum f l1 + zsum f l2.
Proof. induction l1 as [|x l1 IH]; cbn; lia. Qed.
Lemma zsum_insert {A} (f : A -> Z) l i x y : l !! i = Some x -> zsum f (<[i := y]> l) = zsum f l - f x + f y.
Proof. revert i. induction l as [|z l IH]; intros [|i] H; [done|done|injection H as ->; cbn; lia|]. specialize (IH i H). cbn [zsum]. change (<[S i := y]> (z :: l)) with (z :: <[i := y]> l). cbn [zsum]. lia. Qed.
Lemma zsum_le {A} (f g : A -> Z) l : Forall (fun x => f x <= g x) l -> zsum f l <= zsum g l.
Proof. induction 1; cbn; lia. Qed.

Definition produced (p : prod) : Z := p_j p + match p_pc p with PUnlock | PSignal => 1 | _ => 0 end.
Definition prod_ok (p : prod) : Prop := 0 <= p_cnt p /\ 0 <= p_j p <= p_cnt p /\ match p_pc p with PTop => True | PEnd => p_j p = p_cnt p | _ => p_j p < p_cnt p end.
Definition prod_owns (p : prod) : Prop := p_pc p = PInc \/ p_pc p = PUnlock.
Definition main_owns (pc : mpc) : Prop := match pc with MTest | MConsume | MUnlock => True | _ => False end.
Definition created (pc : mpc) : list (list Z) := match pc with MCreate args => args | _ => [] end.

Record cv_ok (args : list (list Z)) (s : cvsys) : Prop := CvOk {
  ok_prods : Forall prod_ok (prods s);
  ok_args : Forall (fun a => 0 <= atoi a) (created (m_pc s));
  ok_total : m_pc s <> MFailed -> totRequired s + zsum atoi (created (m_pc s)) = zsum atoi args;
  ok_counts : zsum p_cnt (prods s) = totRequired s;
  ok_avail : 0 <= avail s;
  ok_consumed : 0 <= numConsumed s;
  ok_units : zsum produced (prods s) = avail s + numConsumed s;
  ok_mtx_main : main_owns (m_pc s) -> mtx s = Some None;
  ok_mtx_prod : forall i p, prods s !! i = Some p -> prod_owns p -> mtx s = Some (Some i);
  ok_owner_main : mtx s = Some None -> main_owns (m_pc s);
  ok_owner_prod : forall i, mtx s = Some (Some i) -> exists p, prods s !! i = Some p /\ prod_owns p;
  ok_signal : m_pc s = MBlocked -> 0 < avail s -> exists i p, prods s !! i = Some p /\ (p_pc p = PUnlock \/ p_pc p = PSignal);
  ok_early : match m_pc s with MCreate _ => numConsumed s = 0 | _ => True end;
  ok_done : (0 < numConsumed s -> m_done s = (totRequired s <=? numConsumed s)) /\ (numConsumed s = 0 -> m_done s = false);
  ok_goes_on : match m_pc s with MLock | MTest | MBlocked | MWoken => m_done s = false | MExit => m_done s = true | _ => True end;
  ok_most : totRequired s + zsum atoi (created (m_pc s)) <= zsum atoi args;
  ok_int : zsum atoi args <= 2 ^ 31 - 1;
  ok_defined : m_pc s <> MOverflow
}.

Lemma cv_ok_start args : Forall (fun a => 0 <= atoi a) args -> zsum atoi args <= 2 ^ 31 - 1 -> cv_ok args (cv_start args).
Proof. intros H Hi. constructor; cbn [cv_start mtx avail m_pc totRequired numConsumed m_done prods created main_owns zsum]; try done; lia. Qed.
Lemma int_ok_in z : 0 <= z <= 2 ^ 31 - 1 -> int_ok z = true.
Proof. intros H. unfold int_ok. apply andb_true_iff. split; apply Z.leb_le; lia. Qed.
Lemma args_sum_pos al : Forall (fun a => 0 <= atoi a) al -> 0 <= zsum atoi al.
Proof. induction 1; cbn; lia. Qed.
Lemma units_le s args : cv_ok args s -> avail s + numConsumed s <= totRequired s <= 2 ^ 31 - 1.
Proof.
  intros Hok. pose proof (ok_most _ _ Hok) as Hm. pose proof (ok_int _ _ Hok) as Hi. pose proof (args_sum_pos _ (ok_args _ _ Hok)) as Hz. split; [|lia].
  rewrite <- (ok_units _ _ Hok), <- (ok_counts _ _ Hok). apply zsum_le. eapply Forall_impl; [apply (ok_prods _ _ Hok)|].
  intros [cnt j pc] (H1 & H2 & H3). unfold produced. cbn in *. destruct pc; lia.
Qed.
Ltac cv_fields := constructor; cbn [at_main set_prod cond_signal mtx avail m_pc totRequired numConsumed m_done prods created main_owns zsum] in *; try done; try lia.

Lemma cv_ok_main ok args s s' : cv_ok args s -> main ok s = Some s' -> cv_ok args s'.
Proof.
  intros Hok0 E. pose proof (units_le _ _ Hok0) as Hunits. destruct Hok0 as [Hp Ha Ht Hc Hav Hco Hu Hmm Hmp Hom Hop Hs He Hd Hg Hmost Hint Hdef]. unfold main in E.
  destruct s as [m a pc tot con dn ps]. cbn [mtx avail m_pc totRequired numConsumed m_done prods] in *.
  assert (Hfree : m = None \/ m = Some None -> forall i p, ps !! i = Some p -> prod_owns p -> False) by (intros [-> | ->] i p Hi Ho; by specialize (Hmp i p Hi Ho)).
  assert (Hmine : main_owns pc -> forall i p, ps !! i = Some p -> prod_owns p -> False) by (intros H; apply Hfree; right; by apply Hmm).
  destruct pc as [[|arg al]| | | | | | | | |]; try done; try (specialize (Ht ltac:(done)); cbn in Ht).
  - injection E as <-. cv_fields. by apply (proj2 Hd).
  - apply Forall_cons in Ha as [Ha0 Ha]. assert (0 <= zsum atoi al) by (by apply args_sum_pos). cbn [created zsum] in Hmost.
    rewrite int_ok_in in E by lia. cbn [negb] in E. destruct ok; injection E as <-; cv_fields.
    + apply Forall_app. split; [done|]. apply Forall_singleton. unfold prod_ok. cbn. lia.
    + rewrite zsum_app. cbn. lia.
    + rewrite zsum_app, Hu. unfold produced. cbn. lia.
    + intros i p [Hi|[_ Hi]]%lookup_app_Some; [by apply Hmp|]. apply list_lookup_singleton_Some in Hi as [_ <-]. by intros [|].
    + intros i Hi. destruct (Hop i Hi) as (p & Hl & Ho). exists p. split; [by apply lookup_app_l_Some|done].
    + split; [lia|apply Hd].
  - case_bool_decide; [|done]. injection E as <-. subst m. cv_fields. intros i p Hi Ho. by destruct (Hfree (or_introl eq_refl) i p Hi Ho).
  - injection E as <-. destruct (Z.eqb_spec a 0); cv_fields. intros i p Hi Ho. by destruct (Hmine I i p Hi Ho).
  - case_bool_decide; [|done]. injection E as <-. subst m. cv_fields. intros i p Hi Ho. by destruct (Hfree (or_introl eq_refl) i p Hi Ho).
  - destruct (Z.ltb_spec 0 a); [rewrite int_ok_in in E by lia; cbn [negb] in E|]; injection E as <-; cv_fields.
  - injection E as <-. destruct dn; cv_fields; intros i p Hi Ho; by destruct (Hmine I i p Hi Ho).
Qed.

Lemma cv_ok_wake args s : cv_ok args s -> m_pc s = MBlocked -> cv_ok args (at_main MWoken (mtx s) s).
Proof.
  intros [Hp Ha Ht Hc Hav Hco Hu Hmm Hmp Hom Hop Hs He Hd Hg Hmost Hint Hdef] E. destruct s as [m a pc tot con dn ps]. cbn [m_pc] in E. subst pc. specialize (Ht ltac:(done)). cv_fields.
Qed.

(** A producer's own step: it takes the free mutex, keeps it, or gives it back, and the units are counted. *)
Lemma cv_ok_set args s i p p' m' a' : cv_ok args s -> prods s !! i = Some p ->
  prod_ok p' -> p_cnt p' = p_cnt p -> 0 <= a' -> produced p' - produced p = a' - avail s ->
  (mtx s = m' \/ mtx s = None /\ m' = Some (Some i) \/ mtx s = Some (Some i) /\ m' = None) ->
  (prod_owns p' <-> m' = Some (Some i)) ->
  (m_pc s = MBlocked -> 0 < a' -> (p_pc p' = PUnlock \/ p_pc p' = PSignal) \/ 0 < avail s /\ p_pc p <> PUnlock /\ p_pc p <> PSignal) ->
  cv_ok args (set_prod i p' m' a' s).
Proof.
  intros [Hp Ha Ht Hc Hav Hco Hu Hmm Hmp Hom Hop Hs He Hd Hg Hmost Hint Hdef] Hi Hok Hcnt Ha' Hpr Hm Hown Hsig.
  destruct s as [m a pc tot con dn ps]. cv_fields.
  - by apply Forall_insert.
  - rewrite (zsum_insert _ _ _ p) by done. lia.
  - rewrite (zsum_insert _ _ _ p) by done. lia.
  - intros H%Hmm. destruct Hm as [<-|[[? _]|[? _]]]; congruence.
  - intros k q [(-> & -> & _)|[Hne Hk]]%list_lookup_insert_Some Hq; [by apply Hown|]. specialize (Hmp k q Hk Hq). destruct Hm as [<-|[[? _]|[? _]]]; congruence.
  - intros ->. destruct Hm as [->|[[_ ?]|[_ ?]]]; [by apply Hom|done|done].
  - intros k Hk. destruct (decide (k = i)) as [->|Hne].
    + exists p'. rewrite list_lookup_insert_eq by (by eapply lookup_lt_Some). split; [done|]. by apply Hown.
    + destruct (Hop k) as (q & Hq & Ho); [destruct Hm as [->|[[_ ?]|[_ ?]]]; congruence|]. exists q. by rewrite list_lookup_insert_ne.
  - intros Epc H. destruct (Hsig Epc H) as [Hn|(Hpos & Hn1 & Hn2)].
    + exists i, p'. rewrite list_lookup_insert_eq by (by eapply lookup_lt_Some). done.
    + destruct (Hs Epc Hpos) as (k & q & Hk & Hq). exists k, q. rewrite list_lookup_insert_ne; [done|]. intros <-. rewrite Hi in Hk. injection Hk as ->. naive_solver.
Qed.
Lemma cv_ok_prod i args s s' : cv_ok args s -> producer i s = Some s' -> cv_ok args s'.
Proof.
  intros Hok E. unfold producer in E. destruct (ended s) eqn:Een; [done|].
  destruct (prods s !! i) as [[cnt j ppc]|] eqn:Ei; [|done].
  assert (prod_ok (Prod cnt j ppc)) as (Hc0 & Hj & Hpc) by (by eapply Forall_lookup_1; [apply (ok_prods _ _ Hok)|]). cbn [p_cnt p_j p_pc] in *.
  pose proof (ok_mtx_prod _ _ Hok i _ Ei) as Hown. pose proof (ok_owner_prod _ _ Hok i) as Howner. rewrite Ei in Howner. pose proof (ok_avail _ _ Hok) as Hav.
  destruct ppc; try done.
  - injection E as <-. eapply cv_ok_set; try done; cbn.
    + unfold prod_ok. cbn. destruct (Z.ltb_spec j cnt); lia.
    + unfold produced. cbn. destruct (j <? cnt); lia.
    + by left.
    + split; [unfold prod_owns; cbn; destruct (j <? cnt); by intros [|]|]. intros (p & [= <-] & [|])%Howner; done.
    + intros _ H. right. done.
  - case_bool_decide; [|done]. injection E as <-. eapply cv_ok_set; try done; cbn.
    + unfold produced. cbn. lia.
    + by right; left.
    + split; [done|]. by left.
    + intros _ H'. right. done.
  - specialize (Hown (or_introl eq_refl)). assert (Hnew : cv_ok args (set_prod i (Prod cnt j PUnlock) (mtx s) (avail s + 1) s)).
    { eapply cv_ok_set; try done; cbn.
      - lia.
      - unfold produced. cbn. lia.
      - by left.
      - split; [done|]. by right.
      - intros _ _. left. by left. }
    pose proof (units_le _ _ Hnew) as Hun. pose proof (ok_consumed _ _ Hok) as Hcon. cbn [set_prod avail numConsumed totRequired] in Hun. rewrite int_ok_in in E by lia. by injection E as <-.
  - injection E as <-. specialize (Hown (or_intror eq_refl)). eapply cv_ok_set; try done; cbn.
    + unfold produced. cbn. lia.
    + by right; right.
    + split; [by intros [|]|done].
    + intros _ _. left. by right.
  - injection E as <-.
    assert (Hset : forall s1, cv_ok args s1 -> prods s1 = prods s -> mtx s1 = mtx s -> avail s1 = avail s -> m_pc s1 <> MBlocked -> cv_ok args (set_prod i (Prod cnt (j + 1) PTop) (mtx s) (avail s) s1)).
    { intros s1 H1 E1 E2 E3 Hnb. apply (cv_ok_set _ _ _ (Prod cnt j PSignal)); rewrite ?E1, ?E2, ?E3; try done; cbn.
      - unfold prod_ok. cbn. lia.
      - unfold produced. cbn. lia.
      - by left.
      - split; [by intros [|]|]. intros (p & [= <-] & [|])%Howner; done. }
    unfold cond_signal. cbn [set_prod m_pc]. destruct (m_pc s) eqn:Epc; try (apply Hset; congruence).
    apply (Hset (at_main MWoken (mtx s) s)); try done. by apply cv_ok_wake.
Qed.
Lemma cv_ok_step args sp s s' : cv_ok args s -> cv_step sp s s' -> cv_ok args s'.
Proof. intros Hok H. destruct H; [by eapply cv_ok_main|by eapply cv_ok_prod|by apply cv_ok_wake]. Qed.
Lemma cv_ok_run args n k s : Forall (fun a => 0 <= atoi a) args -> zsum atoi args <= 2 ^ 31 - 1 -> cv_run (cv_start args) n k s -> cv_ok args s.
Proof. intros Ha Hi. induction 1; [by apply cv_ok_start|by eapply cv_ok_step]. Qed.

(** ** Progress *)

(** When nobody can go on but by a wakeup without a signal, all producers are through. *)
Lemma cv_stuck args s : cv_ok args s -> (forall s', ~ cv_step false s s') -> ended s = true \/ m_pc s = MBlocked /\ mtx s = None /\ Forall (fun p => p_pc p = PEnd) (prods s).
Proof.
  intros Hok Hno. destruct (ended s) eqn:Een; [by left|right].
  assert (Hp : forall i, producer i s = None) by (intros i; destruct (producer i s) eqn:E; [|done]; by destruct (Hno _ (cv_prod i s _ E))).
  assert (Hm : main true s = None) by (destruct (main true s) eqn:E; [|done]; by destruct (Hno _ (cv_main true s _ E))).
  assert (Hfree : mtx s = None).
  { destruct (mtx s) as [[i|]|] eqn:E; [| |done].
    - destruct (ok_owner_prod _ _ Hok i E) as ([cnt j pc] & Hi & Ho). specialize (Hp i). unfold producer in Hp. rewrite Een, Hi in Hp. destruct Ho as [Ho|Ho]; cbn in Ho; by rewrite Ho in Hp.
    - pose proof (ok_owner_main _ _ Hok E) as Ho. unfold main in Hm. destruct (m_pc s); try done. destruct (0 <? avail s); [|done]. by destruct (negb _). }
  split_and!; [|done|].
  - unfold main in Hm. unfold ended in Een. rewrite Hfree in Hm. destruct (m_pc s) as [[]| | | | | | | | |]; try done; [by destruct (negb _)|]. destruct (0 <? avail s); [|done]. by destruct (negb _).
  - apply Forall_lookup_2. intros i [cnt j pc] Hi. specialize (Hp i). unfold producer in Hp. rewrite Een, Hi, Hfree in Hp. by destruct pc.
Qed.
Lemma all_through ps : Forall prod_ok ps -> Forall (fun p => p_pc p = PEnd) ps -> zsum produced ps = zsum p_cnt ps.
Proof.
  intros H1 H2. induction ps as [|[cnt j pc] ps IH]; [done|]. apply Forall_cons in H1 as [(? & ? & Hj) H1]. apply Forall_cons in H2 as [Hpc H2]. cbn in *. subst pc.
  rewrite (IH H1 H2). unfold produced. cbn. lia.
Qed.

(** A producer that is about to add a unit has one left to produce. *)
Lemma unit_room args s i p : cv_ok args s -> prods s !! i = Some p -> p_pc p = PInc -> avail s + numConsumed s + 1 <= 2 ^ 31 - 1.
Proof.
  intros Hok Hi Hpc. pose proof (units_le _ _ Hok) as [_ Ht]. rewrite <- (ok_units _ _ Hok). rewrite <- (ok_counts _ _ Hok) in Ht.
  assert (zsum produced (prods s) + 1 <= zsum p_cnt (prods s)); [|lia]. pose proof (ok_prods _ _ Hok) as F. revert Hi F. generalize (prods s) as ps. clear -Hpc. intros ps. revert i.
  induction ps as [|q ps IH]; intros i Hi F; [done|]. apply Forall_cons in F as [Hq F]. assert (produced q <= p_cnt q).
  { destruct q as [cnt j pc], Hq as (H1 & H2 & H3). unfold produced. cbn in *. destruct pc; lia. }
  destruct i as [|i]; cbn [zsum].
  - injection Hi as ->. assert (zsum produced ps <= zsum p_cnt ps).
    { apply zsum_le. eapply Forall_impl; [exact F|]. intros [cnt j pc] (H1 & H2 & H3). unfold produced. cbn in *. destruct pc; lia. }
    assert (produced p + 1 <= p_cnt p); [|lia]. destruct p as [cnt j pc], Hq as (H1 & H2 & H3). unfold produced. cbn in *. subst pc. lia.
  - specialize (IH i Hi F). lia.
Qed.
(** How many steps can follow. *)
Definition prod_work (p : prod) : Z :=
  let r := p_cnt p - p_j p in
  match p_pc p with PTop => 20 * r + 1 | PLock => 20 * r | PInc => 20 * r - 1 | PUnlock => 20 * r - 10 | PSignal => 20 * r - 11 | PEnd => 0 end.
Definition args_work (args : list (list Z)) : Z := 3 + zsum (fun a => 20 * atoi a + 2) args.
Definition main_work (s : cvsys) : Z :=
  match m_pc s with
  | MCreate args => args_work args
  | MLock | MWoken => 2 | MTest => 1 | MUnlock => 3
  | MConsume => if avail s =? 0 then 4 else 0
  | MBlocked | MExit | MFailed | MOverflow => 0
  end.
Definition cv_work (s : cvsys) : Z := 8 * avail s + main_work s + zsum prod_work (prods s).

Lemma args_work_pos args : Forall (fun a => 0 <= atoi a) args -> 3 <= args_work args.
Proof. unfold args_work. induction 1 as [|a l H _ IH]; cbn; lia. Qed.
Lemma prods_work_pos ps : Forall prod_ok ps -> 0 <= zsum prod_work ps.
Proof.
  induction 1 as [|[cnt j pc] ps (H1 & H2 & H3) _ IH]; cbn [zsum]; [lia|]. cbn [p_cnt p_j p_pc] in *.
  assert (0 <= prod_work (Prod cnt j pc)) by (unfold prod_work; cbn; destruct pc; lia). lia.
Qed.
Lemma cv_work_pos args s : cv_ok args s -> 0 <= cv_work s.
Proof.
  intros Hok. pose proof (prods_work_pos _ (ok_prods _ _ Hok)). pose proof (ok_avail _ _ Hok). unfold cv_work, main_work.
  pose proof (ok_args _ _ Hok) as Ha. destruct (m_pc s); try lia; [apply args_work_pos in Ha; cbn in Ha; lia|]. destruct (avail s =? 0); lia.
Qed.
Lemma main_work_down ok args s s' : cv_ok args s -> main ok s = Some s' -> cv_work s' < cv_work s.
Proof.
  intros Hok E. pose proof (ok_args _ _ Hok) as Ha. pose proof (ok_avail _ _ Hok) as Hav. pose proof (ok_consumed _ _ Hok) as Hco. pose proof (units_le _ _ Hok) as Hun. unfold main in E. unfold cv_work, main_work.
  destruct s as [m a pc tot con dn ps]. cbn [mtx avail m_pc totRequired numConsumed m_done prods created] in *.
  destruct pc as [[|arg al]| | | | | | | | |]; try done; repeat (case_bool_decide; [|done]).
  - injection E as <-. cbn. unfold args_work. cbn. lia.
  - apply Forall_cons in Ha as [Ha0 Ha]. pose proof (args_work_pos al Ha). destruct (negb (int_ok (tot + atoi arg))); [injection E as <-; cbn [at_main avail m_pc prods]; unfold args_work in *; cbn [zsum] in *; lia|]. destruct ok; injection E as <-; cbn [at_main avail m_pc prods]; rewrite ?zsum_app; unfold args_work in *; cbn [zsum] in *; [|lia].
    change (prod_work (Prod (atoi arg) 0 PTop)) with (20 * (atoi arg - 0) + 1). lia.
  - injection E as <-. cbn. lia.
  - injection E as <-. destruct (Z.eqb_spec a 0); cbn; [lia|]. rewrite (proj2 (Z.eqb_neq a 0)) by done. lia.
  - injection E as <-. cbn. lia.
  - assert (con + 1 <= 2 ^ 31 - 1 \/ a = 0) by lia. destruct (Z.ltb_spec 0 a); [rewrite int_ok_in in E by lia; cbn [negb] in E|]; injection E as <-; cbn; destruct (Z.eqb_spec a 0); try lia. destruct (a - 1 =? 0); lia.
  - injection E as <-. destruct dn; cbn; lia.
Qed.
Lemma prod_work_down i args s s' : cv_ok args s -> producer i s = Some s' -> cv_work s' < cv_work s.
Proof.
  intros Hok E. unfold producer in E. destruct (ended s); [done|]. destruct (prods s !! i) as [[cnt j pc]|] eqn:Ei; [|done].
  assert (prod_ok (Prod cnt j pc)) as (H1 & H2 & H3) by (by eapply Forall_lookup_1; [apply (ok_prods _ _ Hok)|]). cbn [p_cnt p_j p_pc] in *.
  assert (Hset : forall q m a, a = avail s \/ 0 < a -> cv_work (set_prod i q m a s) <= cv_work s + 8 * (a - avail s) - prod_work (Prod cnt j pc) + prod_work q).
  { intros q m a Ha. unfold cv_work. cbn [set_prod avail prods]. rewrite (zsum_insert _ _ _ (Prod cnt j pc)) by done.
    assert (main_work (set_prod i q m a s) <= main_work s); [|lia]. unfold main_work. cbn [set_prod m_pc avail].
    destruct (m_pc s); try lia. destruct (Z.eqb_spec a 0), (Z.eqb_spec (avail s) 0); lia. }
  pose proof (ok_avail _ _ Hok) as Hav. pose proof (ok_consumed _ _ Hok) as Hco.
  assert (Hinc : pc = PInc -> int_ok (avail s + 1) = true).
  { intros ->. apply int_ok_in. pose proof (unit_room _ _ _ _ Hok Ei eq_refl) as Hr. lia. }
  destruct pc; try done; try (case_bool_decide; [|done]); try (rewrite Hinc in E by done); injection E as <-.
  1, 2, 3, 4: (eapply Z.le_lt_trans; [apply Hset; lia|]); unfold prod_work; cbn; try lia.
  - destruct (Z.ltb_spec j cnt); lia.
  - pose proof (Hset (Prod cnt (j + 1) PTop) (mtx s) (avail s) (or_introl eq_refl)) as Hw. 
    change (prod_work (Prod cnt (j + 1) PTop)) with (20 * (cnt - (j + 1)) + 1) in Hw. change (prod_work (Prod cnt j PSignal)) with (20 * (cnt - j) - 11) in Hw.
    assert (Hsig : forall s1, cv_work (cond_signal s1) <= cv_work s1 + 2) by (intros s1; unfold cond_signal; destruct (m_pc s1) eqn:Epc; try lia; unfold cv_work, main_work; rewrite Epc; cbn; lia).
    specialize (Hsig (set_prod i (Prod cnt (j + 1) PTop) (mtx s) (avail s) s)). lia.
Qed.
Lemma cv_run_work args n k s : Forall (fun a => 0 <= atoi a) args -> zsum atoi args <= 2 ^ 31 - 1 -> cv_run (cv_start args) n k s -> Z.of_nat n + cv_work s <= args_work args + 3 * Z.of_nat k.
Proof.
  intros Ha Hi. induction 1 as [|n k s s' sp Hr IH Hs].
  - unfold cv_work. cbn. lia.
  - pose proof (cv_ok_run _ _ _ _ Ha Hi Hr) as Hok. destruct Hs as [ok s s' H|i s s' H|s H].
    + pose proof (main_work_down _ _ _ _ Hok H). lia.
    + pose proof (prod_work_down _ _ _ _ Hok H). lia.
    + assert (cv_work (at_main MWoken (mtx s) s) = cv_work s + 2) by (unfold cv_work, main_work; rewrite H; cbn; lia). lia.
Qed.

(** C40: with counts that are not negative, not all zero, and whose sum is an [int], under every interleaving and with wakeups that no signal caused: no counter
    overflows or gets out of the range from 0 to the sum; when the program ends it has consumed exactly what was to be produced; the
    threads never wait for each other without end; and the length of a run is bounded but for those wakeups. *)
Theorem prod_condvar_all_consumed args n k s : Forall (fun a => 0 <= atoi a) args -> 0 < zsum atoi args <= 2 ^ 31 - 1 -> cv_run (cv_start args) n k s ->
  m_pc s <> MOverflow /\ (0 <= avail s <= zsum atoi args /\ 0 <= numConsumed s <= zsum atoi args) /\
  (m_pc s = MExit -> numConsumed s = zsum atoi args /\ avail s = 0) /\
  ((forall s', ~ cv_step false s s') -> ended s = true) /\
  Z.of_nat n <= args_work args + 3 * Z.of_nat k.
Proof.
  intros Ha [Hpos Hmax] Hr. pose proof (cv_ok_run _ _ _ _ Ha Hmax Hr) as Hok. pose proof (units_le _ _ Hok) as Hle. split; [apply (ok_defined _ _ Hok)|].
  pose proof (ok_avail _ _ Hok) as Hav. pose proof (ok_consumed _ _ Hok) as Hco. pose proof (ok_most _ _ Hok) as Hm. pose proof (ok_args _ _ Hok) as Hal.
  assert (0 <= zsum atoi (created (m_pc s))) by (clear -Hal; induction Hal; cbn; lia).
  assert (Hall : m_pc s <> MFailed -> created (m_pc s) = [] -> totRequired s = zsum atoi args) by (intros H1 H2; pose proof (ok_total _ _ Hok H1) as Ht; rewrite H2 in Ht; cbn in Ht; lia).
  pose proof (ok_done _ _ Hok) as [Hd Hd0]. pose proof (ok_goes_on _ _ Hok) as Hg. split; [lia|]. split; [|split].
  - intros Epc. rewrite Epc in Hall, Hg. specialize (Hall ltac:(done) eq_refl). destruct (decide (numConsumed s = 0)) as [Hz|]; [by rewrite (Hd0 Hz) in Hg|].
    rewrite Hd in Hg by lia. apply Z.leb_le in Hg. lia.
  - intros Hno. destruct (cv_stuck _ _ Hok Hno) as [He|(Hb & Hf & Hend)]; [done|]. exfalso. rewrite Hb in Hall, Hg. specialize (Hall ltac:(done) eq_refl).
    assert (avail s = 0).
    { destruct (decide (avail s = 0)) as [|Hn]; [done|]. destruct (ok_signal _ _ Hok Hb ltac:(lia)) as (i & p & Hi & Hp). pose proof (Forall_lookup_1 _ _ _ _ Hend Hi) as Hpe. cbn in Hpe. destruct Hp; congruence. }
    pose proof (all_through _ (ok_prods _ _ Hok) Hend) as Hu. rewrite (ok_units _ _ Hok), (ok_counts _ _ Hok) in Hu.
    rewrite Hd in Hg by lia. apply Z.leb_gt in Hg. lia.
  - pose proof (cv_run_work _ _ _ _ Ha Hmax Hr). pose proof (cv_work_pos _ _ Hok). lia.
Qed.

(** Runs by a schedule: [None] is a step of [main]. *)
Definition turn (t : option nat) (s : cvsys) : option cvsys := match t with Some i => producer i s | None => main true s end.
Fixpoint follow (ts : list (option nat)) (s : cvsys) : option cvsys := match ts with [] => Some s | t :: ts => match turn t s with Some s' => follow ts s' | None => None end end.
Lemma follow_run s0 ts n k s s' : cv_run s0 n k s -> follow ts s = Some s' -> cv_run s0 (length ts + n) k s'.
Proof.
  revert n s. induction ts as [|t ts IH]; intros n s Hr; cbn; [by intros [= <-]|]. destruct (turn t s) as [s1|] eqn:E; [|done]. intros Hf.
  rewrite plus_n_Sm. apply (IH (S n) s1); [|done]. apply (cv_run_step _ _ _ _ _ false Hr). destruct t; [by eapply cv_prod|by eapply cv_main].
Qed.
(** Without anything to produce the consumer waits for ever. *)
Lemma nothing_to_produce : exists n s, cv_run (cv_start [bytes "0"]) n 0 s /\ m_pc s = MBlocked /\ forall s', ~ cv_step false s s'.
Proof.
  eexists _, (Cv None 0 MBlocked 0 0 false [Prod 0 0 PEnd]). split_and!; [|done|].
  - apply (follow_run _ [None; None; Some 0%nat; None; None] 0 0 (cv_start [bytes "0"])); [apply cv_run_start|by vm_compute].
  - intros s' H. inversion H as [ok s0 s1 E|i s0 s1 E|]; subst; [done|]. destruct i; done.
Qed.
(** One producer of one unit, and the consumer is asleep when it comes. *)
Definition demo_turns : list (option nat) := [None; None; None; None; Some 0; Some 0; Some 0; Some 0; Some 0; None; None; None; None; None]%nat.
Definition demo_end : cvsys := Cv None 0 MExit 1 1 true [Prod 1 1 PTop].
Lemma demo_cv_run : cv_run (cv_start [bytes "1"]) (length demo_turns + 0) 0 demo_end.
Proof. apply (follow_run _ _ _ _ (cv_start [bytes "1"])); [apply cv_run_start|by vm_compute]. Qed.
Lemma prod_condvar_all_consumed_witness : numConsumed demo_end = zsum atoi [bytes "1"] /\ avail demo_end = 0.
Proof.
  destruct (prod_condvar_all_consumed [bytes "1"] (length demo_turns + 0) 0 demo_end) as (_ & _ & H & _); [| |exact demo_cv_run|exact (H eq_refl)].
  - constructor; [vm_compute; discriminate|constructor].
  - split; [reflexivity|vm_compute; discriminate].
Defined.
(** Counts whose sum is no [int]: [totRequired] overflows. *)
Example counts_overflow : exists n s, cv_run (cv_start [bytes "2000000000"; bytes "2000000000"]) n 0 s /\ m_pc s = MOverflow.
Proof. eexists _, _. split; [apply (follow_run _ [None; None] 0 0 (cv_start [bytes "2000000000"; bytes "2000000000"])); [apply cv_run_start|vm_compute; reflexivity]|reflexivity]. Qed.
