(* ===== verification/FooHash.v ===== *)
(** Reference-counted objects: [src/apue2e/threads/mutex1.c], and with a hash table [mutex2.c] and [mutex3.c].

    The calls are executed one after the other, with the mutexes, so that a mutex taken twice or destroyed while it is held shows. *)
From S2P Require Import Prelude.

Definition NHASH : Z := 29.
Definition HASH (fp : Z) : nat := Z.to_nat (fp mod NHASH).

(** [f_id] is not given a value by the code that is shown. *)
Record foo := Foo { f_count : Z; f_lock : bool; f_next : option Z; f_id : Z }.
Record fooproc := FooProc { objects : gmap Z foo; fh : list (option Z); hashlock : bool }.
(** What [malloc] and [pthread_mutex_init] give: an address, and memory with anything in it. *)
Class FooEnv := { malloc_foo : gmap Z foo -> option Z; mutex_init_ok : Z -> bool; memory : Z -> foo }.

Definition load (fp : option Z) : M fooproc foo := fun s =>
  match fp with
  | None => Exit (Undefined "null pointer") s
  | Some a => match objects s !! a with Some x => Ret x s | None => Exit (Undefined "no object there") s end
  end.
Definition store (fp : Z) (x : foo) : M fooproc unit := modify (fun s => FooProc (<[fp := x]> (objects s)) (fh s) (hashlock s)).
Definition free (fp : Z) : M fooproc unit := modify (fun s => FooProc (delete fp (objects s)) (fh s) (hashlock s)).
(** A thread that takes a mutex it has already does not go on. *)
Definition lock_hash : M fooproc unit := s ← get; if hashlock s then die Loops else modify (fun s => FooProc (objects s) (fh s) true).
Definition unlock_hash : M fooproc unit := modify (fun s => FooProc (objects s) (fh s) false).
Definition lock_foo (fp : Z) : M fooproc unit :=
  x ← load (Some fp); if f_lock x then die Loops else store fp (Foo (f_count x) true (f_next x) (f_id x)).
Definition unlock_foo (fp : Z) : M fooproc unit := x ← load (Some fp); store fp (Foo (f_count x) false (f_next x) (f_id x)).
Definition destroy_foo (fp : Z) : M fooproc unit := x ← load (Some fp); if f_lock x then die (Undefined "a locked mutex is destroyed") else mret tt.
Definition add_count (fp d : Z) : M fooproc unit := x ← load (Some fp); store fp (Foo (f_count x + d) (f_lock x) (f_next x) (f_id x)).
Definition set_head (idx : nat) (p : option Z) : M fooproc unit := modify (fun s => FooProc (objects s) (<[idx := p]> (fh s)) (hashlock s)).
Definition set_next (fp : Z) (p : option Z) : M fooproc unit := x ← load (Some fp); store fp (Foo (f_count x) (f_lock x) p (f_id x)).
Definition head_of (idx : nat) : M fooproc (option Z) := s ← get; mret (default None (fh s !! idx)).

(** [while (tfp->f_next != fp) tfp = tfp->f_next;] *)
Fixpoint find_before (fuel : nat) (fp : Z) (tfp : option Z) : M fooproc Z :=
  match fuel with
  | O => die Loops
  | S fuel =>
      x ← load tfp;
      if bool_decide (f_next x = Some fp) then mret (default 0 tfp) else find_before fuel fp (f_next x)
  end.
(** Removal from the list, as both versions have it. *)
Definition unlink_foo (fp : Z) : M fooproc unit :=
  s ← get;
  let idx := HASH fp in
  tfp ← head_of idx;
  if bool_decide (tfp = Some fp) then x ← load (Some fp); set_head idx (f_next x)
  else
    t ← find_before (S (size (objects s))) fp tfp;
    x ← load (Some fp);
    set_next t (f_next x).
(** [for (fp = fh[idx]; fp != NULL; fp = fp->f_next)] *)
Fixpoint find_id (fuel : nat) (id : Z) (fp : option Z) : M fooproc (option Z) :=
  match fuel with
  | O => die Loops
  | S fuel =>
      match fp with
      | None => mret None
      | Some a => x ← load (Some a); if f_id x =? id then mret (Some a) else find_id fuel id (f_next x)
      end
  end.

Section Foo.
Context `{E : FooEnv}.

(** The beginning of all three versions of [foo_alloc]. *)
Definition new_foo : M fooproc (option Z) :=
  s ← get;
  match malloc_foo (objects s) with
  | None => mret None
  | Some fp =>
      store fp (Foo 1 false (f_next (memory fp)) (f_id (memory fp))) ;;
      if negb (mutex_init_ok fp) then free fp ;; mret None else mret (Some fp)
  end.

(** mutex1.c *)
Definition foo_alloc1 : M fooproc (option Z) := new_foo.
Definition foo_hold1 (fp : Z) : M fooproc unit := lock_foo fp ;; add_count fp 1 ;; unlock_foo fp.
Definition foo_rele1 (fp : Z) : M fooproc unit :=
  lock_foo fp ;; add_count fp (-1) ;;
  x ← load (Some fp);
  if f_count x =? 0 then unlock_foo fp ;; destroy_foo fp ;; free fp else unlock_foo fp.

(** mutex2.c; [fp0] is what the variable [fp] of [foo_find] contains before it has a value. *)
Definition link_foo (fp : Z) : M fooproc unit :=
  let idx := HASH fp in
  lock_hash ;;
  h ← head_of idx;
  set_next fp h ;;
  x ← load (Some fp);
  set_head idx (f_next x) ;;
  lock_foo fp ;;
  unlock_hash.
Definition foo_alloc2 : M fooproc (option Z) :=
  r ← new_foo;
  match r with
  | None => mret None
  | Some fp => link_foo fp ;; unlock_foo fp ;; mret (Some fp)
  end.
Definition foo_hold2 (fp : Z) : M fooproc unit := foo_hold1 fp.
Definition foo_find2 (fp0 id : Z) : M fooproc (option Z) :=
  let idx := HASH fp0 in
  lock_hash ;;
  s ← get;
  h ← head_of idx;
  r ← find_id (S (size (objects s))) id h;
  (match r with Some fp => foo_hold2 fp | None => mret tt end) ;;
  unlock_hash ;; mret r.
Definition foo_rele2 (fp : Z) : M fooproc unit :=
  lock_foo fp ;;
  x ← load (Some fp);
  if f_count x =? 1 then
    unlock_foo fp ;; lock_hash ;; lock_foo fp ;;
    x ← load (Some fp);
    if negb (f_count x =? 1) then add_count fp (-1) ;; unlock_foo fp ;; unlock_hash
    else unlink_foo fp ;; unlock_hash ;; unlock_foo fp ;; destroy_foo fp ;; free fp
  else add_count fp (-1) ;; unlock_foo fp.

(** mutex3.c: [foo_alloc] does not give [f_lock] back. *)
Definition foo_alloc3 : M fooproc (option Z) :=
  r ← new_foo;
  match r with
  | None => mret None
  | Some fp => link_foo fp ;; mret (Some fp)
  end.
Definition foo_hold3 (fp : Z) : M fooproc unit := lock_hash ;; add_count fp 1 ;; unlock_hash.
Definition foo_find3 (fp0 id : Z) : M fooproc (option Z) :=
  let idx := HASH fp0 in
  lock_hash ;;
  s ← get;
  h ← head_of idx;
  r ← find_id (S (size (objects s))) id h;
  (match r with Some fp => add_count fp 1 | None => mret tt end) ;;
  unlock_hash ;; mret r.
Definition foo_rele3 (fp : Z) : M fooproc unit :=
  lock_hash ;; add_count fp (-1) ;;
  x ← load (Some fp);
  if f_count x =? 0 then unlink_foo fp ;; unlock_hash ;; destroy_foo fp ;; free fp
  else unlock_hash.
End Foo.

(** ** What the functions do *)

Section FooFacts.
Context `{E : FooEnv}.

Definition no_entries (s : fooproc) : Prop := fh s = replicate (Z.to_nat NHASH) None /\ hashlock s = false.
Definition foo0 : fooproc := FooProc ∅ (replicate (Z.to_nat NHASH) None) false.

Ltac foo_run := repeat (progress (cbv [mbind M_bind store free modify get mret M_ret lock_hash unlock_hash lock_foo unlock_foo destroy_foo add_count set_next set_head]; cbn [load objects fh hashlock f_count f_lock f_next f_id negb]; rewrite ?lookup_insert_eq, ?insert_insert_eq)).

Lemma no_entries_head s idx : fh s = replicate (Z.to_nat NHASH) None -> head_of idx s = Ret None s.
Proof.
  intros Hf. unfold head_of. cbv [mbind M_bind get mret M_ret]. rewrite Hf. destruct (replicate _ None !! idx) as [p|] eqn:E0; [|done].
  by apply lookup_replicate in E0 as [-> _].
Qed.
(** One holder after the other: the count says how many, and the last one frees the object. *)
Lemma foo_hold1_result fp c n id s : objects s !! fp = Some (Foo c false n id) ->
  foo_hold1 fp s = Ret tt (FooProc (<[fp := Foo (c + 1) false n id]> (objects s)) (fh s) (hashlock s)).
Proof. intros H. unfold foo_hold1, lock_foo, add_count, unlock_foo. cbv [mbind M_bind]. cbn [load]. rewrite H. foo_run. done. Qed.
Lemma foo_rele1_result fp c n id s : objects s !! fp = Some (Foo c false n id) ->
  foo_rele1 fp s = Ret tt (FooProc (if c =? 1 then delete fp (objects s) else <[fp := Foo (c - 1) false n id]> (objects s)) (fh s) (hashlock s)).
Proof.
  intros H. unfold foo_rele1, lock_foo, add_count, unlock_foo, destroy_foo. cbv [mbind M_bind]. cbn [load]. rewrite H. foo_run.
  destruct (Z.eqb_spec c 1) as [->|Hc].
  - change (1 + -1 =? 0) with true. foo_run. by rewrite delete_insert_eq.
  - rewrite (proj2 (Z.eqb_neq (c + -1) 0)) by lia. foo_run. by replace (c - 1) with (c + -1) by lia.
Qed.
(** [foo_alloc] gives the head of the list its own value back: the new object is not entered, and in [mutex3.c] stays locked. *)
Lemma link_foo_result fp c n id s : no_entries s -> objects s !! fp = Some (Foo c false n id) ->
  link_foo fp s = Ret tt (FooProc (<[fp := Foo c true None id]> (objects s)) (fh s) false).
Proof.
  intros [Hf Hl] H. unfold link_foo. foo_run. rewrite Hl, no_entries_head by done. foo_run. rewrite H. foo_run.
  rewrite Hf, insert_replicate. done.
Qed.
Lemma new_foo_result fp s : malloc_foo (objects s) = Some fp -> mutex_init_ok fp = true ->
  new_foo s = Ret (Some fp) (FooProc (<[fp := Foo 1 false (f_next (memory fp)) (f_id (memory fp))]> (objects s)) (fh s) (hashlock s)).
Proof. intros H1 H2. unfold new_foo. foo_run. rewrite H1, H2. done. Qed.
Lemma foo_alloc2_result fp s : no_entries s -> malloc_foo (objects s) = Some fp -> mutex_init_ok fp = true ->
  foo_alloc2 s = Ret (Some fp) (FooProc (<[fp := Foo 1 false None (f_id (memory fp))]> (objects s)) (fh s) false).
Proof.
  intros Hs H1 H2. unfold foo_alloc2. rewrite (bind_ret _ _ _ _ _ (new_foo_result fp s H1 H2)). foo_run.
  erewrite link_foo_result; [|exact Hs|cbn; apply lookup_insert_eq]. foo_run. done.
Qed.
Lemma foo_alloc3_result fp s : no_entries s -> malloc_foo (objects s) = Some fp -> mutex_init_ok fp = true ->
  foo_alloc3 s = Ret (Some fp) (FooProc (<[fp := Foo 1 true None (f_id (memory fp))]> (objects s)) (fh s) false).
Proof.
  intros Hs H1 H2. unfold foo_alloc3. rewrite (bind_ret _ _ _ _ _ (new_foo_result fp s H1 H2)). foo_run.
  erewrite link_foo_result; [|exact Hs|cbn; apply lookup_insert_eq]. foo_run. done.
Qed.
(** So nothing is ever found, whatever [fp] contains, *)
Lemma foo_find2_result fp0 id s : no_entries s -> foo_find2 fp0 id s = Ret None s.
Proof. intros [Hf Hl]. unfold foo_find2. foo_run. rewrite Hl, no_entries_head by done. foo_run. destruct s. cbn in *. by subst. Qed.
Lemma foo_find3_result fp0 id s : no_entries s -> foo_find3 fp0 id s = Ret None s.
Proof. intros [Hf Hl]. unfold foo_find3. foo_run. rewrite Hl, no_entries_head by done. foo_run. destruct s. cbn in *. by subst. Qed.
(** and the last release follows a null pointer. *)
Lemma foo_rele2_last fp n id s : no_entries s -> objects s !! fp = Some (Foo 1 false n id) -> exists s', foo_rele2 fp s = Exit (Undefined "null pointer") s'.
Proof.
  intros [Hf Hl] H. eexists. unfold foo_rele2. foo_run. rewrite H. foo_run. change (1 =? 1) with true. foo_run. rewrite Hl. foo_run. change (1 =? 1) with true.
  unfold unlink_foo. foo_run. rewrite no_entries_head by done. foo_run. reflexivity.
Qed.
Lemma foo_rele3_last fp b n id s : no_entries s -> objects s !! fp = Some (Foo 1 b n id) -> exists s', foo_rele3 fp s = Exit (Undefined "null pointer") s'.
Proof.
  intros [Hf Hl] H. eexists. unfold foo_rele3. foo_run. rewrite Hl. foo_run. rewrite H. foo_run. change (1 + -1 =? 0) with true.
  unfold unlink_foo. foo_run. rewrite no_entries_head by done. foo_run. reflexivity.
Qed.

(** The removal itself is right: on a list that has the object it takes out that one. *)
Fixpoint chain (h : gmap Z foo) (p : option Z) (l : list Z) : Prop :=
  match l with [] => p = None | a :: l' => p = Some a /\ exists x, h !! a = Some x /\ chain h (f_next x) l' end.
Lemma chain_insert h a x p l : a ∉ l -> chain h p l -> chain (<[a := x]> h) p l.
Proof.
  revert p. induction l as [|b l IH]; intros p Ha; [done|]. intros (Hp & y & Hy & Hl). split; [done|]. exists y.
  apply not_elem_of_cons in Ha as [? ?]. rewrite lookup_insert_ne by done. split; [done|by apply IH].
Qed.
Lemma find_before_chain fp t l2 s : forall l1 p fuel, chain (objects s) p (l1 ++ t :: fp :: l2) -> NoDup (l1 ++ t :: fp :: l2) -> (length l1 < fuel)%nat ->
  find_before fuel fp p s = Ret t s.
Proof.
  induction l1 as [|a l1 IH]; intros p [|fuel] Hc Hn Hf; try (cbn in Hf; lia); destruct Hc as (-> & x & Hx & Hc); cbn [find_before]; cbv [mbind M_bind]; cbn [load]; rewrite Hx.
  - destruct Hc as [-> _]. by rewrite bool_decide_true.
  - assert (f_next x <> Some fp) by (destruct l1; destruct Hc as [-> _]; intros [= <-]; apply NoDup_cons in Hn as [_ Hn]; cbn in Hn; apply NoDup_cons in Hn as [Hin _]; set_solver).
    rewrite bool_decide_false by done. apply IH; [done|by apply NoDup_cons in Hn as [_ ?]|cbn in Hf; lia].
Qed.
Lemma chain_bypass h fp t x y l2 : forall l1 p, chain h p (l1 ++ t :: fp :: l2) -> NoDup (l1 ++ t :: fp :: l2) -> h !! t = Some x -> h !! fp = Some y ->
  chain (<[t := Foo (f_count x) (f_lock x) (f_next y) (f_id x)]> h) p (l1 ++ t :: l2).
Proof.
  induction l1 as [|a l1 IH]; intros p (-> & z & Hz & Hc) Hn Hx Hy.
  - split; [done|]. exists (Foo (f_count x) (f_lock x) (f_next y) (f_id x)). rewrite lookup_insert_eq. split; [done|]. cbn [f_next].
    destruct Hc as (_ & y' & Hy' & Hc). rewrite Hy in Hy'. injection Hy' as <-. apply chain_insert; [|done]. apply NoDup_cons in Hn as [Hn _]. set_solver.
  - apply NoDup_cons in Hn as [Ha Hn]. split; [done|]. exists z. rewrite lookup_insert_ne by set_solver. split; [done|by apply IH].
Qed.
Lemma chain_has h p l a : chain h p l -> a ∈ l -> is_Some (h !! a).
Proof.
  revert p. induction l as [|b l IH]; intros p; [by intros _ ?%not_elem_of_nil|]. intros (_ & x & Hx & Hc) [->|Ha]%elem_of_cons; [by exists x|by eapply IH].
Qed.
Lemma chain_size h p l : chain h p l -> NoDup l -> (length l <= size h)%nat.
Proof.
  intros Hc Hn. rewrite <- (size_list_to_set (C := gset Z) l Hn), <- (size_dom h). apply subseteq_size. intros a Ha%elem_of_list_to_set.
  apply elem_of_dom. by eapply chain_has.
Qed.
Lemma unlink_foo_chain fp l1 l2 s : (HASH fp < length (fh s))%nat -> chain (objects s) (default None (fh s !! HASH fp)) (l1 ++ fp :: l2) -> NoDup (l1 ++ fp :: l2) ->
  exists s', unlink_foo fp s = Ret tt s' /\ chain (objects s') (default None (fh s' !! HASH fp)) (l1 ++ l2) /\ hashlock s' = hashlock s.
Proof.
  intros Hlen Hc Hn. unfold unlink_foo. cbv [mbind M_bind get head_of mret M_ret]. set (p := default None (fh s !! HASH fp)) in *.
  destruct (chain_has _ _ _ fp Hc ltac:(set_solver)) as [y Hy].
  destruct l1 as [|a l1'] eqn:El1.
  - destruct Hc as (Hp & x & Hx & Hc). rewrite Hx in Hy. injection Hy as ->. rewrite bool_decide_true by done. foo_run. rewrite Hx. foo_run. eexists. split; [done|].
    cbn. rewrite list_lookup_insert_eq by done. by split.
  - rewrite bool_decide_false; [|destruct Hc as (-> & _); intros [= <-]; apply NoDup_cons in Hn as [Hn _]; set_solver].
    destruct (exists_last (l := a :: l1') ltac:(done)) as (l0 & t & E0). rewrite E0 in *. rewrite <- !app_assoc in *. cbn [app] in *.
    pose proof (chain_size _ _ _ Hc Hn) as Hs. rewrite length_app in Hs. rewrite (find_before_chain fp t l2 s l0) by (done || lia).
    destruct (chain_has _ _ _ t Hc ltac:(set_solver)) as [x Hx].
    foo_run. rewrite Hy. foo_run. rewrite Hx. foo_run. eexists. split; [done|]. split; [|done]. cbn. by eapply chain_bypass.
Qed.
End FooFacts.
